(* ===== verification/_CoqProject ===== *)
-Q . S2P
Prelude.v
KString.v
Type64.v
Time.v
Random.v
Locks.v
Kalloc.v
Vm.v
VmThm.v
VmUser.v
VmSpace.v
VmLife.v
Multiboot.v
Irq.v
Pipe.v
Proc.v
ProcThm.v
Syscall.v
Cred.v
Signal.v
SignalThm.v
Block.v
Bio.v
BioThm.v
Log.v
LogThm.v
LogBio.v
Fs.v
FsView.v
FsThm.v
FsFile.v
FsRw.v
FsProps.v
FsRun.v
IdeDev.v
IdePorts.v
File.v
SysFd.v
SysDir.v
FdThm.v
FdRefs.v
Tty.v
TtyRing.v
TtyThm.v
TtyLine.v
Console.v
Printf.v
Kbd.v
KbdThm.v
TtyScreen.v
TtyAnsi.v
Ioctl.v
Exec.v
ExecThm.v
SysProc.v
Calm.v
KernelRefs.v
SysMisc.v
SysMiscThm.v
SysStat.v
Trap.v
Mkfs.v
MkfsBlocks.v
MkfsThm.v
MkfsFiles.v
MkfsTree.v
MkfsImage.v
MkfsBoot.v
TrapThm.v
Malloc.v
MallocThm.v
MallocHeap.v
Segments.v
Boot.v
ForkThm.v
