(* ===== verification/Prelude.v ===== *)
(** * Trinix (micro86): a model of the kernel with its theorems

    The program is a small Unix kernel for the i386, descended from xv6, written in C:
    src/kernel, src/drivers and src/include, with the tool that builds its disk image
    (src/kernel/mkfs) and the allocator it gives to user programs (src/muslpatch).  This
    library translates that code function by function and proves what it promises.
    A definition has the name of the C function or struct it models.

    ** The parts and how they interact

    A trap enters the kernel (trap.c); a system call is dispatched on its number and
    takes its arguments from the registers and the memory of the running process
    (syscall.c, sys.c).  Calls on descriptors go through the table of open files
    (file.c) to the file system (fs.c), to pipes (pipe.c) or through devsw to the
    terminals (tty.c, console.c), the memory devices (mem.c, random.c) and the raw disk
    (ide.c).  The file system writes through a log (log.c) to a buffer cache (bio.c),
    which sends its blocks to the disk driver (ide.c) and sleeps until the interrupt.
    Calls on processes work on the process table (proc.c), on page tables (vm.c) and on
    the page allocator (kalloc.c); exec.c replaces the image of a process and signal.c
    calls its handlers.  Interrupts of the clock, the disk, the keyboard and the serial
    line come through the controllers picirq.c sets up.

    - Memory and locks: KString.v (string.c), Type64.v (type64.c), Locks.v (spinlock.c,
      sleeplock.c), Kalloc.v (kalloc.c), Vm.v (vm.c) with VmThm.v, VmUser.v, VmSpace.v and
      VmLife.v, Segments.v (mmu.h, and what vm.c and trap.c load into the processor).
    - Start-up: Multiboot.v (multiboot.c), Irq.v (picirq.c, pit.c), Boot.v (the memory
      setup of main.c, kvm_alloc, the polling loops of kbd.c).
    - Disk: Block.v (blocks as bytes, and the class [BufCache] with its laws
      [BufCacheLaws]: what a buffer cache promises), Bio.v (bio.c and the request queue
      of ide.c) with BioThm.v, which discharges those laws, IdePorts.v (ide.c at the
      ports, memide.c), IdeDev.v (the raw disk device).
    - Log: Log.v (log.c), LogThm.v (proved against [BufCacheLaws]), LogBio.v (with bio.c).
    - File system: Fs.v (fs.c), FsView.v (what a transaction sees), FsThm.v, FsFile.v,
      FsRw.v, FsProps.v (the theorems), FsRun.v (a concrete disk).
    - Processes: Proc.v (proc.c) with ProcThm.v, SysProc.v (fork, exit and waitpid in the
      whole kernel, brk and the calls around them) with ForkThm.v, Exec.v (exec.c) with
      ExecThm.v, Signal.v (signal.c and its calls) with SignalThm.v, Cred.v (ids in sys.c).
    - Descriptors: File.v (file.c), Pipe.v (pipe.c), SysFd.v and SysDir.v (the calls of
      sys.c on descriptors and paths), SysStat.v (statx, readlink, getcwd); FdThm.v,
      FdRefs.v, Calm.v and KernelRefs.v carry the invariant of reference counts.
    - Terminals: Tty.v (tty.c) with TtyRing.v, TtyThm.v, TtyLine.v, TtyScreen.v and
      TtyAnsi.v, Console.v (console.c, tty_aux.c, uart.c, vprintf and _printk), Printf.v
      (printf), Kbd.v (kbd.c) with KbdThm.v, Ioctl.v (sys_ioctl).
    - Clock and devices: Time.v (time.c, tsc.c), Random.v (random.c, mem.c), SysMisc.v
      (clock and name calls) with SysMiscThm.v.
    - Entry: Syscall.v (arguments and dispatch), Trap.v (the table of handlers and trap)
      with TrapThm.v.
    - Outside the kernel: Mkfs.v (mkfs.c) with MkfsBlocks.v, MkfsThm.v, MkfsFiles.v,
      MkfsTree.v, MkfsImage.v and MkfsBoot.v; Malloc.v (malloc.c) with MallocThm.v and
      MallocHeap.v.

    This file holds what all of them use: machine integers with their wrap-around, the
    state monad of kernel code, assignment to a field of a struct, arrays and lists.

    ** How the code is modelled

    Each component's globals are a record.  A function is a program of the monad [M]
    over that record, with four outcomes: [Ok] with a result and a state; [Panic], a call
    of panic; [Fault], an access outside an object or through a null pointer, or an
    argument outside the model; [Block], the processor given up, or a lock or a device
    waited for, with the state at that point.  An integer is a [Z] kept at its width by
    [u8] ... [i64].  Memory the C code casts (pages, page tables, the free list, user
    memory, blocks of the disk, boot information, the frame of a handler) is bytes by
    address; pointers into arrays of structs are indices.  A component that calls
    another contains its state or lifts its programs ([with_lock], [onlog], [onbc],
    [onps], [in_alloc]); File.v, Tty.v and SysMisc.v stack these up to the whole kernel.
    What the code does not own is an argument: what ports read, the time stamp counter,
    the host's files, the linker's symbols, the bytes of stack memory that the code
    reads without setting them.

    There is one processor (NCPU is 1): interleaving happens where code sleeps, is
    scheduled away, or is interrupted.  It is a step relation in Proc.v, [kreach] for
    clients of the allocator, resumable runs in Pipe.v and Tty.v, the runs of traps in
    KernelRefs.v and TrapThm.v.  A crash keeps a prefix of the writes to the disk.

    Loops whose bound is in the data are structural.  The others have fuel, and run out
    of it as a [Fault], so that a theorem which says [Ok] says the fuel is enough: one
    round per block and one more for readi and writei, per element for namex, per page
    for the loops of vm.c and kalloc.c, per free block for malloc, per unit of 8 bytes
    for the walk over boot information, per reading of a port for polling.

    ** What the theorems say

    - Disk and log: bio.c with the requests of ide.c is an abstract cache of blocks, and
      the port writes of ide_start are the request bio.c means; a crash during a commit,
      and any number of crashes during recovery, leave all or none of a transaction.
    - Files: writei changes the bytes it is asked to, readi returns them, blocks and
      inodes are handed out once; an image mkfs builds is one the kernel reads back.
    - Processes: the process table keeps its invariant along every run; fork, exit,
      waitpid, sleep and wakeup do what they promise on every branch; the scheduler
      serves each runnable process within NPROC rounds; exec is all or nothing; a signal
      handler returns to every register; ids cannot be acquired by credential calls.
    - Memory: the memory setup of kmain accounts for every page; fork gives the child
      pages of its own with the bytes of the parent and waitpid gives them back; making,
      growing, copying and freeing address spaces conserves pages whatever fails; copyout and the argument checks stay inside
      user memory; malloc's blocks never overlap.
    - Descriptors: every trap keeps each reference count equal to the number of
      descriptors that name the file.
    - Terminals: a key does to the input queue, and a read takes from it, what the line
      discipline on lists says; output stays on the screen.
    - Machine: interrupt nesting, the vectors and lines the controllers deliver, the
      descriptors the processor reads, the size of memory, 64-bit division, POSIX time.

    Where the code does not do what it means to, the theorem says what it does (for
    instance [exit_ignored_sigchld_panics], [alarm_drops_signals], [phystop_limits],
    [sync_breaks_write_ahead]) or states the condition under which it is right.

    ** Not modelled

    - Messages: the output of panic and of the macros of debug.h; a panic ends a run.
      printk is in Console.v; its calls on start-up and when memory runs out are left out.
    - tickslock, which is held over one increment, and the stack traces of getcallerpcs.
    - The assembly: the switch of stacks, the trap entry and the first user program;
      their effect on the registers is part of Proc.v, Trap.v and Segments.v.
    - hard_reset_now, which does not return, and the busy waits: the wait of the UART,
      and microdelay, whose body is empty.
    - kmain apart from its memory and interrupt setup: it calls the initialisations,
      modelled with their components, in order.  mp.c only declares the processors.
    - The table devsw: the file system takes the device functions as an argument; the
      devices are modelled each on the state it needs.
    - The headers of numbers and prototypes: a number is defined where it is used. *)
From Stdlib Require Import ZArith Lia.
From stdpp Require Import base numbers list list_numbers strings.

#[global] Set Default Goal Selector "!".
Local Open Scope Z_scope.

(** ** Machine integers

    A C object of width [w] is a [Z] kept in range by an explicit wrap.  The
    kernel is compiled for i386: [int] and [long] have 32 bits. *)

Definition uwrap (w z : Z) : Z := z mod 2 ^ w.
Definition swrap (w z : Z) : Z := (z + 2 ^ (w - 1)) mod 2 ^ w - 2 ^ (w - 1).

Abbreviation u8 := (uwrap 8).
Abbreviation u16 := (uwrap 16).
Abbreviation u32 := (uwrap 32).
Abbreviation u64 := (uwrap 64).
Abbreviation i8 := (swrap 8).
Abbreviation i16 := (swrap 16).
Abbreviation i32 := (swrap 32).
Abbreviation i64 := (swrap 64).

Definition in_u (w z : Z) : Prop := 0 <= z < 2 ^ w.
Definition in_s (w z : Z) : Prop := - 2 ^ (w - 1) <= z < 2 ^ (w - 1).

Create HintDb word discriminated.

Section wrap.
Context (w : Z) (Hw : 0 < w).

Lemma wrap_pow_split : 2 ^ w = 2 * 2 ^ (w - 1).
Proof. rewrite <-Z.pow_succ_r by lia. f_equal; lia. Qed.

Lemma wrap_pow_pos' : 0 < 2 ^ (w - 1).
Proof. apply Z.pow_pos_nonneg; lia. Qed.

Lemma uwrap_range z : in_u w (uwrap w z).
Proof. apply Z.mod_pos_bound, Z.pow_pos_nonneg; lia. Qed.

Lemma swrap_range z : in_s w (swrap w z).
Proof.
  unfold in_s, swrap. pose proof wrap_pow_split. pose proof wrap_pow_pos'.
  pose proof (Z.mod_pos_bound (z + 2 ^ (w - 1)) (2 ^ w)). lia.
Qed.

Lemma uwrap_id z : in_u w z -> uwrap w z = z.
Proof. apply Z.mod_small. Qed.

Lemma swrap_id z : in_s w z -> swrap w z = z.
Proof.
  unfold in_s, swrap; intros H. pose proof wrap_pow_split. pose proof wrap_pow_pos'.
  rewrite Z.mod_small; lia.
Qed.

Lemma uwrap_swrap z : uwrap w (swrap w z) = uwrap w z.
Proof.
  unfold uwrap, swrap. rewrite Zminus_mod_idemp_l. f_equal. lia.
Qed.

Lemma swrap_uwrap z : swrap w (uwrap w z) = swrap w z.
Proof. unfold uwrap, swrap. rewrite Zplus_mod_idemp_l. reflexivity. Qed.

Lemma uwrap_idemp z : uwrap w (uwrap w z) = uwrap w z.
Proof. apply Z.mod_mod. apply Z.pow_nonzero; lia. Qed.

Lemma uwrap_add_l a b : uwrap w (uwrap w a + b) = uwrap w (a + b).
Proof. apply Zplus_mod_idemp_l. Qed.

Lemma uwrap_add_r a b : uwrap w (a + uwrap w b) = uwrap w (a + b).
Proof. apply Zplus_mod_idemp_r. Qed.

Lemma uwrap_sub_l a b : uwrap w (uwrap w a - b) = uwrap w (a - b).
Proof. apply Zminus_mod_idemp_l. Qed.

Lemma uwrap_sub_r a b : uwrap w (a - uwrap w b) = uwrap w (a - b).
Proof. apply Zminus_mod_idemp_r. Qed.
End wrap.

Lemma uwrap_testbit w z i :
  0 <= w -> Z.testbit (uwrap w z) i = (i <? w) && Z.testbit z i.
Proof.
  intros Hw. unfold uwrap. destruct (Z.ltb_spec i w); cbn [andb].
  - destruct (Z.leb_spec 0 i).
    + apply Z.mod_pow2_bits_low; lia.
    + rewrite !Z.testbit_neg_r by lia; reflexivity.
  - apply Z.mod_pow2_bits_high; lia.
Qed.

(** A number of [w] bits has no bit at or above [w], and conversely. *)
Lemma in_u_testbit w z i : 0 <= w -> in_u w z -> w <= i -> Z.testbit z i = false.
Proof.
  intros Hw Hz Hi. rewrite <-(Z.mod_small z (2 ^ w)) by exact Hz.
  apply Z.mod_pow2_bits_high; lia.
Qed.

Lemma testbit_in_u w z :
  0 <= w -> 0 <= z -> (forall i, w <= i -> Z.testbit z i = false) -> in_u w z.
Proof.
  intros Hw Hz Hb. assert (uwrap w z = z) as <-.
  { apply Z.bits_inj'. intros i Hi. rewrite uwrap_testbit by lia.
    destruct (Z.ltb_spec i w); [reflexivity|]. cbn. symmetry; auto. }
  apply Z.mod_pos_bound, Z.pow_pos_nonneg; lia.
Qed.

(** ** C conditions

    A C expression used as a condition is true when it is not zero. *)

Definition nz (z : Z) : bool := negb (z =? 0).
Definition b2z (b : bool) : Z := if b then 1 else 0.

Lemma nz_true z : nz z = true <-> z <> 0.
Proof. unfold nz. destruct (Z.eqb_spec z 0); cbn; intuition congruence. Qed.
Lemma nz_false z : nz z = false <-> z = 0.
Proof. unfold nz. destruct (Z.eqb_spec z 0); cbn; intuition congruence. Qed.

(** ** Kernel code as a state monad

    [Ok a s] is a normal return.  [Panic] is the kernel's own [panic(...)].
    [Fault] is an access the C program may not make: a null or wild pointer, an
    index outside an array.  [Block ch s] says the process left the CPU in
    [sleep] on channel [ch] with the shared state [s]. *)

Inductive outcome (S A : Type) : Type :=
| Ok (a : A) (s : S)
| Panic (why : string)
| Fault (why : string)
| Block (ch : Z) (s : S).
Arguments Ok {S A}. Arguments Panic {S A}. Arguments Fault {S A}. Arguments Block {S A}.

Definition M (S A : Type) : Type := S -> outcome S A.

#[global] Instance M_ret S : MRet (M S) := fun A a s => Ok a s.
#[global] Instance M_bind S : MBind (M S) := fun A B k m s =>
  match m s with
  | Ok a s' => k a s'
  | Panic w => Panic w
  | Fault w => Fault w
  | Block ch s' => Block ch s'
  end.
#[global] Instance M_fmap S : FMap (M S) := fun A B f m s =>
  match m s with
  | Ok a s' => Ok (f a) s'
  | Panic w => Panic w
  | Fault w => Fault w
  | Block ch s' => Block ch s'
  end.

Definition panic {S A} (why : string) : M S A := fun _ => Panic why.
Definition fault {S A} (why : string) : M S A := fun _ => Fault why.
Definition block {S A} (ch : Z) : M S A := fun s => Block ch s.
Definition get {S} : M S S := fun s => Ok s s.
Definition gets {S A} (f : S -> A) : M S A := fun s => Ok (f s) s.
Definition put {S} (s : S) : M S unit := fun _ => Ok tt s.
Definition modify {S} (f : S -> S) : M S unit := fun s => Ok tt (f s).
Definition when {S} (b : bool) (m : M S unit) : M S unit := if b then m else mret tt.

Section monad_laws.
Context {S A B C : Type}.
Implicit Types (m : M S A) (f : A -> M S B) (g : B -> M S C).

Lemma bind_ret_l (a : A) f s : (mret a ≫= f) s = f a s.
Proof. reflexivity. Qed.

Lemma bind_ret_r m s : (m ≫= mret) s = m s.
Proof. unfold mbind, M_bind. destruct (m s); reflexivity. Qed.

Lemma bind_assoc m f g s : ((m ≫= f) ≫= g) s = (m ≫= (fun x => f x ≫= g)) s.
Proof. unfold mbind, M_bind. destruct (m s); reflexivity. Qed.

(** A bound computation returns exactly when both halves return. *)
Lemma bind_Ok m f s b s' :
  (m ≫= f) s = Ok b s' <-> exists a s1, m s = Ok a s1 /\ f a s1 = Ok b s'.
Proof.
  unfold mbind, M_bind. split.
  - destruct (m s) eqn:E; intros H; try discriminate; eauto.
  - intros (a & s1 & -> & H). exact H.
Qed.

Lemma bind_step m f s a s' : m s = Ok a s' -> (m ≫= f) s = f a s'.
Proof. unfold mbind, M_bind. intros ->. reflexivity. Qed.
End monad_laws.

(** ** Total correctness

    [runs m s Q]: from [s] the program [m] returns normally, in a state [Q] allows. *)

Definition runs {S A} (m : M S A) (s : S) (Q : A -> S -> Prop) : Prop :=
  exists a s', m s = Ok a s' /\ Q a s'.

Section runs.
Context {S A B : Type}.
Implicit Types (m : M S A) (Q : A -> S -> Prop).

Lemma runs_ret (a : A) s Q : Q a s -> runs (mret a) s Q.
Proof. intros HQ. exists a, s. split; [reflexivity | exact HQ]. Qed.

Lemma runs_bind m (k : A -> M S B) s (Q : B -> S -> Prop) :
  runs m s (fun a s' => runs (k a) s' Q) -> runs (m ≫= k) s Q.
Proof.
  intros (a & s1 & E & b & s2 & E2 & HQ). exists b, s2. split; [|exact HQ]. rewrite (bind_step _ _ _ _ _ E). exact E2.
Qed.

Lemma runs_step m (k : A -> M S B) s a s1 (Q : B -> S -> Prop) :
  m s = Ok a s1 -> runs (k a) s1 Q -> runs (m ≫= k) s Q.
Proof. intros E H. apply runs_bind. exists a, s1. split; assumption. Qed.

Lemma runs_wand m s (P Q : A -> S -> Prop) : runs m s P -> (forall a s', P a s' -> Q a s') -> runs m s Q.
Proof. intros (a & s' & E & HP) HQ. exists a, s'. split; [exact E | apply HQ, HP]. Qed.
End runs.

(** [mstep] runs a monadic program one primitive at a time. *)
Ltac mstep :=
  cbv beta iota zeta delta
    [mbind mret fmap M_bind M_ret M_fmap panic fault block get gets put modify when fst snd].
Tactic Notation "mstep" "in" hyp(H) :=
  cbv beta iota zeta delta
    [mbind mret fmap M_bind M_ret M_fmap panic fault block get gets put modify when fst snd] in H.

(** ** Assigning to one field of a struct

    [r <| f := v |>] is the record [r] with field [f] set, as [r->f = v].  Each
    struct declares its constructor applied to its own fields ([Fields]); the
    setter of a field is computed from it. *)

Class Fields (R : Type) : Type := rebuild : R -> R.
Class Setter {R T : Type} (field : R -> T) : Type := assign : (T -> T) -> R -> R.
#[global] Hint Mode Setter - - ! : typeclass_instances.

Ltac derive_setter field :=
  lazymatch type of field with
  | ?R -> _ =>
      let inst := constr:(_ : Fields R) in
      let body := eval hnf in inst in
      lazymatch eval pattern field in body with
      | ?with_field _ =>
          let r := eval cbv beta in (fun f x => with_field (fun y => f (field y)) x) in
          exact r
      end
  end.
#[global] Hint Extern 1 (Setter ?field) => derive_setter field : typeclass_instances.

Declare Scope struct_scope.
Delimit Scope struct_scope with struct.
Notation "r <| f := v |>" := (assign (field := f) (fun _ => v) r)
  (at level 12, left associativity, format "r  <| f  :=  v |>") : struct_scope.
#[global] Open Scope struct_scope.

(** ** Arrays

    C arrays are lists; an index outside them is a [Fault], never a silent
    default. *)

Definition aget {S A} (what : string) (l : list A) (i : Z) : M S A :=
  if i <? 0 then fault what
  else match l !! Z.to_nat i with
       | Some x => mret x
       | None => fault what
       end.

Definition aset {S A} (what : string) (l : list A) (i : Z) (x : A) : M S (list A) :=
  if (0 <=? i) && (i <? Z.of_nat (length l))
  then mret (<[Z.to_nat i := x]> l)
  else fault what.

Section arrays.
Context {S A : Type}.
Implicit Types (l : list A).

Lemma aget_Ok w l i x (s : S) :
  0 <= i -> l !! Z.to_nat i = Some x -> aget w l i s = Ok x s.
Proof. intros Hi Hx. unfold aget. rewrite (proj2 (Z.ltb_ge i 0)) by lia. rewrite Hx. reflexivity. Qed.

Lemma aset_Ok w l i x (s : S) :
  0 <= i < Z.of_nat (length l) -> aset w l i x s = Ok (<[Z.to_nat i := x]> l) s.
Proof.
  intros Hi. unfold aset.
  rewrite (proj2 (Z.leb_le 0 i)), (proj2 (Z.ltb_lt _ _)) by lia. reflexivity.
Qed.

Lemma aset_out w l i x (s : S) :
  i < 0 \/ Z.of_nat (length l) <= i -> aset w l i x s = Fault w.
Proof.
  intros Hi. unfold aset.
  destruct (Z.leb_spec 0 i), (Z.ltb_spec i (Z.of_nat (length l))); cbn; try reflexivity; lia.
Qed.
End arrays.

(** Updating an element that is there. *)
Lemma alter_insert {A} (f : A -> A) i (l : list A) x : l !! i = Some x -> alter f i l = <[i := f x]> l.
Proof.
  revert i. induction l as [|y l IH]; intros [|i] H; try discriminate.
  - injection H as ->. reflexivity.
  - cbn. f_equal. apply IH, H.
Qed.

(** ** Length normalisation *)
Create Rewrite HintDb len.
#[global] Hint Rewrite @length_app @length_insert @length_take @length_drop
  @length_replicate @length_reverse @length_map @length_seq @length_fmap : len.
Ltac len := autorewrite with len in *; cbn [length] in *; try lia.
