(* ===== verification/KString.v ===== *)
(** * Kernel string and memory routines (src/kernel/lib/string.c)

    Memory is a total map from addresses to bytes; the loops of [memmove],
    [memset], [strncpy], ... run on it one byte at a time, as the C does.
    Characters are kept as unsigned bytes (0..255). *)
From Stdlib Require Import ZArith Lia.
From stdpp Require Import base numbers list.
From S2P Require Import Prelude.
Local Open Scope Z_scope.

(** ** Byte-addressed memory *)

Definition mem : Type := Z -> Z.
Definition upd (m : mem) (a v : Z) : mem := fun x => if x =? a then v else m x.

Lemma upd_eq m a v : upd m a v a = v.
Proof. unfold upd. rewrite Z.eqb_refl. reflexivity. Qed.
Lemma upd_ne m a v x : x <> a -> upd m a v x = m x.
Proof. intros H. unfold upd. destruct (Z.eqb_spec x a); congruence. Qed.

(** [x] lies in the [n] bytes from [a]. *)
Definition inside (a n x : Z) : bool := (a <=? x) && (x <? a + n).

Lemma inside_true a n x : inside a n x = true <-> a <= x < a + n.
Proof. unfold inside. rewrite andb_true_iff, Z.leb_le, Z.ltb_lt. reflexivity. Qed.
Lemma inside_false a n x : inside a n x = false <-> ~ (a <= x < a + n).
Proof. rewrite <-inside_true. destruct (inside a n x); intuition congruence. Qed.

Ltac inside_cases :=
  repeat match goal with
  | |- context [inside ?a ?n ?x] =>
      let E := fresh "E" in
      destruct (inside a n x) eqn:E; [apply inside_true in E | apply inside_false in E]
  end.
Ltac upd_cases :=
  repeat match goal with
  | |- context [upd ?m ?a ?v ?x] =>
      let E := fresh "E" in
      destruct (Z.eq_dec x a) as [E | E]; [rewrite E, upd_eq | rewrite (upd_ne m a v x E)]
  end.

(** ** memset *)

(** [rep stosb] *)
Fixpoint stosb (m : mem) (addr data : Z) (cnt : nat) : mem :=
  match cnt with
  | O => m
  | S k => stosb (upd m addr (u8 data)) (addr + 1) data k
  end.

(** One little-endian 32-bit store. *)
Definition store32 (m : mem) (a w : Z) : mem :=
  upd (upd (upd (upd m a (u8 w)) (a + 1) (u8 (Z.shiftr w 8)))
    (a + 2) (u8 (Z.shiftr w 16))) (a + 3) (u8 (Z.shiftr w 24)).

Definition load32 (m : mem) (a : Z) : Z :=
  m a + 256 * m (a + 1) + 65536 * m (a + 2) + 16777216 * m (a + 3).

(** [rep stosl] *)
Fixpoint stosl (m : mem) (addr data : Z) (cnt : nat) : mem :=
  match cnt with
  | O => m
  | S k => stosl (store32 m addr data) (addr + 4) data k
  end.

Definition memset (m : mem) (dst c n : Z) : mem :=
  if (Z.rem (i32 dst) 4 =? 0) && (n mod 4 =? 0) then
    let c := Z.land c 255 in
    stosl m dst (u32 (Z.lor (Z.lor (Z.lor (Z.shiftl c 24) (Z.shiftl c 16)) (Z.shiftl c 8)) c))
      (Z.to_nat (n / 4))
  else stosb m dst c (Z.to_nat n).

(** ** memcmp, memmove *)

Fixpoint memcmp (m : mem) (s1 s2 : Z) (n : nat) : Z :=
  match n with
  | O => 0
  | S k => if negb (m s1 =? m s2) then m s1 - m s2 else memcmp m (s1 + 1) (s2 + 1) k
  end.

Fixpoint copy_up (m : mem) (d s : Z) (n : nat) : mem :=
  match n with
  | O => m
  | S k => copy_up (upd m d (m s)) (d + 1) (s + 1) k
  end.

Fixpoint copy_down (m : mem) (d s : Z) (n : nat) : mem :=
  match n with
  | O => m
  | S k => copy_down (upd m (d - 1) (m (s - 1))) (d - 1) (s - 1) k
  end.

Definition memmove (m : mem) (dst src n : Z) : mem :=
  if (src <? dst) && (dst <? src + n)
  then copy_down m (dst + n) (src + n) (Z.to_nat n)
  else copy_up m dst src (Z.to_nat n).

Definition memcpy (m : mem) (dst src n : Z) : mem := memmove m dst src n.

(** ** C strings *)

Fixpoint strncmp (m : mem) (p q : Z) (n : nat) : Z :=
  match n with
  | O => 0
  | S k =>
      if nz (m p) && (m p =? m q) then strncmp m (p + 1) (q + 1) k
      else m p - m q
  end.

(** The second loop of [strncpy]: pad with NUL. *)
Fixpoint zero_fill (m : mem) (s : Z) (n : nat) : mem :=
  match n with
  | O => m
  | S k => zero_fill (upd m s 0) (s + 1) k
  end.

Fixpoint strncpy (m : mem) (s t : Z) (n : nat) : mem :=
  match n with
  | O => m
  | S k =>
      let c := m t in
      let m := upd m s c in
      if c =? 0 then zero_fill m (s + 1) k else strncpy m (s + 1) (t + 1) k
  end.

(** Copy while [--n > 0] and no NUL was copied, then store a NUL. *)
Fixpoint safestrcpy_loop (m : mem) (s t : Z) (n : nat) : mem :=
  match n with
  | O => upd m s 0
  | S k =>
      let c := m t in
      let m := upd m s c in
      if c =? 0 then upd m (s + 1) 0 else safestrcpy_loop m (s + 1) (t + 1) k
  end.

Definition safestrcpy (m : mem) (s t n : Z) : mem :=
  if n <=? 0 then m else safestrcpy_loop m s t (Z.to_nat (n - 1)).

(** [strlen] has no bound of its own: [None] when no NUL was met in [fuel]
    bytes. *)
Fixpoint strlen (m : mem) (s : Z) (fuel : nat) : option Z :=
  match fuel with
  | O => None
  | S k => if nz (m s) then Z.succ <$> strlen m (s + 1) k else Some 0
  end.

(** ** itoa *)

Definition digit_char (remainder : Z) : Z :=
  if remainder <? 10 then remainder + 48 else remainder + 97 - 10.

(** The [do ... while (ud /= divisor)] loop: the characters stored, least
    significant first. *)
Fixpoint itoa_digits (fuel : nat) (ud divisor : Z) : list Z :=
  match fuel with
  | O => []
  | S k =>
      let remainder := ud mod divisor in
      digit_char remainder ::
        (let ud := ud / divisor in if nz ud then itoa_digits k ud divisor else [])
  end.

(** [while (p1 < p2)] swap, on buffer positions. *)
Fixpoint swap_loop (fuel : nat) (buf : list Z) (p1 p2 : nat) : list Z :=
  match fuel with
  | O => buf
  | S k =>
      if (p1 <? p2)%nat then
        let a := default 0 (buf !! p1) in
        let b := default 0 (buf !! p2) in
        swap_loop k (<[p2 := a]> (<[p1 := b]> buf)) (S p1) (p2 - 1)
      else buf
  end.

(** What [itoa(buf, base, d)] leaves in [buf], the terminating NUL included. *)
Definition itoa (base d : Z) : list Z :=
  let '(sign, ud, divisor) :=
    if (base =? 100) && (d <? 0) then ([45], u32 (i32 (- d)), 10)
    else if base =? 120 then ([], u32 d, 16)
    else ([], u32 d, 10) in
  let digits := itoa_digits 32 ud divisor in
  sign ++ swap_loop (length digits) digits 0 (length digits - 1) ++ [0].

(** ** Lemmas: memory *)

Lemma stosb_spec m addr data cnt x :
  stosb m addr data cnt x = if inside addr (Z.of_nat cnt) x then u8 data else m x.
Proof.
  revert m addr. induction cnt as [|k IH]; intros m addr; cbn [stosb].
  - inside_cases; [lia|reflexivity].
  - rewrite IH. inside_cases; upd_cases; try reflexivity; lia.
Qed.

(** Every byte of the word built by [memset] is the fill byte. *)
Lemma fill_word_byte c k :
  0 <= k <= 3 ->
  u8 (Z.shiftr (u32 (Z.lor (Z.lor (Z.lor (Z.shiftl (Z.land c 255) 24)
    (Z.shiftl (Z.land c 255) 16)) (Z.shiftl (Z.land c 255) 8)) (Z.land c 255))) (8 * k))
  = u8 c.
Proof.
  intros Hk. apply Z.bits_inj'. intros i Hi. rewrite !uwrap_testbit by lia.
  destruct (Z.ltb_spec i 8); [cbn [andb]|reflexivity].
  rewrite Z.shiftr_spec, uwrap_testbit, !Z.lor_spec, !Z.shiftl_spec, !Z.land_spec by lia.
  change 255 with (Z.ones 8). rewrite !Z.testbit_ones by lia.
  destruct (Z.ltb_spec (i + 8 * k) 32); [|lia]. cbn [andb].
  assert (k = 0 \/ k = 1 \/ k = 2 \/ k = 3) as [-> | [-> | [-> | ->]]] by lia;
    repeat match goal with
    | |- context [?a <=? ?b] => destruct (Z.leb_spec a b); try lia
    | |- context [?a <? ?b] => destruct (Z.ltb_spec a b); try lia
    end; cbn [andb orb]; rewrite ?andb_false_r, ?andb_true_r, ?orb_false_r; cbn [orb];
    try (f_equal; lia).
Qed.

Lemma stosl_spec m addr w b cnt x :
  (forall k, 0 <= k <= 3 -> u8 (Z.shiftr w (8 * k)) = b) ->
  stosl m addr w cnt x = if inside addr (4 * Z.of_nat cnt) x then b else m x.
Proof.
  intros Hw. revert m addr. induction cnt as [|k IH]; intros m addr; cbn [stosl].
  - inside_cases; [lia|reflexivity].
  - rewrite IH. unfold store32.
    pose proof (Hw 0) as H0. pose proof (Hw 1) as H1. pose proof (Hw 2) as H2. pose proof (Hw 3) as H3.
    change (8 * 0) with 0 in H0. change (8 * 1) with 8 in H1. change (8 * 2) with 16 in H2.
    change (8 * 3) with 24 in H3. rewrite Z.shiftr_0_r in H0.
    rewrite H0, H1, H2, H3 by lia.
    inside_cases; upd_cases; try reflexivity; lia.
Qed.

Lemma memset_spec m dst c n x :
  0 <= n -> memset m dst c n x = if inside dst n x then u8 c else m x.
Proof.
  intros Hn. unfold memset.
  destruct ((Z.rem (i32 dst) 4 =? 0) && (n mod 4 =? 0)) eqn:E.
  - apply andb_true_iff in E as [_ E]. apply Z.eqb_eq in E.
    rewrite (stosl_spec _ _ _ (u8 c)) by (apply fill_word_byte).
    rewrite Z2Nat.id by (apply Z.div_pos; lia).
    replace (4 * (n / 4)) with n by (pose proof (Z.div_mod n 4); lia). reflexivity.
  - rewrite stosb_spec, Z2Nat.id by lia. reflexivity.
Qed.

Lemma copy_up_spec m d s n x :
  ~ (s < d < s + Z.of_nat n) ->
  copy_up m d s n x = if inside d (Z.of_nat n) x then m (s + (x - d)) else m x.
Proof.
  revert m d s. induction n as [|k IH]; intros m d s Hov; cbn [copy_up].
  - inside_cases; [lia|reflexivity].
  - rewrite IH by lia. inside_cases; upd_cases; try lia; try reflexivity; try (f_equal; lia).
Qed.

Lemma copy_down_spec m d s n x :
  ~ (d < s < d + Z.of_nat n) ->
  copy_down m (d + Z.of_nat n) (s + Z.of_nat n) n x =
    if inside d (Z.of_nat n) x then m (s + (x - d)) else m x.
Proof.
  revert m. induction n as [|k IH]; intros m Hov; cbn [copy_down].
  - inside_cases; [lia|reflexivity].
  - replace (d + Z.of_nat (S k) - 1) with (d + Z.of_nat k) by lia.
    replace (s + Z.of_nat (S k) - 1) with (s + Z.of_nat k) by lia.
    rewrite IH by lia. inside_cases; upd_cases; try lia; try reflexivity; try (f_equal; lia).
Qed.

Lemma load_store32 m a w : in_u 32 w -> load32 (store32 m a w) a = w.
Proof.
  intros Hw. unfold load32, store32.
  rewrite !upd_eq, !(upd_ne _ (a + 3)), !(upd_ne _ (a + 2)), !(upd_ne _ (a + 1)), !upd_eq by lia.
  unfold uwrap, in_u in *. rewrite !Z.shiftr_div_pow2 by lia.
  change (2 ^ 8) with 256. change (2 ^ 16) with 65536. change (2 ^ 24) with 16777216.
  change (2 ^ 32) with 4294967296 in Hw. Z.div_mod_to_equations. lia.
Qed.

Lemma store32_ne m a w x : ~ (a <= x < a + 4) -> store32 m a w x = m x.
Proof. intros H. unfold store32. rewrite !upd_ne by lia. reflexivity. Qed.

(** ** Lemmas: strings *)

Lemma zero_fill_spec m s n x :
  zero_fill m s n x = if inside s (Z.of_nat n) x then 0 else m x.
Proof.
  revert m s. induction n as [|k IH]; intros m s; cbn [zero_fill].
  - inside_cases; [lia|reflexivity].
  - rewrite IH. inside_cases; upd_cases; try reflexivity; lia.
Qed.

(** The string at [t] has its first NUL at offset [k]. *)
Definition cstr (m : mem) (t k : Z) : Prop :=
  0 <= k /\ m (t + k) = 0 /\ forall i, 0 <= i < k -> m (t + i) <> 0.

Lemma cstr_step m t k : m t <> 0 -> cstr m t k -> 0 < k /\ cstr m (t + 1) (k - 1).
Proof.
  intros Hc (Hk & H0 & Hi).
  assert (k <> 0) by (intros ->; rewrite Z.add_0_r in H0; congruence).
  split; [lia|]. split_and!; [lia | replace (t + 1 + (k - 1)) with (t + k) by lia; exact H0 |].
  intros i Hr. replace (t + 1 + i) with (t + (i + 1)) by lia. apply Hi; lia.
Qed.

Lemma cstr_frame m m' t k :
  (forall x, t <= x <= t + k -> m' x = m x) -> cstr m t k -> cstr m' t k.
Proof.
  intros Hf (Hk & H0 & Hi). split_and!; [lia | rewrite Hf by lia; exact H0 |].
  intros i Hr. rewrite Hf by lia. apply Hi; lia.
Qed.

Lemma strlen_spec m s k fuel :
  cstr m s k -> k < Z.of_nat fuel -> strlen m s fuel = Some k.
Proof.
  revert s k. induction fuel as [|f IH]; intros s k Hc Hf; [destruct Hc; lia|].
  cbn [strlen]. destruct (nz (m s)) eqn:E.
  - apply nz_true in E. destruct (cstr_step m s k E Hc) as [Hk Hc'].
    rewrite (IH (s + 1) (k - 1)) by (assumption || lia). cbn. f_equal; lia.
  - apply nz_false in E. destruct Hc as (Hk & _ & Hi).
    destruct (Z.eq_dec k 0) as [-> |]; [reflexivity|].
    exfalso. apply (Hi 0); [lia|]. rewrite Z.add_0_r. exact E.
Qed.

Lemma strncpy_spec m s t n k x :
  cstr m t k -> (s + Z.of_nat n <= t \/ t + k < s) ->
  strncpy m s t n x =
    if inside s (Z.of_nat n) x then (if x - s <=? k then m (t + (x - s)) else 0) else m x.
Proof.
  revert m s t k. induction n as [|j IH]; intros m s t k Hc Hd; cbn [strncpy].
  - inside_cases; [lia|reflexivity].
  - destruct (Z.eqb_spec (m t) 0) as [E | E].
    + assert (k = 0) as ->.
      { destruct Hc as (? & _ & Hi). destruct (Z.eq_dec k 0); [assumption|].
        exfalso. apply (Hi 0); [lia|]. rewrite Z.add_0_r. exact E. }
      rewrite zero_fill_spec. inside_cases; upd_cases; try lia; try reflexivity.
      * destruct (Z.leb_spec (x - s) 0); [lia|reflexivity].
      * rewrite Z.sub_diag, Z.add_0_r. reflexivity.
    + destruct (cstr_step m t k E Hc) as [Hk Hc'].
      rewrite (IH _ (s + 1) (t + 1) (k - 1)).
      2:{ apply cstr_frame with m; [|exact Hc']. intros y Hy. apply upd_ne. lia. }
      2:{ lia. }
      inside_cases; try lia;
        try (destruct (Z.leb_spec (x - (s + 1)) (k - 1)); try lia);
        destruct (Z.leb_spec (x - s) k); try lia;
        upd_cases; try lia; try reflexivity; f_equal; lia.
Qed.

Lemma safestrcpy_loop_spec m s t n k x :
  cstr m t k -> (s + Z.of_nat n < t \/ t + k < s) ->
  safestrcpy_loop m s t n x =
    if inside s (Z.min (k + 2) (Z.of_nat n + 1)) x
    then (if x - s <? Z.min k (Z.of_nat n) then m (t + (x - s)) else 0) else m x.
Proof.
  revert m s t k. induction n as [|j IH]; intros m s t k Hc Hd; cbn [safestrcpy_loop].
  - destruct Hc as (Hk & _ & _).
    inside_cases; upd_cases; try lia; try reflexivity.
    destruct (Z.ltb_spec (s - s) (Z.min k (Z.of_nat 0))); [lia|reflexivity].
  - destruct (Z.eqb_spec (m t) 0) as [E | E].
    + assert (k = 0) as ->.
      { destruct Hc as (? & _ & Hi). destruct (Z.eq_dec k 0); [assumption|].
        exfalso. apply (Hi 0); [lia|]. rewrite Z.add_0_r. exact E. }
      inside_cases; try (destruct (Z.ltb_spec (x - s) (Z.min 0 (Z.of_nat (S j)))); [lia|]);
        upd_cases; try lia; try reflexivity.
    + destruct (cstr_step m t k E Hc) as [Hk Hc'].
      rewrite (IH _ (s + 1) (t + 1) (k - 1)).
      2:{ apply cstr_frame with m; [|exact Hc']. intros y Hy. apply upd_ne. lia. }
      2:{ lia. }
      inside_cases; try lia;
        try (destruct (Z.ltb_spec (x - (s + 1)) (Z.min (k - 1) (Z.of_nat j))); try lia);
        destruct (Z.ltb_spec (x - s) (Z.min k (Z.of_nat (S j)))); try lia;
        upd_cases; try lia; try reflexivity; f_equal; lia.
Qed.

(** ** Lemmas: itoa *)

(** The value of a numeral, most significant character first. *)
Definition char_value (c : Z) : Z := if c <? 58 then c - 48 else c - 87.
Definition numeral_value (base : Z) (l : list Z) : Z :=
  foldl (fun v c => v * base + char_value c) 0 l.

Lemma char_value_digit r : 0 <= r -> char_value (digit_char r) = r.
Proof.
  intros Hr. unfold char_value, digit_char.
  destruct (Z.ltb_spec r 10); [destruct (Z.ltb_spec (r + 48) 58) | destruct (Z.ltb_spec (r + 97 - 10) 58)]; lia.
Qed.

Lemma numeral_snoc base l c :
  numeral_value base (l ++ [c]) = numeral_value base l * base + char_value c.
Proof. unfold numeral_value. rewrite foldl_app. reflexivity. Qed.

Lemma itoa_digits_value fuel ud base :
  2 <= base -> 0 <= ud < base ^ Z.of_nat fuel ->
  numeral_value base (reverse (itoa_digits fuel ud base)) = ud.
Proof.
  intros Hb. revert ud. induction fuel as [|k IH]; intros ud Hud; cbn [itoa_digits].
  - change (base ^ Z.of_nat 0) with 1 in Hud. unfold numeral_value; cbn. lia.
  - rewrite Nat2Z.inj_succ, Z.pow_succ_r in Hud by lia.
    assert (0 <= ud mod base < base) by (apply Z.mod_pos_bound; lia).
    pose proof (Z.div_mod ud base) as Hdm.
    rewrite reverse_cons, numeral_snoc, char_value_digit by lia.
    destruct (nz (ud / base)) eqn:E.
    + rewrite IH by (split; [apply Z.div_pos; lia | apply Z.div_lt_upper_bound; lia]). lia.
    + apply nz_false in E. unfold numeral_value; cbn. lia.
Qed.

(** No numeral is empty or longer than its fuel, and only "0" starts with 0. *)
Lemma itoa_digits_length fuel ud base n :
  2 <= base -> 0 <= ud < base ^ Z.of_nat n -> (1 <= n)%nat ->
  (length (itoa_digits fuel ud base) <= n)%nat.
Proof.
  intros Hb. revert ud n. induction fuel as [|k IH]; intros ud n Hud Hn; cbn; [lia|].
  destruct (nz (ud / base)) eqn:E; cbn; [|lia]. apply nz_true in E.
  destruct n as [|[|n]]; [lia| |].
  - change (base ^ Z.of_nat 1) with (base ^ 1) in Hud. rewrite Z.pow_1_r in Hud.
    rewrite Z.div_small in E by lia. congruence.
  - assert (length (itoa_digits k (ud / base) base) <= S n)%nat; [|lia].
    apply IH; [|lia]. split; [apply Z.div_pos; lia|].
    apply Z.div_lt_upper_bound; [lia|]. rewrite <-Z.pow_succ_r by lia.
    rewrite <-Nat2Z.inj_succ. lia.
Qed.

Lemma itoa_digits_last fuel ud base :
  2 <= base -> 0 < ud < base ^ Z.of_nat fuel ->
  exists r l, itoa_digits fuel ud base = l ++ [digit_char r] /\ 0 < r.
Proof.
  intros Hb. revert ud. induction fuel as [|k IH]; intros ud Hud; cbn [itoa_digits].
  - change (base ^ Z.of_nat 0) with 1 in Hud. lia.
  - rewrite Nat2Z.inj_succ, Z.pow_succ_r in Hud by lia.
    pose proof (Z.div_mod ud base) as Hdm.
    assert (0 <= ud / base) by (apply Z.div_pos; lia).
    assert (0 <= ud mod base < base) by (apply Z.mod_pos_bound; lia).
    destruct (nz (ud / base)) eqn:E.
    + apply nz_true in E. destruct (IH (ud / base)) as (r & l & -> & Hr).
      { split; [lia | apply Z.div_lt_upper_bound; lia]. }
      exists r, (digit_char (ud mod base) :: l). split; [reflexivity | exact Hr].
    + apply nz_false in E. exists (ud mod base), []. split; [reflexivity | lia].
Qed.

(** The swap loop reverses what lies between its two indices. *)
Lemma swap_loop_mid fuel pre mid post :
  (length mid <= 2 * fuel)%nat ->
  swap_loop fuel (pre ++ mid ++ post) (length pre) (length pre + length mid - 1)
  = pre ++ reverse mid ++ post.
Proof.
  revert pre mid post. induction fuel as [|k IH]; intros pre mid post Hl.
  - destruct mid; [reflexivity | cbn in Hl; lia].
  - destruct mid as [|a mid]; [cbn [swap_loop length reverse]|].
    { destruct (Nat.ltb_spec (length pre) (length pre + 0 - 1)); [lia|reflexivity]. }
    destruct mid as [|b mid _] using rev_ind; [cbn [swap_loop length]|].
    { destruct (Nat.ltb_spec (length pre) (length pre + 1 - 1)); [lia|reflexivity]. }
    cbn [swap_loop]. autorewrite with len in *; cbn [length] in *.
    autorewrite with len in *; cbn [length] in *.
    destruct (Nat.ltb_spec (length pre) (length pre + S (length mid + 1) - 1)); [|lia].
    replace (length pre + S (length mid + 1) - 1)%nat with (length pre + S (length mid))%nat by lia.
    set (buf := pre ++ (a :: mid ++ [b]) ++ post).
    assert (buf !! length pre = Some a) as ->
      by (unfold buf; rewrite lookup_app_r, Nat.sub_diag by lia; reflexivity).
    assert (buf !! (length pre + S (length mid))%nat = Some b) as ->.
    { unfold buf. rewrite lookup_app_r by lia.
      replace (length pre + S (length mid) - length pre)%nat with (S (length mid)) by lia.
      change (((mid ++ [b]) ++ post) !! length mid = Some b).
      rewrite <-app_assoc, lookup_app_r, Nat.sub_diag by lia. reflexivity. }
    cbn [default id].
    assert (<[(length pre + S (length mid))%nat := a]> (<[length pre := b]> buf)
            = (pre ++ [b]) ++ mid ++ (a :: post)) as ->.
    { unfold buf. rewrite insert_app_r_alt, Nat.sub_diag by lia.
      change (<[0%nat := b]> ((a :: mid ++ [b]) ++ post)) with (b :: (mid ++ [b]) ++ post).
      rewrite insert_app_r_alt by lia.
      replace (length pre + S (length mid) - length pre)%nat with (S (length mid)) by lia.
      change (<[S (length mid) := a]> (b :: (mid ++ [b]) ++ post))
        with (b :: <[length mid := a]> ((mid ++ [b]) ++ post)).
      rewrite <-!app_assoc, insert_app_r_alt, Nat.sub_diag by lia. reflexivity. }
    replace (S (length pre)) with (length (pre ++ [b])) by (len).
    replace (length pre + S (length mid) - 1)%nat with (length (pre ++ [b]) + length mid - 1)%nat
      by (len).
    rewrite IH by lia. rewrite reverse_cons, reverse_snoc. cbn. rewrite <-!app_assoc. reflexivity.
Qed.

Lemma swap_loop_reverse l : swap_loop (length l) l 0 (length l - 1) = reverse l.
Proof.
  pose proof (swap_loop_mid (length l) [] l [] ltac:(lia)) as H.
  cbn in H. rewrite !app_nil_r in H. exact H.
Qed.

(** The magnitude and radix [itoa] prints for a base character. *)
Definition itoa_magnitude (base d : Z) : Z :=
  if (base =? 100) && (d <? 0) then - d else u32 d.
Definition itoa_radix (base : Z) : Z := if base =? 120 then 16 else 10.

Lemma itoa_unfold base d :
  in_s 32 d ->
  itoa base d =
    (if (base =? 100) && (d <? 0) then [45] else []) ++
    reverse (itoa_digits 32 (itoa_magnitude base d) (itoa_radix base)) ++ [0].
Proof.
  intros Hd. unfold itoa, itoa_magnitude, itoa_radix.
  destruct (Z.eqb_spec base 100) as [-> |]; cbn [andb].
  - destruct (Z.ltb_spec d 0).
    + cbv beta iota zeta. rewrite swap_loop_reverse, uwrap_swrap by lia.
      rewrite uwrap_id by (unfold in_s, in_u in *; lia). reflexivity.
    + change (100 =? 120) with false. cbv beta iota zeta. rewrite swap_loop_reverse. reflexivity.
  - destruct (Z.eqb_spec base 120); cbv beta iota zeta; rewrite swap_loop_reverse; reflexivity.
Qed.

(** ** Properties *)

(** [memmove] copies as if through a temporary buffer: whatever the overlap
    of the two regions, byte [i] of the destination becomes the old byte [i] of
    the source and no other byte changes. *)
Theorem memmove_correct m dst src n x :
  0 <= n ->
  memmove m dst src n x = if inside dst n x then m (src + (x - dst)) else m x.
Proof.
  intros Hn. unfold memmove.
  destruct ((src <? dst) && (dst <? src + n)) eqn:E.
  - apply andb_true_iff in E as [E1 E2]. apply Z.ltb_lt in E1, E2.
    pose proof (copy_down_spec m dst src (Z.to_nat n) x) as H.
    rewrite Z2Nat.id in H by lia. apply H; lia.
  - apply andb_false_iff in E.
    rewrite copy_up_spec; rewrite ?Z2Nat.id by lia; [reflexivity|].
    destruct E as [E | E]; apply Z.ltb_ge in E; lia.
Qed.

Lemma memmove_correct_witness :
  memmove (fun a => a) 12 10 5 16 = 14 /\ memmove (fun a => a) 10 12 5 14 = 16.
Proof.
  split.
  - rewrite (memmove_correct (fun a => a) 12 10 5 16 ltac:(lia)). reflexivity.
  - rewrite (memmove_correct (fun a => a) 10 12 5 14 ltac:(lia)). reflexivity.
Defined.

(** [memset] fills exactly the [n] bytes at [dst] with the low byte of [c]:
    the word-at-a-time path ([stosl]) and the byte path ([stosb]) agree. *)
Theorem memset_correct m dst c n :
  0 <= n ->
  (forall x, memset m dst c n x = if inside dst n x then u8 c else m x)
  /\ (forall x, memset m dst c n x = stosb m dst c (Z.to_nat n) x).
Proof.
  intros Hn. split; intros x; rewrite memset_spec by lia; [reflexivity|].
  rewrite stosb_spec, Z2Nat.id by lia. reflexivity.
Qed.

Lemma memset_correct_witness :
  memset (fun _ => 7) 4096 258 8 4103 = 2 /\ memset (fun _ => 7) 4096 258 8 4104 = 7.
Proof.
  destruct (memset_correct (fun _ => 7) 4096 258 8 ltac:(lia)) as [H _].
  split; rewrite H; reflexivity.
Defined.

(** [itoa] prints: the text read back in its radix is the number (the
    magnitude after a minus sign for %d, the 32-bit pattern otherwise, INT_MIN
    included), without leading zeros, and it fits the 20-byte buffer of
    [printf] with its NUL. *)
Theorem itoa_correct base d :
  in_s 32 d ->
  exists digits,
    itoa base d = (if (base =? 100) && (d <? 0) then [45] else []) ++ digits ++ [0]
    /\ numeral_value (itoa_radix base) digits = itoa_magnitude base d
    /\ (digits = [48] \/ (hd 0 digits <> 48 /\ digits <> []))
    /\ (length (itoa base d) <= 12)%nat.
Proof.
  intros Hd. rewrite (itoa_unfold base d Hd).
  set (v := itoa_magnitude base d). set (r := itoa_radix base).
  assert (2 <= r) as Hr by (unfold r, itoa_radix; destruct (base =? 120); lia).
  assert (0 <= v < 2 ^ 32) as Hv.
  { unfold v, itoa_magnitude. pose proof (uwrap_range 32 eq_refl d) as Hu.
    unfold in_u, in_s in *. destruct ((base =? 100) && (d <? 0)) eqn:E; [|lia].
    apply andb_true_iff in E as [_ E]. apply Z.ltb_lt in E. lia. }
  assert (v < r ^ Z.of_nat 10) as Hv10.
  { unfold r, itoa_radix. destruct (base =? 120); cbn; lia. }
  assert (v < r ^ Z.of_nat 32) as Hv32.
  { eapply Z.lt_le_trans; [exact Hv10|]. apply Z.pow_le_mono_r; lia. }
  exists (reverse (itoa_digits 32 v r)). split_and!.
  - reflexivity.
  - apply itoa_digits_value; lia.
  - destruct (Z.eq_dec v 0) as [-> | Hnz]; [left|right].
    + cbn [itoa_digits]. rewrite Z.mod_0_l, Z.div_0_l by lia. reflexivity.
    + destruct (itoa_digits_last 32 v r) as (g & l & -> & Hg); [lia..|].
      rewrite reverse_snoc. split; [|discriminate]. cbn. unfold digit_char.
      destruct (Z.ltb_spec g 10); lia.
  - pose proof (itoa_digits_length 32 v r 10 Hr ltac:(lia) ltac:(lia)).
    len. destruct ((base =? 100) && (d <? 0)); cbn [length]; lia.
Qed.

Lemma itoa_correct_witness :
  exists digits, itoa 100 (- 2 ^ 31) = [45] ++ digits ++ [0]
    /\ numeral_value 10 digits = 2147483648 /\ (length (itoa 100 (- 2 ^ 31)) <= 12)%nat.
Proof.
  destruct (itoa_correct 100 (- 2 ^ 31)) as (g & H1 & H2 & _ & H3).
  - unfold in_s; lia.
  - exists g. split; [exact H1|]. split; [exact H2|exact H3].
Defined.

(** [safestrcpy] always leaves a NUL-terminated string inside its [n]-byte
    destination: a copy of the source cut to [n - 1] characters, writing
    nothing outside the [n] bytes. *)
Theorem safestrcpy_correct m s t n k :
  0 < n -> cstr m t k -> (s + n <= t \/ t + k < s) ->
  cstr (safestrcpy m s t n) s (Z.min k (n - 1))
  /\ (forall i, 0 <= i < Z.min k (n - 1) -> safestrcpy m s t n (s + i) = m (t + i))
  /\ (forall x, ~ (s <= x < s + n) -> safestrcpy m s t n x = m x).
Proof.
  intros Hn Hc Hd. unfold safestrcpy. destruct (Z.leb_spec n 0); [lia|].
  assert (forall x, safestrcpy_loop m s t (Z.to_nat (n - 1)) x =
    if inside s (Z.min (k + 2) n) x
    then (if x - s <? Z.min k (n - 1) then m (t + (x - s)) else 0) else m x) as Hx.
  { intros x. rewrite (safestrcpy_loop_spec m s t _ k x Hc); rewrite ?Z2Nat.id by lia; [|lia].
    replace (n - 1 + 1) with n by lia. reflexivity. }
  assert (forall i, 0 <= i < Z.min k (n - 1) ->
    safestrcpy_loop m s t (Z.to_nat (n - 1)) (s + i) = m (t + i)) as Hcopy.
  { intros i Hi. rewrite Hx. inside_cases; [|lia].
    destruct (Z.ltb_spec (s + i - s) (Z.min k (n - 1))); [f_equal; lia|lia]. }
  destruct Hc as (Hk & H0 & Hne). unfold cstr. split_and!.
  - lia.
  - rewrite Hx. inside_cases; [|lia].
    destruct (Z.ltb_spec (s + Z.min k (n - 1) - s) (Z.min k (n - 1))); [lia|reflexivity].
  - intros i Hi. rewrite Hcopy by lia. apply Hne; lia.
  - exact Hcopy.
  - intros x Hout. rewrite Hx. inside_cases; [lia|reflexivity].
Qed.

Lemma safestrcpy_correct_witness :
  cstr (safestrcpy (fun a => if a <? 105 then 65 else 0) 200 100 4) 200 3.
Proof.
  apply (safestrcpy_correct (fun a => if a <? 105 then 65 else 0) 200 100 4 5); [lia | | lia].
  split_and!; [lia | reflexivity |].
  intros i Hi. destruct (Z.ltb_spec (100 + i) 105); lia.
Defined.
