(* ===== verification/Type64.v ===== *)
(** * 64-bit division helpers (src/kernel/lib/type64.c)

    The kernel is a 32-bit freestanding program, so gcc calls these routines
    for every [long long] division.  The model keeps the shift-and-subtract
    loop with 64-bit wrap-around; the theorems show it is Euclidean division. *)
From Stdlib Require Import ZArith Lia.
From stdpp Require Import base numbers list.
From S2P Require Import Prelude.
Local Open Scope Z_scope.

(** One turn of [for(int i = 63; i >= 0; i--)] on (remainder, quotient). *)
Definition udiv_step (dividend divisor i : Z) (rq : Z * Z) : Z * Z :=
  let '(remainder, quotient) := rq in
  let remainder := u64 (Z.shiftl remainder 1) in
  let remainder := Z.lor remainder (Z.land (Z.shiftr dividend i) 1) in
  if divisor <=? remainder
  then (u64 (remainder - divisor), Z.lor quotient (u64 (Z.shiftl 1 i)))
  else (remainder, quotient).

(** The loop from index [n - 1] down to 0. *)
Fixpoint udiv_loop (dividend divisor : Z) (n : nat) (rq : Z * Z) : Z * Z :=
  match n with
  | O => rq
  | S k => udiv_loop dividend divisor k (udiv_step dividend divisor (Z.of_nat k) rq)
  end.

(** [__udivmoddi4]: (quotient, what is stored through remainder_ptr). *)
Definition udivmoddi4 (dividend divisor : Z) : Z * Z :=
  if divisor =? 0 then (0, 0)
  else if dividend <? divisor then (0, dividend)
  else if divisor =? dividend then (1, 0)
  else
    let '(remainder, quotient) := udiv_loop dividend divisor 64 (0, 0) in
    (quotient, remainder).

(** [__divmoddi4]: the signed version; negation wraps at 64 bits. *)
Definition divmoddi4 (dividend divisor : Z) : Z * Z :=
  let dividend_negative := dividend <? 0 in
  let divisor_negative := divisor <? 0 in
  let abs_dividend := u64 (if dividend_negative then i64 (- dividend) else dividend) in
  let abs_divisor := u64 (if divisor_negative then i64 (- divisor) else divisor) in
  let '(abs_quotient, abs_remainder) := udivmoddi4 abs_dividend abs_divisor in
  let quotient := i64 abs_quotient in
  let remainder := i64 abs_remainder in
  let quotient := if xorb dividend_negative divisor_negative then i64 (- quotient) else quotient in
  let remainder := if dividend_negative then i64 (- remainder) else remainder in
  (quotient, remainder).

Definition moddi3 (dividend divisor : Z) : Z := snd (divmoddi4 dividend divisor).

(** [__udivdi3] runs the loop with no test of the divisor. *)
Definition udivdi3 (dividend divisor : Z) : Z :=
  let '(_, quotient) := udiv_loop dividend divisor 64 (0, 0) in quotient.

Definition divdi3 (dividend divisor : Z) : Z := fst (divmoddi4 dividend divisor).

(** ** The loop invariant *)

(** Before index [n - 1] the remainder and quotient are those of the bits of
    the dividend at [n] and above; no bit is lost because those bits are fewer
    than 64. *)
Definition div_inv (dividend divisor : Z) (n : nat) (rq : Z * Z) : Prop :=
  let t := dividend / 2 ^ Z.of_nat n in
  rq = (t mod divisor, (t / divisor) * 2 ^ Z.of_nat n).

Lemma low_bit_lor a b : 0 <= a -> 0 <= b <= 1 -> Z.lor (2 * a) b = 2 * a + b.
Proof.
  intros Ha Hb. assert (b = 0 \/ b = 1) as [-> | ->] by lia.
  - rewrite Z.lor_0_r. lia.
  - rewrite <-Z.lxor_lor; [|apply Z.bits_inj'; intros i Hi].
    + symmetry. apply Z.add_nocarry_lxor. apply Z.bits_inj'. intros i Hi.
      rewrite Z.land_spec, Z.bits_0. destruct (Z.eqb_spec i 0) as [-> |].
      * rewrite Z.testbit_even_0; reflexivity.
      * replace i with (Z.succ (i - 1)) by lia.
        change 1 with (2 * 0 + 1) at 2. rewrite Z.testbit_odd_succ by lia.
        rewrite Z.bits_0. apply andb_false_r.
    + rewrite Z.land_spec, Z.bits_0. destruct (Z.eqb_spec i 0) as [-> |].
      * rewrite Z.testbit_even_0; reflexivity.
      * replace i with (Z.succ (i - 1)) by lia.
        change 1 with (2 * 0 + 1) at 2. rewrite Z.testbit_odd_succ by lia.
        rewrite Z.bits_0. apply andb_false_r.
Qed.

(** [a * 2^(k+1)] and [2^k] have no bit in common. *)
Lemma next_bit_lor a k :
  0 <= a -> 0 <= k -> Z.lor (a * 2 ^ (k + 1)) (2 ^ k) = (2 * a + 1) * 2 ^ k.
Proof.
  intros Ha Hk.
  replace (a * 2 ^ (k + 1)) with (Z.shiftl (2 * a) k)
    by (rewrite Z.shiftl_mul_pow2, Z.pow_add_r by lia; lia).
  replace (2 ^ k) with (Z.shiftl 1 k) at 1 by (rewrite Z.shiftl_mul_pow2; lia).
  rewrite <-Z.shiftl_lor, low_bit_lor, Z.shiftl_mul_pow2 by lia. reflexivity.
Qed.

Lemma dividend_bit dividend k :
  0 <= dividend -> 0 <= k ->
  Z.land (Z.shiftr dividend k) 1 = (dividend / 2 ^ k) mod 2.
Proof.
  intros Hd Hk. change 1 with (Z.ones 1).
  rewrite Z.land_ones, Z.shiftr_div_pow2 by lia. reflexivity.
Qed.

Lemma prefix_split dividend k :
  0 <= k ->
  dividend / 2 ^ k = 2 * (dividend / 2 ^ (k + 1)) + (dividend / 2 ^ k) mod 2.
Proof.
  intros Hk. rewrite Z.pow_add_r, <-Z.div_div by lia.
  change (2 ^ 1) with 2. pose proof (Z.div_mod (dividend / 2 ^ k) 2). lia.
Qed.

Lemma udiv_step_inv dividend divisor k rq :
  in_u 64 dividend -> 0 < divisor -> (k < 64)%nat ->
  div_inv dividend divisor (S k) rq ->
  div_inv dividend divisor k (udiv_step dividend divisor (Z.of_nat k) rq).
Proof.
  intros Hd Hv Hk ->. unfold div_inv, udiv_step.
  rewrite Nat2Z.inj_succ, <-Z.add_1_r.
  set (t := dividend / 2 ^ (Z.of_nat k + 1)).
  set (b := (dividend / 2 ^ Z.of_nat k) mod 2).
  assert (0 <= b <= 1) as Hb by (pose proof (Z.mod_pos_bound (dividend / 2 ^ Z.of_nat k) 2); lia).
  assert (dividend / 2 ^ Z.of_nat k = 2 * t + b) as Ht by (apply prefix_split; lia).
  assert (0 <= t < 2 ^ 63) as Htr.
  { split; [apply Z.div_pos; [apply Hd | apply Z.pow_pos_nonneg; lia]|].
    apply Z.div_lt_upper_bound; [apply Z.pow_pos_nonneg; lia|].
    rewrite <-Z.pow_add_r by lia.
    apply Z.lt_le_trans with (2 ^ 64); [apply Hd | apply Z.pow_le_mono_r; lia]. }
  assert (0 <= t mod divisor <= t) as Hr
    by (split; [apply Z.mod_pos_bound; lia | apply Z.mod_le; lia]).
  pose proof (Z.mod_pos_bound t divisor Hv) as Hrv.
  pose proof (Z.div_mod t divisor) as Hdm.
  rewrite dividend_bit by (try apply Hd; lia). fold b.
  rewrite Z.shiftl_mul_pow2, Z.mul_comm by lia. change (2 ^ 1) with 2.
  rewrite (uwrap_id 64 (2 * (t mod divisor))) by (unfold in_u; lia).
  rewrite low_bit_lor, Ht by lia.
  rewrite Z.shiftl_mul_pow2, Z.mul_1_l by lia.
  rewrite (uwrap_id 64 (2 ^ Z.of_nat k))
    by (split; [apply Z.pow_nonneg; lia | apply Z.pow_lt_mono_r; lia]).
  assert (0 <= t / divisor) as Hq by (apply Z.div_pos; lia).
  destruct (Z.leb_spec divisor (2 * (t mod divisor) + b)).
  - rewrite next_bit_lor by lia.
    assert ((2 * t + b) / divisor = 2 * (t / divisor) + 1) as ->
      by (symmetry; apply (Z.div_unique _ _ _ (2 * (t mod divisor) + b - divisor)); lia).
    f_equal. rewrite uwrap_id by (unfold in_u; lia).
    apply (Z.mod_unique _ _ (2 * (t / divisor) + 1)); lia.
  - assert ((2 * t + b) / divisor = 2 * (t / divisor)) as ->
      by (symmetry; apply (Z.div_unique _ _ _ (2 * (t mod divisor) + b)); lia).
    f_equal; [apply (Z.mod_unique _ _ (2 * (t / divisor))); lia|].
    rewrite Z.pow_add_r by lia. lia.
Qed.

Lemma udiv_loop_inv dividend divisor n rq :
  in_u 64 dividend -> 0 < divisor -> (n <= 64)%nat ->
  div_inv dividend divisor n rq ->
  div_inv dividend divisor 0 (udiv_loop dividend divisor n rq).
Proof.
  intros Hd Hv. revert rq. induction n as [|k IH]; intros rq Hn H; [exact H|].
  cbn [udiv_loop]. apply IH; [lia|]. apply udiv_step_inv; auto; lia.
Qed.

Lemma udiv_loop_spec dividend divisor :
  in_u 64 dividend -> 0 < divisor ->
  udiv_loop dividend divisor 64 (0, 0) = (dividend mod divisor, dividend / divisor).
Proof.
  intros Hd Hv.
  pose proof (udiv_loop_inv dividend divisor 64 (0, 0) Hd Hv (le_n _)) as H.
  unfold div_inv in H. rewrite Z.div_1_r, Z.mul_1_r in H. apply H.
  change (Z.of_nat 64) with 64. rewrite Z.div_small by exact Hd.
  rewrite Z.mod_0_l, Z.div_0_l by lia. reflexivity.
Qed.

(** Both entries of [__udivmoddi4] for every divisor, zero included. *)
Lemma udivmoddi4_spec dividend divisor :
  in_u 64 dividend -> in_u 64 divisor ->
  udivmoddi4 dividend divisor =
    if divisor =? 0 then (0, 0) else (dividend / divisor, dividend mod divisor).
Proof.
  intros Hd Hv. unfold udivmoddi4.
  destruct (Z.eqb_spec divisor 0) as [|Hnz]; [reflexivity|].
  assert (0 < divisor) as Hp by (unfold in_u in Hv; lia).
  destruct (Z.ltb_spec dividend divisor).
  - unfold in_u in Hd. rewrite Z.div_small, Z.mod_small by lia. reflexivity.
  - destruct (Z.eqb_spec divisor dividend) as [-> |].
    + rewrite Z.div_same, Z.mod_same by lia. reflexivity.
    + rewrite udiv_loop_spec by assumption. reflexivity.
Qed.

(** ** Properties *)

(** C39. [__udivmoddi4] stores the Euclidean quotient and remainder of any two
    64-bit numbers, and (0, 0) for a zero divisor: the shift-and-subtract loop
    never loses a bit of the remainder. *)
Theorem udivmoddi4_correct dividend divisor :
  in_u 64 dividend -> in_u 64 divisor ->
  udivmoddi4 dividend divisor =
    (if divisor =? 0 then (0, 0) else (dividend / divisor, dividend mod divisor))
  /\ (divisor <> 0 -> udivdi3 dividend divisor = dividend / divisor).
Proof.
  intros Hd Hv. split; [apply udivmoddi4_spec; assumption|].
  intros Hnz. unfold udivdi3.
  rewrite udiv_loop_spec; [reflexivity | assumption | unfold in_u in Hv; lia].
Qed.

Lemma udivmoddi4_correct_witness :
  udivmoddi4 (2 ^ 64 - 1) (2 ^ 63 + 1) = (1, 2 ^ 63 - 2).
Proof.
  refine (eq_trans (proj1 (udivmoddi4_correct (2 ^ 64 - 1) (2 ^ 63 + 1) _ _)) _).
  - unfold in_u; lia.
  - unfold in_u; lia.
  - vm_compute; reflexivity.
Defined.

Lemma abs64 z : in_s 64 z -> u64 (if z <? 0 then i64 (- z) else z) = Z.abs z.
Proof.
  intros Hz. unfold in_s in Hz.
  destruct (Z.ltb_spec z 0).
  - rewrite uwrap_swrap by lia. rewrite Z.abs_neq by lia. apply uwrap_id; unfold in_u; lia.
  - rewrite Z.abs_eq by lia. apply uwrap_id; unfold in_u; lia.
Qed.

(** The signed routines are C division: [__divdi3] truncates toward zero
    (wrapping the one overflowing quotient, INT64_MIN / -1) and [__moddi3]
    gives the remainder with the dividend's sign. *)
Theorem divmoddi4_correct dividend divisor :
  in_s 64 dividend -> in_s 64 divisor -> divisor <> 0 ->
  divdi3 dividend divisor = i64 (Z.quot dividend divisor)
  /\ moddi3 dividend divisor = Z.rem dividend divisor.
Proof.
  intros Hd Hv Hnz. unfold divdi3, moddi3, divmoddi4.
  rewrite !abs64 by assumption.
  assert (in_u 64 (Z.abs dividend)) as Hda by (unfold in_s, in_u in *; lia).
  assert (in_u 64 (Z.abs divisor)) as Hva by (unfold in_s, in_u in *; lia).
  rewrite udivmoddi4_spec by assumption.
  destruct (Z.eqb_spec (Z.abs divisor) 0); [lia|]. cbn [fst snd].
  rewrite Z.rem_eq, Z.quot_div by lia.
  pose proof (Z.mod_pos_bound (Z.abs dividend) (Z.abs divisor)).
  pose proof (Z.div_mod (Z.abs dividend) (Z.abs divisor)).
  assert (0 <= Z.abs dividend / Z.abs divisor) by (apply Z.div_pos; lia).
  assert (0 <= Z.abs dividend mod Z.abs divisor < 2 ^ 63) by (unfold in_s in *; lia).
  rewrite (swrap_id 64 eq_refl (Z.abs dividend mod Z.abs divisor)) by (unfold in_s; lia).
  assert (forall a, i64 (- i64 a) = i64 (- a)) as Hopp.
  { intros a. rewrite <-(swrap_uwrap 64 (- i64 a)), <-(swrap_uwrap 64 (- a)).
    f_equal. rewrite <-!Z.sub_0_l, <-(uwrap_sub_r 64 0 (i64 a)), uwrap_swrap, uwrap_sub_r by lia.
    reflexivity. }
  destruct (Z.ltb_spec dividend 0), (Z.ltb_spec divisor 0); cbn [xorb].
  - rewrite (Z.sgn_neg dividend), (Z.sgn_neg divisor) by lia. split; [f_equal; lia|].
    rewrite swrap_id by (unfold in_s; lia). lia.
  - rewrite (Z.sgn_neg dividend), (Z.sgn_pos divisor) by lia. rewrite Hopp. split; [f_equal; lia|].
    rewrite swrap_id by (unfold in_s; lia). lia.
  - rewrite (Z.sgn_neg divisor) by lia.
    destruct (Z.eq_dec dividend 0) as [-> |].
    + rewrite Z.mod_0_l, Z.div_0_l in * by lia. split; [reflexivity | cbn; lia].
    + rewrite (Z.sgn_pos dividend), Hopp by lia. split; [f_equal|]; lia.
  - rewrite (Z.sgn_pos divisor) by lia.
    destruct (Z.eq_dec dividend 0) as [-> |].
    + rewrite Z.mod_0_l, Z.div_0_l in * by lia. split; [reflexivity | cbn; lia].
    + rewrite (Z.sgn_pos dividend) by lia. split; [f_equal|]; lia.
Qed.

Lemma divmoddi4_correct_witness :
  divdi3 (-7) 2 = -3 /\ moddi3 (-7) 2 = -1.
Proof.
  apply (divmoddi4_correct (-7) 2); unfold in_s; lia.
Defined.
