(* ===== verification/Time.v ===== *)
(** * Wall-clock time and the TSC clock (src/kernel/time/time.c, tsc.c)

    [mktime] turns a broken-down date into seconds since 1970, [time_init]
    reads the CMOS clock in BCD, and [epoch_mktime], [tsc_to_us], [tsc_to_ns]
    scale the time stamp counter with the 64-bit division runtime.  The CMOS
    registers are an argument: [rtc k a] is what the [k]-th read of register
    [a] returns. *)
From Stdlib Require Import ZArith Lia.
From stdpp Require Import base numbers list.
From S2P Require Import Prelude Type64.
Local Open Scope Z_scope.

(** ** time.c *)

Definition MINUTE : Z := 60.
Definition HOUR : Z := 60 * MINUTE.
Definition DAY : Z := 24 * HOUR.
Definition YEAR : Z := 365 * DAY.

Record tm := Tm {
  tm_sec : Z; tm_min : Z; tm_hour : Z; tm_mday : Z; tm_mon : Z; tm_year : Z }.

(** Seconds before each month of a leap year. *)
Definition month : list Z :=
  [0;
   DAY * 31;
   DAY * (31+29);
   DAY * (31+29+31);
   DAY * (31+29+31+30);
   DAY * (31+29+31+30+31);
   DAY * (31+29+31+30+31+30);
   DAY * (31+29+31+30+31+30+31);
   DAY * (31+29+31+30+31+30+31+31);
   DAY * (31+29+31+30+31+30+31+31+30);
   DAY * (31+29+31+30+31+30+31+31+30+31);
   DAY * (31+29+31+30+31+30+31+31+30+31+30)].

(** [res] is 64 bits wide but each product is an [int]; [None] is an access
    outside [month]. *)
Definition mktime (t : tm) : option Z :=
  let year := tm_year t in
  let res := i32 (i32 (YEAR * year) + i32 (DAY * Z.quot (i32 (year + 1)) 4)) in
  m ← (if tm_mon t <? 0 then None else month !! Z.to_nat (tm_mon t));
  let res := i64 (res + m) in
  let res := if (1 <? tm_mon t) && nz (Z.rem (i32 (year + 2)) 4) then i64 (res - DAY) else res in
  let res := i64 (res + i32 (DAY * i32 (tm_mday t - 1))) in
  let res := i64 (res + i32 (HOUR * tm_hour t)) in
  let res := i64 (res + i32 (MINUTE * tm_min t)) in
  Some (i64 (res + tm_sec t)).

Definition BCD_TO_BIN (v : Z) : Z := Z.land v 15 + Z.shiftr v 4 * 10.

(** The seven register reads of one turn of the [do] loop and the re-read of
    the seconds that decides whether to go round again. *)
Definition rtc_sample (rtc : Z -> Z -> Z) (k : Z) : (tm * Z) * Z :=
  (Tm (rtc k 0) (rtc (k + 1) 2) (rtc (k + 2) 4) (rtc (k + 3) 7) (rtc (k + 4) 8) (rtc (k + 5) 9),
   rtc (k + 6) 50, rtc (k + 7) 0).

Fixpoint rtc_loop (rtc : Z -> Z -> Z) (fuel : nat) (k : Z) : option (tm * Z) :=
  match fuel with
  | O => None
  | S f =>
      let '((t, century), again) := rtc_sample rtc k in
      if negb (tm_sec t =? again) then rtc_loop rtc f (k + 8) else Some (t, century)
  end.

(** [time_init]: the value stored in [system_time]. *)
Definition time_init (rtc : Z -> Z -> Z) (fuel : nat) : option Z :=
  '(t, century) ← rtc_loop rtc fuel 0;
  let full_year := u8 (BCD_TO_BIN century) * 100 + BCD_TO_BIN (tm_year t) in
  mktime (Tm (BCD_TO_BIN (tm_sec t)) (BCD_TO_BIN (tm_min t)) (BCD_TO_BIN (tm_hour t))
    (BCD_TO_BIN (tm_mday t)) (BCD_TO_BIN (tm_mon t) - 1) (full_year - 1970)).

(** ** tsc.c *)

Record clock := Clock { tsc_freq_hz : Z; tsc_offset : Z; system_time : Z }.

(** The operands mix [int64_t] and [uint64_t]: the sum is unsigned, and is read
    back as [time_t]. *)
Definition epoch_mktime (c : clock) (rdtsc : Z) : Z :=
  i64 (u64 (u64 (system_time c) + udivdi3 (u64 (rdtsc - tsc_offset c)) (tsc_freq_hz c))).

Definition tsc_to_us (c : clock) (tsc : Z) : Z :=
  udivdi3 (u64 (u64 (tsc - tsc_offset c) * 1000000)) (tsc_freq_hz c).

Definition tsc_to_ns (c : clock) (tsc : Z) : Z :=
  udivdi3 (u64 (u64 (tsc - tsc_offset c) * 1000000000)) (tsc_freq_hz c).

(** The frequency stored by [tsc_init] after 10 ms of the PIT. *)
Definition tsc_calibrate (tsc_start tsc_end tsc_now st : Z) : clock :=
  Clock (u64 (u64 (tsc_end - tsc_start) * 100)) tsc_now st.

(** ** The Gregorian calendar *)

Definition leap (y : Z) : bool :=
  (y mod 4 =? 0) && (negb (y mod 100 =? 0) || (y mod 400 =? 0)).
Definition year_days (y : Z) : Z := if leap y then 366 else 365.
Definition month_days (y : Z) : list Z :=
  [31; (if leap y then 29 else 28); 31; 30; 31; 30; 31; 31; 30; 31; 30; 31].

Definition sumZ (l : list Z) : Z := foldr Z.add 0 l.

(** Days from 1 January 1970 to the first of month [m] (0..11) of [1970 + y]. *)
Definition days_to_month (y m : nat) : Z :=
  sumZ (map (fun k => year_days (1970 + Z.of_nat k)) (seq 0 y))
  + sumZ (take m (month_days (1970 + Z.of_nat y))).

Definition unix_time (t : tm) : Z :=
  DAY * (days_to_month (Z.to_nat (tm_year t)) (Z.to_nat (tm_mon t)) + (tm_mday t - 1))
  + HOUR * tm_hour t + MINUTE * tm_min t + tm_sec t.

Definition tm_ok (t : tm) : Prop :=
  0 <= tm_mon t <= 11 /\ 1 <= tm_mday t <= 31 /\ 0 <= tm_hour t <= 23 /\
  0 <= tm_min t <= 59 /\ 0 <= tm_sec t <= 60.

(** The part of [mktime] that depends only on year and month. *)
Definition ym_seconds (y m : Z) : option Z :=
  mktime (Tm 0 0 0 1 m y).

(** Every month of 1970..2038, checked by evaluation. *)
Lemma ym_table :
  forallb (fun y => forallb (fun m =>
    bool_decide (ym_seconds (Z.of_nat y) (Z.of_nat m) = Some (DAY * days_to_month y m)))
    (seq 0 12)) (seq 0 69) = true.
Proof. vm_compute. reflexivity. Qed.

Lemma ym_correct y m :
  0 <= y <= 68 -> 0 <= m <= 11 ->
  ym_seconds y m = Some (DAY * days_to_month (Z.to_nat y) (Z.to_nat m)).
Proof.
  intros Hy Hm. pose proof ym_table as H. rewrite forallb_forall in H.
  specialize (H (Z.to_nat y)). rewrite in_seq in H. specialize (H ltac:(lia)).
  rewrite forallb_forall in H. specialize (H (Z.to_nat m)). rewrite in_seq in H.
  specialize (H ltac:(lia)). apply bool_decide_eq_true in H.
  rewrite !Z2Nat.id in H by lia. exact H.
Qed.

(** Up to 2038 the year and month part is a day count of at most 26000. *)
Lemma ym_bound y m :
  0 <= y <= 68 -> 0 <= m <= 11 ->
  0 <= days_to_month (Z.to_nat y) (Z.to_nat m) < 26000.
Proof.
  intros Hy Hm.
  assert (forallb (fun y => forallb (fun m =>
    (0 <=? days_to_month y m) && (days_to_month y m <? 26000)) (seq 0 12)) (seq 0 69) = true) as H
    by (vm_compute; reflexivity).
  rewrite forallb_forall in H. specialize (H (Z.to_nat y)). rewrite in_seq in H.
  specialize (H ltac:(lia)). rewrite forallb_forall in H. specialize (H (Z.to_nat m)).
  rewrite in_seq in H. specialize (H ltac:(lia)).
  apply andb_true_iff in H as [H1 H2]. apply Z.leb_le in H1. apply Z.ltb_lt in H2. lia.
Qed.

Lemma i64_add_small a b :
  - 2 ^ 62 <= a < 2 ^ 62 -> - 2 ^ 62 <= b < 2 ^ 62 -> i64 (a + b) = a + b.
Proof. intros Ha Hb. apply swrap_id; [lia|]. unfold in_s. lia. Qed.

(** The fields below the month only add to the year and month part. *)
Lemma mktime_split t v :
  tm_ok t -> ym_seconds (tm_year t) (tm_mon t) = Some v -> 0 <= v < 2 ^ 40 ->
  mktime t = Some (v + DAY * (tm_mday t - 1) + HOUR * tm_hour t + MINUTE * tm_min t + tm_sec t).
Proof.
  intros (Hm & Hd & Hh & Hi & Hs) Hv Hb. unfold ym_seconds, mktime in *.
  cbn [tm_sec tm_min tm_hour tm_mday tm_mon tm_year] in Hv.
  destruct (if tm_mon t <? 0 then None else month !! Z.to_nat (tm_mon t)) as [m|]; [|discriminate].
  cbn [mbind option_bind] in *.
  set (a := if _ : bool then _ else _) in *.
  assert (in_s 64 a) as Ha.
  { unfold a. destruct (_ : bool); apply swrap_range; lia. }
  change (i32 (DAY * i32 (1 - 1))) with 0 in Hv. change (i32 (HOUR * 0)) with 0 in Hv.
  change (i32 (MINUTE * 0)) with 0 in Hv. rewrite !Z.add_0_r in Hv.
  rewrite !(swrap_id 64 eq_refl a) in Hv by exact Ha.
  injection Hv as ->. clear Ha.
  unfold DAY, HOUR, MINUTE in *.
  rewrite (swrap_id 32 eq_refl (tm_mday t - 1)) by (unfold in_s; lia).
  rewrite !(swrap_id 32 eq_refl) by (unfold in_s; lia).
  rewrite (i64_add_small v _) by lia. rewrite (i64_add_small (v + _) _) by lia.
  rewrite (i64_add_small (v + _ + _) _) by lia. rewrite (i64_add_small (v + _ + _ + _) _) by lia.
  reflexivity.
Qed.

Lemma mktime_unix t :
  tm_ok t -> 0 <= tm_year t <= 68 -> mktime t = Some (unix_time t).
Proof.
  intros Ht Hy. pose proof Ht as (Hm & _).
  pose proof (ym_bound (tm_year t) (tm_mon t) Hy Hm) as Hb.
  rewrite (mktime_split t _ Ht (ym_correct (tm_year t) (tm_mon t) Hy Hm)).
  - unfold unix_time. f_equal. lia.
  - unfold DAY, HOUR, MINUTE. lia.
Qed.

(** ** Properties *)

(** C40. [mktime] counts the seconds of the Gregorian calendar since 1970 for
    every valid date from 1970 through 2038 (no [int] product overflows and the
    every-fourth-year rule agrees with the calendar there). *)
Theorem mktime_correct t :
  tm_ok t -> 0 <= tm_year t <= 68 -> mktime t = Some (unix_time t).
Proof. apply mktime_unix. Qed.

Lemma mktime_correct_witness :
  mktime (Tm 56 34 12 29 1 54) = Some 1709210096.
Proof.
  refine (eq_trans (mktime_correct (Tm 56 34 12 29 1 54) _ _) _).
  - unfold tm_ok; cbn; lia.
  - cbn; lia.
  - vm_compute. reflexivity.
Defined.

(** From 2039 on the [int] product [YEAR*year] overflows: the first second
    of 2039 comes out as a date before 1970. *)
Theorem mktime_overflow_2039 :
  mktime (Tm 0 0 0 1 0 69) = Some (unix_time (Tm 0 0 0 1 0 69) - 2 ^ 32)
  /\ unix_time (Tm 0 0 0 1 0 69) - 2 ^ 32 < 0.
Proof. split; vm_compute; reflexivity. Qed.

(** The BCD byte of a two-digit number. *)
Definition to_bcd (n : Z) : Z := 16 * (n / 10) + n mod 10.

Lemma BCD_TO_BIN_spec n : 0 <= n <= 99 -> BCD_TO_BIN (to_bcd n) = n.
Proof.
  intros Hn. unfold BCD_TO_BIN, to_bcd.
  assert (0 <= n mod 10 < 10) by (apply Z.mod_pos_bound; lia).
  change 15 with (Z.ones 4). rewrite Z.land_ones, Z.shiftr_div_pow2 by lia.
  change (2 ^ 4) with 16. Z.div_mod_to_equations. lia.
Qed.

(** [time_init] sets [system_time] to the Unix time shown by a CMOS clock
    that holds a date of 1970..2038 in BCD and does not tick during the reads. *)
Theorem time_init_correct rtc t y fuel :
  tm_ok t -> 1970 <= y <= 2038 -> tm_year t = y - 1970 ->
  (forall k, rtc k 0 = to_bcd (tm_sec t)) -> (forall k, rtc k 2 = to_bcd (tm_min t)) ->
  (forall k, rtc k 4 = to_bcd (tm_hour t)) -> (forall k, rtc k 7 = to_bcd (tm_mday t)) ->
  (forall k, rtc k 8 = to_bcd (tm_mon t + 1)) -> (forall k, rtc k 9 = to_bcd (y mod 100)) ->
  (forall k, rtc k 50 = to_bcd (y / 100)) ->
  time_init rtc (S fuel) = Some (unix_time t).
Proof.
  intros Ht Hy Hty H0 H2 H4 H7 H8 H9 H50. pose proof Ht as (Hm & Hd & Hh & Hi & Hs).
  assert (0 <= y mod 100 < 100) by (apply Z.mod_pos_bound; lia).
  assert (19 <= y / 100 <= 20) by (Z.div_mod_to_equations; lia).
  unfold time_init. cbn [rtc_loop]. unfold rtc_sample.
  rewrite !H0, !H2, !H4, !H7, !H8, !H9, !H50. cbn [tm_sec negb]. rewrite Z.eqb_refl.
  cbn [negb mbind option_bind tm_sec tm_min tm_hour tm_mday tm_mon tm_year].
  rewrite !BCD_TO_BIN_spec by lia. rewrite uwrap_id by (unfold in_u; lia).
  replace (y / 100 * 100 + y mod 100 - 1970) with (tm_year t)
    by (pose proof (Z.div_mod y 100); lia).
  replace (tm_mon t + 1 - 1) with (tm_mon t) by lia.
  replace (Tm _ _ _ _ _ _) with t by (destruct t; reflexivity).
  apply mktime_unix; [assumption | lia].
Qed.

(** A CMOS clock that shows 29 February 2024, 12:34:56. *)
Definition rtc_2024 (k a : Z) : Z :=
  match a with
  | 0 => 86 | 2 => 52 | 4 => 18 | 7 => 41 | 8 => 2 | 9 => 36 | 50 => 32 | _ => 0
  end.

Lemma time_init_correct_witness : time_init rtc_2024 1 = Some 1709210096.
Proof.
  refine (eq_trans (time_init_correct rtc_2024 (Tm 56 34 12 29 1 54) 2024 0 _ _ _ _ _ _ _ _ _ _) _);
    try (intros; reflexivity); try lia.
  - unfold tm_ok; cbn; lia.
Defined.

Lemma udivdi3_spec n d : in_u 64 n -> 0 < d -> udivdi3 n d = n / d.
Proof. intros Hn Hd. unfold udivdi3. rewrite udiv_loop_spec by assumption. reflexivity. Qed.

(** The TSC clock: [epoch_mktime] is the boot time plus the whole seconds
    counted since calibration, and the microsecond clock is exact while the
    scaled tick count fits 64 bits. *)
Theorem tsc_clock_correct c ticks :
  0 < tsc_freq_hz c -> in_u 64 (tsc_offset c) -> 0 <= ticks < 2 ^ 62 ->
  0 <= system_time c < 2 ^ 62 ->
  let tsc := u64 (tsc_offset c + ticks) in
  epoch_mktime c tsc = system_time c + ticks / tsc_freq_hz c
  /\ (ticks * 1000000 < 2 ^ 64 -> tsc_to_us c tsc = ticks * 1000000 / tsc_freq_hz c)
  /\ (ticks * 1000000000 < 2 ^ 64 -> tsc_to_ns c tsc = ticks * 1000000000 / tsc_freq_hz c).
Proof.
  intros Hf Ho Ht Hs tsc.
  assert (u64 (tsc - tsc_offset c) = ticks) as Hd.
  { unfold tsc. rewrite uwrap_sub_l, uwrap_id; [lia | unfold in_u; lia]. }
  unfold epoch_mktime, tsc_to_us, tsc_to_ns. rewrite Hd.
  assert (0 <= ticks / tsc_freq_hz c <= ticks) as Hq.
  { split; [apply Z.div_pos; lia | apply Z.div_le_upper_bound; nia]. }
  split_and!.
  - rewrite udivdi3_spec by (unfold in_u; lia).
    rewrite swrap_uwrap, (uwrap_id 64 (system_time c)) by (unfold in_u; lia).
    apply swrap_id; [lia | unfold in_s; lia].
  - intros H. rewrite (uwrap_id 64 (ticks * _)) by (unfold in_u; lia).
    apply udivdi3_spec; [unfold in_u; lia | lia].
  - intros H. rewrite (uwrap_id 64 (ticks * _)) by (unfold in_u; lia).
    apply udivdi3_spec; [unfold in_u; lia | lia].
Qed.

Lemma tsc_clock_correct_witness :
  epoch_mktime (Clock 1000 (2 ^ 64 - 5) 1700000000) (u64 (2 ^ 64 - 5 + 2500)) = 1700000002.
Proof.
  destruct (tsc_clock_correct (Clock 1000 (2 ^ 64 - 5) 1700000000) 2500) as [H _];
    cbn [tsc_freq_hz tsc_offset system_time]; try (unfold in_u; lia).
  exact H.
Defined.

(** At 3 GHz the nanosecond clock runs backwards within seven seconds:
    the 64-bit product of ticks and 10^9 wraps. *)
Theorem tsc_to_ns_wraps :
  tsc_to_ns (Clock 3000000000 0 0) (7 * 3000000000)
  < tsc_to_ns (Clock 3000000000 0 0) (6 * 3000000000).
Proof. vm_compute. reflexivity. Qed.
