(* ===== verification/Random.v ===== *)
(** * Entropy source and memory devices (src/drivers/char/random.c, mem.c)

    [xorshift32] and [entropy] fill a buffer from the generator state mixed
    with the time stamp counter; [memread] and [memwrite] are the MEM_MAJOR
    device switch (mem, kmem, null, zero, full, random, ...).  Kernel memory is
    the byte map of KString. *)
From Stdlib Require Import ZArith Lia.
From stdpp Require Import base numbers list.
From S2P Require Import Prelude KString.
Local Open Scope Z_scope.

(** ** random.c *)

Definition xorshift32 (state : Z) : Z :=
  let x := state in
  let x := Z.lxor x (u32 (Z.shiftl x 13)) in
  let x := Z.lxor x (Z.shiftr x 17) in
  let x := Z.lxor x (u32 (Z.shiftl x 5)) in
  x.

(** [buf32[i] = xorshift32(&rng_state)] for [num_words] words, as bytes. *)
Fixpoint entropy_words (num_words : nat) (rng_state : Z) : list Z * Z :=
  match num_words with
  | O => ([], rng_state)
  | S k =>
      let v := xorshift32 rng_state in
      let '(rest, st) := entropy_words k v in
      ([u8 v; u8 (Z.shiftr v 8); u8 (Z.shiftr v 16); u8 (Z.shiftr v 24)] ++ rest, st)
  end.

(** The bytes written to [dst] and the new [rng_state]; [lo] and [hi] are what
    [rdtsc] returned. *)
Definition entropy (rng_state lo hi : Z) (n : Z) : list Z * Z :=
  let rng_state := Z.lxor rng_state (Z.lxor lo hi) in
  let num_words := n / 4 in
  let remainder := n mod 4 in
  let '(bytes, st) := entropy_words (Z.to_nat num_words) rng_state in
  if 0 <? remainder then
    let val := xorshift32 st in
    (bytes ++ map (fun i => Z.land (Z.shiftr val (Z.of_nat i * 8)) 255) (seq 0 (Z.to_nat remainder)),
     val)
  else (bytes, st).

(** ** mem.c *)

Definition KERNBASE : Z := 3221225472.
Definition ENXIO : Z := 6.
Definition EFAULT : Z := 14.
Definition EPERM : Z := 1.
Definition EINVAL : Z := 22.
Definition ENOSPC : Z := 28.

(** What a transfer may do besides returning a count. *)
Inductive mem_effect : Type :=
| NoCopy                        (* nothing is copied *)
| CopyFrom (addr n : Z)         (* memmove from this kernel address *)
| CopyTo (addr n : Z)           (* memmove to this kernel address *)
| Zeros (n : Z)                 (* memset(dst, 0, n) *)
| RandomBytes (n : Z).          (* entropy(dst, n) *)

Section mem_device.
Context (PHYSTOP : Z).

Definition P2V (a : Z) : Z := u32 (a + KERNBASE).

(** [int n], [uint32_t off]: the sums are unsigned, the clipped [n] is an int. *)
Definition memread (minor n off : Z) : Z * mem_effect :=
  match minor with
  | 1 =>
      let n := if PHYSTOP <? u32 (off + n) then i32 (PHYSTOP - off) else n in
      if n <=? 0 then (0, NoCopy) else (n, CopyFrom (P2V off) n)
  | 2 =>
      if (off <? KERNBASE) || (u32 (KERNBASE + PHYSTOP) <? u32 (off + n))
      then (- EFAULT, NoCopy) else (n, CopyFrom off (u32 n))
  | 3 => (0, NoCopy)
  | 4 => (- ENXIO, NoCopy)
  | 5 => (n, Zeros (u32 n))
  | 6 => (- ENXIO, NoCopy)
  | 7 => (n, Zeros (u32 n))
  | 8 => (n, RandomBytes n)
  | 9 => (n, RandomBytes n)
  | 10 => (- ENXIO, NoCopy)
  | 11 => (- ENXIO, NoCopy)
  | _ => (- ENXIO, NoCopy)
  end.

Definition memwrite (suser : bool) (minor n off : Z) : Z * mem_effect :=
  match minor with
  | 1 =>
      if negb suser then (- EPERM, NoCopy)
      else
        let n := if PHYSTOP <? u32 (off + n) then i32 (PHYSTOP - off) else n in
        if n <=? 0 then (0, NoCopy) else (n, CopyTo (P2V off) n)
  | 2 => (- ENXIO, NoCopy)
  | 3 => (n, NoCopy)
  | 4 => (- ENXIO, NoCopy)
  | 5 => (n, NoCopy)
  | 6 => (- ENXIO, NoCopy)
  | 7 => (- ENOSPC, NoCopy)
  | 8 => (n, NoCopy)
  | 9 => (n, NoCopy)
  | 10 => (- ENXIO, NoCopy)
  | 11 => (- ENXIO, NoCopy)
  | 12 =>
      let vga_addr := u32 (655360 + off) in
      if (65536 <=? off) || (65536 <? u32 (off + n))
      then (- EINVAL, NoCopy) else (n, CopyTo (P2V vga_addr) (u32 n))
  | _ => (- ENXIO, NoCopy)
  end.
End mem_device.

(** ** Lemmas *)

Definition shl_mix (k x : Z) : Z := Z.lxor x (u32 (Z.shiftl x k)).
Definition shr_mix (k x : Z) : Z := Z.lxor x (Z.shiftr x k).

Lemma xorshift32_mixes x : xorshift32 x = shl_mix 5 (shr_mix 17 (shl_mix 13 x)).
Proof. reflexivity. Qed.

Lemma lxor_in_u w a b : 0 <= w -> in_u w a -> in_u w b -> in_u w (Z.lxor a b).
Proof.
  intros Hw Ha Hb. apply testbit_in_u; [lia | apply Z.lxor_nonneg; unfold in_u in *; lia |].
  intros i Hi. rewrite Z.lxor_spec, !(in_u_testbit w) by assumption. reflexivity.
Qed.

Lemma shl_mix_range k x : in_u 32 x -> in_u 32 (shl_mix k x).
Proof. intros Hx. apply lxor_in_u; [lia | exact Hx | apply uwrap_range; lia]. Qed.

Lemma shr_mix_range k x : 0 <= k -> in_u 32 x -> in_u 32 (shr_mix k x).
Proof.
  intros Hk Hx. apply lxor_in_u; [lia | exact Hx |].
  unfold in_u in *. rewrite Z.shiftr_div_pow2 by lia.
  assert (0 < 2 ^ k) by (apply Z.pow_pos_nonneg; lia).
  split; [apply Z.div_pos; lia|].
  apply Z.le_lt_trans with x; [|lia]. apply Z.div_le_upper_bound; [lia|]. nia.
Qed.

(** Bit [i] of a mix is bit [i] of the input xor one bit already known. *)
Lemma shl_mix_inj k x y :
  0 < k -> in_u 32 x -> in_u 32 y -> shl_mix k x = shl_mix k y -> x = y.
Proof.
  intros Hk Hx Hy He. apply Z.bits_inj'. intros i Hi.
  rewrite <-(Z2Nat.id i Hi). clear Hi. generalize (Z.to_nat i) as j. clear i.
  intros j. induction j as [j IH] using lt_wf_ind.
  apply (f_equal (fun v => Z.testbit v (Z.of_nat j))) in He.
  unfold shl_mix in He. rewrite !Z.lxor_spec, !uwrap_testbit, !Z.shiftl_spec in He by lia.
  destruct (Z.ltb_spec (Z.of_nat j) 32) as [Hj | Hj].
  - cbn [andb] in He. destruct (Z.ltb_spec (Z.of_nat j - k) 0) as [Hn | Hn].
    + rewrite !(Z.testbit_neg_r _ (Z.of_nat j - k)), !xorb_false_r in He by lia. exact He.
    + rewrite <-(Z2Nat.id (Z.of_nat j - k) Hn), (IH (Z.to_nat (Z.of_nat j - k))) in He by lia.
      destruct (Z.testbit x _), (Z.testbit y (Z.of_nat j)), (Z.testbit y _); cbn in He; congruence.
  - rewrite !(in_u_testbit 32) by (assumption || lia). reflexivity.
Qed.

Lemma shr_mix_inj k x y :
  0 < k -> in_u 32 x -> in_u 32 y -> shr_mix k x = shr_mix k y -> x = y.
Proof.
  intros Hk Hx Hy He. apply Z.bits_inj'. intros i Hi.
  assert (forall d : nat, forall i, 0 <= i -> 32 - Z.of_nat d <= i ->
    Z.testbit x i = Z.testbit y i) as H; [|apply (H 32%nat); lia].
  intros d. induction d as [|d IH]; intros i' Hi' Hd.
  - rewrite !(in_u_testbit 32) by (assumption || lia). reflexivity.
  - apply (f_equal (fun v => Z.testbit v i')) in He. unfold shr_mix in He.
    rewrite !Z.lxor_spec, !Z.shiftr_spec, (IH (i' + k)) in He by lia.
    destruct (Z.testbit x i'), (Z.testbit y i'), (Z.testbit y (i' + k)); cbn in He; congruence.
Qed.

Lemma xorshift32_in_u x : in_u 32 x -> in_u 32 (xorshift32 x).
Proof.
  intros Hx. rewrite xorshift32_mixes.
  apply shl_mix_range, shr_mix_range, shl_mix_range; [lia | exact Hx].
Qed.

Lemma xorshift32_inj x y :
  in_u 32 x -> in_u 32 y -> xorshift32 x = xorshift32 y -> x = y.
Proof.
  intros Hx Hy He. rewrite !xorshift32_mixes in He.
  assert (forall z, in_u 32 z -> in_u 32 (shr_mix 17 (shl_mix 13 z))) as Hr
    by (intros z Hz; apply shr_mix_range, shl_mix_range; [lia | exact Hz]).
  apply (shl_mix_inj 5) in He; [|lia|auto..].
  apply (shr_mix_inj 17) in He; [|lia|apply shl_mix_range; assumption..].
  apply (shl_mix_inj 13) in He; [assumption|lia|assumption..].
Qed.

Lemma xorshift32_nonzero x : in_u 32 x -> x <> 0 -> xorshift32 x <> 0.
Proof.
  intros Hx Hnz He. apply Hnz. apply xorshift32_inj; [exact Hx | unfold in_u; lia | exact He].
Qed.

Lemma entropy_words_spec k st :
  in_u 32 st -> st <> 0 ->
  length (entropy_words k st).1 = (4 * k)%nat
  /\ Forall (in_u 8) (entropy_words k st).1
  /\ in_u 32 (entropy_words k st).2 /\ (entropy_words k st).2 <> 0.
Proof.
  revert st. induction k as [|k IH]; intros st Hst Hnz; cbn [entropy_words].
  - split_and!; [reflexivity | constructor | exact Hst | exact Hnz].
  - specialize (IH (xorshift32 st) (xorshift32_in_u st Hst) (xorshift32_nonzero st Hst Hnz)).
    destruct (entropy_words k (xorshift32 st)) as [rest st']. cbn [fst snd] in *.
    destruct IH as (Hl & Hf & Hr & Hz). split_and!; [|  | exact Hr | exact Hz].
    + cbn [app length]. lia.
    + cbn [app]. repeat (constructor; [apply uwrap_range; lia|]). exact Hf.
Qed.

(** ** Properties *)

(** [xorshift32] permutes the non-zero 32-bit states: it is injective on
    32-bit words, keeps them 32 bits wide and never falls into the absorbing
    state 0. *)
Theorem xorshift32_permutation x y :
  in_u 32 x -> in_u 32 y ->
  in_u 32 (xorshift32 x) /\ (xorshift32 x = xorshift32 y -> x = y)
  /\ (x <> 0 -> xorshift32 x <> 0).
Proof.
  intros Hx Hy. split_and!.
  - apply xorshift32_in_u; exact Hx.
  - apply xorshift32_inj; assumption.
  - apply xorshift32_nonzero; exact Hx.
Qed.

Lemma xorshift32_permutation_witness :
  in_u 32 (xorshift32 1) /\ xorshift32 1 = 270369 /\ xorshift32 1 <> 0.
Proof.
  destruct (xorshift32_permutation 1 2) as (H & _ & Hz); try (unfold in_u; lia).
  split; [exact H|]. split; [reflexivity | apply Hz; lia].
Defined.

(** [entropy] writes exactly [n] bytes for every buffer length, word tail
    included, and hands a usable (non-zero) generator state to the next call. *)
Theorem entropy_fills rng_state lo hi n :
  in_u 32 rng_state -> in_u 32 lo -> in_u 32 hi -> 0 <= n ->
  Z.lxor rng_state (Z.lxor lo hi) <> 0 ->
  length (entropy rng_state lo hi n).1 = Z.to_nat n
  /\ Forall (in_u 8) (entropy rng_state lo hi n).1
  /\ in_u 32 (entropy rng_state lo hi n).2 /\ (entropy rng_state lo hi n).2 <> 0.
Proof.
  intros Hs Hlo Hhi Hn Hnz. unfold entropy.
  assert (in_u 32 (Z.lxor rng_state (Z.lxor lo hi))) as Hm by (repeat apply lxor_in_u; assumption || lia).
  destruct (entropy_words_spec (Z.to_nat (n / 4)) _ Hm Hnz) as (Hl & Hf & Hr & Hz).
  destruct (entropy_words _ _) as [bytes st]. cbn [fst snd] in *.
  pose proof (Z.div_mod n 4). pose proof (Z.mod_pos_bound n 4).
  assert (0 <= n / 4) by (apply Z.div_pos; lia).
  destruct (Z.ltb_spec 0 (n mod 4)); cbn [fst snd].
  - split_and!; [ | | apply xorshift32_in_u; exact Hr | apply xorshift32_nonzero; assumption].
    + len.
    + apply Forall_app. split; [exact Hf|]. apply Forall_map, Forall_true. intros i.
      change 255 with (Z.ones 8). rewrite Z.land_ones by lia. apply Z.mod_pos_bound. lia.
  - split_and!; try assumption. len.
Qed.

Lemma entropy_fills_witness : length (entropy 1 2 0 7).1 = 7%nat.
Proof.
  apply (entropy_fills 1 2 0 7); try (unfold in_u; lia). vm_compute. discriminate.
Defined.

(** For offsets below 2 GB the mem device (/dev/mem and the VGA window)
    never transfers outside physical memory (outside the 64 KB window), writes
    to /dev/mem need the superuser, and the count returned is the count
    copied. *)
Theorem mem_device_bounds PHYSTOP suser minor n off a k :
  0 <= PHYSTOP < 2 ^ 31 -> 0 <= n < 2 ^ 31 -> 0 <= off < 2 ^ 31 ->
  (minor = 1 -> memread PHYSTOP minor n off = (k, CopyFrom a k) ->
     a = P2V off /\ 0 < k <= n /\ off + k <= PHYSTOP)
  /\ (minor = 1 -> memwrite PHYSTOP suser minor n off = (k, CopyTo a k) ->
     suser = true /\ a = P2V off /\ 0 < k <= n /\ off + k <= PHYSTOP)
  /\ (minor = 12 -> memwrite PHYSTOP suser minor n off = (k, CopyTo a k) ->
     a = P2V (655360 + off) /\ off + k <= 65536).
Proof.
  intros HP Hn Ho.
  assert (u32 (off + n) = off + n) as Hsum by (apply uwrap_id; unfold in_u; lia).
  assert (i32 (PHYSTOP - off) = PHYSTOP - off) as Hc
    by (apply swrap_id; [lia | unfold in_s; lia]).
  split_and!; intros ->; cbn [memread memwrite]; rewrite Hsum, ?Hc.
  - destruct (Z.ltb_spec PHYSTOP (off + n));
      (match goal with |- context [?x <=? 0] => destruct (Z.leb_spec x 0) end; [discriminate | intros [= <- <-]; lia]).
  - destruct suser; cbn [negb]; [|discriminate].
    destruct (Z.ltb_spec PHYSTOP (off + n));
      (match goal with |- context [?x <=? 0] => destruct (Z.leb_spec x 0) end; [discriminate | intros [= <- <-]; lia]).
  - destruct (Z.leb_spec 65536 off), (Z.ltb_spec 65536 (off + n)); cbn [orb]; try discriminate.
    intros [= <- <-]. rewrite (uwrap_id 32 (655360 + off)) by (unfold in_u; lia). lia.
Qed.

Lemma mem_device_bounds_witness :
  memread 134217728 1 4096 134217000 = (728, CopyFrom (P2V 134217000) 728)
  /\ 134217000 + 728 <= 134217728.
Proof.
  split; [reflexivity|].
  apply (mem_device_bounds 134217728 true 1 4096 134217000 (P2V 134217000) 728);
    [lia | lia | lia | reflexivity | reflexivity].
Defined.

(** Past 2 GB above the top of memory the clipped length is no longer
    negative as an [int]: a one-byte read of /dev/mem at 0xFE000000 copies two
    gigabytes into the caller's buffer. *)
Theorem mem_read_overrun :
  memread 2097152000 1 1 4261412864
  = (2130706432, CopyFrom (P2V 4261412864) 2130706432).
Proof. reflexivity. Qed.
