(* ===== verification/Locks.v ===== *)
(** * Spinlocks, interrupt nesting and sleep locks
      (src/kernel/cpu/spinlock.c, sleeplock.c, and mycpu of proc.c)

    The machine has one CPU (NCPU is 1).  Its state is the interrupt flag, the
    [pushcli] nesting depth and the saved flag; locks are kept in a map from
    lock addresses.  [acquire] of a lock whose word is already set by nobody on
    this CPU would spin, which is the [Block] outcome; [acquiresleep] on a held
    sleep lock leaves the CPU in [sleep], also [Block]. *)
From Stdlib Require Import ZArith Lia.
From stdpp Require Import base numbers list gmap strings.
From S2P Require Import Prelude.
Local Open Scope Z_scope.

Record cpu := Cpu {
  IF : bool;        (* FL_IF of EFLAGS *)
  ncli : Z;         (* depth of pushcli nesting *)
  intena : bool     (* were interrupts enabled before pushcli? *)
}.

Record spinlock := Spinlock {
  locked : bool;
  mine : bool       (* lk->cpu == &cpus[0]; false stands for a null cpu *)
}.
Definition lock_free : spinlock := Spinlock false false.

Record lstate := LState { cpu0 : cpu; locks : gmap Z spinlock }.

Definition lk_get (a : Z) (s : lstate) : spinlock := default lock_free (locks s !! a).
Definition lk_put (a : Z) (l : spinlock) : M lstate unit :=
  modify (fun s => LState (cpu0 s) (<[a := l]> (locks s))).
Definition cpu_put (c : cpu) : M lstate unit := modify (fun s => LState c (locks s)).

(** [mycpu()]: with one CPU the scan always ends at [&cpus[0]]. *)
Definition mycpu : M lstate cpu :=
  s ← get;
  if IF (cpu0 s) then panic "mycpu called with interrupts enabled" else mret (cpu0 s).

Definition cli : M lstate unit :=
  s ← get; cpu_put (Cpu false (ncli (cpu0 s)) (intena (cpu0 s))).
Definition sti : M lstate unit :=
  s ← get; cpu_put (Cpu true (ncli (cpu0 s)) (intena (cpu0 s))).

Definition pushcli : M lstate unit :=
  s ← get;
  let eflags := IF (cpu0 s) in
  cli;;
  c ← mycpu;
  cpu_put (if ncli c =? 0 then Cpu (IF c) (ncli c) eflags else c);;
  c ← mycpu;
  cpu_put (Cpu (IF c) (ncli c + 1) (intena c)).

Definition popcli : M lstate unit :=
  s ← get;
  if IF (cpu0 s) then panic "popcli - interruptible"
  else
    c ← mycpu;
    cpu_put (Cpu (IF c) (ncli c - 1) (intena c));;
    c ← mycpu;
    if ncli c <? 0 then panic "popcli"
    else if (ncli c =? 0) && intena c then sti else mret tt.

Definition holding (lk : Z) : M lstate bool :=
  pushcli;;
  s ← get;
  _ ← mycpu;
  let r := locked (lk_get lk s) && mine (lk_get lk s) in
  popcli;;
  mret r.

Definition acquire (lk : Z) : M lstate unit :=
  pushcli;;
  h ← holding lk;
  if (h : bool) then panic "acquire: holding"
  else
    s ← get;
    if locked (lk_get lk s) then block lk   (* xchg keeps failing *)
    else
      lk_put lk (Spinlock true false);;                   (* xchg(&lk->locked, 1) *)
      _ ← mycpu;
      lk_put lk (Spinlock true true).                     (* lk->cpu = mycpu() *)

Definition release (lk : Z) : M lstate unit :=
  h ← holding lk;
  if negb h then panic "release"
  else
    s ← get;
    lk_put lk (Spinlock (locked (lk_get lk s)) false);;   (* lk->cpu = 0 *)
    lk_put lk (Spinlock false false);;                    (* movl $0, lk->locked *)
    popcli.

(** ** sleeplock.c

    A sleep lock is its word and the pid of the holder; its inner spinlock is
    taken and released inside each operation. *)
Record sleeplock := Sleeplock { sl_locked : bool; sl_pid : Z }.

Definition initsleeplock : sleeplock := Sleeplock false 0.

Definition acquiresleep (chan mypid : Z) : M sleeplock unit :=
  lk ← get;
  if sl_locked lk then block chan else put (Sleeplock true mypid).

Definition releasesleep : M sleeplock unit := put (Sleeplock false 0).

Definition holdingsleep (mypid : Z) : M sleeplock bool :=
  gets (fun lk => sl_locked lk && (sl_pid lk =? mypid)).

(** ** Interrupt discipline *)

(** The locks this CPU holds. *)
Definition held (s : lstate) : gmap Z spinlock :=
  filter (fun p => locked p.2 = true) (locks s).

(** Every set word was set by this CPU; interrupts are off while anything is
    held, and come back to [b], their setting before the first [pushcli]. *)
Record lock_inv (b : bool) (extra : Z) (s : lstate) : Prop := LockInv {
  inv_mine : forall a l, locks s !! a = Some l -> mine l = locked l;
  inv_depth : ncli (cpu0 s) = Z.of_nat (size (held s)) + extra;
  inv_extra : 0 <= extra;
  inv_on : ncli (cpu0 s) = 0 -> IF (cpu0 s) = b;
  inv_off : 0 < ncli (cpu0 s) -> IF (cpu0 s) = false /\ intena (cpu0 s) = b
}.

Definition boot_state (b : bool) : lstate := LState (Cpu b 0 false) ∅.

Lemma boot_inv b : lock_inv b 0 (boot_state b).
Proof.
  split; cbn; try lia.
  - intros a l H. rewrite lookup_empty in H. discriminate.
  - unfold held; cbn. rewrite map_filter_empty, map_size_empty. reflexivity.
  - reflexivity.
Qed.

Lemma pushcli_run s :
  pushcli s = Ok tt (LState (Cpu false (ncli (cpu0 s) + 1)
    (if ncli (cpu0 s) =? 0 then IF (cpu0 s) else intena (cpu0 s))) (locks s)).
Proof.
  destruct s as [[f n e] ls]. unfold pushcli, cli, mycpu, cpu_put. mstep.
  cbn [IF ncli intena cpu0 locks]. destruct (n =? 0); reflexivity.
Qed.

Lemma popcli_run s :
  IF (cpu0 s) = false -> 0 < ncli (cpu0 s) ->
  popcli s = Ok tt (LState (Cpu ((ncli (cpu0 s) =? 1) && intena (cpu0 s))
    (ncli (cpu0 s) - 1) (intena (cpu0 s))) (locks s)).
Proof.
  destruct s as [[f n e] ls]. cbn. intros -> Hn. unfold popcli, sti, mycpu, cpu_put. mstep.
  cbn [IF ncli intena cpu0 locks]. mstep. cbn [IF ncli intena cpu0 locks].
  destruct (Z.ltb_spec (n - 1) 0); [lia|].
  destruct (Z.eqb_spec (n - 1) 0), (Z.eqb_spec n 1); try lia; destruct e; reflexivity.
Qed.

Lemma pushcli_inv b x s :
  lock_inv b x s -> exists s', pushcli s = Ok tt s' /\ locks s' = locks s /\ lock_inv b (x + 1) s'.
Proof.
  intros [Hm Hd Hx Hon Hoff]. eexists. split; [apply pushcli_run|]. split; [reflexivity|].
  split; cbn in *; try lia; auto.
  - rewrite Hd. unfold held; cbn. lia.
  - intros _. split; [reflexivity|]. destruct (Z.eqb_spec (ncli (cpu0 s)) 0); [auto | apply Hoff; lia].
Qed.

Lemma popcli_inv b x s :
  lock_inv b (x + 1) s -> 0 <= x ->
  exists s', popcli s = Ok tt s' /\ locks s' = locks s /\ lock_inv b x s'.
Proof.
  intros [Hm Hd _ Hon Hoff] Hx.
  assert (0 < ncli (cpu0 s)) as Hp by lia. destruct (Hoff Hp) as [Hif Hen].
  eexists. split; [apply popcli_run; assumption|]. split; [reflexivity|].
  split; cbn in *; try lia; auto.
  - rewrite Hd. unfold held; cbn. lia.
  - intros Hz. destruct (Z.eqb_spec (ncli (cpu0 s)) 1); [exact Hen | lia].
  - intros Hz. destruct (Z.eqb_spec (ncli (cpu0 s)) 1); [lia | split; [reflexivity | exact Hen]].
Qed.

Lemma mycpu_run b x s : lock_inv b x s -> 0 < x -> mycpu s = Ok (cpu0 s) s.
Proof.
  intros H Hx. unfold mycpu. mstep.
  destruct (inv_off _ _ _ H) as [-> _]; [rewrite (inv_depth _ _ _ H); lia | reflexivity].
Qed.

(** [holding] tells whether the lock word is set and leaves everything as it
    was up to the saved interrupt flag. *)
Lemma holding_run b x s lk :
  lock_inv b x s ->
  exists s', holding lk s = Ok (locked (lk_get lk s)) s' /\ locks s' = locks s /\ lock_inv b x s'.
Proof.
  intros H. destruct (pushcli_inv b x s H) as (s1 & H1 & Hl1 & Hi1).
  destruct (popcli_inv b x s1 Hi1 (inv_extra _ _ _ H)) as (s2 & H2 & Hl2 & Hi2).
  exists s2. split; [|split; [congruence | exact Hi2]].
  unfold holding. mstep. rewrite H1. rewrite (mycpu_run b (x + 1) s1 Hi1 ltac:(pose proof (inv_extra _ _ _ H); lia)).
  rewrite H2. f_equal. unfold lk_get. rewrite Hl1.
  destruct (locks s !! lk) as [l|] eqn:E; cbn; [|reflexivity].
  rewrite (inv_mine _ _ _ H lk l E). apply andb_diag.
Qed.

Lemma held_insert_locked s lk :
  locked (lk_get lk s) = false ->
  size (filter (fun p => locked p.2 = true) (<[lk := Spinlock true true]> (locks s)))
  = S (size (held s)).
Proof.
  intros Hf. rewrite map_filter_insert_True by reflexivity.
  rewrite map_size_insert_None; [reflexivity|].
  apply map_lookup_filter_None. unfold lk_get in Hf.
  destruct (locks s !! lk) as [l|]; [right | left; reflexivity].
  intros l' [= <-]. cbn in *. congruence.
Qed.

Lemma held_insert_free s lk :
  locked (lk_get lk s) = true ->
  S (size (filter (fun p => locked p.2 = true) (<[lk := Spinlock false false]> (locks s))))
  = size (held s).
Proof.
  intros Ht. rewrite map_filter_insert_False by (cbn; discriminate).
  rewrite map_filter_delete. unfold held.
  set (h := filter _ (locks s)).
  assert (is_Some (h !! lk)) as [l Hl].
  { unfold lk_get in Ht. destruct (locks s !! lk) as [l|] eqn:E; [|discriminate].
    exists l. apply map_lookup_filter_Some. split; [exact E | exact Ht]. }
  rewrite map_size_delete_Some by eauto.
  assert (size h <> 0%nat); [|lia].
  intros Hz. apply map_size_empty_iff in Hz. rewrite Hz, lookup_empty in Hl. discriminate.
Qed.

Lemma mine_insert b x s lk (v : bool) :
  lock_inv b x s ->
  forall a l, <[lk := Spinlock v v]> (locks s) !! a = Some l -> mine l = locked l.
Proof.
  intros H a l. rewrite lookup_insert. case_decide.
  - intros [= <-]. reflexivity.
  - apply (inv_mine _ _ _ H).
Qed.

Lemma acquire_inv b x s lk :
  lock_inv b x s -> locked (lk_get lk s) = false ->
  exists s', acquire lk s = Ok tt s' /\ locks s' = <[lk := Spinlock true true]> (locks s)
    /\ lock_inv b x s'.
Proof.
  intros H Hf. pose proof (inv_extra _ _ _ H) as Hx.
  destruct (pushcli_inv b x s H) as (s1 & H1 & Hl1 & Hi1).
  destruct (holding_run b (x + 1) s1 lk Hi1) as (s2 & H2 & Hl2 & Hi2).
  assert (lk_get lk s2 = lk_get lk s) as Hg by (unfold lk_get; rewrite Hl2, Hl1; reflexivity).
  unfold lk_get in H2. rewrite Hl1 in H2. fold (lk_get lk s) in H2. rewrite Hf in H2.
  eexists. unfold acquire. mstep. rewrite H1, H2. mstep. rewrite Hg, Hf.
  unfold lk_put, mycpu. mstep. cbn [cpu0 locks].
  assert (0 < ncli (cpu0 s2)) as Hp by (rewrite (inv_depth _ _ _ Hi2); lia).
  destruct (inv_off _ _ _ Hi2 Hp) as [Hif Hen]. rewrite Hif. mstep.
  split; [reflexivity|]. cbn [locks]. rewrite Hl2, Hl1, insert_insert_eq.
  split; [reflexivity|].
  split; cbn [cpu0 locks]; try lia.
  - apply (mine_insert b x s lk true H).
  - rewrite (inv_depth _ _ _ Hi2). unfold held at 2; cbn [locks].
    rewrite held_insert_locked by exact Hf. unfold held. rewrite Hl2, Hl1. lia.
  - intros _. split; assumption.
Qed.

Lemma release_inv b x s lk :
  lock_inv b x s -> locked (lk_get lk s) = true ->
  exists s', release lk s = Ok tt s' /\ locks s' = <[lk := Spinlock false false]> (locks s)
    /\ lock_inv b x s'.
Proof.
  intros H Ht. destruct (holding_run b x s lk H) as (s1 & H1 & Hl1 & Hi1). rewrite Ht in H1.
  pose proof (inv_extra _ _ _ H) as Hx.
  assert (lk_get lk s1 = lk_get lk s) as Hg by (unfold lk_get; rewrite Hl1; reflexivity).
  set (s2 := LState (cpu0 s1) (<[lk := Spinlock false false]> (locks s))).
  assert (lock_inv b (x + 1) s2) as Hi2.
  { split; cbn [cpu0 locks s2]; try lia.
    - apply (mine_insert b x s lk false H).
    - rewrite (inv_depth _ _ _ Hi1). unfold held. rewrite Hl1. fold (held s).
      rewrite <-(held_insert_free s lk Ht). cbn. lia.
    - apply (inv_on _ _ _ Hi1).
    - apply (inv_off _ _ _ Hi1). }
  destruct (popcli_inv b x s2 Hi2 Hx) as (s3 & H3 & Hl3 & Hi3).
  exists s3. split; [|split; [exact Hl3 | exact Hi3]].
  unfold release. mstep. rewrite H1. cbn [negb]. unfold lk_put. mstep. cbn [cpu0 locks].
  rewrite Hl1, insert_insert_eq. fold s2. exact H3.
Qed.

(** ** A CPU running lock operations *)

Inductive lock_op : Type := Acq (lk : Z) | Rel (lk : Z) | Push | Pop.

Definition run_op (o : lock_op) : M lstate unit :=
  match o with
  | Acq lk => acquire lk
  | Rel lk => release lk
  | Push => pushcli
  | Pop => popcli
  end.

(** The number of explicit [pushcli]s not yet undone. *)
Definition op_extra (o : lock_op) : Z := match o with Push => 1 | Pop => -1 | _ => 0 end.

Inductive lock_run (b : bool) : lstate -> Z -> Prop :=
| run_boot : lock_run b (boot_state b) 0
| run_step s x o s' :
    lock_run b s x -> 0 <= x + op_extra o -> run_op o s = Ok tt s' ->
    lock_run b s' (x + op_extra o).

Lemma acquire_held_panics b x s lk :
  lock_inv b x s -> locked (lk_get lk s) = true -> acquire lk s = Panic "acquire: holding".
Proof.
  intros H Ht. destruct (pushcli_inv b x s H) as (s1 & H1 & Hl1 & Hi1).
  destruct (holding_run b (x + 1) s1 lk Hi1) as (s2 & H2 & _ & _).
  unfold acquire. mstep. rewrite H1, H2. unfold lk_get. rewrite Hl1. fold (lk_get lk s). rewrite Ht.
  reflexivity.
Qed.

Lemma release_free_panics b x s lk :
  lock_inv b x s -> locked (lk_get lk s) = false -> release lk s = Panic "release".
Proof.
  intros H Hf. destruct (holding_run b x s lk H) as (s1 & H1 & _ & _).
  unfold release. mstep. rewrite H1, Hf. reflexivity.
Qed.

Lemma lock_run_inv b s x : lock_run b s x -> lock_inv b x s.
Proof.
  induction 1 as [|s x o s' _ IH Hx Hrun]; [apply boot_inv|].
  destruct o as [lk|lk| |]; cbn [run_op op_extra] in *.
  - rewrite Z.add_0_r. destruct (locked (lk_get lk s)) eqn:E.
    + rewrite (acquire_held_panics b x s lk IH E) in Hrun. discriminate.
    + destruct (acquire_inv b x s lk IH E) as (s1 & H1 & _ & Hi). congruence.
  - rewrite Z.add_0_r. destruct (locked (lk_get lk s)) eqn:E.
    + destruct (release_inv b x s lk IH E) as (s1 & H1 & _ & Hi). congruence.
    + rewrite (release_free_panics b x s lk IH E) in Hrun. discriminate.
  - destruct (pushcli_inv b x s IH) as (s1 & H1 & _ & Hi). congruence.
  - destruct (popcli_inv b (x + -1) s) as (s1 & H1 & _ & Hi); [|lia|].
    + replace (x + -1 + 1) with x by lia. exact IH.
    + congruence.
Qed.

(** ** Properties *)

(** C38. Interrupt discipline: after any sequence of acquire, release, pushcli
    and popcli that does not panic, interrupts are off while a lock is held or a
    pushcli is open, and are back to their boot setting as soon as the last one
    is undone; the nesting depth counts exactly the held locks and open
    pushclis. *)
Theorem interrupt_discipline b s x :
  lock_run b s x ->
  ncli (cpu0 s) = Z.of_nat (size (held s)) + x
  /\ (0 < ncli (cpu0 s) -> IF (cpu0 s) = false)
  /\ (ncli (cpu0 s) = 0 -> IF (cpu0 s) = b).
Proof.
  intros H. apply lock_run_inv in H. split_and!.
  - apply (inv_depth _ _ _ H).
  - intros Hp. apply (inv_off _ _ _ H Hp).
  - apply (inv_on _ _ _ H).
Qed.

Definition two_locks_state : lstate :=
  match (acquire 16;; acquire 32;; release 16) (boot_state true) with
  | Ok _ s => s
  | _ => boot_state true
  end.

Lemma interrupt_discipline_witness :
  ncli (cpu0 two_locks_state) = 1 /\ IF (cpu0 two_locks_state) = false.
Proof.
  assert (lock_run true two_locks_state 0) as H.
  { pose (s1 := match acquire 16 (boot_state true) with Ok _ s => s | _ => boot_state true end).
    pose (s2 := match acquire 32 s1 with Ok _ s => s | _ => boot_state true end).
    apply (run_step true s2 0 (Rel 16)); [|cbn; lia|vm_compute; reflexivity].
    apply (run_step true s1 0 (Acq 32)); [|cbn; lia|vm_compute; reflexivity].
    apply (run_step true (boot_state true) 0 (Acq 16)); [constructor|cbn; lia|vm_compute; reflexivity]. }
  destruct (interrupt_discipline true two_locks_state 0 H) as (Hd & Hoff & _).
  split; [vm_compute; reflexivity|]. apply Hoff. vm_compute. reflexivity.
Defined.

(** Lock and unlock: from any reachable state acquire of a free lock
    returns holding it and a second acquire panics instead of deadlocking;
    release then frees it and restores the CPU's interrupt state. *)
Theorem acquire_release b s x lk :
  lock_run b s x -> locked (lk_get lk s) = false ->
  exists s1 s2,
    acquire lk s = Ok tt s1 /\ locked (lk_get lk s1) = true
    /\ acquire lk s1 = Panic "acquire: holding"
    /\ release lk s1 = Ok tt s2 /\ locked (lk_get lk s2) = false
    /\ release lk s2 = Panic "release"
    /\ ncli (cpu0 s2) = ncli (cpu0 s) /\ IF (cpu0 s2) = IF (cpu0 s).
Proof.
  intros Hrun Hf. apply lock_run_inv in Hrun as H.
  destruct (acquire_inv b x s lk H Hf) as (s1 & H1 & Hl1 & Hi1).
  assert (locked (lk_get lk s1) = true) as Ht1
    by (unfold lk_get; rewrite Hl1, lookup_insert_eq; reflexivity).
  destruct (release_inv b x s1 lk Hi1 Ht1) as (s2 & H2 & Hl2 & Hi2).
  assert (locked (lk_get lk s2) = false) as Hf2
    by (unfold lk_get; rewrite Hl2, lookup_insert_eq; reflexivity).
  assert (ncli (cpu0 s2) = ncli (cpu0 s)) as Hn.
  { pose proof (held_insert_free s1 lk Ht1) as A. pose proof (held_insert_locked s lk Hf) as B.
    rewrite <-Hl2 in A. rewrite <-Hl1 in B. fold (held s2) in A. fold (held s1) in B.
    rewrite (inv_depth _ _ _ Hi2), (inv_depth _ _ _ H). lia. }
  exists s1, s2. split_and!; auto.
  - apply (acquire_held_panics b x); assumption.
  - apply (release_free_panics b x); assumption.
  - destruct (Z.eq_dec (ncli (cpu0 s)) 0) as [Hz | Hz].
    + rewrite (inv_on _ _ _ H Hz). apply (inv_on _ _ _ Hi2). congruence.
    + assert (0 < ncli (cpu0 s)) as Hp by (pose proof (inv_extra _ _ _ H); rewrite (inv_depth _ _ _ H) in *; lia).
      rewrite (proj1 (inv_off _ _ _ H Hp)). apply (inv_off _ _ _ Hi2). lia.
Qed.

Lemma acquire_release_witness :
  exists s1, acquire 48 (boot_state true) = Ok tt s1 /\ acquire 48 s1 = Panic "acquire: holding".
Proof.
  destruct (acquire_release true (boot_state true) 0 48 (run_boot true) eq_refl)
    as (s1 & s2 & H1 & _ & H2 & _).
  exists s1. split; assumption.
Defined.

(** ** Sleep locks: one holder at a time *)

(** Processes compete for one sleep lock; the ones that found it held wait. *)
Record sl_world := SlWorld { sl : sleeplock; inside_pids : list Z }.

Inductive sl_step (chan : Z) : sl_world -> sl_world -> Prop :=
| sl_enter w pid lk' :
    acquiresleep chan pid (sl w) = Ok tt lk' ->
    sl_step chan w (SlWorld lk' (pid :: inside_pids w))
| sl_wait w pid lk' :
    acquiresleep chan pid (sl w) = Block chan lk' ->
    sl_step chan w (SlWorld lk' (inside_pids w))
| sl_leave w pid l lk' :
    inside_pids w ≡ₚ pid :: l -> holdingsleep pid (sl w) = Ok true (sl w) ->
    releasesleep (sl w) = Ok tt lk' ->
    sl_step chan w (SlWorld lk' l).

Inductive sl_reach (chan : Z) : sl_world -> Prop :=
| sl_init : sl_reach chan (SlWorld initsleeplock [])
| sl_next w w' : sl_reach chan w -> sl_step chan w w' -> sl_reach chan w'.

(** Mutual exclusion of sleep locks: in every reachable state at most one
    process is between [acquiresleep] and [releasesleep], it is the one
    [holdingsleep] answers yes to, and the lock word says whether there is
    one. *)
Theorem sleeplock_mutex chan w :
  sl_reach chan w ->
  (inside_pids w = [] /\ sl_locked (sl w) = false)
  \/ (exists pid, inside_pids w = [pid] /\ sl w = Sleeplock true pid
        /\ holdingsleep pid (sl w) = Ok true (sl w)).
Proof.
  induction 1 as [|w w' _ IH Hstep]; [left; split; reflexivity|].
  destruct Hstep as [w pid lk' Hacq | w pid lk' Hacq | w pid l lk' Hp Hh Hr];
    destruct IH as [[Hnil Hfree] | (q & Hq & Hl & _)].
  - unfold acquiresleep in Hacq. mstep in Hacq. rewrite Hfree in Hacq. injection Hacq as <-.
    right. exists pid. cbn. rewrite Hnil. split_and!; [reflexivity..|].
    unfold holdingsleep. mstep. cbn. rewrite Z.eqb_refl. reflexivity.
  - unfold acquiresleep in Hacq. mstep in Hacq. rewrite Hl in Hacq. discriminate.
  - unfold acquiresleep in Hacq. mstep in Hacq. rewrite Hfree in Hacq. discriminate.
  - unfold acquiresleep in Hacq. mstep in Hacq. rewrite Hl in Hacq. cbn in Hacq. injection Hacq as <-.
    right. exists q. cbn. split_and!; [exact Hq | reflexivity |].
    unfold holdingsleep. mstep. cbn. rewrite Z.eqb_refl. reflexivity.
  - rewrite Hnil in Hp. apply Permutation_nil_cons in Hp. contradiction.
  - unfold releasesleep in Hr. mstep in Hr. injection Hr as <-. left. cbn. split; [|reflexivity].
    rewrite Hq in Hp. apply Permutation_length in Hp. cbn in Hp.
    destruct l; [reflexivity | cbn in Hp; lia].
Qed.

Lemma sleeplock_mutex_witness :
  (inside_pids (SlWorld (Sleeplock true 7) [7]) = [] /\ true = false)
  \/ (exists pid, inside_pids (SlWorld (Sleeplock true 7) [7]) = [pid]
        /\ Sleeplock true 7 = Sleeplock true pid
        /\ holdingsleep pid (Sleeplock true 7) = Ok true (Sleeplock true 7)).
Proof.
  apply (sleeplock_mutex 99 (SlWorld (Sleeplock true 7) [7])).
  apply (sl_next 99 (SlWorld initsleeplock [])); [constructor|].
  apply (sl_enter 99 (SlWorld initsleeplock []) 7). reflexivity.
Defined.
