(* ===== verification/Kalloc.v ===== *)
(** * Physical page allocator (src/kernel/mm/kalloc.c)

    The free list is threaded through the free pages themselves: the first word
    of a free page is the address of the next one ([struct run]).  The model
    keeps it there, in the byte memory of KString, and takes the kernel's
    addresses [end] and [PHYSTOP] as parameters of a section. *)
From Stdlib Require Import ZArith Lia.
From stdpp Require Import base numbers list gmap strings.
From S2P Require Import Prelude KString Locks.
Local Open Scope Z_scope.

Definition PGSIZE : Z := 4096.
Definition KERNBASE : Z := 3221225472.
Definition V2P (a : Z) : Z := u32 (a - KERNBASE).
Definition PGROUNDUP (sz : Z) : Z := Z.land (u32 (sz + PGSIZE - 1)) (Z.lnot (PGSIZE - 1)).

(** [kmem] and the memory it lives in; [kmem_lock] is the address of
    [kmem.lock] in the lock table. *)
Record kstate := KState {
  kmem_mem : mem;
  use_lock : bool;
  freelist : Z;
  klocks : lstate
}.
Definition kmem_lock : Z := 1.

Definition with_lock {A} (m : M lstate A) : M kstate A := fun s =>
  match m (klocks s) with
  | Ok a l => Ok a (KState (kmem_mem s) (use_lock s) (freelist s) l)
  | Panic w => Panic w
  | Fault w => Fault w
  | Block ch l => Block ch (KState (kmem_mem s) (use_lock s) (freelist s) l)
  end.
Definition set_mem (m : mem) : M kstate unit :=
  modify (fun s => KState m (use_lock s) (freelist s) (klocks s)).
Definition set_freelist (p : Z) : M kstate unit :=
  modify (fun s => KState (kmem_mem s) (use_lock s) p (klocks s)).
Definition set_use_lock (b : bool) : M kstate unit :=
  modify (fun s => KState (kmem_mem s) b (freelist s) (klocks s)).

Section kalloc.
Context (kend PHYSTOP : Z).     (* the linker's [end] and the top of memory *)

Definition kfree (v : Z) : M kstate unit :=
  if nz (v mod PGSIZE) || (v <? kend) || (PHYSTOP <=? V2P v) then panic "kfree"
  else
    s ← get;
    set_mem (memset (kmem_mem s) v 1 PGSIZE);;
    s ← get;
    when (use_lock s) (with_lock (acquire kmem_lock));;
    s ← get;
    set_mem (store32 (kmem_mem s) v (freelist s));;       (* r->next = kmem.freelist *)
    set_freelist v;;
    s ← get;
    when (use_lock s) (with_lock (release kmem_lock)).

Definition kalloc : M kstate Z :=
  s ← get;
  when (use_lock s) (with_lock (acquire kmem_lock));;
  s ← get;
  let r := freelist s in
  when (nz r) (set_freelist (load32 (kmem_mem s) r));;    (* kmem.freelist = r->next *)
  s ← get;
  when (use_lock s) (with_lock (release kmem_lock));;
  mret r.

(** [for(; p + PGSIZE <= vend; p += PGSIZE) kfree(p);] *)
Fixpoint freerange_loop (fuel : nat) (p vend : Z) : M kstate unit :=
  match fuel with
  | O => mret tt
  | S k => if p + PGSIZE <=? vend then kfree p;; freerange_loop k (p + PGSIZE) vend else mret tt
  end.

Definition freerange (vstart vend : Z) : M kstate unit :=
  let p := PGROUNDUP vstart in
  freerange_loop (Z.to_nat ((vend - p) / PGSIZE)) p vend.

Definition kinit1 (vstart vend : Z) : M kstate unit :=
  set_use_lock false;; freerange vstart vend.

Definition kinit2 (vstart vend : Z) : M kstate unit :=
  freerange vstart vend;; set_use_lock true.

(** ** The free list and its pages *)

Definition page_ok (v : Z) : Prop :=
  v mod PGSIZE = 0 /\ 0 < v /\ kend <= v /\ V2P v < PHYSTOP /\ v + PGSIZE <= 2 ^ 32.

(** Following [next] from [p] visits exactly the pages of [L]. *)
Fixpoint chain (m : mem) (p : Z) (L : list Z) : Prop :=
  match L with
  | [] => p = 0
  | v :: L' => p = v /\ chain m (load32 m v) L'
  end.

(** The allocator's state represents the list [L] of free pages. *)
Record kinv (s : kstate) (L : list Z) : Prop := KInv {
  k_chain : chain (kmem_mem s) (freelist s) L;
  k_nodup : NoDup L;
  k_pages : Forall page_ok L;
  k_locks : exists b x, lock_inv b x (klocks s);
  k_free : locked (lk_get kmem_lock (klocks s)) = false
}.

Lemma aligned_disjoint a b :
  a mod PGSIZE = 0 -> b mod PGSIZE = 0 -> a <> b -> a + PGSIZE <= b \/ b + PGSIZE <= a.
Proof. unfold PGSIZE. intros Ha Hb Hne. Z.div_mod_to_equations. lia. Qed.

Lemma load32_frame m m' a :
  (forall x, a <= x < a + 4 -> m' x = m x) -> load32 m' a = load32 m a.
Proof. intros H. unfold load32. rewrite !H by lia. reflexivity. Qed.

Lemma chain_frame m m' p L :
  (forall v x, v ∈ L -> v <= x < v + 4 -> m' x = m x) -> chain m p L -> chain m' p L.
Proof.
  revert p. induction L as [|v L IH]; intros p Hf H; [exact H|].
  destruct H as [-> H]. split; [reflexivity|].
  rewrite (load32_frame m m' v) by (intros x Hx; apply (Hf v x); [left | exact Hx]).
  apply IH; [|exact H]. intros w x Hw. apply Hf. right. exact Hw.
Qed.

Lemma with_lock_Ok {A} (f : M lstate A) s (a : A) l :
  f (klocks s) = Ok a l ->
  with_lock f s = Ok a (KState (kmem_mem s) (use_lock s) (freelist s) l).
Proof. intros H. unfold with_lock. rewrite H. reflexivity. Qed.

(** The memory written by [kfree]. *)
Definition freed_mem (m : mem) (v next : Z) : mem := store32 (memset m v 1 PGSIZE) v next.

Lemma freed_mem_frame m v next x : ~ (v <= x < v + PGSIZE) -> freed_mem m v next x = m x.
Proof.
  intros Hx. unfold freed_mem, PGSIZE in *. rewrite store32_ne by lia.
  rewrite memset_spec by lia. rewrite (proj2 (inside_false v 4096 x)) by exact Hx. reflexivity.
Qed.

Lemma kfree_guard v : page_ok v -> nz (v mod PGSIZE) || (v <? kend) || (PHYSTOP <=? V2P v) = false.
Proof.
  intros (Ha & _ & He & Hp & _). rewrite Ha. cbn.
  destruct (Z.ltb_spec v kend), (Z.leb_spec PHYSTOP (V2P v)); cbn; lia || reflexivity.
Qed.

Lemma chain_head m p L : chain m p L -> Forall page_ok L -> in_u 32 p.
Proof.
  unfold in_u, PGSIZE in *. destruct L as [|v L]; cbn; [lia|].
  intros [-> _] H. apply Forall_cons in H as [(_ & Hp & _ & _ & Hv) _].
  unfold PGSIZE in Hv. lia.
Qed.

Lemma kfree_spec s L v :
  kinv s L -> page_ok v -> v ∉ L ->
  exists s', kfree v s = Ok tt s' /\ kinv s' (v :: L)
    /\ use_lock s' = use_lock s
    /\ kmem_mem s' = freed_mem (kmem_mem s) v (freelist s).
Proof.
  intros [Hc Hn Hp (b & x & Hl) Hf] Hv Hnot.
  assert (exists l', lock_inv b x l' /\ locked (lk_get kmem_lock l') = false
    /\ kfree v s = Ok tt (KState (freed_mem (kmem_mem s) v (freelist s)) (use_lock s) v l')) as
    (l' & Hl' & Hf' & Hrun).
  { unfold kfree. rewrite kfree_guard by exact Hv. unfold set_mem, set_freelist. mstep.
    cbn [kmem_mem use_lock freelist klocks]. destruct (use_lock s) eqn:Eu.
    - destruct (acquire_inv b x (klocks s) kmem_lock Hl Hf) as (l1 & Hacq & Hl1 & Hi1).
      assert (locked (lk_get kmem_lock l1) = true) as Ht
        by (unfold lk_get; rewrite Hl1, lookup_insert_eq; reflexivity).
      destruct (release_inv b x l1 kmem_lock Hi1 Ht) as (l2 & Hrel & Hl2 & Hi2).
      exists l2. split_and!; auto.
      + unfold lk_get. rewrite Hl2, lookup_insert_eq. reflexivity.
      + erewrite with_lock_Ok by exact Hacq. cbn [kmem_mem use_lock freelist klocks].
        erewrite with_lock_Ok by exact Hrel. reflexivity.
    - exists (klocks s). split_and!; auto. }
  eexists. split; [exact Hrun|]. split; [|split; reflexivity].
  split; cbn [kmem_mem use_lock freelist klocks]; eauto.
  - split; [reflexivity|]. unfold freed_mem.
    rewrite load_store32 by (eapply chain_head; eassumption).
    apply chain_frame with (kmem_mem s); [|exact Hc].
    intros w y Hw Hy. apply freed_mem_frame.
    assert (page_ok w) as Hpw by (rewrite Forall_forall in Hp; apply Hp; exact Hw).
    destruct (aligned_disjoint v w) as [Hd | Hd].
    + apply Hv.
    + apply Hpw.
    + intros ->. contradiction.
    + unfold PGSIZE in *. lia.
    + unfold PGSIZE in *. lia.
  - constructor; assumption.
Qed.

Lemma kalloc_spec s L :
  kinv s L ->
  exists s', kalloc s = Ok (hd 0 L) s' /\ kinv s' (tail L)
    /\ use_lock s' = use_lock s /\ kmem_mem s' = kmem_mem s.
Proof.
  intros [Hc Hn Hp (b & x & Hl) Hf].
  set (next := match L with [] => 0 | v :: _ => load32 (kmem_mem s) v end).
  assert (freelist s = hd 0 L) as Hhd by (destruct L; [exact Hc | apply Hc]).
  assert ((if nz (hd 0 L) then load32 (kmem_mem s) (hd 0 L) else freelist s) = next) as Hnext.
  { destruct L as [|v L]; [exact Hc|]. apply Forall_cons in Hp as [(_ & Hv & _) _]. cbn.
    rewrite (proj2 (nz_true v)) by lia. reflexivity. }
  assert (exists l', lock_inv b x l' /\ locked (lk_get kmem_lock l') = false
    /\ kalloc s = Ok (hd 0 L) (KState (kmem_mem s) (use_lock s) next l')) as (l' & Hl' & Hf' & Hrun).
  { unfold kalloc, set_freelist. mstep. cbn [kmem_mem use_lock freelist klocks].
    destruct (use_lock s) eqn:Eu.
    - destruct (acquire_inv b x (klocks s) kmem_lock Hl Hf) as (l1 & Hacq & Hl1 & Hi1).
      assert (locked (lk_get kmem_lock l1) = true) as Ht
        by (unfold lk_get; rewrite Hl1, lookup_insert_eq; reflexivity).
      destruct (release_inv b x l1 kmem_lock Hi1 Ht) as (l2 & Hrel & Hl2 & Hi2).
      exists l2. split_and!; auto.
      + unfold lk_get. rewrite Hl2, lookup_insert_eq. reflexivity.
      + erewrite with_lock_Ok by exact Hacq. cbn [kmem_mem use_lock freelist klocks].
        rewrite Hhd in *. rewrite <-Hnext.
        destruct (nz (hd 0 L)); cbn [kmem_mem use_lock freelist klocks]; rewrite Eu;
          (erewrite with_lock_Ok by exact Hrel); reflexivity.
    - exists (klocks s). split_and!; auto. rewrite Hhd in *. rewrite <-Hnext.
      destruct s as [m u f l]. cbn in *. subst.
      destruct (nz (hd 0 L)); cbn; reflexivity. }
  eexists. split; [exact Hrun|]. split; [|split; reflexivity].
  split; cbn [kmem_mem use_lock freelist klocks]; eauto.
  - destruct L as [|v L]; [reflexivity|]. apply Hc.
  - destruct L; [constructor | apply NoDup_cons in Hn; apply Hn].
  - destruct L; [constructor | apply Forall_cons in Hp; apply Hp].
Qed.

(** The pages of [\[p, vend)] in the order [freerange] frees them. *)
Definition range_pages (p vend : Z) : list Z :=
  map (fun i => p + Z.of_nat i * PGSIZE) (seq 0 (Z.to_nat ((vend - p) / PGSIZE))).

Lemma range_pages_cons p vend :
  p + PGSIZE <= vend -> range_pages p vend = p :: range_pages (p + PGSIZE) vend.
Proof.
  intros H. unfold range_pages, PGSIZE in *.
  assert (Z.to_nat ((vend - p) / 4096) = S (Z.to_nat ((vend - (p + 4096)) / 4096))) as ->
    by (Z.div_mod_to_equations; lia).
  cbn [seq map]. f_equal; [lia|]. rewrite <-seq_shift, map_map.
  apply map_ext. intros i. lia.
Qed.

Lemma range_pages_nil p vend : vend < p + PGSIZE -> range_pages p vend = [].
Proof.
  intros H. unfold range_pages, PGSIZE in *.
  replace (Z.to_nat ((vend - p) / 4096)) with 0%nat by (Z.div_mod_to_equations; lia). reflexivity.
Qed.

Lemma range_pages_elem p vend v :
  p mod PGSIZE = 0 -> v ∈ range_pages p vend <-> v mod PGSIZE = 0 /\ p <= v /\ v + PGSIZE <= vend.
Proof.
  intros Ha. unfold range_pages. rewrite list_elem_of_In, in_map_iff. unfold PGSIZE in *. split.
  - intros (i & <- & Hin). apply in_seq in Hin. rewrite Z.mod_add by lia. split_and!; [exact Ha | lia |]. Z.div_mod_to_equations. lia.
  - intros (Hv & Hlo & Hhi). exists (Z.to_nat ((v - p) / 4096)). rewrite in_seq. split; Z.div_mod_to_equations; lia.
Qed.

Lemma freerange_loop_spec fuel s L p vend :
  kinv s L -> (Z.to_nat ((vend - p) / PGSIZE) <= fuel)%nat ->
  Forall page_ok (range_pages p vend) -> (forall v, v ∈ range_pages p vend -> v ∉ L) ->
  exists s', freerange_loop fuel p vend s = Ok tt s'
    /\ kinv s' (rev (range_pages p vend) ++ L) /\ use_lock s' = use_lock s
    /\ forall x, (forall v, v ∈ range_pages p vend -> ~ (v <= x < v + PGSIZE)) -> kmem_mem s' x = kmem_mem s x.
Proof.
  revert s L p. induction fuel as [|k IH]; intros s L p Hi Hf Hp Hd; cbn [freerange_loop].
  - exists s. rewrite range_pages_nil; [split_and!; [reflexivity | exact Hi | reflexivity | reflexivity]|].
    unfold PGSIZE in *. Z.div_mod_to_equations. lia.
  - destruct (Z.leb_spec (p + PGSIZE) vend) as [Hle | Hgt].
    + rewrite (range_pages_cons p vend Hle) in Hp, Hd |- *. apply Forall_cons in Hp as [Hpo Hp].
      destruct (kfree_spec s L p Hi Hpo) as (s1 & H1 & Hi1 & Hu1 & Hm1); [apply Hd; left|].
      destruct (IH s1 (p :: L) (p + PGSIZE) Hi1) as (s2 & H2 & Hi2 & Hu2 & Hm2).
      * unfold PGSIZE in *. Z.div_mod_to_equations. lia.
      * exact Hp.
      * intros v Hv. rewrite not_elem_of_cons. split; [|apply Hd; right; exact Hv].
        intros ->. unfold range_pages in Hv. apply list_elem_of_In, in_map_iff in Hv as (i & Hi' & _).
        unfold PGSIZE in *. lia.
      * exists s2. mstep. rewrite H1. split_and!; [exact H2 | | congruence |].
        { cbn [rev]. rewrite <-app_assoc. exact Hi2. }
        intros x Hx. rewrite Hm2 by (intros v Hv; apply Hx; right; exact Hv).
        rewrite Hm1. apply freed_mem_frame, Hx. left.
    + exists s. rewrite range_pages_nil by lia. split_and!; [reflexivity | exact Hi | reflexivity | reflexivity].
Qed.

(** ** Clients of the allocator *)

(** A world is the allocator plus the pages handed out and not yet returned. *)
Inductive kreach (pages : list Z) : kstate -> list Z -> Prop :=
| kreach_init s : kinv s pages -> kreach pages s []
| kreach_alloc s own v s' :
    kreach pages s own -> kalloc s = Ok v s' -> v <> 0 -> kreach pages s' (v :: own)
| kreach_fail s own s' :
    kreach pages s own -> kalloc s = Ok 0 s' -> kreach pages s' own
| kreach_free s own v own' s' :
    kreach pages s own -> own ≡ₚ v :: own' -> kfree v s = Ok tt s' -> kreach pages s' own'.

Lemma kreach_inv pages s own :
  kreach pages s own -> Forall page_ok pages -> NoDup pages ->
  exists L, kinv s L /\ L ++ own ≡ₚ pages.
Proof.
  intros H Hp Hn. induction H as [s Hs | s own v s' _ IH Ha Hv | s own s' _ IH Ha
    | s own v own' s' _ IH Ho Hf].
  - exists pages. split; [exact Hs | rewrite app_nil_r; reflexivity].
  - destruct IH as (L & Hi & Hperm). destruct (kalloc_spec s L Hi) as (s1 & H1 & Hi1 & _).
    rewrite Ha in H1. injection H1 as -> <-. destruct L as [|w L]; [contradiction|].
    exists L. split; [exact Hi1|]. rewrite <-Hperm. cbn. apply symmetry, Permutation_middle.
  - destruct IH as (L & Hi & Hperm). destruct (kalloc_spec s L Hi) as (s1 & H1 & Hi1 & _).
    rewrite Ha in H1. injection H1 as H0 <-. destruct L as [|w L]; [exists []; auto|].
    pose proof (k_pages _ _ Hi) as HP. apply Forall_cons in HP as [(_ & Hw & _) _]. cbn in H0. lia.
  - destruct IH as (L & Hi & Hperm).
    assert (NoDup (L ++ own)) as HN by (rewrite Hperm; exact Hn).
    rewrite Ho in HN, Hperm. apply NoDup_app in HN as (_ & Hdis & _).
    assert (page_ok v) as Hv.
    { rewrite Forall_forall in Hp. apply Hp. rewrite <-Hperm. apply elem_of_app. right. left. }
    destruct (kfree_spec s L v Hi Hv) as (s1 & H1 & Hi1 & _).
    { intros HvL. apply (Hdis v HvL). left. }
    rewrite Hf in H1. injection H1 as <-.
    exists (v :: L). split; [exact Hi1|]. rewrite <-Hperm. cbn. apply Permutation_middle.
Qed.

Lemma PGROUNDUP_spec sz :
  0 <= sz -> sz + PGSIZE - 1 < 2 ^ 32 ->
  PGROUNDUP sz = (sz + PGSIZE - 1) / PGSIZE * PGSIZE.
Proof.
  intros H0 H1. unfold PGROUNDUP. rewrite uwrap_id by (unfold in_u, PGSIZE in *; lia).
  unfold PGSIZE in *. change (4096 - 1) with (Z.ones 12). rewrite <-Z.ldiff_land.
  rewrite Z.ldiff_ones_r by lia. rewrite Z.shiftl_mul_pow2, Z.shiftr_div_pow2 by lia. reflexivity.
Qed.

Lemma range_pages_ok p vend :
  p mod PGSIZE = 0 -> 0 < p -> kend <= p -> KERNBASE <= p ->
  vend <= KERNBASE + PHYSTOP -> vend <= 2 ^ 32 ->
  Forall page_ok (range_pages p vend).
Proof.
  intros Ha Hp He Hk Hv Hw. apply Forall_forall. intros v Hin.
  unfold range_pages in Hin. apply list_elem_of_In, in_map_iff in Hin as (i & <- & Hi).
  apply in_seq in Hi. unfold page_ok, V2P, PGSIZE, KERNBASE in *.
  assert (p + Z.of_nat i * 4096 + 4096 <= vend) by (Z.div_mod_to_equations; nia).
  rewrite uwrap_id by (unfold in_u; lia).
  split_and!; try lia. rewrite Z.mod_add by lia. exact Ha.
Qed.
End kalloc.

(** ** Properties *)

(** No page is lost or handed out twice: after any sequence of kalloc and
    kfree in which clients free only pages they own, the free list together
    with the pages handed out is a permutation of the initial pool; in
    particular the pages handed out are pairwise distinct, page aligned, above
    [end] and below the top of memory. *)
Theorem kalloc_conserves_pages kend PHYSTOP pages s own :
  kreach kend PHYSTOP pages s own -> Forall (page_ok kend PHYSTOP) pages -> NoDup pages ->
  exists L, kinv kend PHYSTOP s L /\ L ++ own ≡ₚ pages /\ NoDup own
    /\ Forall (page_ok kend PHYSTOP) own.
Proof.
  intros H Hp Hn. destruct (kreach_inv kend PHYSTOP pages s own H Hp Hn) as (L & Hi & Hperm).
  exists L. split_and!; [exact Hi | exact Hperm | |].
  - assert (NoDup (L ++ own)) as HN by (rewrite Hperm; exact Hn). apply NoDup_app in HN. apply HN.
  - rewrite <-Hperm in Hp. apply Forall_app in Hp. apply Hp.
Qed.

(** kalloc returns the most recently freed page and leaves the rest of
    the list and all memory alone; with an empty list it returns 0.  kfree puts
    a page on the list touching only that page, and both leave the allocator's
    lock free. *)
Theorem kalloc_kfree_functional kend PHYSTOP s L v :
  kinv kend PHYSTOP s L -> page_ok kend PHYSTOP v -> v ∉ L ->
  (exists s', kalloc s = Ok (hd 0 L) s' /\ kinv kend PHYSTOP s' (tail L)
     /\ kmem_mem s' = kmem_mem s)
  /\ (exists s', kfree kend PHYSTOP v s = Ok tt s' /\ kinv kend PHYSTOP s' (v :: L)
     /\ forall x, ~ (v <= x < v + PGSIZE) -> kmem_mem s' x = kmem_mem s x).
Proof.
  intros Hi Hv Hn. split.
  - destruct (kalloc_spec kend PHYSTOP s L Hi) as (s' & H & Hi' & _ & Hm). eauto.
  - destruct (kfree_spec kend PHYSTOP s L v Hi Hv Hn) as (s' & H & Hi' & _ & Hm).
    exists s'. split_and!; [exact H | exact Hi' |]. intros x Hx. rewrite Hm.
    apply freed_mem_frame. exact Hx.
Qed.

(** The initial free list: [kinit1] on an empty allocator frees every
    whole page between the rounded-up start and the end, each once, and never
    panics when the range lies in mapped memory above [end]. *)
Theorem kinit1_pool kend PHYSTOP s vstart vend :
  kinv kend PHYSTOP s [] -> kend <= vstart -> KERNBASE <= vstart ->
  vstart + PGSIZE <= vend -> vend <= KERNBASE + PHYSTOP -> vend <= 2 ^ 32 ->
  exists s', kinit1 kend PHYSTOP vstart vend s = Ok tt s'
    /\ kinv kend PHYSTOP s' (rev (range_pages (PGROUNDUP vstart) vend))
    /\ use_lock s' = false
    /\ (forall v, v ∈ range_pages (PGROUNDUP vstart) vend <->
          v mod PGSIZE = 0 /\ vstart <= v /\ v + PGSIZE <= vend).
Proof.
  intros Hi He Hk Hle Hp Hw.
  assert (PGROUNDUP vstart = (vstart + PGSIZE - 1) / PGSIZE * PGSIZE) as Hr
    by (apply PGROUNDUP_spec; unfold PGSIZE, KERNBASE in *; lia).
  set (p := PGROUNDUP vstart) in *.
  assert (p mod PGSIZE = 0) as Ha by (rewrite Hr; apply Z.mod_mul; unfold PGSIZE; lia).
  assert (vstart <= p < vstart + PGSIZE) as Hb
    by (rewrite Hr; unfold PGSIZE in *; Z.div_mod_to_equations; lia).
  set (s0 := KState (kmem_mem s) false (freelist s) (klocks s)).
  assert (kinv kend PHYSTOP s0 []) as Hi0 by (destruct Hi; split; assumption).
  destruct (freerange_loop_spec kend PHYSTOP (Z.to_nat ((vend - p) / PGSIZE)) s0 [] p vend Hi0)
    as (s' & H & Hi' & Hu & _).
  - lia.
  - apply range_pages_ok; unfold KERNBASE in *; lia.
  - intros v _. apply not_elem_of_nil.
  - exists s'. split_and!; [exact H | rewrite app_nil_r in Hi'; exact Hi' | exact Hu |].
    intros v. rewrite range_pages_elem by exact Ha. unfold PGSIZE in *. Z.div_mod_to_equations. lia.
Qed.

(** A machine with [end] at 0xC0200000 and 4 MB of memory. *)
Definition empty_kstate : kstate := KState (fun _ => 0) false 0 (boot_state false).

Lemma empty_kstate_inv kend PHYSTOP : kinv kend PHYSTOP empty_kstate [].
Proof.
  split; cbn; [reflexivity | constructor | constructor | | reflexivity].
  exists false, 0. apply boot_inv.
Qed.

Lemma kinit1_pool_witness :
  exists s', kinit1 3223322624 4194304 3223322725 3223334912 empty_kstate = Ok tt s'
    /\ kinv 3223322624 4194304 s' [3223330816; 3223326720].
Proof.
  destruct (kinit1_pool 3223322624 4194304 empty_kstate 3223322725 3223334912
    (empty_kstate_inv _ _)) as (s' & H & Hi & _); unfold PGSIZE, KERNBASE; try lia.
  exists s'. split; [exact H | exact Hi].
Defined.

Lemma two_pages_ok :
  Forall (page_ok 3223322624 4194304) [3223330816; 3223326720] /\ NoDup [3223330816; 3223326720].
Proof.
  split.
  - repeat constructor; vm_compute; congruence.
  - repeat constructor; rewrite ?not_elem_of_cons; repeat split; try apply not_elem_of_nil; lia.
Qed.

Lemma kalloc_kfree_functional_witness :
  (exists s', kalloc empty_kstate = Ok 0 s' /\ kinv 3223322624 4194304 s' [])
  /\ (exists s', kfree 3223322624 4194304 3223330816 empty_kstate = Ok tt s'
       /\ kinv 3223322624 4194304 s' [3223330816]).
Proof.
  destruct (kalloc_kfree_functional 3223322624 4194304 empty_kstate [] 3223330816
    (empty_kstate_inv _ _)) as [(s1 & H1 & I1 & _) (s2 & H2 & I2 & _)].
  - exact (Forall_inv (proj1 two_pages_ok)).
  - apply not_elem_of_nil.
  - split; [exists s1 | exists s2]; split; assumption.
Defined.

Lemma kalloc_conserves_pages_witness :
  exists s own, own = [3223330816] /\ exists L, kinv 3223322624 4194304 s L
    /\ L ++ own ≡ₚ [3223330816; 3223326720].
Proof.
  destruct (freerange_loop_spec 3223322624 4194304 2 empty_kstate [] 3223326720 3223334912
    (empty_kstate_inv _ _)) as (s & _ & Hi & _).
  - vm_compute. lia.
  - change (range_pages 3223326720 3223334912) with [3223326720; 3223330816].
    destruct two_pages_ok as [H _]. apply Forall_cons in H as [Ha Hb].
    constructor; [exact (Forall_inv Hb)|]. constructor; [exact Ha | constructor].
  - intros v _. apply not_elem_of_nil.
  - change (rev (range_pages 3223326720 3223334912) ++ []) with [3223330816; 3223326720] in Hi.
    destruct (kalloc_spec _ _ s _ Hi) as (s1 & H1 & _).
    exists s1, [3223330816]. split; [reflexivity|].
    destruct two_pages_ok as [Hp Hn].
    destruct (kalloc_conserves_pages 3223322624 4194304 [3223330816; 3223326720] s1 [3223330816])
      as (L & HL & Hperm & _); [|exact Hp|exact Hn|].
    + apply (kreach_alloc 3223322624 4194304 _ s []); [constructor; exact Hi | exact H1 | cbn; lia].
    + exists L. split; assumption.
Defined.
