(* ===== verification/Vm.v ===== *)
(** * Page tables (src/kernel/mm/vm.c)

    Page directories and page tables live in the byte memory of Kalloc.v, in pages
    kalloc hands out; an entry is the 32-bit word at its address and a null pointer
    is 0.  [kend] and [PHYSTOP] are the linker's [end] and the top of memory, [kdata]
    the linker's [data].  loaduvm, which reads a file, and the checks of
    switchuvm are in Exec.v, segment_init and the registers switchuvm and switchkvm load
    in Segments.v, kvm_alloc in Boot.v. *)
From Stdlib Require Import ZArith Lia.
From stdpp Require Import base numbers list gmap strings.
From S2P Require Import Prelude KString Locks Kalloc.
Local Open Scope Z_scope.

Definition PTE_P : Z := 1.
Definition PTE_W : Z := 2.
Definition PTE_U : Z := 4.
Definition NPDENTRIES : nat := 1024.
Definition EXTMEM : Z := 1048576.
Definition KERNLINK : Z := KERNBASE + EXTMEM.
Definition DEVSPACE : Z := 4261412864.
Definition PDX (va : Z) : Z := Z.land (Z.shiftr va 22) 1023.
Definition PTX (va : Z) : Z := Z.land (Z.shiftr va 12) 1023.
Definition PGROUNDDOWN (a : Z) : Z := Z.land a (Z.lnot (PGSIZE - 1)).
Definition PTE_ADDR (pte : Z) : Z := Z.land pte (Z.lnot 4095).
Definition PTE_FLAGS (pte : Z) : Z := Z.land pte 4095.
Definition P2V (a : Z) : Z := u32 (a + KERNBASE).
Definition PGADDR (d : Z) : Z := u32 (Z.shiftl d 22).      (* PGADDR(d, 0, 0) *)

(** [*p] and [*p = w] for a pointer to a word; address 0 is not mapped. *)
Definition load (p : Z) : M kstate Z :=
  if p =? 0 then fault "null pointer" else s ← get; mret (load32 (kmem_mem s) p).
Definition store (p w : Z) : M kstate unit :=
  if p =? 0 then fault "null pointer" else s ← get; set_mem (store32 (kmem_mem s) p w).
Definition kmemset (p c n : Z) : M kstate unit :=
  if p =? 0 then fault "null pointer" else s ← get; set_mem (memset (kmem_mem s) p c n).
Definition kmemmove (d p n : Z) : M kstate unit :=
  if d =? 0 then fault "null pointer" else s ← get; set_mem (memmove (kmem_mem s) d p n).

(** The bytes [src] stored from [p] on. *)
Fixpoint poke (m : mem) (p : Z) (src : list Z) : mem :=
  match src with [] => m | b :: src' => poke (upd m p b) (p + 1) src' end.
Definition kpoke (p : Z) (src : list Z) : M kstate unit := s ← get; set_mem (poke (kmem_mem s) p src).

Section vm.
Context (kend PHYSTOP kdata : Z).

Definition walkpgdir (pgdir va : Z) (alloc : bool) : M kstate Z :=
  let pde := pgdir + 4 * PDX va in
  e ← load pde;
  if nz (Z.land e PTE_P) then mret (P2V (PTE_ADDR e) + 4 * PTX va)
  else if negb alloc then mret 0
  else
    pgtab ← kalloc;
    if pgtab =? 0 then mret 0
    else
      kmemset pgtab 0 PGSIZE;;
      store pde (Z.lor (Z.lor (Z.lor (V2P pgtab) PTE_P) PTE_W) PTE_U);;
      mret (pgtab + 4 * PTX va).

(** The loop of [mappages], [k] more pages after this one. *)
Fixpoint map_loop (k : nat) (pgdir a pa perm : Z) : M kstate Z :=
  pte ← walkpgdir pgdir a true;
  if pte =? 0 then mret (-1)
  else
    e ← load pte;
    if nz (Z.land e PTE_P) then panic "mappages: remap"
    else
      store pte (Z.lor (Z.lor pa perm) PTE_P);;
      match k with
      | O => mret 0
      | S k' => map_loop k' pgdir (u32 (a + PGSIZE)) (u32 (pa + PGSIZE)) perm
      end.

Definition mappages (pgdir va size pa perm : Z) : M kstate Z :=
  let a := PGROUNDDOWN va in
  let last := PGROUNDDOWN (u32 (va + size - 1)) in
  map_loop (Z.to_nat (u32 (last - a) / PGSIZE)) pgdir a pa perm.

(** deallocuvm: the loop may skip to the next page table. *)
Fixpoint dealloc_loop (fuel : nat) (pgdir a oldsz : Z) : M kstate unit :=
  match fuel with
  | O => fault "deallocuvm"
  | S fuel' =>
      if a <? oldsz then
        pte ← walkpgdir pgdir a false;
        if pte =? 0 then
          dealloc_loop fuel' pgdir (u32 (u32 (PGADDR (PDX a + 1) - PGSIZE) + PGSIZE)) oldsz
        else
          e ← load pte;
          when (nz (Z.land e PTE_P))
            (if PTE_ADDR e =? 0 then panic "kfree"
             else
               kfree kend PHYSTOP (P2V (PTE_ADDR e));;
               store pte 0);;
          dealloc_loop fuel' pgdir (u32 (a + PGSIZE)) oldsz
      else mret tt
  end.

Definition deallocuvm (pgdir oldsz newsz : Z) : M kstate Z :=
  if oldsz <=? newsz then mret oldsz
  else
    dealloc_loop (Z.to_nat (oldsz / PGSIZE) + 2) pgdir (PGROUNDUP newsz) oldsz;;
    mret newsz.

(** [k] entries from [i] on. *)
Fixpoint free_tables (k : nat) (pgdir i : Z) : M kstate unit :=
  match k with
  | O => mret tt
  | S k' =>
      e ← load (pgdir + 4 * i);
      when (nz (Z.land e PTE_P)) (kfree kend PHYSTOP (P2V (PTE_ADDR e)));;
      free_tables k' pgdir (i + 1)
  end.

Definition freevm (pgdir : Z) : M kstate unit :=
  if pgdir =? 0 then panic "freevm: no pgdir"
  else
    deallocuvm pgdir KERNBASE 0;;
    free_tables NPDENTRIES pgdir 0;;
    kfree kend PHYSTOP pgdir.

(** struct kmap: virt, phys_start, phys_end, perm *)
Definition kmap : list (Z * Z * Z * Z) :=
  [ (KERNBASE, 0, EXTMEM, PTE_W); (KERNLINK, V2P KERNLINK, V2P kdata, 0);
    (kdata, V2P kdata, PHYSTOP, PTE_W); (DEVSPACE, DEVSPACE, 0, PTE_W) ].

Fixpoint map_all (pgdir : Z) (l : list (Z * Z * Z * Z)) : M kstate bool :=
  match l with
  | [] => mret true
  | (virt, pstart, pend, perm) :: l' =>
      r ← mappages pgdir virt (u32 (pend - pstart)) pstart perm;
      if r <? 0 then freevm pgdir;; mret false else map_all pgdir l'
  end.

Definition setupkvm : M kstate Z :=
  pgdir ← kalloc;
  if pgdir =? 0 then mret 0
  else
    kmemset pgdir 0 PGSIZE;;
    if DEVSPACE <? P2V PHYSTOP then panic "PHYSTOP too high"
    else
      ok ← map_all pgdir kmap;
      mret (if (ok : bool) then pgdir else 0).

Definition inituvm (pgdir : Z) (init : list Z) : M kstate unit :=
  if PGSIZE <=? Z.of_nat (length init) then panic "inituvm: more than a page"
  else
    mem ← kalloc;
    kmemset mem 0 PGSIZE;;
    mappages pgdir 0 PGSIZE (V2P mem) (Z.lor PTE_W PTE_U);;
    kpoke mem init.

(** The new size, or 0; the flag says that the newest process was marked killed. *)
Fixpoint alloc_loop (fuel : nat) (pgdir oldsz newsz a : Z) : M kstate (Z * bool) :=
  match fuel with
  | O => fault "allocuvm"
  | S fuel' =>
      if a <? newsz then
        mem ← kalloc;
        if mem =? 0 then
          deallocuvm pgdir newsz oldsz;;
          mret (0, true)
        else
          kmemset mem 0 PGSIZE;;
          r ← mappages pgdir a PGSIZE (V2P mem) (Z.lor PTE_W PTE_U);
          if r <? 0 then
            deallocuvm pgdir newsz oldsz;;
            kfree kend PHYSTOP mem;;
            mret (0, false)
          else alloc_loop fuel' pgdir oldsz newsz (u32 (a + PGSIZE))
      else mret (newsz, false)
  end.

Definition allocuvm (pgdir oldsz newsz : Z) : M kstate (Z * bool) :=
  if newsz <? oldsz then mret (oldsz, false)
  else alloc_loop (Z.to_nat (newsz / PGSIZE) + 2) pgdir oldsz newsz (PGROUNDUP oldsz).

Definition clearpteu (pgdir uva : Z) : M kstate unit :=
  pte ← walkpgdir pgdir uva false;
  if pte =? 0 then panic "clearpteu"
  else e ← load pte; store pte (Z.land e (Z.lnot PTE_U)).

Fixpoint copy_loop (fuel : nat) (pgdir d sz i : Z) : M kstate bool :=
  match fuel with
  | O => fault "copyuvm"
  | S fuel' =>
      if i <? sz then
        pte ← walkpgdir pgdir i false;
        if pte =? 0 then panic "copyuvm: pte should exist"
        else
          e ← load pte;
          if negb (nz (Z.land e PTE_P)) then panic "copyuvm: page not present"
          else
            mem ← kalloc;
            if mem =? 0 then mret false
            else
              kmemmove mem (P2V (PTE_ADDR e)) PGSIZE;;
              r ← mappages d i PGSIZE (V2P mem) (PTE_FLAGS e);
              if r <? 0 then kfree kend PHYSTOP mem;; mret false
              else copy_loop fuel' pgdir d sz (u32 (i + PGSIZE))
      else mret true
  end.

Definition copyuvm (pgdir sz : Z) : M kstate Z :=
  d ← setupkvm;
  if d =? 0 then mret 0
  else
    ok ← copy_loop (Z.to_nat (sz / PGSIZE) + 2) pgdir d sz 0;
    if (ok : bool) then mret d else freevm d;; mret 0.

(** [*pte] is read even when walkpgdir returned 0. *)
Definition uva2ka (pgdir uva : Z) : M kstate Z :=
  pte ← walkpgdir pgdir uva false;
  e ← load pte;
  if Z.land e PTE_P =? 0 then mret 0
  else if Z.land e PTE_U =? 0 then mret 0
  else mret (P2V (PTE_ADDR e)).

Fixpoint copyout_loop (fuel : nat) (pgdir va : Z) (buf : list Z) : M kstate Z :=
  match fuel with
  | O => fault "copyout"
  | S fuel' =>
      if Z.of_nat (length buf) <=? 0 then mret 0
      else
        let va0 := PGROUNDDOWN va in
        pa0 ← uva2ka pgdir va0;
        if pa0 =? 0 then mret (-1)
        else
          let n := Z.min (PGSIZE - (va - va0)) (Z.of_nat (length buf)) in
          kpoke (pa0 + (va - va0)) (take (Z.to_nat n) buf);;
          copyout_loop fuel' pgdir (u32 (va0 + PGSIZE)) (drop (Z.to_nat n) buf)
  end.

(** [len] bytes at [p] are the list [buf]. *)
Definition copyout (pgdir va : Z) (buf : list Z) : M kstate Z :=
  copyout_loop (Z.to_nat (Z.of_nat (length buf) / PGSIZE) + 3) pgdir va buf.
End vm.
