(* ===== verification/VmThm.v ===== *)
(** * Page tables: correctness

    [ptable m pgdir T] says that the page directory at [pgdir] refers to the page
    tables [T] (by directory index); [pte] is the entry of a virtual address.  A
    walk finds the entry, mappages sets exactly the entries of its range, and
    copyout stores through them. *)
From Stdlib Require Import ZArith Lia.
From stdpp Require Import base numbers list gmap strings.
From S2P Require Import Prelude KString Locks Kalloc Vm.
Local Open Scope Z_scope.

(** ** Bit fields of addresses and entries *)

Lemma land_lnot_low a : Z.land a (Z.lnot 4095) = a - a mod 4096.
Proof.
  change 4095 with (Z.ones 12). rewrite <-Z.ldiff_land, Z.ldiff_ones_r by lia.
  rewrite Z.shiftl_mul_pow2, Z.shiftr_div_pow2 by lia. change (2 ^ 12) with 4096.
  pose proof (Z.div_mod a 4096 ltac:(lia)). lia.
Qed.

Lemma PDX_div va : 0 <= va < 2 ^ 32 -> PDX va = va / 4096 / 1024.
Proof.
  intros Hv. unfold PDX. change 1023 with (Z.ones 10). rewrite Z.land_ones, Z.shiftr_div_pow2 by lia.
  rewrite Z.div_div by lia. change (2 ^ 22) with (4096 * 1024). apply Z.mod_small.
  change (2 ^ 32) with 4294967296 in Hv. change (2 ^ 10) with 1024.
  split; [apply Z.div_pos; lia | apply Z.div_lt_upper_bound; lia].
Qed.

Lemma PTX_mod va : PTX va = (va / 4096) mod 1024.
Proof.
  unfold PTX. change 1023 with (Z.ones 10). rewrite Z.land_ones, Z.shiftr_div_pow2 by lia. reflexivity.
Qed.

Lemma PTX_range va : 0 <= PTX va < 1024.
Proof. rewrite PTX_mod. apply Z.mod_pos_bound. lia. Qed.

Lemma PDX_range va : 0 <= PDX va < 1024.
Proof. unfold PDX. change 1023 with (Z.ones 10). rewrite Z.land_ones by lia. apply Z.mod_pos_bound. lia. Qed.

(** Two addresses share an entry exactly when they are on the same page. *)
Lemma same_entry va va' :
  0 <= va < 2 ^ 32 -> 0 <= va' < 2 ^ 32 -> PDX va = PDX va' -> PTX va = PTX va' -> va / 4096 = va' / 4096.
Proof.
  intros H H' Hd Ht. rewrite !PDX_div in Hd by assumption. rewrite !PTX_mod in Ht.
  pose proof (Z.div_mod (va / 4096) 1024 ltac:(lia)). pose proof (Z.div_mod (va' / 4096) 1024 ltac:(lia)). lia.
Qed.

(** Flags in the low bits of an aligned address. *)
Lemma lor_low q k : q mod 4096 = 0 -> 0 <= k < 4096 -> Z.lor q k = q + k.
Proof.
  intros Hq Hk. assert (Z.land q k = 0) as Hand.
  { apply Z.bits_inj'. intros i Hi. rewrite Z.land_spec, Z.bits_0. destruct (Z.lt_ge_cases i 12).
    - replace q with (Z.shiftl (q / 4096) 12) by (rewrite Z.shiftl_mul_pow2 by lia; change (2 ^ 12) with 4096;
        pose proof (Z.div_mod q 4096 ltac:(lia)); lia).
      rewrite Z.shiftl_spec_low by lia. reflexivity.
    - rewrite (in_u_testbit 12 k i); [apply andb_false_r | lia | unfold in_u; change (2 ^ 12) with 4096; lia | lia]. }
  rewrite <-Z.lxor_lor by exact Hand. symmetry. apply Z.add_nocarry_lxor. exact Hand.
Qed.

Lemma PTE_ADDR_low q k : q mod 4096 = 0 -> 0 <= k < 4096 -> PTE_ADDR (q + k) = q.
Proof.
  intros Hq Hk. unfold PTE_ADDR. rewrite land_lnot_low. rewrite <-Z.add_mod_idemp_l, Hq, Z.add_0_l, Z.mod_small by lia. lia.
Qed.

Lemma PGROUNDDOWN_spec a : PGROUNDDOWN a = a - a mod 4096.
Proof. unfold PGROUNDDOWN, PGSIZE. change (4096 - 1) with 4095. apply land_lnot_low. Qed.

Lemma P_bit q k : q mod 4096 = 0 -> Z.land (q + k) PTE_P = k mod 2.
Proof.
  intros Hq. unfold PTE_P. change 1 with (Z.ones 1). rewrite Z.land_ones by lia. change (2 ^ 1) with 2.
  replace q with (q / 4096 * 2048 * 2) by (pose proof (Z.div_mod q 4096 ltac:(lia)); lia).
  rewrite Z.add_comm. apply Z.mod_add. lia.
Qed.

Section vm_thm.
Context (kend PHYSTOP : Z) (Hkend : KERNBASE <= kend).
#[local] Abbreviation page_ok := (page_ok kend PHYSTOP).
#[local] Abbreviation kinv := (kinv kend PHYSTOP).

(** The physical address of a page. *)
Lemma V2P_page p : page_ok p -> V2P p = p - KERNBASE /\ V2P p mod 4096 = 0 /\ 0 <= V2P p /\ V2P p + 4096 <= 2 ^ 30.
Proof.
  intros (Ha & H0 & He & _ & Hv). unfold PGSIZE, V2P in *. change (2 ^ 32) with 4294967296 in Hv. change (2 ^ 30) with 1073741824.
  assert (u32 (p - KERNBASE) = p - KERNBASE) as E by (apply uwrap_id; unfold in_u, KERNBASE in *; change (2 ^ 32) with 4294967296; lia).
  rewrite E. unfold KERNBASE in *. split; [reflexivity|]. split; [|lia].
  replace (p - 3221225472) with (p + (-786432) * 4096) by lia. rewrite Z.mod_add by lia. exact Ha.
Qed.

Lemma P2V_V2P p : page_ok p -> P2V (V2P p) = p.
Proof.
  intros Hp. destruct (V2P_page p Hp) as (E & _). destruct Hp as (_ & H0 & _ & _ & Hv). unfold P2V. rewrite E.
  replace (p - KERNBASE + KERNBASE) with p by lia. apply uwrap_id. unfold in_u, PGSIZE in *. lia.
Qed.

(** The entry that refers to the page [p] with some flags. *)
Lemma entry_page p k : page_ok p -> 0 <= k < 4096 -> P2V (PTE_ADDR (V2P p + k)) = p.
Proof. intros Hp Hk. destruct (V2P_page p Hp) as (_ & Hm & _). rewrite PTE_ADDR_low by assumption. apply P2V_V2P, Hp. Qed.

Lemma pde_value p : page_ok p -> Z.lor (Z.lor (Z.lor (V2P p) PTE_P) PTE_W) PTE_U = V2P p + 7.
Proof.
  intros Hp. destruct (V2P_page p Hp) as (_ & Hm & _). rewrite <-!Z.lor_assoc.
  change (Z.lor PTE_P (Z.lor PTE_W PTE_U)) with 7. apply lor_low; [exact Hm | lia].
Qed.

(** ** Page tables in memory *)

Record ptable (m : mem) (pgdir : Z) (T : gmap Z Z) : Prop := Ptable {
  pt_dir : page_ok pgdir;
  pt_tab : forall x p, T !! x = Some p -> 0 <= x < 1024 /\ page_ok p /\ p <> pgdir /\ load32 m (pgdir + 4 * x) = V2P p + 7;
  pt_none : forall x, 0 <= x < 1024 -> T !! x = None -> Z.land (load32 m (pgdir + 4 * x)) PTE_P = 0;
  pt_inj : forall x y p, T !! x = Some p -> T !! y = Some p -> x = y
}.

Definition pte (m : mem) (T : gmap Z Z) (va : Z) : Z :=
  match T !! PDX va with Some p => load32 m (p + 4 * PTX va) | None => 0 end.

(** The pages of a page table are not free. *)
Definition owned (pgdir : Z) (T : gmap Z Z) (L : list Z) : Prop :=
  (pgdir ∉ L) /\ (forall x p, T !! x = Some p -> p ∉ L).
Definition in_page (p x : Z) : Prop := p <= x < p + PGSIZE.
Definition in_tables (pgdir : Z) (T : gmap Z Z) (x : Z) : Prop :=
  in_page pgdir x \/ (exists i p, T !! i = Some p /\ in_page p x).

Lemma pages_apart p q x : page_ok p -> page_ok q -> p <> q -> in_page p x -> ~ in_page q x.
Proof.
  intros (Hp & _) (Hq & _) Hne Hx Hy. unfold in_page in *. destruct (aligned_disjoint p q Hp Hq Hne); lia.
Qed.

(** A state whose memory changed outside the free pages. *)
Lemma kinv_mem s L m' :
  kinv s L -> (forall v x, v ∈ L -> in_page v x -> m' x = kmem_mem s x) ->
  kinv (KState m' (use_lock s) (freelist s) (klocks s)) L.
Proof.
  intros [Hc Hn Hp Hl Hf] Hm. split; try assumption. cbn [kmem_mem freelist].
  eapply chain_frame; [|exact Hc]. intros v x Hv Hx. apply (Hm v x Hv). unfold in_page, PGSIZE. lia.
Qed.

Lemma ptable_frame m m' pgdir T :
  ptable m pgdir T -> (forall x, in_page pgdir x -> m' x = m x) -> ptable m' pgdir T.
Proof.
  intros [Hd Ht Hn Hi] Hm.
  assert (forall x, 0 <= x < 1024 -> load32 m' (pgdir + 4 * x) = load32 m (pgdir + 4 * x)) as E.
  { intros x Hx. apply load32_frame. intros y Hy. apply Hm. unfold in_page, PGSIZE. lia. }
  split; try assumption.
  - intros x p Hx. destruct (Ht x p Hx) as (H1 & H2 & H3 & H4). rewrite E by exact H1. auto.
  - intros x Hx Hnone. rewrite E by exact Hx. auto.
Qed.

Lemma pte_frame m m' T va :
  (forall i p x, T !! i = Some p -> in_page p x -> m' x = m x) -> pte m' T va = pte m T va.
Proof.
  intros Hm. unfold pte. destruct (T !! PDX va) as [p|] eqn:E; [|reflexivity]. apply load32_frame.
  intros x Hx. apply (Hm _ p x E). pose proof (PTX_range va). unfold in_page, PGSIZE. lia.
Qed.

Lemma load_Ok s p : p <> 0 -> load p s = Ok (load32 (kmem_mem s) p) s.
Proof. intros Hp. unfold load. rewrite (proj2 (Z.eqb_neq _ _)) by exact Hp. reflexivity. Qed.
Lemma store_Ok s p w : p <> 0 ->
  store p w s = Ok tt (KState (store32 (kmem_mem s) p w) (use_lock s) (freelist s) (klocks s)).
Proof. intros Hp. unfold store. rewrite (proj2 (Z.eqb_neq _ _)) by exact Hp. reflexivity. Qed.
Lemma kmemset_Ok s p c n : p <> 0 ->
  kmemset p c n s = Ok tt (KState (memset (kmem_mem s) p c n) (use_lock s) (freelist s) (klocks s)).
Proof. intros Hp. unfold kmemset. rewrite (proj2 (Z.eqb_neq _ _)) by exact Hp. reflexivity. Qed.

Section walk.
Context (s : kstate) (pgdir va : Z) (T : gmap Z Z) (HT : ptable (kmem_mem s) pgdir T).

Let Hpde : pgdir + 4 * PDX va <> 0.
Proof. destruct (pt_dir _ _ _ HT) as (_ & H0 & _). pose proof (PDX_range va). lia. Qed.

(** The table is there: walkpgdir returns the address of the entry. *)
Lemma walk_found al p : T !! PDX va = Some p -> walkpgdir pgdir va al s = Ok (p + 4 * PTX va) s.
Proof.
  intros Hp. destruct (pt_tab _ _ _ HT _ _ Hp) as (_ & Hok & _ & E). unfold walkpgdir. cbv zeta.
  erewrite bind_step by (apply load_Ok, Hpde). rewrite E, P_bit by apply (V2P_page p Hok).
  change (nz (7 mod 2)) with true. rewrite entry_page by (assumption || lia). reflexivity.
Qed.

Lemma walk_absent : T !! PDX va = None -> walkpgdir pgdir va false s = Ok 0 s.
Proof.
  intros Hp. pose proof (pt_none _ _ _ HT _ (PDX_range va) Hp) as E. unfold walkpgdir. cbv zeta.
  erewrite bind_step by (apply load_Ok, Hpde). rewrite E. reflexivity.
Qed.
End walk.

(** The memory after a new page table [p] is installed for [va]. *)
Definition with_table (m : mem) (pgdir va p : Z) : mem :=
  store32 (memset m p 0 PGSIZE) (pgdir + 4 * PDX va) (V2P p + 7).

Section new_table.
Context (m : mem) (pgdir va p : Z) (T : gmap Z Z) (HT : ptable m pgdir T) (Hp : page_ok p)
  (Hd : p <> pgdir) (Hnew : forall x q, T !! x = Some q -> q <> p) (Hnone : T !! PDX va = None).

Lemma with_table_other x : ~ in_page p x -> ~ (pgdir + 4 * PDX va <= x < pgdir + 4 * PDX va + 4) -> with_table m pgdir va p x = m x.
Proof.
  intros H1 H2. unfold with_table. rewrite store32_ne by exact H2. rewrite memset_spec by (unfold PGSIZE; lia).
  rewrite (proj2 (inside_false p PGSIZE x)) by exact H1. reflexivity.
Qed.

Lemma with_table_dir x : in_page pgdir x -> ~ (pgdir + 4 * PDX va <= x < pgdir + 4 * PDX va + 4) -> with_table m pgdir va p x = m x.
Proof. intros H1 H2. apply with_table_other; [|exact H2]. eapply pages_apart; [apply HT | exact Hp | congruence | exact H1]. Qed.

Lemma with_table_zero x : in_page p x -> with_table m pgdir va p x = 0.
Proof.
  intros Hx. unfold with_table. pose proof (PDX_range va). rewrite store32_ne.
  - rewrite memset_spec by (unfold PGSIZE; lia). rewrite (proj2 (inside_true p PGSIZE x)) by exact Hx. reflexivity.
  - intros Hy. apply (pages_apart p pgdir x Hp (pt_dir _ _ _ HT) Hd Hx). unfold in_page, PGSIZE. lia.
Qed.

Lemma with_table_ptable : ptable (with_table m pgdir va p) pgdir (<[PDX va := p]> T).
Proof.
  pose proof (PDX_range va) as Hr.
  assert (forall x, 0 <= x < 1024 -> x <> PDX va -> load32 (with_table m pgdir va p) (pgdir + 4 * x) = load32 m (pgdir + 4 * x)) as E.
  { intros x Hx Hne. apply load32_frame. intros y Hy. apply with_table_dir; unfold in_page, PGSIZE; lia. }
  split.
  - apply HT.
  - intros x q Hx. apply lookup_insert_Some in Hx as [[<- <-] | [Hne Hx]].
    + split_and!; [lia | lia | exact Hp | exact Hd|]. unfold with_table. apply load_store32.
      destruct (V2P_page p Hp) as (_ & _ & H1 & H2). unfold in_u. change (2 ^ 30) with 1073741824 in H2. lia.
    + destruct (pt_tab _ _ _ HT x q Hx) as (H1 & H2 & H3 & H4). rewrite E by (auto || congruence). auto.
  - intros x Hx Hn. apply lookup_insert_None in Hn as [Hn Hne]. rewrite E by (auto || congruence). apply (pt_none _ _ _ HT x Hx Hn).
  - intros x y q H1 H2. apply lookup_insert_Some in H1 as [[<- <-] | [Hn1 H1]]; apply lookup_insert_Some in H2 as [[<- E2] | [Hn2 H2]]; subst.
    + reflexivity.
    + destruct (Hnew _ _ H2 eq_refl).
    + destruct (Hnew _ _ H1 eq_refl).
    + exact (pt_inj _ _ _ HT x y q H1 H2).
Qed.

Lemma with_table_pte va' : pte (with_table m pgdir va p) (<[PDX va := p]> T) va' = pte m T va'.
Proof.
  unfold pte. destruct (decide (PDX va = PDX va')) as [E | Hne].
  - rewrite <-E, lookup_insert_eq, Hnone. unfold load32. pose proof (PTX_range va').
    rewrite !with_table_zero by (unfold in_page, PGSIZE; lia). reflexivity.
  - rewrite lookup_insert_ne by exact Hne. destruct (T !! PDX va') as [q|] eqn:Eq; [|reflexivity].
    destruct (pt_tab _ _ _ HT _ _ Eq) as (_ & Hq & Hqd & _). pose proof (PTX_range va'). pose proof (PDX_range va).
    apply load32_frame. intros x Hx.
    assert (in_page q x) as Hin by (unfold in_page, PGSIZE; lia).
    apply with_table_other.
    + eapply (pages_apart q p); [exact Hq | exact Hp | exact (Hnew _ _ Eq) | exact Hin].
    + intros Hy. apply (pages_apart q pgdir x Hq (pt_dir _ _ _ HT) Hqd Hin). unfold in_page, PGSIZE. lia.
Qed.
End new_table.

(** walkpgdir with [alloc]: the entry, in a table of its own if need be; all
    entries keep their values.  Without a free page it returns 0. *)
(** The tables of [T'] that [T] has not are at index [lo] or above. *)
Definition tables_above (lo : Z) (T T' : gmap Z Z) : Prop := forall x p, T' !! x = Some p -> T !! x = Some p \/ lo <= x.

Lemma tables_above_refl lo T : tables_above lo T T.
Proof. intros x p H. left. exact H. Qed.

Lemma tables_above_trans lo lo' T T1 T2 : lo <= lo' -> tables_above lo T T1 -> tables_above lo' T1 T2 -> tables_above lo T T2.
Proof. intros Hl H1 H2 x p H. destruct (H2 x p H) as [Hx | Hx]; [exact (H1 x p Hx) | right; lia]. Qed.

Lemma walk_alloc s L pgdir T va :
  kinv s L -> ptable (kmem_mem s) pgdir T -> owned pgdir T L ->
  exists r s' L' T', walkpgdir pgdir va true s = Ok r s' /\ kinv s' L' /\ ptable (kmem_mem s') pgdir T'
    /\ owned pgdir T' L' /\ T ⊆ T' /\ L' `suffix_of` L /\ (forall x p, T' !! x = Some p -> T !! x = Some p \/ p ∈ L)
    /\ tables_above (PDX va) T T'
    /\ (forall p, p ∈ L -> p ∈ L' \/ exists x, T' !! x = Some p)
    /\ (forall va', pte (kmem_mem s') T' va' = pte (kmem_mem s) T va')
    /\ (forall x, ~ in_tables pgdir T' x -> kmem_mem s' x = kmem_mem s x)
    /\ ((exists p, T' !! PDX va = Some p /\ r = p + 4 * PTX va) \/ (r = 0 /\ L' = [])).
Proof.
  intros HI HT [Ho1 Ho2]. destruct (T !! PDX va) as [p|] eqn:Ep.
  { exists (p + 4 * PTX va), s, L, T. split_and!; auto; [exact (walk_found s pgdir va T HT true p Ep) | split; assumption | apply tables_above_refl | left; eauto]. }
  destruct (pt_dir _ _ _ HT) as (_ & Hd0 & _). pose proof (PDX_range va) as Hr.
  pose proof (pt_none _ _ _ HT _ Hr Ep) as En.
  destruct (kalloc_spec kend PHYSTOP s L HI) as (s1 & E1 & HI1 & _ & Em). destruct L as [|p L].
  - exists 0, s1, [], T. rewrite Em. split_and!; auto; [|split; assumption | apply tables_above_refl].
    unfold walkpgdir. cbv zeta. erewrite bind_step by (apply load_Ok; lia). rewrite En. change (nz 0) with false. cbv iota. change (negb true) with false. cbv iota.
    erewrite bind_step by exact E1. change (hd 0 []) with 0. rewrite Z.eqb_refl. reflexivity.
  - pose proof (k_pages _ _ _ _ HI) as Hpg. apply Forall_cons in Hpg as [Hp _]. cbn [tail hd] in *.
    pose proof (k_nodup _ _ _ _ HI) as Hnd. apply NoDup_cons in Hnd as [HpL _].
    apply not_elem_of_cons in Ho1 as [Hpd Ho1]. apply not_eq_sym in Hpd.
    assert (forall x q, T !! x = Some q -> q <> p) as Hnew by (intros x q Hx ->; apply (Ho2 x p Hx); constructor).
    set (m' := with_table (kmem_mem s) pgdir va p).
    exists (p + 4 * PTX va), (KState m' (use_lock s1) (freelist s1) (klocks s1)), L, (<[PDX va := p]> T). cbn [kmem_mem].
    assert (forall x q, (<[PDX va := p]> T : gmap Z Z) !! x = Some q -> q = p \/ (T !! x = Some q /\ q <> p)) as HT'.
    { intros x q Hx. apply lookup_insert_Some in Hx as [[_ <-] | [_ Hx]]; eauto. }
    split_and!.
    + unfold walkpgdir. cbv zeta. erewrite bind_step by (apply load_Ok; lia). rewrite En. change (nz 0) with false. cbv iota. change (negb true) with false. cbv iota.
      erewrite bind_step by exact E1. destruct Hp as (H1 & H2 & H3). rewrite (proj2 (Z.eqb_neq p 0)) by lia.
      erewrite bind_step by (apply kmemset_Ok; lia). erewrite bind_step by (apply store_Ok; lia). cbn [kmem_mem use_lock freelist klocks].
      rewrite Em, pde_value by (split_and!; tauto). reflexivity.
    + apply kinv_mem; [exact HI1|]. intros v x Hv Hx. rewrite Em. pose proof (k_pages _ _ _ _ HI1) as HpL'.
      rewrite Forall_forall in HpL'. specialize (HpL' v Hv). apply with_table_other.
      * apply (pages_apart v p); auto. intros ->. contradiction.
      * intros Hy. apply (pages_apart v pgdir x HpL' (pt_dir _ _ _ HT)); [intros ->; exact (Ho1 Hv) | exact Hx | unfold in_page, PGSIZE; lia].
    + apply with_table_ptable; assumption.
    + split; [exact Ho1|]. intros x q Hx. destruct (HT' x q Hx) as [-> | [Hx' _]]; [exact HpL|]. intros Hq. apply (Ho2 x q Hx'). constructor. exact Hq.
    + apply insert_subseteq, Ep.
    + exists [p]. reflexivity.
    + intros x q Hx. destruct (HT' x q Hx) as [-> | [Hx' _]]; [right; constructor | left; exact Hx'].
    + intros x q Hx. apply lookup_insert_Some in Hx as [[<- _] | [_ Hx]]; [right; reflexivity | left; exact Hx].
    + intros q Hq. apply elem_of_cons in Hq as [-> | Hq]; [right; exists (PDX va); apply lookup_insert_eq | left; exact Hq].
    + intros va'. apply with_table_pte; assumption.
    + intros x Hx. apply with_table_other.
      * intros Hy. apply Hx. right. exists (PDX va), p. split; [apply lookup_insert_eq | exact Hy].
      * intros Hy. apply Hx. left. unfold in_page, PGSIZE. lia.
    + left. exists p. split; [apply lookup_insert_eq | reflexivity].
Qed.

(** Setting the entry of [va] in its table. *)
Lemma set_entry s L pgdir T va p w :
  kinv s L -> ptable (kmem_mem s) pgdir T -> owned pgdir T L -> T !! PDX va = Some p -> 0 <= va < 2 ^ 32 -> in_u 32 w ->
  exists s', store (p + 4 * PTX va) w s = Ok tt s' /\ kinv s' L /\ ptable (kmem_mem s') pgdir T
    /\ (forall va', 0 <= va' < 2 ^ 32 -> pte (kmem_mem s') T va' = if va' / 4096 =? va / 4096 then w else pte (kmem_mem s) T va')
    /\ (forall x, ~ in_page p x -> kmem_mem s' x = kmem_mem s x).
Proof.
  intros HI HT [Ho1 Ho2] Ep Hva Hw. destruct (pt_tab _ _ _ HT _ _ Ep) as (_ & Hp & Hpd & _). pose proof (PTX_range va) as Hr.
  destruct Hp as (Hp1 & Hp2 & Hp3). assert (page_ok p) as Hp by (split_and!; tauto).
  assert (forall x, ~ in_page p x -> store32 (kmem_mem s) (p + 4 * PTX va) w x = kmem_mem s x) as Hout.
  { intros x Hx. apply store32_ne. intros Hy. apply Hx. unfold in_page, PGSIZE. lia. }
  eexists. split; [apply store_Ok; lia|]. cbn [kmem_mem]. split_and!.
  - apply kinv_mem; [exact HI|]. intros v x Hv Hx. apply Hout. pose proof (k_pages _ _ _ _ HI) as HpL. rewrite Forall_forall in HpL.
    apply (pages_apart v p); auto. intros ->. exact (Ho2 _ _ Ep Hv).
  - apply (ptable_frame (kmem_mem s)); [exact HT|]. intros x Hx. apply Hout. apply (pages_apart pgdir p); auto. apply HT.
  - intros va' Hva'. unfold pte. destruct (T !! PDX va') as [q|] eqn:Eq.
    + destruct (pt_tab _ _ _ HT _ _ Eq) as (_ & Hq & _). pose proof (PTX_range va') as Hr'.
      destruct (Z.eqb_spec (va' / 4096) (va / 4096)) as [E | Hne].
      * assert (PDX va' = PDX va) as Ed by (rewrite !PDX_div by assumption; rewrite E; reflexivity).
        assert (PTX va' = PTX va) as Et by (rewrite !PTX_mod, E; reflexivity).
        rewrite Ed, Ep in Eq. injection Eq as <-. rewrite Et. apply load_store32, Hw.
      * apply load32_frame. intros x Hx. destruct (decide (q = p)) as [-> | Hqp].
        -- apply store32_ne. assert (PDX va' = PDX va) as Ed by exact (pt_inj _ _ _ HT _ _ _ Eq Ep).
           assert (PTX va' <> PTX va) by (intros Et; apply Hne, same_entry; auto). lia.
        -- apply Hout. apply (pages_apart q p); auto. unfold in_page, PGSIZE. lia.
    + destruct (Z.eqb_spec (va' / 4096) (va / 4096)) as [E | Hne]; [|reflexivity].
      assert (PDX va' = PDX va) as Ed by (rewrite !PDX_div by assumption; rewrite E; reflexivity). congruence.
  - exact Hout.
Qed.

(** ** mappages *)

Definition entry (pa perm : Z) : Z := Z.lor (Z.lor pa perm) PTE_P.

Lemma entry_value pa perm : pa mod 4096 = 0 -> 0 <= perm < 4096 -> entry pa perm = pa + Z.lor perm 1.
Proof.
  intros Hp Hk. unfold entry, PTE_P. rewrite <-Z.lor_assoc. apply lor_low; [exact Hp|].
  assert (in_u 12 (Z.lor perm 1)) as H; [|exact H]. apply testbit_in_u; [lia | apply Z.lor_nonneg; lia|].
  intros i Hi. rewrite Z.lor_spec, !(in_u_testbit 12) by (unfold in_u; change (2 ^ 12) with 4096; lia). reflexivity.
Qed.

Lemma lor_flags_range perm : 0 <= perm < 4096 -> 0 <= Z.lor perm 1 < 4096.
Proof.
  intros Hk. assert (in_u 12 (Z.lor perm 1)) as H; [|exact H]. apply testbit_in_u; [lia | apply Z.lor_nonneg; lia|].
  intros i Hi. rewrite Z.lor_spec, !(in_u_testbit 12) by (unfold in_u; change (2 ^ 12) with 4096; lia). reflexivity.
Qed.

Lemma in_tables_mono pgdir T T' x : T ⊆ T' -> in_tables pgdir T x -> in_tables pgdir T' x.
Proof. intros Hs [H | (i & p & Hp & H)]; [left; exact H | right; exists i, p; split; [exact (lookup_weaken _ _ _ _ Hp Hs) | exact H]]. Qed.

(** The first [j] pages from [a] on are mapped to those from [pa] on, and no
    other entry changed. *)
Definition mapped_to (m : mem) (T : gmap Z Z) (m' : mem) (T' : gmap Z Z) (a pa perm j : Z) : Prop :=
  forall va, 0 <= va < 2 ^ 32 ->
    pte m' T' va = if (a <=? va) && (va <? a + j * 4096) then entry (pa + (va / 4096 * 4096 - a)) perm else pte m T va.

(** A page-table update that touches nothing but page tables. *)
Record extends (s : kstate) (L : list Z) (T : gmap Z Z) (s' : kstate) (L' : list Z) (T' : gmap Z Z) (pgdir : Z) : Prop := Extends {
  ex_kinv : kinv s' L';
  ex_pt : ptable (kmem_mem s') pgdir T';
  ex_owned : owned pgdir T' L';
  ex_sub : T ⊆ T';
  ex_free : L' `suffix_of` L;
  ex_new : forall x p, T' !! x = Some p -> T !! x = Some p \/ p ∈ L;
  ex_kept : forall p, p ∈ L -> p ∈ L' \/ exists x, T' !! x = Some p;
  ex_frame : forall x, ~ in_tables pgdir T' x -> kmem_mem s' x = kmem_mem s x
}.

Lemma elem_of_suffix (p : Z) L1 L : L1 `suffix_of` L -> p ∈ L1 -> p ∈ L.
Proof. intros [K ->] Hp. apply elem_of_app. right. exact Hp. Qed.

Lemma extends_trans s L T s1 L1 T1 s2 L2 T2 pgdir :
  extends s L T s1 L1 T1 pgdir -> extends s1 L1 T1 s2 L2 T2 pgdir -> extends s L T s2 L2 T2 pgdir.
Proof.
  intros H1 H2. split; try apply H2.
  - etrans; [apply (ex_sub _ _ _ _ _ _ _ H1) | apply H2].
  - etrans; [apply H2 | apply H1].
  - intros x p Hx. destruct (ex_new _ _ _ _ _ _ _ H2 x p Hx) as [Hx1 | Hp]; [apply (ex_new _ _ _ _ _ _ _ H1 x p Hx1) | right].
    apply (elem_of_suffix p L1 L); [apply (ex_free _ _ _ _ _ _ _ H1) | exact Hp].
  - intros p Hp. destruct (ex_kept _ _ _ _ _ _ _ H1 p Hp) as [Hp1 | (x & Hx)]; [apply (ex_kept _ _ _ _ _ _ _ H2 p Hp1) | right].
    exists x. exact (lookup_weaken _ _ _ _ Hx (ex_sub _ _ _ _ _ _ _ H2)).
  - intros x Hx. rewrite (ex_frame _ _ _ _ _ _ _ H2) by exact Hx. apply (ex_frame _ _ _ _ _ _ _ H1).
    intros Hy. apply Hx. exact (in_tables_mono _ _ _ _ (ex_sub _ _ _ _ _ _ _ H2) Hy).
Qed.

Lemma mapped_none m T m' T' a pa perm : (forall va, pte m' T' va = pte m T va) -> mapped_to m T m' T' a pa perm 0.
Proof. intros H va _. rewrite H. destruct (Z.leb_spec a va), (Z.ltb_spec va (a + 0 * 4096)); cbn; lia || reflexivity. Qed.

(** One page, then as many more. *)
Lemma mapped_next m T m1 T1 m2 T2 a pa perm j :
  a mod 4096 = 0 -> 0 <= j -> mapped_to m T m1 T1 a pa perm 1 ->
  mapped_to m1 T1 m2 T2 (a + 4096) (pa + 4096) perm j -> mapped_to m T m2 T2 a pa perm (j + 1).
Proof.
  intros Ha Hj H1 H2 va Hva. rewrite H2, H1 by exact Hva.
  destruct (Z.leb_spec (a + 4096) va), (Z.ltb_spec va (a + 4096 + j * 4096)), (Z.leb_spec a va), (Z.ltb_spec va (a + (j + 1) * 4096)),
    (Z.ltb_spec va (a + 1 * 4096)); cbn; try lia; try reflexivity.
  f_equal. lia.
Qed.

(** One turn of the loop: the page is mapped, or there was no page for its table. *)
Lemma map_step s L T pgdir a pa perm :
  kinv s L -> ptable (kmem_mem s) pgdir T -> owned pgdir T L ->
  a mod 4096 = 0 -> 0 <= a < 2 ^ 32 -> pa mod 4096 = 0 -> 0 <= pa < 2 ^ 32 -> 0 <= perm < 4096 ->
  Z.land (pte (kmem_mem s) T a) PTE_P = 0 ->
  exists s' L' T', extends s L T s' L' T' pgdir /\ tables_above (PDX a) T T'
    /\ (((forall k, map_loop k pgdir a pa perm s =
             match k with O => mret 0 | S k' => map_loop k' pgdir (u32 (a + PGSIZE)) (u32 (pa + PGSIZE)) perm end s')
          /\ mapped_to (kmem_mem s) T (kmem_mem s') T' a pa perm 1)
        \/ ((forall k, map_loop k pgdir a pa perm s = Ok (-1) s') /\ L' = []
           /\ mapped_to (kmem_mem s) T (kmem_mem s') T' a pa perm 0)).
Proof.
  intros HI HT Ho Ha Ha0 Hpa Hpa0 Hperm Habs.
  destruct (walk_alloc s L pgdir T a HI HT Ho) as (q & s1 & L1 & T1 & E1 & HI1 & HT1 & Ho1 & Hs1 & Hsuf & Hnew1 & Hab1 & Hkept1 & Hpte1 & Hfr1 & Hq).
  destruct Hq as [(p & Hp & ->) | [-> ->]].
  2:{ exists s1, [], T1. split; [split; assumption|]. split; [exact Hab1|]. right. split_and!; [|reflexivity | apply mapped_none, Hpte1].
      intros [|k]; cbn [map_loop]; rewrite (bind_step _ _ _ _ _ E1); reflexivity. }
  destruct (pt_tab _ _ _ HT1 _ _ Hp) as (_ & Hpok & _). pose proof (PTX_range a) as Hr.
  assert (p + 4 * PTX a <> 0) as Hq0 by (destruct Hpok as (_ & ? & _); lia).
  assert (in_u 32 (entry pa perm)) as He.
  { rewrite entry_value by assumption. pose proof (lor_flags_range perm Hperm). unfold in_u. change (2 ^ 32) with 4294967296 in *.
    pose proof (Z.div_mod pa 4096 ltac:(lia)). assert (pa / 4096 < 1048576) by (apply Z.div_lt_upper_bound; lia). lia. }
  destruct (set_entry s1 L1 pgdir T1 a p (entry pa perm) HI1 HT1 Ho1 Hp Ha0 He) as (s2 & E2 & HI2 & HT2 & Hpte2 & Hfr2).
  exists s2, L1, T1. split.
  { split; try assumption. intros x Hx. rewrite Hfr2; [apply Hfr1, Hx|]. intros Hy. apply Hx. right. eauto. }
  split; [exact Hab1|]. left. split.
  - intros k. assert (load32 (kmem_mem s1) (p + 4 * PTX a) = pte (kmem_mem s) T a) as El.
    { rewrite <-Hpte1. unfold pte. rewrite Hp. reflexivity. }
    destruct k as [|k]; cbn [map_loop]; rewrite (bind_step _ _ _ _ _ E1), (proj2 (Z.eqb_neq _ _)) by exact Hq0;
      rewrite (bind_step _ _ _ _ _ (load_Ok _ _ Hq0)), El, Habs; change (nz 0) with false; cbv iota;
      fold (entry pa perm); rewrite (bind_step _ _ _ _ _ E2); reflexivity.
  - intros va Hva. rewrite Hpte2, Hpte1 by exact Hva. change (1 * 4096) with 4096.
    assert (va / 4096 = a / 4096 <-> a <= va < a + 4096) as Hpg by (Z.div_mod_to_equations; lia).
    destruct (Z.eqb_spec (va / 4096) (a / 4096)) as [E | Hne], (Z.leb_spec a va), (Z.ltb_spec va (a + 4096)); cbn; try reflexivity;
      try (exfalso; tauto || lia).
    f_equal. rewrite E. pose proof (Z.div_mod a 4096 ltac:(lia)). lia.
Qed.

Lemma map_loop_spec k : forall s L T pgdir a pa perm,
  kinv s L -> ptable (kmem_mem s) pgdir T -> owned pgdir T L ->
  a mod 4096 = 0 -> 0 <= a -> a + (Z.of_nat k + 1) * 4096 <= 2 ^ 32 ->
  pa mod 4096 = 0 -> 0 <= pa -> pa + (Z.of_nat k + 1) * 4096 <= 2 ^ 32 -> 0 <= perm < 4096 ->
  (forall va, a <= va < a + (Z.of_nat k + 1) * 4096 -> Z.land (pte (kmem_mem s) T va) PTE_P = 0) ->
  exists r s' L' T' j, map_loop k pgdir a pa perm s = Ok r s' /\ extends s L T s' L' T' pgdir /\ tables_above (PDX a) T T'
    /\ mapped_to (kmem_mem s) T (kmem_mem s') T' a pa perm j
    /\ ((r = 0 /\ j = Z.of_nat k + 1) \/ (r = -1 /\ L' = [] /\ 0 <= j <= Z.of_nat k)).
Proof.
  induction k as [|k IH]; intros s L T pgdir a pa perm HI HT Ho Ha Ha0 Ha1 Hpa Hpa0 Hpa1 Hperm Habs;
    (destruct (map_step s L T pgdir a pa perm) as (s1 & L1 & T1 & X1 & K1 & [[E1 Hm1] | (E1 & -> & Hm1)]);
      [assumption .. | lia | assumption | lia | assumption | apply Habs; lia | |
       exists (-1), s1, [], T1, 0; split_and!; auto; right; split_and!; lia || reflexivity]).
  - exists 0, s1, L1, T1, 1. split_and!; [apply (E1 O) | exact X1 | exact K1 | exact Hm1 | left; split; reflexivity].
  - specialize (E1 (S k)). cbv iota in E1. unfold PGSIZE in E1. rewrite !(uwrap_id 32) in E1 by (unfold in_u; lia).
    assert (forall v, v mod 4096 = 0 -> (v + 4096) mod 4096 = 0) as Hal.
    { intros v Hv. replace (v + 4096) with (v + 1 * 4096) by lia. rewrite Z.mod_add by lia. exact Hv. }
    destruct (IH s1 L1 T1 pgdir (a + 4096) (pa + 4096) perm) as (r & s2 & L2 & T2 & j & E2 & X2 & K2 & Hm2 & Hr); auto; try apply X1; try lia.
    { intros va Hva. rewrite Hm1 by lia. destruct (Z.leb_spec a va), (Z.ltb_spec va (a + 1 * 4096)); cbn; try lia. apply Habs; lia. }
    exists r, s2, L2, T2, (j + 1). split_and!.
    + rewrite E1. exact E2.
    + exact (extends_trans _ _ _ _ _ _ _ _ _ _ X1 X2).
    + apply (tables_above_trans _ (PDX (a + 4096)) T T1 T2); [|exact K1 | exact K2].
      rewrite !PDX_div by lia. apply Z.div_le_mono; [lia|]. apply Z.div_le_mono; lia.
    + eapply mapped_next; eauto. lia.
    + destruct Hr as [[-> ->] | (-> & -> & Hj)]; [left | right]; split_and!; lia || reflexivity.
Qed.

(** The pages that [size] bytes at [va] touch. *)
Definition npages (va size : Z) : Z := (va + size - 1) / 4096 - va / 4096 + 1.

(** The result of mappages on absent pages. *)
Lemma mappages_spec s L T pgdir va size pa perm :
  kinv s L -> ptable (kmem_mem s) pgdir T -> owned pgdir T L ->
  0 <= va -> 0 < size -> va + size <= 2 ^ 32 ->
  pa mod 4096 = 0 -> 0 <= pa -> pa + npages va size * 4096 <= 2 ^ 32 -> 0 <= perm < 4096 ->
  (forall v, va / 4096 <= v / 4096 <= (va + size - 1) / 4096 -> Z.land (pte (kmem_mem s) T v) PTE_P = 0) ->
  exists r s' L' T' j, mappages pgdir va size pa perm s = Ok r s' /\ extends s L T s' L' T' pgdir /\ tables_above (PDX va) T T'
    /\ mapped_to (kmem_mem s) T (kmem_mem s') T' (va / 4096 * 4096) pa perm j
    /\ ((r = 0 /\ j = npages va size) \/ (r = -1 /\ L' = [] /\ 0 <= j < npages va size)).
Proof.
  intros HI HT Ho Hva Hsz Hend Hpa Hpa0 Hpa1 Hperm Habs. unfold mappages. cbv zeta. change (2 ^ 32) with 4294967296 in *.
  rewrite !PGROUNDDOWN_spec, (uwrap_id 32 (va + size - 1)) by (unfold in_u; change (2 ^ 32) with 4294967296; lia).
  pose proof (Z.div_mod va 4096 ltac:(lia)) as Dv. pose proof (Z.div_mod (va + size - 1) 4096 ltac:(lia)) as De.
  pose proof (Z.mod_pos_bound va 4096 ltac:(lia)). pose proof (Z.mod_pos_bound (va + size - 1) 4096 ltac:(lia)).
  assert (va / 4096 <= (va + size - 1) / 4096) by (apply Z.div_le_mono; lia).
  assert (0 <= va / 4096) by (apply Z.div_pos; lia).
  assert ((va + size - 1) / 4096 < 1048576) by (apply Z.div_lt_upper_bound; lia).
  replace (va - va mod 4096) with (va / 4096 * 4096) by lia.
  replace (va + size - 1 - (va + size - 1) mod 4096) with ((va + size - 1) / 4096 * 4096) by lia.
  rewrite <-Z.mul_sub_distr_r, (uwrap_id 32) by (unfold in_u; change (2 ^ 32) with 4294967296; lia).
  unfold PGSIZE. rewrite Z.div_mul by lia. unfold npages in *.
  destruct (map_loop_spec (Z.to_nat ((va + size - 1) / 4096 - va / 4096)) s L T pgdir (va / 4096 * 4096) pa perm)
    as (r & s' & L' & T' & j & E & X & K & Hm & Hr); auto; rewrite ?Z2Nat.id in * by lia; change (2 ^ 32) with 4294967296; try lia.
  - apply Z.mod_mul. lia.
  - intros v Hv. apply Habs. split; [apply Z.div_le_lower_bound; lia|].
    assert (v / 4096 < (va + size - 1) / 4096 + 1) by (apply Z.div_lt_upper_bound; lia). lia.
  - rewrite PDX_div, Z.div_mul in K by lia. rewrite PDX_div by lia.
    exists r, s', L', T', j. split_and!; auto. destruct Hr as [[-> ->] | (-> & -> & Hj)]; [left | right]; split_and!; lia || reflexivity.
Qed.

(** mappages of a range of absent pages to physical pages of the same number:
    either it returns 0, and exactly the entries of the range are set, to the
    physical pages in order, or it returns -1 with no free page left, and only
    a prefix of the range is mapped.  No memory outside the page tables changes,
    existing tables stay, new ones are former free pages and sit at or above the directory entry of the range, and the free pages that
    remain are still the allocator's. *)
Theorem mappages_correct s L T pgdir va size pa perm :
  kinv s L -> ptable (kmem_mem s) pgdir T -> owned pgdir T L ->
  0 <= va -> 0 < size -> va + size <= 2 ^ 32 ->
  pa mod 4096 = 0 -> 0 <= pa -> pa + npages va size * 4096 <= 2 ^ 32 -> 0 <= perm < 4096 ->
  (forall v, va / 4096 <= v / 4096 <= (va + size - 1) / 4096 -> Z.land (pte (kmem_mem s) T v) PTE_P = 0) ->
  exists r s' L' T' j, mappages pgdir va size pa perm s = Ok r s' /\ extends s L T s' L' T' pgdir /\ tables_above (PDX va) T T'
    /\ mapped_to (kmem_mem s) T (kmem_mem s') T' (va / 4096 * 4096) pa perm j
    /\ ((r = 0 /\ j = npages va size) \/ (r = -1 /\ L' = [] /\ 0 <= j < npages va size)).
Proof. apply mappages_spec. Qed.
End vm_thm.

(** ** A concrete address space

    An empty page directory with one free page. *)
Definition vm_dir : Z := KERNBASE + 4096.
Definition vm_tab : Z := KERNBASE + 8192.
Definition vm_frame : Z := KERNBASE + 12288.
Definition vm_top : Z := 65536.
Definition vm0 : kstate := KState (fun _ => 0) false vm_tab (boot_state true).

Lemma vm0_pages : Forall (page_ok KERNBASE vm_top) [vm_dir; vm_tab; vm_frame].
Proof. repeat constructor; vm_compute; congruence. Qed.

Lemma vm0_kinv : kinv KERNBASE vm_top vm0 [vm_tab].
Proof.
  pose proof vm0_pages as Hp. apply Forall_cons in Hp as [_ Hp]. apply Forall_cons in Hp as [Hp _].
  split; cbn [vm0 kmem_mem freelist klocks].
  - split; reflexivity.
  - repeat constructor. apply not_elem_of_nil.
  - constructor; [exact Hp | constructor].
  - exists true, 0. apply boot_inv.
  - reflexivity.
Qed.

Lemma vm0_ptable : ptable KERNBASE vm_top (kmem_mem vm0) vm_dir ∅.
Proof.
  pose proof vm0_pages as Hp. apply Forall_cons in Hp as [Hp _].
  split; [exact Hp | intros x p H; rewrite lookup_empty in H; discriminate | reflexivity | intros x y p H; rewrite lookup_empty in H; discriminate].
Qed.

Lemma vm0_owned : owned vm_dir ∅ [vm_tab].
Proof.
  split; [|intros x p H; rewrite lookup_empty in H; discriminate]. apply not_elem_of_cons. split; [discriminate | apply not_elem_of_nil].
Qed.

(** The run maps the page (12288 is [V2P vm_frame]). *)
Lemma vm0_maps : (match mappages vm_dir 4096 4096 12288 6 vm0 with Ok r _ => r =? 0 | _ => false end) = true.
Proof. vm_compute. reflexivity. Qed.

Lemma mappages_correct_witness :
  exists s' T', mappages vm_dir 4096 4096 12288 6 vm0 = Ok 0 s' /\ pte (kmem_mem s') T' 5000 = V2P vm_frame + 7
    /\ pte (kmem_mem s') T' 9000 = 0 /\ ptable KERNBASE vm_top (kmem_mem s') vm_dir T'.
Proof.
  destruct (mappages_correct KERNBASE vm_top (Z.le_refl _) vm0 [vm_tab] ∅ vm_dir 4096 4096 12288 6
    vm0_kinv vm0_ptable vm0_owned) as (r & s' & L' & T' & j & E & X & _ & Hm & Hr); [lia | lia | lia | reflexivity | lia | vm_compute; congruence | lia | |].
  { intros v _. unfold pte. rewrite lookup_empty. reflexivity. }
  pose proof vm0_maps as C. rewrite E in C. apply Z.eqb_eq in C as ->. destruct Hr as [[_ ->] | [[=] _]].
  exists s', T'. split_and!; [exact E | rewrite Hm by lia; reflexivity | rewrite Hm by lia; unfold pte; rewrite lookup_empty; reflexivity | apply X].
Defined.
