(* ===== verification/VmUser.v ===== *)
(** * User memory (src/kernel/mm/vm.c: uva2ka, copyout)

    [uaddr m T va] is the kernel address of the byte at user address [va] under
    the page tables [T].  [uspace] says that the user pages are pages of their
    own: no two user pages, and no user page and page table, share a frame.
    Under it copyout is exactly an update of user memory. *)
From Stdlib Require Import ZArith Lia.
From stdpp Require Import base numbers list gmap strings.
From S2P Require Import Prelude KString Locks Kalloc Vm VmThm.
Local Open Scope Z_scope.

Lemma poke_spec src : forall m p x,
  poke m p src x = if inside p (Z.of_nat (length src)) x then nth (Z.to_nat (x - p)) src 0 else m x.
Proof.
  induction src as [|b src IH]; intros m p x; cbn [poke length]; [inside_cases; [lia | reflexivity]|].
  rewrite IH. inside_cases; inside_cases; upd_cases; try lia; try reflexivity.
  - replace (Z.to_nat (x - p)) with (S (Z.to_nat (x - (p + 1)))) by lia. reflexivity.
  - rewrite Z.sub_diag. reflexivity.
Qed.

Lemma kpoke_Ok p src s : kpoke p src s = Ok tt (KState (poke (kmem_mem s) p src) (use_lock s) (freelist s) (klocks s)).
Proof. reflexivity. Qed.

Definition user (e : Z) : bool := nz (Z.land e PTE_P) && nz (Z.land e PTE_U).
Definition upage (m : mem) (T : gmap Z Z) (va : Z) : Z := P2V (PTE_ADDR (pte m T va)).
Definition uaddr (m : mem) (T : gmap Z Z) (va : Z) : Z := upage m T va + va mod 4096.

(** [n] bytes at user address [va]. *)
Definition ubytes (m : mem) (T : gmap Z Z) (va : Z) (n : nat) : list Z :=
  map (fun i => m (uaddr m T (va + Z.of_nat i))) (seq 0 n).

Section vm_user.
Context (kend PHYSTOP : Z) (Hkend : KERNBASE <= kend).
#[local] Abbreviation page_ok := (page_ok kend PHYSTOP).
#[local] Abbreviation kinv := (kinv kend PHYSTOP).
#[local] Abbreviation ptable := (ptable kend PHYSTOP).

Record uspace (m : mem) (pgdir : Z) (T : gmap Z Z) : Prop := Uspace {
  us_page : forall va, 0 <= va < 2 ^ 32 -> user (pte m T va) = true ->
    page_ok (upage m T va) /\ upage m T va <> pgdir /\ (forall x p, T !! x = Some p -> upage m T va <> p);
  us_inj : forall va va', 0 <= va < 2 ^ 32 -> 0 <= va' < 2 ^ 32 -> user (pte m T va) = true -> user (pte m T va') = true ->
    upage m T va = upage m T va' -> va / 4096 = va' / 4096
}.

(** Addresses on one page have one entry. *)
Lemma pte_page m T va va' : 0 <= va < 2 ^ 32 -> 0 <= va' < 2 ^ 32 -> va / 4096 = va' / 4096 -> pte m T va = pte m T va'.
Proof. intros H H' E. unfold pte. rewrite !PDX_div, !PTX_mod, E by assumption. reflexivity. Qed.

Lemma user_table m T va : user (pte m T va) = true -> exists p, T !! PDX va = Some p.
Proof. unfold pte. destruct (T !! PDX va) as [p|]; [eauto | intros [=]]. Qed.

(** ** uva2ka *)

Lemma uva2ka_table s pgdir T va p :
  ptable (kmem_mem s) pgdir T -> T !! PDX va = Some p ->
  uva2ka pgdir va s = Ok (if user (pte (kmem_mem s) T va) then upage (kmem_mem s) T va else 0) s.
Proof.
  intros HT Hp. destruct (pt_tab _ _ _ _ _ HT _ _ Hp) as (_ & (_ & Hp0 & _) & _). pose proof (PTX_range va).
  unfold uva2ka, user, upage, nz. rewrite (bind_step _ _ _ _ _ (walk_found kend PHYSTOP Hkend s pgdir va T HT false p Hp)).
  rewrite (bind_step _ _ _ _ _ (load_Ok s (p + 4 * PTX va) ltac:(lia))). unfold pte. rewrite Hp.
  destruct (Z.land _ PTE_P =? 0); [reflexivity|]. destruct (Z.land _ PTE_U =? 0); reflexivity.
Qed.

(** Without a page table for [va] the null entry is dereferenced. *)
Lemma uva2ka_no_table s pgdir T va :
  ptable (kmem_mem s) pgdir T -> T !! PDX va = None -> uva2ka pgdir va s = Fault "null pointer".
Proof.
  intros HT Hp. unfold uva2ka. rewrite (bind_step _ _ _ _ _ (walk_absent kend PHYSTOP s pgdir va T HT Hp)). reflexivity.
Qed.

(** ** copyout *)

(** A change of memory inside user pages keeps the page tables. *)
Definition in_user (m : mem) (T : gmap Z Z) (x : Z) : Prop :=
  exists va, 0 <= va < 2 ^ 32 /\ user (pte m T va) = true /\ in_page (upage m T va) x.

Section frame.
Context (m m' : mem) (pgdir : Z) (T : gmap Z Z).
Context (HT : ptable m pgdir T) (HU : uspace m pgdir T) (Hfr : forall x, ~ in_user m T x -> m' x = m x).

Lemma user_frame_table i p x : T !! i = Some p -> in_page p x -> m' x = m x.
Proof.
  intros Hp Hx. apply Hfr. intros (va & Hva & Hu & Hy). destruct (us_page _ _ _ HU va Hva Hu) as (Hok & _ & Hne).
  destruct (pt_tab _ _ _ _ _ HT _ _ Hp) as (_ & Hpok & _).
  exact (pages_apart kend PHYSTOP _ p x Hok Hpok (Hne _ _ Hp) Hy Hx).
Qed.

Lemma user_frame_pte va : pte m' T va = pte m T va.
Proof. apply pte_frame. exact user_frame_table. Qed.

Lemma user_frame_ptable : ptable m' pgdir T.
Proof.
  apply (ptable_frame kend PHYSTOP m); [exact HT|]. intros x Hx. apply Hfr. intros (va & Hva & Hu & Hy).
  destruct (us_page _ _ _ HU va Hva Hu) as (Hok & Hne & _).
  exact (pages_apart kend PHYSTOP _ pgdir x Hok (pt_dir _ _ _ _ _ HT) Hne Hy Hx).
Qed.

Lemma user_frame_uspace : uspace m' pgdir T.
Proof.
  destruct HU as [H1 H2]. split; intros *; unfold upage; rewrite ?user_frame_pte; [apply H1 | apply H2].
Qed.
End frame.

Lemma uaddr_page m T va : in_page (upage m T va) (uaddr m T va).
Proof. unfold in_page, uaddr, PGSIZE. pose proof (Z.mod_pos_bound va 4096 ltac:(lia)). lia. Qed.

(** User addresses are distinct kernel addresses. *)
Lemma uaddr_inj m pgdir T va va' :
  uspace m pgdir T -> 0 <= va < 2 ^ 32 -> 0 <= va' < 2 ^ 32 -> user (pte m T va) = true -> user (pte m T va') = true ->
  uaddr m T va = uaddr m T va' -> va = va'.
Proof.
  intros HU Hva Hva' Hu Hu' E. destruct (us_page _ _ _ HU va Hva Hu) as (Hok & _). destruct (us_page _ _ _ HU va' Hva' Hu') as (Hok' & _).
  pose proof (uaddr_page m T va) as P. pose proof (uaddr_page m T va') as P'. rewrite <-E in P'.
  assert (upage m T va = upage m T va') as Ep.
  { destruct (Z.eq_dec (upage m T va) (upage m T va')) as [|Hne]; [assumption|].
    destruct (pages_apart kend PHYSTOP _ _ _ Hok Hok' Hne P P'). }
  pose proof (us_inj _ _ _ HU va va' Hva Hva' Hu Hu' Ep). unfold uaddr in E.
  pose proof (Z.div_mod va 4096 ltac:(lia)). pose proof (Z.div_mod va' 4096 ltac:(lia)). lia.
Qed.

(** The state after the bytes [buf] were stored at user address [va]. *)
Definition stored (s s' : kstate) (T : gmap Z Z) (va : Z) (buf : list Z) : Prop :=
  use_lock s' = use_lock s /\ freelist s' = freelist s /\ klocks s' = klocks s
  /\ (forall x, ~ in_user (kmem_mem s) T x -> kmem_mem s' x = kmem_mem s x)
  /\ (forall v, 0 <= v < 2 ^ 32 -> user (pte (kmem_mem s) T v) = true ->
        kmem_mem s' (uaddr (kmem_mem s) T v) =
          if inside va (Z.of_nat (length buf)) v then nth (Z.to_nat (v - va)) buf 0 else kmem_mem s (uaddr (kmem_mem s) T v)).

(** Bytes within one page. *)
Lemma poke_stored s pgdir T va buf :
  uspace (kmem_mem s) pgdir T -> 0 <= va < 2 ^ 32 -> user (pte (kmem_mem s) T va) = true ->
  va mod 4096 + Z.of_nat (length buf) <= 4096 ->
  stored s (KState (poke (kmem_mem s) (uaddr (kmem_mem s) T va) buf) (use_lock s) (freelist s) (klocks s)) T va buf.
Proof.
  intros HU Hva Hu Hlen. pose proof (Z.mod_pos_bound va 4096 ltac:(lia)).
  unfold stored. cbn [kmem_mem use_lock freelist klocks]. split_and!; try reflexivity.
  - intros x Hx. rewrite poke_spec. inside_cases; [|reflexivity]. destruct Hx. exists va. split_and!; auto; try lia.
    unfold uaddr in *. unfold in_page, PGSIZE. lia.
  - intros v Hv Hu'. rewrite poke_spec. assert (0 <= va - va mod 4096 <= va) as Hb by (pose proof (Z.mod_le va 4096); lia).
    assert (forall d, 0 <= d < 4096 - va mod 4096 -> uaddr (kmem_mem s) T (va + d) = uaddr (kmem_mem s) T va + d) as Hoff.
    { intros d Hd. assert ((va + d) / 4096 = va / 4096 /\ (va + d) mod 4096 = va mod 4096 + d) as [Ed Em]
        by (Z.div_mod_to_equations; lia).
      unfold uaddr, upage. rewrite Em, (pte_page _ _ (va + d) va); [lia | | assumption | exact Ed].
      change (2 ^ 32) with 4294967296 in *. Z.div_mod_to_equations; lia. }
    assert (forall d, uaddr (kmem_mem s) T v = uaddr (kmem_mem s) T va + d -> 0 <= d < Z.of_nat (length buf) -> v = va + d) as Hinv.
    { intros d Ed Hd. assert (0 <= va + d < 2 ^ 32) by (change (2 ^ 32) with 4294967296 in *; Z.div_mod_to_equations; lia).
      apply (uaddr_inj (kmem_mem s) pgdir T); auto; [|rewrite Hoff by lia; exact Ed].
      rewrite (pte_page _ _ (va + d) va); auto. Z.div_mod_to_equations; lia. }
    inside_cases; inside_cases; try reflexivity.
    + rewrite (Hinv (uaddr (kmem_mem s) T v - uaddr (kmem_mem s) T va)) at 2 by lia. f_equal. lia.
    + pose proof (Hinv (uaddr (kmem_mem s) T v - uaddr (kmem_mem s) T va)). lia.
    + exfalso. assert (uaddr (kmem_mem s) T v = uaddr (kmem_mem s) T va + (v - va)) as Ev; [|lia].
      rewrite <-(Hoff (v - va)) by lia. f_equal. lia.
Qed.

Lemma stored_nil s T va : stored s s T va [].
Proof. unfold stored. split_and!; auto. intros v Hv Hu. inside_cases; [cbn in *; lia | reflexivity]. Qed.

Lemma stored_app s s1 s2 pgdir T va buf1 buf2 :
  ptable (kmem_mem s) pgdir T -> uspace (kmem_mem s) pgdir T ->
  stored s s1 T va buf1 -> stored s1 s2 T (va + Z.of_nat (length buf1)) buf2 -> stored s s2 T va (buf1 ++ buf2).
Proof.
  intros HT HU (A1 & A2 & A3 & A4 & A5) (B1 & B2 & B3 & B4 & B5).
  pose proof (user_frame_pte (kmem_mem s) (kmem_mem s1) pgdir T HT HU A4) as Ep.
  assert (forall v, uaddr (kmem_mem s1) T v = uaddr (kmem_mem s) T v) as Eu by (intros v; unfold uaddr, upage; rewrite Ep; reflexivity).
  unfold stored. split_and!; try congruence.
  - intros x Hx. rewrite B4; [apply A4, Hx|]. intros (v & Hv & Hu & Hp). apply Hx. exists v.
    unfold upage in *. rewrite Ep in Hu, Hp. auto.
  - intros v Hv Hu. specialize (B5 v Hv). rewrite Ep, Eu in B5. rewrite (B5 Hu), (A5 v Hv Hu), length_app.
    inside_cases; inside_cases; try inside_cases; try lia; try reflexivity.
    + rewrite app_nth2 by lia. f_equal. lia.
    + rewrite app_nth1 by lia. reflexivity.
Qed.

(** The first address of a page, and the bytes from [va] to its end. *)
Lemma page_start va : 0 <= va < 2 ^ 32 ->
  0 <= va mod 4096 < 4096 /\ 0 <= va - va mod 4096 /\ (va - va mod 4096) / 4096 = va / 4096 /\ (va - va mod 4096) mod 4096 = 0
  /\ PDX (va - va mod 4096) = PDX va.
Proof.
  intros Hva. pose proof (Z.mod_pos_bound va 4096 ltac:(lia)). pose proof (Z.mod_le va 4096 ltac:(lia) ltac:(lia)).
  assert ((va - va mod 4096) / 4096 = va / 4096 /\ (va - va mod 4096) mod 4096 = 0) as [E1 E2] by (Z.div_mod_to_equations; lia).
  split_and!; try lia; try assumption. rewrite !PDX_div, E1 by lia. reflexivity.
Qed.

Definition chunk (va : Z) (buf : list Z) : nat := Z.to_nat (Z.min (4096 - va mod 4096) (Z.of_nat (length buf))).

(** One turn of copyout's loop on a page with a table. *)
Lemma copyout_turn s pgdir T fuel va buf :
  ptable (kmem_mem s) pgdir T -> uspace (kmem_mem s) pgdir T -> 0 <= va < 2 ^ 32 -> buf <> [] -> is_Some (T !! PDX va) ->
  if user (pte (kmem_mem s) T va) then
    exists s1, copyout_loop (S fuel) pgdir va buf s = copyout_loop fuel pgdir (u32 (va - va mod 4096 + 4096)) (drop (chunk va buf) buf) s1
      /\ stored s s1 T va (take (chunk va buf) buf)
  else copyout_loop (S fuel) pgdir va buf s = Ok (-1) s.
Proof.
  intros HT HU Hva Hne [p Hp]. destruct (page_start va Hva) as (Hm & H0 & Ed & _ & Epd). set (va0 := va - va mod 4096) in *.
  assert (0 <= va0 < 2 ^ 32) as Hva0 by lia. pose proof (pte_page (kmem_mem s) T va0 va Hva0 Hva Ed) as Ep.
  assert (upage (kmem_mem s) T va0 = upage (kmem_mem s) T va) as Eup by (unfold upage; rewrite Ep; reflexivity).
  rewrite <-Epd in Hp. cbn [copyout_loop]. rewrite (proj2 (Z.leb_gt _ _)) by (destruct buf; [contradiction | cbn; lia]).
  cbv zeta. rewrite PGROUNDDOWN_spec. fold va0.
  rewrite (bind_step _ _ _ _ _ (uva2ka_table s pgdir T va0 p HT Hp)), Ep, Eup.
  destruct (user (pte (kmem_mem s) T va)) eqn:Hu; [|reflexivity].
  destruct (us_page _ _ _ HU va Hva Hu) as ((_ & Hpos & _) & _). rewrite (proj2 (Z.eqb_neq _ _)) by lia.
  replace (va - va0) with (va mod 4096) by (subst va0; lia). fold (uaddr (kmem_mem s) T va). unfold PGSIZE. fold (chunk va buf).
  rewrite (bind_step _ _ _ _ _ (kpoke_Ok _ _ s)). eexists. split; [reflexivity|].
  apply (poke_stored s pgdir); auto. rewrite length_take. unfold chunk. lia.
Qed.

(** copyout stores the longest prefix of [buf] that lies on user pages, page by
    page, and says whether that was all of it. *)
Definition stops (m : mem) (T : gmap Z Z) (va : Z) (n len : nat) : Prop :=
  n = len \/ ((n < len)%nat /\ (n = 0%nat \/ (va + Z.of_nat n) mod 4096 = 0)
     /\ user (pte m T (va + Z.of_nat n)) = false /\ is_Some (T !! PDX (va + Z.of_nat n))).

Lemma copyout_loop_spec pgdir T fuel : forall s va buf n,
  ptable (kmem_mem s) pgdir T -> uspace (kmem_mem s) pgdir T ->
  0 <= va < 2 ^ 32 -> buf = [] \/ va + Z.of_nat (length buf) <= 2 ^ 32 -> (n <= length buf)%nat ->
  (forall v, va <= v < va + Z.of_nat n -> user (pte (kmem_mem s) T v) = true) ->
  stops (kmem_mem s) T va n (length buf) ->
  (buf = [] \/ va mod 4096 + Z.of_nat (length buf) <= 4096 * Z.of_nat fuel) ->
  exists s', copyout_loop (S fuel) pgdir va buf s = Ok (if (n =? length buf)%nat then 0 else -1) s'
    /\ stored s s' T va (take n buf).
Proof.
  induction fuel as [|fuel IH]; intros s va buf n HT HU Hva Hend Hn Huser Hstop Hfuel; destruct (page_start va Hva) as (Hm & H0 & Ed & Em & _).
  all: destruct (decide (buf = [])) as [-> | Hne]; [exists s; assert (n = 0%nat) as -> by (cbn in Hn; lia); split; [reflexivity | apply stored_nil]|].
  all: assert (0 < Z.of_nat (length buf)) as Hlen by (destruct buf; [contradiction | cbn; lia]).
  all: destruct Hfuel as [? | Hf]; [contradiction|]; destruct Hend as [? | Hend]; [contradiction|].
  { lia. }
  assert (is_Some (T !! PDX va)) as Htab.
  { destruct n as [|n]; [|destruct (user_table (kmem_mem s) T va) as [p Hp]; [apply Huser; lia | eauto]].
    destruct Hstop as [? | (_ & _ & _ & Hp)]; [lia|]. rewrite Z.add_0_r in Hp. exact Hp. }
  pose proof (copyout_turn s pgdir T (S fuel) va buf HT HU Hva Hne Htab) as Hturn. destruct n as [|n'].
  { destruct Hstop as [? | (_ & _ & Hu & _)]; [lia|]. rewrite Z.add_0_r in Hu. rewrite Hu in Hturn. exists s.
    rewrite Hturn. destruct buf; [contradiction|]. split; [reflexivity | apply stored_nil]. }
  set (n := S n') in *. rewrite (Huser va) in Hturn by lia. destruct Hturn as (s1 & -> & St1).
  destruct St1 as (St1a & St1b & St1c & Hfr & St1d). set (c := chunk va buf) in *.
  assert (c <= n)%nat as Hcn.
  { destruct Hstop as [-> | (_ & [? | Hn0] & _)]; [unfold c, chunk; lia | lia|].
    destruct (decide (c <= n)%nat) as [|Hlt]; [assumption | exfalso]. unfold c, chunk in Hlt. Z.div_mod_to_equations; lia. }
  assert (length (take c buf) = c) as Hlc by (rewrite length_take; unfold c, chunk; lia).
  pose proof (user_frame_pte (kmem_mem s) (kmem_mem s1) pgdir T HT HU Hfr) as Ep.
  set (va1 := u32 (va - va mod 4096 + 4096)).
  assert (0 <= va1 < 2 ^ 32 /\ va1 mod 4096 = 0) as [Hva1 Hva1m].
  { split; [apply (uwrap_range 32); lia|]. unfold va1, uwrap. change (2 ^ 32) with 4294967296. Z.div_mod_to_equations; lia. }
  assert (drop c buf = [] \/ va1 = va + Z.of_nat c) as Hnext.
  { destruct (decide (c = length buf)) as [E | Hc]; [left; rewrite E, drop_all; reflexivity|]. right. unfold va1, c, chunk in *.
    rewrite (uwrap_id 32); [lia|]. unfold in_u. change (2 ^ 32) with 4294967296 in *. Z.div_mod_to_equations; lia. }
  destruct (IH s1 va1 (drop c buf) (n - c)%nat) as (s2 & E2 & St2).
  - exact (user_frame_ptable _ _ _ _ HT HU Hfr).
  - exact (user_frame_uspace _ _ _ _ HT HU Hfr).
  - exact Hva1.
  - rewrite length_drop. destruct Hnext as [-> | ->]; [left; reflexivity | right; lia].
  - rewrite length_drop. lia.
  - intros v Hv. rewrite Ep. destruct Hnext as [E | E]; [|apply Huser; lia].
    apply (f_equal length) in E. rewrite length_drop in E. cbn in E. lia.
  - unfold stops in *. rewrite length_drop, Ep. destruct Hstop as [? | (Hlt & Hmod & Hu & Hp)]; [left; lia|]. right.
    destruct Hnext as [E | E]; [apply (f_equal length) in E; rewrite length_drop in E; cbn in E; lia|].
    replace (va1 + Z.of_nat (n - c)) with (va + Z.of_nat n) by lia. split_and!; auto; [lia|]. right. destruct Hmod; [lia | assumption].
  - destruct Hnext as [-> | E]; [left; reflexivity | right]. rewrite Hva1m, length_drop. unfold va1, c, chunk in *. lia.
  - exists s2. split.
    + rewrite E2, length_drop. do 2 f_equal. destruct (Nat.eqb_spec (n - c) (length buf - c)), (Nat.eqb_spec n (length buf)); lia || reflexivity.
    + replace (take n buf) with (take c buf ++ take (n - c) (drop c buf)) by (rewrite take_take_drop; f_equal; lia).
      apply (stored_app s s1 s2 pgdir); auto; [unfold stored; auto|]. rewrite Hlc. destruct Hnext as [E | <-]; [|exact St2].
      rewrite E in *. rewrite take_nil in *. destruct St2 as (B1 & B2 & B3 & B4 & B5). unfold stored. split_and!; auto.
      intros v Hv Hu. rewrite (B5 v Hv Hu). inside_cases; inside_cases; cbn in *; lia || reflexivity.
Qed.

(** An address space whose user pages are its own and not free. *)
Record uas (s : kstate) (L : list Z) (pgdir : Z) (T : gmap Z Z) : Prop := Uas {
  ua_kinv : kinv s L;
  ua_pt : ptable (kmem_mem s) pgdir T;
  ua_us : uspace (kmem_mem s) pgdir T;
  ua_own : forall v p, 0 <= v < 2 ^ 32 -> user (pte (kmem_mem s) T v) = true -> p ∈ L -> upage (kmem_mem s) T v <> p
}.

(** Storing into user memory keeps the address space. *)
Lemma stored_uas s s' L pgdir T va buf : uas s L pgdir T -> stored s s' T va buf ->
  uas s' L pgdir T /\ (forall v, pte (kmem_mem s') T v = pte (kmem_mem s) T v).
Proof.
  intros [HI HT HU Hfree] (A1 & A2 & A3 & A4 & _). pose proof (user_frame_pte _ _ _ _ HT HU A4) as Ep. split; [|exact Ep]. split.
  - replace s' with (KState (kmem_mem s') (use_lock s) (freelist s) (klocks s)) by (destruct s'; cbn in *; congruence).
    apply (kinv_mem kend PHYSTOP); [exact HI|]. intros p x Hp Hx. apply A4. intros (v & Hv & Hu & Hy).
    destruct (us_page _ _ _ HU v Hv Hu) as (Hok & _). pose proof (k_pages _ _ _ _ HI) as HpL. rewrite Forall_forall in HpL.
    exact (pages_apart kend PHYSTOP _ p x Hok (HpL p Hp) (Hfree v p Hv Hu Hp) Hy Hx).
  - exact (user_frame_ptable _ _ _ _ HT HU A4).
  - exact (user_frame_uspace _ _ _ _ HT HU A4).
  - intros v p Hv Hu Hp. unfold upage. rewrite Ep in *. apply Hfree; assumption.
Qed.

(** [n] bytes of [buf] are stored. *)
Lemma copyout_spec s L pgdir T va buf n :
  uas s L pgdir T -> 0 <= va < 2 ^ 32 -> va + Z.of_nat (length buf) <= 2 ^ 32 -> (n <= length buf)%nat ->
  (forall v, va <= v < va + Z.of_nat n -> user (pte (kmem_mem s) T v) = true) ->
  stops (kmem_mem s) T va n (length buf) ->
  exists s', copyout pgdir va buf s = Ok (if (n =? length buf)%nat then 0 else -1) s'
    /\ stored s s' T va (take n buf) /\ uas s' L pgdir T /\ (forall v, pte (kmem_mem s') T v = pte (kmem_mem s) T v).
Proof.
  intros HA Hva Hend Hn Huser Hstop. unfold copyout.
  replace (Z.to_nat (Z.of_nat (length buf) / PGSIZE) + 3)%nat with (S (Z.to_nat (Z.of_nat (length buf) / PGSIZE) + 2)) by lia.
  destruct (copyout_loop_spec pgdir T (Z.to_nat (Z.of_nat (length buf) / PGSIZE) + 2) s va buf n) as (s' & E & St); try apply HA; auto.
  { right. unfold PGSIZE. pose proof (Z.mod_pos_bound va 4096 ltac:(lia)). Z.div_mod_to_equations; lia. }
  exists s'. destruct (stored_uas s s' L pgdir T va (take n buf) HA St) as [HA' Ep]. auto.
Qed.

(** All of [buf] is stored. *)
Lemma copyout_all s L pgdir T va buf :
  uas s L pgdir T -> 0 <= va < 2 ^ 32 -> va + Z.of_nat (length buf) <= 2 ^ 32 ->
  (forall v, va <= v < va + Z.of_nat (length buf) -> user (pte (kmem_mem s) T v) = true) ->
  exists s', copyout pgdir va buf s = Ok 0 s'
    /\ stored s s' T va buf /\ uas s' L pgdir T /\ (forall v, pte (kmem_mem s') T v = pte (kmem_mem s) T v).
Proof.
  intros HA Hva Hend Hu. destruct (copyout_spec s L pgdir T va buf (length buf)) as (s' & E & St & H); auto; [left; reflexivity|].
  rewrite Nat.eqb_refl in E. rewrite firstn_all in St. exists s'. auto.
Qed.

(** C26. copyout to [va] in an address space with private user pages: it stores the
    longest prefix of the buffer that lies on user pages ([n] bytes), returns 0
    when that is all of it and -1 otherwise, and changes no other byte of user
    memory, of the page tables or of the free pages. *)
Theorem copyout_correct s L pgdir T va buf n :
  uas s L pgdir T -> 0 <= va < 2 ^ 32 -> va + Z.of_nat (length buf) <= 2 ^ 32 -> (n <= length buf)%nat ->
  (forall v, va <= v < va + Z.of_nat n -> user (pte (kmem_mem s) T v) = true) ->
  stops (kmem_mem s) T va n (length buf) ->
  exists s', copyout pgdir va buf s = Ok (if (n =? length buf)%nat then 0 else -1) s'
    /\ stored s s' T va (take n buf) /\ uas s' L pgdir T /\ (forall v, pte (kmem_mem s') T v = pte (kmem_mem s) T v).
Proof. apply copyout_spec. Qed.

(** An address no page table covers is not an error of copyout but a fault of
    the kernel: uva2ka reads through the null entry that walkpgdir returned. *)
Theorem copyout_no_table_faults s pgdir T va buf :
  ptable (kmem_mem s) pgdir T -> 0 <= va < 2 ^ 32 -> buf <> [] -> T !! PDX va = None ->
  copyout pgdir va buf s = Fault "null pointer".
Proof.
  intros HT Hva Hne Hp. destruct (page_start va Hva) as (_ & _ & _ & _ & Epd). unfold copyout.
  replace (Z.to_nat (Z.of_nat (length buf) / PGSIZE) + 3)%nat with (S (Z.to_nat (Z.of_nat (length buf) / PGSIZE) + 2)) by lia.
  cbn [copyout_loop]. rewrite (proj2 (Z.leb_gt _ _)) by (destruct buf; [contradiction | cbn; lia]).
  cbv zeta. rewrite PGROUNDDOWN_spec. unfold mbind, M_bind at 1.
  rewrite (uva2ka_no_table s pgdir T) by (assumption || rewrite Epd; assumption). reflexivity.
Qed.
End vm_user.

(** ** A concrete address space

    The state of vm0 with the page at 4096 mapped to [vm_frame]. *)
Lemma vm1_exists :
  exists s L T, uas KERNBASE vm_top s L vm_dir T
    /\ (forall v, 0 <= v < 2 ^ 32 -> pte (kmem_mem s) T v = if (4096 <=? v) && (v <? 8192) then 12288 + 7 else 0).
Proof.
  destruct (mappages_spec KERNBASE vm_top (Z.le_refl _) vm0 [vm_tab] ∅ vm_dir 4096 4096 12288 6
    vm0_kinv vm0_ptable vm0_owned) as (r & s' & L' & T' & j & E & X & _ & Hm & Hr); [lia | lia | lia | reflexivity | lia | vm_compute; congruence | lia | |].
  { intros v _. unfold pte. rewrite lookup_empty. reflexivity. }
  pose proof vm0_maps as C. rewrite E in C. apply Z.eqb_eq in C as ->. destruct Hr as [[_ ->] | [[=] _]].
  assert (forall v, 0 <= v < 2 ^ 32 -> pte (kmem_mem s') T' v = if (4096 <=? v) && (v <? 8192) then 12288 + 7 else 0) as Hp.
  { intros v Hv. rewrite Hm by exact Hv. change (4096 / 4096 * 4096) with 4096. change (4096 + npages 4096 4096 * 4096) with 8192.
    destruct ((4096 <=? v) && (v <? 8192)) eqn:C2.
    - apply andb_true_iff in C2 as [C2 C3]. apply Z.leb_le in C2. apply Z.ltb_lt in C3.
      replace (v / 4096) with 1 by (Z.div_mod_to_equations; lia). reflexivity.
    - unfold pte. rewrite lookup_empty. reflexivity. }
  assert (forall v, 0 <= v < 2 ^ 32 -> user (pte (kmem_mem s') T' v) = true -> upage (kmem_mem s') T' v = vm_frame /\ v / 4096 = 1) as Hu.
  { intros v Hv Hu. unfold upage. rewrite Hp in * by exact Hv. destruct ((4096 <=? v) && (v <? 8192)) eqn:C2; [|discriminate].
    apply andb_true_iff in C2 as [C2 C3]. apply Z.leb_le in C2. apply Z.ltb_lt in C3. split; [reflexivity | Z.div_mod_to_equations; lia]. }
  exists s', L', T'. split; [|exact Hp]. split; try apply X.
  - pose proof vm0_pages as Hpg. rewrite Forall_forall in Hpg. split.
    + intros v Hv Hu'. destruct (Hu v Hv Hu') as [-> _]. split_and!; [apply Hpg; do 2 right; constructor | discriminate|].
      intros x p Hx. destruct (ex_new _ _ _ _ _ _ _ _ _ X x p Hx) as [H | H]; [rewrite lookup_empty in H; discriminate|].
      apply list_elem_of_singleton in H as ->. discriminate.
    + intros v v' Hv Hv' H H' _. destruct (Hu v Hv H) as [_ ->]. destruct (Hu v' Hv' H') as [_ ->]. reflexivity.
  - intros v p Hv Hu' H. destruct (Hu v Hv Hu') as [-> _]. apply (elem_of_suffix p L' [vm_tab]) in H; [|apply X].
    apply list_elem_of_singleton in H as ->. discriminate.
Qed.

Lemma vm1_user s T : (forall v, 0 <= v < 2 ^ 32 -> pte (kmem_mem s) T v = if (4096 <=? v) && (v <? 8192) then 12288 + 7 else 0) ->
  forall v, 4096 <= v < 8192 -> user (pte (kmem_mem s) T v) = true.
Proof. intros Hp v Hv. rewrite Hp by lia. rewrite (proj2 (Z.leb_le _ _)), (proj2 (Z.ltb_lt _ _)) by lia. reflexivity. Qed.

(** The bytes stored are the bytes read back. *)
Lemma stored_ubytes s s' T va buf :
  stored s s' T va buf -> (forall v, pte (kmem_mem s') T v = pte (kmem_mem s) T v) ->
  0 <= va -> va + Z.of_nat (length buf) <= 2 ^ 32 ->
  (forall v, va <= v < va + Z.of_nat (length buf) -> user (pte (kmem_mem s) T v) = true) ->
  ubytes (kmem_mem s') T va (length buf) = buf.
Proof.
  intros (_ & _ & _ & _ & St) Ep Hva Hend Hu. unfold ubytes. apply (nth_ext _ _ 0 0); [rewrite length_map, length_seq; reflexivity|].
  intros i Hi. rewrite length_map, length_seq in Hi.
  rewrite (nth_indep _ 0 (kmem_mem s' (uaddr (kmem_mem s') T (va + Z.of_nat 0)))) by (rewrite length_map, length_seq; exact Hi).
  rewrite (map_nth (fun i => kmem_mem s' (uaddr (kmem_mem s') T (va + Z.of_nat i))) (seq 0 (length buf)) 0%nat), seq_nth by exact Hi.
  cbn [Nat.add]. unfold uaddr, upage. rewrite Ep. fold (upage (kmem_mem s) T (va + Z.of_nat i)). fold (uaddr (kmem_mem s) T (va + Z.of_nat i)).
  rewrite St by (lia || apply Hu; lia). rewrite (proj2 (inside_true _ _ _)) by lia. f_equal. lia.
Qed.

Lemma copyout_correct_witness :
  exists s T s', copyout vm_dir 4100 [1; 2; 3] s = Ok 0 s' /\ ubytes (kmem_mem s') T 4100 3 = [1; 2; 3]
    /\ ptable KERNBASE vm_top (kmem_mem s') vm_dir T.
Proof.
  destruct vm1_exists as (s & L & T & HA & Hp). pose proof (vm1_user s T Hp) as Hu.
  destruct (copyout_correct KERNBASE vm_top (Z.le_refl _) s L vm_dir T 4100 [1; 2; 3] 3 HA) as (s' & E & St & HA' & Ep);
    [lia | cbn; lia | cbn; lia | intros v Hv; apply Hu; lia | left; reflexivity|].
  exists s, T, s'. split_and!; [exact E | | apply HA']. apply (stored_ubytes s s' T 4100 [1; 2; 3] St Ep); [lia | cbn; lia|].
  intros v Hv. cbn in Hv. apply Hu. lia.
Defined.

Lemma copyout_no_table_faults_witness : copyout vm_dir 4096 [1] vm0 = Fault "null pointer".
Proof. apply (copyout_no_table_faults KERNBASE vm_top vm0 vm_dir ∅); [exact vm0_ptable | lia | discriminate | apply lookup_empty]. Defined.
