(* ===== verification/VmSpace.v ===== *)
(** * Address spaces and their pages

    [space s L pgdir T U]: the page directory [pgdir] with its page tables [T] and its
    user pages [U] (page number, then frame and flags) is an address space of its own:
    no page of it is shared or free ([L] is the free list).  The lemmas give the effect
    on it of mapping and unmapping a user page, of deallocuvm and of freevm, which
    gives back every page exactly once. *)
From Stdlib Require Import ZArith Lia.
From stdpp Require Import base numbers list gmap sets strings.
From S2P Require Import Prelude KString Locks Kalloc Vm VmThm.
Local Open Scope Z_scope.

Definition UPAGES : Z := 786432.
Abbreviation frames := (gmap Z (Z * Z)).

(** The pages an address space is made of. *)
Definition owns (pgdir : Z) (T : gmap Z Z) (U : frames) (p : Z) : Prop :=
  p = pgdir \/ (exists x, T !! x = Some p) \/ (exists n k, U !! n = Some (p, k)).

(** [U] without the pages from [n] on below [n1]. *)
Definition trim (n n1 : Z) (U : frames) : frames := filter (fun x => ~ (n <= x.1 < n1)) U.

Lemma trim_Some n n1 (U : frames) i v : trim n n1 U !! i = Some v <-> U !! i = Some v /\ ~ (n <= i < n1).
Proof. apply map_lookup_filter_Some. Qed.

Lemma trim_nil n n1 (U : frames) : n1 <= n -> trim n n1 U = U.
Proof.
  intros Hn. apply map_eq. intros i. apply option_eq. intros v. rewrite trim_Some. split; [tauto|].
  intros H. split; [exact H | lia].
Qed.

(** The first page of the range, and the rest. *)
Lemma trim_cons n n1 (U : frames) : n < n1 -> trim n n1 U = trim (n + 1) n1 (delete n U).
Proof.
  intros Hn. apply map_eq. intros i. apply option_eq. intros v. rewrite !trim_Some, lookup_delete_Some.
  split; [intros [H Hr] | intros [[Hi H] Hr]]; split_and!; auto; lia.
Qed.

Lemma trim_skip n n' n1 (U : frames) :
  n <= n' -> (forall i, n <= i < n' -> U !! i = None) -> trim n n1 U = trim n' n1 U.
Proof.
  intros Hn Hnone. apply map_eq. intros i. apply option_eq. intros v. rewrite !trim_Some.
  split; intros [H Hr]; split; try exact H; [lia|]. intros Hr'. destruct (Z.lt_ge_cases i n'); [|lia].
  rewrite Hnone in H by lia. discriminate.
Qed.

Section space.
Context (kend PHYSTOP : Z) (Hk : KERNBASE < kend).
#[local] Abbreviation page_ok := (page_ok kend PHYSTOP).
#[local] Abbreviation kinv := (kinv kend PHYSTOP).
#[local] Abbreviation ptable := (ptable kend PHYSTOP).
Let Hkend : KERNBASE <= kend.
Proof. lia. Qed.

Record space (s : kstate) (L : list Z) (pgdir : Z) (T : gmap Z Z) (U : frames) : Prop := Space {
  sp_kinv : kinv s L;
  sp_pt : ptable (kmem_mem s) pgdir T;
  sp_own : owned pgdir T L;
  sp_page : forall n f k, U !! n = Some (f, k) -> page_ok f /\ (f ∉ L) /\ f <> pgdir /\ (forall x p, T !! x = Some p -> f <> p);
  sp_flags : forall n f k, U !! n = Some (f, k) -> 0 <= n < UPAGES /\ 0 <= k < 4096 /\ k mod 2 = 1;
  sp_inj : forall n n' f k k', U !! n = Some (f, k) -> U !! n' = Some (f, k') -> n = n';
  sp_pte : forall n, 0 <= n < UPAGES -> pte (kmem_mem s) T (n * 4096) = match U !! n with Some (f, k) => V2P f + k | None => 0 end
}.

(** The entries of the kernel's half. *)
Definition same_kernel (m : mem) (T : gmap Z Z) (m' : mem) (T' : gmap Z Z) : Prop :=
  forall va, KERNBASE <= va < 2 ^ 32 -> pte m' T' va = pte m T va.

(** An address space is not affected by what happens to other pages. *)
Lemma space_frame s L pgdir T U s' L' :
  space s L pgdir T U -> kinv s' L' -> (forall p, p ∈ L' -> ~ owns pgdir T U p) ->
  (forall x, in_tables pgdir T x -> kmem_mem s' x = kmem_mem s x) -> space s' L' pgdir T U.
Proof.
  intros [HI HT Ho Hp Hf Hi He] HI' HL Hm. split; try assumption.
  - apply (ptable_frame kend PHYSTOP (kmem_mem s)); [exact HT|]. intros x Hx. apply Hm. left. exact Hx.
  - split; [|intros x p Hx]; intros Hin; apply (HL _ Hin); [left; reflexivity | right; left; eauto].
  - intros n f k Hn. destruct (Hp n f k Hn) as (A & _ & B). split_and!; try apply B; [exact A|].
    intros Hin. apply (HL f Hin). right. right. eauto.
  - intros n Hn. rewrite <-He by exact Hn. apply pte_frame. intros i p x Hx Hin. apply Hm. right. eauto.
Qed.

Lemma space_owns_ok s L pgdir T U p : space s L pgdir T U -> owns pgdir T U p -> page_ok p /\ (p ∉ L).
Proof.
  intros [HI HT [Ho1 Ho2] Hp _ _ _] [-> | [(x & Hx) | (n & k & Hn)]].
  - split; [apply HT | exact Ho1].
  - split; [apply (pt_tab _ _ _ _ _ HT x p Hx) | exact (Ho2 x p Hx)].
  - destruct (Hp n p k Hn) as (A & B & _). auto.
Qed.

Lemma page_number n : 0 <= n < UPAGES -> 0 <= n * 4096 < 2 ^ 32 /\ n * 4096 / 4096 = n.
Proof. unfold UPAGES. intros Hn. rewrite Z.div_mul by lia. lia. Qed.

(** Reading an entry of a user page. *)
Lemma frame_entry f k : page_ok f -> 0 <= k < 4096 -> k mod 2 = 1 ->
  nz (Z.land (V2P f + k) PTE_P) = true /\ PTE_ADDR (V2P f + k) = V2P f /\ V2P f <> 0 /\ P2V (PTE_ADDR (V2P f + k)) = f.
Proof.
  intros Hf Hk0 Hk1. destruct (V2P_page kend PHYSTOP Hkend f Hf) as (E & Hm & Hlo & _).
  rewrite P_bit, Hk1 by exact Hm. split_and!; [reflexivity | apply PTE_ADDR_low; assumption | |].
  - rewrite E. destruct Hf as (_ & _ & He & _). lia.
  - apply (entry_page kend PHYSTOP Hkend); assumption.
Qed.

Lemma space_table s L pgdir T U n f k :
  space s L pgdir T U -> U !! n = Some (f, k) -> exists p, T !! PDX (n * 4096) = Some p /\ load32 (kmem_mem s) (p + 4 * PTX (n * 4096)) = V2P f + k.
Proof.
  intros HS Hn. destruct (sp_flags _ _ _ _ _ HS n f k Hn) as (Hr & Hk0 & Hk1). pose proof (sp_pte _ _ _ _ _ HS n Hr) as E.
  rewrite Hn in E. unfold pte in E. destruct (T !! PDX (n * 4096)) as [p|]; [eauto|].
  destruct (V2P_page kend PHYSTOP Hkend f (proj1 (sp_page _ _ _ _ _ HS n f k Hn))) as (_ & _ & Hlo & _).
  destruct (Z.eq_dec k 0) as [-> |]; [discriminate | lia].
Qed.

(** ** Giving back a user page *)

Lemma unmap_page s L pgdir T U n f k p :
  space s L pgdir T U -> U !! n = Some (f, k) -> T !! PDX (n * 4096) = Some p ->
  exists s1 s2, kfree kend PHYSTOP f s = Ok tt s1 /\ store (p + 4 * PTX (n * 4096)) 0 s1 = Ok tt s2
    /\ space s2 (f :: L) pgdir T (delete n U)
    /\ same_kernel (kmem_mem s) T (kmem_mem s2) T
    /\ (forall x, ~ in_tables pgdir T x -> ~ in_page f x -> kmem_mem s2 x = kmem_mem s x).
Proof.
  intros HS Hn Hp. pose proof HS as [HI HT [Ho1 Ho2] Hpg Hfl Hinj Hpte].
  destruct (Hpg n f k Hn) as (Hf & HfL & Hfd & Hft). destruct (Hfl n f k Hn) as (Hr & _). destruct (page_number n Hr) as [Hva Hdiv].
  destruct (kfree_spec kend PHYSTOP s L f HI Hf HfL) as (s1 & E1 & HI1 & _ & Em1).
  assert (forall x, ~ in_page f x -> kmem_mem s1 x = kmem_mem s x) as Hm1 by (intros x Hx; rewrite Em1; apply freed_mem_frame, Hx).
  assert (forall q x, page_ok q -> q <> f -> in_page q x -> kmem_mem s1 x = kmem_mem s x) as Hm1'.
  { intros q x Hq Hne Hx. apply Hm1. exact (pages_apart kend PHYSTOP q f x Hq Hf Hne Hx). }
  assert (ptable (kmem_mem s1) pgdir T) as HT1.
  { apply (ptable_frame kend PHYSTOP (kmem_mem s)); [exact HT|]. intros x Hx. apply (Hm1' pgdir); [apply HT | congruence | exact Hx]. }
  assert (forall va, pte (kmem_mem s1) T va = pte (kmem_mem s) T va) as Hpte1.
  { intros va. apply pte_frame. intros i q x Hq Hx. apply (Hm1' q); [apply (pt_tab _ _ _ _ _ HT i q Hq) | apply not_eq_sym, (Hft i q Hq) | exact Hx]. }
  assert (owned pgdir T (f :: L)) as Ho.
  { split; [|intros x q Hx]; apply not_elem_of_cons; split; [congruence | exact Ho1 | apply not_eq_sym, (Hft x q Hx) | exact (Ho2 x q Hx)]. }
  destruct (set_entry kend PHYSTOP s1 (f :: L) pgdir T (n * 4096) p 0 HI1 HT1 Ho Hp Hva) as (s2 & E2 & HI2 & HT2 & Hpte2 & Hm2); [unfold in_u; lia|].
  exists s1, s2. split_and!; [exact E1 | exact E2 | | |].
  - split; try assumption.
    + intros n' f' k' Hn'. apply lookup_delete_Some in Hn' as [Hne Hn']. destruct (Hpg n' f' k' Hn') as (A & B & D). split_and!; try apply D; [exact A|].
      apply not_elem_of_cons. split; [|exact B]. intros ->. apply Hne. exact (Hinj n n' f k k' Hn Hn').
    + intros n' f' k' Hn'. apply lookup_delete_Some in Hn' as [_ Hn']. exact (Hfl n' f' k' Hn').
    + intros n1 n2 f' k1 k2 H1 H2. apply lookup_delete_Some in H1 as [_ H1]. apply lookup_delete_Some in H2 as [_ H2]. exact (Hinj _ _ _ _ _ H1 H2).
    + intros n' Hn'. destruct (page_number n' Hn') as [Hva' Hdiv']. rewrite Hpte2, Hdiv, Hdiv' by exact Hva'.
      destruct (Z.eqb_spec n' n) as [-> | Hne]; [rewrite lookup_delete_eq; reflexivity|].
      rewrite Hpte1, lookup_delete_ne by congruence. apply Hpte, Hn'.
  - intros va Hvk. rewrite Hpte2 by (unfold KERNBASE in *; lia). rewrite Hpte1, Hdiv.
    destruct (Z.eqb_spec (va / 4096) n) as [E |]; [|reflexivity]. exfalso. unfold UPAGES, KERNBASE in *.
    pose proof (Z.div_le_lower_bound va 4096 786432 ltac:(lia) ltac:(lia)). lia.
  - intros x Hx Hxf. rewrite Hm2; [apply Hm1, Hxf|]. intros Hy. apply Hx. right. eauto.
Qed.

(** ** deallocuvm *)

(** The frames freed, and the memory that is still as it was. *)
Definition user_frames (n n1 : Z) (U : frames) (F : list Z) : Prop :=
  forall f, f ∈ F <-> exists i k, n <= i < n1 /\ U !! i = Some (f, k).
Definition kept_but (pgdir : Z) (T : gmap Z Z) (F : list Z) (m m' : mem) : Prop :=
  forall x, ~ in_tables pgdir T x -> (forall f, f ∈ F -> ~ in_page f x) -> m' x = m x.

(** A page number in a table that is not there: the next table starts here. *)
Lemma next_table n : 0 <= n < UPAGES ->
  let n' := (PDX (n * 4096) + 1) * 1024 in
  n < n' <= UPAGES /\ u32 (u32 (PGADDR (PDX (n * 4096) + 1) - PGSIZE) + PGSIZE) = n' * 4096
  /\ forall i, n <= i < n' -> PDX (i * 4096) = PDX (n * 4096).
Proof.
  intros Hn. destruct (page_number n Hn) as [Hva Hdiv]. unfold UPAGES in *. rewrite PDX_div, Hdiv by exact Hva.
  pose proof (Z.div_mod n 1024 ltac:(lia)). pose proof (Z.mod_pos_bound n 1024 ltac:(lia)).
  assert (0 <= n / 1024 < 768) by (split; [apply Z.div_pos; lia | apply Z.div_lt_upper_bound; lia]).
  split_and!; [lia | lia | |].
  - unfold PGADDR, PGSIZE. rewrite Z.shiftl_mul_pow2 by lia. change (2 ^ 22) with 4194304.
    rewrite (uwrap_id 32 ((n / 1024 + 1) * 4194304)) by (unfold in_u; lia).
    rewrite (uwrap_id 32 ((n / 1024 + 1) * 4194304 - 4096)) by (unfold in_u; lia). rewrite uwrap_id by (unfold in_u; lia). lia.
  - intros i Hi. rewrite PDX_div by lia. rewrite Z.div_mul by lia. symmetry. apply (Z.div_unique i 1024 _ (i - n / 1024 * 1024)); lia.
Qed.

Lemma absent_pages s L pgdir T U n n' :
  space s L pgdir T U -> T !! PDX (n * 4096) = None -> 0 <= n -> n' <= UPAGES -> (forall i, n <= i < n' -> PDX (i * 4096) = PDX (n * 4096)) ->
  forall i, n <= i < n' -> U !! i = None.
Proof.
  intros HS HT Hn Hn' Hd i Hi. destruct (U !! i) as [[f k]|] eqn:E; [|reflexivity].
  destruct (space_table s L pgdir T U i f k HS E) as (p & Hp & _). rewrite Hd in Hp by exact Hi. congruence.
Qed.

Lemma dealloc_loop_spec pgdir T n1 oldsz fuel : forall s L U n,
  space s L pgdir T U -> 0 <= n <= UPAGES -> 0 <= oldsz <= KERNBASE -> n1 = (oldsz + 4095) / 4096 ->
  n1 - n + 1 <= Z.of_nat fuel -> (1 <= fuel)%nat ->
  exists s' F, dealloc_loop kend PHYSTOP fuel pgdir (n * 4096) oldsz s = Ok tt s'
    /\ space s' (F ++ L) pgdir T (trim n n1 U) /\ user_frames n n1 U F
    /\ same_kernel (kmem_mem s) T (kmem_mem s') T /\ kept_but pgdir T F (kmem_mem s) (kmem_mem s').
Proof.
  assert (oldsz <= KERNBASE -> (oldsz + 4095) / 4096 <= UPAGES) as Hmax.
  { intros H. apply Z.lt_succ_r, Z.div_lt_upper_bound; unfold UPAGES, KERNBASE in *; lia. }
  induction fuel as [|fuel IH]; intros s L U n HS Hn Hsz En1 Hfu Hf1; [lia|]. cbn [dealloc_loop].
  assert (n * 4096 < oldsz <-> n < n1) as Hlt by (subst n1; Z.div_mod_to_equations; lia).
  destruct (Z.ltb_spec (n * 4096) oldsz) as [Hc | Hc].
  2:{ assert (n1 <= n) by lia. exists s, []. rewrite trim_nil by assumption. split_and!; [reflexivity | exact HS | | intros va _; reflexivity | intros x _ _; reflexivity].
      intros f. split; [intros Hf; inversion Hf | intros (i & k & Hi & _); lia]. }
  specialize (Hmax (proj2 Hsz)). assert (0 <= n < UPAGES) as Hr by lia. destruct (page_number n Hr) as [Hva Hdiv].
  destruct (T !! PDX (n * 4096)) as [p|] eqn:Ep.
  2:{ rewrite (bind_step _ _ _ _ _ (walk_absent kend PHYSTOP s pgdir (n * 4096) T (sp_pt _ _ _ _ _ HS) Ep)). change (0 =? 0) with true. cbv iota.
      destruct (next_table n Hr) as (Hn' & -> & Hd). set (n' := (PDX (n * 4096) + 1) * 1024) in *.
      pose proof (absent_pages s L pgdir T U n n' HS Ep ltac:(lia) ltac:(lia) Hd) as Hnone.
      destruct (IH s L U n' HS ltac:(lia) Hsz En1 ltac:(lia) ltac:(lia)) as (s' & F & E & HS' & HF & HK & HM).
      exists s', F. rewrite (trim_skip n n') by (lia || exact Hnone). split_and!; auto. intros f. rewrite (HF f).
      split; intros (i & k & Hi & Hu); exists i, k; (split; [|exact Hu]); [lia|].
      destruct (Z.lt_ge_cases i n'); [rewrite Hnone in Hu by lia; discriminate | lia]. }
  destruct (pt_tab _ _ _ _ _ (sp_pt _ _ _ _ _ HS) _ _ Ep) as (_ & (_ & Hp0 & _) & _). pose proof (PTX_range (n * 4096)).
  rewrite (bind_step _ _ _ _ _ (walk_found kend PHYSTOP Hkend s pgdir (n * 4096) T (sp_pt _ _ _ _ _ HS) false p Ep)).
  rewrite (proj2 (Z.eqb_neq _ _)) by lia. rewrite (bind_step _ _ _ _ _ (load_Ok s (p + 4 * PTX (n * 4096)) ltac:(lia))).
  pose proof (sp_pte _ _ _ _ _ HS n Hr) as El. unfold pte in El. rewrite Ep in El. rewrite El.
  replace (u32 (n * 4096 + PGSIZE)) with ((n + 1) * 4096) by (unfold PGSIZE, UPAGES in *; rewrite uwrap_id by (unfold in_u; lia); lia).
  destruct (U !! n) as [[f k]|] eqn:Eu.
  - destruct (sp_page _ _ _ _ _ HS n f k Eu) as (Hf & _). destruct (sp_flags _ _ _ _ _ HS n f k Eu) as (_ & Hk0 & Hk1).
    destruct (frame_entry f k Hf Hk0 Hk1) as (-> & A2 & A3 & A4).
    destruct (unmap_page s L pgdir T U n f k p HS Eu Ep) as (s1 & s2 & E1 & E2 & HS2 & HK2 & HM2).
    assert ((when true (if PTE_ADDR (V2P f + k) =? 0 then panic "kfree" else kfree kend PHYSTOP (P2V (PTE_ADDR (V2P f + k)));; store (p + 4 * PTX (n * 4096)) 0)) s = Ok tt s2) as Ew.
    { cbn [when]. rewrite A4, A2, (proj2 (Z.eqb_neq _ _) A3), (bind_step _ _ _ _ _ E1). exact E2. }
    rewrite (bind_step _ _ _ _ _ Ew).
    destruct (IH s2 (f :: L) (delete n U) (n + 1) HS2 ltac:(lia) Hsz En1 ltac:(lia) ltac:(lia)) as (s' & F & E & HS' & HF & HK & HM).
    exists s', (F ++ [f]). rewrite <-app_assoc. cbn [app]. rewrite trim_cons by lia. split_and!; [exact E | exact HS' | | |].
    + intros g. rewrite elem_of_app, (HF g), list_elem_of_singleton. split.
      * intros [(i & k' & Hi & Hu) | ->]; [|exists n, k; split; [lia | exact Eu]]. apply lookup_delete_Some in Hu as [_ Hu]. exists i, k'. split; [lia | exact Hu].
      * intros (i & k' & Hi & Hu). destruct (Z.eq_dec i n) as [-> | Hne]; [right; congruence|]. left. exists i, k'. split; [lia|]. rewrite lookup_delete_ne by congruence. exact Hu.
    + intros va Hv. rewrite HK, HK2 by exact Hv. reflexivity.
    + intros x Hx Hg. rewrite HM; [apply HM2; [exact Hx|]; apply Hg; apply elem_of_app; right; constructor | exact Hx|].
      intros g Hin. apply Hg. apply elem_of_app. left. exact Hin.
  - change (nz (Z.land 0 PTE_P)) with false. rewrite (bind_step _ _ _ _ _ (eq_refl : when false _ s = Ok tt s)).
    destruct (IH s L U (n + 1) HS ltac:(lia) Hsz En1 ltac:(lia) ltac:(lia)) as (s' & F & E & HS' & HF & HK & HM).
    assert (forall i, n <= i < n + 1 -> U !! i = None) as Hnone by (intros i Hi; replace i with n by lia; exact Eu).
    exists s', F. rewrite (trim_skip n (n + 1)) by (lia || exact Hnone). split_and!; auto. intros g. rewrite (HF g).
    split; intros (i & k & Hi & Hu); exists i, k; (split; [|exact Hu]); [lia|]. destruct (Z.eq_dec i n) as [-> |]; [congruence | lia].
Qed.

Lemma deallocuvm_spec s L pgdir T U oldsz newsz :
  space s L pgdir T U -> 0 <= newsz -> 0 <= oldsz <= KERNBASE ->
  let n := (newsz + 4095) / 4096 in let n1 := (oldsz + 4095) / 4096 in
  exists s' F, deallocuvm kend PHYSTOP pgdir oldsz newsz s = Ok (Z.min oldsz newsz) s'
    /\ space s' (F ++ L) pgdir T (trim n n1 U) /\ user_frames n n1 U F
    /\ same_kernel (kmem_mem s) T (kmem_mem s') T /\ kept_but pgdir T F (kmem_mem s) (kmem_mem s').
Proof.
  intros HS Hnew Hold n n1. unfold deallocuvm. destruct (Z.leb_spec oldsz newsz) as [Hle | Hgt].
  - assert (n1 <= n) by (apply Z.div_le_mono; lia). exists s, []. rewrite trim_nil by assumption. rewrite Z.min_l by lia.
    split_and!; [reflexivity | exact HS | | intros va _; reflexivity | intros x _ _; reflexivity].
    intros f. split; [intros Hf; inversion Hf | intros (i & k & Hi & _); lia].
  - assert (PGROUNDUP newsz = n * 4096) as -> by (rewrite PGROUNDUP_spec by (unfold PGSIZE, KERNBASE in *; lia); unfold PGSIZE, n; f_equal; f_equal; lia).
    destruct (dealloc_loop_spec pgdir T n1 oldsz (Z.to_nat (oldsz / PGSIZE) + 2) s L U n HS) as (s' & F & E & H);
      [unfold n, UPAGES, KERNBASE in *; Z.div_mod_to_equations; lia | exact Hold | reflexivity
       | unfold PGSIZE, n1, n; Z.div_mod_to_equations; lia | lia|].
    exists s', F. rewrite (bind_step _ _ _ _ _ E), Z.min_r by lia. split; [reflexivity | exact H].
Qed.

(** ** freevm *)

(** Page tables still to be freed: the directory refers to them, and they are not free. *)
Record tables_from (m : mem) (pgdir : Z) (T : gmap Z Z) (i : Z) (L : list Z) : Prop := TablesFrom {
  tf_tab : forall x p, i <= x < 1024 -> T !! x = Some p -> page_ok p /\ p <> pgdir /\ (p ∉ L) /\ load32 m (pgdir + 4 * x) = V2P p + 7;
  tf_none : forall x, i <= x < 1024 -> T !! x = None -> Z.land (load32 m (pgdir + 4 * x)) PTE_P = 0;
  tf_inj : forall x y p, i <= x < 1024 -> i <= y < 1024 -> T !! x = Some p -> T !! y = Some p -> x = y
}.

Lemma tables_from_next m pgdir T i L : tables_from m pgdir T i L -> tables_from m pgdir T (i + 1) L.
Proof. intros [H1 H2 H3]. split; intros *; intros; [apply H1 | apply H2 | eapply H3]; eauto; lia. Qed.

Lemma tables_from_free m m' pgdir T i L p :
  tables_from m pgdir T i L -> 0 <= i < 1024 -> T !! i = Some p -> page_ok pgdir ->
  (forall x, ~ in_page p x -> m' x = m x) -> tables_from m' pgdir T (i + 1) (p :: L).
Proof.
  intros [H1 H2 H3] Hi Hp Hd Hm. destruct (H1 i p ltac:(lia) Hp) as (Hpok & Hpd & _).
  assert (forall x, 0 <= x < 1024 -> load32 m' (pgdir + 4 * x) = load32 m (pgdir + 4 * x)) as E.
  { intros x Hx. apply load32_frame. intros y Hy. apply Hm. apply (pages_apart kend PHYSTOP pgdir p y Hd Hpok); [congruence|].
    unfold in_page, PGSIZE. lia. }
  split.
  - intros x q Hx Hq. destruct (H1 x q ltac:(lia) Hq) as (A & B & D & F). rewrite E by lia. split_and!; auto.
    apply not_elem_of_cons. split; [|exact D]. intros ->. pose proof (H3 x i p ltac:(lia) ltac:(lia) Hq Hp). lia.
  - intros x Hx Hq. rewrite E by lia. apply H2; [lia | exact Hq].
  - intros x y q Hx Hy. apply H3; lia.
Qed.

Lemma free_tables_spec pgdir T k : forall s L i,
  kinv s L -> page_ok pgdir -> tables_from (kmem_mem s) pgdir T i L -> 0 <= i -> i + Z.of_nat k = 1024 ->
  exists s' F, free_tables kend PHYSTOP k pgdir i s = Ok tt s' /\ kinv s' (F ++ L)
    /\ (forall p, p ∈ F <-> exists x, i <= x < 1024 /\ T !! x = Some p)
    /\ (forall x, (forall p, p ∈ F -> ~ in_page p x) -> kmem_mem s' x = kmem_mem s x).
Proof.
  induction k as [|k IH]; intros s L i HI Hd HT Hi Hk1; cbn [free_tables].
  { exists s, []. split_and!; [reflexivity | exact HI | | reflexivity]. intros p. split; [intros H; inversion H | intros (x & Hx & _); lia]. }
  assert (pgdir + 4 * i <> 0) as H0 by (destruct Hd as (_ & ? & _); lia).
  rewrite (bind_step _ _ _ _ _ (load_Ok s _ H0)). destruct (T !! i) as [p|] eqn:Ep.
  - destruct (tf_tab _ _ _ _ _ HT i p ltac:(lia) Ep) as (Hp & Hpd & HpL & ->).
    destruct (frame_entry p 7 Hp ltac:(lia) eq_refl) as (-> & _ & _ & ->). cbn [when].
    destruct (kfree_spec kend PHYSTOP s L p HI Hp HpL) as (s1 & E1 & HI1 & _ & Em). rewrite (bind_step _ _ _ _ _ E1).
    assert (forall x, ~ in_page p x -> kmem_mem s1 x = kmem_mem s x) as Hm1 by (intros x Hx; rewrite Em; apply freed_mem_frame, Hx).
    destruct (IH s1 (p :: L) (i + 1) HI1 Hd) as (s' & F & E & HI' & HF & Hm); [|lia | lia|].
    { apply (tables_from_free (kmem_mem s)); [exact HT | lia | exact Ep | exact Hd | exact Hm1]. }
    exists s', (F ++ [p]). rewrite <-app_assoc. split_and!; [exact E | exact HI' | |].
    + intros q. rewrite elem_of_app, (HF q), list_elem_of_singleton. split.
      * intros [(x & Hx & Hq) | ->]; [exists x | exists i]; (split; [lia | assumption]).
      * intros (x & Hx & Hq). destruct (Z.eq_dec x i) as [-> |]; [right; congruence | left; exists x; split; [lia | exact Hq]].
    + intros x Hx. rewrite Hm; [apply Hm1, Hx, elem_of_app; right; constructor|]. intros q Hq. apply Hx, elem_of_app. left. exact Hq.
  - rewrite (tf_none _ _ _ _ _ HT i ltac:(lia) Ep). change (nz 0) with false. rewrite (bind_step _ _ _ _ _ (eq_refl : when false _ s = Ok tt s)).
    destruct (IH s L (i + 1) HI Hd (tables_from_next _ _ _ _ _ HT) ltac:(lia) ltac:(lia)) as (s' & F & E & HI' & HF & Hm).
    exists s', F. split_and!; auto. intros q. rewrite (HF q). split; intros (x & Hx & Hq); exists x; (split; [|exact Hq]); [lia|].
    destruct (Z.eq_dec x i) as [-> |]; [congruence | lia].
Qed.

(** freevm puts on the free list every page of the address space and no other, once
    each ([kinv] has the list free of duplicates), and writes to those pages alone. *)
Lemma freevm_spec s L pgdir T U :
  space s L pgdir T U ->
  exists s' F, freevm kend PHYSTOP pgdir s = Ok tt s' /\ kinv s' (F ++ L)
    /\ (forall p, p ∈ F <-> owns pgdir T U p)
    /\ (forall x, (forall p, owns pgdir T U p -> ~ in_page p x) -> kmem_mem s' x = kmem_mem s x).
Proof.
  intros HS. pose proof HS as [HI HT [Ho1 Ho2] Hpg Hfl _ _]. pose proof (pt_dir _ _ _ _ _ HT) as Hd.
  unfold freevm. rewrite (proj2 (Z.eqb_neq _ _)) by (destruct Hd as (_ & ? & _); lia).
  destruct (deallocuvm_spec s L pgdir T U KERNBASE 0 HS ltac:(lia) ltac:(unfold KERNBASE; lia)) as (s1 & F1 & E1 & HS1 & HF1 & _ & HM1).
  change ((0 + 4095) / 4096) with 0 in *. change ((KERNBASE + 4095) / 4096) with UPAGES in *. rewrite (bind_step _ _ _ _ _ E1).
  pose proof HS1 as [HI1 HT1 [Ho3 Ho4] _ _ _ _].
  assert (tables_from (kmem_mem s1) pgdir T 0 (F1 ++ L)) as HT0.
  { split; [|intros x Hx; apply (pt_none _ _ _ _ _ HT1); lia | intros x y p _ _; apply (pt_inj _ _ _ _ _ HT1)].
    intros x p _ Hp. destruct (pt_tab _ _ _ _ _ HT1 x p Hp) as (_ & A & B & E). split_and!; auto. exact (Ho4 x p Hp). }
  destruct (free_tables_spec pgdir T NPDENTRIES s1 (F1 ++ L) 0 HI1 Hd HT0 ltac:(lia) eq_refl) as (s2 & F2 & E2 & HI2 & HF2 & HM2).
  rewrite (bind_step _ _ _ _ _ E2).
  assert (pgdir ∉ F2 ++ F1 ++ L) as Hnot.
  { rewrite elem_of_app. intros [H | H]; [|exact (Ho3 H)]. apply HF2 in H as (x & _ & Hx). destruct (pt_tab _ _ _ _ _ HT x pgdir Hx) as (_ & _ & ? & _). congruence. }
  destruct (kfree_spec kend PHYSTOP s2 (F2 ++ F1 ++ L) pgdir HI2 Hd Hnot) as (s3 & E3 & HI3 & _ & Em3).
  exists s3, (pgdir :: F2 ++ F1). cbn [app]. rewrite <-app_assoc.
  assert (forall p, p ∈ pgdir :: F2 ++ F1 <-> owns pgdir T U p) as HF.
  { intros p. rewrite elem_of_cons, elem_of_app, (HF1 p), (HF2 p). unfold owns. split.
    - intros [-> | [(x & _ & Hx) | (i & k & _ & Hu)]]; [left; reflexivity | right; left; eauto | right; right; eauto].
    - intros [-> | [(x & Hx) | (n & k & Hn)]]; [left; reflexivity | right; left | right; right].
      + exists x. split; [apply (pt_tab _ _ _ _ _ HT x p Hx) | exact Hx].
      + exists n, k. split; [apply (Hfl n p k Hn) | exact Hn]. }
  split_and!; [exact E3 | exact HI3 | exact HF|].
  intros x Hx. assert (forall p, p ∈ pgdir :: F2 ++ F1 -> ~ in_page p x) as Hx' by (intros p Hp; apply Hx, HF, Hp).
  rewrite Em3, freed_mem_frame by (apply (Hx' pgdir); constructor).
  rewrite HM2 by (intros p Hp; apply Hx'; right; apply elem_of_app; left; exact Hp).
  apply HM1; [|intros f Hf; apply Hx'; right; apply elem_of_app; right; exact Hf].
  intros [H | (i & p & Hp & H)]; [exact (Hx pgdir (or_introl eq_refl) H) | apply (Hx p); [right; left; eauto | exact H]].
Qed.

(** ** Mapping a user page *)

Lemma map_page s L pgdir T U n f perm :
  space s L pgdir T U -> 0 <= n < UPAGES -> U !! n = None -> page_ok f -> f ∉ L -> ~ owns pgdir T U f -> 0 <= perm < 4096 ->
  exists r s' L' T', mappages pgdir (n * 4096) PGSIZE (V2P f) perm s = Ok r s'
    /\ extends kend PHYSTOP s L T s' L' T' pgdir /\ same_kernel (kmem_mem s) T (kmem_mem s') T'
    /\ ((r = 0 /\ space s' L' pgdir T' (<[n := (f, Z.lor perm 1)]> U)) \/ (r = -1 /\ L' = [] /\ space s' L' pgdir T' U)).
Proof.
  intros HS Hn Hu Hf HfL Hfo Hperm. pose proof HS as [HI HT Ho Hpg Hfl Hinj Hpte]. destruct (page_number n Hn) as [Hva Hdiv].
  destruct (V2P_page kend PHYSTOP Hkend f Hf) as (_ & Hfm & Hf0 & Hf1).
  assert (npages (n * 4096) PGSIZE = 1) as Hnp by (unfold npages, PGSIZE; Z.div_mod_to_equations; lia).
  assert ((n * 4096 + PGSIZE - 1) / 4096 = n) as Hlast by (unfold PGSIZE; Z.div_mod_to_equations; lia).
  destruct (mappages_spec kend PHYSTOP Hkend s L T pgdir (n * 4096) PGSIZE (V2P f) perm HI HT Ho) as (r & s' & L' & T' & j & E & X & _ & Hm & Hr);
    [unfold PGSIZE, UPAGES in *; lia .. | assumption | assumption | rewrite Hnp; lia | assumption | |].
  { intros v Hv. rewrite Hdiv, Hlast in Hv. assert (0 <= v < 2 ^ 32) as Hv32 by (unfold UPAGES in *; Z.div_mod_to_equations; lia).
    assert (pte (kmem_mem s) T v = pte (kmem_mem s) T (n * 4096)) as ->.
    { unfold pte. rewrite !PDX_div, !PTX_mod by assumption. replace (v / 4096) with n by lia. rewrite Hdiv. reflexivity. }
    rewrite Hpte, Hu by exact Hn. reflexivity. }
  rewrite Hdiv, Hnp in *. exists r, s', L', T'.
  assert (forall g, ~ (exists x, T !! x = Some g) -> g ∉ L -> forall x p, T' !! x = Some p -> g <> p) as Hnt.
  { intros g Hg1 Hg2 x p Hp ->. destruct (ex_new _ _ _ _ _ _ _ _ _ X x p Hp) as [H | H]; [apply Hg1; eauto | exact (Hg2 H)]. }
  assert (forall g, g ∉ L -> g ∉ L') as Hnl by (intros g Hg HgL; apply Hg; exact (elem_of_suffix _ _ _ (ex_free _ _ _ _ _ _ _ _ _ X) HgL)).
  assert (same_kernel (kmem_mem s) T (kmem_mem s') T') as Hker.
  { intros va Hv. rewrite Hm by (unfold KERNBASE in *; lia).
    destruct (Z.ltb_spec va (n * 4096 + j * 4096)); [|rewrite andb_false_r; reflexivity]. unfold KERNBASE, UPAGES in *. lia. }
  split_and!; [exact E | exact X | exact Hker|].
  assert (forall n' f' k', U !! n' = Some (f', k') -> page_ok f' /\ (f' ∉ L') /\ f' <> pgdir /\ (forall x p, T' !! x = Some p -> f' <> p)) as Hpg'.
  { intros n' f' k' Hn'. destruct (Hpg n' f' k' Hn') as (A & B & D & G). split_and!; auto. apply Hnt; [intros (x & Hx); exact (G x f' Hx eq_refl) | exact B]. }
  destruct Hr as [[-> ->] | (-> & -> & Hj)]; [left | right].
  - split; [reflexivity|]. split; try apply X.
    + intros n' f' k' Hn'. apply lookup_insert_Some in Hn' as [[<- [= <- <-]] | [_ Hn']]; [|exact (Hpg' n' f' k' Hn')].
      split_and!; [exact Hf | apply Hnl, HfL | intros ->; apply Hfo; left; reflexivity | apply Hnt; [intros (x & Hx); apply Hfo; right; left; eauto | exact HfL]].
    + intros n' f' k' Hn'. apply lookup_insert_Some in Hn' as [[<- [= <- <-]] | [_ Hn']]; [|exact (Hfl n' f' k' Hn')].
      split_and!; [apply Hn.. | | |]; try apply (lor_flags_range perm Hperm).
      rewrite <-Z.bit0_mod, Z.lor_spec. change (Z.testbit 1 0) with true. rewrite orb_true_r. reflexivity.
    + intros n1 n2 g k1 k2 H1 H2. apply lookup_insert_Some in H1 as [[<- [= <- <-]] | [Hne1 H1]]; apply lookup_insert_Some in H2 as [[<- E2] | [Hne2 H2]].
      * reflexivity.
      * exfalso. apply Hfo. right. right. eauto.
      * injection E2 as -> _. exfalso. apply Hfo. right. right. eauto.
      * exact (Hinj _ _ _ _ _ H1 H2).
    + intros n' Hn'. destruct (page_number n' Hn') as [Hva' Hdiv']. rewrite Hm, Hdiv' by exact Hva'.
      destruct (Z.eq_dec n' n) as [-> | Hne].
      * rewrite lookup_insert_eq, (proj2 (Z.leb_le _ _)), (proj2 (Z.ltb_lt _ _)) by lia. cbn [andb].
        rewrite Z.sub_diag, Z.add_0_r. apply entry_value; assumption.
      * rewrite lookup_insert_ne by congruence. rewrite <-Hpte by exact Hn'.
        destruct (Z.leb_spec (n * 4096) (n' * 4096)), (Z.ltb_spec (n' * 4096) (n * 4096 + 1 * 4096)); cbn [andb]; (lia || reflexivity).
  - split_and!; [reflexivity.. |]. split; try apply X; try assumption.
    intros n' Hn'. destruct (page_number n' Hn') as [Hva' Hdiv']. rewrite Hm by exact Hva'. rewrite <-Hpte by exact Hn'.
    replace j with 0 by lia. destruct (Z.leb_spec (n * 4096) (n' * 4096)), (Z.ltb_spec (n' * 4096) (n * 4096 + 0 * 4096)); cbn [andb]; (lia || reflexivity).
Qed.
End space.
