(* ===== verification/VmLife.v ===== *)
(** * The life of an address space

    setupkvm builds an address space with the kernel's half, allocuvm grows its user
    half, copyuvm makes the copy fork gives the child, freevm takes it apart.  Each
    either does its work or fails with the pages it took back on the free list:
    [conserved] says that no page is lost and none is used twice. *)
From Stdlib Require Import ZArith Lia.
From stdpp Require Import base numbers list gmap sets strings.
From S2P Require Import Prelude KString Locks Kalloc Vm VmThm VmSpace.
Local Open Scope Z_scope.

(** The free pages and those owned are the same set before and after. *)
Definition conserved (L : list Z) (own : Z -> Prop) (L' : list Z) (own' : Z -> Prop) : Prop :=
  forall p, (p ∈ L \/ own p) <-> (p ∈ L' \/ own' p).

Lemma conserved_trans L1 o1 L2 o2 L3 o3 : conserved L1 o1 L2 o2 -> conserved L2 o2 L3 o3 -> conserved L1 o1 L3 o3.
Proof. intros H1 H2 p. rewrite (H1 p). apply H2. Qed.

Lemma not_false_or (P : Prop) : P \/ False <-> P.
Proof. tauto. Qed.

(** The range an entry of kmap covers. *)
Definition kmap_size (e : Z * Z * Z * Z) : Z := u32 (e.1.2 - e.1.1.2).

(** The entry that the mappings [l] give [va]. *)
Fixpoint kmap_pte (l : list (Z * Z * Z * Z)) (va old : Z) : Z :=
  match l with
  | [] => old
  | e :: l' =>
      let '(virt, ps, _, perm) := e in
      if (virt <=? va) && (va <? virt + kmap_size e) then entry (ps + (va / 4096 * 4096 - virt)) perm else kmap_pte l' va old
  end.

(** Mappings of whole pages, in ascending order from [lo] on. *)
Fixpoint kmaps_ok (lo : Z) (l : list (Z * Z * Z * Z)) : Prop :=
  match l with
  | [] => True
  | e :: l' =>
      let '(virt, ps, _, perm) := e in
      lo <= virt /\ virt mod 4096 = 0 /\ ps mod 4096 = 0 /\ 0 <= ps /\ kmap_size e mod 4096 = 0 /\ 0 < kmap_size e
      /\ virt + kmap_size e <= 2 ^ 32 /\ ps + kmap_size e <= 2 ^ 32 /\ 0 <= perm < 4096 /\ kmaps_ok (virt + kmap_size e) l'
  end.

Lemma kmap_pte_below l : forall lo va old, kmaps_ok lo l -> va < lo -> kmap_pte l va old = old.
Proof.
  induction l as [|[[[virt ps] pe] perm] l IH]; intros lo va old Hl Hva; [reflexivity|]. cbn [kmaps_ok kmap_pte] in *.
  destruct Hl as (H1 & _ & _ & _ & _ & H2 & _ & _ & _ & Hl). rewrite (proj2 (Z.leb_gt _ _)) by lia. cbn [andb].
  apply (IH _ va old Hl). lia.
Qed.

Section life.
Context (kend PHYSTOP kdata : Z) (Hk : KERNBASE < kend).
#[local] Abbreviation page_ok := (page_ok kend PHYSTOP).
#[local] Abbreviation kinv := (kinv kend PHYSTOP).
#[local] Abbreviation ptable := (ptable kend PHYSTOP).
#[local] Abbreviation space := (space kend PHYSTOP).
#[local] Abbreviation extends := (extends kend PHYSTOP).
Let Hkend : KERNBASE <= kend.
Proof. lia. Qed.

Lemma extends_conserved s L T s' L' T' pgdir U :
  extends s L T s' L' T' pgdir -> conserved L (owns pgdir T U) L' (owns pgdir T' U).
Proof.
  intros X p. unfold owns. split.
  - intros [Hp | [-> | [(x & Hx) | H]]]; [|tauto | |tauto].
    + destruct (ex_kept _ _ _ _ _ _ _ _ _ X p Hp); tauto.
    + right. right. left. exists x. exact (lookup_weaken _ _ _ _ Hx (ex_sub _ _ _ _ _ _ _ _ _ X)).
  - intros [Hp | [-> | [(x & Hx) | H]]]; [|tauto | |tauto].
    + left. exact (elem_of_suffix _ _ _ (ex_free _ _ _ _ _ _ _ _ _ X) Hp).
    + destruct (ex_new _ _ _ _ _ _ _ _ _ X x p Hx); [right; right; left; eauto | tauto].
Qed.

(** New page tables leave the user pages alone. *)
Lemma space_extends s L pgdir T U s' L' T' :
  space s L pgdir T U -> extends s L T s' L' T' pgdir ->
  (forall n, 0 <= n < UPAGES -> pte (kmem_mem s') T' (n * 4096) = pte (kmem_mem s) T (n * 4096)) -> space s' L' pgdir T' U.
Proof.
  intros [HI HT Ho Hpg Hfl Hinj Hpte] X Hp. split; try apply X; try assumption.
  - intros n f k Hn. destruct (Hpg n f k Hn) as (A & B & D & G). split_and!; auto.
    + intros HL. apply B. exact (elem_of_suffix _ _ _ (ex_free _ _ _ _ _ _ _ _ _ X) HL).
    + intros x p Hx ->. destruct (ex_new _ _ _ _ _ _ _ _ _ X x p Hx) as [H | H]; [exact (G x p H eq_refl) | exact (B H)].
  - intros n Hn. rewrite Hp by exact Hn. apply Hpte, Hn.
Qed.

(** ** The kernel's half *)

Lemma kmap_step s L pgdir T U virt size ps perm :
  space s L pgdir T U -> KERNBASE <= virt -> virt mod 4096 = 0 -> ps mod 4096 = 0 -> 0 <= ps -> size mod 4096 = 0 -> 0 < size ->
  virt + size <= 2 ^ 32 -> ps + size <= 2 ^ 32 -> 0 <= perm < 4096 ->
  (forall va, virt <= va < 2 ^ 32 -> Z.land (pte (kmem_mem s) T va) PTE_P = 0) ->
  exists r s' L' T', mappages pgdir virt size ps perm s = Ok r s' /\ extends s L T s' L' T' pgdir /\ tables_above 768 T T' /\ space s' L' pgdir T' U
    /\ ((r = 0 /\ forall va, 0 <= va < 2 ^ 32 -> pte (kmem_mem s') T' va
          = if (virt <=? va) && (va <? virt + size) then entry (ps + (va / 4096 * 4096 - virt)) perm else pte (kmem_mem s) T va)
        \/ (r = -1 /\ L' = [])).
Proof.
  intros HS Hv Hva Hpa Hps Hsz Hs0 Hend Hpe Hperm Habs. pose proof HS as [HI HT Ho _ _ _ _].
  assert (virt / 4096 * 4096 = virt) as Ev by (pose proof (Z.div_mod virt 4096 ltac:(lia)); lia).
  assert (npages virt size * 4096 = size) as En by (unfold npages; Z.div_mod_to_equations; lia).
  destruct (mappages_spec kend PHYSTOP Hkend s L T pgdir virt size ps perm HI HT Ho) as (r & s' & L' & T' & j & E & X & K & Hm & Hr);
    [unfold KERNBASE in *; lia | assumption .. | rewrite En; assumption | assumption | |].
  { intros v Hvv. apply Habs. Z.div_mod_to_equations; lia. }
  rewrite Ev in Hm. exists r, s', L', T'. split_and!; [exact E | exact X | | |].
  - apply (tables_above_trans 768 (PDX virt) T T T'); [|apply tables_above_refl | exact K].
    rewrite PDX_div by (unfold KERNBASE in *; lia). unfold KERNBASE in *. Z.div_mod_to_equations. lia.
  - apply (space_extends s L pgdir T U s' L' T' HS X). intros n Hn. rewrite Hm by (unfold UPAGES in *; lia).
    rewrite (proj2 (Z.leb_gt _ _)) by (unfold UPAGES, KERNBASE in *; lia). reflexivity.
  - destruct Hr as [[-> ->] | (-> & -> & _)]; [left | right; auto]. split; [reflexivity|]. unfold mapped_to in Hm. rewrite En in Hm. exact Hm.
Qed.

(** All pages given back: the free list is a permutation of what it was. *)
Lemma freed_all s L pgdir T U L0 :
  space s L pgdir T U -> conserved L0 (fun _ => False) L (owns pgdir T U) -> NoDup L0 ->
  exists s' L', freevm kend PHYSTOP pgdir s = Ok tt s' /\ kinv s' L' /\ L' ≡ₚ L0
    /\ (forall x, (forall p, owns pgdir T U p -> ~ in_page p x) -> kmem_mem s' x = kmem_mem s x).
Proof.
  intros HS HC Hnd. destruct (freevm_spec kend PHYSTOP Hk s L pgdir T U HS) as (s' & F & E & HI & HF & Hm).
  exists s', (F ++ L). split_and!; auto. apply NoDup_Permutation; [apply (k_nodup _ _ _ _ HI) | exact Hnd|].
  intros p. specialize (HC p). rewrite elem_of_app, (HF p). tauto.
Qed.

(** An address space without user pages has at most a directory and 256 tables. *)
Lemma kernel_pages s L pgdir T L0 :
  space s L pgdir T ∅ -> tables_above 768 ∅ T -> NoDup L0 -> (forall p, p ∈ L0 -> owns pgdir T ∅ p) -> (length L0 <= 257)%nat.
Proof.
  intros HS HK Hnd Ho. change 257%nat with (length (pgdir :: ((fun i => default 0 (T !! i)) <$> seqZ 768 256))).
  apply submseteq_length, NoDup_submseteq; [exact Hnd|]. intros p Hp. apply elem_of_cons.
  destruct (Ho p Hp) as [-> | [(x & Hx) | (n & k & Hn)]]; [left; reflexivity | right | rewrite lookup_empty in Hn; discriminate].
  apply list_elem_of_fmap. exists x. rewrite Hx. split; [reflexivity|]. apply elem_of_seqZ.
  destruct (HK x p Hx) as [H | H]; [rewrite lookup_empty in H; discriminate|].
  destruct (pt_tab _ _ _ _ _ (sp_pt _ _ _ _ _ _ _ HS) x p Hx) as [H' _]. lia.
Qed.

Lemma map_all_spec pgdir L0 l : forall s L T lo,
  space s L pgdir T ∅ -> tables_above 768 ∅ T -> conserved L0 (fun _ => False) L (owns pgdir T ∅) -> NoDup L0 -> KERNBASE <= lo -> kmaps_ok lo l ->
  (forall va, lo <= va < 2 ^ 32 -> Z.land (pte (kmem_mem s) T va) PTE_P = 0) ->
  exists ok s' L', map_all kend PHYSTOP pgdir l s = Ok ok s'
    /\ (forall x, (forall p, p ∈ L0 -> ~ in_page p x) -> kmem_mem s' x = kmem_mem s x)
    /\ if ok : bool then exists T', space s' L' pgdir T' ∅ /\ conserved L0 (fun _ => False) L' (owns pgdir T' ∅)
            /\ forall va, 0 <= va < 2 ^ 32 -> pte (kmem_mem s') T' va = kmap_pte l va (pte (kmem_mem s) T va)
       else kinv s' L' /\ L' ≡ₚ L0 /\ (length L0 <= 257)%nat.
Proof.
  assert (forall s L T s' L' T', space s L pgdir T ∅ -> conserved L0 (fun _ => False) L (owns pgdir T ∅) ->
    extends s L T s' L' T' pgdir -> conserved L0 (fun _ => False) L' (owns pgdir T' ∅)
    /\ forall x, (forall p, p ∈ L0 -> ~ in_page p x) -> kmem_mem s' x = kmem_mem s x) as Hext.
  { intros s L T s' L' T' HS HC X. pose proof (extends_conserved s L T s' L' T' pgdir ∅ X) as HX.
    pose proof (conserved_trans _ _ _ _ _ _ HC HX) as HC'. split; [exact HC'|].
    intros x Hx. apply (ex_frame _ _ _ _ _ _ _ _ _ X).
    assert (forall p, owns pgdir T' ∅ p -> ~ in_page p x) as Ho by (intros p Hp; apply Hx; specialize (HC' p); tauto).
    intros [H | (i & p & Hp & H)]; [exact (Ho pgdir (or_introl eq_refl) H) | apply (Ho p); [right; left; eauto | exact H]]. }
  induction l as [|[[[virt ps] pe] perm] l IH]; intros s L T lo HS HK HC Hnd Hlo Hl Habs; cbn [map_all kmaps_ok kmap_pte] in *.
  { exists true, s, L. split_and!; [reflexivity | reflexivity|]. exists T. split_and!; auto. }
  destruct Hl as (A1 & A2 & A3 & A4 & A5 & A6 & A7 & A8 & A9 & Hl). set (e := (virt, ps, pe, perm)) in *.
  change (u32 (pe - ps)) with (kmap_size e).
  destruct (kmap_step s L pgdir T ∅ virt (kmap_size e) ps perm HS) as (r & s1 & L1 & T1 & E & X & K & HS1 & Hr); auto; [lia | intros va Hva; apply Habs; lia|].
  rewrite (bind_step _ _ _ _ _ E). destruct (Hext s L T s1 L1 T1 HS HC X) as [HC1 Hm1].
  pose proof (tables_above_trans 768 768 _ _ _ (Z.le_refl _) HK K) as HK1.
  destruct Hr as [[-> Hpte] | [-> ->]].
  - change (0 <? 0) with false. cbv iota. destruct (IH s1 L1 T1 (virt + kmap_size e) HS1 HK1 HC1 Hnd ltac:(lia) Hl) as (ok & s2 & L2 & E2 & Hm2 & HR).
    { intros va Hva. rewrite Hpte by (unfold KERNBASE in *; lia). rewrite (proj2 (Z.ltb_ge va _)), andb_false_r by lia. apply Habs. lia. }
    exists ok, s2, L2. split_and!; [exact E2 | intros x Hx; rewrite Hm2, Hm1 by exact Hx; reflexivity|].
    destruct ok; [|exact HR]. destruct HR as (T2 & HS2 & HC2 & Hp2). exists T2. split_and!; auto. intros va Hva. rewrite Hp2, Hpte by exact Hva.
    destruct ((virt <=? va) && (va <? virt + kmap_size e)) eqn:Eb; [|reflexivity].
    apply (kmap_pte_below l (virt + kmap_size e)); [exact Hl|]. apply andb_true_iff in Eb as [_ Eb]. apply Z.ltb_lt, Eb.
  - change (-1 <? 0) with true. cbv iota. destruct (freed_all s1 [] pgdir T1 ∅ L0 HS1 HC1 Hnd) as (s2 & L2 & E2 & HI2 & HP2 & Hm2).
    rewrite (bind_step _ _ _ _ _ E2). exists false, s2, L2.
    split_and!; [reflexivity | | exact HI2 | exact HP2 | apply (kernel_pages s1 [] pgdir T1 L0 HS1 HK1 Hnd)].
    2:{ intros p Hp. destruct (proj1 (HC1 p) (or_introl Hp)) as [H | H]; [inversion H | exact H]. }
    intros x Hx. rewrite Hm2; [apply Hm1, Hx|]. intros p Hp. apply Hx. specialize (HC1 p). tauto.
Qed.

(** Where the linker and the memory map put things: the kernel's data on a page
    boundary after its text, and memory up to at most DEVSPACE - KERNBASE. *)
Record kernel_layout : Prop := KernelLayout {
  kl_data : KERNLINK < kdata < KERNBASE + PHYSTOP;
  kl_aligned : kdata mod 4096 = 0;
  kl_top : PHYSTOP mod 4096 = 0;
  kl_dev : PHYSTOP <= DEVSPACE - KERNBASE
}.

(** The kernel's half of every address space: physical memory from 0 to PHYSTOP, the
    text read-only, and the devices. *)
Definition kernel_pte (va : Z) : Z :=
  let page := va / 4096 * 4096 in
  if va <? KERNBASE then 0
  else if va <? KERNLINK then entry (page - KERNBASE) PTE_W
  else if va <? kdata then entry (page - KERNBASE) 0
  else if va <? KERNBASE + PHYSTOP then entry (page - KERNBASE) PTE_W
  else if va <? DEVSPACE then 0
  else entry page PTE_W.

Lemma kmap_sizes : kernel_layout ->
  map kmap_size (kmap PHYSTOP kdata) = [EXTMEM; kdata - KERNLINK; KERNBASE + PHYSTOP - kdata; 2 ^ 32 - DEVSPACE]
  /\ V2P kdata = kdata - KERNBASE.
Proof.
  intros [Hd Ha Ht Hdev]. assert (V2P kdata = kdata - KERNBASE) as E.
  { unfold V2P. apply uwrap_id. unfold in_u, KERNLINK, EXTMEM, KERNBASE, DEVSPACE in *. lia. }
  split; [|exact E]. unfold kmap, kmap_size. cbn [map fst snd]. rewrite E. change (V2P KERNLINK) with EXTMEM.
  change (u32 (EXTMEM - 0)) with EXTMEM. change (u32 (0 - DEVSPACE)) with (2 ^ 32 - DEVSPACE).
  unfold KERNLINK, EXTMEM, KERNBASE, DEVSPACE in *.
  rewrite !(uwrap_id 32) by (unfold in_u; lia). repeat (f_equal; try lia).
Qed.

Lemma kmap_pieces : kernel_layout ->
  kmaps_ok KERNBASE (kmap PHYSTOP kdata) /\ forall va, 0 <= va < 2 ^ 32 -> kmap_pte (kmap PHYSTOP kdata) va 0 = kernel_pte va.
Proof.
  intros HL. destruct (kmap_sizes HL) as [Es Ev]. pose proof HL as [Hd Ha Ht Hdev]. unfold kmap in *. cbn [map] in Es. injection Es as E2 E3.
  assert (kmap_size (KERNBASE, 0, EXTMEM, PTE_W) = EXTMEM) as E1 by reflexivity.
  assert (kmap_size (DEVSPACE, DEVSPACE, 0, PTE_W) = 2 ^ 32 - DEVSPACE) as E4 by reflexivity. split.
  - cbn [kmaps_ok]. rewrite E1, E2, E3, E4, Ev. change (V2P KERNLINK) with EXTMEM. unfold PTE_W, KERNLINK, EXTMEM, KERNBASE, DEVSPACE in *.
    split_and!; try lia; try reflexivity; Z.div_mod_to_equations; lia.
  - intros va Hva. cbn [kmap_pte]. rewrite E1, E2, E3, E4, Ev. change (V2P KERNLINK) with EXTMEM. unfold kernel_pte.
    unfold KERNLINK, EXTMEM, KERNBASE, DEVSPACE in *.
    repeat (match goal with |- context [?a <=? ?b] => destruct (Z.leb_spec a b) | |- context [?a <? ?b] => destruct (Z.ltb_spec a b) end;
      cbn [andb]; try (exfalso; lia)); try reflexivity; f_equal; lia.
Qed.

(** The directory page, cleared. *)
Lemma fresh_dir s d L :
  kinv s L -> page_ok d -> d ∉ L -> let s1 := KState (memset (kmem_mem s) d 0 PGSIZE) (use_lock s) (freelist s) (klocks s) in
  space s1 L d ∅ ∅ /\ (forall va, pte (kmem_mem s1) ∅ va = 0) /\ (forall x, ~ in_page d x -> kmem_mem s1 x = kmem_mem s x).
Proof.
  intros HI Hd HdL s1.
  assert (forall x, kmem_mem s1 x = if inside d PGSIZE x then 0 else kmem_mem s x) as Hm by (intros x; apply memset_spec; unfold PGSIZE; lia).
  assert (forall x, ~ in_page d x -> kmem_mem s1 x = kmem_mem s x) as Hout.
  { intros x Hx. rewrite Hm, (proj2 (inside_false d PGSIZE x)) by exact Hx. reflexivity. }
  assert (forall va, pte (kmem_mem s1) ∅ va = 0) as Hpte by (intros va; unfold pte; rewrite lookup_empty; reflexivity).
  split_and!; [|exact Hpte | exact Hout]. split.
  - apply kinv_mem; [exact HI|]. intros v x Hv Hx. apply Hout. pose proof (k_pages _ _ _ _ HI) as HP. rewrite Forall_forall in HP.
    apply (pages_apart kend PHYSTOP v d); auto. intros ->. contradiction.
  - split; [exact Hd | intros x p H; rewrite lookup_empty in H; discriminate | | intros x y p H; rewrite lookup_empty in H; discriminate].
    intros x Hx _. unfold load32. rewrite !Hm. rewrite !(proj2 (inside_true d PGSIZE _)) by (unfold PGSIZE; lia). reflexivity.
  - split; [exact HdL | intros x p H; rewrite lookup_empty in H; discriminate].
  - intros n f k H. rewrite lookup_empty in H. discriminate.
  - intros n f k H. rewrite lookup_empty in H. discriminate.
  - intros n n' f k k' H. rewrite lookup_empty in H. discriminate.
  - intros n Hn. rewrite lookup_empty. apply Hpte.
Qed.

(** setupkvm returns a new address space with the kernel's half and no user pages, or 0
    with no page lost, which happens with at most 257 free pages; it writes to pages
    that were free alone. *)
Lemma setupkvm_spec s L :
  kernel_layout -> kinv s L ->
  exists d s' L', setupkvm kend PHYSTOP kdata s = Ok d s'
    /\ (forall x, (forall p, p ∈ L -> ~ in_page p x) -> kmem_mem s' x = kmem_mem s x)
    /\ ((d <> 0 /\ exists T, space s' L' d T ∅ /\ conserved L (fun _ => False) L' (owns d T ∅)
           /\ forall va, 0 <= va < 2 ^ 32 -> pte (kmem_mem s') T va = kernel_pte va)
        \/ (d = 0 /\ kinv s' L' /\ L' ≡ₚ L /\ (length L <= 257)%nat)).
Proof.
  intros HL HI. unfold setupkvm. destruct (kalloc_spec kend PHYSTOP s L HI) as (s1 & E1 & HI1 & _ & Em1). rewrite (bind_step _ _ _ _ _ E1).
  destruct L as [|d L1]; cbn [hd tail] in *.
  { exists 0, s1, []. split_and!; [reflexivity | rewrite Em1; reflexivity | right; split_and!; auto; cbn; lia]. }
  pose proof (k_pages _ _ _ _ HI) as HP. apply Forall_cons in HP as [Hd _]. pose proof (k_nodup _ _ _ _ HI) as Hnd.
  pose proof Hnd as Hnd'. apply NoDup_cons in Hnd' as [HdL _]. assert (d <> 0) as Hd0 by (destruct Hd as (_ & ? & _); lia).
  rewrite (proj2 (Z.eqb_neq _ _) Hd0), (bind_step _ _ _ _ _ (kmemset_Ok s1 d 0 PGSIZE Hd0)).
  assert ((DEVSPACE <? P2V PHYSTOP) = false) as ->.
  { destruct HL as [Hdd _ _ Hdev]. apply Z.ltb_ge. unfold P2V. rewrite uwrap_id; unfold in_u, KERNLINK, EXTMEM, DEVSPACE, KERNBASE in *; lia. }
  destruct (fresh_dir s1 d L1 HI1 Hd HdL) as (HS & Hpte & Hout). set (s2 := KState _ _ _ _) in *.
  destruct (kmap_pieces HL) as [Hok Hkp].
  assert (conserved (d :: L1) (fun _ => False) L1 (owns d ∅ ∅)) as HC.
  { intros p. unfold owns. rewrite elem_of_cons. split.
    - intros [[-> | H] | []]; auto.
    - intros [H | [-> | [(x & H) | (n & k & H)]]]; auto; rewrite lookup_empty in H; discriminate. }
  destruct (map_all_spec d (d :: L1) (kmap PHYSTOP kdata) s2 L1 ∅ KERNBASE HS (tables_above_refl _ _) HC Hnd (Z.le_refl _) Hok) as (ok & s3 & L3 & E3 & Hm3 & HR).
  { intros va _. rewrite Hpte. reflexivity. }
  rewrite (bind_step _ _ _ _ _ E3). exists (if ok then d else 0), s3, L3. split_and!; [reflexivity | |].
  - intros x Hx. rewrite Hm3 by exact Hx. rewrite Hout by (apply Hx; constructor). rewrite Em1. reflexivity.
  - destruct ok; [left | right; auto]. destruct HR as (T3 & HS3 & HC3 & Hp3). split; [exact Hd0|]. exists T3. split_and!; auto.
    intros va Hva. rewrite Hp3, Hpte by exact Hva. apply Hkp, Hva.
Qed.

(** ** copyuvm *)

(** The first [n] pages of [Uc] are copies of those of [U], each on a frame of its own. *)
Definition copied (m : mem) (U Uc : frames) (n : Z) : Prop :=
  (forall i f k, 0 <= i < n -> U !! i = Some (f, k) ->
     exists g, Uc !! i = Some (g, k) /\ forall o, 0 <= o < 4096 -> m (g + o) = m (f + o))
  /\ (forall i, ~ (0 <= i < n) -> Uc !! i = None).

(** Two address spaces over one allocator, without a page in common. *)
Record two_spaces (s : kstate) (L : list Z) (pgdir : Z) (T : gmap Z Z) (U : frames) (d : Z) (Td : gmap Z Z) (Ud : frames) : Prop := TwoSpaces {
  ts_parent : space s L pgdir T U;
  ts_child : space s L d Td Ud;
  ts_apart : forall p, owns pgdir T U p -> ~ owns d Td Ud p
}.

(** What stays the same for the parent: its pages' bytes. *)
Definition own_bytes (pgdir : Z) (T : gmap Z Z) (U : frames) (m m' : mem) : Prop :=
  forall p x, owns pgdir T U p -> in_page p x -> m' x = m x.

Lemma own_bytes_tables pgdir T U m m' : own_bytes pgdir T U m m' -> forall x, in_tables pgdir T x -> m' x = m x.
Proof.
  intros H x [Hx | (i & p & Hp & Hx)]; [apply (H pgdir); [left; reflexivity | exact Hx] | apply (H p); [right; left; eauto | exact Hx]].
Qed.

Lemma frame_offset f o : 0 <= o < 4096 -> in_page f (f + o).
Proof. unfold in_page, PGSIZE. lia. Qed.

(** Copying a page's bytes to a free page. *)
Lemma memmove_page m g f x :
  g mod 4096 = 0 -> f mod 4096 = 0 -> g <> f -> memmove m g f PGSIZE x = if inside g PGSIZE x then m (f + (x - g)) else m x.
Proof.
  intros Hg Hf Hne. unfold memmove, PGSIZE. destruct (aligned_disjoint g f Hg Hf Hne) as [H | H]; unfold PGSIZE in H.
  - destruct ((f <? g) && (g <? f + 4096)) eqn:Eb.
    + apply andb_true_iff in Eb as [E1 E2]. apply Z.ltb_lt in E1, E2. lia.
    + rewrite copy_up_spec; [reflexivity|]. lia.
  - destruct ((f <? g) && (g <? f + 4096)) eqn:Eb.
    + apply andb_true_iff in Eb as [E1 E2]. apply Z.ltb_lt in E1, E2. lia.
    + rewrite copy_up_spec; [reflexivity|]. lia.
Qed.

(** An address space while the pages of another change: [W] are the pages written. *)
Lemma space_other s L pgdir T U s' L' (W : Z -> Prop) :
  space s L pgdir T U -> kinv s' L' -> (forall p, p ∈ L' -> ~ owns pgdir T U p) ->
  (forall p, W p -> page_ok p /\ ~ owns pgdir T U p) ->
  (forall x, (forall p, W p -> ~ in_page p x) -> kmem_mem s' x = kmem_mem s x) ->
  space s' L' pgdir T U /\ own_bytes pgdir T U (kmem_mem s) (kmem_mem s').
Proof.
  intros HS HI HL HW Hm. assert (own_bytes pgdir T U (kmem_mem s) (kmem_mem s')) as HO.
  { intros p x Hp Hx. apply Hm. intros q Hq. destruct (HW q Hq) as [Hok Hno].
    apply (pages_apart kend PHYSTOP p q x); [apply (space_owns_ok _ _ _ _ _ _ _ p HS Hp) | exact Hok | intros ->; exact (Hno Hp) | exact Hx]. }
  split; [|exact HO]. apply (space_frame kend PHYSTOP s L); auto. apply (own_bytes_tables _ _ U), HO.
Qed.

Lemma tables_owned pgdir T U x : in_tables pgdir T x -> exists p, owns pgdir T U p /\ in_page p x.
Proof. intros [H | (i & p & Hp & H)]; [exists pgdir; split; [left; reflexivity | exact H] | exists p; split; [right; left; eauto | exact H]]. Qed.

(** The pages an address space has after new tables: old ones, or pages that were free. *)
Lemma extends_owns s L T s' L' T' d U p : extends s L T s' L' T' d -> owns d T' U p -> owns d T U p \/ p ∈ L.
Proof. intros X Hp. destruct (extends_conserved s L T s' L' T' d U X p) as [_ H]. destruct (H (or_intror Hp)); auto. Qed.

Lemma owns_insert d T U n f k p : owns d T (<[n := (f, k)]> U) p -> owns d T U p \/ p = f.
Proof.
  intros [-> | [H | (i & k' & Hi)]]; [left; left; reflexivity | left; right; left; exact H|].
  apply lookup_insert_Some in Hi as [[_ [= -> _]] | [_ Hi]]; [right; reflexivity | left; right; right; eauto].
Qed.

Lemma insert_owns d T U n f k p : U !! n = None -> owns d T U p \/ p = f -> owns d T (<[n := (f, k)]> U) p.
Proof.
  intros Hn [[-> | [H | (i & k' & Hi)]] | ->]; [left; reflexivity | right; left; exact H | right; right | right; right].
  - exists i, k'. rewrite lookup_insert_ne by congruence. exact Hi.
  - exists n, k. apply lookup_insert_eq.
Qed.

Lemma owns_tables d T U p : owns d T ∅ p -> owns d T U p.
Proof. intros [-> | [H | (n & k & H)]]; [left; reflexivity | right; left; exact H | rewrite lookup_empty in H; discriminate]. Qed.

Lemma lor_odd k : k mod 2 = 1 -> Z.lor k 1 = k.
Proof.
  intros Hk1. apply Z.bits_inj'. intros i Hi. rewrite Z.lor_spec. destruct (Z.eq_dec i 0) as [-> | Hne].
  - rewrite (Z.bit0_odd k), Zodd_mod, Hk1. reflexivity.
  - rewrite (Z.bits_above_log2 1) by (cbn; lia). apply orb_false_r.
Qed.

(** The page-table pages that new tables write to, and what they do not touch. *)
Lemma extends_other s L T s' L' T' d U pgdir T0 U0 :
  extends s L T s' L' T' d -> space s L pgdir T0 U0 -> (forall p, owns pgdir T0 U0 p -> ~ owns d T U p) ->
  space s' L' pgdir T0 U0 /\ own_bytes pgdir T0 U0 (kmem_mem s) (kmem_mem s').
Proof.
  intros X HS Hap. assert (forall p, p ∈ L -> ~ owns pgdir T0 U0 p) as HL by (intros p Hp Ho; exact (proj2 (space_owns_ok _ _ _ _ _ _ _ p HS Ho) Hp)).
  apply (space_other s L pgdir T0 U0 s' L' (fun p => owns d T' ∅ p) HS (ex_kinv _ _ _ _ _ _ _ _ _ X)).
  - intros p Hp. apply HL. exact (elem_of_suffix _ _ _ (ex_free _ _ _ _ _ _ _ _ _ X) Hp).
  - intros p Hp. split.
    + pose proof (ex_pt _ _ _ _ _ _ _ _ _ X) as HT. destruct Hp as [-> | [(x & Hx) | (n & k & Hn)]];
        [apply HT | apply (pt_tab _ _ _ _ _ HT x p Hx) | rewrite lookup_empty in Hn; discriminate].
    + intros Ho. destruct (extends_owns s L T s' L' T' d ∅ p X Hp) as [H | H]; [exact (Hap p Ho (owns_tables _ _ _ _ H)) | exact (HL p H Ho)].
  - intros x Hx. apply (ex_frame _ _ _ _ _ _ _ _ _ X). intros Hin. destruct (tables_owned d T' ∅ x Hin) as (p & Hp & Hpx). exact (Hx p Hp Hpx).
Qed.

Definition user_bytes (U : frames) (m m' : mem) : Prop :=
  forall n f k x, U !! n = Some (f, k) -> in_page f x -> m' x = m x.

(** A page that is neither free nor of the page tables keeps its bytes. *)
Lemma extends_page s L T s' L' T' d g x :
  extends s L T s' L' T' d -> page_ok g -> g ∉ L -> ~ owns d T ∅ g -> in_page g x -> kmem_mem s' x = kmem_mem s x.
Proof.
  intros X Hg HgL Hgo Hx. apply (ex_frame _ _ _ _ _ _ _ _ _ X). intros Hin. destruct (tables_owned d T' ∅ x Hin) as (p & Hp & Hpx).
  assert (page_ok p) as Hpok.
  { pose proof (ex_pt _ _ _ _ _ _ _ _ _ X) as HT. destruct Hp as [-> | [(i & Hi) | (n & k & Hn)]];
      [apply HT | apply (pt_tab _ _ _ _ _ HT i p Hi) | rewrite lookup_empty in Hn; discriminate]. }
  refine (pages_apart kend PHYSTOP g p x Hg Hpok _ Hx Hpx). intros ->. destruct (extends_owns s L T s' L' T' d ∅ p X Hp); contradiction.
Qed.

(** The user pages of the space that grows keep their bytes. *)
Lemma extends_user s L T s' L' T' d U :
  extends s L T s' L' T' d -> space s L d T U -> user_bytes U (kmem_mem s) (kmem_mem s').
Proof.
  intros X HS n f k x Hn Hx. destruct (sp_page _ _ _ _ _ _ _ HS n f k Hn) as (Hf & HfL & Hfd & Hft).
  apply (extends_page s L T s' L' T' d f x X Hf HfL); [|exact Hx].
  intros [-> | [(i & Hi) | (j & k' & Hj)]]; [contradiction | exact (Hft i f Hi eq_refl) | rewrite lookup_empty in Hj; discriminate].
Qed.

Section copy.
Context (pgdir : Z) (T : gmap Z Z) (U : frames) (d : Z).

(** The frame taken for a page of the child, filled from the parent's. *)
Lemma copy_frame s g L Td Ud n f k :
  two_spaces s (g :: L) pgdir T U d Td Ud -> U !! n = Some (f, k) ->
  exists s1 s2, kalloc s = Ok g s1 /\ kmemmove g f PGSIZE s1 = Ok tt s2 /\ two_spaces s2 L pgdir T U d Td Ud
    /\ page_ok g /\ (g ∉ L) /\ ~ owns pgdir T U g /\ ~ owns d Td Ud g
    /\ own_bytes pgdir T U (kmem_mem s) (kmem_mem s2) /\ own_bytes d Td Ud (kmem_mem s) (kmem_mem s2)
    /\ forall o, 0 <= o < 4096 -> kmem_mem s2 (g + o) = kmem_mem s (f + o).
Proof.
  intros [HP HC Hap] Hn. pose proof (sp_kinv _ _ _ _ _ _ _ HP) as HI.
  destruct (kalloc_spec kend PHYSTOP s (g :: L) HI) as (s1 & E1 & HI1 & _ & Em1). cbn [hd tail] in *.
  pose proof (k_pages _ _ _ _ HI) as Hpg. apply Forall_cons in Hpg as [Hg HgL]. pose proof (k_nodup _ _ _ _ HI) as Hnd. apply NoDup_cons in Hnd as [Hgn _].
  assert (forall D T1 U1, space s (g :: L) D T1 U1 -> forall p, p ∈ g :: L -> ~ owns D T1 U1 p) as Hfree.
  { intros D T1 U1 HS p Hp Ho. exact (proj2 (space_owns_ok _ _ _ _ _ _ _ p HS Ho) Hp). }
  destruct (sp_page _ _ _ _ _ _ _ HP n f k Hn) as (Hf & HfL & _). assert (g <> f) as Hgf by (intros ->; apply HfL; constructor).
  assert (g <> 0) as Hg0 by (destruct Hg as (_ & ? & _); lia).
  set (s2 := KState (memmove (kmem_mem s1) g f PGSIZE) (use_lock s1) (freelist s1) (klocks s1)).
  assert (forall x, kmem_mem s2 x = if inside g PGSIZE x then kmem_mem s (f + (x - g)) else kmem_mem s x) as Hm.
  { intros x. rewrite <-Em1. apply memmove_page; [apply Hg | apply Hf | exact Hgf]. }
  assert (forall x, ~ in_page g x -> kmem_mem s2 x = kmem_mem s x) as Hout.
  { intros x Hx. rewrite Hm, (proj2 (inside_false g PGSIZE x)) by exact Hx. reflexivity. }
  assert (kinv s2 L) as HI2.
  { apply kinv_mem; [exact HI1|]. intros v x Hv Hx. rewrite Forall_forall in HgL.
    assert (~ in_page g x) as Hgx by (apply (pages_apart kend PHYSTOP v g); [exact (HgL v Hv) | exact Hg | intros ->; contradiction | exact Hx]).
    etransitivity; [exact (Hout x Hgx) | rewrite Em1; reflexivity]. }
  assert (forall D T1 U1, space s (g :: L) D T1 U1 -> space s2 L D T1 U1 /\ own_bytes D T1 U1 (kmem_mem s) (kmem_mem s2)) as Hboth.
  { intros D T1 U1 HS. apply (space_other s (g :: L) D T1 U1 s2 L (fun p => p = g) HS HI2).
    - intros p Hp. apply (Hfree _ _ _ HS). right. exact Hp.
    - intros p ->. split; [exact Hg | apply (Hfree _ _ _ HS); constructor].
    - intros x Hx. apply Hout, (Hx g eq_refl). }
  exists s1, s2. destruct (Hboth _ _ _ HP) as [HP2 OP], (Hboth _ _ _ HC) as [HC2 OC].
  assert (kmemmove g f PGSIZE s1 = Ok tt s2) as E2 by (unfold kmemmove; rewrite (proj2 (Z.eqb_neq _ _) Hg0); reflexivity).
  split_and!; [exact E1 | exact E2 | split; assumption | exact Hg | exact Hgn | apply (Hfree _ _ _ HP); constructor
    | apply (Hfree _ _ _ HC); constructor | exact OP | exact OC|].
  intros o Ho. rewrite Hm, (proj2 (inside_true g PGSIZE (g + o))) by (unfold PGSIZE; lia). f_equal. lia.
Qed.

(** Mapping the copy in the child; when there is no page for its table, it is freed. *)
Lemma copy_map s g L Td Ud n k :
  two_spaces s L pgdir T U d Td Ud -> page_ok g -> g ∉ L -> ~ owns pgdir T U g -> ~ owns d Td Ud g ->
  0 <= n < UPAGES -> Ud !! n = None -> 0 <= k < 4096 -> k mod 2 = 1 ->
  exists r s3 L3 Td3, mappages d (n * 4096) PGSIZE (V2P g) k s = Ok r s3
    /\ own_bytes pgdir T U (kmem_mem s) (kmem_mem s3) /\ user_bytes Ud (kmem_mem s) (kmem_mem s3)
    /\ (forall x, in_page g x -> kmem_mem s3 x = kmem_mem s x) /\ same_kernel (kmem_mem s) Td (kmem_mem s3) Td3
    /\ ((r = 0 /\ two_spaces s3 L3 pgdir T U d Td3 (<[n := (g, k)]> Ud)
           /\ conserved (g :: L) (owns d Td Ud) L3 (owns d Td3 (<[n := (g, k)]> Ud)))
        \/ (r = -1 /\ exists s4, kfree kend PHYSTOP g s3 = Ok tt s4 /\ two_spaces s4 [g] pgdir T U d Td3 Ud
           /\ conserved (g :: L) (owns d Td Ud) [g] (owns d Td3 Ud) /\ own_bytes pgdir T U (kmem_mem s) (kmem_mem s4)
           /\ same_kernel (kmem_mem s) Td (kmem_mem s4) Td3)).
Proof.
  intros [HP HC Hap] Hg HgL Hgp Hgd Hn Hu Hk0 Hk1.
  destruct (map_page kend PHYSTOP Hk s L d Td Ud n g k HC Hn Hu Hg HgL Hgd Hk0) as (r & s3 & L3 & Td3 & E & X & HK & Hr).
  rewrite (lor_odd k Hk1) in Hr. destruct (extends_other s L Td s3 L3 Td3 d Ud pgdir T U X HP Hap) as [HP3 OP3].
  assert (forall p, owns d Td3 Ud p -> owns d Td Ud p \/ p ∈ L) as Hnew by (intros p; apply (extends_owns s L Td s3 L3 Td3 d Ud p X)).
  assert (forall p, p ∈ L -> ~ owns pgdir T U p) as HPL by (intros p Hp Ho; exact (proj2 (space_owns_ok _ _ _ _ _ _ _ p HP Ho) Hp)).
  assert (forall p, owns pgdir T U p -> ~ owns d Td3 Ud p) as Hap3.
  { intros p Ho Hd. destruct (Hnew p Hd) as [H | H]; [exact (Hap p Ho H) | exact (HPL p H Ho)]. }
  assert (~ owns d Td3 Ud g) as Hgd3 by (intros H; destruct (Hnew g H); contradiction).
  pose proof (extends_conserved s L Td s3 L3 Td3 d Ud X) as HX.
  exists r, s3, L3, Td3. split_and!; [exact E | exact OP3 | exact (extends_user s L Td s3 L3 Td3 d Ud X HC) | | exact HK|].
  { intros x Hx. apply (extends_page s L Td s3 L3 Td3 d g x X Hg HgL); [|exact Hx]. intros H. apply Hgd, owns_tables, H. }
  destruct Hr as [[-> HC3] | (-> & -> & HC3)]; [left | right]; (split; [reflexivity|]).
  - split; [split; [exact HP3 | exact HC3|] |].
    + intros p Ho Hd. apply owns_insert in Hd as [Hd | ->]; [exact (Hap3 p Ho Hd) | contradiction].
    + intros p. specialize (HX p). rewrite elem_of_cons. split.
      * intros [[-> | H] | H]; [right; apply insert_owns; auto | |]; (destruct (proj1 HX) as [H' | H']; [tauto | auto | right; apply insert_owns; auto]).
      * intros [H | H]; [tauto|]. apply owns_insert in H as [H | ->]; tauto.
  - destruct (kfree_spec kend PHYSTOP s3 [] g (sp_kinv _ _ _ _ _ _ _ HP3) Hg ltac:(apply not_elem_of_nil)) as (s4 & E4 & HI4 & _ & Em4).
    assert (forall x, ~ in_page g x -> kmem_mem s4 x = kmem_mem s3 x) as Hm4 by (intros x Hx; rewrite Em4; apply freed_mem_frame, Hx).
    assert (forall D T1 U1, space s3 [] D T1 U1 -> ~ owns D T1 U1 g -> space s4 [g] D T1 U1 /\ own_bytes D T1 U1 (kmem_mem s3) (kmem_mem s4)) as Hboth.
    { intros D T1 U1 HS Hng. apply (space_other s3 [] D T1 U1 s4 [g] (fun p => p = g) HS HI4).
      - intros p Hp. apply list_elem_of_singleton in Hp as ->. exact Hng.
      - intros p ->. split; assumption.
      - intros x Hx. apply Hm4, (Hx g eq_refl). }
    destruct (Hboth _ _ _ HP3 Hgp) as [HP4 OP4], (Hboth _ _ _ HC3 Hgd3) as [HC4 OC4].
    exists s4. split_and!; [exact E4 | split; assumption | | |].
    + intros p. specialize (HX p). rewrite elem_of_cons, list_elem_of_singleton. rewrite elem_of_nil in HX. tauto.
    + intros p x Hp Hx. rewrite (OP4 p x Hp Hx). exact (OP3 p x Hp Hx).
    + intros va Hva. rewrite <-HK by exact Hva. apply pte_frame. intros i p x Hp Hx. apply (OC4 p x); [right; left; eauto | exact Hx].
Qed.

(** The loop of copyuvm from page [n] on. *)
Lemma copy_loop_spec sz n1 fuel : forall s L Td Ud n,
  two_spaces s L pgdir T U d Td Ud -> copied (kmem_mem s) U Ud n ->
  0 <= n -> n1 = (sz + 4095) / 4096 -> 0 <= sz <= KERNBASE -> (forall i, 0 <= i < n1 -> is_Some (U !! i)) ->
  n1 - n + 1 <= Z.of_nat fuel -> (1 <= fuel)%nat -> n <= n1 ->
  exists ok s' L' Td' Ud', copy_loop kend PHYSTOP fuel pgdir d sz (n * 4096) s = Ok ok s'
    /\ two_spaces s' L' pgdir T U d Td' Ud' /\ conserved L (owns d Td Ud) L' (owns d Td' Ud')
    /\ own_bytes pgdir T U (kmem_mem s) (kmem_mem s') /\ same_kernel (kmem_mem s) Td (kmem_mem s') Td'
    /\ ((ok : bool) = true -> copied (kmem_mem s') U Ud' n1).
Proof.
  induction fuel as [|fuel IH]; intros s L Td Ud n HTS HCp Hn En1 Hsz Hall Hfu Hf1 Hle; [lia|]. cbn [copy_loop].
  assert (n * 4096 < sz <-> n < n1) as Hlt by (subst n1; Z.div_mod_to_equations; lia).
  assert (n1 <= UPAGES) as Hmax by (subst n1; apply Z.lt_succ_r, Z.div_lt_upper_bound; unfold UPAGES, KERNBASE in *; lia).
  destruct (Z.ltb_spec (n * 4096) sz) as [Hc | Hc].
  2:{ assert (n = n1) as -> by lia. exists true, s, L, Td, Ud. split_and!; [reflexivity | exact HTS | intros q; reflexivity | intros q x _ _; reflexivity | intros va _; reflexivity | intros _; exact HCp]. }
  destruct (Hall n ltac:(lia)) as [[f k] Hu]. pose proof (ts_parent _ _ _ _ _ _ _ _ HTS) as HP.
  destruct (sp_flags _ _ _ _ _ _ _ HP n f k Hu) as (Hr & Hk0 & Hk1). destruct (sp_page _ _ _ _ _ _ _ HP n f k Hu) as (Hf & _).
  destruct (space_table kend PHYSTOP Hk s L pgdir T U n f k HP Hu) as (p & Hp & El).
  destruct (pt_tab _ _ _ _ _ (sp_pt _ _ _ _ _ _ _ HP) _ _ Hp) as (_ & (_ & Hp0 & _) & _). pose proof (PTX_range (n * 4096)).
  rewrite (bind_step _ _ _ _ _ (walk_found kend PHYSTOP Hkend s pgdir (n * 4096) T (sp_pt _ _ _ _ _ _ _ HP) false p Hp)).
  rewrite (proj2 (Z.eqb_neq _ _)) by lia. rewrite (bind_step _ _ _ _ _ (load_Ok s (p + 4 * PTX (n * 4096)) ltac:(lia))), El.
  destruct (frame_entry kend PHYSTOP Hk f k Hf Hk0 Hk1) as (-> & _ & _ & ->). cbn [negb].
  destruct L as [|g L].
  { destruct (kalloc_spec kend PHYSTOP s [] (sp_kinv _ _ _ _ _ _ _ HP)) as (s1 & E1 & HI1 & _ & Em1). rewrite (bind_step _ _ _ _ _ E1).
    change (hd 0 [] =? 0) with true. cbv iota. exists false, s1, [], Td, Ud. destruct HTS as [_ HC Hap].
    assert (forall D T1 U1, space s [] D T1 U1 -> space s1 [] D T1 U1) as Hboth.
    { intros D T1 U1 HS. apply (space_frame kend PHYSTOP s []); [exact HS | exact HI1 | intros q Hq; inversion Hq | intros x _; rewrite Em1; reflexivity]. }
    split_and!; [reflexivity | split; auto | intros q; reflexivity | intros q x _ _; rewrite Em1; reflexivity | intros va _; rewrite Em1; reflexivity | discriminate]. }
  destruct (copy_frame s g L Td Ud n f k HTS Hu) as (s1 & s2 & E1 & E2 & HTS2 & Hg & HgL & Hgp & Hgd & OP2 & OC2 & Hb2).
  rewrite (bind_step _ _ _ _ _ E1). rewrite (proj2 (Z.eqb_neq _ _)) by (destruct Hg as (_ & ? & _); lia). rewrite (bind_step _ _ _ _ _ E2).
  assert (PTE_FLAGS (V2P f + k) = k) as ->.
  { unfold PTE_FLAGS. change 4095 with (Z.ones 12). rewrite Z.land_ones by lia. change (2 ^ 12) with 4096.
    destruct (V2P_page kend PHYSTOP Hkend f Hf) as (_ & Hm & _). rewrite <-Z.add_mod_idemp_l, Hm, Z.add_0_l by lia. apply Z.mod_small, Hk0. }
  destruct (copy_map s2 g L Td Ud n k HTS2 Hg HgL Hgp Hgd Hr (proj2 HCp n ltac:(lia)) Hk0 Hk1) as (r & s3 & L3 & Td3 & E3 & OP3 & OU3 & Og3 & HK3 & HR).
  rewrite (bind_step _ _ _ _ _ E3).
  assert (own_bytes pgdir T U (kmem_mem s) (kmem_mem s3)) as OP by (intros q x Hq Hx; rewrite (OP3 q x Hq Hx); exact (OP2 q x Hq Hx)).
  assert (same_kernel (kmem_mem s) Td (kmem_mem s2) Td) as HK2.
  { intros va _. apply pte_frame. intros i q x Hq Hx. apply (OC2 q x); [right; left; eauto | exact Hx]. }
  destruct HR as [(-> & HTS3 & HC3) | (-> & s4 & E4 & HTS4 & HC4 & OP4 & HK4)].
  - change (0 <? 0) with false. cbv iota.
    replace (u32 (n * 4096 + PGSIZE)) with ((n + 1) * 4096) by (unfold PGSIZE, UPAGES in *; rewrite uwrap_id by (unfold in_u; lia); lia).
    assert (copied (kmem_mem s3) U (<[n := (g, k)]> Ud) (n + 1)) as HCp3.
    { split.
      - intros i f' k' Hi Hi'. assert (forall o, 0 <= o < 4096 -> kmem_mem s3 (f' + o) = kmem_mem s (f' + o)) as Hsrc
          by (intros o Ho; apply (OP f'); [right; right; eauto | apply frame_offset, Ho]).
        destruct (Z.eq_dec i n) as [-> | Hne].
        + rewrite Hu in Hi'. injection Hi' as <- <-. exists g. split; [apply lookup_insert_eq|]. intros o Ho.
          rewrite Og3, Hb2, Hsrc by (exact Ho || apply frame_offset, Ho). reflexivity.
        + destruct (proj1 HCp i f' k' ltac:(lia) Hi') as (g' & Hg' & Hb'). exists g'. rewrite lookup_insert_ne by congruence. split; [exact Hg'|].
          intros o Ho. rewrite (OU3 i g' k' _ Hg' (frame_offset g' o Ho)), Hsrc by exact Ho.
          rewrite (OC2 g' (g' + o)); [apply Hb', Ho | right; right; eauto | apply frame_offset, Ho].
      - intros i Hi. rewrite lookup_insert_ne by lia. apply (proj2 HCp). lia. }
    destruct (IH s3 L3 Td3 (<[n := (g, k)]> Ud) (n + 1) HTS3 HCp3 ltac:(lia) En1 Hsz Hall ltac:(lia) ltac:(lia) ltac:(lia))
      as (ok & s' & L' & Td' & Ud' & E & HTS' & HC' & OP' & HK' & HCp').
    exists ok, s', L', Td', Ud'. split_and!; [exact E | exact HTS' | exact (conserved_trans _ _ _ _ _ _ HC3 HC') | | | exact HCp'].
    + intros q x Hq Hx. rewrite (OP' q x Hq Hx). exact (OP q x Hq Hx).
    + intros va Hva. rewrite HK', HK3, HK2 by exact Hva. reflexivity.
  - change (-1 <? 0) with true. cbv iota. rewrite (bind_step _ _ _ _ _ E4). exists false, s4, [g], Td3, Ud.
    split_and!; [reflexivity | exact HTS4 | exact HC4 | intros q x Hq Hx; rewrite (OP4 q x Hq Hx); exact (OP2 q x Hq Hx) | | discriminate].
    intros va Hva. rewrite HK4, HK2 by exact Hva. reflexivity.
Qed.
End copy.

(** The pages of an address space while a setupkvm takes free pages for another. *)
Lemma space_after_free s L pgdir T U s' L' :
  space s L pgdir T U -> kinv s' L' -> (forall p, p ∈ L' -> p ∈ L) ->
  (forall x, (forall p, p ∈ L -> ~ in_page p x) -> kmem_mem s' x = kmem_mem s x) ->
  space s' L' pgdir T U /\ own_bytes pgdir T U (kmem_mem s) (kmem_mem s').
Proof.
  intros HS HI HL Hm. assert (forall p, p ∈ L -> ~ owns pgdir T U p) as Hfree
    by (intros p Hp Ho; exact (proj2 (space_owns_ok _ _ _ _ _ _ _ p HS Ho) Hp)).
  apply (space_other s L pgdir T U s' L' (fun p => p ∈ L)); auto.
  intros p Hp. split; [|exact (Hfree p Hp)]. pose proof (k_pages _ _ _ _ (sp_kinv _ _ _ _ _ _ _ HS)) as HP.
  rewrite Forall_forall in HP. exact (HP p Hp).
Qed.

Lemma copyuvm_spec s L pgdir T U sz :
  kernel_layout -> space s L pgdir T U -> 0 <= sz <= KERNBASE -> (forall i, 0 <= i < (sz + 4095) / 4096 -> is_Some (U !! i)) ->
  exists d s' L', copyuvm kend PHYSTOP kdata pgdir sz s = Ok d s' /\ own_bytes pgdir T U (kmem_mem s) (kmem_mem s')
    /\ ((d <> 0 /\ exists Td Ud, two_spaces s' L' pgdir T U d Td Ud /\ copied (kmem_mem s') U Ud ((sz + 4095) / 4096)
           /\ (forall va, KERNBASE <= va < 2 ^ 32 -> pte (kmem_mem s') Td va = kernel_pte va)
           /\ conserved L (fun _ => False) L' (owns d Td Ud))
        \/ (d = 0 /\ space s' L' pgdir T U /\ L' ≡ₚ L)).
Proof.
  intros HL HS Hsz Hall. pose proof (sp_kinv _ _ _ _ _ _ _ HS) as HI. pose proof (k_nodup _ _ _ _ HI) as Hnd.
  destruct (setupkvm_spec s L HL HI) as (d & s1 & L1 & E1 & Hm1 & HR). unfold copyuvm. rewrite (bind_step _ _ _ _ _ E1).
  destruct HR as [(Hd0 & Td & HC & Hcons & Hpte) | (-> & HI1 & Hp1 & _)].
  2:{ exists 0, s1, L1. destruct (space_after_free s L pgdir T U s1 L1 HS HI1) as [HS1 HO]; [intros p; rewrite Hp1; auto | exact Hm1|].
      split_and!; [reflexivity | exact HO | right; auto]. }
  rewrite (proj2 (Z.eqb_neq _ _) Hd0).
  assert (forall p, p ∈ L1 \/ owns d Td ∅ p -> p ∈ L) as Hsub by (intros p Hp; specialize (Hcons p); tauto).
  destruct (space_after_free s L pgdir T U s1 L1 HS (sp_kinv _ _ _ _ _ _ _ HC)) as [HS1 HO1]; [auto | exact Hm1|].
  assert (two_spaces s1 L1 pgdir T U d Td ∅) as HTS.
  { split; auto. intros p Ho Hd. exact (proj2 (space_owns_ok _ _ _ _ _ _ _ p HS Ho) (Hsub p (or_intror Hd))). }
  assert (copied (kmem_mem s1) U ∅ 0) as HCp by (split; [intros i f k Hi; lia | intros i _; apply lookup_empty]).
  destruct (copy_loop_spec pgdir T U d sz ((sz + 4095) / 4096) (Z.to_nat (sz / PGSIZE) + 2) s1 L1 Td ∅ 0 HTS HCp)
    as (ok & s2 & L2 & Td2 & Ud2 & E2 & HTS2 & Hcons2 & HO2 & HK2 & HCp2);
    [lia | reflexivity | exact Hsz | exact Hall | unfold PGSIZE; Z.div_mod_to_equations; lia | lia | Z.div_mod_to_equations; lia|].
  change (0 * 4096) with 0 in E2. rewrite (bind_step _ _ _ _ _ E2).
  pose proof (conserved_trans _ _ _ _ _ _ Hcons Hcons2) as Hall2.
  assert (own_bytes pgdir T U (kmem_mem s) (kmem_mem s2)) as HO by (intros p x Hp Hx; rewrite (HO2 p x Hp Hx); exact (HO1 p x Hp Hx)).
  destruct ok.
  - exists d, s2, L2. split_and!; [reflexivity | exact HO | left]. split; [exact Hd0|]. exists Td2, Ud2. split_and!; auto.
    intros va Hva. rewrite HK2 by exact Hva. apply Hpte. unfold KERNBASE in *. lia.
  - destruct HTS2 as [HP2 HC2 Hap2]. destruct (freed_all s2 L2 d Td2 Ud2 L HC2 Hall2 Hnd) as (s3 & L3 & E3 & HI3 & HP3 & Hm3).
    rewrite (bind_step _ _ _ _ _ E3). exists 0, s3, L3.
    destruct (space_other s2 L2 pgdir T U s3 L3 (owns d Td2 Ud2) HP2 HI3) as [HS3 HO3]; [| |exact Hm3|].
    + intros p Hp Ho. rewrite HP3 in Hp. exact (proj2 (space_owns_ok _ _ _ _ _ _ _ p HS Ho) Hp).
    + intros p Hp. split; [apply (space_owns_ok _ _ _ _ _ _ _ p HC2 Hp) | intros Ho; exact (Hap2 p Ho Hp)].
    + split_and!; [reflexivity | intros p x Hp Hx; rewrite (HO3 p x Hp Hx); exact (HO p x Hp Hx) | right; auto].
Qed.

(** ** allocuvm *)

Lemma zero_frame s g L pgdir T U :
  space s (g :: L) pgdir T U ->
  exists s1 s2, kalloc s = Ok g s1 /\ kmemset g 0 PGSIZE s1 = Ok tt s2 /\ space s2 L pgdir T U
    /\ page_ok g /\ (g ∉ L) /\ ~ owns pgdir T U g /\ own_bytes pgdir T U (kmem_mem s) (kmem_mem s2)
    /\ forall x, in_page g x -> kmem_mem s2 x = 0.
Proof.
  intros HS. pose proof (sp_kinv _ _ _ _ _ _ _ HS) as HI.
  destruct (kalloc_spec kend PHYSTOP s (g :: L) HI) as (s1 & E1 & HI1 & _ & Em1). cbn [hd tail] in *.
  pose proof (k_pages _ _ _ _ HI) as Hpg. apply Forall_cons in Hpg as [Hg HgL]. pose proof (k_nodup _ _ _ _ HI) as Hnd. apply NoDup_cons in Hnd as [Hgn _].
  assert (forall p, p ∈ g :: L -> ~ owns pgdir T U p) as Hfree by (intros p Hp Ho; exact (proj2 (space_owns_ok _ _ _ _ _ _ _ p HS Ho) Hp)).
  assert (g <> 0) as Hg0 by (destruct Hg as (_ & ? & _); lia).
  destruct (fresh_dir s1 g L HI1 Hg Hgn) as (HF & _ & Hout). set (s2 := KState _ _ _ _) in *.
  destruct (space_other s (g :: L) pgdir T U s2 L (fun p => p = g) HS (sp_kinv _ _ _ _ _ _ _ HF)) as [HS2 HO].
  - intros p Hp. apply Hfree. right. exact Hp.
  - intros p ->. split; [exact Hg | apply Hfree; constructor].
  - intros x Hx. rewrite Hout by exact (Hx g eq_refl). rewrite Em1. reflexivity.
  - exists s1, s2. split_and!; [exact E1 | exact (kmemset_Ok s1 g 0 PGSIZE Hg0) | exact HS2 | exact Hg | exact Hgn | apply Hfree; constructor | exact HO|].
    intros x Hx. unfold s2. cbn [kmem_mem]. rewrite memset_spec by (unfold PGSIZE; lia).
    rewrite (proj2 (inside_true g PGSIZE x)) by exact Hx. reflexivity.
Qed.

(** [U] is [U0] with zeroed, writable user pages from [n0] on below [n]. *)
Definition grown (m : mem) (U0 U : frames) (n0 n : Z) : Prop :=
  (forall i, ~ (n0 <= i < n) -> U !! i = U0 !! i)
  /\ (forall i, n0 <= i < n -> exists g, U !! i = Some (g, 7) /\ forall x, in_page g x -> m x = 0).

Lemma grown_trim m U0 U n0 n n1 :
  grown m U0 U n0 n -> n <= n1 -> (forall i, n0 <= i < n1 -> U0 !! i = None) -> trim n0 n1 U = U0.
Proof.
  intros [Hout _] Hn Hnone. apply map_eq. intros i. apply option_eq. intros v. rewrite trim_Some. split.
  - intros [Hi Hr]. rewrite <-Hout by lia. exact Hi.
  - intros Hi. destruct (decide (n0 <= i < n1)) as [Hr | Hr]; [rewrite Hnone in Hi by exact Hr; discriminate|].
    split; [rewrite Hout by lia; exact Hi | exact Hr].
Qed.

(** Going back to the old size: the pages allocated since are given back. *)
Lemma undo_growth s L pgdir T U0 U oldsz newsz n :
  let n0 := (oldsz + 4095) / 4096 in let n1 := (newsz + 4095) / 4096 in
  space s L pgdir T U -> grown (kmem_mem s) U0 U n0 n -> n <= n1 -> (forall i, n0 <= i < n1 -> U0 !! i = None) ->
  0 <= oldsz -> 0 <= newsz <= KERNBASE ->
  exists r s' L', deallocuvm kend PHYSTOP pgdir newsz oldsz s = Ok r s' /\ space s' L' pgdir T U0
    /\ conserved L (owns pgdir T U) L' (owns pgdir T U0) /\ user_bytes U0 (kmem_mem s) (kmem_mem s')
    /\ same_kernel (kmem_mem s) T (kmem_mem s') T.
Proof.
  intros n0 n1 HS HG Hn Hnone Hold Hnew.
  destruct (deallocuvm_spec kend PHYSTOP Hk s L pgdir T U newsz oldsz HS Hold Hnew) as (s' & F & E & HS' & HF & HK & HM).
  fold n0 n1 in HS', HF. rewrite (grown_trim (kmem_mem s) U0 U n0 n n1 HG Hn Hnone) in HS'.
  assert (forall i f k, U0 !! i = Some (f, k) -> U !! i = Some (f, k) /\ ~ (n0 <= i < n1)) as Hkeep.
  { intros i f k Hi. rewrite <-(grown_trim (kmem_mem s) U0 U n0 n n1 HG Hn Hnone) in Hi. apply trim_Some in Hi. exact Hi. }
  exists (Z.min newsz oldsz), s', (F ++ L). split_and!; [exact E | exact HS' | | | exact HK].
  - intros p. rewrite elem_of_app, (HF p). unfold owns. split.
    + intros [Hp | [-> | [H | (i & k & Hi)]]]; [tauto | tauto | tauto|].
      destruct (decide (n0 <= i < n1)) as [Hr | Hr]; [left; left; eauto|]. right. right. right. exists i, k.
      rewrite <-(proj1 HG) by lia. exact Hi.
    + intros [[(i & k & _ & Hi) | Hp] | [-> | [H | (i & k & Hi)]]]; [right; right; right; eauto | tauto | tauto | tauto|].
      right. right. right. exists i, k. apply Hkeep, Hi.
  - intros i f k x Hi Hx. destruct (Hkeep i f k Hi) as [Hu Hr]. destruct (sp_page _ _ _ _ _ _ _ HS i f k Hu) as (Hf & _ & Hfd & Hft).
    apply HM.
    + pose proof (sp_pt _ _ _ _ _ _ _ HS) as HT. intros [H | (j & q & Hq & H)].
      * exact (pages_apart kend PHYSTOP f pgdir x Hf (pt_dir _ _ _ _ _ HT) Hfd Hx H).
      * exact (pages_apart kend PHYSTOP f q x Hf (proj1 (proj2 (pt_tab _ _ _ _ _ HT j q Hq))) (Hft j q Hq) Hx H).
    + intros g Hg. apply HF in Hg as (j & k' & Hj & Hg). destruct (sp_page _ _ _ _ _ _ _ HS j g k' Hg) as (Hgok & _).
      apply (pages_apart kend PHYSTOP f g x Hf Hgok); [|exact Hx]. intros ->. apply Hr. rewrite (sp_inj _ _ _ _ _ _ _ HS i j g k k' Hu Hg). exact Hj.
Qed.

Lemma alloc_loop_spec pgdir U0 oldsz newsz fuel : forall s L T U n,
  let n0 := (oldsz + 4095) / 4096 in let n1 := (newsz + 4095) / 4096 in
  space s L pgdir T U -> grown (kmem_mem s) U0 U n0 n -> n0 <= n <= n1 -> (forall i, n0 <= i < n1 -> U0 !! i = None) ->
  0 <= oldsz -> 0 <= newsz <= KERNBASE -> n1 - n + 1 <= Z.of_nat fuel -> (1 <= fuel)%nat ->
  exists r killed s' L' T' U', alloc_loop kend PHYSTOP fuel pgdir oldsz newsz (n * 4096) s = Ok (r, killed) s'
    /\ space s' L' pgdir T' U' /\ conserved L (owns pgdir T U) L' (owns pgdir T' U')
    /\ user_bytes U0 (kmem_mem s) (kmem_mem s') /\ same_kernel (kmem_mem s) T (kmem_mem s') T'
    /\ ((r = newsz /\ grown (kmem_mem s') U0 U' n0 n1) \/ (r = 0 /\ U' = U0)).
Proof.
  induction fuel as [|fuel IH]; intros s L T U n n0 n1 HS HG Hn Hnone Hold Hnew Hfu Hf1; [lia|]. cbn [alloc_loop].
  assert (0 <= n0) as Hn0 by (apply Z.div_pos; lia).
  assert (n * 4096 < newsz <-> n < n1) as Hlt by (unfold n1; Z.div_mod_to_equations; lia).
  assert (n1 <= UPAGES) as Hmax by (apply Z.lt_succ_r, Z.div_lt_upper_bound; unfold UPAGES, KERNBASE in *; lia).
  destruct (Z.ltb_spec (n * 4096) newsz) as [Hc | Hc].
  2:{ assert (n = n1) as -> by lia. exists newsz, false, s, L, T, U. split_and!; [reflexivity | exact HS | intros q; reflexivity | intros i f k x _ _; reflexivity | intros va _; reflexivity | left; auto]. }
  assert (U !! n = None) as Hu by (rewrite (proj1 HG) by lia; apply Hnone; lia).
  assert (forall i f k, U0 !! i = Some (f, k) -> U !! i = Some (f, k)) as Hincl.
  { intros i f k Hi. destruct (decide (n0 <= i < n1)) as [Hr | Hr]; [rewrite Hnone in Hi by exact Hr; discriminate|]. rewrite (proj1 HG) by lia. exact Hi. }
  destruct L as [|g L].
  { destruct (kalloc_spec kend PHYSTOP s [] (sp_kinv _ _ _ _ _ _ _ HS)) as (s1 & E1 & HI1 & _ & Em1). rewrite (bind_step _ _ _ _ _ E1).
    change (hd 0 [] =? 0) with true. cbv iota.
    assert (space s1 [] pgdir T U) as HS1
      by (apply (space_frame kend PHYSTOP s []); [exact HS | exact HI1 | intros q Hq; inversion Hq | intros x _; rewrite Em1; reflexivity]).
    rewrite <-Em1 in HG. destruct (undo_growth s1 [] pgdir T U0 U oldsz newsz n HS1 HG (proj2 Hn) Hnone Hold Hnew) as (r & s2 & L2 & E2 & HS2 & HC2 & HU2 & HK2).
    rewrite Em1 in HU2, HK2. rewrite (bind_step _ _ _ _ _ E2). exists 0, true, s2, L2, T, U0. split_and!; auto. }
  destruct (zero_frame s g L pgdir T U HS) as (s1 & s2 & E1 & E2 & HS2 & Hg & HgL & Hgo & HO2 & Hz2).
  rewrite (bind_step _ _ _ _ _ E1). rewrite (proj2 (Z.eqb_neq _ _)) by (destruct Hg as (_ & ? & _); lia). rewrite (bind_step _ _ _ _ _ E2).
  change (Z.lor PTE_W PTE_U) with 6.
  destruct (map_page kend PHYSTOP Hk s2 L pgdir T U n g 6 HS2 ltac:(lia) Hu Hg HgL Hgo ltac:(lia)) as (r & s3 & L3 & T3 & E3 & X & HK3 & HR).
  rewrite (bind_step _ _ _ _ _ E3). change (Z.lor 6 1) with 7 in HR.
  pose proof (extends_user s2 L T s3 L3 T3 pgdir U X HS2) as HU3. pose proof (extends_conserved s2 L T s3 L3 T3 pgdir U X) as HX.
  assert (same_kernel (kmem_mem s) T (kmem_mem s3) T3) as HK.
  { intros va Hva. rewrite HK3 by exact Hva. apply pte_frame. intros i q x Hq Hx. apply (HO2 q x); [right; left; eauto | exact Hx]. }
  assert (user_bytes U (kmem_mem s) (kmem_mem s3)) as HU.
  { intros i f k x Hi Hx. rewrite (HU3 i f k x Hi Hx). apply (HO2 f x); [right; right; eauto | exact Hx]. }
  assert (user_bytes U0 (kmem_mem s) (kmem_mem s3)) as HU0 by (intros i f k x Hi; apply (HU i f k x), Hincl, Hi).
  assert (forall x, in_page g x -> kmem_mem s3 x = 0) as Hz3.
  { intros x Hx. rewrite (extends_page s2 L T s3 L3 T3 pgdir g x X Hg HgL); [apply Hz2, Hx | intros H; apply Hgo, owns_tables, H | exact Hx]. }
  assert (grown (kmem_mem s3) U0 U n0 n) as HG3.
  { split; [apply HG|]. intros i Hi. destruct (proj2 HG i Hi) as (g' & Hg' & Hz). exists g'. split; [exact Hg'|].
    intros x Hx. rewrite (HU i g' 7 x Hg' Hx). apply Hz, Hx. }
  destruct HR as [[-> HS3] | (-> & -> & HS3)].
  - change (0 <? 0) with false. cbv iota.
    replace (u32 (n * 4096 + PGSIZE)) with ((n + 1) * 4096) by (unfold PGSIZE, UPAGES in *; rewrite uwrap_id by (unfold in_u; lia); lia).
    assert (grown (kmem_mem s3) U0 (<[n := (g, 7)]> U) n0 (n + 1)) as HG4.
    { split; intros i Hi.
      - rewrite lookup_insert_ne by lia. apply HG. lia.
      - destruct (Z.eq_dec i n) as [-> | Hne]; [exists g; split; [apply lookup_insert_eq | exact Hz3]|].
        rewrite lookup_insert_ne by congruence. apply (proj2 HG3). lia. }
    destruct (IH s3 L3 T3 (<[n := (g, 7)]> U) (n + 1) HS3 HG4 ltac:(fold n0 n1; lia) Hnone Hold Hnew ltac:(fold n1; lia) ltac:(lia))
      as (r & killed & s' & L' & T' & U' & E & HS' & HC' & HU' & HK' & HR').
    exists r, killed, s', L', T', U'. split_and!; [exact E | exact HS' | | | | exact HR'].
    + eapply conserved_trans; [|exact HC']. intros p. specialize (HX p). rewrite elem_of_cons. split.
      * intros [[-> | H] | H]; [right; apply insert_owns; auto | |]; (destruct (proj1 HX) as [H' | H']; [tauto | auto | right; apply insert_owns; auto]).
      * intros [H | H]; [tauto|]. apply owns_insert in H as [H | ->]; tauto.
    + intros i f k x Hi Hx. rewrite (HU' i f k x Hi Hx). exact (HU0 i f k x Hi Hx).
    + intros va Hva. rewrite HK', HK by exact Hva. reflexivity.
  - change (-1 <? 0) with true. cbv iota.
    destruct (undo_growth s3 [] pgdir T3 U0 U oldsz newsz n HS3 HG3 (proj2 Hn) Hnone Hold Hnew) as (r & s4 & L4 & E4 & HS4 & HC4 & HU4 & HK4).
    rewrite (bind_step _ _ _ _ _ E4).
    assert (~ owns pgdir T3 U g) as Hgo3 by (intros H; destruct (extends_owns s2 L T s3 [] T3 pgdir U g X H); contradiction).
    assert ((g ∉ L4) /\ ~ owns pgdir T3 U0 g) as [HgL4 Hgo4] by (specialize (HC4 g); rewrite elem_of_nil in HC4; tauto).
    destruct (kfree_spec kend PHYSTOP s4 L4 g (sp_kinv _ _ _ _ _ _ _ HS4) Hg HgL4) as (s5 & E5 & HI5 & _ & Em5). rewrite (bind_step _ _ _ _ _ E5).
    destruct (space_other s4 L4 pgdir T3 U0 s5 (g :: L4) (fun p => p = g) HS4 HI5) as [HS5 HO5].
    + intros p Hp. apply elem_of_cons in Hp as [-> | Hp]; [exact Hgo4|]. intros Ho. exact (proj2 (space_owns_ok _ _ _ _ _ _ _ p HS4 Ho) Hp).
    + intros p ->. split; assumption.
    + intros x Hx. rewrite Em5. apply freed_mem_frame, (Hx g eq_refl).
    + exists 0, false, s5, (g :: L4), T3, U0. split_and!; [reflexivity | exact HS5 | | | | right; auto].
      * intros p. specialize (HX p). specialize (HC4 p). rewrite !elem_of_cons. rewrite elem_of_nil in *. tauto.
      * intros i f k x Hi Hx. rewrite (HO5 f x) by (exact Hx || (right; right; eauto)). rewrite (HU4 i f k x Hi Hx). exact (HU0 i f k x Hi Hx).
      * intros va Hva. rewrite <-HK, <-HK4 by exact Hva. apply pte_frame. intros i q x Hq Hx. apply (HO5 q x); [right; left; eauto | exact Hx].
Qed.

Lemma allocuvm_spec s L pgdir T U oldsz newsz :
  let n0 := (oldsz + 4095) / 4096 in let n1 := (newsz + 4095) / 4096 in
  space s L pgdir T U -> (forall i, n0 <= i < n1 -> U !! i = None) -> 0 <= oldsz <= newsz -> newsz <= KERNBASE ->
  exists r killed s' L' T' U', allocuvm kend PHYSTOP pgdir oldsz newsz s = Ok (r, killed) s'
    /\ space s' L' pgdir T' U' /\ conserved L (owns pgdir T U) L' (owns pgdir T' U')
    /\ user_bytes U (kmem_mem s) (kmem_mem s') /\ same_kernel (kmem_mem s) T (kmem_mem s') T'
    /\ ((r = newsz /\ grown (kmem_mem s') U U' n0 n1) \/ (r = 0 /\ U' = U)).
Proof.
  intros n0 n1 HS Hnone Hsz Hk2. unfold allocuvm. rewrite (proj2 (Z.ltb_ge _ _)) by lia.
  assert (PGROUNDUP oldsz = n0 * 4096) as -> by (rewrite PGROUNDUP_spec by (unfold PGSIZE, KERNBASE in *; lia); unfold PGSIZE, n0; f_equal; f_equal; lia).
  apply (alloc_loop_spec pgdir U oldsz newsz _ s L T U n0 HS); try lia.
  - split; [reflexivity | intros i Hi; lia].
  - split; [lia | apply Z.div_le_mono; lia].
  - exact Hnone.
  - unfold PGSIZE, n0. clear -Hsz. Z.div_mod_to_equations; lia.
Qed.

(** ** The whole life *)

(** What exec, fork and the exits of both processes do to memory: an address space of
    [sz] bytes, a copy of it, and both taken apart; less when memory runs out. *)
Definition lifecycle (sz : Z) : M kstate unit :=
  d ← setupkvm kend PHYSTOP kdata;
  if d =? 0 then mret tt
  else
    r ← allocuvm kend PHYSTOP d 0 sz;
    (if fst r =? sz then
       c ← copyuvm kend PHYSTOP kdata d sz;
       if c =? 0 then mret tt else freevm kend PHYSTOP c
     else mret tt);;
    freevm kend PHYSTOP d.

Lemma conserved_perm L L' : conserved L (fun _ => False) L' (fun _ => False) -> NoDup L -> NoDup L' -> L' ≡ₚ L.
Proof. intros H H1 H2. apply NoDup_Permutation; [exact H2 | exact H1|]. intros p. specialize (H p). tauto. Qed.

Lemma grown_present m U n : grown m ∅ U 0 n -> forall i, 0 <= i < n -> is_Some (U !! i).
Proof. intros [_ H] i Hi. destruct (H i Hi) as (g & Hg & _). rewrite Hg. eauto. Qed.

Lemma lifecycle_spec s L sz :
  kernel_layout -> kinv s L -> 0 <= sz <= KERNBASE ->
  exists s' L', lifecycle sz s = Ok tt s' /\ kinv s' L' /\ L' ≡ₚ L.
Proof.
  intros HL HI Hsz. pose proof (k_nodup _ _ _ _ HI) as Hnd. unfold lifecycle.
  destruct (setupkvm_spec s L HL HI) as (d & s1 & L1 & E1 & _ & [(Hd & T & HS & HC & _) | (-> & HI1 & HP & _)]); rewrite (bind_step _ _ _ _ _ E1).
  2:{ exists s1, L1. auto. }
  rewrite (proj2 (Z.eqb_neq _ _) Hd).
  destruct (allocuvm_spec s1 L1 d T ∅ 0 sz HS) as (r & killed & s2 & L2 & T2 & U2 & E2 & HS2 & HC2 & _ & _ & HR);
    [intros i _; apply lookup_empty | lia | lia|].
  rewrite (bind_step _ _ _ _ _ E2). cbn [fst]. pose proof (conserved_trans _ _ _ _ _ _ HC HC2) as HC02.
  assert (exists s3 L3, (if r =? sz then c ← copyuvm kend PHYSTOP kdata d sz; if c =? 0 then mret tt else freevm kend PHYSTOP c else mret tt) s2 = Ok tt s3
    /\ space s3 L3 d T2 U2 /\ L3 ≡ₚ L2) as (s3 & L3 & E3 & HS3 & HP3).
  { destruct (Z.eqb_spec r sz) as [-> |]; [|exists s2, L2; auto].
    destruct (copyuvm_spec s2 L2 d T2 U2 sz HL HS2 Hsz) as (c & s3 & L3 & E3 & _ & HR3).
    { intros i Hi. destruct HR as [[_ HG] | [-> _]]; [|change ((0 + 4095) / 4096) with 0 in Hi; lia].
      exact (grown_present _ _ _ HG i Hi). }
    rewrite (bind_step _ _ _ _ _ E3). destruct HR3 as [(Hc & Td & Ud & [HP4 HC4 Hap] & _ & _ & HC3) | (-> & HS3 & HP3)].
    2:{ exists s3, L3. auto. }
    rewrite (proj2 (Z.eqb_neq _ _) Hc).
    destruct (freed_all s3 L3 c Td Ud L2 HC4 HC3 (k_nodup _ _ _ _ (sp_kinv _ _ _ _ _ _ _ HS2))) as (s4 & L4 & E4 & HI4 & HP5 & Hm4).
    exists s4, L4. split_and!; [exact E4 | | exact HP5].
    apply (space_other s3 L3 d T2 U2 s4 L4 (owns c Td Ud) HP4 HI4); [| |exact Hm4].
    - intros p Hp Ho. rewrite HP5 in Hp. exact (proj2 (space_owns_ok _ _ _ _ _ _ _ p HS2 Ho) Hp).
    - intros p Hp. split; [apply (space_owns_ok _ _ _ _ _ _ _ p HC4 Hp) | intros Ho; exact (Hap p Ho Hp)]. }
  rewrite (bind_step _ _ _ _ _ E3). destruct (freed_all s3 L3 d T2 U2 L HS3) as (s4 & L4 & E4 & HI4 & HP4 & _); [|exact Hnd|eauto].
  intros p. rewrite (HC02 p), HP3. reflexivity.
Qed.
End life.

(** fork's copy of the parent's memory.  For an address space whose first [sz] bytes
    are mapped, copyuvm returns the page directory of a child: it shares no page with
    the parent, its first [sz] bytes are those of the parent with the same flags on
    frames of their own, nothing else is mapped below KERNBASE, its upper half is the
    kernel's, and every page it has was free before.  When memory runs out, copyuvm
    returns 0 with every page it took back on the free list.  Either way the parent's
    page tables and bytes are as they were. *)
Theorem copyuvm_correct kend PHYSTOP kdata s L pgdir T U sz :
  KERNBASE < kend -> kernel_layout PHYSTOP kdata -> space kend PHYSTOP s L pgdir T U -> 0 <= sz <= KERNBASE ->
  (forall i, 0 <= i < (sz + 4095) / 4096 -> is_Some (U !! i)) ->
  exists d s' L', copyuvm kend PHYSTOP kdata pgdir sz s = Ok d s' /\ own_bytes pgdir T U (kmem_mem s) (kmem_mem s')
    /\ ((d <> 0 /\ exists Td Ud, two_spaces kend PHYSTOP s' L' pgdir T U d Td Ud /\ copied (kmem_mem s') U Ud ((sz + 4095) / 4096)
           /\ (forall va, KERNBASE <= va < 2 ^ 32 -> pte (kmem_mem s') Td va = kernel_pte PHYSTOP kdata va)
           /\ conserved L (fun _ => False) L' (owns d Td Ud))
        \/ (d = 0 /\ space kend PHYSTOP s' L' pgdir T U /\ L' ≡ₚ L)).
Proof. intros Hk HL HS. exact (copyuvm_spec kend PHYSTOP kdata Hk s L pgdir T U sz HL HS). Qed.

(** Growing a process: allocuvm from [oldsz] to [newsz] adds exactly the pages
    between, each zeroed, writable, for user code and on a frame that was free, and
    returns [newsz]; or, when memory runs out, returns 0 with the address space as it
    was.  The bytes of the pages that were there and the kernel's half do not change,
    and the pages free and owned together are the same before and after. *)
Theorem allocuvm_correct kend PHYSTOP s L pgdir T U oldsz newsz :
  let n0 := (oldsz + 4095) / 4096 in let n1 := (newsz + 4095) / 4096 in
  KERNBASE < kend -> space kend PHYSTOP s L pgdir T U -> (forall i, n0 <= i < n1 -> U !! i = None) ->
  0 <= oldsz <= newsz -> newsz <= KERNBASE ->
  exists r killed s' L' T' U', allocuvm kend PHYSTOP pgdir oldsz newsz s = Ok (r, killed) s'
    /\ space kend PHYSTOP s' L' pgdir T' U' /\ conserved L (owns pgdir T U) L' (owns pgdir T' U')
    /\ user_bytes U (kmem_mem s) (kmem_mem s') /\ same_kernel (kmem_mem s) T (kmem_mem s') T'
    /\ ((r = newsz /\ grown (kmem_mem s') U U' n0 n1) \/ (r = 0 /\ U' = U)).
Proof. intros n0 n1 Hk HS. exact (allocuvm_spec kend PHYSTOP Hk s L pgdir T U oldsz newsz HS). Qed.

(** C25. No page is lost or freed twice over the life of address spaces: building one
    with setupkvm, growing it with allocuvm, copying it with copyuvm and taking both
    apart with freevm leaves exactly the free pages there were, whatever the size and
    wherever memory runs out. *)
Theorem address_spaces_conserve_pages kend PHYSTOP kdata s L sz :
  KERNBASE < kend -> kernel_layout PHYSTOP kdata -> kinv kend PHYSTOP s L -> 0 <= sz <= KERNBASE ->
  exists s' L', lifecycle kend PHYSTOP kdata sz s = Ok tt s' /\ kinv kend PHYSTOP s' L' /\ L' ≡ₚ L.
Proof. intros Hk. exact (lifecycle_spec kend PHYSTOP kdata Hk s L sz). Qed.

(** ** A concrete address space

    4 MB of memory, the kernel ending at 2 MB; one user page, one free page. *)
Definition lf_end : Z := KERNBASE + 0x200000.
Definition lf_top : Z := 0x400000.
Definition lf_data : Z := KERNBASE + 0x180000.
Definition lf_dir : Z := lf_end.
Definition lf_tab : Z := lf_end + 4096.
Definition lf_frame : Z := lf_end + 8192.
Definition lf_free : Z := lf_end + 12288.
Definition lf_mem : mem := store32 (store32 (fun _ => 0) lf_dir (V2P lf_tab + 7)) lf_tab (V2P lf_frame + 7).
Definition lf_state : kstate := KState lf_mem false lf_free (boot_state true).
Definition lf_T : gmap Z Z := {[0 := lf_tab]}.
Definition lf_U : frames := {[0 := (lf_frame, 7)]}.

Lemma lf_layout : kernel_layout lf_top lf_data.
Proof. split; vm_compute; repeat split; congruence. Qed.

Lemma lf_pages : Forall (page_ok lf_end lf_top) [lf_dir; lf_tab; lf_frame; lf_free].
Proof. repeat constructor; vm_compute; congruence. Qed.

Lemma lf_kinv : kinv lf_end lf_top lf_state [lf_free].
Proof.
  split; cbn [lf_state kmem_mem freelist klocks].
  - split; [reflexivity | vm_compute; reflexivity].
  - repeat constructor. apply not_elem_of_nil.
  - exact (Forall_drop _ 3 _ lf_pages).
  - exists true, 0. apply boot_inv.
  - reflexivity.
Qed.

Lemma lf_entry_zero p x : (p = lf_dir \/ p = lf_tab) -> 1 <= x < 1024 -> load32 lf_mem (p + 4 * x) = 0.
Proof.
  intros Hp Hx. unfold load32, lf_mem. rewrite !store32_ne; [reflexivity | ..]; unfold lf_dir, lf_tab in *; lia.
Qed.

Lemma lf_space : space lf_end lf_top lf_state [lf_free] lf_dir lf_T lf_U.
Proof.
  pose proof lf_pages as HP. rewrite Forall_forall in HP.
  assert (forall x p, lf_T !! x = Some p -> x = 0 /\ p = lf_tab) as HT by (intros x p H; unfold lf_T in H; apply lookup_singleton_Some in H as [<- <-]; auto).
  assert (forall n f k, lf_U !! n = Some (f, k) -> n = 0 /\ f = lf_frame /\ k = 7) as HU
    by (intros n f k H; unfold lf_U in H; apply lookup_singleton_Some in H as [<- [= <- <-]]; auto).
  split.
  - exact lf_kinv.
  - split; [apply HP; set_solver | | |].
    + intros x p H. apply HT in H as [-> ->]. split_and!; [lia | lia | apply HP; set_solver | discriminate | vm_compute; reflexivity].
    + intros x Hx H. destruct (Z.eq_dec x 0) as [-> | Hne]; [discriminate|].
      cbn [kmem_mem lf_state]. rewrite lf_entry_zero by (auto || lia). reflexivity.
    + intros x y p H1 H2. apply HT in H1 as [-> _]. apply HT in H2 as [-> _]. reflexivity.
  - split; [|intros x p H; apply HT in H as [-> ->]]; rewrite list_elem_of_singleton; discriminate.
  - intros n f k H. apply HU in H as (-> & -> & ->). split_and!; [apply HP; set_solver | rewrite list_elem_of_singleton; discriminate | discriminate|].
    intros x p H. apply HT in H as [-> ->]. discriminate.
  - intros n f k H. apply HU in H as (-> & -> & ->). unfold UPAGES. split_and!; lia || reflexivity.
  - intros n n' f k k' H1 H2. apply HU in H1 as (-> & _). apply HU in H2 as (-> & _). reflexivity.
  - intros n Hn. destruct (page_number n Hn) as [Hva Hdiv]. unfold pte. rewrite PDX_div, PTX_mod, Hdiv by exact Hva.
    destruct (Z.eq_dec n 0) as [-> | Hne]; [vm_compute; reflexivity|].
    unfold lf_U. rewrite (lookup_singleton_ne 0 n) by congruence. unfold lf_T.
    destruct (Z.eq_dec (n / 1024) 0) as [E | E].
    + rewrite E, lookup_singleton_eq. apply lf_entry_zero; [auto|]. Z.div_mod_to_equations; lia.
    + rewrite lookup_singleton_ne by congruence. reflexivity.
Qed.

Lemma copyuvm_correct_witness :
  exists d s', copyuvm lf_end lf_top lf_data lf_dir 4096 lf_state = Ok d s' /\ own_bytes lf_dir lf_T lf_U lf_mem (kmem_mem s').
Proof.
  destruct (copyuvm_correct lf_end lf_top lf_data lf_state [lf_free] lf_dir lf_T lf_U 4096) as (d & s' & L' & E & HO & _).
  - reflexivity.
  - exact lf_layout.
  - exact lf_space.
  - unfold KERNBASE. lia.
  - intros i Hi. change ((4096 + 4095) / 4096) with 1 in Hi. replace i with 0 by lia. exists (lf_frame, 7). reflexivity.
  - exists d, s'. split; [exact E | exact HO].
Defined.

Lemma allocuvm_correct_witness :
  exists r killed s', allocuvm lf_end lf_top lf_dir 4096 8192 lf_state = Ok (r, killed) s' /\ user_bytes lf_U lf_mem (kmem_mem s').
Proof.
  destruct (allocuvm_correct lf_end lf_top lf_state [lf_free] lf_dir lf_T lf_U 4096 8192) as (r & killed & s' & L' & T' & U' & E & _ & _ & HU & _).
  - reflexivity.
  - exact lf_space.
  - intros i Hi. change ((4096 + 4095) / 4096) with 1 in Hi. apply lookup_singleton_ne. lia.
  - lia.
  - unfold KERNBASE. lia.
  - exists r, killed, s'. split; [exact E | exact HU].
Defined.

Lemma address_spaces_conserve_pages_witness :
  exists s' L', lifecycle lf_end lf_top lf_data 8192 lf_state = Ok tt s' /\ kinv lf_end lf_top s' L' /\ L' ≡ₚ [lf_free].
Proof.
  apply (address_spaces_conserve_pages lf_end lf_top lf_data lf_state [lf_free] 8192).
  - reflexivity.
  - exact lf_layout.
  - exact lf_kinv.
  - unfold KERNBASE. lia.
Defined.
