(* ===== verification/Multiboot.v ===== *)
(** * Boot information and the size of memory (src/kernel/boot/multiboot.c)

    The boot loader leaves a list of tags in memory; set_phystop takes the top of
    physical memory from the memory map among them.  The memory is a function from
    addresses to bytes; what is printed is left out.  The walks over the tags and the
    entries have no bound in the code: the fuel is the number of 8-byte units the boot
    information has, or of bytes the memory map has, and the theorems show it is
    enough for information laid out as the Multiboot2 specification says. *)
From Stdlib Require Import ZArith Lia.
From stdpp Require Import base numbers list strings.
From S2P Require Import Prelude KString Locks Kalloc Vm.
Local Open Scope Z_scope.

Definition MULTIBOOT_TAG_TYPE_END : Z := 0.
Definition MULTIBOOT_TAG_TYPE_CMDLINE : Z := 1.
Definition MULTIBOOT_TAG_TYPE_MMAP : Z := 6.
Definition MULTIBOOT_MEMORY_AVAILABLE : Z := 1.
Definition sizeof_mmap_entry : Z := 24.

(** The globals of multiboot.c, and PHYSTOP of vm.c. *)
Record boot := Boot { mbi_addr : Z; mbi_size : Z; cmdline : Z; PHYSTOP : Z }.
#[export] Instance boot_fields : Fields boot := fun s => Boot (mbi_addr s) (mbi_size s) (cmdline s) (PHYSTOP s).

(** struct multiboot_mmap_entry *)
Record mmap_entry := MmapEntry { e_addr : Z; e_len : Z; e_type : Z }.

Section multiboot.
Context (m : mem).

Definition rd16 (a : Z) : Z := m a + 256 * m (a + 1).
Definition rd32 (a : Z) : Z := load32 m a.
Definition rd64 (a : Z) : Z := rd32 a + 2 ^ 32 * rd32 (a + 4).

(** struct multiboot_header_tag: a 16-bit type, 16-bit flags, a 32-bit size. *)
Definition tag_type (tag : Z) : Z := rd16 tag.
Definition tag_size (tag : Z) : Z := rd32 (tag + 4).
Definition align8 (n : Z) : Z := Z.land (u32 (n + 7)) (Z.lnot 7).

Fixpoint modget_loop (fuel : nat) (type tag : Z) : M boot Z :=
  match fuel with
  | O => fault "boot information"
  | S fuel' =>
      if tag_type tag =? MULTIBOOT_TAG_TYPE_END then mret 0
      else if tag_type tag =? type then mret tag
      else modget_loop fuel' type (u32 (tag + align8 (tag_size tag)))
  end.
Definition modget (type : Z) : M boot Z :=
  s ← get; modget_loop (Z.to_nat (mbi_size s / 8)) type (u32 (mbi_addr s + 8)).

(** One entry of the map. *)
Definition mmap_step (e : mmap_entry) (max_top : Z) : Z :=
  if negb (e_type e =? MULTIBOOT_MEMORY_AVAILABLE) then max_top
  else if e_len e =? 0 then max_top
  else if 0x100000000 <=? e_addr e then max_top
  else
    let eend := u64 (e_addr e + e_len e) in
    if eend <? e_addr e then max_top
    else
      let eend := if 0x100000000 <? eend then 0x100000000 else eend in
      if max_top <? eend then eend else max_top.

Definition read_entry (p : Z) : mmap_entry := MmapEntry (rd64 p) (rd64 (p + 8)) (rd32 (p + 16)).

Fixpoint mmap_loop (fuel : nat) (p endp entry_size max_top : Z) : M boot Z :=
  match fuel with
  | O => fault "memory map"
  | S fuel' =>
      if u32 (p + sizeof_mmap_entry) <=? endp then
        mmap_loop fuel' (u32 (p + entry_size)) endp entry_size (mmap_step (read_entry p) max_top)
      else mret max_top
  end.

Definition limit : Z := 0x7DFE0000.

Definition set_phystop : M boot unit :=
  tag ← modget MULTIBOOT_TAG_TYPE_MMAP;
  if tag =? 0 then mret tt
  else
    let size := rd32 (tag + 4) in
    let entry_size := rd32 (tag + 8) in
    max_top ← mmap_loop (S (Z.to_nat size)) (u32 (tag + 16)) (u32 (tag + size)) entry_size 0;
    if max_top =? 0 then mret tt
    else
      let max_top := if limit <? max_top then limit else max_top in
      modify (fun s => s <| PHYSTOP := u32 (Z.land max_top (Z.lnot (PGSIZE - 1))) |>).

Definition multiboot_init (addr : Z) : M boot unit :=
  modify (fun s => s <| mbi_addr := P2V addr |>);;
  s ← get;
  if nz (Z.land (mbi_addr s) 7) then panic "mbootinit: invalid boot info"
  else
    modify (fun s => s <| mbi_size := rd32 (mbi_addr s) |>);;
    tag ← modget MULTIBOOT_TAG_TYPE_CMDLINE;
    modify (fun s => s <| cmdline := u32 (tag + 8) |>);;
    set_phystop.

(** ** What the boot loader promises *)

(** The tags of the list, in order, from [a] on: types and sizes. *)
Fixpoint tags_at (a : Z) (l : list (Z * Z)) : Prop :=
  match l with
  | [] => tag_type a = MULTIBOOT_TAG_TYPE_END
  | (t, sz) :: l' => tag_type a = t /\ tag_size a = sz /\ t <> MULTIBOOT_TAG_TYPE_END /\ 8 <= sz
                     /\ tags_at (a + (sz + 7) / 8 * 8) l'
  end.
Definition tags_bytes (l : list (Z * Z)) : Z := foldr (fun t n => (t.2 + 7) / 8 * 8 + n) 8 l.

(** Where the first tag of a type lies; 0 when there is none. *)
Fixpoint first_tag (type a : Z) (l : list (Z * Z)) : Z :=
  match l with
  | [] => 0
  | (t, sz) :: l' => if t =? type then a else first_tag type (a + (sz + 7) / 8 * 8) l'
  end.

Record boot_info (s : boot) (l : list (Z * Z)) : Prop := BootInfo {
  bi_tags : tags_at (mbi_addr s + 8) l;
  bi_size : 8 + tags_bytes l <= mbi_size s;
  bi_low : 0 < mbi_addr s;
  bi_high : mbi_addr s + mbi_size s + sizeof_mmap_entry <= 2 ^ 32
}.

Fixpoint entries_at (p entry_size : Z) (es : list mmap_entry) : Prop :=
  match es with [] => True | e :: es' => read_entry p = e /\ entries_at (p + entry_size) entry_size es' end.

(** A memory map tag at [tag] with the entries [es]. *)
Record mmap_at (tag : Z) (es : list mmap_entry) : Prop := MmapAt {
  mm_entry_size : sizeof_mmap_entry <= rd32 (tag + 8);
  mm_size : tag_size tag = 16 + rd32 (tag + 8) * Z.of_nat (length es);
  mm_entries : entries_at (tag + 16) (rd32 (tag + 8)) es
}.

(** The memory of the map below 4 GB: where it ends. *)
Definition usable (e : mmap_entry) : Prop :=
  e_type e = MULTIBOOT_MEMORY_AVAILABLE /\ 0 < e_len e /\ e_addr e < 2 ^ 32 /\ e_addr e + e_len e < 2 ^ 64.
#[export] Instance usable_dec e : Decision (usable e).
Proof. unfold usable. apply _. Defined.
Definition region_end (e : mmap_entry) : Z := if decide (usable e) then Z.min (e_addr e + e_len e) (2 ^ 32) else 0.
Definition memory_end (es : list mmap_entry) : Z := foldr (fun e n => Z.max (region_end e) n) 0 es.

Definition entry_ok (e : mmap_entry) : Prop := in_u 64 (e_addr e) /\ in_u 64 (e_len e).

(** ** Tags *)

Lemma align8_spec n : 0 <= n -> n + 7 < 2 ^ 32 -> align8 n = (n + 7) / 8 * 8.
Proof.
  intros H0 H1. unfold align8. rewrite uwrap_id by (unfold in_u; lia).
  change (Z.lnot 7) with (Z.lnot (Z.ones 3)). rewrite <-Z.ldiff_land, Z.ldiff_ones_r by lia.
  rewrite Z.shiftl_mul_pow2, Z.shiftr_div_pow2 by lia. reflexivity.
Qed.

Lemma tags_bytes_pos l a : tags_at a l -> 8 * Z.of_nat (S (length l)) <= tags_bytes l.
Proof.
  revert a. induction l as [|[t sz] l IH]; intros a; [cbn; lia|]. intros (_ & _ & _ & Hsz & Hl). specialize (IH _ Hl).
  cbn [tags_bytes foldr length snd] in *. fold (tags_bytes l). pose proof (Z.div_le_lower_bound (sz + 7) 8 1 ltac:(lia) ltac:(lia)). lia.
Qed.

Lemma modget_loop_spec type s l : forall fuel a,
  tags_at a l -> 0 <= a -> a + tags_bytes l <= 2 ^ 32 -> (length l < fuel)%nat ->
  modget_loop fuel type a s = Ok (first_tag type a l) s.
Proof.
  induction l as [|[t sz] l IH]; intros fuel a HT Ha Hb Hf; (destruct fuel as [|fuel]; [lia|]); cbn [modget_loop].
  - cbn in HT. rewrite HT. reflexivity.
  - destruct HT as (Ht & Hs & Hn & Hsz & HT). rewrite Ht, (proj2 (Z.eqb_neq _ _) Hn). cbn [first_tag].
    destruct (t =? type); [reflexivity|]. pose proof (tags_bytes_pos _ _ HT).
    cbn [tags_bytes foldr snd length] in *. fold (tags_bytes l) in Hb. rewrite Hs.
    pose proof (Z.div_mod (sz + 7) 8 ltac:(lia)). pose proof (Z.mod_pos_bound (sz + 7) 8 ltac:(lia)).
    rewrite align8_spec by lia. rewrite uwrap_id by (unfold in_u; lia). apply IH; [exact HT | lia..].
Qed.

Lemma modget_spec s l type : boot_info s l -> modget type s = Ok (first_tag type (mbi_addr s + 8) l) s.
Proof.
  intros [HT Hs Hl Hh]. pose proof (tags_bytes_pos _ _ HT). unfold sizeof_mmap_entry in *. unfold modget. mstep.
  rewrite uwrap_id by (unfold in_u; lia). apply modget_loop_spec; [exact HT | lia..|].
  apply Nat2Z.inj_lt. rewrite Z2Nat.id by (apply Z.div_pos; lia). apply Z.lt_le_trans with (Z.of_nat (S (length l))); [lia|].
  apply Z.div_le_lower_bound; lia.
Qed.

(** A tag lies within the boot information. *)
Lemma first_tag_range type l : forall a,
  tags_at a l -> 0 < a -> first_tag type a l <> 0 ->
  a <= first_tag type a l /\ first_tag type a l + tag_size (first_tag type a l) + 8 <= a + tags_bytes l.
Proof.
  induction l as [|[t sz] l IH]; intros a HT Ha Hn; [contradiction|]. destruct HT as (Ht & Hs & _ & Hsz & HT).
  pose proof (tags_bytes_pos _ _ HT). cbn [tags_bytes foldr snd first_tag] in *. fold (tags_bytes l).
  pose proof (Z.div_mod (sz + 7) 8 ltac:(lia)). pose proof (Z.mod_pos_bound (sz + 7) 8 ltac:(lia)).
  destruct (t =? type); [rewrite Hs; lia|]. specialize (IH _ HT ltac:(lia) Hn). lia.
Qed.

(** ** The memory map *)

Lemma mmap_step_spec e n : entry_ok e -> 0 <= n -> mmap_step e n = Z.max n (region_end e).
Proof.
  intros [Ha Hl] Hn. unfold mmap_step, region_end, usable, in_u in *.
  destruct (decide _) as [(E & ? & ? & ?) | HN].
  - rewrite E, Z.eqb_refl. cbn [negb]. rewrite (proj2 (Z.eqb_neq _ _)), (proj2 (Z.leb_gt _ _)) by lia.
    rewrite uwrap_id by (unfold in_u; lia). rewrite (proj2 (Z.ltb_ge (e_addr e + e_len e) _)) by lia. cbv zeta.
    destruct (Z.ltb_spec 0x100000000 (e_addr e + e_len e)); [rewrite Z.min_r by lia | rewrite Z.min_l by lia];
      match goal with |- (if ?c then _ else _) = _ => destruct c eqn:Hc end; lia.
  - rewrite Z.max_l by lia. destruct (Z.eqb_spec (e_type e) MULTIBOOT_MEMORY_AVAILABLE); [cbn [negb]|reflexivity].
    destruct (Z.eqb_spec (e_len e) 0); [reflexivity|]. destruct (Z.leb_spec 0x100000000 (e_addr e)); [reflexivity|]. cbv zeta.
    assert (2 ^ 64 <= e_addr e + e_len e) as Hov by (destruct (Z.le_gt_cases (2 ^ 64) (e_addr e + e_len e)); [assumption | exfalso; apply HN; lia]).
    replace (u64 (e_addr e + e_len e)) with (e_addr e + e_len e - 2 ^ 64)
      by (unfold uwrap; apply Z.mod_unique with 1; lia).
    rewrite (proj2 (Z.ltb_lt _ _)) by lia. reflexivity.
Qed.

Lemma memory_end_pos es : 0 <= memory_end es.
Proof. induction es as [|e es IH]; cbn; [lia|]. fold (memory_end es). lia. Qed.

Lemma mmap_loop_spec es sz s : forall fuel p n,
  entries_at p sz es -> Forall entry_ok es -> sizeof_mmap_entry <= sz -> 0 <= p -> 0 <= n ->
  p + sz * Z.of_nat (length es) + sizeof_mmap_entry < 2 ^ 32 -> (length es < fuel)%nat ->
  mmap_loop fuel p (p + sz * Z.of_nat (length es)) sz n s = Ok (Z.max n (memory_end es)) s.
Proof.
  induction es as [|e es IH]; intros fuel p n HE HO Hsz Hp Hn Hb Hf; (destruct fuel as [|fuel]; [lia|]); cbn [mmap_loop].
  - rewrite Z.mul_0_r, Z.add_0_r in *. unfold sizeof_mmap_entry in *. rewrite uwrap_id by (unfold in_u; lia).
    rewrite (proj2 (Z.leb_gt _ _)) by lia. cbn. rewrite Z.max_l by lia. reflexivity.
  - destruct HE as [He HE]. apply Forall_cons in HO as [Ho HO]. rewrite He, mmap_step_spec by assumption.
    cbn [length] in *. rewrite Nat2Z.inj_succ in *. unfold sizeof_mmap_entry in *.
    rewrite !uwrap_id by (unfold in_u; nia). rewrite (proj2 (Z.leb_le _ _)) by nia.
    replace (p + sz * Z.succ (Z.of_nat (length es))) with (p + sz + sz * Z.of_nat (length es)) by lia.
    rewrite IH; [|assumption..|nia|lia|nia|lia]. cbn [memory_end foldr]. fold (memory_end es). f_equal. lia.
Qed.

Lemma memory_end_attained es : 0 < memory_end es -> exists e, e ∈ es /\ usable e /\ memory_end es = Z.min (e_addr e + e_len e) (2 ^ 32).
Proof.
  induction es as [|e es IH]; cbn [memory_end foldr]; [lia|]. fold (memory_end es). intros H.
  destruct (Z.le_gt_cases (region_end e) (memory_end es)) as [Hle | Hgt].
  - rewrite Z.max_r in * by lia. destruct (IH H) as (x & Hx & Hu & E). exists x. split; [right; exact Hx | auto].
  - exists e. rewrite Z.max_l in * by lia. pose proof (memory_end_pos es). unfold region_end in *.
    destruct (decide (usable e)); [|lia]. split; [left | auto].
Qed.

Lemma memory_end_bounds es e : e ∈ es -> usable e -> Z.min (e_addr e + e_len e) (2 ^ 32) <= memory_end es.
Proof.
  intros He Hu. induction es as [|x es IH]; [inversion He|]. cbn [memory_end foldr]. fold (memory_end es).
  apply elem_of_cons in He as [<- | He]; [|specialize (IH He); lia].
  unfold region_end. rewrite decide_True by exact Hu. lia.
Qed.

Definition page_floor (n : Z) : Z := n / PGSIZE * PGSIZE.

Lemma page_floor_land n : Z.land n (Z.lnot (PGSIZE - 1)) = page_floor n.
Proof.
  change (PGSIZE - 1) with (Z.ones 12). rewrite <-Z.ldiff_land, Z.ldiff_ones_r by lia.
  rewrite Z.shiftl_mul_pow2, Z.shiftr_div_pow2 by lia. reflexivity.
Qed.

Lemma page_floor_bounds n : 0 <= n -> 0 <= page_floor n <= n /\ n < page_floor n + PGSIZE /\ page_floor n mod PGSIZE = 0.
Proof.
  intros Hn. unfold page_floor. assert (0 < PGSIZE) by (unfold PGSIZE; lia).
  pose proof (Z.div_mod n PGSIZE ltac:(lia)). pose proof (Z.mod_pos_bound n PGSIZE ltac:(lia)).
  pose proof (Z.div_pos n PGSIZE Hn ltac:(lia)). rewrite Z.mod_mul by lia. lia.
Qed.

(** What set_phystop leaves in PHYSTOP for a map with the entries [es]. *)
Definition phystop_of (es : list mmap_entry) (old : Z) : Z :=
  if memory_end es =? 0 then old else page_floor (Z.min limit (memory_end es)).

Lemma set_phystop_spec s l es :
  boot_info s l -> let tag := first_tag MULTIBOOT_TAG_TYPE_MMAP (mbi_addr s + 8) l in
  tag <> 0 -> mmap_at tag es -> Forall entry_ok es ->
  set_phystop s = Ok tt (s <| PHYSTOP := phystop_of es (PHYSTOP s) |>).
Proof.
  intros HB tag Htag [Hes Hsz Hent] Hok. unfold set_phystop.
  rewrite (bind_step _ _ _ _ _ (modget_spec s l MULTIBOOT_TAG_TYPE_MMAP HB)). fold tag.
  rewrite (proj2 (Z.eqb_neq _ _) Htag). cbv zeta. destruct HB as [HT Hbs Hlo Hhi].
  destruct (first_tag_range MULTIBOOT_TAG_TYPE_MMAP l _ HT ltac:(lia) Htag) as [Hge Hle]. fold tag in Hge, Hle.
  fold (tag_size tag). rewrite Hsz in *. set (esz := rd32 (tag + 8)) in *. unfold sizeof_mmap_entry in *.
  rewrite !uwrap_id by (unfold in_u; nia). replace (tag + (16 + esz * Z.of_nat (length es))) with (tag + 16 + esz * Z.of_nat (length es)) by lia.
  assert (Z.of_nat (length es) <= esz * Z.of_nat (length es)) by nia.
  assert (mmap_loop (S (Z.to_nat (16 + esz * Z.of_nat (length es)))) (tag + 16) (tag + 16 + esz * Z.of_nat (length es)) esz 0 s
          = Ok (Z.max 0 (memory_end es)) s) as E by (apply mmap_loop_spec; unfold sizeof_mmap_entry; (assumption || lia)).
  rewrite (bind_step _ _ _ _ _ E).
  pose proof (memory_end_pos es). rewrite Z.max_r by lia. unfold phystop_of.
  destruct (memory_end es =? 0); [destruct s; reflexivity|]. cbv zeta. unfold modify.
  replace (if limit <? memory_end es then limit else memory_end es) with (Z.min limit (memory_end es))
    by (destruct (Z.ltb_spec limit (memory_end es)); lia).
  rewrite page_floor_land, uwrap_id; [reflexivity|].
  pose proof (page_floor_bounds (Z.min limit (memory_end es)) ltac:(unfold limit; lia)). unfold in_u, limit in *. lia.
Qed.
End multiboot.

(** C36. multiboot_init on boot information laid out as the Multiboot2 specification
    says returns, finds the first command line tag, and sets PHYSTOP to the end of the
    highest available region below 4 GB, cut at 0x7DFE0000 and rounded down to a page:
    it is page aligned, no larger than the end of some available region of the map,
    and no available byte below the cut lies above it but the rest of a page. *)
Theorem multiboot_phystop m addr s l es :
  let a := P2V addr in
  let tag := first_tag MULTIBOOT_TAG_TYPE_MMAP (a + 8) l in
  let top := page_floor (Z.min limit (memory_end es)) in
  a mod 8 = 0 -> boot_info m (Boot a (rd32 m a) (cmdline s) (PHYSTOP s)) l ->
  tag <> 0 -> mmap_at m tag es -> Forall entry_ok es -> 0 < memory_end es ->
  multiboot_init m addr s = Ok tt (Boot a (rd32 m a) (u32 (first_tag MULTIBOOT_TAG_TYPE_CMDLINE (a + 8) l + 8)) top)
  /\ top mod PGSIZE = 0
  /\ (exists e, e ∈ es /\ usable e /\ top <= e_addr e + e_len e)
  /\ (forall e, e ∈ es -> usable e -> Z.min limit (e_addr e + e_len e) < top + PGSIZE).
Proof.
  intros a tag top Ha HB Htag Hmm Hok Hpos. set (s1 := Boot a (rd32 m a) (cmdline s) (PHYSTOP s)) in *.
  pose proof (page_floor_bounds (Z.min limit (memory_end es)) ltac:(unfold limit; lia)) as (Hb1 & Hb2 & Hb3).
  split; [|split; [exact Hb3|]].
  - unfold multiboot_init. mstep. change (mbi_addr (s <| mbi_addr := P2V addr |>)) with a.
    change 7 with (Z.ones 3). rewrite Z.land_ones by lia. change (2 ^ 3) with 8. rewrite Ha. cbn [nz Z.eqb negb].
    match goal with |- context [modget m MULTIBOOT_TAG_TYPE_CMDLINE ?x] => change x with s1 end.
    rewrite (modget_spec m s1 l MULTIBOOT_TAG_TYPE_CMDLINE HB).
    rewrite (set_phystop_spec m _ l es); [|destruct HB; split; assumption | exact Htag | exact Hmm | exact Hok].
    unfold phystop_of. rewrite (proj2 (Z.eqb_neq _ _)) by lia. reflexivity.
  - fold top in Hb1, Hb2. split.
    + destruct (memory_end_attained es Hpos) as (e & He & Hu & E). exists e. split_and!; auto. lia.
    + intros e He Hu. pose proof (memory_end_bounds es e He Hu). unfold limit in *. lia.
Qed.

(** A machine with 640 KB and 63 MB of memory, a hole and a device region, the boot
    information at 0x9500: a command line tag and the memory map. *)
Definition le (n : nat) (v : Z) : list Z := (fun i => u8 (Z.shiftr v (8 * Z.of_nat i))) <$> seq 0 n.
Definition pc_map : list mmap_entry :=
  [MmapEntry 0 0x9FC00 1; MmapEntry 0xF0000 0x10000 2; MmapEntry 0x100000 0x3EF0123 1; MmapEntry 0xFFFC0000 0x40000 2].
Definition pc_info : list Z :=
  le 4 144 ++ le 4 0
  ++ le 4 1 ++ le 4 9 ++ [0] ++ replicate 7 0
  ++ le 4 6 ++ le 4 112 ++ le 4 24 ++ le 4 0
  ++ mjoin ((fun e => le 8 (e_addr e) ++ le 8 (e_len e) ++ le 4 (e_type e) ++ le 4 0) <$> pc_map)
  ++ le 4 0 ++ le 4 8.
Definition pc_mem : mem := fun a => default 0 (pc_info !! Z.to_nat (a - P2V 0x9500)).

Lemma multiboot_phystop_witness :
  exists s', multiboot_init pc_mem 0x9500 (Boot 0 0 0 0) = Ok tt s' /\ PHYSTOP s' = 0x3FF0000.
Proof.
  eexists. split.
  - apply (multiboot_phystop pc_mem 0x9500 (Boot 0 0 0 0) [(1, 9); (6, 112)] pc_map).
    + reflexivity.
    + split; [|vm_compute; discriminate | reflexivity | vm_compute; discriminate].
      cbn [tags_at]. split_and!; try reflexivity; try (intros H; vm_compute in H; congruence).
    + vm_compute. discriminate.
    + split; [vm_compute; discriminate | reflexivity | cbn [entries_at pc_map]; split_and!; (reflexivity || exact I)].
    + repeat constructor; unfold in_u; cbn; lia.
    + reflexivity.
  - vm_compute. reflexivity.
Defined.

(** ** The cut at 0x7DFE0000 and the kernel's address space *)

(** The kernel is linked at 0xC0000000, so P2V of a physical address of 1 GB or more
    wraps.  setupkvm panics for a PHYSTOP between 0x3E000000 and 1 GB; from 1 GB up to
    the cut its check passes, because P2V(PHYSTOP) has wrapped below KERNBASE, and
    kinit2 then frees no page at all. *)
Theorem phystop_limits kend kdata P s :
  (0 <= P <= 0x3E000000 -> P2V P = KERNBASE + P /\ (DEVSPACE <? P2V P) = false)
  /\ (0x3E000000 < P < 0x40000000 -> forall pg s1, kalloc s = Ok pg s1 -> pg <> 0 ->
        exists w, setupkvm kend P kdata s = Panic w)
  /\ (0x40000000 <= P <= limit ->
        (DEVSPACE <? P2V P) = false /\ P2V P < KERNBASE
        /\ kinit2 kend P (P2V 0x400000) (P2V P) s = set_use_lock true s).
Proof.
  unfold P2V, KERNBASE, DEVSPACE, limit. split_and!; intros H.
  - rewrite uwrap_id by (unfold in_u; lia). split; [lia | apply Z.ltb_ge; lia].
  - intros pg s1 E Hpg. unfold setupkvm. rewrite (bind_step _ _ _ _ _ E), (proj2 (Z.eqb_neq _ _) Hpg). unfold kmemset. mstep.
    rewrite (proj2 (Z.eqb_neq _ _) Hpg).
    unfold P2V, KERNBASE, DEVSPACE. rewrite uwrap_id by (unfold in_u; lia). rewrite (proj2 (Z.ltb_lt _ _)) by lia.
    eexists. reflexivity.
  - assert (u32 (P + 3221225472) = P - 0x40000000) as E
      by (unfold uwrap; symmetry; apply Z.mod_unique with 1; lia).
    rewrite E. split_and!; [apply Z.ltb_ge; lia | lia|].
    unfold kinit2, freerange. change (PGROUNDUP (u32 (0x400000 + 3221225472))) with 3225419776.
    replace (Z.to_nat ((P - 0x40000000 - 3225419776) / PGSIZE)) with O; [reflexivity|].
    assert ((P - 0x40000000 - 3225419776) / PGSIZE < 0) by (apply Z.div_lt_upper_bound; unfold PGSIZE; lia). lia.
Qed.
