(* ===== verification/Irq.v ===== *)
(** * Interrupt controllers and timer (src/kernel/cpu/picirq.c, src/kernel/cpu/pit.c)

    The drivers write to ports; the writes are recorded in order.  The two 8259A
    controllers and counter 0 of the 8254 timer are modelled as their data sheets
    describe them, and read the recorded writes: the theorems say which interrupts the
    processor gets, on which vectors, whatever state the firmware left the chips in. *)
From Stdlib Require Import ZArith Lia.
From stdpp Require Import base numbers list sets strings.
From S2P Require Import Prelude.
Local Open Scope Z_scope.

Definition IO_PIC1 : Z := 0x20.
Definition IO_PIC2 : Z := 0xA0.
Definition IRQ_SLAVE : Z := 2.
Definition T_IRQ0 : Z := 32.
Definition IRQ_TIMER : Z := 0.
Definition IRQ_KBD : Z := 1.
Definition IRQ_COM1 : Z := 4.
Definition IRQ_IDE : Z := 14.
Definition IO_TIMER1 : Z := 0x40.
Definition TIMER_FREQ : Z := 1193182.
Definition TIMER_DIV (x : Z) : Z := (TIMER_FREQ + x / 2) / x.
Definition TIMER_MODE : Z := IO_TIMER1 + 3.
Definition TIMER_SEL0 : Z := 0x00.
Definition TIMER_RATEGEN : Z := 0x04.
Definition TIMER_16BIT : Z := 0x30.

(** irqmask, and the bytes written to ports so far, oldest first. *)
Record irqs := Irqs { irqmask : Z; sent : list (Z * Z) }.
#[export] Instance irqs_fields : Fields irqs := fun s => Irqs (irqmask s) (sent s).

(** [static ushort irqmask = 0xFFFF & ~(1<<IRQ_SLAVE);] *)
Definition irqs0 : irqs := Irqs (Z.land 0xFFFF (Z.lnot (Z.shiftl 1 IRQ_SLAVE))) [].

Definition outb (port v : Z) : M irqs unit := modify (fun s => s <| sent := sent s ++ [(port, u8 v)] |>).

Definition pic_set_mask (mask : Z) : M irqs unit :=
  modify (fun s => s <| irqmask := mask |>);;
  outb (IO_PIC1 + 1) mask;;
  outb (IO_PIC2 + 1) (Z.shiftr mask 8).

Definition pic_enable (irq : Z) : M irqs unit :=
  s ← get; pic_set_mask (u16 (Z.land (irqmask s) (Z.lnot (Z.shiftl 1 irq)))).

Definition pic_init : M irqs unit :=
  outb (IO_PIC1 + 1) 0xFF;;
  outb (IO_PIC2 + 1) 0xFF;;
  outb IO_PIC1 0x11;;
  outb (IO_PIC1 + 1) T_IRQ0;;
  outb (IO_PIC1 + 1) (Z.shiftl 1 IRQ_SLAVE);;
  outb (IO_PIC1 + 1) 0x3;;
  outb IO_PIC2 0x11;;
  outb (IO_PIC2 + 1) (T_IRQ0 + 8);;
  outb (IO_PIC2 + 1) IRQ_SLAVE;;
  outb (IO_PIC2 + 1) 0x3;;
  outb IO_PIC1 0x68;;
  outb IO_PIC1 0x0a;;
  outb IO_PIC2 0x68;;
  outb IO_PIC2 0x0a;;
  s ← get;
  when (negb (irqmask s =? 0xFFFF)) (pic_set_mask (irqmask s)).

Definition pit_init : M irqs unit :=
  outb TIMER_MODE (Z.lor (Z.lor TIMER_SEL0 TIMER_RATEGEN) TIMER_16BIT);;
  outb IO_TIMER1 (TIMER_DIV 100 mod 256);;
  outb IO_TIMER1 (TIMER_DIV 100 / 256);;
  pic_enable IRQ_TIMER.

(** interrupt_eoi of trap.c *)
Definition interrupt_eoi : M irqs unit := outb 0x20 0x20.

(** The drivers enable their lines: pic_enable for each of a list. *)
Fixpoint enable_all (l : list Z) : M irqs unit :=
  match l with [] => mret tt | irq :: l' => pic_enable irq;; enable_all l' end.

(** What kmain does with the controllers: pit_init, pic_init, IRQ_COM1, then the
    keyboard and the disk, each from its own init function. *)
Definition kmain_irqs : M irqs unit :=
  pit_init;; pic_init;; enable_all [IRQ_COM1; IRQ_KBD; IRQ_IDE].

(** ** The 8259A *)

(** Which word a write to the odd port is. *)
Inductive expects := Icw2 | Icw3 | Icw4 | Ocw1.
Record i8259 := I8259 {
  stage : expects; ic4 : bool; sngl : bool; vbase : Z; cascade : Z; mode4 : Z; imr : Z; smm : bool
}.

Definition after_icw2 (c : i8259) : expects := if sngl c then if ic4 c then Icw4 else Ocw1 else Icw3.
Definition chip_write (c : i8259) (odd : bool) (v : Z) : i8259 :=
  if odd then
    match stage c with
    | Icw2 => I8259 (after_icw2 c) (ic4 c) (sngl c) (Z.land v 0xF8) (cascade c) (mode4 c) (imr c) (smm c)
    | Icw3 => I8259 (if ic4 c then Icw4 else Ocw1) (ic4 c) (sngl c) (vbase c) v (mode4 c) (imr c) (smm c)
    | Icw4 => I8259 Ocw1 (ic4 c) (sngl c) (vbase c) (cascade c) v (imr c) (smm c)
    | Ocw1 => I8259 Ocw1 (ic4 c) (sngl c) (vbase c) (cascade c) (mode4 c) v (smm c)
    end
  else if Z.testbit v 4 then      (* ICW1: restart, nothing masked *)
    I8259 Icw2 (Z.testbit v 0) (Z.testbit v 1) 0 0 0 0 false
  else if Z.testbit v 3 then      (* OCW3 *)
    I8259 (stage c) (ic4 c) (sngl c) (vbase c) (cascade c) (mode4 c) (imr c)
      (if Z.testbit v 6 then Z.testbit v 5 else smm c)
  else c.                         (* OCW2: end of interrupt *)

(** The pair: the slave hangs on input 2 of the master. *)
Record pics := Pics { master : i8259; slave : i8259 }.
Definition pics_write (p : pics) (w : Z * Z) : pics :=
  if w.1 =? 0x20 then Pics (chip_write (master p) false w.2) (slave p)
  else if w.1 =? 0x21 then Pics (chip_write (master p) true w.2) (slave p)
  else if w.1 =? 0xA0 then Pics (master p) (chip_write (slave p) false w.2)
  else if w.1 =? 0xA1 then Pics (master p) (chip_write (slave p) true w.2)
  else p.
Definition pics_run (p : pics) (l : list (Z * Z)) : pics := foldl pics_write p l.

Definition ready (c : i8259) : bool := match stage c with Ocw1 => true | _ => false end.

(** The vector the processor gets when line [irq] is raised; [None] when it is held. *)
Definition vector_of (p : pics) (irq : Z) : option Z :=
  if irq <? 8 then
    if ready (master p) && negb (Z.testbit (imr (master p)) irq) && negb (Z.testbit (cascade (master p)) irq)
    then Some (vbase (master p) + irq) else None
  else
    if ready (master p) && ready (slave p) && Z.testbit (cascade (master p)) (cascade (slave p))
       && negb (Z.testbit (imr (master p)) (cascade (slave p))) && negb (Z.testbit (imr (slave p)) (irq - 8))
    then Some (vbase (slave p) + (irq - 8)) else None.

(** ** Counter 0 of the 8254 *)

(** The mode, the bytes loaded so far and the count in use once both are. *)
Record i8254 := I8254 { tmode : Z; tlow : option Z; treload : option Z }.
Definition timer_write (t : i8254) (w : Z * Z) : i8254 :=
  if w.1 =? 0x43 then
    if (Z.shiftr w.2 6 =? 0) && (Z.land (Z.shiftr w.2 4) 3 =? 3) then I8254 (Z.land (Z.shiftr w.2 1) 7) None None else t
  else if w.1 =? 0x40 then
    match tlow t with
    | None => I8254 (tmode t) (Some w.2) (treload t)
    | Some lo => I8254 (tmode t) None (Some (lo + 256 * w.2))
    end
  else t.
Definition timer_run (t : i8254) (l : list (Z * Z)) : i8254 := foldl timer_write t l.

(** ** The drivers and the chips *)

(** What the kernel's view of the controllers is once pic_init is done. *)
Definition pics_of (mask : Z) : pics :=
  Pics (I8259 Ocw1 true false 32 4 3 (u8 mask) true) (I8259 Ocw1 true false 40 2 3 (u8 (Z.shiftr mask 8)) true).

Lemma pics_run_app p l1 l2 : pics_run p (l1 ++ l2) = pics_run (pics_run p l1) l2.
Proof. apply foldl_app. Qed.

Lemma pic_set_mask_sent mask s :
  pic_set_mask mask s = Ok tt (Irqs mask (sent s ++ [(0x21, u8 mask); (0xA1, u8 (Z.shiftr mask 8))])).
Proof. unfold pic_set_mask, outb. mstep. cbn. rewrite <-app_assoc. reflexivity. Qed.

(** pic_enable keeps the chips' masks and irqmask together. *)
Lemma pic_enable_spec irq s p0 :
  pics_run p0 (sent s) = pics_of (irqmask s) ->
  let mask := u16 (Z.land (irqmask s) (Z.lnot (Z.shiftl 1 irq))) in
  exists s', pic_enable irq s = Ok tt s' /\ irqmask s' = mask /\ pics_run p0 (sent s') = pics_of mask.
Proof.
  intros H mask. eexists. split; [unfold pic_enable; rewrite (bind_step get _ _ _ _ eq_refl); apply pic_set_mask_sent|].
  split; [reflexivity|]. cbn [sent]. rewrite pics_run_app, H. reflexivity.
Qed.

(** [cleared mask l]: the lines of [l] off the mask, the others as they were. *)
Definition cleared (mask : Z) (l : list Z) (mask' : Z) : Prop :=
  in_u 16 mask' /\ forall i, 0 <= i < 16 -> Z.testbit mask' i = Z.testbit mask i && negb (bool_decide (i ∈ l)).

Lemma clear_bit mask irq :
  in_u 16 mask -> 0 <= irq < 16 -> cleared mask [irq] (u16 (Z.land mask (Z.lnot (Z.shiftl 1 irq)))).
Proof.
  intros Hm Hi. split; [apply uwrap_range; lia|]. intros i Hr.
  rewrite uwrap_testbit, Z.land_spec, Z.lnot_spec, Z.shiftl_spec by lia.
  rewrite (proj2 (Z.ltb_lt i 16)) by lia. cbn [andb]. f_equal. f_equal.
  destruct (decide (i = irq)) as [-> | Hn].
  - rewrite Z.sub_diag, bool_decide_true by (apply list_elem_of_singleton; reflexivity). reflexivity.
  - rewrite bool_decide_false by (rewrite list_elem_of_singleton; exact Hn).
    destruct (Z.lt_ge_cases i irq); [apply Z.testbit_neg_r; lia|].
    rewrite (Z.bits_above_log2 1) by (cbn; lia). reflexivity.
Qed.

Lemma cleared_app mask l1 m1 l2 m2 : cleared mask l1 m1 -> cleared m1 l2 m2 -> cleared mask (l1 ++ l2) m2.
Proof.
  intros [_ H1] [R2 H2]. split; [exact R2|]. intros i Hi. rewrite H2, H1 by exact Hi. rewrite <-andb_assoc. f_equal.
  rewrite <-negb_orb. f_equal. apply eq_true_iff_eq. rewrite orb_true_iff, !bool_decide_eq_true. set_solver.
Qed.

Lemma enable_all_spec p0 l : forall s,
  pics_run p0 (sent s) = pics_of (irqmask s) -> in_u 16 (irqmask s) -> Forall (fun i => 0 <= i < 16) l ->
  exists s', enable_all l s = Ok tt s' /\ pics_run p0 (sent s') = pics_of (irqmask s') /\ cleared (irqmask s) l (irqmask s').
Proof.
  induction l as [|irq l IH]; intros s Hs Hm Hl.
  - exists s. split_and!; [reflexivity | exact Hs | split; [exact Hm|]]. intros i _. rewrite bool_decide_false by set_solver.
    rewrite andb_true_r. reflexivity.
  - apply Forall_cons in Hl as [Hi Hl]. destruct (pic_enable_spec irq s p0 Hs) as (s1 & E1 & M1 & R1).
    pose proof (clear_bit (irqmask s) irq Hm Hi) as Hc. rewrite <-M1 in Hc, R1.
    destruct (IH s1 R1 (proj1 Hc) Hl) as (s2 & E2 & R2 & C2). exists s2. cbn [enable_all].
    rewrite (bind_step _ _ _ _ _ E1). split_and!; [exact E2 | exact R2 | exact (cleared_app _ [irq] _ l _ Hc C2)].
Qed.

(** pic_init brings the chips to a known state from any. *)
Lemma pic_init_spec p0 s :
  in_u 16 (irqmask s) -> irqmask s <> 0xFFFF ->
  exists s', pic_init s = Ok tt s' /\ irqmask s' = irqmask s /\ pics_run p0 (sent s') = pics_of (irqmask s).
Proof.
  intros Hm Hn. eexists. split.
  - unfold pic_init, pic_set_mask, outb. mstep. cbn [irqmask sent assign]. rewrite (proj2 (Z.eqb_neq _ _) Hn). reflexivity.
  - cbn [negb]. split; [reflexivity|]. cbv beta iota delta [assign irqmask sent]. fold (sent s) (irqmask s). destruct s as [mask w]. cbn [sent irqmask].
    rewrite <-!app_assoc. cbn [app]. rewrite pics_run_app. generalize (pics_run p0 w) as p. intros [a b]. reflexivity.
Qed.

Lemma pit_init_spec s : exists s', pit_init s = Ok tt s'
  /\ irqmask s' = u16 (Z.land (irqmask s) (Z.lnot (Z.shiftl 1 IRQ_TIMER)))
  /\ exists w, sent s' = sent s ++ [(0x43, 0x34); (0x40, 156); (0x40, 46)] ++ w /\ Forall (fun x => x.1 = 0x21 \/ x.1 = 0xA1) w.
Proof.
  set (mask := u16 (Z.land (irqmask s) (Z.lnot (Z.shiftl 1 IRQ_TIMER)))).
  exists (Irqs mask (sent s ++ [(0x43, 0x34); (0x40, 156); (0x40, 46)] ++ [(0x21, u8 mask); (0xA1, u8 (Z.shiftr mask 8))])).
  split; [|split; [reflexivity|]].
  - unfold pit_init, pic_enable, outb. mstep. rewrite pic_set_mask_sent. destruct s as [m w].
    cbv beta iota delta [assign irqmask sent]. rewrite <-!app_assoc. reflexivity.
  - eexists. split; [reflexivity|]. constructor; [left; reflexivity|]. constructor; [right; reflexivity | constructor].
Qed.

(** Only the masks and commands of the controllers go to their ports. *)
Definition pic_port (x : Z * Z) : Prop := x.1 = 0x20 \/ x.1 = 0x21 \/ x.1 = 0xA0 \/ x.1 = 0xA1.
Lemma timer_ignores t w : Forall pic_port w -> timer_run t w = t.
Proof.
  revert t. induction w as [|x w IH]; intros t Hw; [reflexivity|]. apply Forall_cons in Hw as [Hx Hw].
  cbn [timer_run foldl]. fold (timer_run (timer_write t x) w). rewrite IH by exact Hw. unfold timer_write.
  destruct Hx as [-> | [-> | [-> | ->]]]; reflexivity.
Qed.

Definition only_pics (m : M irqs unit) : Prop :=
  forall s s', m s = Ok tt s' -> exists w, sent s' = sent s ++ w /\ Forall pic_port w.

Lemma outb_only port v : pic_port (port, u8 v) -> only_pics (outb port v).
Proof. intros Hp s s' E. injection E as <-. eexists [_]. split; [reflexivity | constructor; [exact Hp | constructor]]. Qed.
Lemma bind_only m (k : unit -> M irqs unit) : only_pics m -> only_pics (k tt) -> only_pics (m ≫= k).
Proof.
  intros Hm Hk s s' E. apply bind_Ok in E as ([] & s1 & E1 & E2). destruct (Hm _ _ E1) as (w1 & S1 & F1).
  destruct (Hk _ _ E2) as (w2 & S2 & F2). exists (w1 ++ w2). rewrite S2, S1, app_assoc. split; [reflexivity|].
  apply Forall_app. auto.
Qed.
Lemma ret_only : only_pics (mret tt).
Proof. intros s s' E. injection E as <-. exists []. rewrite app_nil_r. split; constructor. Qed.
Lemma get_only (k : irqs -> M irqs unit) : (forall s, only_pics (k s)) -> only_pics (get ≫= k).
Proof. intros Hk s s' E. rewrite (bind_step get _ _ _ _ eq_refl) in E. exact (Hk s s s' E). Qed.
Lemma mask_only mask : only_pics (modify (fun s => s <| irqmask := mask |>)).
Proof. intros s s' E. injection E as <-. exists []. rewrite app_nil_r. split; constructor. Qed.
Create HintDb only_pics discriminated.
#[export] Hint Resolve outb_only bind_only ret_only get_only mask_only : only_pics.
#[export] Hint Extern 1 (pic_port _) => (unfold pic_port; cbn; auto) : only_pics.

Lemma pic_set_mask_only mask : only_pics (pic_set_mask mask).
Proof. unfold pic_set_mask. auto 10 with only_pics. Qed.
#[export] Hint Resolve pic_set_mask_only : only_pics.
Lemma enable_all_only l : only_pics (enable_all l).
Proof. induction l; cbn [enable_all]; unfold pic_enable; auto 10 with only_pics. Qed.
Lemma pic_init_only : only_pics pic_init.
Proof.
  unfold pic_init. repeat (apply bind_only; [auto with only_pics|]). apply get_only. intros s. unfold when.
  destruct (negb _); auto with only_pics.
Qed.

Lemma timer_run_app t l1 l2 : timer_run t (l1 ++ l2) = timer_run (timer_run t l1) l2.
Proof. apply foldl_app. Qed.

Lemma by_cases16 (P : Z -> Prop) i : Forall P (seqZ 0 16) -> 0 <= i < 16 -> P i.
Proof. intros HP Hi. rewrite Forall_forall in HP. apply HP, elem_of_seqZ. lia. Qed.

Lemma mask0_bits i : 0 <= i < 16 -> Z.testbit (irqmask irqs0) i = negb (i =? 2).
Proof. intros Hi. apply (by_cases16 (fun i => Z.testbit (irqmask irqs0) i = negb (i =? 2))); [vm_compute; repeat constructor | exact Hi]. Qed.

(** The vector of a line, from the mask. *)
Lemma vector_of_pics mask irq :
  0 <= irq < 16 -> in_u 16 mask -> Z.testbit mask 2 = false ->
  vector_of (pics_of mask) irq = if Z.testbit mask irq || (irq =? 2) then None else Some (T_IRQ0 + irq).
Proof.
  intros Hi Hm H2. unfold vector_of, pics_of. cbn [master slave ready stage imr cascade vbase andb].
  rewrite !uwrap_testbit by lia. change (Z.testbit 4 2) with true. cbn [andb]. change (2 <? 8) with true. rewrite H2. cbn [andb negb].
  destruct (Z.ltb_spec irq 8).
  - replace (Z.testbit 4 irq) with (irq =? 2).
    + cbn [andb]. destruct (Z.testbit mask irq), (irq =? 2); reflexivity.
    + apply (by_cases16 (fun i => (i =? 2) = Z.testbit 4 i)); [vm_compute; repeat constructor | lia].
  - rewrite Z.shiftr_spec by lia. rewrite (proj2 (Z.ltb_lt (irq - 8) 8)) by lia. replace (irq - 8 + 8) with irq by lia. cbn [andb].
    rewrite (proj2 (Z.eqb_neq irq 2)) by lia. rewrite orb_false_r. destruct (Z.testbit mask irq); [reflexivity|].
    cbn [negb]. f_equal. unfold T_IRQ0. lia.
Qed.

(** C37. The controllers after kmain's pit_init, pic_init and the drivers' calls of
    pic_enable, whatever state the firmware left them in: a line raised reaches the
    processor exactly when it is the timer's or one of those enabled, on vector T_IRQ0
    plus its number; no other line does, and neither does the slave's own.  Both chips
    end interrupts automatically, so interrupt_eoi, which writes to the master alone,
    changes nothing; and counter 0 divides the timer's clock to 100 Hz, to within half
    a count. *)
Theorem irq_delivery l p0 t0 :
  Forall (fun i => 0 <= i < 16) l ->
  exists s', (pit_init;; pic_init;; enable_all l) irqs0 = Ok tt s'
  /\ (forall irq, 0 <= irq < 16 ->
        vector_of (pics_run p0 (sent s')) irq
        = if bool_decide (irq ∈ IRQ_TIMER :: l) && negb (irq =? IRQ_SLAVE) then Some (T_IRQ0 + irq) else None)
  /\ (exists s2, interrupt_eoi s' = Ok tt s2 /\ pics_run p0 (sent s2) = pics_run p0 (sent s'))
  /\ Z.testbit (mode4 (master (pics_run p0 (sent s')))) 1 = true
  /\ Z.testbit (mode4 (slave (pics_run p0 (sent s')))) 1 = true
  /\ (exists n, timer_run t0 (sent s') = I8254 2 None (Some n) /\ 2 * Z.abs (TIMER_FREQ - 100 * n) <= 100).
Proof.
  intros Hl. destruct (pit_init_spec irqs0) as (s1 & E1 & M1 & w & S1 & Hw).
  pose proof (clear_bit (irqmask irqs0) IRQ_TIMER ltac:(vm_compute; split; congruence) ltac:(unfold IRQ_TIMER; lia)) as C1. rewrite <-M1 in C1.
  assert (irqmask s1 = 0xFFFA) as K1 by (rewrite M1; reflexivity).
  destruct (pic_init_spec p0 s1 (proj1 C1) ltac:(lia)) as (s2 & E2 & M2 & R2). rewrite <-M2 in R2, C1.
  destruct (enable_all_spec p0 l s2 R2 (proj1 C1) Hl) as (s3 & E3 & R3 & C3).
  pose proof (cleared_app _ _ _ _ _ C1 C3) as [Hr Hc]. cbn [app] in Hc.
  exists s3. rewrite (bind_step _ _ _ _ _ E1), (bind_step _ _ _ _ _ E2), R3. split_and!; [exact E3 | | | reflexivity | reflexivity|].
  - intros irq Hi. assert (Z.testbit (irqmask s3) 2 = false) as H2 by (rewrite Hc by lia; reflexivity).
    rewrite vector_of_pics by assumption. rewrite Hc, mask0_bits by lia. change IRQ_SLAVE with 2.
    destruct (irq =? 2), (bool_decide (irq ∈ IRQ_TIMER :: l)); reflexivity.
  - eexists. split; [reflexivity|]. cbn [sent assign]. rewrite pics_run_app, R3. reflexivity.
  - destruct (pic_init_only _ _ E2) as (w2 & S2 & F2). destruct (enable_all_only l _ _ E3) as (w3 & S3 & F3).
    exists 11932. split; [|unfold TIMER_FREQ; lia]. rewrite S3, S2, S1, !timer_run_app.
    rewrite (timer_ignores _ w3 F3), (timer_ignores _ w2 F2). rewrite (timer_ignores _ w); [reflexivity|].
    eapply Forall_impl; [exact Hw|]. intros x [E | E]; unfold pic_port; auto.
Qed.

(** The vectors of the sixteen lines, from what the theorem says of each. *)
Lemma vectors_of_lines (f g : Z -> option Z) : (forall irq, 0 <= irq < 16 -> f irq = g irq) -> omap f (seqZ 0 16) = omap g (seqZ 0 16).
Proof.
  intros H. assert (Forall (fun i => f i = g i) (seqZ 0 16)) as HF by (apply Forall_forall; intros i Hi; apply elem_of_seqZ in Hi; apply H; lia).
  induction HF as [|i l Hi _ IH]; [reflexivity|]. cbn [omap list_omap]. rewrite Hi, IH. reflexivity.
Qed.

Lemma start_up_lines : Forall (fun i => 0 <= i < 16) [IRQ_COM1; IRQ_KBD; IRQ_IDE].
Proof. repeat constructor; cbv; congruence. Qed.

Lemma irq_delivery_witness :
  exists s', kmain_irqs irqs0 = Ok tt s'
  /\ omap (vector_of (pics_run (Pics (I8259 Icw4 true true 8 0 0 0 false) (I8259 Ocw1 true true 0x70 0 0 0 false)) (sent s'))) (seqZ 0 16)
     = [32; 33; 36; 46].
Proof.
  destruct (irq_delivery [IRQ_COM1; IRQ_KBD; IRQ_IDE] (Pics (I8259 Icw4 true true 8 0 0 0 false) (I8259 Ocw1 true true 0x70 0 0 0 false))
    (I8254 0 None None) start_up_lines) as (s' & E & HV & _).
  exists s'. split; [exact E|]. rewrite (vectors_of_lines _ _ HV). reflexivity.
Defined.
