(* ===== verification/Pipe.v ===== *)
(** * Pipes (src/kernel/fs/pipe.c)

    The ring of 512 bytes with its free-running 32-bit counters.  [pipewrite]
    and [piperead] may sleep in the middle: their models run up to the next
    [sleep] and return what is left to do, so that any interleaving of readers
    and writers is a sequence of such runs.  The wake-ups each run issues are
    part of its result. *)
From Stdlib Require Import ZArith Lia.
From stdpp Require Import base numbers list.
From S2P Require Import Prelude.
Local Open Scope Z_scope.

Definition PIPESIZE : Z := 512.

Record pipe := Pipe {
  data : list Z;
  nread : Z;          (* unsigned int: number of bytes read *)
  nwrite : Z;         (* unsigned int: number of bytes written *)
  readopen : bool;
  writeopen : bool
}.

(** The two sleep channels, [&p->nread] and [&p->nwrite]. *)
Inductive chan : Type := ChRead | ChWrite.

(** The pipe [pipealloc] sets up in a fresh page. *)
Definition pipe_new (page : list Z) : pipe := Pipe page 0 0 true true.

(** [pipeclose]: the pipe, the channel woken, and whether the page is freed. *)
Definition pipeclose (writable : bool) (p : pipe) : pipe * chan * bool :=
  let '(p, ch) :=
    if writable
    then (Pipe (data p) (nread p) (nwrite p) (readopen p) false, ChRead)
    else (Pipe (data p) (nread p) (nwrite p) false (writeopen p), ChWrite) in
  (p, ch, negb (readopen p) && negb (writeopen p)).

(** How a run of [pipewrite] ends: it returns [n], returns -1, or sleeps on
    [&p->nwrite] with these bytes still to store. *)
Inductive wresult : Type := WDone | WFail | WSleep (rest : list Z).

Definition pipe_full (p : pipe) : bool := nwrite p =? u32 (nread p + PIPESIZE).

Definition pipe_store (p : pipe) (c : Z) : pipe :=
  Pipe (<[Z.to_nat (nwrite p mod PIPESIZE) := c]> (data p))
    (nread p) (u32 (nwrite p + 1)) (readopen p) (writeopen p).

(** [addr] is the rest of the user's buffer, [addr[i..n)]. *)
Fixpoint pipewrite (killed : bool) (addr : list Z) (p : pipe) : pipe * wresult * list chan :=
  match addr with
  | [] => (p, WDone, [ChRead])
  | c :: rest =>
      if pipe_full p then
        if negb (readopen p) || killed then (p, WFail, [])
        else (p, WSleep (c :: rest), [ChRead])
      else pipewrite killed rest (pipe_store p c)
  end.

(** How a run of [piperead] ends: these bytes were copied out, -1, or sleep. *)
Inductive rresult : Type := RBytes (bs : list Z) | RFail | RSleep.

Fixpoint pipe_copy (n : nat) (p : pipe) : list Z * pipe :=
  match n with
  | O => ([], p)
  | S k =>
      if nread p =? nwrite p then ([], p)
      else
        let c := default 0 (data p !! Z.to_nat (nread p mod PIPESIZE)) in
        let '(bs, p) :=
          pipe_copy k (Pipe (data p) (u32 (nread p + 1)) (nwrite p) (readopen p) (writeopen p)) in
        (c :: bs, p)
  end.

Definition piperead (killed : bool) (n : Z) (p : pipe) : pipe * rresult * list chan :=
  if (nread p =? nwrite p) && writeopen p then
    if killed then (p, RFail, []) else (p, RSleep, [])
  else
    let '(bs, p) := pipe_copy (Z.to_nat n) p in
    (p, RBytes bs, [ChWrite]).

(** ** The queue a pipe represents *)

Definition count (p : pipe) : Z := u32 (nwrite p - nread p).

(** Byte number [k] of the stream sits at [k mod 512]. *)
Definition byte_at (p : pipe) (k : Z) : Z := default 0 (data p !! Z.to_nat (k mod PIPESIZE)).

Definition contents (p : pipe) : list Z :=
  map (fun i => byte_at p (nread p + Z.of_nat i)) (seq 0 (Z.to_nat (count p))).

Record pipe_inv (p : pipe) : Prop := PipeInv {
  p_len : length (data p) = 512%nat;
  p_nr : in_u 32 (nread p);
  p_nw : in_u 32 (nwrite p);
  p_cnt : count p <= PIPESIZE
}.

Lemma count_range p : 0 <= count p < 2 ^ 32.
Proof. apply uwrap_range. lia. Qed.

Lemma length_contents p : length (contents p) = Z.to_nat (count p).
Proof. unfold contents. len. Qed.

Lemma u32_mod512 z : u32 z mod PIPESIZE = z mod PIPESIZE.
Proof.
  unfold uwrap, PIPESIZE. apply Z.mod_mod_divide.
  exists (2 ^ 23). reflexivity.
Qed.

Lemma nwrite_nread p : pipe_inv p -> nwrite p = u32 (nread p + count p).
Proof.
  intros [_ Hr Hw _]. unfold count. rewrite uwrap_add_r.
  replace (nread p + (nwrite p - nread p)) with (nwrite p) by lia.
  symmetry. apply uwrap_id. exact Hw.
Qed.

Lemma pipe_full_spec p : pipe_inv p -> pipe_full p = true <-> count p = PIPESIZE.
Proof.
  intros H. unfold pipe_full. rewrite Z.eqb_eq. split.
  - intros E. unfold count. rewrite E, uwrap_sub_l.
    replace (nread p + PIPESIZE - nread p) with PIPESIZE by lia. reflexivity.
  - intros E. rewrite (nwrite_nread p H), E. reflexivity.
Qed.

Lemma pipe_empty_spec p : pipe_inv p -> (nread p =? nwrite p) = true <-> count p = 0.
Proof.
  intros H. rewrite Z.eqb_eq. split.
  - intros E. unfold count. rewrite E, Z.sub_diag. reflexivity.
  - intros E. rewrite (nwrite_nread p H), E, Z.add_0_r. symmetry. apply uwrap_id, H.
Qed.

Lemma store_count p c :
  pipe_inv p -> count p < PIPESIZE -> count (pipe_store p c) = count p + 1.
Proof.
  intros H Hc. unfold count at 1. cbn [nwrite nread pipe_store]. rewrite uwrap_sub_l.
  replace (nwrite p + 1 - nread p) with (nwrite p - nread p + 1) by lia.
  rewrite <-uwrap_add_l. fold (count p).
  pose proof (count_range p). unfold PIPESIZE in *. apply uwrap_id. unfold in_u. lia.
Qed.

Lemma store_inv p c : pipe_inv p -> count p < PIPESIZE -> pipe_inv (pipe_store p c).
Proof.
  intros H Hc. split.
  - cbn. rewrite length_insert. apply H.
  - apply H.
  - cbn. apply uwrap_range. lia.
  - rewrite store_count by assumption. lia.
Qed.

Lemma nwrite_slot p : pipe_inv p -> nwrite p mod PIPESIZE = (nread p + count p) mod PIPESIZE.
Proof. intros H. rewrite (nwrite_nread p H), u32_mod512. reflexivity. Qed.

(** Storing at the write position appends to the queue: the slot is not one of
    the occupied ones. *)
Lemma store_contents p c :
  pipe_inv p -> count p < PIPESIZE -> contents (pipe_store p c) = contents p ++ [c].
Proof.
  intros H Hc. pose proof (count_range p) as Hr. pose proof (p_len p H) as Hl.
  unfold contents. rewrite store_count by assumption.
  replace (Z.to_nat (count p + 1)) with (S (Z.to_nat (count p))) by lia.
  rewrite seq_S, map_app. cbn [map nread pipe_store]. f_equal.
  - apply map_ext_in. intros i Hi. apply in_seq in Hi. unfold byte_at. cbn [data pipe_store].
    rewrite list_lookup_insert_ne; [reflexivity|].
    intros E. apply Z2Nat.inj in E; try (apply Z.mod_pos_bound; unfold PIPESIZE; lia).
    rewrite (nwrite_slot p H) in E. unfold PIPESIZE in *. Z.div_mod_to_equations. lia.
  - f_equal. unfold byte_at. cbn [data pipe_store]. replace (Z.of_nat (0 + Z.to_nat (count p))) with (count p) by lia.
    rewrite <-(nwrite_slot p H).
    rewrite list_lookup_insert_eq; [reflexivity|].
    pose proof (Z.mod_pos_bound (nwrite p) PIPESIZE). unfold PIPESIZE in *. lia.
Qed.

(** One byte out. *)
Definition pipe_drop1 (p : pipe) : pipe :=
  Pipe (data p) (u32 (nread p + 1)) (nwrite p) (readopen p) (writeopen p).

Lemma drop1_count p : pipe_inv p -> 0 < count p -> count (pipe_drop1 p) = count p - 1.
Proof.
  intros H Hc. unfold count at 1. cbn [nwrite nread pipe_drop1]. rewrite uwrap_sub_r.
  replace (nwrite p - (nread p + 1)) with (nwrite p - nread p - 1) by lia.
  rewrite <-uwrap_sub_l. fold (count p). pose proof (count_range p).
  apply uwrap_id. unfold in_u. lia.
Qed.

Lemma drop1_inv p : pipe_inv p -> 0 < count p -> pipe_inv (pipe_drop1 p).
Proof.
  intros H Hc. split; [apply H | cbn; apply uwrap_range; lia | apply H |].
  rewrite drop1_count by assumption. pose proof (p_cnt p H). lia.
Qed.

Lemma drop1_contents p :
  pipe_inv p -> 0 < count p ->
  contents p = byte_at p (nread p) :: contents (pipe_drop1 p).
Proof.
  intros H Hc. unfold contents. rewrite drop1_count by assumption.
  replace (Z.to_nat (count p)) with (S (Z.to_nat (count p - 1))) by lia.
  cbn [seq map]. rewrite Z.add_0_r. f_equal. rewrite <-seq_shift, map_map. apply map_ext.
  intros i. unfold byte_at. cbn [data nread pipe_drop1].
  rewrite <-(u32_mod512 (u32 (nread p + 1) + _)), uwrap_add_l, u32_mod512.
  do 4 f_equal. lia.
Qed.

Lemma pipewrite_spec killed addr p :
  pipe_inv p ->
  exists k p' r ws, pipewrite killed addr p = (p', r, ws) /\ pipe_inv p'
    /\ (k <= length addr)%nat
    /\ contents p' = contents p ++ take k addr
    /\ readopen p' = readopen p /\ writeopen p' = writeopen p
    /\ match r with
       | WDone => k = length addr /\ ws = [ChRead]
       | WFail => count p' = PIPESIZE /\ (readopen p = false \/ killed = true) /\ ws = []
       | WSleep rest => rest = drop k addr /\ rest <> [] /\ count p' = PIPESIZE
           /\ readopen p = true /\ killed = false /\ ws = [ChRead]
       end.
Proof.
  revert p. induction addr as [|c rest IH]; intros p H; cbn [pipewrite].
  - exists 0%nat, p, WDone, [ChRead]. rewrite app_nil_r. split_and!; auto.
  - destruct (pipe_full p) eqn:E.
    + apply (pipe_full_spec p H) in E. destruct (negb (readopen p) || killed) eqn:Eo.
      * exists 0%nat, p, WFail, []. cbn [take]. rewrite app_nil_r. split_and!; auto; [lia|].
        destruct (readopen p), killed; cbn in Eo; auto; discriminate.
      * exists 0%nat, p, (WSleep (c :: rest)), [ChRead]. cbn [take]. rewrite app_nil_r.
        split_and!; auto; try lia; try discriminate;
          destruct (readopen p), killed; cbn in Eo; auto; discriminate.
    + assert (count p < PIPESIZE) as Hlt.
      { pose proof (p_cnt p H). destruct (Z.eq_dec (count p) PIPESIZE) as [Eq|]; [|lia].
        apply (pipe_full_spec p H) in Eq. congruence. }
      destruct (IH (pipe_store p c) (store_inv p c H Hlt)) as (k & p' & r & ws & Hrun & Hi & Hk & Hc & Hro & Hwo & Hr).
      exists (S k), p', r, ws. rewrite Hrun. cbn [take drop length].
      rewrite (store_contents p c H Hlt), <-app_assoc in Hc. cbn [readopen writeopen pipe_store] in *.
      split_and!; auto; [lia|]. destruct r; destruct_and?; split_and?; auto.
Qed.

Lemma pipe_copy_spec n p :
  pipe_inv p ->
  pipe_inv (pipe_copy n p).2 /\ contents p = (pipe_copy n p).1 ++ contents (pipe_copy n p).2
  /\ length (pipe_copy n p).1 = Nat.min n (Z.to_nat (count p))
  /\ readopen (pipe_copy n p).2 = readopen p /\ writeopen (pipe_copy n p).2 = writeopen p.
Proof.
  revert p. induction n as [|k IH]; intros p H; cbn [pipe_copy].
  - cbn. split_and!; auto.
  - destruct (nread p =? nwrite p) eqn:E.
    + apply (pipe_empty_spec p H) in E. cbn. rewrite E. split_and!; auto.
    + assert (0 < count p) as Hc.
      { pose proof (count_range p). destruct (Z.eq_dec (count p) 0) as [Eq|]; [|lia].
        apply (pipe_empty_spec p H) in Eq. congruence. }
      destruct (IH (pipe_drop1 p) (drop1_inv p H Hc)) as (Hi & Hcont & Hl & Hr & Hw).
      fold (pipe_drop1 p). destruct (pipe_copy k (pipe_drop1 p)) as [bs p']. cbn [fst snd] in *.
      rewrite (drop1_contents p H Hc), Hcont. rewrite drop1_count in Hl by assumption.
      split_and!; auto. cbn [length]. lia.
Qed.

(** ** Any interleaving of readers and writers *)

(** [sent] is what writers stored, [got] what readers received, in order. *)
Record pipe_world := PipeWorld { pw : pipe; sent : list Z; got : list Z }.

Inductive pipe_step : pipe_world -> pipe_world -> Prop :=
| step_write w killed addr p' r ws k :
    pipewrite killed addr (pw w) = (p', r, ws) ->
    k = (length (contents p') - length (contents (pw w)))%nat ->
    pipe_step w (PipeWorld p' (sent w ++ take k addr) (got w))
| step_read w killed n p' bs ws :
    piperead killed n (pw w) = (p', RBytes bs, ws) ->
    pipe_step w (PipeWorld p' (sent w) (got w ++ bs))
| step_read_none w killed n p' r ws :
    piperead killed n (pw w) = (p', r, ws) -> r = RFail \/ r = RSleep ->
    pipe_step w (PipeWorld p' (sent w) (got w))
| step_close w writable p' ch freed :
    pipeclose writable (pw w) = (p', ch, freed) ->
    pipe_step w (PipeWorld p' (sent w) (got w)).

Inductive pipe_reach : pipe_world -> Prop :=
| reach_new page : length page = 512%nat -> pipe_reach (PipeWorld (pipe_new page) [] [])
| reach_step w w' : pipe_reach w -> pipe_step w w' -> pipe_reach w'.

Lemma pipe_new_inv page : length page = 512%nat -> pipe_inv (pipe_new page).
Proof. intros H. split; [exact H | unfold in_u; cbn; lia.. | vm_compute; congruence]. Qed.

Lemma pipeclose_inv writable p :
  pipe_inv p -> pipe_inv (pipeclose writable p).1.1 /\ contents (pipeclose writable p).1.1 = contents p.
Proof. intros [Hl Hr Hw Hc]. destruct writable; cbn; (split; [split; assumption | reflexivity]). Qed.

Lemma piperead_spec killed n p :
  pipe_inv p ->
  exists p' r ws, piperead killed n p = (p', r, ws) /\ pipe_inv p'
    /\ match r with
       | RBytes bs => contents p = bs ++ contents p'
           /\ length bs = Nat.min (Z.to_nat n) (Z.to_nat (count p)) /\ ws = [ChWrite]
           /\ (bs = [] -> n <= 0 \/ writeopen p = false)
       | RFail => p' = p /\ killed = true /\ count p = 0 /\ writeopen p = true
       | RSleep => p' = p /\ killed = false /\ count p = 0 /\ writeopen p = true
       end.
Proof.
  intros H. unfold piperead. destruct (nread p =? nwrite p) eqn:E; cbn [andb].
  - pose proof (proj1 (pipe_empty_spec p H) E) as Hz. destruct (writeopen p) eqn:Ew.
    + destruct killed; (do 3 eexists; split; [reflexivity|]; split_and!; auto).
    + destruct (pipe_copy_spec (Z.to_nat n) p H) as (Hi & Hc & Hl & _ & _).
      destruct (pipe_copy (Z.to_nat n) p) as [bs p']. cbn [fst snd] in *.
      do 3 eexists; split; [reflexivity|]. split_and!; auto.
  - assert (count p <> 0) as Hz by (intros Eq; apply (pipe_empty_spec p H) in Eq; congruence).
    destruct (pipe_copy_spec (Z.to_nat n) p H) as (Hi & Hc & Hl & _ & _).
    destruct (pipe_copy (Z.to_nat n) p) as [bs p']. cbn [fst snd] in *.
    do 3 eexists; split; [reflexivity|]. split_and!; auto.
    intros ->. left. cbn in Hl. pose proof (count_range p). lia.
Qed.

(** ** Properties *)


Definition pipe_w0 : pipe := pipe_new (replicate 512 0).
Definition pipe_w1 : pipe := (pipewrite false [10; 20; 30] pipe_w0).1.1.
Definition pipe_w2 : pipe := (piperead false 2 pipe_w1).1.1.


(** No deadlock on a pipe with both ends open: a writer goes to sleep only
    when the ring is full, having woken the readers, and then a read of at least
    one byte returns data and wakes the writers, after which the sleeping writer
    stores at least one more byte. *)
Theorem pipe_progress p addr rest ws n p' :
  pipe_inv p -> pipewrite false addr p = (p', WSleep rest, ws) -> 0 < n ->
  ws = [ChRead] /\ count p' = PIPESIZE
  /\ exists p'' bs, piperead false n p' = (p'', RBytes bs, [ChWrite]) /\ bs <> []
     /\ exists p3 r3 ws3, pipewrite false rest p'' = (p3, r3, ws3)
        /\ (length (contents p'') < length (contents p3))%nat.
Proof.
  intros H Hrun Hn.
  destruct (pipewrite_spec false addr p H) as (k & p1 & r1 & ws1 & H1 & Hi1 & Hk & Hc & Hro & Hwo & Hr).
  rewrite Hrun in H1. injection H1 as <- <- <-.
  destruct Hr as (Hrest & Hne & Hfull & Hopen & _ & Hws). split_and!; [exact Hws | exact Hfull|].
  destruct (piperead_spec false n p' Hi1) as (p2 & r2 & ws2 & H2 & Hi2 & Hr2).
  assert (count p' <> 0) as Hnz by (rewrite Hfull; unfold PIPESIZE; lia).
  destruct r2 as [bs| |]; [|destruct Hr2 as (_ & _ & ? & _); contradiction..].
  destruct Hr2 as (Hcont & Hlen & -> & _). exists p2, bs.
  rewrite Hfull in Hlen. unfold PIPESIZE in Hlen.
  assert (bs <> []) as Hbs by (intros ->; cbn in Hlen; lia).
  split_and!; [exact H2 | exact Hbs |].
  destruct (pipewrite_spec false rest p2 Hi2) as (k3 & p3 & r3 & ws3 & H3 & Hi3 & Hk3 & Hc3 & _ & _ & Hr3).
  exists p3, r3, ws3. split; [exact H3|]. rewrite Hc3.
  assert (length (contents p2) < 512)%nat as Hlt.
  { pose proof (f_equal length Hcont) as E. rewrite length_app, length_contents, Hfull in E.
    unfold PIPESIZE in E. destruct bs; [contradiction|]. cbn in E. lia. }
  assert (0 < k3)%nat; [|len].
  destruct k3 as [|k3]; [|lia]. exfalso. cbn [take] in Hc3. rewrite app_nil_r in Hc3.
  assert (count p3 <> PIPESIZE) as Hnf.
  { intros E. rewrite <-Hc3, length_contents, E in Hlt. unfold PIPESIZE in Hlt. lia. }
  destruct r3 as [| |rest3].
  - destruct Hr3 as [E _]. destruct rest; [contradiction | discriminate].
  - destruct Hr3 as [E _]. contradiction.
  - destruct Hr3 as (_ & _ & E & _). contradiction.
Qed.

Definition pipe_w3 : pipe := (pipewrite false (replicate 513 65) pipe_w0).1.1.

Lemma pipe_progress_witness :
  pipewrite false (replicate 513 65) pipe_w0 = (pipe_w3, WSleep [65], [ChRead])
  /\ count pipe_w3 = PIPESIZE.
Proof.
  assert (pipewrite false (replicate 513 65) pipe_w0 = (pipe_w3, WSleep [65], [ChRead])) as E
    by (vm_compute; reflexivity).
  split; [exact E|].
  apply (pipe_progress pipe_w0 (replicate 513 65) [65] [ChRead] 1 pipe_w3);
    [apply pipe_new_inv; reflexivity | exact E | lia].
Defined.

(** End of file and broken pipes: with the write end closed a read returns
    what is left and then 0 bytes without sleeping; with the read end closed a
    write of more than the free space fails with -1; the page is freed exactly
    when both ends are closed. *)
Theorem pipe_eof p killed n addr :
  pipe_inv p -> 0 < n ->
  (writeopen p = false ->
     exists p' bs, piperead killed n p = (p', RBytes bs, [ChWrite]) /\ contents p = bs ++ contents p'
       /\ (bs = [] <-> contents p = []))
  /\ (readopen p = false -> (512 - length (contents p) < length addr)%nat ->
     exists p', pipewrite killed addr p = (p', WFail, []))
  /\ (forall w, (pipeclose w p).2 = true <->
       (if w then readopen p = false else writeopen p = false)).
Proof.
  intros H Hn. split_and!.
  - intros Hw. destruct (piperead_spec killed n p H) as (p' & r & ws & Hrun & _ & Hr).
    destruct r as [bs| |]; [|destruct Hr as (_ & _ & _ & ?); congruence..].
    destruct Hr as (Hc & Hl & -> & _). exists p', bs. split_and!; [exact Hrun | exact Hc |].
    rewrite <-(length_contents p) in Hl. split; intros E.
    + apply nil_length_inv. subst bs. cbn in Hl. lia.
    + apply nil_length_inv. rewrite E in Hl. cbn in Hl. lia.
  - intros Hr Hlen.
    destruct (pipewrite_spec killed addr p H) as (k & p1 & r1 & ws1 & H1 & Hi1 & Hk & Hc & _ & _ & Hres).
    destruct r1 as [| |rest].
    + destruct Hres as [-> _]. exfalso. pose proof (f_equal length Hc) as E.
      rewrite length_app, length_take, !length_contents in E. rewrite length_contents in Hlen.
      pose proof (p_cnt _ Hi1). pose proof (count_range p). unfold PIPESIZE in *. lia.
    + destruct Hres as (_ & _ & ->). eauto.
    + destruct Hres as (_ & _ & _ & E & _). congruence.
  - intros w. destruct w; cbn; rewrite ?andb_true_r; destruct (readopen p), (writeopen p); cbn;
      intuition congruence.
Qed.

Lemma pipe_eof_witness :
  exists p' bs, piperead false 4 (Pipe (replicate 512 7) 510 512 true false) = (p', RBytes bs, [ChWrite])
    /\ contents (Pipe (replicate 512 7) 510 512 true false) = bs ++ contents p'
    /\ (bs = [] <-> contents (Pipe (replicate 512 7) 510 512 true false) = []).
Proof.
  apply (pipe_eof (Pipe (replicate 512 7) 510 512 true false) false 4 []); [|lia|reflexivity].
  split; [reflexivity | unfold in_u; cbn; lia.. | vm_compute; congruence].
Defined.
