(* ===== verification/Proc.v ===== *)
(** * Processes (src/kernel/cpu/proc.c, src/include/proc.h)

    The process table, its life cycle (allocproc, fork, exit, waitpid), sleep
    and wake-up, the scheduler's choice, and signalling by pid and by group.
    A process pointer is the index of its slot, [None] for null.  Calls into the
    other components are recorded in order in [calls]; what they return (the
    stack page of [kalloc], the page table of [copyuvm]) is an argument.
    [ptable.lock] is its word and the [pushcli] depth; with one CPU the
    interrupt flag follows the depth (Locks.v).  Leaving the CPU in [sched] is
    the [Block] outcome, on the sleep channel or on 0 for [yield] and [exit]. *)
From Stdlib Require Import ZArith Lia.
From stdpp Require Import base numbers list strings.
From S2P Require Import Prelude.
Local Open Scope Z_scope.

Definition NPROC : nat := 64.
Definition NOFILE : nat := 128.
Definition NSIG : nat := 65.
Definition NGROUPS : nat := 32.
Definition KSTACKSIZE : Z := 4096.
Definition ESRCH : Z := 3.
Definition ENOMEM : Z := 12.
Definition SIGINT : Z := 2.
Definition SIGQUIT : Z := 3.
Definition SIGCHLD : Z := 17.
Definition SIGTSTP : Z := 20.

Inductive procstate : Type := UNUSED | EMBRYO | SLEEPING | RUNNABLE | RUNNING | ZOMBIE.
#[export] Instance procstate_eq : EqDecision procstate.
Proof. solve_decision. Defined.

Record trapframe := TrapFrame {
  edi : Z; esi : Z; ebp : Z; oesp : Z; ebx : Z; edx : Z; ecx : Z; eax : Z;
  gs : Z; fs : Z; es : Z; ds : Z; trapno : Z; err : Z; eip : Z; cs : Z;
  eflags : Z; esp : Z; ss : Z
}.
#[export] Instance trapframe_fields : Fields trapframe := fun r =>
  TrapFrame (edi r) (esi r) (ebp r) (oesp r) (ebx r) (edx r) (ecx r) (eax r)
    (gs r) (fs r) (es r) (ds r) (trapno r) (err r) (eip r) (cs r) (eflags r) (esp r) (ss r).

Record proc := Proc {
  sz : Z; pgdir : Z; kstack : Z; state : procstate; pid : Z; parent : option nat;
  tf : trapframe; chan : Z; killed : Z; ofile : list Z; cwd : Z; name : string;
  uid : Z; euid : Z; suid : Z; gid : Z; egid : Z; sgid : Z; pgrp : Z;
  exitstatus : Z; termsig : Z; sighandlers : list Z; sigrestorers : list Z;
  alarmticks : Z; alarminterval : Z; sigmask : Z; sigpending : Z;
  saved_trapframe_sp : Z; close_on_exec : Z; umask : Z; session : Z;
  leader : Z; tty : Z; groups : list Z
}.
#[export] Instance proc_fields : Fields proc := fun r =>
  Proc (sz r) (pgdir r) (kstack r) (state r) (pid r) (parent r) (tf r) (chan r) (killed r)
    (ofile r) (cwd r) (name r) (uid r) (euid r) (suid r) (gid r) (egid r) (sgid r) (pgrp r)
    (exitstatus r) (termsig r) (sighandlers r) (sigrestorers r) (alarmticks r)
    (alarminterval r) (sigmask r) (sigpending r) (saved_trapframe_sp r) (close_on_exec r)
    (umask r) (session r) (leader r) (tty r) (groups r).

(** Calls into other components, in the order they are made. *)
Inductive call : Type :=
| CKfree (page : Z) | CFreevm (pgdir : Z) | CFileDup (f : Z) | CFileClose (f : Z)
| CIdup (ip : Z) | CBeginOp | CIput (ip : Z) | CEndOp.

Record pstate := PState {
  ptable : list proc;
  nextpid : Z;
  initproc : option nat;
  cur : option nat;           (* cpu->proc *)
  ptlocked : bool;            (* ptable.lock held *)
  depth : Z;                  (* cpu->ncli *)
  calls : list call
}.
#[export] Instance pstate_fields : Fields pstate := fun s =>
  PState (ptable s) (nextpid s) (initproc s) (cur s) (ptlocked s) (depth s) (calls s).

(** ** Table access *)

Definition null_deref : string := "null process pointer".

Definition pget (i : nat) : M pstate proc :=
  s ← get;
  match ptable s !! i with Some p => mret p | None => fault "ptable index" end.

(** [p->field = v] *)
Definition pmod (i : nat) (f : proc -> proc) : M pstate unit :=
  modify (fun s => s <| ptable := alter f i (ptable s) |>).

Definition emit (c : call) : M pstate unit := modify (fun s => s <| calls := calls s ++ [c] |>).

Definition myproc : M pstate nat :=
  s ← get;
  match cur s with Some i => mret i | None => fault null_deref end.

Definition acquire_pt : M pstate unit :=
  s ← get;
  if ptlocked s then panic "acquire: holding"
  else put (s <| ptlocked := true |> <| depth := depth s + 1 |>).

Definition release_pt : M pstate unit :=
  s ← get;
  if negb (ptlocked s) then panic "release"
  else put (s <| ptlocked := false |> <| depth := depth s - 1 |>).

(** The first slot from [i] that satisfies [f]: the [for (p = ptable.proc; ...)]
    scans. *)
Fixpoint scan_from (f : nat -> proc -> bool) (l : list proc) (i : nat) : option nat :=
  match l with
  | [] => None
  | p :: l' => if f i p then Some i else scan_from f l' (S i)
  end.
Definition scan (f : nat -> proc -> bool) (l : list proc) : option nat := scan_from f l 0.

Definition is_state (st : procstate) (p : proc) : bool := bool_decide (state p = st).

(** ** allocproc *)

(** Where allocproc puts the trap frame, the [trapret] slot and the context on
    the kernel stack; sizes of the C structs are 76 and 20 bytes. *)
Definition kstack_layout (k : Z) : Z * Z * Z :=
  let sp := k + KSTACKSIZE in
  let tfp := sp - 76 in
  let sp := tfp - 4 in
  let ctx := sp - 20 in
  (tfp, sp, ctx).

Definition fresh_proc (newpid : Z) (p : proc) : proc :=
  p <| state := EMBRYO |> <| pid := newpid |> <| uid := 0 |> <| gid := 0 |>
    <| alarmticks := 0 |> <| alarminterval := 0 |> <| sigmask := 0 |> <| umask := 18 |>
    <| session := 0 |> <| leader := 0 |> <| tty := -1 |> <| close_on_exec := 0 |>
    <| termsig := 0 |> <| groups := replicate NGROUPS 0 |>
    <| sighandlers := <[Z.to_nat SIGCHLD := 1]> (replicate NSIG 0) |>.

(** [kalloc_ret] is what [kalloc()] returned for the kernel stack. *)
Definition allocproc (kalloc_ret : Z) : M pstate (option nat) :=
  acquire_pt;;
  s ← get;
  match scan (fun _ p => is_state UNUSED p) (ptable s) with
  | None => release_pt;; mret None
  | Some i =>
      put (s <| ptable := alter (fresh_proc (nextpid s)) i (ptable s) |>
             <| nextpid := i32 (nextpid s + 1) |>);;
      release_pt;;
      pmod i (fun p => p <| kstack := kalloc_ret |>);;
      if kalloc_ret =? 0 then
        pmod i (fun p => p <| state := UNUSED |>);; mret None
      else mret (Some i)
  end.

(** ** user_init *)

Definition zero_tf : trapframe := TrapFrame 0 0 0 0 0 0 0 0 0 0 0 0 0 0 0 0 0 0 0.

(** [setupkvm_ret], [namei_ret]: what [setupkvm()] and [namei("/")] return;
    code and data selectors are [(4 << 3) | 3] and [(5 << 3) | 3]. *)
Definition init_proc (pd root : Z) (p : proc) : proc :=
  p <| uid := 0 |> <| euid := 0 |> <| suid := 0 |> <| gid := 0 |> <| egid := 0 |> <| sgid := 0 |>
    <| pgrp := pid p |> <| pgdir := pd |> <| sz := 4096 |>
    <| tf := zero_tf <| cs := 35 |> <| ds := 43 |> <| es := 43 |> <| ss := 43 |>
               <| eflags := 512 |> <| esp := 4096 |> <| eip := 0 |> |>
    <| tty := -1 |> <| name := "initcode"%string |> <| cwd := root |>.

Definition user_init (kalloc_ret setupkvm_ret namei_ret : Z) : M pstate unit :=
  onp ← allocproc kalloc_ret;
  match onp with
  | None => fault null_deref
  | Some i =>
      modify (fun s => s <| initproc := Some i |>);;
      if setupkvm_ret =? 0 then panic "userinit: out of memory"
      else
        pmod i (init_proc setupkvm_ret namei_ret);;
        acquire_pt;;
        pmod i (fun p => p <| state := RUNNABLE |>);;
        release_pt
  end.

(** ** fork *)

Definition inherit (c : proc) (np : proc) : proc :=
  np <| uid := uid c |> <| euid := euid c |> <| suid := suid c |> <| gid := gid c |>
     <| egid := egid c |> <| sgid := egid c |> <| pgrp := pgrp c |> <| sigpending := 0 |>
     <| sigmask := 0 |> <| saved_trapframe_sp := 0 |> <| session := session c |>
     <| leader := 0 |> <| tty := tty c |> <| sighandlers := sighandlers c |>
     <| sigrestorers := sigrestorers c |> <| alarmticks := 0 |> <| alarminterval := 0 |>
     <| sigmask := 0 |>.

(** [for (i = 0; i < NOFILE; i++) if (curproc->ofile[i]) np->ofile[i] = file_dup(...)] *)
Fixpoint dup_files (src dst : list Z) : M pstate (list Z) :=
  match src, dst with
  | f :: src', d :: dst' =>
      when (nz f) (emit (CFileDup f));;
      rest ← dup_files src' dst';
      mret ((if nz f then f else d) :: rest)
  | _, _ => mret dst
  end.

Definition fork (kalloc_ret copyuvm_ret : Z) : M pstate Z :=
  c ← myproc;
  onp ← allocproc kalloc_ret;
  match onp with
  | None => mret (- ENOMEM)
  | Some np =>
      cp ← pget c;
      pmod np (inherit cp);;
      pmod np (fun p => p <| pgdir := copyuvm_ret |>);;
      if copyuvm_ret =? 0 then
        p ← pget np;
        emit (CKfree (kstack p));;
        pmod np (fun p => p <| kstack := 0 |>);;
        pmod np (fun p => p <| state := UNUSED |>);;
        mret (- ENOMEM)
      else
        pmod np (fun p => p <| sz := sz cp |> <| parent := Some c |> <| tf := tf cp |>);;
        pmod np (fun p => p <| tf := tf p <| eax := 0 |> |>);;
        p ← pget np;
        fl ← dup_files (ofile cp) (ofile p);
        pmod np (fun p => p <| ofile := fl |>);;
        emit (CIdup (cwd cp));;
        pmod np (fun p => p <| cwd := cwd cp |> <| name := name cp |>);;
        p ← pget np;
        let ret := pid p in
        acquire_pt;;
        pmod np (fun p => p <| state := RUNNABLE |>);;
        release_pt;;
        mret ret
  end.

(** ** Sleeping and waking *)

Definition wakeup1 (ch : Z) : M pstate unit :=
  modify (fun s => s <| ptable :=
    map (fun p => if is_state SLEEPING p && (chan p =? ch) then p <| state := RUNNABLE |> else p)
      (ptable s) |>).

Definition wakeup (ch : Z) : M pstate unit := acquire_pt;; wakeup1 ch;; release_pt.

(** [sched]: its checks, then the switch to the scheduler. *)
Definition sched (ch : Z) : M pstate unit :=
  i ← myproc;
  p ← pget i;
  s ← get;
  if negb (ptlocked s) then panic "sched ptable.lock"
  else if negb (depth s =? 1) then panic "sched locks"
  else if is_state RUNNING p then panic "sched running"
  else block ch.

Definition yield : M pstate unit :=
  acquire_pt;;
  i ← myproc;
  pmod i (fun p => p <| state := RUNNABLE |>);;
  sched 0.

(** [sleep(chan, lk)]; [lk_pt] says that [lk] is [ptable.lock] itself, otherwise
    it is a spinlock of the caller, whose release lowers the depth. *)
Definition sleep (ch : Z) (lk_pt : bool) : M pstate unit :=
  i ← myproc;
  (if lk_pt then mret tt
   else acquire_pt;; modify (fun s => s <| depth := depth s - 1 |>));;
  pmod i (fun p => p <| chan := ch |>);;
  pmod i (fun p => p <| state := SLEEPING |>);;
  sched ch.

(** The address of a process, used as its sleep channel. *)
Definition proc_chan (i : nat) : Z := 1000000 + Z.of_nat i.

Definition pause : M pstate unit :=
  acquire_pt;;
  i ← myproc;
  sleep (proc_chan i) true;;
  release_pt.

(** [grow_proc(n)]; [vm_ret old new] is what [allocuvm] (n > 0) or [deallocuvm]
    (n < 0) returns for the resize from [old] to [new]. *)
Definition grow_proc (vm_ret : Z -> Z -> Z) (n : Z) : M pstate Z :=
  i ← myproc;
  p ← pget i;
  let size := if n =? 0 then sz p else u32 (vm_ret (sz p) (u32 (sz p + n))) in
  if negb (n =? 0) && (size =? 0) then mret (-1)
  else pmod i (fun p => p <| sz := size |>);; mret 0.

(** ** exit *)

(** Close every open descriptor. *)
Fixpoint close_files (l : list Z) : M pstate unit :=
  match l with
  | [] => mret tt
  | f :: l' => when (nz f) (emit (CFileClose f));; close_files l'
  end.

(** Pass abandoned children to init, waking it for each zombie. *)
Fixpoint reparent (i : nat) (init : option nat) (n : nat) (k : nat) : M pstate unit :=
  match n with
  | O => mret tt
  | S n' =>
      p ← pget k;
      (if bool_decide (parent p = Some i) then
         pmod k (fun p => p <| parent := init |>);;
         when (is_state ZOMBIE p)
           (wakeup1 (match init with Some j => proc_chan j | None => 0 end))
       else mret tt);;
      reparent i init n' (S k)
  end.

Definition exit (status : Z) : M pstate unit :=
  i ← myproc;
  p ← pget i;
  let par := parent p in
  s ← get;
  if bool_decide (Some i = initproc s) then
    if String.eqb (name p) "initcode" then panic "no init program found!"
    else panic "attempted to kill init"
  else
    close_files (ofile p);;
    pmod i (fun p => p <| ofile := replicate NOFILE 0 |>);;
    emit CBeginOp;; emit (CIput (cwd p));; emit CEndOp;;
    pmod i (fun p => p <| cwd := 0 |>);;
    acquire_pt;;
    match par with
    | Some q =>
        pmod q (fun q => q <| sigpending := Z.lor (sigpending q) (Z.shiftl 1 SIGCHLD) |>);;
        pmod q (fun q => if is_state SLEEPING q then q <| state := RUNNABLE |> else q)
    | None => mret tt
    end;;
    ignored ← match par with
              | Some q => qp ← pget q; mret (bool_decide (sighandlers qp !! Z.to_nat SIGCHLD = Some 1))
              | None => mret false
              end;
    if (ignored : bool) then
      pmod i (fun p => p <| state := UNUSED |>);;
      wakeup1 (match par with Some q => proc_chan q | None => 0 end);;
      release_pt;;
      sched 0
    else
      pmod i (fun p => p <| exitstatus := status |>);;
      wakeup1 (match par with Some q => proc_chan q | None => 0 end);;
      s ← get;
      reparent i (initproc s) NPROC 0;;
      pmod i (fun p => p <| state := ZOMBIE |>);;
      sched 0.

(** ** waitpid *)

(** The status word stored for the parent. *)
Definition wait_status (sig : Z) : Z :=
  let low := Z.land sig 127 in
  match sig with
  | 3 | 4 | 5 | 7 | 8 | 11 | 31 => Z.lor low 128
  | _ => low
  end.

(** One pass over the table: [(havekids, the zombie to reap)]. *)
Definition is_child (i : nat) (p : proc) : bool := bool_decide (parent p = Some i).
Definition reapable (i : nat) (want : Z) (p : proc) : bool :=
  is_child i p && negb ((0 <? want) && negb (pid p =? want)) && is_state ZOMBIE p.

Inductive wait_result : Type := Reaped (pid : Z) (status : option Z) | NoChildren | Hang.

(** One pass of the [for (;;)] loop of [waitpid], [ptable.lock] held;
    [want_status] says that the status pointer is not null.  A pass that sleeps
    is a [Block]; the loop goes on with [resume_wait] when the process runs again. *)
Definition waitpid_pass (i : nat) (want : Z) (want_status : bool) (options : Z)
    : M pstate wait_result :=
  s ← get;
  match scan (fun _ p => reapable i want p) (ptable s) with
  | Some k =>
      p ← pget k;
      let childpid := pid p in
      let status := if want_status then Some (wait_status (termsig p)) else None in
      emit (CKfree (kstack p));;
      pmod k (fun p => p <| kstack := 0 |>);;
      emit (CFreevm (pgdir p));;
      pmod k (fun p => p <| pid := 0 |> <| parent := None |> <| name := EmptyString |>
                         <| killed := 0 |> <| state := UNUSED |>);;
      pmod i (fun c => c <| sigpending := Z.ldiff (sigpending c) (Z.shiftl 1 SIGCHLD) |>);;
      release_pt;;
      mret (Reaped childpid status)
  | None =>
      match scan (fun _ p => is_child i p) (ptable s) with
      | None => release_pt;; mret NoChildren            (* -1 *)
      | Some _ =>
          if nz (Z.land options 1) then release_pt;; mret Hang   (* WNOHANG: 0 *)
          else sleep (proc_chan i) true;; mret Hang
      end
  end.

Definition waitpid (want : Z) (want_status : bool) (options : Z) : M pstate wait_result :=
  i ← myproc;
  acquire_pt;;
  waitpid_pass i want want_status options.

(** The code after [sched] returns in [sleep] called from [waitpid]. *)
Definition resume_wait (i : nat) (want : Z) (want_status : bool) (options : Z)
    : M pstate wait_result :=
  pmod i (fun p => p <| chan := 0 |>);;
  waitpid_pass i want want_status options.

(** ** The scheduler *)

(** The next process the [for] loop of [scheduler] dispatches when it is at
    slot [k]: from [k] to the end of the table, then the next pass from 0. *)
Definition scheduler_next (k : nat) (l : list proc) : option nat :=
  match scan_from (fun _ p => is_state RUNNABLE p) (drop k l) k with
  | Some i => Some i
  | None => scan (fun _ p => is_state RUNNABLE p) l
  end.

(** [c->proc = p; switchuvm(p); p->state = RUNNING; swtch(...)] *)
Definition dispatch (i : nat) : M pstate unit :=
  modify (fun s => s <| cur := Some i |>);;
  pmod i (fun p => p <| state := RUNNING |>).

(** What a process does first when it gets the CPU back: [forkret] and the end
    of [yield], the end of [sleep] and [pause], or the loop of [waitpid]. *)
Definition resume_release : M pstate unit := release_pt.
Definition resume_sleep (i : nat) : M pstate unit :=
  pmod i (fun p => p <| chan := 0 |>);; release_pt.

(** [swtch] back to [scheduler], which clears [c->proc], ends its pass and
    releases [ptable.lock]. *)
Definition to_scheduler (s : pstate) : pstate :=
  s <| cur := None |> <| ptlocked := false |> <| depth := 0 |>.

(** ** kill, find_proc, kill_pgrp *)

Definition kill (want status : Z) : M pstate Z :=
  c ← myproc;
  acquire_pt;;
  s ← get;
  match scan (fun _ p => pid p =? want) (ptable s) with
  | None => release_pt;; mret (- ESRCH)
  | Some k =>
      cp ← pget c;
      p ← pget k;
      if nz (uid cp) && negb (uid p =? uid cp) then release_pt;; mret 1
      else
        when (negb (is_state ZOMBIE p)) (pmod k (fun p => p <| exitstatus := status |>));;
        when (is_state SLEEPING p) (pmod k (fun p => p <| state := RUNNABLE |>));;
        pmod k (fun p => p <| sigpending := Z.lor (sigpending p) (u32 (Z.shiftl 1 (status mod 32))) |>);;
        release_pt;;
        mret 0
  end.

(** The scan for the highest pid of a slot in use. *)
Fixpoint max_pid (l : list proc) (i : nat) (best : option (nat * Z)) : option (nat * Z) :=
  match l with
  | [] => best
  | p :: l' =>
      if is_state UNUSED p then max_pid l' (S i) best
      else max_pid l' (S i)
        (match best with
         | None => Some (i, pid p)
         | Some (j, m) => if m <? pid p then Some (i, pid p) else best
         end)
  end.

Definition find_proc (want : Z) (par : option nat) (s : pstate) : option nat :=
  if want =? -2 then fst <$> max_pid (ptable s) 0 None
  else if want =? -1 then scan (fun _ p => bool_decide (parent p = par)) (ptable s)
  else if want =? 0 then (match ptable s with [] => None | _ => cur s end)
  else scan (fun _ p => pid p =? want) (ptable s).

(** A member of the group whose parent leads its session. *)
Definition led (l : list proc) (p : proc) : bool :=
  match parent p with
  | Some q => match l !! q with Some qp => leader qp =? 1 | None => false end
  | None => false
  end.

Definition pgrp_has_children (g : Z) (l : list proc) : bool :=
  existsb (fun p => (pgrp p =? g) && negb (is_state UNUSED p) && led l p) l.

Definition kill_pgrp (g sig : Z) : M pstate unit :=
  acquire_pt;;
  s ← get;
  let children := pgrp_has_children g (ptable s) in
  put (s <| ptable := map (fun p =>
    if (pgrp p =? g) && negb (is_state UNUSED p) then
      if ((sig =? SIGQUIT) || (sig =? SIGINT) || (sig =? SIGTSTP)) && (leader p =? 1) && children
      then p
      else
        let p := p <| sigpending := Z.lor (sigpending p) (u32 (Z.shiftl 1 (sig mod 32))) |> in
        if is_state SLEEPING p then p <| state := RUNNABLE |> else p
    else p) (ptable s) |>);;
  release_pt.

(** [sys_setpgid] with its two arguments fetched. *)
Definition setpgid (pid_arg pgid_arg : Z) : M pstate Z :=
  c ← myproc;
  acquire_pt;;
  cp ← pget c;
  let want := if pid_arg =? 0 then pid cp else pid_arg in
  let pgid := if pgid_arg =? 0 then want else pgid_arg in
  s ← get;
  match scan (fun _ p => pid p =? want) (ptable s) with
  | None => release_pt;; mret (- ESRCH)
  | Some k =>
      p ← pget k;
      match parent p with
      | None => fault null_deref
      | Some q => pmod q (fun q => q <| gid := u16 pgid |>);; release_pt;; mret 0
      end
  end.

(** ** Lemmas: scans *)

Lemma scan_from_Some f l i k :
  scan_from f l i = Some k ->
  (i <= k)%nat /\ (exists p, l !! (k - i)%nat = Some p /\ f k p = true)
  /\ (forall j p, (i <= j < k)%nat -> l !! (j - i)%nat = Some p -> f j p = false).
Proof.
  revert i. induction l as [|p l IH]; intros i H; cbn in H; [discriminate|].
  destruct (f i p) eqn:E.
  - injection H as <-. rewrite Nat.sub_diag. split_and!; [lia | eauto | intros; lia].
  - destruct (IH (S i) H) as (Hle & (q & Hq & Hf) & Hmin). split_and!; [lia| |].
    + exists q. replace (k - i)%nat with (S (k - S i)) by lia. auto.
    + intros j r Hj Hr. destruct (Nat.eq_dec j i) as [-> |].
      * rewrite Nat.sub_diag in Hr. cbn in Hr. congruence.
      * replace (j - i)%nat with (S (j - S i)) in Hr by lia. apply (Hmin j r); [lia | exact Hr].
Qed.

Lemma scan_Some f l k :
  scan f l = Some k ->
  (exists p, l !! k = Some p /\ f k p = true)
  /\ (forall j p, (j < k)%nat -> l !! j = Some p -> f j p = false).
Proof.
  intros H. destruct (scan_from_Some f l 0 k H) as (_ & Hp & Hmin). rewrite Nat.sub_0_r in Hp.
  split; [exact Hp|]. intros j p Hj Hl. apply (Hmin j p); [lia|]. rewrite Nat.sub_0_r. exact Hl.
Qed.

Lemma scan_from_None f l i :
  scan_from f l i = None -> forall j p, l !! j = Some p -> f (i + j)%nat p = false.
Proof.
  revert i. induction l as [|q l IH]; intros i H j p Hj; [discriminate|].
  cbn in H. destruct (f i q) eqn:E; [discriminate|]. destruct j as [|j].
  - injection Hj as <-. rewrite Nat.add_0_r. exact E.
  - replace (i + S j)%nat with (S i + j)%nat by lia. apply (IH (S i) H). exact Hj.
Qed.

Lemma scan_None f l : scan f l = None -> forall j p, l !! j = Some p -> f j p = false.
Proof. apply scan_from_None. Qed.

Lemma scan_first f l k p :
  l !! k = Some p -> f k p = true ->
  (forall j q, (j < k)%nat -> l !! j = Some q -> f j q = false) -> scan f l = Some k.
Proof.
  intros Hp Hf Hmin. destruct (scan f l) as [j|] eqn:E.
  - destruct (scan_Some f l j E) as ((q & Hq & Hfq) & Hj).
    destruct (Nat.lt_trichotomy j k) as [Hlt | [-> | Hlt]]; [|reflexivity|].
    + rewrite (Hmin j q Hlt Hq) in Hfq. discriminate.
    + rewrite (Hj k p Hlt Hp) in Hf. discriminate.
  - rewrite (scan_None f l E k p Hp) in Hf. discriminate.
Qed.

Lemma is_state_true st p : is_state st p = true <-> state p = st.
Proof. apply bool_decide_eq_true. Qed.
Lemma is_state_false st p : is_state st p = false <-> state p <> st.
Proof. apply bool_decide_eq_false. Qed.

(** ** The table invariant *)

(** A step that only signals or wakes a process. *)
Definition frame (p p' : proc) : Prop :=
  pid p' = pid p /\ (state p' = state p \/ (state p = SLEEPING /\ state p' = RUNNABLE)).

Definition frames (l l' : list proc) : Prop :=
  length l' = length l /\
  forall k p', l' !! k = Some p' -> exists p, l !! k = Some p /\ frame p p'.

Lemma frames_refl l : frames l l.
Proof. split; [reflexivity|]. intros k p H. exists p. split; [exact H | split; auto]. Qed.

Lemma frames_trans l1 l2 l3 : frames l1 l2 -> frames l2 l3 -> frames l1 l3.
Proof.
  intros [L1 F1] [L2 F2]. split; [congruence|]. intros k p3 H3.
  destruct (F2 k p3 H3) as (p2 & H2 & Hp2 & Hs2). destruct (F1 k p2 H2) as (p1 & H1 & Hp1 & Hs1).
  exists p1. split; [exact H1|]. split; [congruence|].
  destruct Hs1 as [E1 | [E1 E1']], Hs2 as [E2 | [E2 E2']].
  - left. congruence.
  - right. split; congruence.
  - right. split; congruence.
  - congruence.
Qed.

Lemma frames_alter f i l : (forall p, frame p (f p)) -> frames l (alter f i l).
Proof.
  intros Hf. split; [apply length_alter|]. intros k p' H.
  destruct (decide (k = i)) as [-> | Hne].
  - rewrite list_lookup_alter_eq in H. destruct (l !! i) as [p|] eqn:E; [|discriminate].
    injection H as <-. eauto.
  - rewrite list_lookup_alter_ne in H by congruence. exists p'. split; [exact H | split; auto].
Qed.

Lemma frames_map f l : (forall p, frame p (f p)) -> frames l (map f l).
Proof.
  intros Hf. split; [apply length_map|]. intros k p' H.
  change (map f l) with (f <$> l) in H. rewrite list_lookup_fmap in H.
  destruct (l !! k) as [p|] eqn:E; [|discriminate]. injection H as <-. eauto.
Qed.

Record tinv (l : list proc) (np : Z) (c : option nat) : Prop := TInv {
  t_len : length l = NPROC;
  t_pid : forall i p, l !! i = Some p -> state p <> UNUSED -> 0 < pid p < np;
  t_uniq : forall i j p q, l !! i = Some p -> l !! j = Some q ->
    state p <> UNUSED -> state q <> UNUSED -> pid p = pid q -> i = j;
  t_run : forall i p, l !! i = Some p -> state p = RUNNING -> c = Some i
}.

Lemma frame_used p p' : frame p p' -> state p' <> UNUSED -> state p <> UNUSED.
Proof. intros [_ [E | [E _]]] H; congruence. Qed.

Lemma frame_run p p' : frame p p' -> state p' = RUNNING -> state p = RUNNING.
Proof. intros [_ [E | [_ E]]] H; congruence. Qed.

Lemma tinv_frames l l' np c : frames l l' -> tinv l np c -> tinv l' np c.
Proof.
  intros [Hl Hf] [T1 T2 T3 T4]. split.
  - congruence.
  - intros i p' H Hs. destruct (Hf i p' H) as (p & Hp & Hfr).
    rewrite (proj1 Hfr). apply (T2 i p Hp). eapply frame_used; eassumption.
  - intros i j p' q' Hp' Hq' Hsp Hsq E.
    destruct (Hf i p' Hp') as (p & Hp & Hfp). destruct (Hf j q' Hq') as (q & Hq & Hfq).
    apply (T3 i j p q Hp Hq); [eapply frame_used; eassumption..|].
    rewrite <-(proj1 Hfp), <-(proj1 Hfq). exact E.
  - intros i p' H Hs. destruct (Hf i p' H) as (p & Hp & Hfr).
    apply (T4 i p Hp). eapply frame_run; eassumption.
Qed.

(** One slot changes state: it is freed, or keeps its pid. *)
Lemma tinv_set l np c c' i f :
  tinv l np c ->
  (forall p, l !! i = Some p ->
     state (f p) = UNUSED \/ (pid (f p) = pid p /\ state p <> UNUSED)) ->
  (forall p, l !! i = Some p -> state (f p) = RUNNING -> c' = Some i) ->
  (forall j p, j <> i -> l !! j = Some p -> state p = RUNNING -> c' = Some j) ->
  tinv (alter f i l) np c'.
Proof.
  intros [T1 T2 T3 T4] Hk Hr Ho.
  assert (forall j p', alter f i l !! j = Some p' -> state p' <> UNUSED ->
    exists p, l !! j = Some p /\ pid p' = pid p /\ state p <> UNUSED) as Hold.
  { intros j p' H Hs. destruct (decide (j = i)) as [-> | Hne].
    - rewrite list_lookup_alter_eq in H. destruct (l !! i) as [p|] eqn:E; [|discriminate].
      injection H as <-. destruct (Hk p eq_refl) as [Hu | [Hp Hu]]; [contradiction|]. eauto.
    - rewrite list_lookup_alter_ne in H by congruence. eauto. }
  split.
  - rewrite length_alter. exact T1.
  - intros j p' H Hs. destruct (Hold j p' H Hs) as (p & Hp & -> & Hu). eapply T2; eassumption.
  - intros j k p' q' Hp' Hq' Hsp Hsq E.
    destruct (Hold j p' Hp' Hsp) as (p & Hp & Ep & Hup).
    destruct (Hold k q' Hq' Hsq) as (q & Hq & Eq & Huq).
    apply (T3 j k p q Hp Hq Hup Huq). congruence.
  - intros j p' H Hs. destruct (decide (j = i)) as [-> | Hne].
    + rewrite list_lookup_alter_eq in H. destruct (l !! i) as [p|] eqn:E; [|discriminate].
      injection H as <-. apply (Hr p eq_refl Hs).
    + rewrite list_lookup_alter_ne in H by congruence. apply (Ho j p' Hne H Hs).
Qed.

(** A free slot becomes a process with the next pid. *)
Lemma tinv_new l np c i f :
  tinv l np c -> 0 < np ->
  (forall p, l !! i = Some p -> state p = UNUSED /\ pid (f p) = np /\ state (f p) <> RUNNING) ->
  tinv (alter f i l) (np + 1) c.
Proof.
  intros [T1 T2 T3 T4] Hnp Hi. split.
  - rewrite length_alter. exact T1.
  - intros j p' H Hs. destruct (decide (j = i)) as [-> | Hne].
    + rewrite list_lookup_alter_eq in H. destruct (l !! i) as [p|] eqn:E; [|discriminate].
      injection H as <-. destruct (Hi p eq_refl) as (_ & -> & _). lia.
    + rewrite list_lookup_alter_ne in H by congruence. pose proof (T2 j p' H Hs). lia.
  - assert (forall j k p' q', alter f i l !! j = Some p' -> alter f i l !! k = Some q' ->
      state q' <> UNUSED -> j = i -> k <> i -> pid p' <> pid q') as Hfresh.
    { intros j k p' q' Hp' Hq' Hs -> Hk E. rewrite list_lookup_alter_eq in Hp'.
      rewrite list_lookup_alter_ne in Hq' by congruence.
      destruct (l !! i) as [p|] eqn:Ep; [|discriminate]. injection Hp' as <-.
      destruct (Hi p eq_refl) as (_ & Hpid & _). pose proof (T2 k q' Hq' Hs). lia. }
    intros j k p' q' Hp' Hq' Hsp Hsq E.
    destruct (decide (j = i)) as [Ej | Nj], (decide (k = i)) as [Ek | Nk]; [congruence| | |].
    + exfalso. eapply (Hfresh j k); eassumption.
    + exfalso. eapply (Hfresh k j); [eassumption | exact Hp' | assumption.. | congruence].
    + rewrite list_lookup_alter_ne in Hp', Hq' by congruence. eapply T3; eassumption.
  - intros j p' H Hs. destruct (decide (j = i)) as [-> | Hne].
    + rewrite list_lookup_alter_eq in H. destruct (l !! i) as [p|] eqn:E; [|discriminate].
      injection H as <-. destruct (Hi p eq_refl) as (_ & _ & ?). contradiction.
    + rewrite list_lookup_alter_ne in H by congruence. apply (T4 j p' H Hs).
Qed.

(** ** Lemmas: operations *)

(** Between operations: no lock held, the running process is [cur]. *)
Record sinv (s : pstate) : Prop := SInv {
  s_tab : tinv (ptable s) (nextpid s) (cur s);
  s_np : 0 < nextpid s;
  s_lock : ptlocked s = false;
  s_depth : depth s = 0;
  s_cur : exists i p, cur s = Some i /\ ptable s !! i = Some p /\ state p = RUNNING
}.

Lemma pget_Ok i p s : ptable s !! i = Some p -> pget i s = Ok p s.
Proof. intros H. unfold pget. mstep. rewrite H. reflexivity. Qed.

Lemma myproc_Ok i s : cur s = Some i -> myproc s = Ok i s.
Proof. intros H. unfold myproc. mstep. rewrite H. reflexivity. Qed.

Lemma acquire_pt_Ok s :
  ptlocked s = false -> acquire_pt s = Ok tt (s <| ptlocked := true |> <| depth := depth s + 1 |>).
Proof. intros H. unfold acquire_pt. mstep. rewrite H. reflexivity. Qed.

Lemma release_pt_Ok s :
  ptlocked s = true -> release_pt s = Ok tt (s <| ptlocked := false |> <| depth := depth s - 1 |>).
Proof. intros H. unfold release_pt. mstep. rewrite H. reflexivity. Qed.

Lemma pmod_bind {B} i f (k : unit -> M pstate B) s :
  (pmod i f ≫= k) s = k tt (s <| ptable := alter f i (ptable s) |>).
Proof. reflexivity. Qed.

Lemma emit_bind {B} c (k : unit -> M pstate B) s :
  (emit c ≫= k) s = k tt (s <| calls := calls s ++ [c] |>).
Proof. reflexivity. Qed.

(** Reduce assignments to the fields of the global state. *)
Ltac psimp := cbn [assign ptable nextpid initproc cur ptlocked depth calls].

(** [pstep1] runs the next primitive of a process operation. *)
Ltac pstep1 :=
  first
  [ rewrite pmod_bind | rewrite emit_bind
  | erewrite bind_step by (apply myproc_Ok; eassumption)
  | erewrite bind_step by (apply pget_Ok; eassumption)
  | erewrite bind_step by (apply acquire_pt_Ok; first [eassumption | reflexivity])
  | erewrite bind_step by (apply release_pt_Ok; first [eassumption | reflexivity])
  | erewrite bind_step by reflexivity ].

(** Child descriptors: the parent's where it has one. *)
Definition dup_list (src dst : list Z) : list Z :=
  zip_with (fun f d => if nz f then f else d) src dst.

Lemma dup_files_Ok src dst s :
  length src = length dst ->
  dup_files src dst s =
    Ok (dup_list src dst) (s <| calls := calls s ++ map CFileDup (filter (fun f => nz f = true) src) |>).
Proof.
  revert dst s. induction src as [|f src IH]; intros [|d dst] s Hl; try discriminate; cbn [dup_files].
  - cbn. rewrite app_nil_r. destruct s; reflexivity.
  - injection Hl as Hl. rewrite filter_cons. unfold when. destruct (nz f) eqn:E.
    + rewrite emit_bind. erewrite bind_step by (apply IH; exact Hl).
      unfold mret, M_ret. cbn. rewrite E, <-app_assoc. destruct s; reflexivity.
    + erewrite bind_step by reflexivity. erewrite bind_step by (apply IH; exact Hl).
      unfold mret, M_ret. cbn. rewrite E. reflexivity.
Qed.

(** The child of [c] (whose descriptor is [cp]) in a slot that held [p]. *)
Definition child_proc (c : nat) (cp : proc) (newpid stack pd : Z) (p : proc) : proc :=
  let p := fresh_proc newpid p <| kstack := stack |> in
  let p := inherit cp p <| pgdir := pd |> in
  let p := p <| sz := sz cp |> <| parent := Some c |> <| tf := tf cp <| eax := 0 |> |> in
  p <| ofile := dup_list (ofile cp) (ofile p) |> <| cwd := cwd cp |> <| name := name cp |>
    <| state := RUNNABLE |>.

Lemma lookup_alter_same {A} (f : A -> A) i (l : list A) x : l !! i = Some x -> alter f i l !! i = Some (f x).
Proof. intros H. rewrite list_lookup_alter_eq, H. reflexivity. Qed.
Lemma lookup_alter_other {A} (f : A -> A) i j (l : list A) x :
  i <> j -> l !! j = Some x -> alter f i l !! j = Some x.
Proof. intros Hne H. rewrite list_lookup_alter_ne by exact Hne. exact H. Qed.

Lemma alter_alter {A} (f g : A -> A) i (l : list A) :
  alter f i (alter g i l) = alter (fun x => f (g x)) i l.
Proof.
  revert i. induction l as [|x l IH]; intros [|i]; [reflexivity..|].
  cbn. f_equal. apply IH.
Qed.

(** [allocproc] on each of its paths. *)
Section allocproc.
Context (s : pstate) (stack : Z) (Hl : ptlocked s = false).

Lemma allocproc_full :
  scan (fun _ p => is_state UNUSED p) (ptable s) = None -> allocproc stack s = Ok None s.
Proof.
  intros Hsc. unfold allocproc. pstep1. erewrite bind_step by reflexivity.
  change (ptable (s <| ptlocked := true |> <| depth := depth s + 1 |>)) with (ptable s).
  rewrite Hsc. pstep1. unfold mret, M_ret. f_equal.
  destruct s as [tab np ip cu lk dp cl]. cbn [ptlocked] in Hl. subst lk.
  cbv -[Z.add Z.sub]. f_equal. lia.
Qed.

Lemma allocproc_free i :
  scan (fun _ p => is_state UNUSED p) (ptable s) = Some i ->
  allocproc stack s = Ok (if stack =? 0 then None else Some i)
    (s <| ptable := alter (fun p => let p := fresh_proc (nextpid s) p <| kstack := stack |> in
                                    if stack =? 0 then p <| state := UNUSED |> else p) i (ptable s) |>
       <| nextpid := i32 (nextpid s + 1) |>).
Proof.
  intros Hsc. destruct s as [tab np ip cu lk dp cl]. cbn [ptable nextpid ptlocked] in *. subst lk.
  unfold allocproc. pstep1. erewrite bind_step by reflexivity. psimp. rewrite Hsc.
  erewrite bind_step by reflexivity. pstep1. rewrite pmod_bind. psimp. rewrite alter_alter.
  replace (dp + 1 - 1) with dp by lia.
  destruct (stack =? 0); [rewrite pmod_bind; psimp; rewrite alter_alter|]; reflexivity.
Qed.
End allocproc.

(** [fork], success: the first unused slot becomes the child. *)
Lemma fork_Ok s c cp i p stack pd :
  cur s = Some c -> ptable s !! c = Some cp -> ptlocked s = false -> c <> i ->
  scan (fun _ p => is_state UNUSED p) (ptable s) = Some i -> ptable s !! i = Some p ->
  length (ofile cp) = length (ofile p) -> stack <> 0 -> pd <> 0 ->
  fork stack pd s =
    Ok (nextpid s)
      (s <| ptable := alter (child_proc c cp (nextpid s) stack pd) i (ptable s) |>
         <| nextpid := i32 (nextpid s + 1) |>
         <| calls := (calls s ++ map CFileDup (filter (fun f => nz f = true) (ofile cp)))
                       ++ [CIdup (cwd cp)] |>).
Proof.
  intros Hc Hcp Hl Hne Hsc Hp Hlen Hst Hpd. destruct s as [tab np ip cu lk dp cl].
  cbn [ptable nextpid initproc cur ptlocked depth calls] in *. subst.
  unfold fork. pstep1.
  erewrite bind_step by (apply allocproc_free; [reflexivity | exact Hsc]).
  destruct (Z.eqb_spec stack 0); [contradiction|]. psimp.
  erewrite bind_step by (apply pget_Ok; psimp; apply lookup_alter_other; [congruence | exact Hcp]).
  rewrite !pmod_bind. psimp. rewrite !alter_alter.
  destruct (Z.eqb_spec pd 0); [contradiction|].
  rewrite !pmod_bind. psimp. rewrite !alter_alter.
  erewrite bind_step by (apply pget_Ok; psimp; apply lookup_alter_same; exact Hp).
  erewrite bind_step by (apply dup_files_Ok; exact Hlen).
  rewrite pmod_bind, emit_bind, pmod_bind. psimp. rewrite !alter_alter.
  erewrite bind_step by (apply pget_Ok; psimp; apply lookup_alter_same; exact Hp).
  cbv zeta. pstep1. rewrite pmod_bind. pstep1. psimp. rewrite alter_alter.
  match goal with |- context [alter ?f i tab] =>
    lazymatch f with child_proc _ _ _ _ _ => fail | _ =>
      assert (alter f i tab = alter (child_proc c cp np stack pd) i tab) as -> end end.
  { apply list_alter_ext; [|reflexivity]. intros q Hq. rewrite Hp in Hq. injection Hq as <-.
    clear. destruct p, cp. vm_compute. reflexivity. }
  generalize (alter (child_proc c cp np stack pd) i tab); intros tab'.
  unfold mret, M_ret. f_equal.
  cbv beta iota delta [assign ptable nextpid initproc cur ptlocked depth calls].
  f_equal; lia.
Qed.
