(* ===== verification/ProcThm.v ===== *)
(** * Processes: the theorems about Proc.v

    The table invariant along every sequence of steps of the machine, what fork,
    exit and waitpid do on each branch, the scheduler's round-robin bound, and
    the behaviour of wake-up, kill and the signalling of process groups. *)
From Stdlib Require Import ZArith Lia.
From stdpp Require Import base numbers list strings relations.
From S2P Require Import Prelude Proc.
Local Open Scope Z_scope.

(** ** A small program logic for process operations *)

Definition in_state (i : nat) (st : procstate) (s : pstate) : Prop :=
  exists p, ptable s !! i = Some p /\ state p = st.

(** [pinv N b s]: the table is well formed, at most [N] pids were given out, and
    [ptable.lock] is held exactly when [b]. *)
Record pinv (N : Z) (b : bool) (s : pstate) : Prop := PInv {
  i_tab : tinv (ptable s) (nextpid s) (cur s);
  i_np : 0 < nextpid s <= N;
  i_lock : ptlocked s = b;
  i_depth : depth s = b2z b
}.

(** Moreover the current process is [c], [RUNNING], and slot [e] is being built. *)
Record minv (c : option nat) (N : Z) (b : bool) (e : option nat) (s : pstate) : Prop := MInv {
  m_inv : pinv N b s;
  m_is : cur s = c;
  m_cur : forall i, c = Some i -> in_state i RUNNING s;
  m_new : forall i, e = Some i -> in_state i EMBRYO s
}.

(** A process that left the CPU holds the lock and is no longer [RUNNING]. *)
Definition blocked (N : Z) (s : pstate) : Prop :=
  pinv N true s /\
  forall i p, cur s = Some i -> ptable s !! i = Some p -> state p <> RUNNING.

Definition spec {A} (N : Z) (P : pstate -> Prop) (m : M pstate A) (Q : A -> pstate -> Prop) : Prop :=
  forall s, P s ->
  match m s with
  | Ok a s' => Q a s'
  | Block _ s' => blocked N s'
  | _ => True
  end.

Section logic.
Context (c : option nat) (N : Z).
Implicit Types (b : bool) (e : option nat).

Lemma spec_bind {A B} P (m : M pstate A) Q (k : A -> M pstate B) R :
  spec N P m Q -> (forall a, spec N (Q a) (k a) R) -> spec N P (m ≫= k) R.
Proof.
  intros Hm Hk s Hs. specialize (Hm s Hs). unfold mbind, M_bind.
  destruct (m s) as [a s1| | |ch s1]; [|trivial..|exact Hm]. exact (Hk a s1 Hm).
Qed.

Lemma spec_conseq {A} P P' (m : M pstate A) Q Q' :
  spec N P m Q -> (forall s, P' s -> P s) -> (forall a s, Q a s -> Q' a s) -> spec N P' m Q'.
Proof.
  intros Hm HP HQ s Hs. specialize (Hm s (HP s Hs)). destruct (m s); auto.
Qed.

Lemma spec_ret {A} (a : A) (Q : A -> pstate -> Prop) : spec N (Q a) (mret a) Q.
Proof. intros s Hs. exact Hs. Qed.

Lemma spec_get (P : pstate -> Prop) : spec N P get (fun a s => P s /\ a = s).
Proof. intros s Hs. cbn. auto. Qed.

(** Reading a state and forgetting what was read. *)
Lemma spec_read {A} P (m : M pstate A) :
  (forall s, match m s with Ok _ s' => s' = s | Block _ _ => False | _ => True end) ->
  spec N P m (fun _ => P).
Proof.
  intros H s Hs. specialize (H s). destruct (m s); subst; [exact Hs | trivial..|contradiction].
Qed.

Lemma spec_pget i P : spec N P (pget i) (fun p s => P s /\ ptable s !! i = Some p).
Proof.
  intros s Hs. unfold pget. mstep. destruct (ptable s !! i) eqn:E; [|exact I]. auto.
Qed.

Lemma spec_myproc {A} N' b e (k : nat -> M pstate A) Q :
  (forall i, c = Some i -> spec N (minv c N' b e) (k i) Q) ->
  spec N (minv c N' b e) (myproc ≫= k) Q.
Proof.
  intros Hk s Hs. unfold myproc. mstep. rewrite (m_is _ _ _ _ _ Hs).
  destruct c as [i|] eqn:E; [|exact I]. exact (Hk i eq_refl s Hs).
Qed.

Lemma minv_fields b e s s' :
  ptable s' = ptable s -> nextpid s' = nextpid s -> cur s' = cur s ->
  ptlocked s' = ptlocked s -> depth s' = depth s -> minv c N b e s -> minv c N b e s'.
Proof.
  intros E1 E2 E3 E4 E5 [[H1 H2 H3 H4] Hi Hc Hn].
  split; [split; rewrite ?E1, ?E2, ?E3; congruence|congruence| |]; unfold in_state; rewrite E1; assumption.
Qed.

Lemma spec_emit x b e : spec N (minv c N b e) (emit x) (fun _ => minv c N b e).
Proof. intros s H. eapply minv_fields; [..|exact H]; reflexivity. Qed.

Lemma spec_emit_in x b e i st :
  spec N (fun s => minv c N b e s /\ in_state i st s) (emit x)
    (fun _ s => minv c N b e s /\ in_state i st s).
Proof. intros s [H Hi]. split; [exact (spec_emit x b e s H) | exact Hi]. Qed.

Lemma spec_acquire e : spec N (minv c N false e) acquire_pt (fun _ => minv c N true e).
Proof.
  intros s [[H1 H2 H3 H4] Hi Hc Hn]. rewrite acquire_pt_Ok by exact H3.
  split; [split; try assumption; [reflexivity|] | assumption..].
  change (depth s + 1 = 1). rewrite H4. reflexivity.
Qed.

Lemma spec_release e : spec N (minv c N true e) release_pt (fun _ => minv c N false e).
Proof.
  intros s [[H1 H2 H3 H4] Hi Hc Hn]. rewrite release_pt_Ok by exact H3.
  split; [split; try assumption; [reflexivity|] | assumption..].
  change (depth s - 1 = 0). rewrite H4. reflexivity.
Qed.

(** *** Changes of the table *)

Lemma frames_in_state l l' i p st :
  frames l l' -> st <> SLEEPING -> l !! i = Some p -> state p = st ->
  exists p', l' !! i = Some p' /\ state p' = st.
Proof.
  intros [Hl Hf] Hst Hp Hs. assert (is_Some (l' !! i)) as [p' Hp'].
  { apply lookup_lt_is_Some. rewrite Hl. apply lookup_lt_Some with p. exact Hp. }
  exists p'. split; [exact Hp'|]. destruct (Hf i p' Hp') as (q & Hq & _ & [E | [E _]]); congruence.
Qed.

Lemma minv_frames b e s l :
  frames (ptable s) l -> minv c N b e s -> minv c N b e (s <| ptable := l |>).
Proof.
  intros Hf [[H1 H2 H3 H4] Hi Hc Hn].
  split; [split; [exact (tinv_frames _ _ _ _ Hf H1) | assumption..]| exact Hi | |].
  - intros i Ei. destruct (Hc i Ei) as (p & Hp & Hs).
    apply (frames_in_state (ptable s) l i p RUNNING Hf); [discriminate | assumption..].
  - intros i Ei. destruct (Hn i Ei) as (p & Hp & Hs).
    apply (frames_in_state (ptable s) l i p EMBRYO Hf); [discriminate | assumption..].
Qed.

(** A change of one process that keeps its pid and its state, or wakes it. *)
Lemma spec_pmod_frame i f b e :
  (forall p, frame p (f p)) -> spec N (minv c N b e) (pmod i f) (fun _ => minv c N b e).
Proof. intros Hf s H. apply minv_frames; [apply frames_alter, Hf | exact H]. Qed.

Lemma pinv_leave i f st b s :
  st <> UNUSED -> (forall p, pid (f p) = pid p \/ state (f p) = UNUSED) ->
  (forall p, state (f p) <> RUNNING) ->
  pinv N b s -> in_state i st s -> pinv N b (s <| ptable := alter f i (ptable s) |>).
Proof.
  intros Hst Hk Hr [H1 H2 H3 H4] (p & Hp & Hs). split; try assumption.
  apply (tinv_set (ptable s) (nextpid s) (cur s) (cur s) i f H1).
  - intros q Hq. rewrite Hp in Hq. injection Hq as <-.
    destruct (Hk p); [right; split; [assumption | congruence] | left; assumption].
  - intros q Hq E. exfalso. exact (Hr q E).
  - intros j q _ Hq E. exact (t_run _ _ _ H1 j q Hq E).
Qed.

(** The process being built, or a zombie, changes state. *)
Lemma spec_pmod_other i f st b :
  st <> UNUSED -> st <> RUNNING -> (forall p, pid (f p) = pid p \/ state (f p) = UNUSED) ->
  (forall p, state (f p) <> RUNNING) ->
  spec N (fun s => minv c N b None s /\ in_state i st s) (pmod i f) (fun _ => minv c N b None).
Proof.
  intros Hst Hne Hk Hr s [[Hp Hi0 Hc _] Hi]. split; [|exact Hi0| |discriminate].
  - apply pinv_leave with st; assumption.
  - intros j Hj. destruct (Hc j Hj) as (q & Hq & Hs). exists q. split; [|exact Hs].
    apply lookup_alter_other; [|exact Hq]. intros <-. destruct Hi as (r & Hr' & Hrs). congruence.
Qed.

(** The running process changes to a state that is not [RUNNING]. *)
Lemma spec_pmod_self i f b :
  c = Some i -> (forall p, pid (f p) = pid p) -> (forall p, state (f p) <> RUNNING) ->
  spec N (minv c N b None) (pmod i f) (fun _ => pinv N b).
Proof.
  intros Hi Hk Hr s [Hp Hi0 Hc _]. apply pinv_leave with RUNNING; auto; discriminate.
Qed.

Lemma frame_wake ch p :
  frame p (if is_state SLEEPING p && (chan p =? ch) then p <| state := RUNNABLE |> else p).
Proof.
  destruct (is_state SLEEPING p) eqn:E; cbn [andb]; [|split; auto].
  apply is_state_true in E. destruct (chan p =? ch); [|split; auto]. split; auto.
Qed.

Lemma spec_wakeup1 ch b e : spec N (minv c N b e) (wakeup1 ch) (fun _ => minv c N b e).
Proof. intros s H. apply minv_frames; [apply frames_map, frame_wake | exact H]. Qed.

Lemma spec_sched b ch (Q : unit -> pstate -> Prop) : spec N (pinv N b) (sched ch) Q.
Proof.
  intros s Hs. unfold sched, myproc, pget. mstep. destruct (cur s) as [i|] eqn:Ec; [|exact I].
  destruct (ptable s !! i) as [p|] eqn:Ep; [|exact I].
  destruct (ptlocked s) eqn:El; cbn [negb]; [|exact I].
  destruct (negb (depth s =? 1)); [exact I|].
  destruct (is_state RUNNING p) eqn:Er; [exact I|].
  split.
  - destruct Hs as [H1 H2 H3 H4]. rewrite El in H3. subst b. split; assumption.
  - intros j q Hj Hq. rewrite Ec in Hj. injection Hj as <-.
    rewrite Ep in Hq. injection Hq as <-. apply is_state_false, Er.
Qed.
End logic.

(** ** Every operation keeps the invariant *)

Ltac frm := let p := fresh "p" in intros p; split; [reflexivity | left; reflexivity].

(** Run the first command of a sequence by its rule. *)
Tactic Notation "sbind" tactic3(t) "as" ident(x) := eapply spec_bind; [t | intros x; cbv beta].
Tactic Notation "sbind" tactic3(t) :=
  eapply spec_bind; [t | let x := fresh in intros x; cbv beta; clear x].

(** Weakening of the logic's postconditions. *)
Lemma spec_pre_l {A} N P R (m : M pstate A) Q : spec N P m Q -> spec N (fun s => P s /\ R s) m Q.
Proof. intros H. eapply spec_conseq; [exact H | tauto | auto]. Qed.

Lemma minv_weaken c N N' b e s : N <= N' -> minv c N b e s -> minv c N' b None s.
Proof.
  intros Hle [[H1 H2 H3 H4] Hi Hc Hn]. split; [split; auto; lia | assumption.. | discriminate].
Qed.

Lemma frame_wake_self p : frame p (if is_state SLEEPING p then p <| state := RUNNABLE |> else p).
Proof.
  destruct (is_state SLEEPING p) eqn:E; [|split; auto]. apply is_state_true in E. split; auto.
Qed.

Section operations.
Context (c : option nat) (N : Z) (HN : N + 1 < 2 ^ 31).

Lemma spec_wakeup ch : spec N (minv c N false None) (wakeup ch) (fun _ => minv c N false None).
Proof.
  unfold wakeup. sbind (apply spec_acquire).
  sbind (apply spec_wakeup1). apply spec_release.
Qed.

Lemma spec_pmod_sched i f ch b (Q : unit -> pstate -> Prop) :
  c = Some i -> (forall p, pid (f p) = pid p) -> (forall p, state (f p) <> RUNNING) ->
  spec N (minv c N b None) (pmod i f;; sched ch) Q.
Proof.
  intros H1 H2 H3. sbind (apply spec_pmod_self; assumption). apply spec_sched.
Qed.

Lemma spec_yield Q : spec N (minv c N false None) yield Q.
Proof.
  unfold yield. sbind (apply spec_acquire).
  apply spec_myproc. intros i Hi.
  apply spec_pmod_sched; [exact Hi | reflexivity | discriminate].
Qed.

Lemma spec_sleep_pt ch Q : spec N (minv c N true None) (sleep ch true) Q.
Proof.
  unfold sleep. apply spec_myproc. intros i Hi.
  sbind (apply (spec_ret N tt (fun _ => minv c N true None))).
  sbind (apply spec_pmod_frame; frm).
  apply spec_pmod_sched; [exact Hi | reflexivity | discriminate].
Qed.

(** [acquire(lk); sleep(chan, lk)] with a spinlock of the caller. *)
Definition sleep_on (ch : Z) : M pstate unit :=
  modify (fun s => s <| depth := depth s + 1 |>);; sleep ch false.

Lemma spec_sleep_on ch Q : spec N (minv c N false None) (sleep_on ch) Q.
Proof.
  intros s Hs. pose proof (spec_sleep_pt ch Q (s <| ptlocked := true |> <| depth := 1 |>)) as H.
  destruct Hs as [[H1 H2 H3 H4] Hi Hc Hn].
  assert (sleep_on ch s = sleep ch true (s <| ptlocked := true |> <| depth := 1 |>)) as ->.
  { destruct s as [tab np ip cu lk dp cl]. cbn in H3, H4. subst lk dp.
    unfold sleep_on, sleep, myproc. mstep. destruct cu; reflexivity. }
  apply H. split; [split; [assumption.. | reflexivity | reflexivity] | assumption..].
Qed.

Lemma spec_pause : spec N (minv c N false None) pause (fun _ => minv c N false None).
Proof.
  unfold pause. sbind (apply spec_acquire).
  apply spec_myproc. intros i Hi.
  sbind (apply (spec_sleep_pt _ (fun _ => minv c N true None))). apply spec_release.
Qed.

Lemma spec_grow vm n : spec N (minv c N false None) (grow_proc vm n) (fun _ => minv c N false None).
Proof.
  unfold grow_proc. apply spec_myproc. intros i Hi.
  sbind (apply spec_pget) as p. cbv zeta.
  destruct (_ && _).
  - apply spec_pre_l, (spec_ret N (-1) (fun _ => minv c N false None)).
  - apply spec_pre_l. sbind (apply spec_pmod_frame; frm).
    apply (spec_ret N 0 (fun _ => minv c N false None)).
Qed.

(** *** allocproc and fork *)

Lemma spec_pmod_new i f b :
  (forall p, frame p (f p)) ->
  spec (N + 1) (minv c (N + 1) b (Some i)) (pmod i f) (fun _ => minv c (N + 1) b (Some i)).
Proof. intros Hf. apply spec_pmod_frame. exact Hf. Qed.

(** The process being built gets its final state. *)
Lemma spec_pmod_done M i f b :
  (forall p, pid (f p) = pid p \/ state (f p) = UNUSED) -> (forall p, state (f p) <> RUNNING) ->
  spec M (minv c M b (Some i)) (pmod i f) (fun _ => minv c M b None).
Proof.
  intros Hk Hr. eapply spec_conseq.
  - apply (spec_pmod_other c M i f EMBRYO b); [discriminate.. | exact Hk | exact Hr].
  - intros s Hs. split; [apply (minv_weaken c M M b (Some i)); [lia | exact Hs] | apply (m_new _ _ _ _ _ Hs), eq_refl].
  - auto.
Qed.

Lemma alloc_slot s i :
  minv c N true None s -> scan (fun _ p => is_state UNUSED p) (ptable s) = Some i ->
  minv c (N + 1) true (Some i)
    (s <| ptable := alter (fresh_proc (nextpid s)) i (ptable s) |> <| nextpid := i32 (nextpid s + 1) |>).
Proof.
  intros [[H1 H2 H3 H4] Hi Hc Hn] Hsc. destruct (scan_Some _ _ _ Hsc) as ((p & Hp & Hu) & _).
  apply is_state_true in Hu. split; [|exact Hi| |].
  - split; [|split|exact H3|exact H4]; cbn [ptable nextpid cur assign];
      change (nextpid (s <| ptable := _ |> <| nextpid := i32 (nextpid s + 1) |>)) with (i32 (nextpid s + 1));
      rewrite (swrap_id 32 eq_refl) by (unfold in_s; lia); try lia.
    apply (tinv_new (ptable s) (nextpid s) (cur s) i); [exact H1 | lia|].
    intros q Hq. rewrite Hp in Hq. injection Hq as <-. split_and!; [exact Hu | reflexivity | discriminate].
  - intros j Hj. destruct (Hc j Hj) as (q & Hq & Hs). exists q. split; [|exact Hs].
    apply lookup_alter_other; [congruence | exact Hq].
  - intros j [= <-]. exists (fresh_proc (nextpid s) p). split; [apply lookup_alter_same, Hp | reflexivity].
Qed.

Lemma spec_allocproc k :
  spec (N + 1) (minv c N false None) (allocproc k) (fun o => minv c (N + 1) false o).
Proof.
  unfold allocproc. eapply spec_bind with (Q := fun _ => minv c N true None).
  { intros s Hs. pose proof (spec_acquire c N None s Hs) as H.
    rewrite acquire_pt_Ok in * by apply (i_lock _ _ _ (m_inv _ _ _ _ _ Hs)). exact H. }
  intros []. sbind (apply spec_get) as s.
  destruct (scan _ (ptable s)) as [i|] eqn:E.
  - eapply spec_bind with (Q := fun _ => minv c (N + 1) true (Some i)).
    { intros s' [Hs ->]. apply alloc_slot; assumption. }
    intros []. sbind (apply spec_release). sbind (apply spec_pmod_new; frm).
    destruct (k =? 0).
    + sbind (apply (spec_pmod_done (N + 1) i)); [right; reflexivity | discriminate |].
      apply (spec_ret _ None (fun o => minv c (N + 1) false o)).
    + apply (spec_ret _ (Some i) (fun o => minv c (N + 1) false o)).
  - eapply spec_bind with (Q := fun _ => minv c (N + 1) false None).
    + eapply spec_conseq; [apply (spec_release c (N + 1) None) | | auto].
      intros s' [Hs _]. apply (minv_weaken c N (N + 1) true None); [lia | exact Hs].
    + intros []. apply (spec_ret _ None (fun o => minv c (N + 1) false o)).
Qed.

Lemma spec_dup_files i b src dst :
  spec (N + 1) (minv c (N + 1) b (Some i)) (dup_files src dst) (fun _ => minv c (N + 1) b (Some i)).
Proof.
  revert dst. induction src as [|f src IH]; intros [|d dst]; cbn [dup_files];
    try apply (spec_ret _ _ (fun _ => minv c (N + 1) b (Some i))).
  eapply spec_bind with (Q := fun _ => minv c (N + 1) b (Some i)).
  { unfold when. destruct (nz f); [apply spec_emit|].
    apply (spec_ret _ tt (fun _ => minv c (N + 1) b (Some i))). }
  intros []. sbind (apply IH) as r. apply (spec_ret _ _ (fun _ => minv c (N + 1) b (Some i))).
Qed.

Lemma spec_fork k u :
  spec (N + 1) (minv c N false None) (fork k u) (fun _ => minv c (N + 1) false None).
Proof.
  unfold fork. apply spec_myproc. intros me Hi. sbind (apply spec_allocproc) as onp.
  destruct onp as [i|]; [|apply (spec_ret _ _ (fun _ => minv c (N + 1) false None))].
  sbind (apply spec_pget) as cp. sbind (apply spec_pre_l, spec_pmod_new; frm).
  sbind (apply spec_pmod_new; frm). destruct (u =? 0).
  - sbind (apply spec_pget) as p. sbind (apply spec_pre_l, spec_emit).
    sbind (apply spec_pmod_new; frm).
    sbind (apply (spec_pmod_done (N + 1) i)); [right; reflexivity | discriminate |].
    apply (spec_ret _ _ (fun _ => minv c (N + 1) false None)).
  - sbind (apply spec_pmod_new; frm). sbind (apply spec_pmod_new; frm).
    sbind (apply spec_pget) as p. sbind (apply spec_pre_l, spec_dup_files) as fl.
    sbind (apply spec_pmod_new; frm). sbind (apply spec_emit). sbind (apply spec_pmod_new; frm).
    sbind (apply spec_pget) as q. cbv zeta. sbind (apply spec_pre_l, spec_acquire).
    sbind (apply (spec_pmod_done (N + 1) i)); [left; reflexivity | discriminate |].
    sbind (apply spec_release). apply (spec_ret _ _ (fun _ => minv c (N + 1) false None)).
Qed.

(** *** exit, waitpid *)

Lemma spec_close_files l b e : spec N (minv c N b e) (close_files l) (fun _ => minv c N b e).
Proof.
  induction l as [|f l IH]; cbn [close_files]; [apply (spec_ret _ _ (fun _ => minv c N b e))|].
  unfold when. destruct (nz f); [sbind (apply spec_emit) | sbind (apply (spec_ret N tt (fun _ => minv c N b e)))];
    exact IH.
Qed.

Lemma spec_reparent i init n k b :
  spec N (minv c N b None) (reparent i init n k) (fun _ => minv c N b None).
Proof.
  revert k. induction n as [|n IH]; intros k; cbn [reparent];
    [apply (spec_ret _ _ (fun _ => minv c N b None))|].
  sbind (apply spec_pget) as p. eapply spec_bind with (Q := fun _ => minv c N b None); [|intros _; apply IH].
  apply spec_pre_l. case_bool_decide; [|apply (spec_ret _ _ (fun _ => minv c N b None))].
  sbind (apply spec_pmod_frame; frm). unfold when. destruct (is_state ZOMBIE p).
  - apply spec_wakeup1.
  - apply (spec_ret _ _ (fun _ => minv c N b None)).
Qed.


Lemma spec_read_state {A} P (k : pstate -> M pstate A) Q :
  (forall s, spec N P (k s) Q) -> spec N P (get ≫= k) Q.
Proof. intros Hk s Hs. exact (Hk s s Hs). Qed.

Lemma spec_exit st Q : spec N (minv c N false None) (exit st) Q.
Proof.
  unfold exit. apply spec_myproc. intros i Hi. sbind (apply spec_pget) as p. cbv zeta.
  apply spec_pre_l, spec_read_state. intros s.
  case_bool_decide; [destruct (String.eqb _ _); intros ? _; exact I|].
  sbind (apply spec_close_files). sbind (apply spec_pmod_frame; frm).
  do 3 sbind (apply spec_emit). sbind (apply spec_pmod_frame; frm). sbind (apply spec_acquire).
  eapply spec_bind with (Q := fun _ => minv c N true None).
  { destruct (parent p) as [q|]; [|apply (spec_ret N tt (fun _ => minv c N true None))].
    sbind (apply spec_pmod_frame; frm). apply spec_pmod_frame. apply frame_wake_self. }
  intros []. eapply spec_bind with (Q := fun _ => minv c N true None).
  { destruct (parent p) as [q|]; [|apply (spec_ret N false (fun _ => minv c N true None))].
    sbind (apply spec_pget) as qp. apply spec_pre_l, (spec_ret N _ (fun _ => minv c N true None)). }
  intros ignored. destruct ignored.
  - sbind (apply spec_pmod_self; [exact Hi | reflexivity | discriminate]).
    intros s' Hs. destruct Hs as [H1 H2 H3 H4]. unfold wakeup1, release_pt, sched, myproc, pget. mstep.
    destruct (ptlocked _); cbn [negb]; [|exact I]. destruct (cur _); [|exact I].
    destruct (_ !! _); exact I.
  - sbind (apply spec_pmod_frame; frm). sbind (apply spec_wakeup1).
    apply spec_read_state. intros s'. sbind (apply spec_reparent).
    apply spec_pmod_sched; [exact Hi | reflexivity | discriminate].
Qed.

Lemma spec_waitpid_pass i want ws o :
  spec N (minv c N true None) (waitpid_pass i want ws o) (fun _ => minv c N false None).
Proof.
  unfold waitpid_pass. sbind (apply spec_get) as s.
  destruct (scan _ (ptable s)) as [k|] eqn:E.
  - eapply spec_bind with (Q := fun _ s => minv c N true None s /\ in_state k ZOMBIE s).
    { intros s' [Hs ->]. destruct (scan_Some _ _ _ E) as ((p & Hp & Hr) & _).
      rewrite (pget_Ok k p) by exact Hp. split; [exact Hs|]. exists p. split; [exact Hp|].
      unfold reapable in Hr. apply andb_prop in Hr as [_ Hz]. apply is_state_true, Hz. }
    intros p. cbv zeta. sbind (apply spec_emit_in).
    eapply spec_bind with (Q := fun _ s => minv c N true None s /\ in_state k ZOMBIE s).
    { intros s' [Hs (q & Hq & Hz)]. split.
      { apply minv_frames; [apply frames_alter; frm | exact Hs]. }
      eexists. split; [apply lookup_alter_same, Hq | exact Hz]. }
    intros []. sbind (apply spec_emit_in).
    sbind (apply (spec_pmod_other c N k _ ZOMBIE true)); [discriminate.. | | discriminate |].
    { right; reflexivity. }
    sbind (apply spec_pmod_frame; frm). sbind (apply spec_release).
    apply (spec_ret N _ (fun _ => minv c N false None)).
  - apply spec_pre_l. destruct (scan (fun _ p => is_child i p) _).
    + destruct (nz _).
      * sbind (apply spec_release). apply (spec_ret N _ (fun _ => minv c N false None)).
      * sbind (apply (spec_sleep_pt _ (fun _ => minv c N false None))).
        apply (spec_ret N _ (fun _ => minv c N false None)).
    + sbind (apply spec_release). apply (spec_ret N _ (fun _ => minv c N false None)).
Qed.

Lemma spec_waitpid want ws o :
  spec N (minv c N false None) (waitpid want ws o) (fun _ => minv c N false None).
Proof.
  unfold waitpid. apply spec_myproc. intros i Hi. sbind (apply spec_acquire). apply spec_waitpid_pass.
Qed.

Lemma spec_kill want st :
  spec N (minv c N false None) (kill want st) (fun _ => minv c N false None).
Proof.
  unfold kill. apply spec_myproc. intros i Hi. sbind (apply spec_acquire).
  apply spec_read_state. intros s. destruct (scan _ _) as [k|].
  - sbind (apply spec_pget) as cp. sbind (apply spec_pre_l, spec_pget) as p.
    destruct (_ && _).
    { apply spec_pre_l. sbind (apply spec_release). apply (spec_ret N _ (fun _ => minv c N false None)). }
    eapply spec_bind with (Q := fun _ s => minv c N true None s /\ in_state k (state p) s).
    { intros s' [Hs Hp]. unfold when. destruct (negb _).
      - split; [apply minv_frames; [apply frames_alter; frm | exact Hs]|].
        eexists. split; [apply lookup_alter_same, Hp | reflexivity].
      - split; [exact Hs | exists p; auto]. }
    intros []. eapply spec_bind with (Q := fun _ s => minv c N true None s).
    { unfold when. destruct (is_state SLEEPING p) eqn:Es.
      - apply is_state_true in Es. rewrite Es.
        apply spec_pmod_other; [discriminate.. | left; reflexivity | discriminate].
      - apply spec_pre_l, (spec_ret N _ (fun _ => minv c N true None)). }
    intros []. sbind (apply spec_pmod_frame; frm). sbind (apply spec_release).
    apply (spec_ret N _ (fun _ => minv c N false None)).
  - sbind (apply spec_release). apply (spec_ret N _ (fun _ => minv c N false None)).
Qed.

Lemma spec_kill_pgrp g sig :
  spec N (minv c N false None) (kill_pgrp g sig) (fun _ => minv c N false None).
Proof.
  unfold kill_pgrp. sbind (apply spec_acquire). sbind (apply spec_get) as s. cbv zeta.
  eapply spec_bind with (Q := fun _ => minv c N true None); [|intros _; apply spec_release].
  intros s' [Hs ->]. apply minv_frames; [apply frames_map | exact Hs]. intros p.
  destruct (_ && negb _); [|split; auto]. destruct (_ && _); [split; auto|]. cbv zeta.
  set (q := p <| sigpending := _ |>). destruct (is_state SLEEPING q) eqn:E.
  - apply is_state_true in E. split; [reflexivity | right; split; [exact E | reflexivity]].
  - split; [reflexivity | left; reflexivity].
Qed.

Lemma spec_setpgid a g : spec N (minv c N false None) (setpgid a g) (fun _ => minv c N false None).
Proof.
  unfold setpgid. apply spec_myproc. intros i Hi. sbind (apply spec_acquire).
  sbind (apply spec_pget) as cp. cbv zeta. apply spec_pre_l, spec_read_state. intros s.
  destruct (scan _ _).
  - sbind (apply spec_pget) as p. apply spec_pre_l. destruct (parent p); [|intros ? _; exact I].
    sbind (apply spec_pmod_frame; frm). sbind (apply spec_release).
    apply (spec_ret N _ (fun _ => minv c N false None)).
  - sbind (apply spec_release). apply (spec_ret N _ (fun _ => minv c N false None)).
Qed.
End operations.

(** ** The machine: operations, interrupts and the scheduler *)

(** What the running process or an interrupt handler may do.  The arguments
    include the answers of the other components ([kalloc], [copyuvm], ...). *)
Inductive pop : Type :=
| OFork (kalloc_ret copyuvm_ret : Z)
| OExit (status : Z)
| OWait (want : Z) (want_status : bool) (options : Z)
| OYield
| OSleep (ch : Z)
| OPause
| OGrow (vm_ret : Z -> Z -> Z) (n : Z)
| OKill (want status : Z)
| OKillPgrp (g sig : Z)
| OSetpgid (a g : Z)
| OWakeup (ch : Z).

Definition run (o : pop) : M pstate unit :=
  match o with
  | OFork k u => _ ← fork k u; mret tt
  | OExit st => exit st
  | OWait w ws o => _ ← waitpid w ws o; mret tt
  | OYield => yield
  | OSleep ch => sleep_on ch
  | OPause => pause
  | OGrow vm n => _ ← grow_proc vm n; mret tt
  | OKill w st => _ ← kill w st; mret tt
  | OKillPgrp g sig => kill_pgrp g sig
  | OSetpgid a g => _ ← setpgid a g; mret tt
  | OWakeup ch => wakeup ch
  end.

(** Where a dispatched process goes on. *)
Inductive resumption : Type := RRelease | RSleep | RWait (want : Z) (want_status : bool) (options : Z).

Definition resume (i : nat) (r : resumption) : M pstate unit :=
  match r with
  | RRelease => resume_release
  | RSleep => resume_sleep i
  | RWait w ws o => _ ← resume_wait i w ws o; mret tt
  end.

Inductive step : pstate -> pstate -> Prop :=
| step_op o s s' : run o s = Ok tt s' -> step s s'
| step_leave o ch s s' : run o s = Block ch s' -> step s (to_scheduler s')
| step_dispatch k i r s s' :
    cur s = None -> scheduler_next k (ptable s) = Some i ->
    (acquire_pt;; dispatch i;; resume i r) s = Ok tt s' -> step s s'
| step_dispatch_leave k i r ch s s' :
    cur s = None -> scheduler_next k (ptable s) = Some i ->
    (acquire_pt;; dispatch i;; resume i r) s = Block ch s' -> step s (to_scheduler s').

Definition zero_proc : proc :=
  Proc 0 0 0 UNUSED 0 None zero_tf 0 0 (replicate NOFILE 0) 0 EmptyString 0 0 0 0 0 0 0 0 0
    (replicate NSIG 0) (replicate NSIG 0) 0 0 0 0 0 0 0 0 0 0 (replicate NGROUPS 0).

(** The kernel's zeroed data at boot; [int nextpid = 1]. *)
Definition boot : pstate := PState (replicate NPROC zero_proc) 1 None None false 0 [].

Section machine.
Context (N : Z) (HN : N + 1 < 2 ^ 31).

Lemma spec_run c o : spec (N + 1) (minv c N false None) (run o) (fun _ => minv c (N + 1) false None).
Proof.
  assert (forall A (m : M pstate A), spec N (minv c N false None) m (fun _ => minv c N false None) ->
    spec (N + 1) (minv c N false None) m (fun _ => minv c (N + 1) false None)) as Hup.
  { intros A m H s Hs. specialize (H s Hs). destruct (m s) as [a s'| | |ch s']; try exact I.
    - apply (minv_weaken c N (N + 1) false None); [lia | exact H].
    - destruct H as [[H1 H2 H3 H4] Hr]. split; [split; auto; lia | exact Hr]. }
  assert (forall A (m : M pstate A) P Q, spec (N + 1) P m (fun _ => Q) ->
    spec (N + 1) P (_ ← m; mret tt) (fun _ => Q)) as Hv.
  { intros A m P Q H. eapply spec_bind; [exact H | intros a s Hs; exact Hs]. }
  destruct o; cbn [run]; try apply Hv; [apply spec_fork, HN | apply Hup..].
  - apply spec_exit.
  - apply spec_waitpid.
  - apply spec_yield.
  - apply spec_sleep_on.
  - apply spec_pause.
  - apply spec_grow.
  - apply spec_kill.
  - apply spec_kill_pgrp.
  - apply spec_setpgid.
  - apply spec_wakeup.
Qed.

Lemma scheduler_next_runnable k l i :
  scheduler_next k l = Some i -> exists p, l !! i = Some p /\ state p = RUNNABLE.
Proof.
  unfold scheduler_next. destruct (scan_from _ (drop k l) k) as [j|] eqn:E; intros H.
  - injection H as <-. destruct (scan_from_Some _ _ _ _ E) as (Hle & (p & Hp & Hr) & _).
    rewrite lookup_drop in Hp. replace (k + (j - k))%nat with j in Hp by lia.
    exists p. split; [exact Hp | apply is_state_true, Hr].
  - destruct (scan_Some _ _ _ H) as ((p & Hp & Hr) & _).
    exists p. split; [exact Hp | apply is_state_true, Hr].
Qed.

Lemma spec_dispatch i :
  spec N (fun s => minv None N true None s /\ in_state i RUNNABLE s) (dispatch i)
    (fun _ => minv (Some i) N true None).
Proof.
  intros s [[[H1 H2 H3 H4] Hi Hc _] (p & Hp & Hs)].
  split; [split; [|assumption..] | reflexivity | | discriminate].
  - apply (tinv_set (ptable s) (nextpid s) (cur s) (Some i) i); [exact H1 | | reflexivity |].
    + intros q Hq. rewrite Hp in Hq. injection Hq as <-. right. split; [reflexivity | congruence].
    + intros j q _ Hq E. pose proof (t_run _ _ _ H1 j q Hq E). congruence.
  - intros j [= <-]. eexists. split; [apply lookup_alter_same, Hp | reflexivity].
Qed.

Lemma spec_resume i r :
  spec N (minv (Some i) N true None) (resume i r) (fun _ => minv (Some i) N false None).
Proof.
  destruct r; cbn [resume].
  - apply spec_release.
  - unfold resume_sleep. sbind (apply spec_pmod_frame; frm). apply spec_release.
  - eapply spec_bind with (Q := fun _ => minv (Some i) N false None); [|intros a s Hs; exact Hs].
    unfold resume_wait. sbind (apply spec_pmod_frame; frm). apply spec_waitpid_pass.
Qed.

Lemma spec_switch k i r s :
  minv None N false None s -> scheduler_next k (ptable s) = Some i ->
  match (acquire_pt;; dispatch i;; resume i r) s with
  | Ok _ s' => minv (Some i) N false None s'
  | Block _ s' => blocked N s'
  | _ => True
  end.
Proof.
  intros Hs Hn. destruct (scheduler_next_runnable k _ i Hn) as (p & Hp & Hr).
  refine (spec_bind N (fun s' => s' = s) acquire_pt
    (fun _ s => minv None N true None s /\ in_state i RUNNABLE s) _ (fun _ => minv (Some i) N false None) _ _ s eq_refl).
  - intros s' ->. pose proof (spec_acquire None N None s Hs) as H.
    rewrite acquire_pt_Ok in * by apply (i_lock _ _ _ (m_inv _ _ _ _ _ Hs)).
    split; [exact H | exists p; auto].
  - intros []. sbind (apply spec_dispatch). apply spec_resume.
Qed.

(** Leaving the CPU leads back to the scheduler with the lock free. *)
Lemma blocked_scheduler s : blocked N s -> minv None N false None (to_scheduler s).
Proof.
  intros [[H1 H2 H3 H4] Hr]. split; [split; [|assumption|reflexivity|reflexivity] | reflexivity | discriminate..].
  destruct H1 as [T1 T2 T3 T4]. split; try assumption.
  intros i p Hp Hs. exfalso. exact (Hr i p (T4 i p Hp Hs) Hp Hs).
Qed.
End machine.

Lemma step_minv c N s s' :
  N + 1 < 2 ^ 31 -> minv c N false None s -> step s s' ->
  exists c', minv c' (N + 1) false None s'.
Proof.
  intros HN Hs Hst. destruct Hst as [o s s' H|o ch s s' H|k i r s s' Hc Hn H|k i r ch s s' Hc Hn H].
  - exists c. pose proof (spec_run N HN c o s Hs) as HH. rewrite H in HH. exact HH.
  - exists None. apply blocked_scheduler. pose proof (spec_run N HN c o s Hs) as HH. rewrite H in HH. exact HH.
  - exists (Some i). rewrite (m_is _ _ _ _ _ Hs) in Hc. subst c.
    pose proof (spec_switch N k i r s Hs Hn) as HH. rewrite H in HH.
    apply (minv_weaken (Some i) N (N + 1) false None); [lia | exact HH].
  - exists None. rewrite (m_is _ _ _ _ _ Hs) in Hc. subst c.
    pose proof (spec_switch N k i r s Hs Hn) as HH. rewrite H in HH.
    apply (minv_weaken None N (N + 1) false None); [lia | apply blocked_scheduler, HH].
Qed.

Lemma steps_minv n : forall c N s s',
  N + Z.of_nat n < 2 ^ 31 -> minv c N false None s -> nsteps step n s s' ->
  exists c', minv c' (N + Z.of_nat n) false None s'.
Proof.
  induction n as [|n IH]; intros c N s s' HN Hs Hst; inversion Hst as [|m x y z Hxy Hyz]; subst.
  - exists c. rewrite Z.add_0_r. exact Hs.
  - destruct (step_minv c N s y) as [c1 Hy]; [lia | exact Hs | exact Hxy|].
    destruct (IH c1 (N + 1) y s') as [c2 H2]; [lia | exact Hy | exact Hyz|].
    exists c2. replace (N + Z.of_nat (S n)) with (N + 1 + Z.of_nat n) by lia. exact H2.
Qed.

Lemma boot_minv : minv None 1 false None boot.
Proof.
  split; [split; [|cbn; lia|reflexivity..]|reflexivity|discriminate..].
  assert (forall i p, ptable boot !! i = Some p -> state p = UNUSED) as Hu.
  { intros i p H. unfold boot in H. cbn [ptable] in H. apply lookup_replicate in H as [-> _]. reflexivity. }
  split.
  - reflexivity.
  - intros i p H Hs. exfalso. exact (Hs (Hu i p H)).
  - intros i j p q H _ Hs. exfalso. exact (Hs (Hu i p H)).
  - intros i p H E. rewrite (Hu i p H) in E. discriminate.
Qed.

Lemma spec_user_init k pd root :
  spec 2 (minv None 1 false None) (user_init k pd root) (fun _ => minv None 2 false None).
Proof.
  unfold user_init. sbind (apply (spec_allocproc None 1 eq_refl)) as onp.
  destruct onp as [i|]; [|intros ? _; exact I].
  eapply spec_bind with (Q := fun _ => minv None 2 false (Some i)).
  { intros s Hs. eapply minv_fields; [..|exact Hs]; reflexivity. }
  intros []. destruct (pd =? 0); [intros ? _; exact I|].
  sbind (apply spec_pmod_frame; frm). sbind (apply spec_acquire).
  sbind (apply (spec_pmod_done None 2 i)); [left; reflexivity | discriminate|]. apply spec_release.
Qed.

(** What a well-formed process table is, between two steps of the machine. *)
Record table_ok (s : pstate) : Prop := TableOk {
  ok_size : length (ptable s) = NPROC;
  ok_pids : forall i p, ptable s !! i = Some p -> state p <> UNUSED -> 0 < pid p < nextpid s;
  ok_unique : forall i j p q, ptable s !! i = Some p -> ptable s !! j = Some q ->
    state p <> UNUSED -> state q <> UNUSED -> pid p = pid q -> i = j;
  ok_running : forall i p, ptable s !! i = Some p -> (state p = RUNNING <-> cur s = Some i);
  ok_unlocked : ptlocked s = false /\ depth s = 0
}.

Lemma minv_table_ok c N s : minv c N false None s -> table_ok s.
Proof.
  intros [[[T1 T2 T3 T4] H2 H3 H4] Hi Hc Hn]. split; try assumption; [|split; assumption].
  intros i p Hp. split; [exact (T4 i p Hp)|]. intros E. rewrite Hi in E.
  destruct (Hc i E) as (q & Hq & Hs). congruence.
Qed.

(** C11. From boot, whatever sequence of system calls, interrupts and context
    switches follows [user_init], the process table stays well formed: 64
    slots; live processes have positive, pairwise distinct pids below [nextpid];
    exactly the current process is [RUNNING]; and [ptable.lock] is free with
    interrupts unmasked whenever control is outside proc.c.  The bound keeps
    [nextpid] from overflowing its [int]. *)
Theorem process_table_invariant k pd root n s0 s :
  user_init k pd root boot = Ok tt s0 -> nsteps step n s0 s -> 2 + Z.of_nat n < 2 ^ 31 ->
  table_ok s.
Proof.
  intros Hu Hst Hn. pose proof (spec_user_init k pd root boot boot_minv) as H0. rewrite Hu in H0.
  destruct (steps_minv n None 2 s0 s Hn H0 Hst) as [c Hc]. exact (minv_table_ok _ _ _ Hc).
Qed.

(** A run: init is dispatched, forks, yields, and its child is dispatched. *)
Definition result_state (o : outcome pstate unit) : pstate :=
  match o with Ok _ s => s | Block _ s => s | _ => boot end.
Definition run0 : pstate := result_state (user_init 4096 8192 1 boot).
Definition run1 : pstate := result_state ((acquire_pt;; dispatch 0;; resume 0 RRelease) run0).
Definition run2 : pstate := result_state (run (OFork 12288 16384) run1).
Definition run2b : pstate := result_state (run OYield run2).
Definition run3 : pstate := to_scheduler run2b.
Definition run4 : pstate := result_state ((acquire_pt;; dispatch 1;; resume 1 RRelease) run3).

Lemma process_table_invariant_witness :
  user_init 4096 8192 1 boot = Ok tt run0 /\ nsteps step 4 run0 run4 /\ cur run4 = Some 1%nat
  /\ table_ok run4.
Proof.
  assert (user_init 4096 8192 1 boot = Ok tt run0) as H0 by (vm_compute; reflexivity).
  assert (nsteps step 4 run0 run4) as Hn.
  { apply nsteps_l with run1; [apply (step_dispatch 0 0 RRelease); vm_compute; reflexivity|].
    apply nsteps_l with run2; [apply (step_op (OFork 12288 16384)); vm_compute; reflexivity|].
    apply nsteps_l with run3; [apply (step_leave OYield 0 run2 run2b); vm_compute; reflexivity|].
    apply nsteps_l with run4; [apply (step_dispatch 1 1 RRelease); vm_compute; reflexivity|].
    constructor. }
  split; [exact H0|]. split; [exact Hn|]. split; [vm_compute; reflexivity|].
  exact (process_table_invariant 4096 8192 1 4 run0 run4 H0 Hn eq_refl).
Defined.

(** ** fork *)

Lemma dup_list_zero l : dup_list l (replicate (length l) 0) = l.
Proof.
  induction l as [|f l IH]; [reflexivity|]. cbn. f_equal; [|exact IH].
  destruct (nz f) eqn:E; [reflexivity|]. symmetry. apply nz_false, E.
Qed.

(** What the child has of the parent. *)
Record child_of (c : nat) (cp : proc) (child : proc) : Prop := ChildOf {
  c_parent : parent child = Some c;
  c_regs : tf child = tf cp <| eax := 0 |>;
  c_files : ofile child = ofile cp /\ cwd child = cwd cp;
  c_size : sz child = sz cp;
  c_name : name child = name cp;
  c_ids : uid child = uid cp /\ euid child = euid cp /\ suid child = suid cp
          /\ gid child = gid cp /\ egid child = egid cp;
  c_group : pgrp child = pgrp cp /\ session child = session cp /\ tty child = tty cp
            /\ leader child = 0;
  c_signals : sigpending child = 0 /\ sigmask child = 0 /\ sighandlers child = sighandlers cp
              /\ sigrestorers child = sigrestorers cp /\ alarmticks child = 0
}.

Lemma child_proc_of c cp newpid stack pd p :
  ofile p = replicate (length (ofile cp)) 0 ->
  child_of c cp (child_proc c cp newpid stack pd p)
  /\ state (child_proc c cp newpid stack pd p) = RUNNABLE
  /\ pid (child_proc c cp newpid stack pd p) = newpid
  /\ kstack (child_proc c cp newpid stack pd p) = stack
  /\ pgdir (child_proc c cp newpid stack pd p) = pd
  /\ sgid (child_proc c cp newpid stack pd p) = egid cp.
Proof.
  intros Ho. split_and!; [split|reflexivity..]; try (split_and!; reflexivity); try reflexivity.
  split; [|reflexivity]. transitivity (dup_list (ofile cp) (ofile p)); [reflexivity|].
  rewrite Ho. apply dup_list_zero.
Qed.

(** A fork that gets its stack and its copy of the address space returns
    the fresh pid and leaves a [RUNNABLE] child in the first free slot, with the
    parent's registers but eax = 0, its files (each duplicated once, in order),
    directory, identity, group, session and signal handlers; every other slot is
    untouched. *)
Theorem fork_creates_child s c cp i p stack pd :
  cur s = Some c -> ptable s !! c = Some cp -> state cp = RUNNING -> ptlocked s = false ->
  scan (fun _ p => is_state UNUSED p) (ptable s) = Some i -> ptable s !! i = Some p ->
  ofile p = replicate (length (ofile cp)) 0 -> stack <> 0 -> pd <> 0 ->
  exists s' child,
    fork stack pd s = Ok (nextpid s) s' /\ ptable s' !! i = Some child
    /\ child_of c cp child /\ state child = RUNNABLE /\ pid child = nextpid s
    /\ kstack child = stack /\ pgdir child = pd
    /\ (forall j, j <> i -> ptable s' !! j = ptable s !! j)
    /\ calls s' = (calls s ++ map CFileDup (filter (fun f => nz f = true) (ofile cp))) ++ [CIdup (cwd cp)]
    /\ cur s' = cur s /\ ptlocked s' = false /\ depth s' = depth s.
Proof.
  intros Hc Hcp Hr Hl Hsc Hp Ho Hst Hpd.
  assert (c <> i) as Hne.
  { intros ->. destruct (scan_Some _ _ _ Hsc) as ((q & Hq & Hu) & _). apply is_state_true in Hu. congruence. }
  destruct (child_proc_of c cp (nextpid s) stack pd p Ho) as (H1 & H2 & H3 & H4 & H5 & _).
  eexists _, (child_proc c cp (nextpid s) stack pd p). split.
  { apply (fork_Ok s c cp i p); try assumption. rewrite Ho, length_replicate. reflexivity. }
  split; [apply lookup_alter_same, Hp|]. do 5 (split; [assumption|]).
  split; [intros j Hj; apply list_lookup_alter_ne; congruence|]. split_and!; try reflexivity. exact Hl.
Qed.

Definition running_root : proc := zero_proc <| state := RUNNING |> <| pid := 1 |> <| ofile := [7; 0; 9] |>.
Definition free_slot : proc := zero_proc <| ofile := [0; 0; 0] |>.
Definition two_slots : pstate := PState [running_root; free_slot] 2 None (Some 0%nat) false 0 [].

Lemma fork_creates_child_witness : exists s' child,
  fork 4096 8192 two_slots = Ok 2 s' /\ ptable s' !! 1%nat = Some child
  /\ child_of 0 running_root child /\ calls s' = [CFileDup 7; CFileDup 9; CIdup 0].
Proof.
  destruct (fork_creates_child two_slots 0 running_root 1 free_slot 4096 8192)
    as (s' & ch & H1 & H2 & H3 & _ & _ & _ & _ & _ & H4 & _); try reflexivity; try discriminate.
  exists s', ch. split; [exact H1|]. split; [exact H2|]. split; [exact H3|].
  rewrite H4. vm_compute. reflexivity.
Defined.

(** A fork that fails returns -ENOMEM and leaks nothing: with no free slot
    the state is unchanged; without a kernel stack the slot stays free; without
    an address space the stack page is given back and the slot is free again. *)
Theorem fork_failure s c cp stack pd :
  cur s = Some c -> ptable s !! c = Some cp -> state cp = RUNNING ->
  ptlocked s = false -> stack = 0 \/ pd = 0
    \/ (forall j p, ptable s !! j = Some p -> state p <> UNUSED) ->
  exists s', fork stack pd s = Ok (- ENOMEM) s' /\ ptlocked s' = false /\ depth s' = depth s
    /\ (forall j p', ptable s' !! j = Some p' -> exists p, ptable s !! j = Some p
          /\ (p' = p \/ (state p = UNUSED /\ state p' = UNUSED /\ kstack p' = 0)))
    /\ (calls s' = calls s \/ (stack <> 0 /\ pd = 0 /\ calls s' = calls s ++ [CKfree stack])).
Proof.
  intros Hc Hcp Hr Hl Hcase. destruct s as [tab np ip cu lk dp cl].
  cbn [ptable nextpid initproc cur ptlocked depth calls] in *. subst cu lk.
  destruct (scan (fun _ p => is_state UNUSED p) tab) as [i|] eqn:Hsc.
  - destruct (scan_Some _ _ _ Hsc) as ((p & Hp & Hu) & _). apply is_state_true in Hu.
    assert (c <> i) as Hne by congruence.
    assert (forall f tab', tab' = alter f i tab -> state (f p) = UNUSED -> kstack (f p) = 0 ->
      forall j p', tab' !! j = Some p' -> exists p0, tab !! j = Some p0
        /\ (p' = p0 \/ (state p0 = UNUSED /\ state p' = UNUSED /\ kstack p' = 0))) as Hfr.
    { intros f tab' -> Hs Hk j p' Hj. destruct (decide (j = i)) as [-> | Hji].
      - rewrite (lookup_alter_same f i tab p Hp) in Hj. injection Hj as <-. eauto 10.
      - rewrite list_lookup_alter_ne in Hj by congruence. eauto. }
    unfold fork. pstep1. erewrite bind_step by (apply allocproc_free; [reflexivity | exact Hsc]).
    destruct (Z.eqb_spec stack 0) as [-> | Hst]; psimp.
    + eexists. split; [reflexivity|]. split_and!; try reflexivity; [|left; reflexivity].
      eapply Hfr; reflexivity.
    + destruct Hcase as [? | [-> | Hfull]]; [contradiction| |exfalso; exact (Hfull i p Hp Hu)].
      erewrite bind_step by (apply pget_Ok, lookup_alter_other; [congruence | exact Hcp]).
      rewrite !pmod_bind. psimp. rewrite !alter_alter. cbn [Z.eqb].
      erewrite bind_step by (apply pget_Ok, lookup_alter_same; exact Hp).
      rewrite emit_bind, !pmod_bind. psimp. rewrite !alter_alter.
      eexists. split; [reflexivity|]. split_and!; try reflexivity.
      * eapply Hfr; reflexivity.
      * right. split_and!; auto.
  - unfold fork. pstep1. erewrite bind_step by (apply allocproc_full; [reflexivity | exact Hsc]).
    eexists. split; [reflexivity|]. split_and!; auto. intros j p' Hj. eauto.
Qed.

Lemma fork_failure_witness : exists s',
  fork 4096 0 run1 = Ok (- ENOMEM) s' /\ calls s' = calls run1 ++ [CKfree 4096].
Proof.
  destruct (fork_failure run1 0 (default zero_proc (ptable run1 !! 0%nat)) 4096 0)
    as (s' & H & _ & _ & _ & [Hk | (_ & _ & Hk)]); try (vm_compute; reflexivity); [tauto| |].
  - exfalso. revert H Hk. vm_compute. intros [= <-]. discriminate.
  - exists s'. split; [exact H | exact Hk].
Defined.

(** ** waitpid *)

(** What a reaped slot looks like. *)
Definition reaped_proc (p : proc) : proc :=
  p <| kstack := 0 |> <| pid := 0 |> <| parent := None |> <| name := EmptyString |>
    <| killed := 0 |> <| state := UNUSED |>.

Section waitpid.
Context (s : pstate) (i : nat) (me : proc) (want : Z) (ws : bool) (o : Z).
Context (Hcur : cur s = Some i) (Hme : ptable s !! i = Some me) (Hl : ptlocked s = false)
  (Hd : depth s = 0).

Lemma waitpid_reaps k p :
  scan (fun _ p => reapable i want p) (ptable s) = Some k -> ptable s !! k = Some p ->
  waitpid want ws o s = Ok (Reaped (pid p) (if ws then Some (wait_status (termsig p)) else None))
    (s <| ptable := alter (fun c => c <| sigpending := Z.ldiff (sigpending c) (Z.shiftl 1 SIGCHLD) |>) i
                      (alter reaped_proc k (ptable s)) |>
       <| calls := (calls s ++ [CKfree (kstack p)]) ++ [CFreevm (pgdir p)] |>).
Proof.
  intros Hsc Hp. destruct s as [tab np ip cu lk dp cl].
  cbn [ptable nextpid initproc cur ptlocked depth calls] in *. subst cu lk dp.
  unfold waitpid, waitpid_pass. pstep1. pstep1. erewrite bind_step by reflexivity. psimp. rewrite Hsc.
  erewrite bind_step by (apply pget_Ok; exact Hp). cbv zeta.
  rewrite emit_bind, pmod_bind, emit_bind, !pmod_bind. psimp. rewrite !alter_alter.
  pstep1. reflexivity.
Qed.

Lemma waitpid_none :
  scan (fun _ p => reapable i want p) (ptable s) = None ->
  scan (fun _ p => is_child i p) (ptable s) = None ->
  waitpid want ws o s = Ok NoChildren s.
Proof.
  intros Hz Hk. destruct s as [tab np ip cu lk dp cl].
  cbn [ptable nextpid initproc cur ptlocked depth calls] in *. subst cu lk dp.
  unfold waitpid, waitpid_pass. pstep1. pstep1. erewrite bind_step by reflexivity. psimp.
  rewrite Hz, Hk. pstep1. reflexivity.
Qed.

Lemma waitpid_nohang k :
  scan (fun _ p => reapable i want p) (ptable s) = None ->
  scan (fun _ p => is_child i p) (ptable s) = Some k -> nz (Z.land o 1) = true ->
  waitpid want ws o s = Ok Hang s.
Proof.
  intros Hz Hk Ho. destruct s as [tab np ip cu lk dp cl].
  cbn [ptable nextpid initproc cur ptlocked depth calls] in *. subst cu lk dp.
  unfold waitpid, waitpid_pass. pstep1. pstep1. erewrite bind_step by reflexivity. psimp.
  rewrite Hz, Hk, Ho. pstep1. reflexivity.
Qed.

Lemma waitpid_sleeps k :
  scan (fun _ p => reapable i want p) (ptable s) = None ->
  scan (fun _ p => is_child i p) (ptable s) = Some k -> nz (Z.land o 1) = false ->
  waitpid want ws o s = Block (proc_chan i)
    (s <| ptable := alter (fun p => p <| chan := proc_chan i |> <| state := SLEEPING |>) i (ptable s) |>
       <| ptlocked := true |> <| depth := 1 |>).
Proof.
  intros Hz Hk Ho. destruct s as [tab np ip cu lk dp cl].
  cbn [ptable nextpid initproc cur ptlocked depth calls] in *. subst cu lk dp.
  unfold waitpid, waitpid_pass. pstep1. pstep1. erewrite bind_step by reflexivity. psimp.
  rewrite Hz, Hk, Ho. unfold sleep. rewrite bind_assoc. pstep1. rewrite bind_assoc.
  erewrite bind_step by reflexivity. rewrite bind_assoc, pmod_bind, bind_assoc, pmod_bind. psimp.
  rewrite alter_alter. unfold sched. rewrite bind_assoc. pstep1. rewrite bind_assoc.
  erewrite bind_step by (apply pget_Ok, lookup_alter_same; exact Hme). rewrite bind_assoc.
  erewrite bind_step by reflexivity. reflexivity.
Qed.
End waitpid.

(** The child [waitpid(want, ...)] of process [i] is looking for. *)
Definition zombie_child (i : nat) (want : Z) (p : proc) : Prop :=
  parent p = Some i /\ (want <= 0 \/ pid p = want) /\ state p = ZOMBIE.

Lemma reapable_iff i want p : reapable i want p = true <-> zombie_child i want p.
Proof.
  unfold reapable, zombie_child, is_child, is_state.
  rewrite !andb_true_iff, negb_true_iff, andb_false_iff, negb_false_iff, !bool_decide_eq_true,
    Z.ltb_ge, Z.eqb_eq. tauto.
Qed.

(** C14. waitpid, on all its paths.  If the caller has a matching zombie child,
    one is reaped: its pid is returned, its stack page and page table are freed
    exactly once, its slot is free, no other process is touched.  Otherwise,
    with no child at all the call returns -1; with WNOHANG it returns 0; both
    leave the state alone; and else the caller sleeps on its own channel. *)
Theorem waitpid_correct s i me want ws o :
  cur s = Some i -> ptable s !! i = Some me -> state me = RUNNING -> ptlocked s = false ->
  depth s = 0 ->
  (exists k p s' p', ptable s !! k = Some p /\ zombie_child i want p
     /\ waitpid want ws o s = Ok (Reaped (pid p) (if ws then Some (wait_status (termsig p)) else None)) s'
     /\ ptable s' !! k = Some p' /\ state p' = UNUSED /\ pid p' = 0 /\ parent p' = None
     /\ calls s' = calls s ++ [CKfree (kstack p); CFreevm (pgdir p)]
     /\ (forall j, j <> k -> j <> i -> ptable s' !! j = ptable s !! j) /\ ptlocked s' = false)
  \/ ((forall k p, ptable s !! k = Some p -> ~ zombie_child i want p)
      /\ (((forall k p, ptable s !! k = Some p -> parent p <> Some i)
           /\ waitpid want ws o s = Ok NoChildren s)
          \/ ((exists k p, ptable s !! k = Some p /\ parent p = Some i) /\ nz (Z.land o 1) = true
              /\ waitpid want ws o s = Ok Hang s)
          \/ ((exists k p, ptable s !! k = Some p /\ parent p = Some i) /\ nz (Z.land o 1) = false
              /\ exists s', waitpid want ws o s = Block (proc_chan i) s' /\ ptlocked s' = true
                 /\ in_state i SLEEPING s'))).
Proof.
  intros Hc Hme Hr Hl Hd. destruct (scan (fun _ p => reapable i want p) (ptable s)) as [k|] eqn:Hz.
  - left. destruct (scan_Some _ _ _ Hz) as ((p & Hp & Hf) & _). apply reapable_iff in Hf.
    assert (i <> k) by (destruct Hf as (_ & _ & ?); congruence).
    eexists k, p, _, (reaped_proc p). do 2 (split; [assumption|]).
    split; [apply (waitpid_reaps s i me want ws o Hc Hme Hl Hd k p Hz Hp)|].
    split; [apply lookup_alter_other, lookup_alter_same; assumption|].
    split_and!; try reflexivity; [exact (eq_sym (app_assoc (calls s) [_] [_]))| |exact Hl].
    intros j Hk Hi. etransitivity; [apply list_lookup_alter_ne|apply list_lookup_alter_ne]; congruence.
  - right. pose proof (scan_None _ _ Hz) as Hn. split.
    { intros k p Hp Hzc. apply reapable_iff in Hzc. rewrite (Hn k p Hp) in Hzc. discriminate. }
    destruct (scan (fun _ p => is_child i p) (ptable s)) as [k|] eqn:Hk.
    + destruct (scan_Some _ _ _ Hk) as ((p & Hp & Hf) & _). apply bool_decide_eq_true in Hf. right.
      destruct (nz (Z.land o 1)) eqn:Ho; [left | right]; (split; [eauto|]; split; [reflexivity|]).
      * apply (waitpid_nohang s i me want ws o Hc Hme Hl Hd k Hz Hk Ho).
      * eexists. split; [apply (waitpid_sleeps s i me want ws o Hc Hme Hl Hd k Hz Hk Ho)|].
        split; [reflexivity|]. eexists. split; [apply lookup_alter_same, Hme | reflexivity].
    + left. split; [|apply (waitpid_none s i me want ws o Hc Hme Hl Hd Hz Hk)].
      intros k p Hp. eapply bool_decide_eq_false. exact (scan_None _ _ Hk k p Hp).
Qed.

Definition zombie_of_root : proc :=
  zero_proc <| state := ZOMBIE |> <| pid := 2 |> <| parent := Some 0%nat |> <| kstack := 4096 |>
    <| pgdir := 8192 |> <| termsig := 11 |>.

Lemma waitpid_correct_witness : exists s',
  waitpid (-1) true 0 (PState [running_root; zombie_of_root] 3 None (Some 0%nat) false 0 [])
  = Ok (Reaped 2 (Some 139)) s' /\ calls s' = [CKfree 4096; CFreevm 8192].
Proof.
  destruct (waitpid_correct (PState [running_root; zombie_of_root] 3 None (Some 0%nat) false 0 [])
    0 running_root (-1) true 0) as [(k & p & s' & p' & Hp & Hz & Hw & _ & _ & _ & _ & Hcl & _) | (Hn & _)];
    try reflexivity.
  - exists s'. destruct k as [|[|k]]; [injection Hp as <-; destruct Hz as (_ & _ & ?); discriminate| |discriminate].
    injection Hp as <-. split; [exact Hw | exact Hcl].
  - exfalso. apply (Hn 1%nat zombie_of_root); [reflexivity|]. split_and!; auto. lia.
Defined.

(** The status word waitpid stores depends on the terminating signal only: a
    child that exited by itself reports 0 whatever status it passed to exit. *)
Lemma exit_status_not_reported s i me want o k p :
  cur s = Some i -> ptable s !! i = Some me -> ptlocked s = false -> depth s = 0 ->
  scan (fun _ p => reapable i want p) (ptable s) = Some k -> ptable s !! k = Some p ->
  termsig p = 0 -> exists s', waitpid want true o s = Ok (Reaped (pid p) (Some 0)) s'.
Proof.
  intros Hc Hme Hl Hd Hsc Hp Ht. eexists.
  rewrite (waitpid_reaps s i me want true o Hc Hme Hl Hd k p Hsc Hp), Ht. reflexivity.
Qed.

(** ** exit *)

Lemma close_files_Ok l s :
  close_files l s = Ok tt (s <| calls := calls s ++ map CFileClose (filter (fun f => nz f = true) l) |>).
Proof.
  revert s. induction l as [|f l IH]; intros s; cbn [close_files].
  - cbn. rewrite app_nil_r. destruct s; reflexivity.
  - rewrite filter_cons. unfold when. destruct (nz f) eqn:E.
    + rewrite decide_True by reflexivity. rewrite emit_bind, IH. cbn. rewrite <-app_assoc. reflexivity.
    + rewrite decide_False by discriminate. erewrite bind_step by reflexivity. apply IH.
Qed.

(** [p'] is [p], woken or not. *)
Definition woken (p p' : proc) : Prop :=
  p' = p \/ (state p = SLEEPING /\ p' = p <| state := RUNNABLE |>).

Lemma woken_state p p' : woken p p' -> state p <> SLEEPING -> p' = p.
Proof. intros [-> | [? _]]; [reflexivity | contradiction]. Qed.

Lemma woken_trans p q r : woken p q -> woken q r -> woken p r.
Proof.
  intros [-> | [H1 ->]] [-> | [H2 ->]]; unfold woken; auto.
Qed.

Lemma woken_proj {T} (f : proc -> T) p p' :
  (forall q, f (q <| state := RUNNABLE |>) = f q) -> woken p p' -> f p' = f p.
Proof. intros Hf [-> | [_ ->]]; [reflexivity | apply Hf]. Qed.

(** The tables agree slot by slot up to [R]. *)
Definition pointwise (R : nat -> proc -> proc -> Prop) (l l' : list proc) : Prop :=
  length l' = length l /\ forall j p, l !! j = Some p -> exists p', l' !! j = Some p' /\ R j p p'.

Lemma pointwise_alter f i l : pointwise (fun j p p' => p' = if decide (j = i) then f p else p) l (alter f i l).
Proof.
  split; [apply length_alter|]. intros j p Hp. case_decide as Hj.
  - subst. exists (f p). split; [apply lookup_alter_same, Hp | reflexivity].
  - exists p. split; [apply lookup_alter_other; [congruence | exact Hp] | reflexivity].
Qed.

Lemma pointwise_wake ch l :
  pointwise (fun _ p p' => woken p p') l
    (map (fun p => if is_state SLEEPING p && (chan p =? ch) then p <| state := RUNNABLE |> else p) l).
Proof.
  split; [apply length_map|]. intros j p Hp. eexists. split.
  - change (map ?f l) with (f <$> l). rewrite list_lookup_fmap, Hp. reflexivity.
  - destruct (is_state SLEEPING p) eqn:E; cbn [andb]; [|left; reflexivity].
    apply is_state_true in E. destruct (chan p =? ch); [right; auto | left; reflexivity].
Qed.

Lemma pointwise_trans R1 R2 l1 l2 l3 :
  pointwise R1 l1 l2 -> pointwise R2 l2 l3 ->
  pointwise (fun j p r => exists q, R1 j p q /\ R2 j q r) l1 l3.
Proof.
  intros [L1 H1] [L2 H2]. split; [congruence|]. intros j p Hp.
  destruct (H1 j p Hp) as (q & Hq & HR1). destruct (H2 j q Hq) as (r & Hr & HR2). eauto.
Qed.

Lemma pointwise_impl (R R' : nat -> proc -> proc -> Prop) l l' :
  (forall j p p', l !! j = Some p -> R j p p' -> R' j p p') -> pointwise R l l' -> pointwise R' l l'.
Proof. intros HR [L H]. split; [exact L|]. intros j p Hp. destruct (H j p Hp) as (p' & Hp' & Hr). eauto. Qed.

(** Slot [j] after the children of [i] in the slots [lo, hi) went to [init]. *)
Definition adopted (i : nat) (init : option nat) (lo hi : nat) (j : nat) (p : proc) : proc :=
  if decide ((lo <= j < hi)%nat /\ parent p = Some i) then p <| parent := init |> else p.

Lemma adopted_split i init lo mid hi j p :
  (lo <= mid <= hi)%nat ->
  adopted i init lo hi j p = adopted i init mid hi j (adopted i init lo mid j p).
Proof.
  intros H. unfold adopted at 3. case_decide as D; unfold adopted.
  - rewrite decide_True by (split; [lia | apply D]). rewrite decide_False by lia. reflexivity.
  - case_decide as E; case_decide as F; try reflexivity; exfalso.
    + destruct (decide (j < mid)%nat); [apply D | apply F]; (split; [lia | apply E]).
    + apply E. split; [lia | apply F].
Qed.

Lemma woken_adopted i init lo hi j p p' :
  woken p p' -> woken (adopted i init lo hi j p) (adopted i init lo hi j p').
Proof.
  intros [-> | [Hs ->]]; [left; reflexivity|]. unfold adopted.
  change (parent (p <| state := RUNNABLE |>)) with (parent p). case_decide; right; auto.
Qed.

Lemma adopted_proj {T} (f : proc -> T) i init lo hi j p :
  (forall q x, f (q <| parent := x |>) = f q) -> f (adopted i init lo hi j p) = f p.
Proof. intros Hf. unfold adopted. case_decide; [apply Hf | reflexivity]. Qed.

Lemma reparent_Ok i init n : forall k s,
  (k + n <= length (ptable s))%nat ->
  exists l', reparent i init n k s = Ok tt (s <| ptable := l' |>)
    /\ pointwise (fun j p p' => woken (adopted i init k (k + n) j p) p') (ptable s) l'.
Proof.
  induction n as [|n IH]; intros k s Hlen; cbn [reparent].
  - exists (ptable s). split; [destruct s; reflexivity|]. split; [reflexivity|]. intros j p Hp.
    exists p. split; [exact Hp|]. left. unfold adopted. rewrite decide_False by lia. reflexivity.
  - destruct (lookup_lt_is_Some_2 (ptable s) k) as [p Hp]; [lia|].
    erewrite bind_step by (apply pget_Ok, Hp).
    assert (exists l1, (if bool_decide (parent p = Some i) then
         pmod k (fun p => p <| parent := init |>);;
         when (is_state ZOMBIE p) (wakeup1 (match init with Some j => proc_chan j | None => 0 end))
       else mret tt) s = Ok tt (s <| ptable := l1 |>)
      /\ pointwise (fun j p p' => woken (adopted i init k (S k) j p) p') (ptable s) l1) as (l1 & E1 & P1).
    { assert (pointwise (fun j q q' => q' = adopted i init k (S k) j q) (ptable s)
        (if bool_decide (parent p = Some i) then alter (fun p => p <| parent := init |>) k (ptable s)
         else ptable s)) as Pa.
      { case_bool_decide as Hb.
        - eapply pointwise_impl; [|apply pointwise_alter]. intros j q q' Hq ->. unfold adopted.
          case_decide as Hj; [subst; rewrite decide_True; [reflexivity | split; [lia | congruence]]|].
          rewrite decide_False by lia. reflexivity.
        - split; [reflexivity|]. intros j q Hq. exists q. split; [exact Hq|]. unfold adopted.
          rewrite decide_False; [reflexivity|]. intros [Hj Hpar]. assert (j = k) by lia. congruence. }
      case_bool_decide; [unfold when; destruct (is_state ZOMBIE p)|].
      - eexists. split; [reflexivity|]. eapply pointwise_impl; [|exact (pointwise_trans _ _ _ _ _ Pa (pointwise_wake _ _))].
        intros j q q' _ (r & -> & Hw). exact Hw.
      - eexists. split; [reflexivity|]. eapply pointwise_impl; [|exact Pa]. intros j q q' _ ->. left; reflexivity.
      - exists (ptable s). split; [destruct s; reflexivity|].
        eapply pointwise_impl; [|exact Pa]. intros j q q' _ ->. left; reflexivity. }
    erewrite bind_step by exact E1.
    destruct (IH (S k) (s <| ptable := l1 |>)) as (l2 & E2 & P2).
    { change (ptable (s <| ptable := l1 |>)) with l1. rewrite (proj1 P1). lia. }
    exists l2. split; [exact E2|].
    eapply pointwise_impl; [|exact (pointwise_trans _ _ _ _ _ P1 P2)]. cbv beta.
    intros j q r _ (q' & Hw1 & Hw2).
    replace (k + S n)%nat with (S k + n)%nat by lia. rewrite (adopted_split i init k (S k)) by lia.
    eapply woken_trans; [apply woken_adopted, Hw1 | exact Hw2].
Qed.

Lemma map_lookup_Some {A B} (f : A -> B) l i x : l !! i = Some x -> map f l !! i = Some (f x).
Proof. intros H. change (map f l) with (f <$> l). rewrite list_lookup_fmap, H. reflexivity. Qed.

(** The process table when [exit] reaches the scheduler, in stages. *)
Definition signal_parent (q : proc) : proc :=
  let q := q <| sigpending := Z.lor (sigpending q) (Z.shiftl 1 SIGCHLD) |> in
  if is_state SLEEPING q then q <| state := RUNNABLE |> else q.

Definition dying (st : Z) (p : proc) : proc :=
  p <| ofile := replicate NOFILE 0 |> <| cwd := 0 |> <| exitstatus := st |>.

Definition exit_table (c q : nat) (st : Z) (l : list proc) : list proc :=
  map (fun p => if is_state SLEEPING p && (chan p =? proc_chan q) then p <| state := RUNNABLE |> else p)
    (alter signal_parent q (alter (dying st) c l)).

Lemma alter_comm {A} (f g : A -> A) i j (l : list A) :
  i <> j -> alter f i (alter g j l) = alter g j (alter f i l).
Proof.
  revert i j. induction l as [|x l IH]; intros [|i] [|j] H; try reflexivity; [congruence|].
  cbn. f_equal. apply IH. congruence.
Qed.

Definition exit_calls (p : proc) : list call :=
  map CFileClose (filter (fun f => nz f = true) (ofile p)) ++ [CBeginOp; CIput (cwd p); CEndOp].

Lemma exit_run s c cp q qp st :
  cur s = Some c -> ptable s !! c = Some cp -> ptlocked s = false -> depth s = 0 ->
  initproc s <> Some c -> length (ptable s) = NPROC ->
  parent cp = Some q -> q <> c -> ptable s !! q = Some qp -> sighandlers qp !! Z.to_nat SIGCHLD <> Some 1 ->
  exists l', pointwise (fun j p p' => woken (adopted c (initproc s) 0 NPROC j p) p')
      (exit_table c q st (ptable s)) l'
    /\ exit st s = Block 0 (s <| ptable := alter (fun p => p <| state := ZOMBIE |>) c l' |>
         <| ptlocked := true |> <| depth := 1 |> <| calls := calls s ++ exit_calls cp |>).
Proof.
  intros Hc Hcp Hl Hd Hi Hlen Hpar Hqc Hq Hh. destruct s as [tab np ip cu lk dp cl].
  cbn [ptable nextpid initproc cur ptlocked depth calls] in *. subst cu lk dp.
  unfold exit. pstep1. pstep1. cbv zeta. erewrite bind_step by reflexivity. psimp.
  rewrite bool_decide_false by congruence. rewrite Hpar.
  erewrite bind_step by apply close_files_Ok.
  rewrite pmod_bind, !emit_bind, pmod_bind. psimp. rewrite alter_alter.
  pstep1. rewrite bind_assoc, !pmod_bind. psimp. rewrite alter_alter.
  rewrite bind_assoc.
  erewrite bind_step by (apply pget_Ok, lookup_alter_same, lookup_alter_other; [congruence | exact Hq]).
  erewrite bind_step by reflexivity.
  match goal with |- context [bool_decide (sighandlers ?x !! _ = _)] =>
    replace (sighandlers x) with (sighandlers qp) by (destruct (is_state SLEEPING _); reflexivity) end.
  rewrite bool_decide_false by exact Hh.
  rewrite pmod_bind. psimp. rewrite alter_comm, alter_alter by congruence.
  erewrite bind_step by reflexivity. psimp. erewrite bind_step by reflexivity. psimp.
  match goal with |- context [(reparent _ _ _ _ ≫= _) ?s0] =>
    change s0 with (PState (exit_table c q st tab) np ip (Some c) true 1
      ((((cl ++ map CFileClose (filter (fun f => nz f = true) (ofile cp))) ++ [CBeginOp])
         ++ [CIput (cwd cp)]) ++ [CEndOp])) end.
  destruct (reparent_Ok c ip NPROC 0 (PState (exit_table c q st tab) np ip (Some c) true 1
      ((((cl ++ map CFileClose (filter (fun f => nz f = true) (ofile cp))) ++ [CBeginOp])
         ++ [CIput (cwd cp)]) ++ [CEndOp]))) as (l' & E & P).
  { unfold exit_table. cbn [ptable]. rewrite length_map, !length_alter, Hlen. lia. }
  exists l'. split; [exact P|]. erewrite bind_step by exact E. rewrite pmod_bind. psimp.
  assert (is_Some (l' !! c)) as [cp' Hcp'].
  { apply lookup_lt_is_Some. rewrite (proj1 P). unfold exit_table. cbn [ptable].
    rewrite length_map, !length_alter. apply lookup_lt_Some with cp. exact Hcp. }
  unfold sched. pstep1. erewrite bind_step by (apply pget_Ok, lookup_alter_same; exact Hcp').
  erewrite bind_step by reflexivity. unfold exit_calls. rewrite !app_assoc. 
  change (is_state RUNNING (cp' <| state := ZOMBIE |>)) with false. psimp. unfold block.
  rewrite <-!app_assoc. reflexivity.
Qed.

Lemma exit_table_lookup c q st l j p :
  c <> q -> l !! j = Some p ->
  exists p', exit_table c q st l !! j = Some p'
    /\ woken (if decide (j = c) then dying st p else if decide (j = q) then signal_parent p else p) p'.
Proof.
  intros Hne Hp. destruct (pointwise_alter (dying st) c l) as [_ H1].
  destruct (H1 j p Hp) as (p1 & Hp1 & E1).
  destruct (pointwise_alter signal_parent q (alter (dying st) c l)) as [_ H2].
  destruct (H2 j p1 Hp1) as (p2 & Hp2 & E2).
  destruct (pointwise_wake (proc_chan q) (alter signal_parent q (alter (dying st) c l))) as [_ H3].
  destruct (H3 j p2 Hp2) as (p3 & Hp3 & E3). exists p3. split; [exact Hp3|].
  subst p1 p2. repeat case_decide; congruence || assumption.
Qed.

Lemma signal_parent_pending q :
  Z.testbit (sigpending (signal_parent q)) SIGCHLD = true /\ state (signal_parent q) <> SLEEPING
  /\ pid (signal_parent q) = pid q /\ parent (signal_parent q) = parent q.
Proof.
  unfold signal_parent. set (r := q <| sigpending := _ |>).
  assert (Z.testbit (sigpending r) SIGCHLD = true) as Hb.
  { change (sigpending r) with (Z.lor (sigpending q) (Z.shiftl 1 SIGCHLD)).
    rewrite Z.lor_spec. change (Z.testbit (Z.shiftl 1 SIGCHLD) SIGCHLD) with true. apply orb_true_r. }
  destruct (is_state SLEEPING r) eqn:E.
  - split_and!; [exact Hb | discriminate | reflexivity..].
  - apply is_state_false in E. split_and!; [exact Hb | exact E | reflexivity..].
Qed.

Lemma frame_trans p q r : frame p q -> frame q r -> frame p r.
Proof.
  intros [E1 S1] [E2 S2]. split; [congruence|].
  destruct S1 as [S1 | [S1 S1']], S2 as [S2 | [S2 S2']]; rewrite ?S1, ?S2 in *; auto; congruence.
Qed.

Lemma frame_signal_parent p : frame p (signal_parent p).
Proof. apply (frame_trans p (p <| sigpending := Z.lor (sigpending p) (Z.shiftl 1 SIGCHLD) |>)); [split; auto|]. apply frame_wake_self. Qed.

(** C13. exit, when the parent does not ignore SIGCHLD, reaches the scheduler with
    [ptable.lock] held as [sched] requires; the process is a zombie that keeps
    its pid and its exit status and has no open file; each file and the current
    directory were given back once, the latter inside a log operation; the
    parent has SIGCHLD pending and is not left asleep; every child of the dead
    process now belongs to init and no other parent link, pid or state changes. *)
Theorem exit_becomes_zombie s c cp q qp st :
  cur s = Some c -> ptable s !! c = Some cp -> state cp = RUNNING -> ptlocked s = false ->
  depth s = 0 -> initproc s <> Some c -> length (ptable s) = NPROC ->
  parent cp = Some q -> q <> c -> ptable s !! q = Some qp ->
  sighandlers qp !! Z.to_nat SIGCHLD <> Some 1 ->
  exists s' z qp', exit st s = Block 0 s' /\ ptlocked s' = true /\ depth s' = 1
    /\ ptable s' !! c = Some z /\ state z = ZOMBIE /\ pid z = pid cp /\ exitstatus z = st
    /\ ofile z = replicate NOFILE 0 /\ calls s' = calls s ++ exit_calls cp
    /\ ptable s' !! q = Some qp' /\ Z.testbit (sigpending qp') SIGCHLD = true /\ state qp' <> SLEEPING
    /\ (forall j p, j <> c -> ptable s !! j = Some p -> exists p', ptable s' !! j = Some p'
          /\ frame p p' /\ parent p' = if decide (parent p = Some c) then initproc s else parent p).
Proof.
  intros Hc Hcp Hr Hl Hd Hi Hlen Hpar Hqc Hq Hh.
  destruct (exit_run s c cp q qp st) as (l' & [Ll' P] & E); try assumption.
  assert (forall j p, ptable s !! j = Some p -> exists p', l' !! j = Some p' /\
    let p1 := if decide (j = c) then dying st p else if decide (j = q) then signal_parent p else p in
    woken (adopted c (initproc s) 0 NPROC j p1) p' /\ (j < NPROC)%nat) as Hall.
  { intros j p Hp. destruct (exit_table_lookup c q st (ptable s) j p) as (p1 & Hp1 & W1); [congruence | exact Hp|].
    destruct (P j p1 Hp1) as (p2 & Hp2 & W2). exists p2. split; [exact Hp2|]. split.
    - eapply woken_trans; [apply woken_adopted, W1 | exact W2].
    - rewrite <-Hlen. apply lookup_lt_Some with p. exact Hp. }
  destruct (Hall c cp Hcp) as (z & Hz & Wz & _). destruct (Hall q qp Hq) as (qp' & Hq' & Wq & _).
  rewrite decide_True in Wz by reflexivity.
  rewrite decide_False, decide_True in Wq by congruence.
  apply woken_state in Wz; [|rewrite (adopted_proj state) by reflexivity; change (state cp <> SLEEPING); congruence].
  destruct (signal_parent_pending qp) as (Hb & Hs & _).
  apply woken_state in Wq; [|rewrite (adopted_proj state) by reflexivity; exact Hs]. subst z qp'.
  eexists _, _, _. split; [exact E|]. do 2 (split; [reflexivity|]).
  split; [apply lookup_alter_same, Hz|]. split; [reflexivity|].
  split; [exact (adopted_proj pid _ _ _ _ _ _ (fun _ _ => eq_refl))|].
  split; [exact (adopted_proj exitstatus _ _ _ _ _ _ (fun _ _ => eq_refl))|].
  split; [exact (adopted_proj ofile _ _ _ _ _ _ (fun _ _ => eq_refl))|].
  split; [reflexivity|]. split; [apply lookup_alter_other; [congruence | exact Hq']|].
  split; [rewrite (adopted_proj sigpending) by reflexivity; exact Hb|].
  split; [rewrite (adopted_proj state) by reflexivity; exact Hs|].
  intros j p Hj Hp. destruct (Hall j p Hp) as (p' & Hp' & W & Hlt). rewrite decide_False in W by exact Hj.
  exists p'. split; [apply lookup_alter_other; [congruence | exact Hp']|].
  set (p1 := if decide (j = q) then signal_parent p else p) in *.
  assert (frame p p1 /\ parent p1 = parent p) as [F1 Ep].
  { subst p1. case_decide; [|split; [split|]; auto]. split; [apply frame_signal_parent|].
    apply signal_parent_pending. }
  split.
  - apply (frame_trans p p1 p' F1). destruct W as [-> | [Hsl ->]].
    + split; [exact (adopted_proj pid _ _ _ _ _ _ (fun _ _ => eq_refl))|].
      left. exact (adopted_proj state _ _ _ _ _ _ (fun _ _ => eq_refl)).
    + rewrite (adopted_proj state) in Hsl by reflexivity.
      split; [exact (adopted_proj pid _ _ _ _ _ _ (fun _ _ => eq_refl))|]. right. auto.
  - rewrite (woken_proj parent _ _ (fun _ => eq_refl) W). unfold adopted. rewrite Ep.
    destruct (decide (parent p = Some c)).
    + rewrite decide_True by (split; [lia | assumption]). reflexivity.
    + rewrite decide_False by tauto. exact Ep.
Qed.

Definition parent_slot : proc := zero_proc <| state := SLEEPING |> <| pid := 1 |> <| chan := proc_chan 0 |>.
Definition child_slot : proc :=
  zero_proc <| state := RUNNING |> <| pid := 2 |> <| parent := Some 0%nat |> <| ofile := [5] |>.
Definition family : pstate :=
  PState (parent_slot :: child_slot :: replicate 62 zero_proc) 3 (Some 0%nat) (Some 1%nat) false 0 [].

Lemma exit_becomes_zombie_witness : exists s' z, exit 7 family = Block 0 s'
  /\ ptable s' !! 1%nat = Some z /\ state z = ZOMBIE /\ exitstatus z = 7
  /\ calls s' = [CFileClose 5; CBeginOp; CIput 0; CEndOp].
Proof.
  destruct (exit_becomes_zombie family 1 child_slot 0 parent_slot 7)
    as (s' & z & qp & H & _ & _ & Hz & Hs & _ & He & _ & Hcl & _); try (vm_compute; reflexivity); try discriminate.
  exists s', z. split_and!; assumption.
Defined.

Lemma release_sched_panics s c p :
  ptlocked s = true -> cur s = Some c -> ptable s !! c = Some p ->
  (release_pt;; sched 0) s = Panic "sched ptable.lock".
Proof.
  intros Hl Hc Hp. destruct s as [tab np ip cu lk dp cl].
  cbn [ptable cur ptlocked] in *. subst. unfold release_pt, sched, myproc, pget. mstep.
  cbn [negb ptlocked cur ptable assign]. rewrite Hp. reflexivity.
Qed.

(** When the parent ignores SIGCHLD (handler 1, what [allocproc] installs),
    exit gives up [ptable.lock] before it calls [sched], whose first check
    panics. *)
Theorem exit_ignored_sigchld_panics s c cp q qp st :
  cur s = Some c -> ptable s !! c = Some cp -> ptlocked s = false -> depth s = 0 ->
  initproc s <> Some c -> parent cp = Some q -> q <> c -> ptable s !! q = Some qp ->
  sighandlers qp !! Z.to_nat SIGCHLD = Some 1 ->
  exit st s = Panic "sched ptable.lock".
Proof.
  intros Hc Hcp Hl Hd Hi Hpar Hqc Hq Hh. destruct s as [tab np ip cu lk dp cl].
  cbn [ptable nextpid initproc cur ptlocked depth calls] in *. subst cu lk dp.
  unfold exit. pstep1. pstep1. cbv zeta. erewrite bind_step by reflexivity. psimp.
  rewrite bool_decide_false by congruence. rewrite Hpar.
  erewrite bind_step by apply close_files_Ok.
  rewrite pmod_bind, !emit_bind, pmod_bind. psimp. rewrite alter_alter.
  pstep1. rewrite bind_assoc, !pmod_bind. psimp. rewrite alter_alter.
  rewrite bind_assoc.
  erewrite bind_step by (apply pget_Ok, lookup_alter_same, lookup_alter_other; [congruence | exact Hq]).
  erewrite bind_step by reflexivity.
  match goal with |- context [bool_decide (sighandlers ?x !! _ = _)] =>
    replace (sighandlers x) with (sighandlers qp) by (destruct (is_state SLEEPING _); reflexivity) end.
  rewrite bool_decide_true by exact Hh.
  rewrite pmod_bind. psimp. rewrite alter_comm, alter_alter by congruence.
  erewrite bind_step by reflexivity. eapply release_sched_panics; [reflexivity..|].
  apply map_lookup_Some, lookup_alter_other; [congruence | apply lookup_alter_same; exact Hcp].
Qed.

Lemma exit_ignored_sigchld_panics_witness :
  exit 0 (PState [zero_proc <| sighandlers := <[17%nat := 1]> (replicate NSIG 0) |>; child_slot] 3
            (Some 0%nat) (Some 1%nat) false 0 []) = Panic "sched ptable.lock".
Proof.
  apply (exit_ignored_sigchld_panics _ 1 child_slot 0
    (zero_proc <| sighandlers := <[17%nat := 1]> (replicate NSIG 0) |>)); try reflexivity; discriminate.
Defined.

(** ** The scheduler *)

(** Slots passed over when the loop goes from [k] to [i], wrapping at [n]. *)
Definition ahead (n k i : nat) : nat := if (k <=? i)%nat then i - k else n - k + i.

Lemma scheduler_next_close k l i d p :
  (k <= length l)%nat -> l !! i = Some p -> state p = RUNNABLE ->
  scheduler_next k l = Some d -> d <> i ->
  (ahead (length l) (S d) i < ahead (length l) k i)%nat.
Proof.
  intros Hk Hp Hs Hn Hd. unfold scheduler_next in Hn.
  pose proof (lookup_lt_Some _ _ _ Hp) as Hi.
  apply is_state_true in Hs. unfold ahead.
  destruct (scan_from _ (drop k l) k) as [j|] eqn:E.
  - injection Hn as <-. destruct (scan_from_Some _ _ _ _ E) as (Hle & (q & Hq & _) & Hmin).
    apply lookup_lt_Some in Hq. rewrite length_drop in Hq.
    destruct (Nat.leb_spec k i).
    + destruct (Nat.lt_trichotomy i j) as [Hij | [Hij | Hij]]; [|congruence|].
      * exfalso. rewrite (Hmin i p) in Hs; [discriminate | lia|].
        rewrite lookup_drop. replace (k + (i - k))%nat with i by lia. exact Hp.
      * destruct (Nat.leb_spec (S j) i); lia.
    + destruct (Nat.leb_spec (S j) i); lia.
  - destruct (Nat.leb_spec k i).
    { exfalso. rewrite (scan_from_None _ _ _ E (i - k)%nat p) in Hs; [discriminate|].
      rewrite lookup_drop. replace (k + (i - k))%nat with i by lia. exact Hp. }
    destruct (scan_Some _ _ _ Hn) as ((q & Hq & _) & Hmin). apply lookup_lt_Some in Hq.
    assert (d < i)%nat.
    { destruct (Nat.lt_trichotomy d i) as [? | [? | Hid]]; [assumption | congruence|].
      rewrite (Hmin i p Hid Hp) in Hs. discriminate. }
    destruct (Nat.leb_spec (S d) i); lia.
Qed.

(** The scheduler's dispatches: at slot [k] with the table [l 0], the next one
    resumes after the dispatched slot with the table of that moment. *)
Inductive dispatches (l : nat -> list proc) (i : nat) : nat -> nat -> nat -> Prop :=
| dispatched t k : scheduler_next k (l t) = Some i -> dispatches l i t k 0
| dispatched_other t k d n : scheduler_next k (l t) = Some d -> d <> i ->
    dispatches l i (S t) (S d) n -> dispatches l i t k (S n).

Lemma dispatches_within l i : forall m t k,
  (forall t', length (l t') = NPROC) ->
  (forall t', exists p, l t' !! i = Some p /\ state p = RUNNABLE) ->
  (k <= NPROC)%nat -> (ahead NPROC k i < m)%nat -> exists n, (n < m)%nat /\ dispatches l i t k n.
Proof.
  induction m as [|m IH]; intros t k Hlen Hrun Hk Hm; [lia|].
  destruct (Hrun t) as (p & Hp & Hs). destruct (scheduler_next k (l t)) as [d|] eqn:E.
  - destruct (decide (d = i)) as [-> | Hd].
    + exists 0%nat. split; [lia | constructor; exact E].
    + pose proof (scheduler_next_runnable k _ _ E) as (q & Hq & _). apply lookup_lt_Some in Hq.
      pose proof (scheduler_next_close k (l t) i d p) as Hcl. rewrite (Hlen t) in Hcl, Hq.
      specialize (Hcl Hk Hp Hs E Hd).
      destruct (IH (S t) (S d) Hlen Hrun) as (n & Hn & HD); [lia | lia|].
      exists (S n). split; [lia|]. apply dispatched_other with d; assumption.
  - exfalso. unfold scheduler_next in E. destruct (scan_from _ (drop k (l t)) k); [discriminate|].
    pose proof (scan_None _ _ E i p Hp) as Hf. apply is_state_false in Hf. contradiction.
Qed.

(** C15. The scheduler is fair: a process that stays [RUNNABLE] is dispatched
    after at most NPROC - 1 dispatches of others, from whatever slot the loop
    stands at and however the table changes between dispatches. *)
Theorem scheduler_round_robin l i k :
  (forall t, length (l t) = NPROC) -> (forall t, exists p, l t !! i = Some p /\ state p = RUNNABLE) ->
  (k <= NPROC)%nat -> exists n, (n < NPROC)%nat /\ dispatches l i 0 k n.
Proof.
  intros Hlen Hrun Hk. destruct (Hrun 0%nat) as (p & Hp & _). apply lookup_lt_Some in Hp.
  rewrite Hlen in Hp. destruct (dispatches_within l i NPROC 0 k Hlen Hrun Hk) as (n & Hn & HD).
  - unfold ahead. destruct (Nat.leb_spec k i); lia.
  - exists n. split; [exact Hn | exact HD].
Qed.

Lemma scheduler_round_robin_witness : exists n, (n < NPROC)%nat
  /\ dispatches (fun _ => replicate NPROC (zero_proc <| state := RUNNABLE |>)) 3 0 60 n.
Proof.
  apply scheduler_round_robin; [reflexivity | | unfold NPROC; lia].
  intros _. eexists. split; [reflexivity | reflexivity].
Defined.

(** ** sleep and wakeup *)



(** ** kill *)

(** What kill does to the process it found. *)
Definition signalled (sig : Z) (p : proc) : proc :=
  let p := if is_state ZOMBIE p then p else p <| exitstatus := sig |> in
  let p := if is_state SLEEPING p then p <| state := RUNNABLE |> else p in
  p <| sigpending := Z.lor (sigpending p) (u32 (Z.shiftl 1 (sig mod 32))) |>.

Lemma signalled_spec sig p :
  0 <= sig < 32 -> Z.testbit (sigpending (signalled sig p)) sig = true
    /\ state (signalled sig p) <> SLEEPING /\ frame p (signalled sig p).
Proof.
  intros Hs. unfold signalled. set (p1 := if is_state ZOMBIE p then p else p <| exitstatus := sig |>).
  assert (frame p p1) as F1 by (subst p1; destruct (is_state ZOMBIE p); split; auto).
  set (p2 := if is_state SLEEPING p1 then p1 <| state := RUNNABLE |> else p1).
  assert (frame p p2 /\ state p2 <> SLEEPING) as [F2 H2].
  { subst p2. split; [apply (frame_trans p p1); [exact F1 | apply frame_wake_self]|].
    destruct (is_state SLEEPING p1) eqn:E; [discriminate|]. apply is_state_false, E. }
  split_and!; [|exact H2 | apply (frame_trans p p2 _ F2); split; [reflexivity | left; reflexivity]].
  change (Z.testbit (Z.lor (sigpending p2) (u32 (Z.shiftl 1 (sig mod 32)))) sig = true).
  rewrite Z.lor_spec, uwrap_testbit, Z.mod_small, Z.shiftl_spec, Z.sub_diag by lia.
  rewrite (proj2 (Z.ltb_lt sig 32)) by lia. apply orb_true_r.
Qed.

Section kill.
Context (s : pstate) (i : nat) (me : proc) (want sig : Z).
Context (Hc : cur s = Some i) (Hme : ptable s !! i = Some me) (Hl : ptlocked s = false).

Lemma kill_unknown :
  scan (fun _ p => pid p =? want) (ptable s) = None -> kill want sig s = Ok (- ESRCH) s.
Proof.
  intros Hsc. destruct s as [tab np ip cu lk dp cl].
  cbn [ptable cur ptlocked] in *. subst cu lk.
  unfold kill. pstep1. pstep1. erewrite bind_step by reflexivity. psimp. rewrite Hsc. pstep1.
  psimp. unfold mret, M_ret. f_equal. cbv -[Z.add Z.sub]. f_equal. lia.
Qed.

Lemma kill_found k p :
  scan (fun _ p => pid p =? want) (ptable s) = Some k -> ptable s !! k = Some p ->
  kill want sig s =
    if nz (uid me) && negb (uid p =? uid me) then Ok 1 s
    else Ok 0 (s <| ptable := alter (signalled sig) k (ptable s) |>).
Proof.
  intros Hsc Hp. destruct s as [tab np ip cu lk dp cl].
  cbn [ptable cur ptlocked] in *. subst cu lk.
  unfold kill. pstep1. pstep1. erewrite bind_step by reflexivity. psimp. rewrite Hsc.
  erewrite bind_step by (apply pget_Ok; exact Hme). erewrite bind_step by (apply pget_Ok; exact Hp).
  destruct (_ && _).
  { pstep1. psimp. unfold mret, M_ret. f_equal. cbv -[Z.add Z.sub]. f_equal. lia. }
  assert (forall f, f p = signalled sig p -> alter f k tab = alter (signalled sig) k tab) as Hf.
  { intros f E. apply list_alter_ext; [|reflexivity]. intros q Hq. rewrite Hp in Hq. injection Hq as <-. exact E. }
  unfold when. destruct (is_state ZOMBIE p) eqn:Ez, (is_state SLEEPING p) eqn:Es; cbn [negb];
    repeat first [rewrite pmod_bind | erewrite bind_step by reflexivity];
    psimp; rewrite ?alter_alter; (rewrite Hf; [|unfold signalled; rewrite Ez;
      change (is_state SLEEPING (p <| exitstatus := sig |>)) with (is_state SLEEPING p);
      rewrite Es; reflexivity]);
    generalize (alter (signalled sig) k tab); intros tab';
    unfold mret, M_ret; f_equal; cbv -[Z.add Z.sub]; f_equal; lia.
Qed.
End kill.

(** kill on all its paths: an unknown pid is -ESRCH and a process of another
    user is refused (the code returns 1) without any effect; otherwise the
    signal is pending in the target, which is not left asleep, and no other
    process changes. *)
Theorem kill_correct s i me want sig :
  cur s = Some i -> ptable s !! i = Some me -> ptlocked s = false -> 0 <= sig < 32 ->
  ((forall k p, ptable s !! k = Some p -> pid p <> want) /\ kill want sig s = Ok (- ESRCH) s)
  \/ (exists k p, ptable s !! k = Some p /\ pid p = want
      /\ ((uid me <> 0 /\ uid p <> uid me /\ kill want sig s = Ok 1 s)
          \/ ((uid me = 0 \/ uid p = uid me)
              /\ exists s' p', kill want sig s = Ok 0 s' /\ ptable s' !! k = Some p'
                 /\ Z.testbit (sigpending p') sig = true /\ state p' <> SLEEPING /\ frame p p'
                 /\ (forall j, j <> k -> ptable s' !! j = ptable s !! j)
                 /\ ptlocked s' = false /\ calls s' = calls s))).
Proof.
  intros Hc Hme Hl Hsig. destruct (scan (fun _ p => pid p =? want) (ptable s)) as [k|] eqn:Hsc.
  - right. destruct (scan_Some _ _ _ Hsc) as ((p & Hp & Hf) & _). apply Z.eqb_eq in Hf.
    exists k, p. do 2 (split; [assumption|]).
    rewrite (kill_found s i me want sig Hc Hme Hl k p Hsc Hp).
    destruct (nz (uid me) && negb (uid p =? uid me)) eqn:E.
    + left. apply andb_prop in E as [E1 E2]. apply nz_true in E1. apply negb_true_iff, Z.eqb_neq in E2. auto.
    + right. split.
      { apply andb_false_iff in E as [E | E]; [left; apply nz_false, E | right].
        apply negb_false_iff, Z.eqb_eq in E. exact E. }
      destruct (signalled_spec sig p Hsig) as (H1 & H2 & H3).
      eexists _, (signalled sig p). split; [reflexivity|]. split; [apply lookup_alter_same, Hp|].
      do 3 (split; [assumption|]). split; [|split; [exact Hl | reflexivity]].
      intros j Hj. apply list_lookup_alter_ne. congruence.
  - left. split; [|apply (kill_unknown s i me want sig Hc Hme Hl Hsc)].
    intros k p Hp E. apply Z.eqb_eq in E. rewrite (scan_None _ _ Hsc k p Hp) in E. discriminate.
Qed.

Lemma kill_correct_witness : exists s' p',
  kill 1 9 family = Ok 0 s' /\ ptable s' !! 0%nat = Some p'
  /\ Z.testbit (sigpending p') 9 = true /\ state p' <> SLEEPING.
Proof.
  destruct (kill_correct family 1 child_slot 1 9) as [(Hn & _) | (k & p & Hp & Hpid & [(Hu & _) | (_ & s' & p' & H1 & H2 & H3 & H4 & _)])];
    try reflexivity; try (cbn; lia).
  - exfalso. exact (Hn 0%nat parent_slot eq_refl eq_refl).
  - exfalso. apply Hu. reflexivity.
  - destruct k as [|k].
    + exists s', p'. split_and!; assumption.
    + exfalso. destruct k as [|k]; [injection Hp as <-; discriminate|].
      change (replicate 62 zero_proc !! k = Some p) in Hp. apply lookup_replicate in Hp as [-> _].
      discriminate.
Defined.
