(* ===== verification/Syscall.v ===== *)
(** * System call arguments (src/kernel/sys/syscall.c)

    A system call finds its arguments in the registers of the trap frame and in
    the memory of the process, which the kernel reads through the process's own
    page table: [umem].  The result of a fetch is [None] where the C function
    returns -1.  A pointer argument is its address. *)
From Stdlib Require Import ZArith Lia.
From stdpp Require Import base numbers list strings.
From S2P Require Import Prelude KString Proc.
Local Open Scope Z_scope.

Definition EPERM : Z := 1.
Definition ENOENT : Z := 2.
Definition EINTR : Z := 4.
Definition EIO : Z := 5.
Definition EBADF : Z := 9.
Definition EACCES : Z := 13.
Definition EFAULT : Z := 14.
Definition EEXIST : Z := 17.
Definition ENOTDIR : Z := 20.
Definition EINVAL : Z := 22.
Definition EMFILE : Z := 24.
Definition ESPIPE : Z := 29.
Definition ENOSYS : Z := 38.
Definition ENOTEMPTY : Z := 39.

(** [argint(n, ip)]: the register, as an int. *)
Definition argint (p : proc) (n : nat) : option Z :=
  match n with
  | 0 => Some (i32 (ebx (tf p)))
  | 1 => Some (i32 (ecx (tf p)))
  | 2 => Some (i32 (edx (tf p)))
  | 3 => Some (i32 (esi (tf p)))
  | 4 => Some (i32 (edi (tf p)))
  | 5 => Some (i32 (ebp (tf p)))
  | _ => None
  end%nat.

(** The int at [addr]. *)
Definition fetchint (p : proc) (umem : mem) (addr : Z) : option Z :=
  if (sz p <=? addr) || (sz p <? u32 (addr + 4)) then None else Some (i32 (load32 umem addr)).

(** The scan for the nul byte, [k] bytes from [s] on. *)
Fixpoint nul_at (umem : mem) (s : Z) (k : nat) : option Z :=
  match k with
  | O => None
  | S k' => if umem s =? 0 then Some s else nul_at umem (s + 1) k'
  end.

(** The pointer and the length of the string. *)
Definition fetchstr (p : proc) (umem : mem) (addr : Z) : option (Z * Z) :=
  if sz p <=? addr then None
  else match nul_at umem addr (Z.to_nat (sz p - addr)) with
       | Some s => Some (addr, s - addr)
       | None => None
       end.

Definition argptr (p : proc) (n : nat) (size : Z) : option Z :=
  match argint p n with
  | None => None
  | Some i =>
      if (size <? 0) || (sz p <=? u32 i) || (sz p <? u32 (u32 i + size)) then None
      else Some (u32 i)
  end.

Definition argstr (p : proc) (umem : mem) (n : nat) : option (Z * Z) :=
  match argint p n with
  | None => None
  | Some addr => fetchstr p umem (u32 addr)
  end.

(** The bytes of a string argument, without its nul. *)
Definition ustr (umem : mem) (s : Z * Z) : list Z :=
  map (fun i => umem (s.1 + Z.of_nat i)) (seq 0 (Z.to_nat s.2)).

(** syscall: the handler of the number in [%eax], its result in [%eax].  The
    table is an argument; [curproc] and [set_curproc] reach the running process
    in the state the handlers work on. *)
Definition syscall {S} (curproc : S -> proc) (set_curproc : proc -> S -> S)
    (syscalls : list (option (M S Z))) : M S unit :=
  s ← get;
  let num := i32 (eax (tf (curproc s))) in
  r ← (if 0 <=? num then
         match syscalls !! Z.to_nat num with
         | Some (Some f) => f
         | _ => mret (- ENOSYS)
         end
       else mret (- ENOSYS));
  modify (fun s => let p := curproc s in set_curproc (p <| tf := tf p <| eax := u32 r |> |>) s).

(** ** Theorems *)

Lemma argint_range p n v : argint p n = Some v -> in_s 32 v.
Proof. destruct n as [|[|[|[|[|[|n]]]]]]; intros [= <-]; apply (swrap_range 32); reflexivity. Qed.

Lemma argint_some p n : (n < 6)%nat -> exists v, argint p n = Some v /\ in_s 32 v.
Proof.
  intros Hn. destruct (argint p n) as [v|] eqn:E; [exists v; split; [reflexivity | exact (argint_range _ _ _ E)]|].
  do 6 (destruct n as [|n]; [discriminate|]). lia.
Qed.

Lemma nul_at_spec umem k : forall s,
  match nul_at umem s k with
  | Some e => s <= e < s + Z.of_nat k /\ umem e = 0 /\ (forall x, s <= x < e -> umem x <> 0)
  | None => forall x, s <= x < s + Z.of_nat k -> umem x <> 0
  end.
Proof.
  induction k as [|k IH]; intros s; cbn [nul_at]; [lia|].
  destruct (Z.eqb_spec (umem s) 0) as [E | Hne]; [split_and!; lia|]. specialize (IH (s + 1)).
  destruct (nul_at umem (s + 1) k) as [e|].
  - destruct IH as (H1 & H2 & H3). split_and!; [lia | lia | exact H2|]. intros x Hx.
    destruct (Z.eq_dec x s) as [-> | Hxs]; [exact Hne | apply H3; lia].
  - intros x Hx. destruct (Z.eq_dec x s) as [-> | Hxs]; [exact Hne | apply IH; lia].
Qed.

(** C31. A process of at most 2 GiB cannot pass a buffer that leaves its memory: when
    argptr accepts a pointer and a size, every byte of the buffer is an address
    below [sz]; and every such buffer of at least one byte is accepted. *)
Theorem argptr_bounds p n size v :
  0 <= sz p <= 2 ^ 31 -> in_s 32 size -> (n < 6)%nat ->
  argptr p n size = Some v <->
  0 <= size /\ (exists i, argint p n = Some i /\ v = u32 i) /\ v < sz p /\ v + size <= sz p.
Proof.
  intros Hsz Hsize Hn. destruct (argint_some p n Hn) as (i & Ei & _). unfold argptr. rewrite Ei.
  pose proof (uwrap_range 32 ltac:(lia) i) as Hu. unfold in_s, in_u in *. change (2 ^ (32 - 1)) with 2147483648 in *.
  change (2 ^ 31) with 2147483648 in *. change (2 ^ 32) with 4294967296 in *.
  destruct (Z.ltb_spec size 0); cbn [orb].
  { split; [discriminate | lia]. }
  destruct (Z.leb_spec (sz p) (u32 i)); cbn [orb].
  { split; [discriminate|]. intros (_ & (j & [= <-] & ->) & ? & _). lia. }
  rewrite (uwrap_id 32 (u32 i + size)) by (unfold in_u; change (2 ^ 32) with 4294967296; lia).
  destruct (Z.ltb_spec (sz p) (u32 i + size)).
  - split; [discriminate|]. intros (_ & (j & [= <-] & ->) & _ & ?). lia.
  - split; [intros [= <-]; split_and!; eauto; lia | intros (_ & (j & [= <-] & ->) & _); reflexivity].
Qed.

(** A larger process can: the end of the buffer is computed in 32 bits, so a
    buffer that runs past the top of the address space is accepted. *)
Theorem argptr_wraps :
  exists p v, argptr p 0 2147483647 = Some v /\ sz p < v + 2147483647.
Proof.
  exists (Proc 3221225472 0 0 RUNNING 1 None (zero_tf <| ebx := 3221159936 |>) 0 0 [] 0 EmptyString 0 0 0 0 0 0 0 0 0 [] [] 0 0 0 0 0 0 0 0 0 0 []).
  exists 3221159936. split; [vm_compute; reflexivity | vm_compute; reflexivity].
Qed.

(** A string argument is a nul-terminated string inside the process: its first
    nul byte is found below [sz], and a string with none there is refused. *)
Theorem argstr_correct p umem n :
  (n < 6)%nat ->
  match argstr p umem n with
  | Some (a, len) => 0 <= len /\ a + len < sz p /\ umem (a + len) = 0 /\ (forall x, a <= x < a + len -> umem x <> 0)
      /\ (exists i, argint p n = Some i /\ a = u32 i)
  | None => forall i x, argint p n = Some i -> u32 i <= x < sz p -> umem x <> 0
  end.
Proof.
  intros Hn. destruct (argint_some p n Hn) as (i & Ei & _). unfold argstr. rewrite Ei. unfold fetchstr.
  destruct (Z.leb_spec (sz p) (u32 i)); [intros j x [= <-]; lia|].
  pose proof (nul_at_spec umem (Z.to_nat (sz p - u32 i)) (u32 i)) as Hs. rewrite Z2Nat.id in Hs by lia.
  destruct (nul_at umem (u32 i) _) as [e|].
  - destruct Hs as (H1 & H2 & H3). replace (u32 i + (e - u32 i)) with e by lia. split_and!; eauto; lia.
  - intros j x [= <-] Hx. apply Hs. lia.
Qed.

(** A process of one page with its first argument in [%ebx]. *)
Definition arg_proc (a : Z) : proc :=
  Proc 4096 0 0 RUNNING 1 None (zero_tf <| ebx := a |>) 0 0 [] 0 EmptyString 0 0 0 0 0 0 0 0 0 [] [] 0 0 0 0 0 0 0 0 0 0 [].

Lemma argptr_bounds_witness : argptr (arg_proc 4000) 0 96 = Some 4000 /\ argptr (arg_proc 4000) 0 97 <> Some 4000.
Proof.
  split.
  - apply (argptr_bounds (arg_proc 4000) 0 96 4000); [vm_compute; split; discriminate | vm_compute; split; congruence | lia|].
    split_and!; [lia | exists 4000; split; reflexivity | vm_compute; reflexivity | vm_compute; discriminate].
  - intros H. apply (argptr_bounds (arg_proc 4000) 0 97 4000) in H; [|vm_compute; split; discriminate | vm_compute; split; congruence | lia].
    destruct H as (_ & _ & _ & H). vm_compute in H. contradiction.
Defined.

Lemma argstr_correct_witness :
  match argstr (arg_proc 4000) (fun x => if x =? 4003 then 0 else 65) 0 with
  | Some (a, len) => 0 <= len /\ a + len < 4096
  | None => False
  end.
Proof.
  pose proof (argstr_correct (arg_proc 4000) (fun x => if x =? 4003 then 0 else 65) 0 ltac:(lia)) as H.
  destruct (argstr (arg_proc 4000) (fun x => if x =? 4003 then 0 else 65) 0) as [[a len]|] eqn:E; [|vm_compute in E; discriminate].
  destruct H as (H1 & H2 & _). split; [exact H1 | exact H2].
Defined.
