(* ===== verification/Cred.v ===== *)
(** * Credentials (src/kernel/sys/sys.c)

    The user and group ids of the running process and the calls that read and
    change them, with the session, file-mode mask and I/O privilege calls.  The
    state is the running process; ids are 16-bit fields of struct proc. *)
From Stdlib Require Import ZArith Lia.
From stdpp Require Import base numbers list strings relations.
From S2P Require Import Prelude KString Proc Syscall.
Local Open Scope Z_scope.

(** [suser()]: [myproc()->euid == 0] *)
Definition suser (p : proc) : bool := euid p =? 0.

(** [argint] of two and of three arguments, as the handlers fetch them. *)
Definition arg1 (k : Z -> M proc Z) : M proc Z :=
  p ← get; match argint p 0 with Some a => k a | None => mret (- EINVAL) end.
Definition arg2 (k : Z -> Z -> M proc Z) : M proc Z :=
  p ← get; match argint p 0, argint p 1 with Some a, Some b => k a b | _, _ => mret (- EINVAL) end.
Definition arg3 (k : Z -> Z -> Z -> M proc Z) : M proc Z :=
  p ← get;
  match argint p 0, argint p 1, argint p 2 with Some a, Some b, Some c => k a b c | _, _, _ => mret (- EINVAL) end.

Definition setreuid (ruid_arg euid_arg : Z) : M proc Z :=
  p ← get;
  let old_ruid := uid p in
  ok ← (if 0 <? ruid_arg then
          if (euid p =? ruid_arg) || (old_ruid =? ruid_arg) || suser p
          then modify (fun p => p <| uid := u16 ruid_arg |>);; mret true
          else mret false
        else mret true);
  if negb ok then mret (- EPERM)
  else if 0 <? euid_arg then
    p ← get;
    if (old_ruid =? euid_arg) || (euid p =? euid_arg) || suser p
    then modify (fun p => p <| euid := u16 euid_arg |>);; mret 0
    else modify (fun p => p <| uid := old_ruid |>);; mret (- EPERM)
  else mret 0.

Definition setregid (rgid_arg egid_arg : Z) : M proc Z :=
  p ← get;
  ok ← (if 0 <? rgid_arg then
          if (gid p =? rgid_arg) || suser p
          then modify (fun p => p <| gid := u16 rgid_arg |>);; mret true
          else mret false
        else mret true);
  if negb ok then mret (- EPERM)
  else if 0 <? egid_arg then
    p ← get;
    if (gid p =? egid_arg) || (egid p =? egid_arg) || (sgid p =? egid_arg) || suser p
    then modify (fun p => p <| egid := u16 egid_arg |>);; mret 0
    else mret (- EPERM)
  else mret 0.

Definition sys_setuid : M proc Z := arg1 (fun u => setreuid u u).
Definition sys_setgid : M proc Z := arg1 (fun g => setregid g g).
Definition sys_setreuid : M proc Z := arg2 setreuid.
Definition sys_setregid : M proc Z := arg2 setregid.
Definition sys_getuid : M proc Z := gets uid.
Definition sys_geteuid : M proc Z := gets euid.
Definition sys_getgid : M proc Z := gets gid.
Definition sys_getegid : M proc Z := gets egid.

Definition sys_setresuid : M proc Z := arg3 (fun u e v =>
  if (u <? -1) || (e <? -1) || (v <? -1) then mret (- EPERM)
  else
    p ← get;
    if negb (uid p =? 0) && negb (u =? -1) && negb (u =? uid p) && negb (u =? euid p) then mret (- EPERM)
    else if negb (uid p =? 0) && negb (e =? -1) && negb (e =? uid p) && negb (e =? suid p) then mret (- EPERM)
    else if negb (uid p =? 0) && negb (v =? -1) && negb (v =? euid p) then mret (- EPERM)
    else
      when (negb (u =? -1)) (modify (fun p => p <| uid := u16 u |>));;
      when (negb (e =? -1)) (modify (fun p => p <| euid := u16 e |>));;
      (if negb (v =? -1) then modify (fun p => p <| suid := u16 v |>)
       else when (negb (e =? -1)) (modify (fun p => p <| suid := euid p |>)));;
      mret 0).

Definition sys_setresgid : M proc Z := arg3 (fun g e v =>
  if (g <? -1) || (e <? -1) || (v <? -1) then mret (- EPERM)
  else
    p ← get;
    if negb (gid p =? 0) && negb (g =? -1) && negb (g =? gid p) && negb (g =? egid p) then mret (- EPERM)
    else if negb (gid p =? 0) && negb (e =? -1) && negb (e =? gid p) && negb (e =? sgid p) then mret (- EPERM)
    else if negb (gid p =? 0) && negb (v =? -1) && negb (v =? egid p) then mret (- EPERM)
    else
      when (negb (g =? -1)) (modify (fun p => p <| gid := u16 g |>));;
      when (negb (e =? -1)) (modify (fun p => p <| egid := u16 e |>));;
      (if negb (v =? -1) then modify (fun p => p <| sgid := u16 v |>)
       else when (negb (e =? -1)) (modify (fun p => p <| sgid := egid p |>)));;
      mret 0).

(** [ugroups] are the ints the process passed, at the address [argptr] accepted. *)
Definition sys_setgroups (umem : mem) : M proc Z :=
  p ← get;
  if negb (suser p) then mret (- EPERM)
  else match argint p 0 with
       | None => mret (- EINVAL)
       | Some n =>
           match argptr p 1 (i32 (n * 4)) with
           | None => mret (- EINVAL)
           | Some a =>
               if (n <? 0) || (Z.of_nat NGROUPS <? n) then mret (- EINVAL)
               else
                 let gs := map (fun i => i32 (load32 umem (a + 4 * Z.of_nat i))) (seq 0 (Z.to_nat n)) in
                 modify (fun p => p <| groups := gs ++ drop (length gs) (groups p) |>);;
                 mret 0
           end
       end.

Definition sys_setsid : M proc Z :=
  p ← get;
  if nz (leader p) && negb (suser p) then mret (- EPERM)
  else
    modify (fun p => p <| leader := 1 |>);;
    modify (fun p => p <| session := pid p |>);;
    modify (fun p => p <| pgrp := pid p |>);;
    modify (fun p => p <| tty := -1 |>);;
    gets pgrp.

(** The mask itself is fetched with [argptr], so it must be the address of four
    bytes of the process. *)
Definition sys_umask : M proc Z :=
  p ← get;
  match argptr p 0 4 with
  | None => mret (- EINVAL)
  | Some mask =>
      let old := umask p in
      modify (fun p => p <| umask := Z.land mask 511 |>);;
      mret old
  end.

Definition sys_iopl : M proc Z :=
  p ← get;
  if negb (suser p) then mret (- EPERM)
  else match argint p 0 with
       | None => mret (- EINVAL)
       | Some level =>
           if (level <? 0) || (3 <? level) then mret (- EINVAL)
           else
             modify (fun p => p <| tf := tf p <| eflags :=
               Z.lor (Z.land (eflags (tf p)) (Z.lnot 12288)) (Z.shiftl (Z.land level 3) 12) |> |>);;
             mret 0
       end.

Definition sys_alarm : M proc Z := arg1 (fun ticks =>
  if ticks <? 0 then mret (- EPERM)
  else
    old ← gets alarminterval;
    modify (fun p => p <| alarmticks := ticks |>);;
    modify (fun p => p <| alarminterval := ticks |>);;
    mret old).

(** ** What an unprivileged process can reach *)

Inductive cred_call : Type :=
| CSetuid | CSetgid | CSetreuid | CSetregid | CSetresuid | CSetresgid
| CSetgroups (umem : mem) | CSetsid | CUmask | CIopl | CAlarm.

Definition run_cred (c : cred_call) : M proc Z :=
  match c with
  | CSetuid => sys_setuid | CSetgid => sys_setgid
  | CSetreuid => sys_setreuid | CSetregid => sys_setregid
  | CSetresuid => sys_setresuid | CSetresgid => sys_setresgid
  | CSetgroups m => sys_setgroups m | CSetsid => sys_setsid | CUmask => sys_umask
  | CIopl => sys_iopl | CAlarm => sys_alarm
  end.

(** The process loads its registers as it likes and makes a call. *)
Inductive cred_step : proc -> proc -> Prop :=
| cred_step_call c regs p r p' : run_cred c (p <| tf := regs |>) = Ok r p' -> cred_step p p'.

Definition users (p : proc) : list Z := [uid p; euid p; suid p].
Definition groups_of (p : proc) : list Z := [gid p; egid p; sgid p].

(** The ids fit their fields. *)
Record ids_ok (p : proc) : Prop := IdsOk {
  io_u : Forall (in_u 16) (users p);
  io_g : Forall (in_u 16) (groups_of p);
  io_mask : 0 <= umask p < 512;
  io_groups : length (groups p) = NGROUPS
}.

(** Neither the user nor the group ids of [p] are root's. *)
Definition unprivileged (p : proc) : Prop := (0 ∉ users p) /\ (0 ∉ groups_of p).

Definition no_gain (p p' : proc) : Prop :=
  users p' ⊆ users p /\ groups_of p' ⊆ groups_of p /\ groups p' = groups p.

#[export] Instance no_gain_refl : Reflexive no_gain.
Proof. intros p. split_and!; [intros x Hx; exact Hx | intros x Hx; exact Hx | reflexivity]. Qed.
#[export] Instance no_gain_trans : Transitive no_gain.
Proof. intros p q r (H1 & H2 & H3) (K1 & K2 & K3). split_and!; [intros x Hx; auto | intros x Hx; auto | congruence]. Qed.

Lemma no_gain_unprivileged p p' : no_gain p p' -> unprivileged p -> unprivileged p'.
Proof. intros (H1 & H2 & _) [Hu Hg]. split; intros H; [apply Hu, H1, H | apply Hg, H2, H]. Qed.

Lemma three_subset (a b c : Z) l : a ∈ l -> b ∈ l -> c ∈ l -> [a; b; c] ⊆ l.
Proof.
  intros Ha Hb Hc x Hx. apply elem_of_cons in Hx as [-> | Hx]; [exact Ha|]. apply elem_of_cons in Hx as [-> | Hx]; [exact Hb|].
  apply list_elem_of_singleton in Hx as ->. exact Hc.
Qed.

Lemma in_three (x a b c : Z) : x = a \/ x = b \/ x = c -> x ∈ [a; b; c].
Proof. rewrite !elem_of_cons. intros [H | [H | H]]; auto. Qed.

Lemma notin_three (a b c : Z) : 0 ∉ [a; b; c] -> a <> 0 /\ b <> 0 /\ c <> 0.
Proof. rewrite !not_elem_of_cons. intros (H1 & H2 & H3 & _). auto. Qed.

(** A call that succeeds with good ids, and without gain for the unprivileged. *)
Definition tame (m : M proc Z) (p : proc) : Prop :=
  exists r p', m p = Ok r p' /\ (ids_ok p -> ids_ok p') /\ (unprivileged p -> ids_ok p -> no_gain p p').

(** Run a call through its tests. *)
Ltac cred_cases :=
  repeat match goal with
  | |- context [if ?b then _ else _] => destruct b eqn:?; cbn [negb andb orb] in *
  | |- context [match ?o with Some _ => _ | None => _ end] => destruct o eqn:?
  end.

Ltac forall_facts := repeat match goal with H : Forall _ (_ :: _) |- _ => apply Forall_cons in H as [? H] end.
Ltac id_facts :=
  repeat match goal with
  | H : (_ || _) = true |- _ => apply orb_true_iff in H as [H | H]
  | H : (_ || _) = false |- _ => apply orb_false_iff in H as [? H]
  | H : (_ && _) = false |- _ => apply andb_false_iff in H as [H | H]
  | H : (_ && _) = true |- _ => apply andb_true_iff in H as [? H]
  | H : negb _ = true |- _ => apply negb_true_iff in H
  | H : negb _ = false |- _ => apply negb_false_iff in H
  | H : (_ =? _) = true |- _ => apply Z.eqb_eq in H
  | H : (_ =? _) = false |- _ => apply Z.eqb_neq in H
  | H : (_ <? _) = true |- _ => apply Z.ltb_lt in H
  | H : (_ <? _) = false |- _ => apply Z.ltb_ge in H
  end.

Ltac tame_ids :=
  intros [Hu Hg Hm Hl]; unfold users, groups_of in Hu, Hg; cbn in Hu, Hg, Hm, Hl; forall_facts; split; unfold users, groups_of; cbn;
  repeat first [assumption | apply (uwrap_range 16); lia | apply Forall_nil_2 | apply Forall_cons; split].
Ltac tame_gain :=
  intros [Pu Pg] [Hu Hg Hm Hl]; unfold users, groups_of in *; cbn in *; apply notin_three in Pu as (? & ? & ?); apply notin_three in Pg as (? & ? & ?);
  forall_facts; id_facts; try contradiction; try lia; subst; split_and!; unfold users, groups_of; cbn; try reflexivity;
  apply three_subset; apply in_three; rewrite ?(uwrap_id 16) by (assumption || (apply (uwrap_range 16); lia)); tauto.
Ltac tame_call := cred_cases; eexists _, _; (split; [reflexivity|]); (split; [tame_ids | tame_gain]).

Lemma setreuid_tame a b p : tame (setreuid a b) p.
Proof. destruct p. unfold tame, setreuid, suser. mstep. cbn. tame_call. Qed.

Lemma setregid_tame a b p : tame (setregid a b) p.
Proof. destruct p. unfold tame, setregid, suser. mstep. cbn. tame_call. Qed.

Lemma arg3_eq k p : arg3 k p = k (i32 (ebx (tf p))) (i32 (ecx (tf p))) (i32 (edx (tf p))) p.
Proof. reflexivity. Qed.

Lemma setres_tame p : tame sys_setresuid p /\ tame sys_setresgid p.
Proof.
  unfold tame, sys_setresuid, sys_setresgid. rewrite !arg3_eq.
  generalize (i32 (ebx (tf p))) (i32 (ecx (tf p))) (i32 (edx (tf p))). intros u e v. destruct p. mstep. cbn.
  split; tame_call.
Qed.

Lemma arg1_eq k p : arg1 k p = k (i32 (ebx (tf p))) p.
Proof. reflexivity. Qed.
Lemma arg2_eq k p : arg2 k p = k (i32 (ebx (tf p))) (i32 (ecx (tf p))) p.
Proof. reflexivity. Qed.

(** A call that leaves every id alone. *)
Lemma tame_same m p r p' :
  m p = Ok r p' -> users p' = users p -> groups_of p' = groups_of p -> groups p' = groups p ->
  (0 <= umask p < 512 -> 0 <= umask p' < 512) -> tame m p.
Proof.
  intros E Hu Hg Hl Hm. exists r, p'. split; [exact E|]. split.
  - intros [H1 H2 H3 H4]. split; [rewrite Hu; exact H1 | rewrite Hg; exact H2 | apply Hm, H3 | rewrite Hl; exact H4].
  - intros _ _. split_and!; [rewrite Hu; intros x Hx; exact Hx | rewrite Hg; intros x Hx; exact Hx | exact Hl].
Qed.

Lemma setgroups_tame umem p : tame (sys_setgroups umem) p.
Proof.
  unfold tame, sys_setgroups. mstep. destruct (suser p) eqn:Es; cbn [negb].
  2:{ exact (tame_same _ p _ _ eq_refl eq_refl eq_refl eq_refl (fun H => H)). }
  cred_cases; try exact (tame_same _ p _ _ eq_refl eq_refl eq_refl eq_refl (fun H => H)).
  eexists _, _. split; [reflexivity|]. split.
  - intros [H1 H2 H3 H4]. id_facts. split; [exact H1 | exact H2 | exact H3|]. cbn. rewrite length_app, length_drop, !length_map, length_seq.
    unfold NGROUPS in *. lia.
  - intros [Pu _] _. apply notin_three in Pu as (_ & He & _). apply Z.eqb_eq in Es. contradiction.
Qed.

Lemma umask_tame p : tame sys_umask p.
Proof.
  unfold sys_umask. destruct (argptr p 0 4) as [m|] eqn:E.
  - eapply tame_same; [mstep; rewrite E; reflexivity | reflexivity | reflexivity | reflexivity|]. intros _. cbn.
    change 511 with (Z.ones 9). rewrite Z.land_ones by lia. apply Z.mod_pos_bound. reflexivity.
  - eapply tame_same; [mstep; rewrite E; reflexivity | reflexivity | reflexivity | reflexivity | auto].
Qed.

Lemma cred_tame c p : tame (run_cred c) p.
Proof.
  assert (forall k, (forall a, tame (k a) p) -> tame (arg1 k) p) as H1 by (intros k H; apply (H (i32 (ebx (tf p))))).
  assert (forall k, (forall a b, tame (k a b) p) -> tame (arg2 k) p) as H2 by (intros k H; apply (H (i32 (ebx (tf p))) (i32 (ecx (tf p))))).
  destruct c; cbn [run_cred].
  - apply H1. intros a. apply setreuid_tame.
  - apply H1. intros a. apply setregid_tame.
  - apply H2. intros a b. apply setreuid_tame.
  - apply H2. intros a b. apply setregid_tame.
  - apply setres_tame.
  - apply setres_tame.
  - apply setgroups_tame.
  - unfold sys_setsid, suser. destruct (nz (leader p) && negb (euid p =? 0)) eqn:E;
      (eapply tame_same; [mstep; rewrite E; reflexivity | reflexivity | reflexivity | reflexivity | auto]).
  - apply umask_tame.
  - unfold sys_iopl, suser. destruct (negb (euid p =? 0)) eqn:E.
    + eapply tame_same; [mstep; rewrite E; reflexivity | reflexivity | reflexivity | reflexivity | auto].
    + destruct ((i32 (ebx (tf p)) <? 0) || (3 <? i32 (ebx (tf p)))) eqn:El;
        (eapply tame_same; [mstep; rewrite E; cbn [argint]; rewrite El; reflexivity | reflexivity | reflexivity | reflexivity | auto]).
  - apply H1. intros a. destruct (a <? 0);
      (eapply tame_same; [reflexivity | reflexivity | reflexivity | reflexivity | auto]).
Qed.

Lemma cred_step_tame p p' : cred_step p p' -> (ids_ok p -> ids_ok p') /\ (unprivileged p -> ids_ok p -> no_gain p p').
Proof.
  intros [c regs q r q' E]. destruct (cred_tame c (q <| tf := regs |>)) as (r' & q'' & E' & Hi & Hg).
  rewrite E in E'. injection E' as <- <-. split; [intros [H1 H2 H3 H4]; apply Hi; split; assumption|].
  intros Hu [H1 H2 H3 H4]. apply (Hg Hu). split; assumption.
Qed.

(** C30. The id fields stay 16-bit numbers, the mask nine bits, and the group list its
    length, whatever calls a process makes with whatever arguments. *)
Theorem cred_types p p' : rtc cred_step p p' -> ids_ok p -> ids_ok p'.
Proof. induction 1 as [|p q r Hs _ IH]; intros H; [exact H|]. apply IH, (proj1 (cred_step_tame _ _ Hs)), H. Qed.

(** C29. A process none of whose user and group ids is root's cannot acquire an id it
    did not have, in any sequence of credential calls with any arguments: each of
    its user ids is one of the user ids it started with, likewise its group ids,
    and its supplementary groups do not change. *)
Theorem cred_no_privilege_gain p p' : rtc cred_step p p' -> unprivileged p -> ids_ok p -> no_gain p p'.
Proof.
  induction 1 as [|p q r Hs _ IH]; intros Hu Hi; [reflexivity|]. destruct (cred_step_tame _ _ Hs) as [H1 H2].
  transitivity q; [exact (H2 Hu Hi) | apply IH; [exact (no_gain_unprivileged _ _ (H2 Hu Hi) Hu) | exact (H1 Hi)]].
Qed.

(** setpgid is the exception: it stores its second argument, cut to 16 bits, as
    the group id of the caller's parent (65536 makes it root's). *)
Theorem setpgid_forges_gid s c cp q qp g :
  cur s = Some c -> ptlocked s = false -> ptable s !! c = Some cp -> parent cp = Some q -> ptable s !! q = Some qp -> g <> 0 ->
  scan (fun _ p => pid p =? pid cp) (ptable s) = Some c ->
  exists s', setpgid 0 g s = Ok 0 s' /\ ptable s' !! q = Some (qp <| gid := u16 g |>).
Proof.
  intros Hc Hl Hcp Hpar Hq Hg Hsc. unfold setpgid. pstep1. pstep1. erewrite bind_step by (apply pget_Ok; psimp; exact Hcp).
  rewrite (proj2 (Z.eqb_neq g 0) Hg). change (0 =? 0) with true. cbv zeta iota. erewrite bind_step by reflexivity. psimp. rewrite Hsc.
  erewrite bind_step by (apply pget_Ok; psimp; exact Hcp). rewrite Hpar, pmod_bind.
  erewrite bind_step by (apply release_pt_Ok; reflexivity). eexists. split; [reflexivity|]. psimp.
  apply lookup_alter_same. exact Hq.
Qed.

(** A process of user 1000. *)
Definition cred_proc : proc :=
  Proc 4096 0 0 RUNNING 1 None zero_tf 0 0 [] 0 EmptyString 1000 1000 1000 100 100 100 0 0 0 [] [] 0 0 0 0 0 0 18 0 0 0 (replicate NGROUPS 0).

Lemma cred_proc_ok : ids_ok cred_proc /\ unprivileged cred_proc.
Proof.
  split; [split; [repeat constructor; vm_compute; discriminate | repeat constructor; vm_compute; discriminate | vm_compute; split; congruence | reflexivity]|].
  split; unfold users, groups_of; cbn; rewrite !not_elem_of_cons; split_and!; try discriminate; apply not_elem_of_nil.
Qed.

(** It asks to be root and to belong to group 7. *)
Lemma cred_run : rtc cred_step cred_proc (cred_proc <| tf := zero_tf <| ebx := 7 |> |>).
Proof.
  eapply rtc_l; [apply (cred_step_call CSetuid zero_tf _ 0); vm_compute; reflexivity|].
  eapply rtc_l; [apply (cred_step_call CSetgid (zero_tf <| ebx := 7 |>) _ (- EPERM)); vm_compute; reflexivity|]. apply rtc_refl.
Qed.

Lemma cred_types_witness : ids_ok (cred_proc <| tf := zero_tf <| ebx := 7 |> |>).
Proof. exact (cred_types _ _ cred_run (proj1 cred_proc_ok)). Defined.

Lemma cred_no_privilege_gain_witness : no_gain cred_proc (cred_proc <| tf := zero_tf <| ebx := 7 |> |>).
Proof. exact (cred_no_privilege_gain _ _ cred_run (proj2 cred_proc_ok) (proj1 cred_proc_ok)). Defined.
