(* ===== verification/Signal.v ===== *)
(** * Signals (src/kernel/signal/signal.c, the signal calls of src/kernel/sys/sys.c,
      and the clock tick of src/kernel/cpu/trap.c)

    The state is the running process and the memory that holds its page tables
    and pages (Vm.v).  dosignal builds the handler's frame on the user stack with
    copyout; the calls read user memory through the page table as the hardware
    does ([uload]), and an access the page table does not allow is a fault.
    [1 << signo] is the instruction's shift, whose count is taken modulo 32. *)
From Stdlib Require Import ZArith Lia.
From stdpp Require Import base numbers list gmap strings.
From S2P Require Import Prelude KString Locks Kalloc Vm Proc Syscall.
Local Open Scope Z_scope.

Definition SIGHUP : Z := 1.
Definition SIGKILL : Z := 9.
Definition SIGSEGV : Z := 11.
Definition SIGALRM : Z := 14.
Definition SIGSTOP : Z := 19.
Definition SIG_DFL : Z := 0.
Definition SIG_IGN : Z := 1.
Definition sigbit (signo : Z) : Z := u32 (Z.shiftl 1 (signo mod 32)).

Record sigst := Sigst { sproc : proc; sk : kstate }.

Definition onproc (f : proc -> proc) : M sigst unit := modify (fun s => Sigst (f (sproc s)) (sk s)).
Definition onk {A} (m : M kstate A) : M sigst A := fun s =>
  match m (sk s) with
  | Ok a k => Ok a (Sigst (sproc s) k)
  | Panic w => Panic w
  | Fault w => Fault w
  | Block ch k => Block ch (Sigst (sproc s) k)
  end.

(** ** User memory as the processor reads it *)

(** The byte at user address [va] under the page directory [pgdir]. *)
Definition uload (pgdir va : Z) : M kstate Z :=
  s ← get;
  let m := kmem_mem s in
  let pde := load32 m (pgdir + 4 * PDX va) in
  if Z.land pde PTE_P =? 0 then fault "page fault"
  else
    let pte := load32 m (P2V (PTE_ADDR pde) + 4 * PTX va) in
    if Z.land pte PTE_P =? 0 then fault "page fault"
    else mret (m (P2V (PTE_ADDR pte) + va mod 4096)).

(** A store of the kernel to a user address: the page must be present and, with
    CR0_WP set, writable. *)
Definition ustore (pgdir va b : Z) : M kstate unit :=
  s ← get;
  let m := kmem_mem s in
  let pde := load32 m (pgdir + 4 * PDX va) in
  if Z.land pde PTE_P =? 0 then fault "page fault"
  else
    let pte := load32 m (P2V (PTE_ADDR pde) + 4 * PTX va) in
    if (Z.land pte PTE_P =? 0) || (Z.land pte PTE_W =? 0) then fault "page fault"
    else set_mem (upd m (P2V (PTE_ADDR pte) + va mod 4096) b).

Fixpoint ustores (pgdir va : Z) (bs : list Z) : M kstate unit :=
  match bs with
  | [] => mret tt
  | b :: bs' => ustore pgdir va b;; ustores pgdir (va + 1) bs'
  end.

Definition uword (pgdir va : Z) : M kstate Z :=
  b0 ← uload pgdir va;
  b1 ← uload pgdir (va + 1);
  b2 ← uload pgdir (va + 2);
  b3 ← uload pgdir (va + 3);
  mret (b0 + 256 * b1 + 65536 * b2 + 16777216 * b3).

Fixpoint uwords (pgdir va : Z) (n : nat) : M kstate (list Z) :=
  match n with
  | O => mret []
  | S k => w ← uword pgdir va; ws ← uwords pgdir (va + 4) k; mret (w :: ws)
  end.

Definition bytes32 (v : Z) : list Z := [u8 v; u8 (Z.shiftr v 8); u8 (Z.shiftr v 16); u8 (Z.shiftr v 24)].

(** struct trapframe in memory: 19 words; a segment register is the low half of
    its word, [pad] the padding above it. *)
Definition tf_words (pad : nat -> Z) (t : trapframe) : list Z :=
  [edi t; esi t; ebp t; oesp t; ebx t; edx t; ecx t; eax t;
   gs t + 65536 * pad 1%nat; fs t + 65536 * pad 2%nat; es t + 65536 * pad 3%nat; ds t + 65536 * pad 4%nat;
   trapno t; err t; eip t; cs t + 65536 * pad 5%nat; eflags t; esp t; ss t + 65536 * pad 6%nat].
Definition tf_bytes (pad : nat -> Z) (t : trapframe) : list Z := flat_map bytes32 (tf_words pad t).
Definition words_tf (w : list Z) : trapframe :=
  let r i := nth i w 0 in
  TrapFrame (r 0%nat) (r 1%nat) (r 2%nat) (r 3%nat) (r 4%nat) (r 5%nat) (r 6%nat) (r 7%nat)
    (u16 (r 8%nat)) (u16 (r 9%nat)) (u16 (r 10%nat)) (u16 (r 11%nat)) (r 12%nat) (r 13%nat) (r 14%nat) (u16 (r 15%nat))
    (r 16%nat) (r 17%nat) (u16 (r 18%nat)).

(** ** Delivery *)

Section signal.
Context (pad : nat -> Z).

(** [goto deliver_failed] *)
Definition deliver_failed : M sigst unit := onproc (fun p => p <| killed := 1 |>).

(** Push [bytes] at [sp], or give up. *)
Definition push (sp : Z) (bytes : list Z) (k : M sigst unit) : M sigst unit :=
  p ← gets sproc;
  r ← onk (copyout (pgdir p) sp bytes);
  if r <? 0 then deliver_failed else k.

Definition deliver (signo handler restorer : Z) : M sigst unit :=
  onproc (fun p => p <| sigmask := Z.lor (sigmask p) (sigbit signo) |>);;
  p ← gets sproc;
  let sp0 := esp (tf p) in
  let sp1 := u32 (sp0 - 76) in
  let sp2 := u32 (sp1 - 4) in
  let sp3 := u32 (sp2 - 4) in
  let sp4 := u32 (sp3 - 4) in
  push sp1 (tf_bytes pad (tf p))
    (push sp2 (bytes32 restorer)
      (push sp3 (bytes32 signo)
        (push sp4 (bytes32 restorer)
          (onproc (fun p => p <| saved_trapframe_sp := sp1 |>);;
           onproc (fun p => p <| tf := tf p <| esp := sp4 |> |>);;
           onproc (fun p => p <| tf := tf p <| eip := handler |> |>))))).

(** The loop over the signals, [k] more from [signo] on. *)
Fixpoint dosignal_from (k : nat) (signo : Z) : M sigst unit :=
  match k with
  | O => mret tt
  | S k' =>
      p ← gets sproc;
      if negb (nz (Z.land (sigpending p) (sigbit signo))) then dosignal_from k' (signo + 1)
      else if negb (signo =? SIGKILL) && nz (Z.land (sigmask p) (sigbit signo)) then dosignal_from k' (signo + 1)
      else
        onproc (fun p => p <| sigpending := Z.ldiff (sigpending p) (sigbit signo) |>);;
        handler ← aget "sighandlers" (sighandlers p) signo;
        if (signo =? SIGKILL) || (handler =? SIG_DFL) then
          onproc (fun p => p <| termsig := signo |>);;
          onproc (fun p => p <| killed := 1 |>)
        else if handler =? SIG_IGN then dosignal_from k' (signo + 1)
        else
          restorer ← aget "sigrestorers" (sigrestorers p) signo;
          if restorer =? 0 then
            onproc (fun p => p <| sigpending := 0 |>);;
            onproc (fun p => p <| killed := 1 |>)
          else deliver signo handler restorer
  end.

Definition dosignal : M sigst unit := dosignal_from (NSIG - 1) 1.

(** ** The system calls *)

(** The registers the process had when the signal came; the mask stays. *)
Definition sys_rt_sigreturn : M sigst Z :=
  p ← gets sproc;
  (if nz (saved_trapframe_sp p) then
     ws ← onk (uwords (pgdir p) (saved_trapframe_sp p) 19);
     onproc (fun p => p <| tf := words_tf ws |> <| saved_trapframe_sp := 0 |>)
   else mret tt);;
  gets (fun s => i32 (eax (tf (sproc s)))).

(** The pointers are addresses of the process, which argptr checked; 0 is null. *)
Definition sys_rt_sigprocmask : M sigst Z :=
  p ← gets sproc;
  match argint p 0, argptr p 1 4, argptr p 2 4, argint p 3 with
  | Some how, Some set, Some oldset, Some _ =>
      when (nz oldset) (onk (ustores (pgdir p) oldset (bytes32 (sigmask p))));;
      if nz set then
        w ← onk (uword (pgdir p) set);
        let newmask := Z.ldiff w (Z.lor (sigbit SIGKILL) (sigbit SIGSTOP)) in
        if how =? 0 then onproc (fun p => p <| sigmask := Z.lor (sigmask p) newmask |>);; mret 0
        else if how =? 1 then onproc (fun p => p <| sigmask := Z.ldiff (sigmask p) newmask |>);; mret 0
        else if how =? 2 then onproc (fun p => p <| sigmask := newmask |>);; mret 0
        else mret (- EPERM)
      else mret 0
  | _, _, _, _ => mret (- EINVAL)
  end.

(** struct sigaction: handler, flags, restorer, mask; [stack] are the bytes of
    the kernel's own [oldact], of which two words are not set. *)
Definition sys_rt_sigaction (stack : Z * Z) : M sigst Z :=
  p ← gets sproc;
  match argint p 0, argptr p 1 16, argptr p 2 16 with
  | Some signum, Some actp, Some oldactp =>
      if (signum <? 1) || (Z.of_nat NSIG <=? signum) || (signum =? SIGKILL) || (signum =? SIGSTOP) then mret (- EPERM)
      else
        h ← aget "sighandlers" (sighandlers p) signum;
        rs ← aget "sigrestorers" (sigrestorers p) signum;
        r ← (if nz oldactp
             then onk (copyout (pgdir p) oldactp (bytes32 h ++ bytes32 stack.1 ++ bytes32 rs ++ bytes32 stack.2))
             else mret 0);
        if (r : Z) <? 0 then mret (- EFAULT)
        else if nz actp then
          act ← onk (uwords (pgdir p) actp 4);
          let restorer := nth 2 act 0 in
          if (restorer =? 0) || (restorer =? 4294967295) then mret (- EINVAL)
          else
            hs ← aset "sighandlers" (sighandlers p) signum (nth 0 act 0);
            onproc (fun p => p <| sighandlers := hs |>);;
            rss ← aset "sigrestorers" (sigrestorers p) signum restorer;
            onproc (fun p => p <| sigrestorers := rss |>);;
            mret 0
        else mret 0
  | _, _, _ => mret (- EINVAL)
  end.

(** The third [argint] is tested for any nonzero result. *)
Definition catchable (signum : Z) : bool :=
  match signum with
  | 1 | 2 | 3 | 4 | 5 | 6 | 8 | 10 | 11 | 12 | 13 | 14 | 17 => true
  | _ => false
  end.
Definition sys_signal : M sigst Z :=
  p ← gets sproc;
  match argint p 0, argint p 1, argint p 2 with
  | Some signum, Some handler, Some restorer =>
      if catchable signum then
        i ← aget "sighandlers" (sighandlers p) signum;
        hs ← aset "sighandlers" (sighandlers p) signum (u32 handler);
        onproc (fun p => p <| sighandlers := hs |>);;
        rs ← aset "sigrestorers" (sigrestorers p) signum (u32 restorer);
        onproc (fun p => p <| sigrestorers := rs |>);;
        mret (i32 i)
      else mret (-1)
  | _, _, _ => mret (- EINVAL)
  end.

(** [sigpending |= SIGHUP]: the number, not the bit. *)
Definition sys_vhangup : M sigst Z :=
  onproc (fun p => p <| sigpending := Z.lor (sigpending p) SIGHUP |>);; mret 0.

(** The alarm of a clock tick in user mode, as far as the process is concerned:
    [if ((p->sigpending = 0)) p->sigpending |= SIGALRM;] *)
Definition alarm_tick : M sigst unit :=
  p ← gets sproc;
  if 0 <? alarmticks p then
    onproc (fun p => p <| alarmticks := alarmticks p - 1 |>);;
    p ← gets sproc;
    if alarmticks p =? 0 then
      onproc (fun p => p <| sigpending := 0 |>);;
      p ← gets sproc;
      when (nz (sigpending p)) (onproc (fun p => p <| sigpending := Z.lor (sigpending p) SIGALRM |>))
    else mret tt
  else mret tt.
End signal.
