(* ===== verification/SignalThm.v ===== *)
(** * Signals: delivery and return

    dosignal builds the frame of the handler on the user stack, and
    sys_rt_sigreturn restores every register from it. *)
From Stdlib Require Import ZArith Lia.
From stdpp Require Import base numbers list gmap strings relations.
From S2P Require Import Prelude KString Locks Kalloc Vm VmThm VmUser Proc Syscall Signal.
Local Open Scope Z_scope.

(** ** Words as bytes *)

Lemma byte_shift v i : 0 <= i -> u8 (Z.shiftr v i) = v / 2 ^ i mod 256.
Proof. intros Hi. rewrite Z.shiftr_div_pow2 by exact Hi. reflexivity. Qed.

Lemma bytes32_value v : in_u 32 v ->
  u8 v + 256 * u8 (Z.shiftr v 8) + 65536 * u8 (Z.shiftr v 16) + 16777216 * u8 (Z.shiftr v 24) = v.
Proof.
  intros Hv. rewrite !byte_shift by lia. unfold in_u, uwrap in *. change (2 ^ 32) with 4294967296 in *. change (2 ^ 8) with 256.
  change (2 ^ 16) with 65536. change (2 ^ 24) with 16777216. Z.div_mod_to_equations; lia.
Qed.

Section signal_thm.
Context (kend PHYSTOP : Z) (Hkend : KERNBASE <= kend).
#[local] Abbreviation uas := (uas kend PHYSTOP).
#[local] Abbreviation ptable := (VmThm.ptable kend PHYSTOP).

(** ** Reading user memory *)

(** The bytes [bs] at user address [va], on user pages. *)
Definition holds (s : kstate) (T : gmap Z Z) (va : Z) (bs : list Z) : Prop :=
  forall i b, bs !! i = Some b ->
    user (pte (kmem_mem s) T (va + Z.of_nat i)) = true /\ kmem_mem s (uaddr (kmem_mem s) T (va + Z.of_nat i)) = b.

Lemma holds_app s T va bs1 bs2 :
  holds s T va (bs1 ++ bs2) <-> holds s T va bs1 /\ holds s T (va + Z.of_nat (length bs1)) bs2.
Proof.
  unfold holds. split.
  - intros H. split.
    + intros i b Hi. apply H. apply lookup_app_l_Some, Hi.
    + intros i b Hi. replace (va + Z.of_nat (length bs1) + Z.of_nat i) with (va + Z.of_nat (length bs1 + i)) by lia.
      apply H. rewrite lookup_app_r by lia. replace (length bs1 + i - length bs1)%nat with i by lia. exact Hi.
  - intros [H1 H2] i b Hi. apply lookup_app_Some in Hi as [Hi | [Hl Hi]]; [apply H1, Hi|].
    replace (va + Z.of_nat i) with (va + Z.of_nat (length bs1) + Z.of_nat (i - length bs1)) by lia. apply H2, Hi.
Qed.

Lemma uload_spec s pgdir T va :
  ptable (kmem_mem s) pgdir T -> user (pte (kmem_mem s) T va) = true ->
  uload pgdir va s = Ok (kmem_mem s (uaddr (kmem_mem s) T va)) s.
Proof.
  intros HT Hu. destruct (user_table _ _ _ Hu) as [p Hp]. destruct (pt_tab _ _ _ _ _ HT _ _ Hp) as (_ & Hok & _ & E).
  unfold uload. erewrite bind_step by reflexivity. cbv zeta. rewrite E, P_bit by apply (V2P_page kend PHYSTOP Hkend p Hok).
  change (7 mod 2 =? 0) with false. cbv iota. rewrite (entry_page kend PHYSTOP Hkend) by (assumption || lia).
  unfold uaddr, upage, pte in *. rewrite Hp in *. unfold user in Hu. apply andb_true_iff in Hu as [Hu _]. apply nz_true in Hu.
  rewrite (proj2 (Z.eqb_neq _ _)) by exact Hu. reflexivity.
Qed.

Lemma uword_spec s pgdir T va v :
  ptable (kmem_mem s) pgdir T -> holds s T va (bytes32 v) -> in_u 32 v -> uword pgdir va s = Ok v s.
Proof.
  intros HT H Hv. unfold uword.
  destruct (H 0%nat _ eq_refl) as [U0 B0]. destruct (H 1%nat _ eq_refl) as [U1 B1].
  destruct (H 2%nat _ eq_refl) as [U2 B2]. destruct (H 3%nat _ eq_refl) as [U3 B3].
  change (Z.of_nat 0) with 0 in *. change (Z.of_nat 1) with 1 in *. change (Z.of_nat 2) with 2 in *. change (Z.of_nat 3) with 3 in *.
  rewrite Z.add_0_r in U0, B0.
  rewrite (bind_step _ _ _ _ _ (uload_spec s pgdir T va HT U0)), (bind_step _ _ _ _ _ (uload_spec s pgdir T _ HT U1)),
    (bind_step _ _ _ _ _ (uload_spec s pgdir T _ HT U2)), (bind_step _ _ _ _ _ (uload_spec s pgdir T _ HT U3)).
  rewrite B0, B1, B2, B3, bytes32_value by exact Hv. reflexivity.
Qed.

Lemma uwords_spec s pgdir T ws : forall va,
  ptable (kmem_mem s) pgdir T -> holds s T va (flat_map bytes32 ws) -> Forall (in_u 32) ws ->
  uwords pgdir va (length ws) s = Ok ws s.
Proof.
  induction ws as [|w ws IH]; intros va HT H Hw; [reflexivity|]. apply Forall_cons in Hw as [Hw Hws].
  cbn [flat_map] in H. apply holds_app in H as [H1 H2]. cbn [length uwords].
  rewrite (bind_step _ _ _ _ _ (uword_spec s pgdir T va w HT H1 Hw)).
  rewrite (bind_step _ _ _ _ _ (IH (va + 4) HT H2 Hws)). reflexivity.
Qed.

(** ** Storing *)

Lemma stored_holds s s' L pgdir T va buf :
  uas s L pgdir T -> stored s s' T va buf -> 0 <= va -> va + Z.of_nat (length buf) <= 2 ^ 32 ->
  (forall v, va <= v < va + Z.of_nat (length buf) -> user (pte (kmem_mem s) T v) = true) -> holds s' T va buf.
Proof.
  intros HA St Hva Hend Hu i b Hi. destruct (stored_uas kend PHYSTOP s s' L pgdir T va buf HA St) as [_ Ep].
  pose proof (lookup_lt_Some _ _ _ Hi) as Hlt. unfold uaddr, upage. rewrite Ep. split; [apply Hu; lia|].
  fold (upage (kmem_mem s) T (va + Z.of_nat i)). fold (uaddr (kmem_mem s) T (va + Z.of_nat i)).
  destruct St as (_ & _ & _ & _ & St). rewrite St by (lia || apply Hu; lia). rewrite (proj2 (inside_true _ _ _)) by lia.
  replace (Z.to_nat (va + Z.of_nat i - va)) with i by lia. apply nth_lookup_Some. exact Hi.
Qed.

(** Bytes outside the store stay. *)
Lemma stored_keeps s s' L pgdir T va buf a bs :
  uas s L pgdir T -> stored s s' T va buf -> holds s T a bs -> 0 <= a -> a + Z.of_nat (length bs) <= 2 ^ 32 ->
  va + Z.of_nat (length buf) <= a \/ a + Z.of_nat (length bs) <= va -> holds s' T a bs.
Proof.
  intros HA St H Ha Hend Hd i b Hi. destruct (stored_uas kend PHYSTOP s s' L pgdir T va buf HA St) as [_ Ep].
  pose proof (lookup_lt_Some _ _ _ Hi) as Hlt. destruct (H i b Hi) as [Hu Hb]. unfold uaddr, upage. rewrite Ep. split; [exact Hu|].
  fold (upage (kmem_mem s) T (a + Z.of_nat i)). fold (uaddr (kmem_mem s) T (a + Z.of_nat i)).
  destruct St as (_ & _ & _ & _ & St). rewrite St by (lia || exact Hu). rewrite (proj2 (inside_false _ _ _)) by lia. exact Hb.
Qed.

(** ** Delivery *)

Context (pad : nat -> Z) (Hpad : forall i, in_u 16 (pad i)).

(** Registers of their widths. *)
Definition tf_ok (t : trapframe) : Prop :=
  Forall (in_u 32) [edi t; esi t; ebp t; oesp t; ebx t; edx t; ecx t; eax t; trapno t; err t; eip t; eflags t; esp t]
  /\ Forall (in_u 16) [gs t; fs t; es t; ds t; cs t; ss t].

Lemma seg_word seg p : in_u 16 seg -> in_u 16 p -> in_u 32 (seg + 65536 * p) /\ u16 (seg + 65536 * p) = seg.
Proof.
  unfold in_u, uwrap. change (2 ^ 16) with 65536. change (2 ^ 32) with 4294967296. intros Hs Hp.
  split; [lia|]. rewrite Z.mul_comm, Z.mod_add, Z.mod_small by lia. reflexivity.
Qed.

Lemma tf_words_ok t : tf_ok t -> Forall (in_u 32) (tf_words pad t) /\ words_tf (tf_words pad t) = t.
Proof.
  intros [H32 H16]. repeat match goal with H : Forall _ (_ :: _) |- _ => apply Forall_cons in H as [? H] end.
  split.
  - unfold tf_words. repeat first [apply Forall_nil_2 | apply Forall_cons; split]; try assumption; apply seg_word; auto.
  - unfold words_tf, tf_words. cbn [nth]. rewrite !(fun x i H => proj2 (seg_word x (pad i) H (Hpad i))) by assumption.
    destruct t. reflexivity.
Qed.

Lemma length_tf_bytes t : length (tf_bytes pad t) = 76%nat.
Proof. reflexivity. Qed.

(** A push onto user pages. *)
Lemma push_spec p k L T sp bs cont :
  uas k L (pgdir p) T -> 0 <= sp -> sp + Z.of_nat (length bs) <= 2 ^ 32 -> bs <> [] ->
  (forall v, sp <= v < sp + Z.of_nat (length bs) -> user (pte (kmem_mem k) T v) = true) ->
  exists k', push sp bs cont (Sigst p k) = cont (Sigst p k') /\ stored k k' T sp bs /\ uas k' L (pgdir p) T
    /\ (forall v, pte (kmem_mem k') T v = pte (kmem_mem k) T v) /\ holds k' T sp bs.
Proof.
  intros HA Hsp Hend Hne Hu. assert (0 < Z.of_nat (length bs)) by (destruct bs; [contradiction | cbn; lia]).
  destruct (copyout_all kend PHYSTOP Hkend k L (pgdir p) T sp bs HA) as (k' & E & St & HA' & Ep); [lia | lia | exact Hu|].
  exists k'. split_and!; auto; [|exact (stored_holds k k' L (pgdir p) T sp bs HA St Hsp Hend Hu)].
  unfold push. erewrite bind_step by reflexivity. cbn [sproc]. erewrite bind_step; [|unfold onk; cbn [sk sproc]; rewrite E; reflexivity]. reflexivity.
Qed.

(** The process a handler starts in. *)
Definition in_handler (p : proc) (signo handler : Z) : proc :=
  p <| sigmask := Z.lor (sigmask p) (sigbit signo) |> <| saved_trapframe_sp := esp (tf p) - 76 |>
    <| tf := tf p <| esp := esp (tf p) - 88 |> <| eip := handler |> |>.

(** What the handler finds on its stack, from the stack pointer up. *)
Definition handler_frame (t : trapframe) (signo restorer : Z) : list Z :=
  bytes32 restorer ++ bytes32 signo ++ bytes32 restorer ++ tf_bytes pad t.

Ltac do_push p k L T sp k1 S1 A1 P1 H1 :=
  match goal with |- context [push sp ?bs ?cont _] =>
    let E := fresh in
    destruct (push_spec p k L T sp bs cont) as (k1 & E & S1 & A1 & P1 & H1);
      [assumption | lia | cbn; lia | discriminate | rewrite ?length_tf_bytes; cbn [length bytes32 Z.of_nat Pos.of_succ_nat Pos.succ] | rewrite E; clear E]
  end.

Lemma deliver_spec p k L T signo handler restorer :
  uas k L (pgdir p) T -> 88 <= esp (tf p) < 2 ^ 32 ->
  (forall v, esp (tf p) - 88 <= v < esp (tf p) -> user (pte (kmem_mem k) T v) = true) ->
  exists k', deliver pad signo handler restorer (Sigst p k) = Ok tt (Sigst (in_handler p signo handler) k')
    /\ uas k' L (pgdir p) T /\ holds k' T (esp (tf p) - 88) (handler_frame (tf p) signo restorer)
    /\ (forall v, pte (kmem_mem k') T v = pte (kmem_mem k) T v)
    /\ (forall a bs, holds k T a bs -> 0 <= a -> a + Z.of_nat (length bs) <= 2 ^ 32 ->
          esp (tf p) <= a \/ a + Z.of_nat (length bs) <= esp (tf p) - 88 -> holds k' T a bs).
Proof.
  intros HA Hsp Hu. unfold deliver. erewrite bind_step by reflexivity. erewrite bind_step by reflexivity. cbn [sproc sk].
  set (p1 := p <| sigmask := _ |>). change (esp (tf p1)) with (esp (tf p)). change (tf p1) with (tf p). set (sp := esp (tf p)) in *.
  cbv zeta. assert (forall d, 0 <= d <= 88 -> u32 (sp - d) = sp - d) as Hw by (intros d Hd; apply (uwrap_id 32); unfold in_u; lia).
  rewrite (Hw 76) by lia. replace (sp - 76 - 4) with (sp - 80) by lia. rewrite (Hw 80) by lia.
  replace (sp - 80 - 4) with (sp - 84) by lia. rewrite (Hw 84) by lia. replace (sp - 84 - 4) with (sp - 88) by lia. rewrite (Hw 88) by lia.
  do_push p1 k L T (sp - 76) k1 S1 A1 P1 H1; [intros v Hv; apply Hu; lia|].
  do_push p1 k1 L T (sp - 80) k2 S2 A2 P2 H2; [intros v Hv; rewrite P1; apply Hu; lia|].
  do_push p1 k2 L T (sp - 84) k3 S3 A3 P3 H3; [intros v Hv; rewrite P2, P1; apply Hu; lia|].
  do_push p1 k3 L T (sp - 88) k4 S4 A4 P4 H4; [intros v Hv; rewrite P3, P2, P1; apply Hu; lia|].
  pose proof (fun a bs => stored_keeps k3 k4 L _ T _ _ a bs A3 S4) as K4. pose proof (fun a bs => stored_keeps k2 k3 L _ T _ _ a bs A2 S3) as K3.
  pose proof (fun a bs => stored_keeps k1 k2 L _ T _ _ a bs A1 S2) as K2.
  exists k4. split_and!; [reflexivity | exact A4 | | intros v; rewrite P4, P3, P2, P1; reflexivity|].
  - unfold handler_frame. rewrite !holds_app. cbn [length bytes32]. change (Z.of_nat 4) with 4.
    replace (sp - 88 + 4) with (sp - 84) by lia. replace (sp - 84 + 4) with (sp - 80) by lia. replace (sp - 80 + 4) with (sp - 76) by lia.
    split_and!; [exact H4 | apply K4; [exact H3|..] | apply K4; [apply K3; [exact H2|..]|..] | apply K4; [apply K3; [apply K2; [exact H1|..]|..]|..]];
      cbn [length bytes32]; rewrite ?length_tf_bytes; lia.
  - intros a bs H Ha Hend Hd. apply K4; [apply K3; [apply K2; [apply (stored_keeps k k1 L _ T _ _ a bs HA S1); [exact H|..]|..]|..]|..];
      cbn [length bytes32]; rewrite ?length_tf_bytes; lia.
Qed.

(** Signals that are not pending, or are blocked, are passed over. *)
Definition passed (p : proc) (signo : Z) : Prop :=
  Z.land (sigpending p) (sigbit signo) = 0 \/ (signo <> SIGKILL /\ Z.land (sigmask p) (sigbit signo) <> 0).

Lemma dosignal_skip p k n : forall fuel signo,
  0 <= n -> (forall j, signo <= j < signo + n -> passed p j) ->
  dosignal_from pad (Z.to_nat n + fuel) signo (Sigst p k) = dosignal_from pad fuel (signo + n) (Sigst p k).
Proof.
  intros fuel signo Hn. revert signo. pattern n. apply natlike_ind; [| |exact Hn]; clear n Hn.
  - intros signo _. rewrite Z.add_0_r. reflexivity.
  - intros n Hn IH signo Hp. replace (Z.to_nat (Z.succ n) + fuel)%nat with (S (Z.to_nat n + fuel)) by lia. cbn [dosignal_from].
    erewrite bind_step by reflexivity. cbn [sproc].
    assert (dosignal_from pad (Z.to_nat n + fuel) (signo + 1) (Sigst p k) = dosignal_from pad fuel (signo + Z.succ n) (Sigst p k)) as E.
    { rewrite IH by (intros j Hj; apply Hp; lia). f_equal. lia. }
    destruct (Hp signo ltac:(lia)) as [H0 | [Hk Hm]].
    + rewrite H0. exact E.
    + rewrite (proj2 (Z.eqb_neq _ _) Hk), (proj2 (nz_true _) Hm). destruct (negb _); exact E.
Qed.

(** The process and signal whose delivery is next. *)
Record ready_signal (p : proc) (signo handler restorer : Z) : Prop := ReadySignal {
  rs_range : 1 <= signo < 65;
  rs_kill : signo <> SIGKILL;
  rs_first : forall j, 1 <= j < signo -> passed p j;
  rs_pending : Z.land (sigpending p) (sigbit signo) <> 0;
  rs_mask : Z.land (sigmask p) (sigbit signo) = 0;
  rs_handler : sighandlers p !! Z.to_nat signo = Some handler;
  rs_catch : handler <> SIG_DFL /\ handler <> SIG_IGN;
  rs_restorer : sigrestorers p !! Z.to_nat signo = Some restorer;
  rs_rest : restorer <> 0
}.

(** The signal is no longer pending. *)
Definition taken (p : proc) (signo : Z) : proc := p <| sigpending := Z.ldiff (sigpending p) (sigbit signo) |>.

Lemma dosignal_step p k signo handler restorer :
  ready_signal p signo handler restorer ->
  dosignal pad (Sigst p k) = deliver pad signo handler restorer (Sigst (taken p signo) k).
Proof.
  intros [Hr Hk Hf Hp Hm Hh [Hd Hi] Hrs Hr0]. unfold dosignal.
  replace (NSIG - 1)%nat with (Z.to_nat (signo - 1) + S (64 - Z.to_nat signo))%nat by (unfold NSIG; lia).
  rewrite dosignal_skip by (lia || intros j Hj; apply Hf; lia). replace (1 + (signo - 1)) with signo by lia. cbn [dosignal_from].
  erewrite bind_step by reflexivity. cbn [sproc]. rewrite (proj2 (nz_true _) Hp), Hm, (proj2 (Z.eqb_neq _ _) Hk).
  change (nz 0) with false. cbn [negb andb orb]. erewrite bind_step by reflexivity.
  rewrite (bind_step _ _ _ _ _ (aget_Ok _ _ signo handler _ ltac:(lia) Hh)), (proj2 (Z.eqb_neq _ _) Hd), (proj2 (Z.eqb_neq _ _) Hi). cbn [orb].
  rewrite (bind_step _ _ _ _ _ (aget_Ok _ _ signo restorer _ ltac:(lia) Hrs)), (proj2 (Z.eqb_neq _ _) Hr0). reflexivity.
Qed.

(** The state after a signal was delivered. *)
Definition delivered (p : proc) (signo handler : Z) : proc :=
  in_handler (taken p signo) signo handler.

Lemma dosignal_spec p k L T signo handler restorer :
  uas k L (pgdir p) T -> ready_signal p signo handler restorer -> 88 <= esp (tf p) < 2 ^ 32 ->
  (forall v, esp (tf p) - 88 <= v < esp (tf p) -> user (pte (kmem_mem k) T v) = true) ->
  exists k', dosignal pad (Sigst p k) = Ok tt (Sigst (delivered p signo handler) k')
    /\ uas k' L (pgdir p) T /\ holds k' T (esp (tf p) - 88) (handler_frame (tf p) signo restorer)
    /\ (forall v, pte (kmem_mem k') T v = pte (kmem_mem k) T v)
    /\ (forall a bs, holds k T a bs -> 0 <= a -> a + Z.of_nat (length bs) <= 2 ^ 32 ->
          esp (tf p) <= a \/ a + Z.of_nat (length bs) <= esp (tf p) - 88 -> holds k' T a bs).
Proof.
  intros HA Hr Hsp Hu. rewrite (dosignal_step _ _ _ _ _ Hr).
  exact (deliver_spec (taken p signo) k L T signo handler restorer HA Hsp Hu).
Qed.

(** sys_rt_sigreturn restores the registers that were saved. *)
Lemma sigreturn_spec p k L T t :
  uas k L (pgdir p) T -> saved_trapframe_sp p <> 0 -> holds k T (saved_trapframe_sp p) (tf_bytes pad t) -> tf_ok t ->
  sys_rt_sigreturn (Sigst p k) = Ok (i32 (eax t)) (Sigst (p <| tf := t |> <| saved_trapframe_sp := 0 |>) k).
Proof.
  intros HA Hs H Ht. destruct (tf_words_ok t Ht) as [Hw Ew]. unfold sys_rt_sigreturn. erewrite bind_step by reflexivity. cbn [sproc].
  rewrite (proj2 (nz_true _) Hs).
  lazymatch goal with |- mbind ?f ?m ?s = Ok ?r ?s' => enough (m s = Ok tt s') as E by (rewrite (bind_step _ _ _ _ _ E); reflexivity) end.
  erewrite bind_step; [|unfold onk; cbn [sk sproc]; change 19%nat with (length (tf_words pad t)); rewrite (uwords_spec k (pgdir p) T (tf_words pad t) _ (ua_pt _ _ _ _ _ _ HA) H Hw); reflexivity].
  rewrite Ew. reflexivity.
Qed.

(** Delivery of the first signal that is pending and not blocked, to a process
    that catches it with its stack on user pages: dosignal returns with the
    process at the handler, the stack pointer 88 bytes down, the signal blocked
    and no longer pending, and on the stack the return address, the number, the
    restorer and the saved registers; other user memory is as before. *)
Theorem dosignal_delivers p k L T signo handler restorer :
  uas k L (pgdir p) T -> ready_signal p signo handler restorer -> 88 <= esp (tf p) < 2 ^ 32 ->
  (forall v, esp (tf p) - 88 <= v < esp (tf p) -> user (pte (kmem_mem k) T v) = true) ->
  exists k', dosignal pad (Sigst p k) = Ok tt (Sigst (delivered p signo handler) k')
    /\ uas k' L (pgdir p) T /\ holds k' T (esp (tf p) - 88) (handler_frame (tf p) signo restorer)
    /\ (forall v, pte (kmem_mem k') T v = pte (kmem_mem k) T v)
    /\ (forall a bs, holds k T a bs -> 0 <= a -> a + Z.of_nat (length bs) <= 2 ^ 32 ->
          esp (tf p) <= a \/ a + Z.of_nat (length bs) <= esp (tf p) - 88 -> holds k' T a bs).
Proof. apply dosignal_spec. Qed.

End signal_thm.

(** ** SIGKILL and SIGSTOP *)

Lemma sigbit_testbit x n : 0 <= n -> nz (Z.land x (sigbit n)) = Z.testbit x (n mod 32).
Proof.
  intros Hn. pose proof (Z.mod_pos_bound n 32 ltac:(lia)) as Hm. unfold sigbit.
  assert (uwrap 32 (Z.shiftl 1 (n mod 32)) = 2 ^ (n mod 32)) as ->.
  { rewrite Z.shiftl_mul_pow2, Z.mul_1_l by lia. apply uwrap_id. split; [apply Z.pow_nonneg; lia | apply Z.pow_lt_mono_r; lia]. }
  destruct (Z.testbit x (n mod 32)) eqn:E.
  - apply nz_true. intros H. apply (f_equal (fun y => Z.testbit y (n mod 32))) in H.
    rewrite Z.land_spec, E, Z.pow2_bits_true, Z.bits_0 in H by lia. discriminate.
  - apply nz_false. apply Z.bits_inj'. intros i Hi. rewrite Z.land_spec, Z.bits_0. destruct (Z.eq_dec i (n mod 32)) as [-> | Hne].
    + rewrite E. reflexivity.
    + rewrite Z.pow2_bits_false by lia. apply andb_false_r.
Qed.

Lemma sigbit_bits n i : 0 <= n -> 0 <= i < 32 -> Z.testbit (sigbit n) i = (i =? n mod 32).
Proof.
  intros Hn Hi. pose proof (sigbit_testbit (sigbit n) n Hn). pose proof (Z.mod_pos_bound n 32 ltac:(lia)) as Hm. unfold sigbit.
  rewrite uwrap_testbit, (proj2 (Z.ltb_lt _ _)) by lia. rewrite Z.shiftl_mul_pow2, Z.mul_1_l by lia. cbn [andb].
  rewrite Z.pow2_bits_eqb by lia. apply Z.eqb_sym.
Qed.

(** SIGKILL and SIGSTOP have their default action and are not blocked. *)
Record sig_inv (p : proc) : Prop := SigInv {
  si_len : length (sighandlers p) = NSIG;
  si_rlen : length (sigrestorers p) = NSIG;
  si_kill : sighandlers p !! 9%nat = Some SIG_DFL;
  si_stop : sighandlers p !! 19%nat = Some SIG_DFL;
  si_mkill : Z.testbit (sigmask p) 9 = false;
  si_mstop : Z.testbit (sigmask p) 19 = false
}.

Inductive sig_call : Type :=
| SProcmask | SAction (stack : Z * Z) | SSignal | SReturn | SVhangup | STick | SDosignal (pad : nat -> Z).
Definition run_sig (c : sig_call) : M sigst unit :=
  match c with
  | SProcmask => sys_rt_sigprocmask ;; mret tt
  | SAction stack => sys_rt_sigaction stack ;; mret tt
  | SSignal => sys_signal ;; mret tt
  | SReturn => sys_rt_sigreturn ;; mret tt
  | SVhangup => sys_vhangup ;; mret tt
  | STick => alarm_tick
  | SDosignal pad => dosignal pad
  end.

(** Between calls the process changes its registers and memory, and others send
    it signals. *)
Inductive sig_step : proc -> proc -> Prop :=
| sig_step_call c regs pend k p p' k' :
    run_sig c (Sigst (p <| tf := regs |> <| sigpending := pend |>) k) = Ok tt (Sigst p' k') -> sig_step p p'.

(** Only the handlers, restorers and mask matter. *)
Lemma sig_inv_same p p' :
  sighandlers p' = sighandlers p -> sigrestorers p' = sigrestorers p -> sigmask p' = sigmask p -> sig_inv p -> sig_inv p'.
Proof. intros E1 E2 E3 [H1 H2 H3 H4 H5 H6]. split; congruence. Qed.

(** A successful run of [m] keeps the invariant. *)
Definition keeps {A} (m : M sigst A) : Prop :=
  forall s a s', m s = Ok a s' -> sig_inv (sproc s) -> sig_inv (sproc s').

Lemma keeps_bind {A B} (m : M sigst A) (f : A -> M sigst B) : keeps m -> (forall a, keeps (f a)) -> keeps (m ≫= f).
Proof. intros Hm Hf s b s' E HI. apply bind_Ok in E as (a & s1 & E1 & E2). exact (Hf a _ _ _ E2 (Hm _ _ _ E1 HI)). Qed.
Lemma keeps_ret {A} (a : A) : keeps (mret a).
Proof. intros s b s' [= <- <-] HI. exact HI. Qed.
Lemma keeps_fault {A} w : keeps (fault w : M sigst A).
Proof. intros s b s' [=]. Qed.
Lemma keeps_onk {A} (m : M kstate A) : keeps (onk m).
Proof. intros s b s' E HI. unfold onk in E. destruct (m (sk s)); try discriminate. injection E as _ <-. exact HI. Qed.
Lemma keeps_aget {A} w (l : list A) i : keeps (aget w l i).
Proof. unfold aget. destruct (i <? 0); [apply keeps_fault|]. destruct (l !! Z.to_nat i); [apply keeps_ret | apply keeps_fault]. Qed.
Lemma keeps_aset {A} w (l : list A) i x : keeps (aset w l i x).
Proof. unfold aset. destruct (_ && _); [apply keeps_ret | apply keeps_fault]. Qed.
Lemma keeps_gets {A} (f : sigst -> A) : keeps (gets f).
Proof. intros s b s' [= <- <-] HI. exact HI. Qed.
Lemma keeps_onproc f : (forall p, sig_inv p -> sig_inv (f p)) -> keeps (onproc f).
Proof. intros Hf s a s' [= <- <-] HI. apply Hf, HI. Qed.
Lemma keeps_same f :
  (forall p, sighandlers (f p) = sighandlers p /\ sigrestorers (f p) = sigrestorers p /\ sigmask (f p) = sigmask p) -> keeps (onproc f).
Proof. intros Hf. apply keeps_onproc. intros p. destruct (Hf p) as (E1 & E2 & E3). exact (sig_inv_same p (f p) E1 E2 E3). Qed.

Create HintDb keeps discriminated.
#[global] Hint Resolve keeps_ret keeps_fault keeps_onk keeps_aget keeps_aset keeps_gets : keeps.
Ltac keeps_tac :=
  repeat first
  [ progress intros | solve [auto with keeps]
  | apply keeps_bind | apply keeps_same; intros ?; split_and!; reflexivity
  | match goal with |- keeps (if ?b then _ else _) => destruct b eqn:? end
  | match goal with |- keeps (when ?b _) => unfold when; destruct b eqn:? end
  | match goal with |- keeps (match ?o with Some _ => _ | None => _ end) => destruct o eqn:? end ].

Lemma aget_inv {S A} w (l : list A) i x (s s' : S) : aget w l i s = Ok x s' -> s' = s /\ 0 <= i /\ l !! Z.to_nat i = Some x.
Proof.
  unfold aget. destruct (Z.ltb_spec i 0); [discriminate|]. destruct (l !! Z.to_nat i) eqn:E; [|discriminate].
  intros [= <- <-]. auto.
Qed.
Lemma aset_inv {S A} w (l l' : list A) i x (s s' : S) : aset w l i x s = Ok l' s' -> s' = s /\ 0 <= i /\ l' = <[Z.to_nat i := x]> l.
Proof.
  unfold aset. destruct (Z.leb_spec 0 i), (Z.ltb_spec i (Z.of_nat (length l))); cbn; try discriminate. intros [= <- <-]. auto.
Qed.

(** The inversion of one step of a run. *)
Ltac step_inv E :=
  let x := fresh "x" in let s1 := fresh "s" in let E1 := fresh "E" in
  apply bind_Ok in E as (x & s1 & E1 & E);
  first
  [ apply aget_inv in E1 as (-> & ? & ?)
  | apply aset_inv in E1 as (-> & ? & ->)
  | injection E1 as <- <- ].

(** New handlers for a signal that is neither. *)
Lemma sig_inv_handlers p n h r :
  sig_inv p -> n <> 9 -> n <> 19 -> 0 <= n ->
  sig_inv (p <| sighandlers := <[Z.to_nat n := h]> (sighandlers p) |> <| sigrestorers := <[Z.to_nat n := r]> (sigrestorers p) |>).
Proof.
  intros [H1 H2 H3 H4 H5 H6] Hk Hs Hn. split; cbn; try assumption; rewrite ?length_insert; try assumption.
  - rewrite list_lookup_insert_ne by lia. exact H3.
  - rewrite list_lookup_insert_ne by lia. exact H4.
Qed.

Lemma sig_inv_mask p m : sig_inv p -> Z.testbit m 9 = false -> Z.testbit m 19 = false -> sig_inv (p <| sigmask := m |>).
Proof. intros [H1 H2 H3 H4 H5 H6] H9 H19. split; assumption. Qed.

Lemma signal_keeps : keeps sys_signal.
Proof.
  intros s a s' E HI. unfold sys_signal in E. step_inv E. cbn [argint] in E. set (n := i32 (ebx (tf (sproc s)))) in *.
  destruct (catchable n) eqn:Ec; [|injection E as <- <-; exact HI]. do 5 step_inv E. injection E as <- <-. cbn [sproc].
  apply (sig_inv_handlers (sproc s) n); auto; intros Hn; rewrite Hn in Ec; discriminate.
Qed.

Lemma sigaction_keeps stack : keeps (sys_rt_sigaction stack).
Proof.
  intros s a s' E HI. unfold sys_rt_sigaction in E. step_inv E. cbn [argint] in E. set (n := i32 (ebx (tf (sproc s)))) in *.
  destruct (argptr (sproc s) 1 16) as [actp|]; [|injection E as <- <-; exact HI].
  destruct (argptr (sproc s) 2 16) as [oldp|]; [|injection E as <- <-; exact HI].
  destruct ((n <? 1) || (Z.of_nat NSIG <=? n) || (n =? SIGKILL) || (n =? SIGSTOP)) eqn:En; [injection E as <- <-; exact HI|].
  apply orb_false_iff in En as [En E19]. apply orb_false_iff in En as [_ E9]. apply Z.eqb_neq in E9, E19. do 2 step_inv E.
  apply bind_Ok in E as (r & s1 & E1 & E). assert (sproc s1 = sproc s) as Es.
  { destruct (nz oldp); [|injection E1 as _ <-; reflexivity]. unfold onk in E1. destruct (copyout _ _ _ _); try discriminate. injection E1 as _ <-. reflexivity. }
  clear E1. destruct (r <? 0); [injection E as <- <-; rewrite Es; exact HI|]. destruct (nz actp); [|injection E as <- <-; rewrite Es; exact HI].
  apply bind_Ok in E as (act & s2 & E1 & E). assert (sproc s2 = sproc s) as Es2.
  { unfold onk in E1. destruct (uwords _ _ _ _); try discriminate. injection E1 as _ <-. exact Es. }
  destruct ((nth 2 act 0 =? 0) || _); [injection E as <- <-; rewrite Es2; exact HI|]. do 4 step_inv E. injection E as <- <-. cbn [sproc].
  rewrite Es2. apply (sig_inv_handlers (sproc s) n); auto.
Qed.

Lemma procmask_keeps : keeps sys_rt_sigprocmask.
Proof.
  unfold sys_rt_sigprocmask. apply keeps_bind; [auto with keeps|]. intros p.
  assert (forall w p, sig_inv p -> let nm := Z.ldiff w (Z.lor (sigbit SIGKILL) (sigbit SIGSTOP)) in
    Z.testbit nm 9 = false /\ Z.testbit nm 19 = false) as Hnm.
  { intros w q _. cbv zeta. rewrite !Z.ldiff_spec. change (Z.testbit (Z.lor (sigbit SIGKILL) (sigbit SIGSTOP)) 9) with true.
    change (Z.testbit (Z.lor (sigbit SIGKILL) (sigbit SIGSTOP)) 19) with true. rewrite !andb_false_r. auto. }
  keeps_tac; apply keeps_onproc; intros q HI; destruct (Hnm a0 q HI) as [N9 N19]; pose proof (si_mkill q HI) as H5; pose proof (si_mstop q HI) as H6;
    apply (sig_inv_mask q); auto; rewrite ?Z.lor_spec, ?(Z.ldiff_spec (sigmask q)), ?H5, ?H6, ?N9, ?N19; reflexivity.
Qed.

Lemma other_calls_keep : keeps sys_rt_sigreturn /\ keeps sys_vhangup /\ keeps alarm_tick.
Proof. unfold sys_rt_sigreturn, sys_vhangup, alarm_tick. split_and!; keeps_tac. Qed.

Lemma push_keeps sp bs k : keeps k -> keeps (push sp bs k).
Proof. intros Hk. unfold push, deliver_failed. keeps_tac. Qed.

Lemma deliver_keeps pad signo h r : 0 <= signo -> signo mod 32 <> 9 -> signo mod 32 <> 19 -> keeps (deliver pad signo h r).
Proof.
  intros Hn H9 H19. unfold deliver. apply keeps_bind.
  - apply keeps_onproc. intros p HI. apply (sig_inv_mask p); [exact HI|..]; rewrite Z.lor_spec, sigbit_bits by lia.
    + rewrite (si_mkill p HI). apply Z.eqb_neq. congruence.
    + rewrite (si_mstop p HI). apply Z.eqb_neq. congruence.
  - intros _. apply keeps_bind; [auto with keeps|]. intros p. cbv zeta. repeat (apply push_keeps). keeps_tac.
Qed.

(** Past 9 and 19 their bits are not pending. *)
Definition cleared (p : proc) (signo : Z) : Prop :=
  (9 < signo -> Z.testbit (sigpending p) 9 = false) /\ (19 < signo -> Z.testbit (sigpending p) 19 = false).

Lemma cleared_next p signo :
  0 <= signo -> cleared p signo -> (signo = 9 \/ signo = 19 -> Z.testbit (sigpending p) signo = false) -> cleared p (signo + 1).
Proof.
  intros Hn [H9 H19] Hs. split; intros Hlt.
  - destruct (Z.eq_dec signo 9) as [-> | Hne]; [apply Hs; auto | apply H9; lia].
  - destruct (Z.eq_dec signo 19) as [-> | Hne]; [apply Hs; auto | apply H19; lia].
Qed.

(** After the guards of the loop: the bit of [signo] is pending. *)
Lemma pending_not_special p signo :
  1 <= signo < 65 -> signo <> 9 -> signo <> 19 -> cleared p signo -> Z.testbit (sigpending p) (signo mod 32) = true ->
  signo mod 32 <> 9 /\ signo mod 32 <> 19.
Proof.
  intros Hr H9 H19 [C9 C19] Hp. assert (signo mod 32 = signo \/ signo mod 32 = signo - 32 \/ signo mod 32 = signo - 64) as Hm
    by (Z.div_mod_to_equations; lia).
  split; intros E; rewrite E in Hp.
  - rewrite C9 in Hp by lia. discriminate.
  - rewrite C19 in Hp by lia. discriminate.
Qed.

Lemma dosignal_from_keeps pad fuel : forall signo s s',
  dosignal_from pad fuel signo s = Ok tt s' -> 1 <= signo -> signo + Z.of_nat fuel <= 65 ->
  sig_inv (sproc s) -> cleared (sproc s) signo -> sig_inv (sproc s').
Proof.
  induction fuel as [|fuel IH]; intros signo s s' E Hlo Hhi HI Hc; cbn [dosignal_from] in E; [injection E as <-; exact HI|].
  step_inv E. set (p := sproc s) in *. rewrite !sigbit_testbit in E by lia.
  destruct (Z.testbit (sigpending p) (signo mod 32)) eqn:Ep; cbn [negb] in E.
  2:{ refine (IH _ _ _ E _ _ HI _); [lia | lia|]. apply cleared_next; [lia | exact Hc|]. intros [-> | ->]; exact Ep. }
  destruct (negb (signo =? SIGKILL) && Z.testbit (sigmask p) (signo mod 32)) eqn:Em.
  { apply andb_true_iff in Em as [Hk Em]. refine (IH _ _ _ E _ _ HI _); [lia | lia|]. apply cleared_next; [lia | exact Hc|].
    intros [-> | ->]; [discriminate Hk|]. change (19 mod 32) with 19 in Em. rewrite (si_mstop p HI) in Em. discriminate. }
  step_inv E. step_inv E. cbn [sproc] in *.
  change (sproc s <| sigpending := Z.ldiff (sigpending (sproc s)) (sigbit signo) |>) with (taken p signo) in E. set (p1 := taken p signo) in *.
  assert (sig_inv p1) as HI1 by (apply (sig_inv_same p); [reflexivity | reflexivity | reflexivity | exact HI]).
  destruct ((signo =? SIGKILL) || (x =? SIG_DFL)) eqn:Ek.
  { step_inv E. injection E as <-. cbn [sproc]. apply (sig_inv_same p1); [reflexivity | reflexivity | reflexivity | exact HI1]. }
  apply orb_false_iff in Ek as [Ek Ed]. apply Z.eqb_neq in Ek, Ed. unfold SIGKILL in Ek.
  assert (signo <> 19) as Hstop by (intros ->; apply Ed; pose proof (si_stop p HI) as Hs; change (Z.to_nat 19) with 19%nat in *; congruence).
  destruct (x =? SIG_IGN).
  { refine (IH _ _ _ E _ _ HI1 _); [lia | lia|]. destruct Hc as [C9 C19].
    split; intros Hlt; change (sigpending (sproc (Sigst p1 (sk s)))) with (Z.ldiff (sigpending p) (sigbit signo)); rewrite Z.ldiff_spec;
      [rewrite C9 by lia | rewrite C19 by lia]; reflexivity. }
  step_inv E. destruct (x0 =? 0).
  { step_inv E. injection E as <-. cbn [sproc]. apply (sig_inv_same p1); [reflexivity | reflexivity | reflexivity | exact HI1]. }
  destruct (pending_not_special p signo) as [N9 N19]; auto; [lia|].
  exact (deliver_keeps pad signo x x0 ltac:(lia) N9 N19 _ _ _ E HI1).
Qed.

Lemma dosignal_eq pad : dosignal pad = dosignal_from pad (NSIG - 1) 1.
Proof. reflexivity. Qed.

Lemma dosignal_keeps pad : keeps (dosignal pad).
Proof.
  rewrite dosignal_eq. generalize (eq_refl : Z.of_nat (NSIG - 1) = 64). generalize (NSIG - 1)%nat. intros n Hn s [] s' E HI.
  apply (dosignal_from_keeps pad n 1 s s' E); [lia | lia | exact HI | split; lia].
Qed.

Lemma run_sig_keeps c : keeps (run_sig c).
Proof.
  destruct other_calls_keep as (K1 & K2 & K3).
  assert (forall A (m : M sigst A), keeps m -> keeps (m ;; mret tt)) as Hret by (intros A m Hm; apply keeps_bind; auto with keeps).
  destruct c; cbn [run_sig].
  - apply Hret, procmask_keeps.
  - apply Hret, sigaction_keeps.
  - apply Hret, signal_keeps.
  - apply Hret, K1.
  - apply Hret, K2.
  - exact K3.
  - apply dosignal_keeps.
Qed.


(** A pending SIGKILL kills the process at the next dosignal that no lower signal
    diverts, whatever the mask and the handlers say. *)
Theorem sigkill_kills pad p k :
  Z.land (sigpending p) (sigbit SIGKILL) <> 0 -> (forall j, 1 <= j < 9 -> passed p j) -> length (sighandlers p) = NSIG ->
  exists p', dosignal pad (Sigst p k) = Ok tt (Sigst p' k) /\ killed p' = 1 /\ termsig p' = SIGKILL.
Proof.
  intros Hp Hf Hl. rewrite dosignal_eq. replace (NSIG - 1)%nat with (Z.to_nat 8 + S 55)%nat by reflexivity. generalize 55%nat. intros fuel.
  rewrite (dosignal_skip pad p k 8) by (lia || intros j Hj; apply Hf; lia). cbn [dosignal_from]. erewrite bind_step by reflexivity.
  cbn [sproc]. change (1 + 8) with SIGKILL. rewrite (proj2 (nz_true _) Hp). change (SIGKILL =? SIGKILL) with true. cbn [negb andb orb].
  destruct (lookup_lt_is_Some_2 (sighandlers p) 9) as [h Hh]; [rewrite Hl; unfold NSIG; lia|].
  erewrite bind_step by reflexivity. rewrite (bind_step _ _ _ _ _ (aget_Ok _ _ SIGKILL h _ ltac:(unfold SIGKILL; lia) Hh)). cbn [orb].
  eexists. split; [reflexivity | split; reflexivity].
Qed.

(** ** A concrete process

    It catches SIGINT at 5000, which is pending; its stack ends at 8000. *)
Definition sig_proc : proc :=
  Proc 8192 vm_dir 0 RUNNING 1 None (zero_tf <| esp := 8000 |> <| eip := 4200 |> <| eax := 77 |>) 0 0 [] 0 EmptyString 0 0 0 0 0 0 0 0 0
    (<[2%nat := 5000]> (replicate NSIG 0)) (<[2%nat := 6000]> (replicate NSIG 0)) 0 0 0 4 0 0 0 0 0 0 [].

Lemma sig_proc_ready : ready_signal sig_proc 2 5000 6000.
Proof.
  split; [lia | discriminate | | vm_compute; discriminate | reflexivity | reflexivity | split; discriminate | reflexivity | discriminate].
  intros j Hj. assert (j = 1) as -> by lia. left. reflexivity.
Qed.

Lemma sig_proc_tf : tf_ok (tf sig_proc).
Proof. split; repeat first [apply Forall_nil_2 | apply Forall_cons; split]; split; vm_compute; congruence. Qed.

Lemma sig_proc_inv : sig_inv sig_proc.
Proof. split; reflexivity. Qed.

Lemma dosignal_delivers_witness :
  exists k k' T, dosignal (fun _ => 0) (Sigst sig_proc k) = Ok tt (Sigst (delivered sig_proc 2 5000) k')
    /\ holds k' T 7912 (handler_frame (fun _ => 0) (tf sig_proc) 2 6000).
Proof.
  destruct vm1_exists as (k & L & T & HA & Hp). pose proof (vm1_user k T Hp) as Hu.
  destruct (dosignal_delivers KERNBASE vm_top (Z.le_refl _) (fun _ => 0) sig_proc k L T 2 5000 6000 HA sig_proc_ready) as (k' & E & _ & H & _).
  - change (esp (tf sig_proc)) with 8000. lia.
  - change (esp (tf sig_proc)) with 8000. intros v Hv. apply Hu. lia.
  - exists k, k', T. split; [exact E | exact H].
Defined.


(** The process asks to catch SIGKILL and is refused. *)
Lemma sig_proc_step : sig_step sig_proc (sig_proc <| tf := zero_tf <| ebx := 9 |> |> <| sigpending := 0 |>).
Proof. apply (sig_step_call SSignal (zero_tf <| ebx := 9 |>) 0 vm0 sig_proc _ vm0). vm_compute. reflexivity. Qed.


Definition sig_blocked : proc := sig_proc <| sigpending := 512 |> <| sigmask := 4294967295 |>.
Lemma sigkill_kills_witness :
  exists p', dosignal (fun _ => 0) (Sigst sig_blocked vm0) = Ok tt (Sigst p' vm0) /\ killed p' = 1.
Proof.
  destruct (sigkill_kills (fun _ => 0) sig_blocked vm0) as (p' & E & Hk & _).
  - vm_compute. discriminate.
  - intros j Hj. left. assert (j = 1 \/ j = 2 \/ j = 3 \/ j = 4 \/ j = 5 \/ j = 6 \/ j = 7 \/ j = 8) as Hc by lia.
    destruct Hc as [-> | [-> | [-> | [-> | [-> | [-> | [-> | ->]]]]]]]; reflexivity.
  - reflexivity.
  - exists p'. split; assumption.
Defined.

(** ** What the alarm does

    The tick that ends an alarm drops every pending signal and sends none. *)
Theorem alarm_drops_signals p k :
  alarmticks p = 1 -> alarm_tick (Sigst p k) = Ok tt (Sigst (p <| alarmticks := 0 |> <| sigpending := 0 |>) k).
Proof. intros H. destruct p. cbn in H. subst. reflexivity. Qed.
