(* ===== verification/Block.v ===== *)
(** * Disk blocks and the buffer-cache interface

    A disk block is the list of its bytes; the structs the file system overlays
    on a block are read and written with the little-endian accessors below.
    [BufCache] is what bio.c promises to log.c and fs.c: buffers by block number,
    pinned by the log, written through to the disk.  Bio.v implements it. *)
From Stdlib Require Import ZArith Lia.
From stdpp Require Import base numbers list gmap strings.
From S2P Require Import Prelude.
Local Open Scope Z_scope.

Definition BSIZE : Z := 2048.
Definition NBUF : nat := 30.
Definition ROOTDEV : Z := 1.
Abbreviation blk := (list Z).

(** ** Little-endian accessors *)

Definition get8 (d : blk) (off : Z) : Z := default 0 (d !! Z.to_nat off).
Definition put8 (d : blk) (off v : Z) : blk := <[Z.to_nat off := u8 v]> d.

Definition get16 (d : blk) (off : Z) : Z := get8 d off + 256 * get8 d (off + 1).
Definition put16 (d : blk) (off v : Z) : blk := put8 (put8 d off v) (off + 1) (Z.shiftr v 8).

Definition get32 (d : blk) (off : Z) : Z := get16 d off + 65536 * get16 d (off + 2).
Definition put32 (d : blk) (off v : Z) : blk := put16 (put16 d off v) (off + 2) (Z.shiftr v 16).

Definition bytes_ok (d : blk) : Prop := Forall (in_u 8) d.

Create Rewrite HintDb blk.

Lemma length_put8 d off v : length (put8 d off v) = length d.
Proof. apply length_insert. Qed.
Lemma length_put16 d off v : length (put16 d off v) = length d.
Proof. unfold put16. rewrite !length_put8. reflexivity. Qed.
Lemma length_put32 d off v : length (put32 d off v) = length d.
Proof. unfold put32. rewrite !length_put16. reflexivity. Qed.
#[global] Hint Rewrite length_put8 length_put16 length_put32 : blk.

Lemma get8_put8 d off v : 0 <= off < Z.of_nat (length d) -> get8 (put8 d off v) off = u8 v.
Proof. intros H. unfold get8, put8. rewrite list_lookup_insert_eq by lia. reflexivity. Qed.

Lemma get8_put8_ne d off off' v : 0 <= off -> 0 <= off' -> off <> off' -> get8 (put8 d off v) off' = get8 d off'.
Proof. intros H1 H2 H3. unfold get8, put8. rewrite list_lookup_insert_ne by lia. reflexivity. Qed.

Lemma get8_put16_ne d off off' v :
  0 <= off -> 0 <= off' -> off' < off \/ off + 2 <= off' -> get8 (put16 d off v) off' = get8 d off'.
Proof. intros. unfold put16. rewrite !get8_put8_ne by lia. reflexivity. Qed.

Lemma get8_put32_ne d off off' v :
  0 <= off -> 0 <= off' -> off' < off \/ off + 4 <= off' -> get8 (put32 d off v) off' = get8 d off'.
Proof. intros. unfold put32. rewrite !get8_put16_ne by lia. reflexivity. Qed.

Lemma u16_split v : u8 v + 256 * u8 (Z.shiftr v 8) = u16 v.
Proof.
  unfold uwrap. rewrite Z.shiftr_div_pow2 by lia.
  change (2 ^ 16) with (2 ^ 8 * 2 ^ 8). rewrite Z.rem_mul_r by lia. lia.
Qed.

Lemma u32_split v : u16 v + 65536 * u16 (Z.shiftr v 16) = u32 v.
Proof.
  unfold uwrap. rewrite Z.shiftr_div_pow2 by lia.
  change (2 ^ 32) with (2 ^ 16 * 2 ^ 16). rewrite Z.rem_mul_r by lia. lia.
Qed.

Lemma get16_put16 d off v : 0 <= off -> off + 2 <= Z.of_nat (length d) -> get16 (put16 d off v) off = u16 v.
Proof.
  intros H1 H2. unfold get16, put16. rewrite get8_put8_ne, get8_put8 by (autorewrite with blk; lia).
  rewrite get8_put8 by (autorewrite with blk; lia). apply u16_split.
Qed.

Lemma get16_put16_ne d off off' v :
  0 <= off -> 0 <= off' -> off' + 2 <= off \/ off + 2 <= off' -> get16 (put16 d off v) off' = get16 d off'.
Proof. intros. unfold get16. rewrite !get8_put16_ne by lia. reflexivity. Qed.

Lemma get32_put32 d off v : 0 <= off -> off + 4 <= Z.of_nat (length d) -> get32 (put32 d off v) off = u32 v.
Proof.
  intros H1 H2. unfold get32, put32. rewrite get16_put16_ne, get16_put16 by (autorewrite with blk; lia).
  rewrite get16_put16 by (autorewrite with blk; lia). apply u32_split.
Qed.

Lemma get32_put32_ne d off off' v :
  0 <= off -> 0 <= off' -> off' + 4 <= off \/ off + 4 <= off' -> get32 (put32 d off v) off' = get32 d off'.
Proof. intros. unfold get32, get16. rewrite !get8_put32_ne by lia. reflexivity. Qed.

Lemma get16_put32_ne d off off' v :
  0 <= off -> 0 <= off' -> off' + 2 <= off \/ off + 4 <= off' -> get16 (put32 d off v) off' = get16 d off'.
Proof. intros. unfold get16. rewrite !get8_put32_ne by lia. reflexivity. Qed.

Lemma get32_put16_ne d off off' v :
  0 <= off -> 0 <= off' -> off' + 4 <= off \/ off + 2 <= off' -> get32 (put16 d off v) off' = get32 d off'.
Proof. intros. unfold get32, get16. rewrite !get8_put16_ne by lia. reflexivity. Qed.

(** ** Maps from block numbers *)

Definition bupd {A} (f : Z -> A) (b : Z) (x : A) : Z -> A := fun b' => if b' =? b then x else f b'.

Lemma bupd_eq {A} (f : Z -> A) b x : bupd f b x b = x.
Proof. unfold bupd. rewrite Z.eqb_refl. reflexivity. Qed.
Lemma bupd_ne {A} (f : Z -> A) b b' x : b' <> b -> bupd f b x b' = f b'.
Proof. intros H. unfold bupd. rewrite (proj2 (Z.eqb_neq b' b) H). reflexivity. Qed.

(** ** The interface of the buffer cache *)

(** The disk, the latest contents of every block, the buffers handed out with
    their blocks, the blocks the log keeps dirty, and the disk writes so far. *)
Record cache := Cache {
  cdisk : Z -> blk;
  ccur : Z -> blk;
  cheld : gmap nat Z;
  cpin : gset Z;
  cwrites : list (Z * blk)
}.
#[export] Instance cache_fields : Fields cache := fun c =>
  Cache (cdisk c) (ccur c) (cheld c) (cpin c) (cwrites c).

Definition held_blocks (c : cache) : gset Z := list_to_set (map_to_list (cheld c)).*2.

(** Reading [b] finds a buffer: those in use, the pinned ones and [b] fit. *)
Definition room (c : cache) (b : Z) : Prop :=
  (size ({[b]} ∪ held_blocks c ∪ cpin c) <= NBUF)%nat.

Class BufCache (S : Type) := {
  bread : Z -> Z -> M S nat;        (* buffer_read *)
  bwrite : nat -> M S unit;         (* buffer_write *)
  brelse : nat -> M S unit;         (* buffer_release *)
  bdata : nat -> M S blk;           (* reading b->data *)
  bstore : nat -> blk -> M S unit;  (* writing b->data *)
  bpin : nat -> M S unit;           (* b->flags |= B_DIRTY *)
  bblockno : nat -> M S Z;          (* b->blockno *)
  bfresh : (Z -> blk) -> S;         (* the cache after a reboot with this disk *)
  bdisk : S -> Z -> blk;            (* what the disk holds *)
  bwrites : S -> list (Z * blk);  (* the disk writes since the reboot *)
  crep : S -> cache -> Prop
}.

Class BufCacheLaws (S : Type) `{BufCache S} : Prop := {
  bread_ok s c b : crep s c -> b ∉ held_blocks c -> room c b -> 0 <= b < 50000 ->
    exists h s', bread ROOTDEV b s = Ok h s' /\ cheld c !! h = None
      /\ crep s' (c <| cheld := <[h := b]> (cheld c) |>);
  bdata_ok s c h b : crep s c -> cheld c !! h = Some b -> bdata h s = Ok (ccur c b) s;
  bblockno_ok s c h b : crep s c -> cheld c !! h = Some b -> bblockno h s = Ok b s;
  bstore_ok s c h b d : crep s c -> cheld c !! h = Some b -> Z.of_nat (length d) = BSIZE ->
    exists s', bstore h d s = Ok tt s' /\ crep s' (c <| ccur := bupd (ccur c) b d |>);
  bpin_ok s c h b : crep s c -> cheld c !! h = Some b ->
    exists s', bpin h s = Ok tt s' /\ crep s' (c <| cpin := {[b]} ∪ cpin c |>);
  bwrite_ok s c h b : crep s c -> cheld c !! h = Some b ->
    exists s', bwrite h s = Ok tt s'
      /\ crep s' (c <| cdisk := bupd (cdisk c) b (ccur c b) |> <| cpin := cpin c ∖ {[b]} |>
                    <| cwrites := cwrites c ++ [(b, ccur c b)] |>);
  brelse_ok s c h b : crep s c -> cheld c !! h = Some b -> b ∈ cpin c \/ ccur c b = cdisk c b ->
    exists s', brelse h s = Ok tt s' /\ crep s' (c <| cheld := delete h (cheld c) |>);
  bfresh_ok d : (forall b, Z.of_nat (length (d b)) = BSIZE) -> crep (bfresh d) (Cache d d ∅ ∅ []);
  crep_size s c b : crep s c -> Z.of_nat (length (ccur c b)) = BSIZE;
  crep_dsize s c b : crep s c -> Z.of_nat (length (cdisk c b)) = BSIZE;
  crep_disk s c b : crep s c -> bdisk s b = cdisk c b;
  crep_writes s c : crep s c -> bwrites s = cwrites c;
  crep_clean s c b : crep s c -> b ∉ held_blocks c -> b ∉ cpin c -> ccur c b = cdisk c b
}.

(** ** The superblock *)

Record superblock := Superblock {
  sb_size : Z; sb_nblocks : Z; sb_ninodes : Z; sb_nlog : Z;
  sb_logstart : Z; sb_inodestart : Z; sb_bmapstart : Z
}.

Definition decode_sb (d : blk) : superblock :=
  Superblock (get32 d 0) (get32 d 4) (get32 d 8) (get32 d 12) (get32 d 16) (get32 d 20) (get32 d 24).

Definition readsb {S : Type} `{BufCache S} (dev : Z) : M S superblock :=
  bp ← bread dev 1;
  d ← bdata bp;
  brelse bp;;
  mret (decode_sb d).
