(* ===== verification/Bio.v ===== *)
(** * The buffer cache (src/kernel/fs/bio.c) and the IDE request path
    (src/drivers/ide/ide.c: ide_start, ide_interrupt, ide_dirty_write)

    Buffers are an array of [NBUF] structs plus the list head, the last index;
    [prev] and [next] are indices into it, as the C pointers are.  The disk is a
    function from drive and block number to bytes; [writes] records the blocks
    the drive was told to write, in order.  A process that waits for the disk
    sleeps until the disk interrupt has served its request.  IdePorts.v has ide_start at
    the ports and shows that its effect is the one here. *)
From Stdlib Require Import ZArith Lia.
From stdpp Require Import base numbers list gmap strings.
From S2P Require Import Prelude Locks Block.
Local Open Scope Z_scope.

Definition B_VALID : Z := 2.
Definition B_DIRTY : Z := 4.
Definition FSSIZE : Z := 50000.

Record buf := Buf {
  flags : Z; dev : Z; blockno : Z; lock : sleeplock; refcnt : Z;
  prev : nat; next : nat; data : blk
}.
#[export] Instance buf_fields : Fields buf := fun b =>
  Buf (flags b) (dev b) (blockno b) (lock b) (refcnt b) (prev b) (next b) (data b).

Record bstate := BState {
  bufs : list buf;               (* bcache.buf, then bcache.head *)
  bclocked : bool;               (* bcache.lock *)
  idequeue : list nat;           (* through qnext *)
  havedisk1 : bool;
  rderr : Z -> Z -> bool;        (* the drive reports an error on a read *)
  disk : Z -> Z -> blk;        (* drive, block number *)
  writes : list (Z * blk);     (* block writes sent to a drive *)
  mypid : Z
}.
#[export] Instance bstate_fields : Fields bstate := fun s =>
  BState (bufs s) (bclocked s) (idequeue s) (havedisk1 s) (rderr s) (disk s) (writes s) (mypid s).

Definition head : nat := NBUF.

Definition bget (i : nat) : M bstate buf :=
  s ← get; match bufs s !! i with Some b => mret b | None => fault "buffer pointer" end.
Definition bmod (i : nat) (f : buf -> buf) : M bstate unit :=
  modify (fun s => s <| bufs := alter f i (bufs s) |>).

Definition acquire_bc : M bstate unit :=
  s ← get; if bclocked s then panic "acquire" else put (s <| bclocked := true |>).
Definition release_bc : M bstate unit :=
  s ← get; if bclocked s then put (s <| bclocked := false |>) else panic "release".

(** Run a sleep-lock operation on the lock of buffer [i]. *)
Definition on_lock {A} (i : nat) (m : M sleeplock A) : M bstate A :=
  b ← bget i;
  match m (lock b) with
  | Ok a l => bmod i (fun b => b <| lock := l |>);; mret a
  | Panic w => panic w
  | Fault w => fault w
  | Block ch l => bmod i (fun b => b <| lock := l |>);; block ch
  end.

Definition lock_buf (i : nat) : M bstate unit :=
  s ← get; on_lock i (acquiresleep (Z.of_nat i) (mypid s)).
Definition holding_buf (i : nat) : M bstate bool := s ← get; on_lock i (holdingsleep (mypid s)).
Definition unlock_buf (i : nat) : M bstate unit := on_lock i releasesleep.

(** ** The disk *)

Definition has_flag (b : buf) (f : Z) : bool := nz (Z.land (flags b) f).

(** Send the request of buffer [i] to the drive. *)
Definition ide_start (i : nat) : M bstate unit :=
  b ← bget i;
  if FSSIZE <=? blockno b then panic "fatal ide error: incorrect number of blocks"
  else if has_flag b B_DIRTY then
    modify (fun s =>
      s <| disk := fun dr bn => if (dr =? Z.land (dev b) 1) && (bn =? blockno b) then data b else disk s dr bn |>
        <| writes := writes s ++ [(blockno b, data b)] |>)
  else mret tt.

Definition ide_interrupt : M bstate unit :=
  s ← get;
  match idequeue s with
  | [] => mret tt
  | i :: q =>
      put (s <| idequeue := q |>);;
      b ← bget i;
      (if has_flag b B_DIRTY || rderr s (Z.land (dev b) 1) (blockno b) then mret tt
       else s ← get; bmod i (fun b => b <| data := disk s (Z.land (dev b) 1) (blockno b) |>));;
      bmod i (fun b => b <| flags := Z.lor (flags b) B_VALID |>);;
      bmod i (fun b => b <| flags := Z.ldiff (flags b) B_DIRTY |>);;
      match q with [] => mret tt | j :: _ => ide_start j end
  end.

(** [while ((b->flags & (B_VALID|B_DIRTY)) != B_VALID) sleep(b, &idelock);]
    each sleep lasts until a disk interrupt. *)
Fixpoint ide_wait (fuel : nat) (i : nat) : M bstate unit :=
  b ← bget i;
  if Z.land (flags b) (Z.lor B_VALID B_DIRTY) =? B_VALID then mret tt
  else match fuel with
       | O => block (Z.of_nat i)
       | S fuel' => ide_interrupt;; ide_wait fuel' i
       end.

Definition ide_dirty_write (i : nat) : M bstate unit :=
  h ← holding_buf i;
  if negb h then panic "iderw: buf not locked"
  else
    b ← bget i;
    if Z.land (flags b) (Z.lor B_VALID B_DIRTY) =? B_VALID then panic "iderw: nothing to do"
    else
      s ← get;
      if negb (dev b =? 0) && negb (havedisk1 s) then panic "iderw: ide disk 1 not present"
      else
        put (s <| idequeue := idequeue s ++ [i] |>);;
        (match idequeue s with [] => ide_start i | _ :: _ => mret tt end);;
        ide_wait (S (length (idequeue s))) i.

(** ** The cache *)

Definition init_buf (i : nat) : M bstate unit :=
  h ← bget head;
  bmod i (fun b => b <| next := next h |>);;
  bmod i (fun b => b <| prev := head |>);;
  bmod i (fun b => b <| lock := initsleeplock |>);;
  h ← bget head;
  bmod (next h) (fun b => b <| prev := i |>);;
  bmod head (fun b => b <| next := i |>).

Fixpoint init_bufs (l : list nat) : M bstate unit :=
  match l with [] => mret tt | i :: l' => init_buf i;; init_bufs l' end.

Definition buffer_init : M bstate unit :=
  modify (fun s => s <| bclocked := false |>);;
  bmod head (fun b => b <| prev := head |>);;
  bmod head (fun b => b <| next := head |>);;
  init_bufs (seq 0 NBUF).

(** The two list walks of [buffer_get] and the one of [sync]. *)
Fixpoint find_cached (fuel : nat) (d bn : Z) (i : nat) : M bstate (option nat) :=
  match fuel with
  | O => fault "buffer list"
  | S fuel' =>
      if decide (i = head) then mret None
      else
        b ← bget i;
        if (dev b =? d) && (blockno b =? bn) then mret (Some i)
        else find_cached fuel' d bn (next b)
  end.

Fixpoint find_victim (fuel : nat) (i : nat) : M bstate (option nat) :=
  match fuel with
  | O => fault "buffer list"
  | S fuel' =>
      if decide (i = head) then mret None
      else
        b ← bget i;
        if (refcnt b =? 0) && negb (has_flag b B_DIRTY) then mret (Some i)
        else find_victim fuel' (prev b)
  end.

Definition buffer_get (d bn : Z) : M bstate nat :=
  acquire_bc;;
  h ← bget head;
  hit ← find_cached (S NBUF) d bn (next h);
  match hit with
  | Some i =>
      bmod i (fun b => b <| refcnt := u32 (refcnt b + 1) |>);;
      release_bc;; lock_buf i;; mret i
  | None =>
      h ← bget head;
      victim ← find_victim (S NBUF) (prev h);
      match victim with
      | Some i =>
          bmod i (fun b => b <| dev := d |> <| blockno := bn |> <| flags := 0 |> <| refcnt := 1 |>);;
          release_bc;; lock_buf i;; mret i
      | None => panic "buffer_get: no buffers"
      end
  end.

Definition buffer_read (d bn : Z) : M bstate nat :=
  i ← buffer_get d bn;
  b ← bget i;
  when (negb (has_flag b B_VALID)) (ide_dirty_write i);;
  mret i.

Definition buffer_write (i : nat) : M bstate unit :=
  h ← holding_buf i;
  if negb h then panic "buffer_write"
  else
    bmod i (fun b => b <| flags := Z.lor (flags b) B_DIRTY |>);;
    ide_dirty_write i.

(** Take [i] out of the list and put it behind the head. *)
Definition to_front (i : nat) : M bstate unit :=
  b ← bget i; bmod (next b) (fun n => n <| prev := prev b |>);;
  b ← bget i; bmod (prev b) (fun p => p <| next := next b |>);;
  h ← bget head; bmod i (fun b => b <| next := next h |>);;
  bmod i (fun b => b <| prev := head |>);;
  h ← bget head; bmod (next h) (fun n => n <| prev := i |>);;
  bmod head (fun h => h <| next := i |>).

Definition buffer_release (i : nat) : M bstate unit :=
  h ← holding_buf i;
  if negb h then panic "brelse"
  else
    unlock_buf i;;
    acquire_bc;;
    bmod i (fun b => b <| refcnt := u32 (refcnt b - 1) |>);;
    b ← bget i;
    when (refcnt b =? 0) (to_front i);;
    release_bc.

(** sync: the dirty buffers in list order, then a write of each that is still
    dirty. *)
Fixpoint find_dirty (fuel : nat) (i : nat) : M bstate (list nat) :=
  match fuel with
  | O => fault "buffer list"
  | S fuel' =>
      if decide (i = head) then mret []
      else
        b ← bget i;
        rest ← find_dirty fuel' (next b);
        mret (if has_flag b B_DIRTY then i :: rest else rest)
  end.

Fixpoint sync_bufs (l : list nat) : M bstate unit :=
  match l with
  | [] => mret tt
  | i :: l' =>
      lock_buf i;;
      b ← bget i;
      when (has_flag b B_DIRTY) (buffer_write i);;
      unlock_buf i;;
      sync_bufs l'
  end.

Definition sync : M bstate unit :=
  acquire_bc;;
  h ← bget head;
  dirty ← find_dirty (S NBUF) (next h);
  release_bc;;
  sync_bufs dirty.

(** ** The doubly linked list

    [linked nx pv p]: along the path [p] the [next] and [prev] links agree. *)

Fixpoint linked (nx pv : nat -> nat) (p : list nat) : Prop :=
  match p with
  | [] => True
  | a :: p' => match p' with [] => True | b :: _ => nx a = b /\ pv b = a /\ linked nx pv p' end
  end.

Definition nxt (l : list buf) (i : nat) : nat := match l !! i with Some b => next b | None => 0%nat end.
Definition prv (l : list buf) (i : nat) : nat := match l !! i with Some b => prev b | None => 0%nat end.

(** [order]: the buffers from the most to the least recently used. *)
Record list_ok (l : list buf) (order : list nat) : Prop := ListOk {
  lo_len : length l = S NBUF;
  lo_perm : order ≡ₚ seq 0 NBUF;
  lo_link : linked (nxt l) (prv l) (head :: order ++ [head])
}.

Lemma linked_cons nx pv a b p : linked nx pv (a :: b :: p) <-> nx a = b /\ pv b = a /\ linked nx pv (b :: p).
Proof. reflexivity. Qed.

Lemma linked_app nx pv p x q :
  linked nx pv (p ++ x :: q) <-> linked nx pv (p ++ [x]) /\ linked nx pv (x :: q).
Proof.
  induction p as [|a p IH]; [cbn; tauto|]. destruct p as [|b p].
  - cbn [app]. rewrite (linked_cons _ _ a x q), (linked_cons _ _ a x []). cbn [linked]. tauto.
  - cbn [app] in *. rewrite !(linked_cons _ _ a b). tauto.
Qed.

(** The links of the path, nothing else, decide [linked]. *)
Lemma linked_ext nx nx' pv pv' p x :
  (forall a, a ∈ p -> nx' a = nx a) -> (forall b, b ∈ tail (p ++ [x]) -> pv' b = pv b) ->
  linked nx pv (p ++ [x]) -> linked nx' pv' (p ++ [x]).
Proof.
  revert x. induction p as [|a p IH]; intros x Hn Hp H; [exact I|].
  destruct (p ++ [x]) as [|b q] eqn:E; [destruct p; discriminate|].
  cbn [app] in *. rewrite E in *. cbn [tail] in *. destruct H as (H1 & H2 & H3). split_and!.
  - rewrite Hn by set_solver. exact H1.
  - rewrite Hp by set_solver. exact H2.
  - cbn [tail]. rewrite <-E in *. apply IH; [set_solver| |exact H3].
    intros c Hc. apply Hp. rewrite E in *. cbn in Hc. set_solver.
Qed.

Definition fset (f : nat -> nat) (i x : nat) : nat -> nat := fun j => if decide (j = i) then x else f j.

Lemma fset_eq f i x : fset f i x i = x.
Proof. unfold fset. rewrite decide_True by reflexivity. reflexivity. Qed.
Lemma fset_ne f i x j : j <> i -> fset f i x j = f j.
Proof. intros. unfold fset. rewrite decide_False by assumption. reflexivity. Qed.

(** Taking [b] out of the ring. *)
Lemma linked_unlink nx pv h o1 b o2 :
  NoDup (h :: o1 ++ b :: o2) -> linked nx pv ((h :: o1) ++ b :: o2 ++ [h]) ->
  linked (fset nx (pv b) (nx b)) (fset pv (nx b) (pv b)) ((h :: o1) ++ o2 ++ [h]).
Proof.
  intros Hnd H. change (h :: o1 ++ b :: o2) with ((h :: o1) ++ b :: o2) in Hnd.
  apply NoDup_app in Hnd as (Hnd1 & Hdis & Hnd2).
  destruct (exists_last (l := h :: o1)) as (p & x & Ep); [discriminate|].
  assert (exists y q, o2 ++ [h] = y :: q) as (y & q & Eq) by (destruct o2; cbn; eauto).
  assert (x ∈ h :: o1) as Hx0 by (rewrite Ep; set_solver).
  assert (y ∈ o2 \/ y = h) as Hy0.
  { destruct o2; cbn in Eq; injection Eq as <- _; [right | left]; set_solver. }
  apply linked_app in H as [H1 H2].
  rewrite Ep, <-app_assoc in H1. cbn [app] in H1. apply linked_app in H1 as [H1 H1'].
  rewrite Eq in H2. rewrite linked_cons in H1', H2.
  destruct H1' as (Hx & Hb & _), H2 as (Hb' & Hy & H2). rewrite Hb, Hb'.
  rewrite Eq, Ep, <-app_assoc. cbn [app]. apply linked_app. split; [|rewrite linked_cons; split_and!].
  - rewrite <-Ep in *. rewrite Ep in H1 |- *. apply (linked_ext nx _ pv _ p x); [| |exact H1].
    + intros a Ha. apply fset_ne. intros ->. rewrite Ep in Hnd1. apply NoDup_app in Hnd1. set_solver.
    + intros c Hc. apply fset_ne. rewrite <-Ep in Hc. cbn in Hc. intros ->.
      apply NoDup_cons in Hnd1. destruct Hy0 as [? | ->]; [|tauto]. apply (Hdis y); set_solver.
  - apply fset_eq.
  - apply fset_eq.
  - rewrite <-Eq in *. apply (linked_ext nx _ pv _ o2 h); [| |exact H2].
    + intros a Ha. apply fset_ne. intros ->. apply (Hdis x); set_solver.
    + intros c Hc. apply fset_ne. intros ->. destruct o2 as [|y' o2]; [cbn in Hc; set_solver|].
      cbn in Eq, Hc. injection Eq as -> _. apply NoDup_cons in Hnd2 as [_ Hnd2]. apply NoDup_cons in Hnd2 as [Hy2 _].
      apply elem_of_app in Hc as [Hc | Hc]; [exact (Hy2 Hc)|].
      assert (y = h) as -> by set_solver. apply (Hdis h); set_solver.
Qed.

(** Putting [b] behind the head. *)
Lemma linked_push nx pv h b o :
  b <> h -> b ∉ o -> NoDup (h :: o) -> linked nx pv (h :: o ++ [h]) ->
  linked (fset (fset nx b (nx h)) h b) (fset (fset pv b h) (nx h) b) (h :: b :: o ++ [h]).
Proof.
  intros Hbh Hbo Hnd H. assert (exists y q, o ++ [h] = y :: q) as (y & q & Eq) by (destruct o; cbn; eauto).
  assert (y ∈ o \/ y = h) as Hy0.
  { destruct o; cbn in Eq; injection Eq as <- _; [right | left]; set_solver. }
  rewrite Eq in *. rewrite linked_cons in H. destruct H as (H1 & H2 & H3). rewrite H1.
  assert (b <> y) by (destruct Hy0 as [? | ->]; [set_solver | congruence]).
  rewrite !linked_cons. split_and!.
  - apply fset_eq.
  - rewrite fset_ne by assumption. apply fset_eq.
  - rewrite fset_ne by assumption. apply fset_eq.
  - apply fset_eq.
  - rewrite <-Eq in *. apply NoDup_cons in Hnd as [Hh Ho].
    apply (linked_ext nx _ pv _ o h); [| |exact H3].
    + intros a Ha. rewrite !fset_ne by set_solver. reflexivity.
    + intros c Hc. destruct o as [|y' o]; [cbn in Hc; set_solver|].
      cbn in Eq, Hc. injection Eq as -> _. apply NoDup_cons in Ho as [Hy2 _].
      rewrite !fset_ne by set_solver. reflexivity.
Qed.

(** *** The same on the buffers *)

Lemma nxt_next l i x j :
  (i < length l)%nat -> nxt (alter (fun b => b <| next := x |>) i l) j = fset (nxt l) i x j.
Proof.
  intros Hi. unfold nxt, fset. case_decide as E.
  - subst. rewrite list_lookup_alter_eq. destruct (lookup_lt_is_Some_2 l i Hi) as [b ->]. reflexivity.
  - rewrite list_lookup_alter_ne by congruence. reflexivity.
Qed.
Lemma prv_prev l i x j :
  (i < length l)%nat -> prv (alter (fun b => b <| prev := x |>) i l) j = fset (prv l) i x j.
Proof.
  intros Hi. unfold prv, fset. case_decide as E.
  - subst. rewrite list_lookup_alter_eq. destruct (lookup_lt_is_Some_2 l i Hi) as [b ->]. reflexivity.
  - rewrite list_lookup_alter_ne by congruence. reflexivity.
Qed.

(** A field other than [next] changes. *)
Lemma nxt_other l f i j : (forall b, next (f b) = next b) -> nxt (alter f i l) j = nxt l j.
Proof.
  intros Hf. unfold nxt. destruct (decide (j = i)) as [-> | ].
  - rewrite list_lookup_alter_eq. destruct (l !! i); cbn; auto.
  - rewrite list_lookup_alter_ne by congruence. reflexivity.
Qed.
Lemma prv_other l f i j : (forall b, prev (f b) = prev b) -> prv (alter f i l) j = prv l j.
Proof.
  intros Hf. unfold prv. destruct (decide (j = i)) as [-> | ].
  - rewrite list_lookup_alter_eq. destruct (l !! i); cbn; auto.
  - rewrite list_lookup_alter_ne by congruence. reflexivity.
Qed.

Lemma linked_fun nx nx' pv pv' p :
  (forall a, nx' a = nx a) -> (forall a, pv' a = pv a) -> linked nx pv p -> linked nx' pv' p.
Proof.
  intros Hn Hp. induction p as [|a p IH]; [auto|]. destruct p as [|b p]; [auto|].
  rewrite !linked_cons, Hn, Hp. tauto.
Qed.

Lemma list_ok_alter l order f i :
  (forall b, next (f b) = next b) -> (forall b, prev (f b) = prev b) ->
  list_ok l order -> list_ok (alter f i l) order.
Proof.
  intros Hn Hp [H1 H2 H3]. split; [rewrite length_alter; exact H1 | exact H2|].
  eapply linked_fun; [| |exact H3]; intros a; [apply nxt_other, Hn | apply prv_other, Hp].
Qed.

Lemma bget_Ok i b s : bufs s !! i = Some b -> bget i s = Ok b s.
Proof. intros H. unfold bget. mstep. rewrite H. reflexivity. Qed.

Lemma bmod_bind {B} i f (k : unit -> M bstate B) s :
  (bmod i f ≫= k) s = k tt (s <| bufs := alter f i (bufs s) |>).
Proof. reflexivity. Qed.

(** The first buffer of a path that satisfies [f]. *)
Fixpoint first_match (l : list buf) (f : buf -> bool) (o : list nat) : option nat :=
  match o with
  | [] => None
  | i :: o' => match l !! i with
               | Some b => if f b then Some i else first_match l f o'
               | None => None
               end
  end.

Lemma first_match_Some l f o i :
  first_match l f o = Some i -> i ∈ o /\ exists b, l !! i = Some b /\ f b = true.
Proof.
  induction o as [|j o IH]; cbn; [discriminate|]. destruct (l !! j) as [b|] eqn:E; [|discriminate].
  destruct (f b) eqn:Ef; intros H.
  - injection H as <-. split; [set_solver | eauto].
  - destruct (IH H) as [? ?]. split; [set_solver | assumption].
Qed.

Lemma first_match_None l f o :
  (forall i, i ∈ o -> is_Some (l !! i)) -> first_match l f o = None ->
  forall i b, i ∈ o -> l !! i = Some b -> f b = false.
Proof.
  induction o as [|j o IH]; cbn; intros Hs H i b Hi Hb; [set_solver|].
  destruct (Hs j) as [x Hx]; [set_solver|]. rewrite Hx in H. destruct (f x) eqn:E; [discriminate|].
  apply elem_of_cons in Hi as [-> | Hi]; [congruence|]. apply (IH ltac:(set_solver) H i b Hi Hb).
Qed.

Section walks.
Context (s : bstate) (order : list nat) (Hok : list_ok (bufs s) order).

Lemma order_elem i : i ∈ order <-> (i < NBUF)%nat.
Proof. rewrite (lo_perm _ _ Hok), elem_of_seq. lia. Qed.

Lemma order_nodup : NoDup (head :: order).
Proof.
  apply NoDup_cons. split; [rewrite order_elem; unfold head; lia|].
  rewrite (lo_perm _ _ Hok). apply NoDup_seq.
Qed.

Lemma order_length : length order = NBUF.
Proof. rewrite (Permutation_length (lo_perm _ _ Hok)). apply length_seq. Qed.

Lemma order_lookup i : i ∈ order -> is_Some (bufs s !! i).
Proof. intros H. apply lookup_lt_is_Some. rewrite (lo_len _ _ Hok). apply order_elem in H. lia. Qed.

Lemma head_lookup : exists b, bufs s !! head = Some b /\ next b = nxt (bufs s) head /\ prev b = prv (bufs s) head.
Proof.
  destruct (lookup_lt_is_Some_2 (bufs s) head) as [b Hb]; [rewrite (lo_len _ _ Hok); unfold head; lia|].
  exists b. unfold nxt, prv. rewrite Hb. auto.
Qed.

(** Walking [next] from a buffer of the list visits the rest of the order. *)
Lemma find_cached_walk d bn o : forall fuel i,
  (forall j, j ∈ o -> j ∈ order) -> linked (nxt (bufs s)) (prv (bufs s)) (o ++ [head]) ->
  hd head (o ++ [head]) = i -> (length o < fuel)%nat ->
  find_cached fuel d bn i s = Ok (first_match (bufs s) (fun b => (dev b =? d) && (blockno b =? bn)) o) s.
Proof.
  induction o as [|j o IH]; intros fuel i Ho Hl Hi Hf; (destruct fuel as [|fuel]; [cbn in Hf; lia|]);
    cbn in Hi; subst i; cbn [find_cached first_match].
  - reflexivity.
  - assert (j <> head) as Hj.
    { pose proof (proj1 (order_elem j) (Ho j ltac:(set_solver))). unfold head. lia. }
    rewrite decide_False by exact Hj.
    destruct (order_lookup j (Ho j ltac:(set_solver))) as [b Hb]. rewrite Hb.
    erewrite bind_step by (apply bget_Ok, Hb). destruct (_ && _); [reflexivity|].
    assert (exists y q, o ++ [head] = y :: q) as (y & q & Eq) by (destruct o; cbn; eauto).
    cbn [app] in Hl. rewrite Eq, linked_cons in Hl. destruct Hl as (Hn & _ & Hl). unfold nxt in Hn. rewrite Hb in Hn.
    apply IH; [set_solver | rewrite Eq; exact Hl | rewrite Eq; symmetry; exact Hn | cbn in Hf; lia].
Qed.

(** Walking [prev] visits it backwards. *)
Lemma find_victim_walk o : forall fuel i,
  (forall j, j ∈ o -> j ∈ order) -> linked (nxt (bufs s)) (prv (bufs s)) (head :: reverse o) ->
  hd head (o ++ [head]) = i -> (length o < fuel)%nat ->
  find_victim fuel i s = Ok (first_match (bufs s) (fun b => (refcnt b =? 0) && negb (has_flag b B_DIRTY)) o) s.
Proof.
  induction o as [|j o IH]; intros fuel i Ho Hl Hi Hf; (destruct fuel as [|fuel]; [cbn in Hf; lia|]);
    cbn in Hi; subst i; cbn [find_victim first_match].
  - reflexivity.
  - assert (j <> head) as Hj.
    { pose proof (proj1 (order_elem j) (Ho j ltac:(set_solver))). unfold head. lia. }
    rewrite decide_False by exact Hj.
    destruct (order_lookup j (Ho j ltac:(set_solver))) as [b Hb]. rewrite Hb.
    erewrite bind_step by (apply bget_Ok, Hb). destruct (_ && _); [reflexivity|].
    rewrite reverse_cons in Hl.
    assert (linked (nxt (bufs s)) (prv (bufs s)) (head :: reverse o)
      /\ prv (bufs s) j = hd head (o ++ [head])) as [Hl' Hp].
    { destruct o as [|k o].
      - cbn in *. tauto.
      - rewrite reverse_cons in *. change (head :: (reverse o ++ [k]) ++ [j]) with ((head :: reverse o ++ [k]) ++ [j]) in Hl.
        rewrite (app_comm_cons _ [k] head), <-app_assoc in Hl. cbn [app] in Hl.
        change (head :: reverse o ++ [k; j]) with ((head :: reverse o) ++ k :: [j]) in Hl.
        apply linked_app in Hl as [Hl1 Hl2]. split; [exact Hl1|]. cbn in Hl2 |- *. tauto. }
    unfold prv in Hp. rewrite Hb in Hp.
    apply IH; [set_solver | exact Hl' | symmetry; exact Hp | cbn in Hf; lia].
Qed.
End walks.

(** ** Moving a buffer to the front *)

(** A buffer without its links. *)
Definition core (b : buf) : buf := b <| prev := 0%nat |> <| next := 0%nat |>.

Definition same_core (l l' : list buf) : Prop :=
  length l' = length l /\ forall j, core <$> l' !! j = core <$> l !! j.

Lemma same_core_refl l : same_core l l.
Proof. split; reflexivity. Qed.
Lemma same_core_alter l l' f i : (forall b, core (f b) = core b) -> same_core l l' -> same_core l (alter f i l').
Proof.
  intros Hf [H1 H2]. split; [rewrite length_alter; exact H1|]. intros j. rewrite <-H2.
  destruct (decide (j = i)) as [-> | ].
  - rewrite list_lookup_alter_eq. destruct (l' !! i) as [b|]; cbn; [rewrite Hf|]; reflexivity.
  - rewrite list_lookup_alter_ne by congruence. reflexivity.
Qed.

Lemma bget_links i s :
  (i < length (bufs s))%nat ->
  exists b, bget i s = Ok b s /\ next b = nxt (bufs s) i /\ prev b = prv (bufs s) i.
Proof.
  intros H. destruct (lookup_lt_is_Some_2 _ _ H) as [b Hb]. exists b.
  split; [apply bget_Ok, Hb|]. unfold nxt, prv. rewrite Hb. auto.
Qed.

Lemma linked_neighbours nx pv h o1 i o2 :
  linked nx pv ((h :: o1) ++ i :: o2 ++ [h]) -> pv i ∈ h :: o1 /\ nx i ∈ o2 ++ [h].
Proof.
  intros H. destruct (exists_last (l := h :: o1)) as (p & x & Ep); [discriminate|].
  assert (exists y q, o2 ++ [h] = y :: q) as (y & q & Eq) by (destruct o2; cbn; eauto).
  apply linked_app in H as [H1 H2]. rewrite Ep, <-app_assoc in H1. cbn [app] in H1.
  apply linked_app in H1 as [_ H1]. rewrite Eq in H2. rewrite linked_cons in H1, H2.
  destruct H1 as (_ & -> & _), H2 as (-> & _). rewrite Ep, Eq. split; set_solver.
Qed.

Lemma to_front_Ok s o1 i o2 :
  list_ok (bufs s) (o1 ++ i :: o2) ->
  exists l', to_front i s = Ok tt (s <| bufs := l' |>) /\ same_core (bufs s) l'
    /\ list_ok l' (i :: o1 ++ o2).
Proof.
  intros Hok. set (l := bufs s). pose proof (order_nodup s _ Hok) as Hnd.
  destruct Hok as [Hlen Hperm Hl]. fold l in Hlen, Hl.
  change (linked (nxt l) (prv l) ((head :: o1 ++ i :: o2) ++ [head])) in Hl.
  replace ((head :: o1 ++ i :: o2) ++ [head]) with ((head :: o1) ++ i :: o2 ++ [head]) in Hl
    by (cbn; rewrite <-app_assoc; reflexivity).
  pose proof (linked_neighbours _ _ _ _ _ _ Hl) as [Hpv Hnx].
  pose proof (linked_unlink _ _ _ _ _ _ Hnd Hl) as Hu.
  assert (forall j, j ∈ head :: o1 ++ i :: o2 -> (j < length l)%nat) as Hin.
  { intros j Hj. rewrite Hlen. apply elem_of_cons in Hj as [-> | Hj]; [unfold head; lia|].
    rewrite Hperm, elem_of_seq in Hj. lia. }
  assert (nxt l i <> i /\ head <> i) as [Hni Hhi].
  { apply NoDup_cons in Hnd as [Hh Ho]. assert (head <> i) as Hhi by (intros <-; apply Hh; set_solver).
    split; [|exact Hhi]. apply NoDup_app in Ho as (_ & _ & Ho). apply NoDup_cons in Ho as [Hi _].
    intros E. rewrite E in Hnx. apply elem_of_app in Hnx as [? | Hx]; [contradiction|].
    assert (i = head) by set_solver. congruence. }
  set (nx2 := fset (nxt l) (prv l i) (nxt l i)) in *.
  set (pv1 := fset (prv l) (nxt l i) (prv l i)) in *.
  assert (nx2 head ∈ head :: o1 ++ i :: o2) as Hn2.
  { assert (exists y q, o1 ++ o2 ++ [head] = y :: q) as (y & q & Eq) by (destruct o1, o2; cbn; eauto).
    cbn [app] in Hu. rewrite Eq, linked_cons in Hu. destruct Hu as (-> & _).
    assert (y ∈ o1 ++ o2 ++ [head]) by (rewrite Eq; set_solver). set_solver. }
  assert (NoDup (head :: o1 ++ o2)) as Hnd'.
  { apply NoDup_cons in Hnd as [Hh Ho]. apply NoDup_cons. split; [set_solver|].
    rewrite <-Permutation_middle in Ho. apply NoDup_cons in Ho. tauto. }
  assert (i ∉ o1 ++ o2) as Hio.
  { apply NoDup_cons in Hnd as [_ Ho]. rewrite <-Permutation_middle in Ho. apply NoDup_cons in Ho. tauto. }
  cbn [app] in Hu. rewrite app_assoc in Hu.
  pose proof (linked_push nx2 pv1 head i (o1 ++ o2) (not_eq_sym Hhi) Hio Hnd' Hu) as Hp.
  assert (prv l i < length l)%nat as Rp by (apply Hin; set_solver).
  assert (nxt l i < length l)%nat as Rn by (apply Hin; set_solver).
  assert (i < length l)%nat as Ri by (apply Hin; set_solver).
  assert (head < length l)%nat as Rh by (apply Hin; set_solver).
  pose proof (Hin _ Hn2) as R2.
  set (l1 := alter (fun n => n <| prev := prv l i |>) (nxt l i) l).
  set (l2 := alter (fun p => p <| next := nxt l i |>) (prv l i) l1).
  set (l3 := alter (fun b => b <| next := nx2 head |>) i l2).
  set (l4 := alter (fun b => b <| prev := head |>) i l3).
  set (l5 := alter (fun n => n <| prev := i |>) (nx2 head) l4).
  set (l6 := alter (fun h => h <| next := i |>) head l5).
  assert (forall j, prv l1 j = pv1 j) as P1 by (intros j; apply prv_prev, Rn).
  assert (forall j, nxt l1 j = nxt l j) as N1 by (intros j; apply nxt_other; reflexivity).
  assert (forall j, nxt l2 j = nx2 j) as N2.
  { intros j. etransitivity; [apply nxt_next; unfold l1; rewrite length_alter; exact Rp|].
    unfold nx2, fset. case_decide; [reflexivity | apply N1]. }
  assert (forall j, nxt l4 j = fset nx2 i (nx2 head) j) as N4.
  { intros j. etransitivity; [apply nxt_other; reflexivity|].
    etransitivity; [apply nxt_next; unfold l2, l1; rewrite !length_alter; exact Ri|].
    unfold fset at 1 2. case_decide; [reflexivity | apply N2]. }
  assert (forall j, prv l4 j = fset pv1 i head j) as P4.
  { intros j. etransitivity; [apply prv_prev; unfold l3, l2, l1; rewrite !length_alter; exact Ri|].
    unfold fset. case_decide; [reflexivity|]. do 2 (etransitivity; [apply prv_other; reflexivity|]). apply P1. }
  exists l6. split_and!.
  - assert (forall lk j, length lk = length l -> (j < length l)%nat -> exists b,
      bget j (s <| bufs := lk |>) = Ok b (s <| bufs := lk |>) /\ next b = nxt lk j /\ prev b = prv lk j) as Hget.
    { intros lk j El Hj. destruct (bget_links j (s <| bufs := lk |>)) as (b & Hb).
      - change (bufs (s <| bufs := lk |>)) with lk. rewrite El. exact Hj.
      - exists b. exact Hb. }
    assert (forall lk j f (k : unit -> M bstate unit),
      (bmod j f ≫= k) (s <| bufs := lk |>) = k tt (s <| bufs := alter f j lk |>)) as Hmod by reflexivity.
    replace (to_front i s) with (to_front i (s <| bufs := l |>)) by (unfold l; destruct s; reflexivity).
    unfold to_front.
    destruct (Hget l i eq_refl Ri) as (b0 & E0 & Hn0 & Hp0). erewrite bind_step by exact E0.
    rewrite Hmod, Hn0, Hp0. fold l1.
    destruct (Hget l1 i) as (b1 & E1 & Hn & Hp1); [apply length_alter | exact Ri|].
    erewrite bind_step by exact E1. rewrite Hmod, Hn, Hp1, N1, P1.
    unfold pv1. rewrite fset_ne by congruence. fold l2.
    destruct (Hget l2 head) as (b2 & E2 & Hn2' & _); [unfold l2, l1; rewrite !length_alter; reflexivity | exact Rh|].
    erewrite bind_step by exact E2. rewrite !Hmod, Hn2', N2. fold l3. fold l4.
    destruct (Hget l4 head) as (b4 & E4 & Hn4 & _);
      [unfold l4, l3, l2, l1; rewrite !length_alter; reflexivity | exact Rh|].
    erewrite bind_step by exact E4. rewrite Hmod, Hn4, N4, fset_ne by congruence. reflexivity.
  - repeat (apply same_core_alter; [reflexivity|]). apply same_core_refl.
  - split.
    + unfold l6, l5, l4, l3, l2, l1. rewrite !length_alter. exact Hlen.
    + rewrite <-Hperm. apply Permutation_middle.
    + eapply linked_fun; [| |exact Hp]; intros j.
      * etransitivity; [apply nxt_next; unfold l5, l4, l3, l2, l1; rewrite !length_alter; exact Rh|].
        unfold fset at 1 2. case_decide; [reflexivity|].
        etransitivity; [apply nxt_other; reflexivity|]. apply N4.
      * etransitivity; [apply prv_other; reflexivity|].
        etransitivity; [apply prv_prev; unfold l4, l3, l2, l1; rewrite !length_alter; exact R2|].
        unfold fset at 1 2. case_decide; [reflexivity|]. apply P4.
Qed.
