(* ===== verification/BioThm.v ===== *)
(** * The buffer cache implements its interface (theorems about Bio.v)

    [rep s c] relates the buffers, locks, flags and disk of bio.c to the
    abstract cache of Block.v for the file-system device; each operation of
    bio.c then satisfies the law of [BufCacheLaws]. *)
From Stdlib Require Import ZArith Lia.
From stdpp Require Import base numbers list gmap strings.
From S2P Require Import Prelude Locks Block Bio.
Local Open Scope Z_scope.


(** ** The representation relation *)

(** Buffer [i] in a cache [c] used by process [me]: buffers are unread ([0]),
    valid ([2]) or valid and dirty ([6]). *)
Record buf_ok (c : cache) (me : Z) (i : nat) (b : buf) : Prop := BufOk {
  bo_len : Z.of_nat (length (data b)) = BSIZE;
  bo_flags : flags b = 0 \/ flags b = 2 \/ flags b = 6;
  bo_held : match cheld c !! i with
            | Some bn => dev b = ROOTDEV /\ blockno b = bn /\ refcnt b = 1
                         /\ lock b = Sleeplock true me /\ flags b <> 0 /\ 0 <= bn < FSSIZE
            | None => refcnt b = 0 /\ sl_locked (lock b) = false
            end;
  bo_dirty : flags b = 6 -> dev b = ROOTDEV /\ blockno b ∈ cpin c;
  bo_cur : flags b <> 0 -> dev b = ROOTDEV -> ccur c (blockno b) = data b
}.

Record rep (s : bstate) (c : cache) : Prop := Rep {
  r_order : exists order, list_ok (bufs s) order;
  r_quiet : bclocked s = false /\ idequeue s = [] /\ havedisk1 s = true
            /\ (forall dr bn, rderr s dr bn = false);
  r_buf : forall i b, (i < NBUF)%nat -> bufs s !! i = Some b -> buf_ok c (mypid s) i b;
  r_uniq : forall i j a b, (i < NBUF)%nat -> (j < NBUF)%nat -> bufs s !! i = Some a -> bufs s !! j = Some b ->
    dev a = ROOTDEV -> dev b = ROOTDEV -> blockno a = blockno b -> i = j;
  r_idx : forall h bn, cheld c !! h = Some bn -> (h < NBUF)%nat;
  r_pin : forall bn, bn ∈ cpin c -> exists i b, (i < NBUF)%nat /\ bufs s !! i = Some b
    /\ dev b = ROOTDEV /\ blockno b = bn /\ flags b = 6;
  r_clean : forall bn, bn ∉ held_blocks c -> bn ∉ cpin c -> ccur c bn = cdisk c bn;
  r_disk : forall bn, cdisk c bn = disk s ROOTDEV bn;
  r_dlen : forall bn, Z.of_nat (length (cdisk c bn)) = BSIZE;
  r_clen : forall bn, Z.of_nat (length (ccur c bn)) = BSIZE;
  r_writes : writes s = cwrites c
}.

Lemma held_blocks_elem c b : b ∈ held_blocks c <-> exists h, cheld c !! h = Some b.
Proof.
  unfold held_blocks. rewrite elem_of_list_to_set, list_elem_of_fmap. split.
  - intros ([h b'] & -> & H). exists h. apply elem_of_map_to_list in H. exact H.
  - intros [h H]. exists (h, b). split; [reflexivity | apply elem_of_map_to_list, H].
Qed.

Section rep.
Context (s : bstate) (c : cache) (R : rep s c).

Lemma rep_lookup i : (i < NBUF)%nat -> exists b, bufs s !! i = Some b /\ buf_ok c (mypid s) i b.
Proof.
  intros Hi. destruct (r_order _ _ R) as [o Ho].
  destruct (lookup_lt_is_Some_2 (bufs s) i) as [b Hb]; [rewrite (lo_len _ _ Ho); lia|].
  exists b. split; [exact Hb | exact (r_buf _ _ R i b Hi Hb)].
Qed.

(** A buffer that is handed out. *)
Lemma rep_held h bn :
  cheld c !! h = Some bn -> exists b, (h < NBUF)%nat /\ bufs s !! h = Some b /\ buf_ok c (mypid s) h b
    /\ dev b = ROOTDEV /\ blockno b = bn /\ refcnt b = 1 /\ lock b = Sleeplock true (mypid s)
    /\ flags b <> 0 /\ 0 <= bn < FSSIZE /\ ccur c bn = data b.
Proof.
  intros Hh. pose proof (r_idx _ _ R h bn Hh) as Hi. destruct (rep_lookup h Hi) as (b & Hb & Ok).
  pose proof (bo_held _ _ _ _ Ok) as Hx. rewrite Hh in Hx. destruct Hx as (H1 & H2 & H3 & H4 & H5 & H6).
  exists b. split_and!; try assumption; try apply H6. rewrite <-H2. apply (bo_cur _ _ _ _ Ok); assumption.
Qed.

(** Two held buffers hold different blocks. *)
Lemma rep_held_inj h h' bn : cheld c !! h = Some bn -> cheld c !! h' = Some bn -> h = h'.
Proof.
  intros H H'. destruct (rep_held h bn H) as (b & Hi & Hb & _ & Hd & Hn & _).
  destruct (rep_held h' bn H') as (b' & Hi' & Hb' & _ & Hd' & Hn' & _).
  apply (r_uniq _ _ R h h' b b'); congruence.
Qed.
End rep.

(** ** Data, block number, pinning *)

Definition buffer_data (i : nat) : M bstate blk := b ← bget i; mret (data b).
Definition buffer_store (i : nat) (d : blk) : M bstate unit := bmod i (fun b => b <| data := d |>).
Definition buffer_pin (i : nat) : M bstate unit :=
  bmod i (fun b => b <| flags := Z.lor (flags b) B_DIRTY |>).
Definition buffer_blockno (i : nat) : M bstate Z := b ← bget i; mret (blockno b).

Lemma buffer_data_ok s c h b : rep s c -> cheld c !! h = Some b -> buffer_data h s = Ok (ccur c b) s.
Proof.
  intros R Hh. destruct (rep_held s c R h b Hh) as (x & _ & Hx & _ & _ & _ & _ & _ & _ & _ & ->).
  unfold buffer_data. erewrite bind_step by (apply bget_Ok, Hx). reflexivity.
Qed.

Lemma buffer_blockno_ok s c h b : rep s c -> cheld c !! h = Some b -> buffer_blockno h s = Ok b s.
Proof.
  intros R Hh. destruct (rep_held s c R h b Hh) as (x & _ & Hx & _ & _ & <- & _).
  unfold buffer_blockno. erewrite bind_step by (apply bget_Ok, Hx). reflexivity.
Qed.

(** Change one buffer that keeps its identity: device, block, links. *)
Lemma rep_alter s c c' h f :
  rep s c -> (h < NBUF)%nat ->
  (forall b, dev (f b) = dev b) -> (forall b, blockno (f b) = blockno b) ->
  (forall b, next (f b) = next b) -> (forall b, prev (f b) = prev b) ->
  cheld c' = cheld c -> cdisk c' = cdisk c -> cwrites c' = cwrites c ->
  (forall b, bufs s !! h = Some b -> buf_ok c' (mypid s) h (f b)) ->
  (forall i b, i <> h -> (i < NBUF)%nat -> bufs s !! i = Some b -> buf_ok c' (mypid s) i b) ->
  (forall bn, bn ∈ cpin c' -> bn ∈ cpin c \/ exists b, bufs s !! h = Some b /\ blockno b = bn /\ dev b = ROOTDEV) ->
  (forall b, bufs s !! h = Some b -> dev b = ROOTDEV -> blockno b ∈ cpin c' -> flags (f b) = 6) ->
  (forall bn, bn ∉ held_blocks c' -> bn ∉ cpin c' -> ccur c' bn = cdisk c' bn) ->
  (forall bn, Z.of_nat (length (ccur c' bn)) = BSIZE) ->
  rep (s <| bufs := alter f h (bufs s) |>) c'.
Proof.
  intros R Hh Hd Hb Hn Hp Eh Ed Ew Hok Hoth Hpin Hfl Hcl Hlen. destruct R as [R1 R2 R3 R4 R5 R6 R7 R8 R9 R10 R11].
  assert (forall i b, (i < NBUF)%nat -> alter f h (bufs s) !! i = Some b ->
    exists b0, bufs s !! i = Some b0 /\ dev b = dev b0 /\ blockno b = blockno b0) as Hold.
  { intros i b Hi H. destruct (decide (i = h)) as [-> | Hne].
    - rewrite list_lookup_alter_eq in H. destruct (bufs s !! h) as [b0|]; [|discriminate].
      injection H as <-. eauto.
    - rewrite list_lookup_alter_ne in H by congruence. eauto. }
  split.
  - destruct R1 as [o Ho]. exists o. apply list_ok_alter; assumption.
  - exact R2.
  - intros i b Hi H. change (alter f h (bufs s) !! i = Some b) in H. destruct (decide (i = h)) as [-> | Hne].
    + rewrite list_lookup_alter_eq in H. destruct (bufs s !! h) as [b0|] eqn:E; [|discriminate].
      injection H as <-. apply Hok. reflexivity.
    + rewrite list_lookup_alter_ne in H by congruence. apply Hoth; assumption.
  - intros i j a b Hi Hj Ha Hb'. destruct (Hold i a Hi Ha) as (a0 & Ha0 & -> & ->).
    destruct (Hold j b Hj Hb') as (b0 & Hb0 & -> & ->). apply (R4 i j a0 b0); assumption.
  - intros k bn Hk. rewrite Eh in Hk. exact (R5 k bn Hk).
  - intros bn Hbn. assert (exists i b, (i < NBUF)%nat /\ bufs s !! i = Some b /\ dev b = ROOTDEV /\ blockno b = bn
      /\ (i <> h -> flags b = 6)) as (i & b & Hi & Hb0 & Hdv & Hbn0 & Hf).
    { destruct (Hpin bn Hbn) as [Ho | (b & Hb0 & Hbn0 & Hdv)].
      - destruct (R6 bn Ho) as (i & b & ? & ? & ? & ? & ?). exists i, b. auto 6.
      - exists h, b. split_and!; auto. congruence. }
    destruct (decide (i = h)) as [-> | Hne].
    + exists h, (f b). split_and!; [exact Hi | | rewrite Hd; exact Hdv | rewrite Hb; exact Hbn0 |].
      * change (alter f h (bufs s) !! h = Some (f b)). rewrite list_lookup_alter_eq, Hb0. reflexivity.
      * apply Hfl; [exact Hb0 | exact Hdv | rewrite Hbn0; exact Hbn].
    + exists i, b. split_and!; auto. change (alter f h (bufs s) !! i = Some b).
      rewrite list_lookup_alter_ne by congruence. exact Hb0.
  - exact Hcl.
  - intros bn. rewrite Ed. apply R8.
  - intros bn. rewrite Ed. apply R9.
  - exact Hlen.
  - rewrite Ew. exact R11.
Qed.

Lemma buf_ok_other s c c' h bn i x y :
  rep s c -> cheld c !! h = Some bn -> i <> h -> (i < NBUF)%nat -> bufs s !! i = Some x ->
  y = x -> cheld c' !! i = cheld c !! i ->
  (forall b, b <> bn -> ccur c' b = ccur c b) -> (forall b, b <> bn -> b ∈ cpin c -> b ∈ cpin c') ->
  buf_ok c' (mypid s) i y.
Proof.
  intros R Hh Hne Hi Hx -> Eh Hcur Hpin. pose proof (r_buf _ _ R i x Hi Hx) as [H1 H2 H3 H4 H5].
  destruct (rep_held s c R h bn Hh) as (b & Hhi & Hb & _ & Hd & Hn & _).
  assert (dev x = ROOTDEV -> blockno x <> bn) as Hbn.
  { intros Hdx E. apply Hne. apply (r_uniq _ _ R i h x b); congruence. }
  split; [assumption..| | |].
  - rewrite Eh. exact H3.
  - intros Hf. destruct (H4 Hf) as [Hdx Hp]. split; [exact Hdx|]. apply Hpin; auto.
  - intros Hf Hdx. rewrite Hcur by auto. auto.
Qed.

Lemma buffer_store_ok s c h b d :
  rep s c -> cheld c !! h = Some b -> Z.of_nat (length d) = BSIZE ->
  exists s', buffer_store h d s = Ok tt s' /\ rep s' (c <| ccur := bupd (ccur c) b d |>).
Proof.
  intros R Hh Hd. eexists. split; [reflexivity|].
  destruct (rep_held s c R h b Hh) as (x & Hi & Hx & Ok & Hdv & Hbn & Hr & Hl & Hf & Hrg & Hc).
  apply (rep_alter s c); try reflexivity; try assumption.
  - intros y Hy. rewrite Hx in Hy. injection Hy as <-. destruct Ok as [H1 H2 H3 H4 H5]. split; try assumption.
    intros _ _. change (bupd (ccur c) b d (blockno x) = d). rewrite Hbn. apply bupd_eq.
  - intros i y Hne Hi' Hy. eapply (buf_ok_other s c _ h b i y y R Hh Hne Hi' Hy); auto.
    intros b' Hb'. apply bupd_ne, Hb'.
  - auto.
  - intros y Hy Hdy Hp. rewrite Hx in Hy. injection Hy as <-. destruct (r_pin _ _ R _ Hp) as (j & z & Hj & Hz & Hdz & Hbz & Hfz).
    assert (j = h) as -> by (apply (r_uniq _ _ R j h z x); congruence).
    rewrite Hx in Hz. injection Hz as <-. exact Hfz.
  - intros bn Hbn' Hp. change (bupd (ccur c) b d bn = cdisk c bn).
    rewrite bupd_ne; [apply (r_clean _ _ R); assumption|].
    intros ->. apply Hbn'. apply held_blocks_elem. exists h. exact Hh.
  - intros bn. change (Z.of_nat (length (bupd (ccur c) b d bn)) = BSIZE). unfold bupd.
    destruct (bn =? b); [exact Hd | apply (r_clen _ _ R)].
Qed.

Lemma flags_lor b : flags b = 2 \/ flags b = 6 -> Z.lor (flags b) B_DIRTY = 6.
Proof. intros [-> | ->]; reflexivity. Qed.

Lemma buffer_pin_ok s c h b :
  rep s c -> cheld c !! h = Some b ->
  exists s', buffer_pin h s = Ok tt s' /\ rep s' (c <| cpin := {[b]} ∪ cpin c |>).
Proof.
  intros R Hh. eexists. split; [reflexivity|].
  destruct (rep_held s c R h b Hh) as (x & Hi & Hx & Ok & Hdv & Hbn & Hr & Hl & Hf & Hrg & Hc).
  assert (Z.lor (flags x) B_DIRTY = 6) as Hfl.
  { apply flags_lor. destruct (bo_flags _ _ _ _ Ok); tauto. }
  apply (rep_alter s c); try reflexivity; try assumption.
  - intros y Hy. rewrite Hx in Hy. injection Hy as <-. destruct Ok as [H1 H2 H3 H4 H5]. split; try assumption.
    + right. right. exact Hfl.
    + change (cheld (c <| cpin := {[b]} ∪ cpin c |>)) with (cheld c). rewrite Hh in *.
      split_and!; try assumption; try apply Hrg. change (Z.lor (flags x) B_DIRTY <> 0). rewrite Hfl. discriminate.
    + intros _. split; [exact Hdv|]. change (blockno x ∈ {[b]} ∪ cpin c). set_solver.
    + intros _ _. change (ccur c (blockno x) = data x). congruence.
  - intros i y Hne Hi' Hy. eapply (buf_ok_other s c _ h b i y y R Hh Hne Hi' Hy); auto.
    intros b' Hb' Hp. change (b' ∈ {[b]} ∪ cpin c). set_solver.
  - intros bn Hbn'. change (bn ∈ {[b]} ∪ cpin c) in Hbn'. apply elem_of_union in Hbn' as [E | ?]; [|auto].
    apply elem_of_singleton in E as ->. right. eauto.
  - intros y Hy _ _. rewrite Hx in Hy. injection Hy as <-. exact Hfl.
  - intros bn H1 H2. change (bn ∉ {[b]} ∪ cpin c) in H2. apply (r_clean _ _ R); [exact H1 | set_solver].
  - apply (r_clen _ _ R).
Qed.

(** ** Disk requests *)


(** Change one buffer, seen as the array store it is. *)
Lemma bmod_Ok {B} i f (k : unit -> M bstate B) s x :
  bufs s !! i = Some x -> (bmod i f ≫= k) s = k tt (s <| bufs := <[i := f x]> (bufs s) |>).
Proof. intros H. rewrite bmod_bind, (alter_insert f i _ x H). reflexivity. Qed.

Lemma holding_Ok s h x :
  bufs s !! h = Some x -> lock x = Sleeplock true (mypid s) -> holding_buf h s = Ok true s.
Proof.
  intros Hx Hl. unfold holding_buf, on_lock. erewrite bind_step by reflexivity.
  erewrite bind_step by (apply bget_Ok, Hx). rewrite Hl. unfold holdingsleep, gets. cbn [sl_locked sl_pid].
  erewrite bmod_Ok by exact Hx. rewrite Z.eqb_refl. unfold mret, M_ret. f_equal.
  rewrite list_insert_id; [destruct s; reflexivity|].
  rewrite Hx. f_equal. rewrite <-Hl. destruct x; reflexivity.
Qed.

Lemma lock_buf_Ok s h x :
  bufs s !! h = Some x -> sl_locked (lock x) = false ->
  lock_buf h s = Ok tt (s <| bufs := <[h := x <| lock := Sleeplock true (mypid s) |>]> (bufs s) |>).
Proof.
  intros Hx Hl. unfold lock_buf, on_lock. erewrite bind_step by reflexivity.
  erewrite bind_step by (apply bget_Ok, Hx). unfold acquiresleep. mstep. rewrite Hl.
  erewrite <-(alter_insert (fun b => b <| lock := Sleeplock true (mypid s) |>)) by exact Hx. reflexivity.
Qed.

Lemma unlock_buf_Ok s h x :
  bufs s !! h = Some x ->
  unlock_buf h s = Ok tt (s <| bufs := <[h := x <| lock := Sleeplock false 0 |>]> (bufs s) |>).
Proof.
  intros Hx. unfold unlock_buf, on_lock. erewrite bind_step by (apply bget_Ok, Hx). unfold releasesleep, put.
  erewrite bmod_Ok by exact Hx. reflexivity.
Qed.

Ltac bsimp := cbn [assign bufs bclocked idequeue havedisk1 rderr disk writes mypid].

(** The interrupt that ends the only request in the queue. *)
Definition completed (s : bstate) (x : buf) : buf :=
  let x := if has_flag x B_DIRTY || rderr s (Z.land (dev x) 1) (blockno x) then x
           else x <| data := disk s (Z.land (dev x) 1) (blockno x) |> in
  x <| flags := Z.ldiff (Z.lor (flags x) B_VALID) B_DIRTY |>.

Lemma has_flag_eq x v f : flags x = v -> has_flag x f = nz (Z.land v f).
Proof. unfold has_flag. intros ->. reflexivity. Qed.

Lemma completed_write s x : flags x = 6 -> completed s x = x <| flags := 2 |>.
Proof.
  intros Hf. unfold completed. rewrite (has_flag_eq x 6 B_DIRTY Hf).
  change (nz (Z.land 6 B_DIRTY)) with true. cbn [orb]. rewrite Hf. reflexivity.
Qed.

Lemma completed_read s x :
  flags x = 0 -> rderr s (Z.land (dev x) 1) (blockno x) = false ->
  completed s x = x <| data := disk s (Z.land (dev x) 1) (blockno x) |> <| flags := 2 |>.
Proof.
  intros Hf He. unfold completed. rewrite (has_flag_eq x 0 B_DIRTY Hf), He.
  change (nz (Z.land 0 B_DIRTY) || false) with false. cbv iota zeta.
  change (flags (x <| data := disk s (Z.land (dev x) 1) (blockno x) |>)) with (flags x).
  rewrite Hf. reflexivity.
Qed.

Lemma ide_interrupt_last s h x :
  idequeue s = [h] -> bufs s !! h = Some x ->
  ide_interrupt s = Ok tt (s <| idequeue := [] |> <| bufs := <[h := completed s x]> (bufs s) |>).
Proof.
  intros Hq Hx. destruct s as [bl lk q d1 re dk wr me].
  cbn [bufs idequeue havedisk1 mypid disk writes rderr] in *. subst q.
  pose proof (fun y => list_lookup_insert_eq bl h y (lookup_lt_Some _ _ _ Hx)) as Hins.
  unfold ide_interrupt. erewrite bind_step by reflexivity. bsimp. erewrite bind_step by reflexivity.
  erewrite bind_step by (apply bget_Ok, Hx). unfold completed. bsimp.
  destruct (has_flag x B_DIRTY || _).
  - erewrite bind_step by reflexivity. erewrite bmod_Ok by exact Hx. bsimp.
    erewrite bmod_Ok by apply Hins. bsimp. rewrite list_insert_insert_eq. reflexivity.
  - rewrite bind_assoc. erewrite bind_step by reflexivity. erewrite bmod_Ok by exact Hx. bsimp.
    erewrite bmod_Ok by apply Hins. bsimp. rewrite list_insert_insert_eq.
    erewrite bmod_Ok by apply Hins. bsimp. rewrite list_insert_insert_eq. reflexivity.
Qed.

Section request.
Context (s : bstate) (h : nat) (x : buf).
Context (Hx : bufs s !! h = Some x) (Hl : lock x = Sleeplock true (mypid s)) (Hq : idequeue s = [])
  (Hd1 : havedisk1 s = true) (Hr : blockno x < FSSIZE).

(** A request of [h] on an idle drive, up to its completion. *)
Lemma ide_request s1 :
  Z.land (flags x) (Z.lor B_VALID B_DIRTY) <> B_VALID ->
  flags (completed s1 x) = 2 -> bufs s1 = bufs s -> idequeue s1 = [h] ->
  ide_start h (s <| idequeue := [h] |>) = Ok tt s1 ->
  ide_dirty_write h s = Ok tt (s1 <| idequeue := [] |> <| bufs := <[h := completed s1 x]> (bufs s) |>).
Proof.
  intros Hf Hc Eb Eq Es. unfold ide_dirty_write.
  erewrite bind_step by (apply (holding_Ok s h x); assumption).
  cbn [negb]. erewrite bind_step by (apply bget_Ok, Hx). rewrite (proj2 (Z.eqb_neq _ _) Hf).
  erewrite bind_step by reflexivity. rewrite Hd1, andb_false_r, Hq.
  erewrite bind_step by reflexivity. cbn [app length].
  erewrite bind_step by exact Es. cbn [ide_wait].
  erewrite bind_step by (apply bget_Ok; rewrite Eb; exact Hx). rewrite (proj2 (Z.eqb_neq _ _) Hf).
  erewrite bind_step by (apply ide_interrupt_last; [exact Eq | rewrite Eb; exact Hx]). rewrite Eb.
  erewrite bind_step by (apply bget_Ok, list_lookup_insert_eq, (lookup_lt_Some _ _ _ Hx)).
  rewrite Hc. reflexivity.
Qed.

Lemma ide_write_Ok :
  flags x = 6 ->
  ide_dirty_write h s = Ok tt
    (s <| disk := fun dr bn => if (dr =? Z.land (dev x) 1) && (bn =? blockno x) then data x else disk s dr bn |>
       <| writes := writes s ++ [(blockno x, data x)] |>
       <| idequeue := [] |> <| bufs := <[h := x <| flags := 2 |>]> (bufs s) |>).
Proof.
  intros Hf. etransitivity.
  - apply (ide_request (s <| idequeue := [h] |>
      <| disk := fun dr bn => if (dr =? Z.land (dev x) 1) && (bn =? blockno x) then data x else disk s dr bn |>
      <| writes := writes s ++ [(blockno x, data x)] |>)); try reflexivity.
    + rewrite Hf. discriminate.
    + rewrite completed_write by exact Hf. reflexivity.
    + unfold ide_start. erewrite bind_step by (apply bget_Ok, Hx).
      rewrite (proj2 (Z.leb_gt _ _) Hr), (has_flag_eq x 6 B_DIRTY Hf). reflexivity.
  - rewrite completed_write by exact Hf. destruct s; reflexivity.
Qed.

Lemma ide_read_Ok :
  flags x = 0 -> rderr s (Z.land (dev x) 1) (blockno x) = false ->
  ide_dirty_write h s = Ok tt
    (s <| idequeue := [] |>
       <| bufs := <[h := x <| data := disk s (Z.land (dev x) 1) (blockno x) |> <| flags := 2 |>]> (bufs s) |>).
Proof.
  intros Hf He. etransitivity.
  - apply (ide_request (s <| idequeue := [h] |>)); try reflexivity.
    + rewrite Hf. discriminate.
    + rewrite completed_read by assumption. reflexivity.
    + unfold ide_start. erewrite bind_step by (apply bget_Ok, Hx).
      rewrite (proj2 (Z.leb_gt _ _) Hr), (has_flag_eq x 0 B_DIRTY Hf). reflexivity.
  - rewrite completed_read by assumption. destruct s; reflexivity.
Qed.
End request.

(** ** Replacing one buffer *)

Lemma rep_insert s c c' h x y :
  rep s c -> (h < NBUF)%nat -> bufs s !! h = Some x -> next y = next x -> prev y = prev x ->
  (forall k bn, cheld c' !! k = Some bn -> (k < NBUF)%nat) ->
  cdisk c' = cdisk c -> cwrites c' = cwrites c -> buf_ok c' (mypid s) h y ->
  (forall i z, i <> h -> (i < NBUF)%nat -> bufs s !! i = Some z ->
     buf_ok c' (mypid s) i z /\ (dev y = ROOTDEV -> dev z = ROOTDEV -> blockno z <> blockno y)) ->
  (forall bn, bn ∈ cpin c' ->
     (exists i z, i <> h /\ (i < NBUF)%nat /\ bufs s !! i = Some z /\ dev z = ROOTDEV /\ blockno z = bn /\ flags z = 6)
     \/ (dev y = ROOTDEV /\ blockno y = bn /\ flags y = 6)) ->
  (forall bn, bn ∉ held_blocks c' -> bn ∉ cpin c' -> ccur c' bn = cdisk c' bn) ->
  (forall bn, Z.of_nat (length (ccur c' bn)) = BSIZE) ->
  rep (s <| bufs := <[h := y]> (bufs s) |>) c'.
Proof.
  intros R Hh Hx Hn Hp Hidx Ed Ew Hok Hoth Hpin Hcl Hlen.
  destruct R as [R1 R2 R3 R4 R5 R6 R7 R8 R9 R10 R11].
  pose proof (lookup_lt_Some _ _ _ Hx) as Hlt.
  assert (forall i z, <[h := y]> (bufs s) !! i = Some z -> (i = h /\ z = y) \/ (i <> h /\ bufs s !! i = Some z)) as Hold.
  { intros i z H. destruct (decide (i = h)) as [-> | Hne].
    - rewrite list_lookup_insert_eq in H by exact Hlt. injection H as <-. auto.
    - rewrite list_lookup_insert_ne in H by congruence. auto. }
  split.
  - destruct R1 as [o Ho]. exists o. change (list_ok (<[h := y]> (bufs s)) o).
    destruct Ho as [L1 L2 L3]. split; [rewrite length_insert; exact L1 | exact L2|].
    eapply linked_fun; [| |exact L3]; intros a; unfold nxt, prv; (destruct (decide (a = h)) as [-> | Hne];
      [rewrite list_lookup_insert_eq by exact Hlt; rewrite Hx; assumption
      | rewrite list_lookup_insert_ne by congruence; reflexivity]).
  - exact R2.
  - intros i b Hi H. destruct (Hold i b H) as [[-> ->] | [Hne Hb]]; [exact Hok | apply (Hoth i b Hne Hi Hb)].
  - intros i j a b Hi Hj Ha Hb Hda Hdb E.
    destruct (Hold i a Ha) as [[-> ->] | [Hne Ha']], (Hold j b Hb) as [[-> ->] | [Hne' Hb']]; [reflexivity|..].
    + exfalso. apply (proj2 (Hoth j b Hne' Hj Hb') Hda Hdb). congruence.
    + exfalso. apply (proj2 (Hoth i a Hne Hi Ha') Hdb Hda). congruence.
    + apply (R4 i j a b); assumption.
  - exact Hidx.
  - intros bn Hbn. destruct (Hpin bn Hbn) as [(i & z & Hne & Hi & Hz & H1 & H2 & H3) | (H1 & H2 & H3)].
    + exists i, z. split_and!; try assumption. change (<[h := y]> (bufs s) !! i = Some z).
      rewrite list_lookup_insert_ne by congruence. exact Hz.
    + exists h, y. split_and!; try assumption. apply list_lookup_insert_eq, Hlt.
  - exact Hcl.
  - intros bn. rewrite Ed. apply R8.
  - intros bn. rewrite Ed. apply R9.
  - exact Hlen.
  - rewrite Ew. exact R11.
Qed.

(** A pinned block is in its own buffer; seen from another buffer [h]. *)
Lemma rep_pin_split s c h x bn :
  rep s c -> (h < NBUF)%nat -> bufs s !! h = Some x -> bn ∈ cpin c ->
  (exists i z, i <> h /\ (i < NBUF)%nat /\ bufs s !! i = Some z /\ dev z = ROOTDEV /\ blockno z = bn /\ flags z = 6)
  \/ (dev x = ROOTDEV /\ blockno x = bn /\ flags x = 6).
Proof.
  intros R Hh Hx Hbn. destruct (r_pin _ _ R bn Hbn) as (i & z & Hi & Hz & H1 & H2 & H3).
  destruct (decide (i = h)) as [-> | Hne]; [right | left; exists i, z; auto 7].
  rewrite Hx in Hz. injection Hz as <-. auto.
Qed.

(** *** buffer_write *)

(** The drive stores the contents of a held buffer. *)
Lemma rep_disk_write s c h b x :
  rep s c -> cheld c !! h = Some b -> bufs s !! h = Some x ->
  rep (s <| disk := fun dr bn => if (dr =? Z.land (dev x) 1) && (bn =? blockno x) then data x else disk s dr bn |>
         <| writes := writes s ++ [(blockno x, data x)] |>)
      (c <| cdisk := bupd (cdisk c) b (ccur c b) |> <| cwrites := cwrites c ++ [(b, ccur c b)] |>).
Proof.
  intros R Hh Hx. destruct (rep_held s c R h b Hh) as (x' & Hi & Hx' & Ok & Hdv & Hbn & _ & _ & _ & _ & Hc).
  rewrite Hx in Hx'. injection Hx' as <-. destruct R as [R1 R2 R3 R4 R5 R6 R7 R8 R9 R10 R11].
  split; try assumption.
  - intros i y Hi' Hy. destruct (R3 i y Hi' Hy) as [H1 H2 H3 H4 H5]. split; assumption.
  - intros bn H1 H2. change (ccur c bn = bupd (cdisk c) b (ccur c b) bn). rewrite bupd_ne; [apply R7; assumption|].
    intros ->. apply H1. apply held_blocks_elem. eauto.
  - intros bn. change (bupd (cdisk c) b (ccur c b) bn =
      if (ROOTDEV =? Z.land (dev x) 1) && (bn =? blockno x) then data x else disk s ROOTDEV bn).
    rewrite Hdv, Hbn. change (ROOTDEV =? Z.land ROOTDEV 1) with true. cbn [andb]. unfold bupd.
    destruct (bn =? b); [exact Hc | apply R8].
  - intros bn. change (Z.of_nat (length (bupd (cdisk c) b (ccur c b) bn)) = BSIZE). unfold bupd.
    destruct (bn =? b); [apply R10 | apply R9].
  - change (writes s ++ [(blockno x, data x)] = cwrites c ++ [(b, ccur c b)]). rewrite R11, Hbn, Hc. reflexivity.
Qed.

Lemma buffer_write_ok s c h b :
  rep s c -> cheld c !! h = Some b ->
  exists s', buffer_write h s = Ok tt s'
    /\ rep s' (c <| cdisk := bupd (cdisk c) b (ccur c b) |> <| cpin := cpin c ∖ {[b]} |>
                 <| cwrites := cwrites c ++ [(b, ccur c b)] |>).
Proof.
  intros R Hh. destruct (rep_held s c R h b Hh) as (x & Hi & Hx & Ok & Hdv & Hbn & Hrf & Hl & Hf & Hrg & Hc).
  destruct (r_quiet _ _ R) as (Q1 & Q2 & Q3 & Q4).
  assert (Z.lor (flags x) B_DIRTY = 6) as Hfl by (apply flags_lor; destruct (bo_flags _ _ _ _ Ok); tauto).
  set (s1 := s <| bufs := <[h := x <| flags := 6 |>]> (bufs s) |>).
  assert (bufs s1 !! h = Some (x <| flags := 6 |>)) as Hx1.
  { apply list_lookup_insert_eq, (lookup_lt_Some _ _ _ Hx). }
  eexists. split.
  { unfold buffer_write. erewrite bind_step by (apply (holding_Ok s h x); assumption). cbn [negb].
    erewrite bmod_Ok by exact Hx. rewrite Hfl. fold s1.
    apply (ide_write_Ok s1 h (x <| flags := 6 |>)); try assumption; [|reflexivity].
    change (blockno x < FSSIZE). lia. }
  pose proof (rep_disk_write s c h b x R Hh Hx) as R2.
  match type of R2 with rep ?sx ?cx => set (s2 := sx) in R2; set (c2 := cx) in R2 end.
  match goal with |- rep ?s3 _ => assert (s3 = s2 <| bufs := <[h := x <| flags := 2 |>]> (bufs s2) |>) as -> end.
  { destruct s as [bl lk q d1 re dk wr me]. cbn [idequeue] in Q2. subst q. unfold s1, s2. bsimp.
    rewrite list_insert_insert_eq. reflexivity. }
  apply (rep_insert s2 c2 _ h x); try reflexivity; try assumption.
  - intros k bn Hk. exact (r_idx _ _ R k bn Hk).
  - destruct Ok as [H1 H2 H3 H4 H5]. split; [exact H1 | right; left; reflexivity | | discriminate |].
    + change (cheld (c <| cdisk := bupd (cdisk c) b (ccur c b) |> <| cpin := cpin c ∖ {[b]} |>
        <| cwrites := cwrites c ++ [(b, ccur c b)] |>)) with (cheld c). rewrite Hh.
      split_and!; try assumption; try apply Hrg. discriminate.
    + intros _ _. change (ccur c (blockno x) = data x). congruence.
  - intros i z Hne Hi' Hz. split.
    + eapply (buf_ok_other s c _ h b i z z R Hh Hne Hi' Hz); auto.
      intros b' Hb' Hp. change (b' ∈ cpin c ∖ {[b]}). set_solver.
    + intros _ Hdz E. apply Hne. apply (r_uniq _ _ R i h z x); auto.
  - intros bn Hp. change (bn ∈ cpin c ∖ {[b]}) in Hp.
    destruct (rep_pin_split s c h x bn R Hi Hx) as [? | (_ & E & _)]; [set_solver | left; assumption|].
    exfalso. set_solver.
  - intros bn H1 H2. change (bn ∉ cpin c ∖ {[b]}) in H2. apply (r_clean _ _ R2); [exact H1|].
    change (bn ∉ cpin c). intros Hp. apply H2. apply elem_of_difference. split; [exact Hp|].
    intros E. apply elem_of_singleton in E as ->. apply H1. apply held_blocks_elem. eauto.
  - apply (r_clen _ _ R).
Qed.

(** *** buffer_read *)

(** Handing out buffer [i], free before, for block [b]. *)
Lemma rep_take s c i x y b :
  rep s c -> (i < NBUF)%nat -> bufs s !! i = Some x -> next y = next x -> prev y = prev x ->
  cheld c !! i = None -> 0 <= b < FSSIZE ->
  dev y = ROOTDEV -> blockno y = b -> refcnt y = 1 -> lock y = Sleeplock true (mypid s) ->
  data y = ccur c b -> (flags y = 2 \/ (flags y = 6 /\ b ∈ cpin c)) ->
  (flags x = 6 -> blockno x = b /\ flags y = 6) ->
  (forall j z, j <> i -> (j < NBUF)%nat -> bufs s !! j = Some z -> dev z = ROOTDEV -> blockno z <> b) ->
  rep (s <| bufs := <[i := y]> (bufs s) |>) (c <| cheld := <[i := b]> (cheld c) |>).
Proof.
  intros R Hi Hx Hn Hp Hfree Hb H1 H2 H3 H4 H5 H6 Hold Huniq.
  assert (forall j, cheld (c <| cheld := <[i := b]> (cheld c) |>) !! j
    = if decide (j = i) then Some b else cheld c !! j) as Eh.
  { intros j. change (<[i := b]> (cheld c) !! j = if decide (j = i) then Some b else cheld c !! j).
    case_decide as E; [subst; apply lookup_insert_eq | apply lookup_insert_ne; congruence]. }
  apply (rep_insert s c _ i x); try reflexivity; try assumption.
  - intros k bn. rewrite Eh. case_decide; [intros; congruence | apply (r_idx _ _ R)].
  - split.
    + rewrite H5. apply (r_clen _ _ R).
    + tauto.
    + rewrite Eh, decide_True by reflexivity. split_and!; try assumption; try apply Hb.
      destruct H6 as [-> | [-> _]]; discriminate.
    + intros Hf. destruct H6 as [? | [_ Hpn]]; [congruence|]. split; [exact H1 | rewrite H2; exact Hpn].
    + intros _ _. change (ccur c (blockno y) = data y). congruence.
  - intros j z Hne Hj Hz. destruct (r_buf _ _ R j z Hj Hz) as [B1 B2 B3 B4 B5]. split.
    + split; try assumption. rewrite Eh, decide_False by exact Hne. exact B3.
    + intros _ Hdz. rewrite H2. exact (Huniq j z Hne Hj Hz Hdz).
  - intros bn Hpn. destruct (rep_pin_split s c i x bn R Hi Hx Hpn) as [? | (E1 & E2 & E3)]; [left; assumption|].
    right. destruct (Hold E3). split_and!; congruence.
  - intros bn Hh Hpn. apply (r_clean _ _ R); [|exact Hpn]. intros E. apply Hh.
    apply held_blocks_elem in E as [k Hk]. apply held_blocks_elem. exists k. rewrite Eh.
    case_decide; [congruence | exact Hk].
  - apply (r_clen _ _ R).
Qed.

(** Some buffer is neither in use nor dirty. *)
Lemma victim_exists s c order b :
  rep s c -> list_ok (bufs s) order -> room c b -> b ∉ held_blocks c -> b ∉ cpin c ->
  first_match (bufs s) (fun x => (refcnt x =? 0) && negb (has_flag x B_DIRTY)) (reverse order) <> None.
Proof.
  intros R Ho Hroom Hbh Hbp Hn.
  assert (forall i, i ∈ reverse order -> is_Some (bufs s !! i)) as Hs.
  { intros i Hi. apply (order_lookup s order Ho). rewrite <-elem_of_reverse. exact Hi. }
  pose proof (first_match_None _ _ _ Hs Hn) as Hall.
  set (bn := fun i => match bufs s !! i with Some x => blockno x | None => 0 end).
  assert (forall i, (i < NBUF)%nat -> exists x, bufs s !! i = Some x /\ dev x = ROOTDEV
    /\ blockno x ∈ held_blocks c ∪ cpin c) as Hin.
  { intros i Hi. destruct (rep_lookup s c R i Hi) as (x & Hx & [B1 B2 B3 B4 B5]).
    assert (i ∈ reverse order) as Hri by (rewrite elem_of_reverse; apply (order_elem s order Ho), Hi).
    specialize (Hall i x Hri Hx). exists x. split; [exact Hx|]. apply andb_false_iff in Hall as [Hr | Hd].
    - destruct (cheld c !! i) as [b'|] eqn:E; [|apply Z.eqb_neq in Hr; tauto].
      destruct B3 as (D1 & D2 & _). split; [exact D1|]. apply elem_of_union_l, held_blocks_elem. exists i. congruence.
    - apply negb_false_iff in Hd. assert (flags x = 6) as H6.
      { destruct B2 as [E | [E | E]]; [| |exact E]; rewrite (has_flag_eq _ _ _ E) in Hd; discriminate. }
      destruct (B4 H6). split; [assumption | apply elem_of_union_r; assumption]. }
  assert (NoDup (bn <$> seq 0 NBUF)) as Hnd.
  { apply NoDup_fmap_2_strong; [|apply NoDup_seq]. intros i j Hi Hj E.
    apply elem_of_seq in Hi, Hj. destruct (Hin i) as (x & Hx & Dx & _); [lia|].
    destruct (Hin j) as (y & Hy & Dy & _); [lia|]. unfold bn in E. rewrite Hx, Hy in E.
    apply (r_uniq _ _ R i j x y); auto; lia. }
  assert (list_to_set (bn <$> seq 0 NBUF) ⊆ held_blocks c ∪ cpin c) as Hsub.
  { intros z Hz. apply elem_of_list_to_set, list_elem_of_fmap in Hz as (i & -> & Hi).
    apply elem_of_seq in Hi. destruct (Hin i) as (x & Hx & _ & Hm); [lia|]. unfold bn. rewrite Hx. exact Hm. }
  apply subseteq_size in Hsub. rewrite size_list_to_set, length_fmap, length_seq in Hsub by exact Hnd.
  unfold room in Hroom. rewrite <-union_assoc_L, size_union, size_singleton in Hroom by set_solver. lia.
Qed.

Definition cached_for (d bn : Z) (b : buf) : bool := (dev b =? d) && (blockno b =? bn).
Definition evictable (b : buf) : bool := (refcnt b =? 0) && negb (has_flag b B_DIRTY).

Section buffer_get.
Context (s : bstate) (order : list nat) (Ho : list_ok (bufs s) order) (Hlk : bclocked s = false).

(** Both list walks of [buffer_get], started from the head. *)
Lemma find_cached_head d b s' :
  bufs s' = bufs s -> exists h, bget head s' = Ok h s'
    /\ find_cached (S NBUF) d b (next h) s' = Ok (first_match (bufs s) (cached_for d b) order) s'.
Proof.
  intros E. assert (list_ok (bufs s') order) as Ho' by (rewrite E; exact Ho).
  destruct (head_lookup s' order Ho') as (h & Hh & Hn & _). exists h. split; [apply bget_Ok, Hh|].
  rewrite <-E. apply (find_cached_walk s' order Ho' d b order); [auto | | | rewrite (order_length _ _ Ho'); lia].
  - pose proof (lo_link _ _ Ho') as Hl. destruct (order ++ [head]) as [|y q] eqn:Eq; [destruct order; discriminate|].
    rewrite linked_cons in Hl. tauto.
  - pose proof (lo_link _ _ Ho') as Hl. destruct (order ++ [head]) as [|y q] eqn:Eq; [destruct order; discriminate|].
    rewrite linked_cons in Hl. rewrite Hn. symmetry. apply Hl.
Qed.

Lemma find_victim_head s' :
  bufs s' = bufs s -> exists h, bget head s' = Ok h s'
    /\ find_victim (S NBUF) (prev h) s' = Ok (first_match (bufs s) evictable (reverse order)) s'.
Proof.
  intros E. assert (list_ok (bufs s') order) as Ho' by (rewrite E; exact Ho).
  destruct (head_lookup s' order Ho') as (h & Hh & _ & Hp). exists h. split; [apply bget_Ok, Hh|].
  rewrite <-E. pose proof (lo_link _ _ Ho') as Hl.
  change (head :: order ++ [head]) with ((head :: order) ++ [head]) in Hl.
  apply (find_victim_walk s' order Ho' (reverse order)).
  - intros j Hj. rewrite <-elem_of_reverse. exact Hj.
  - rewrite reverse_involutive. destruct order as [|a o]; [exact I|].
    destruct (exists_last (l := head :: a :: o)) as (p & x & Ep); [discriminate|]. rewrite Ep, <-app_assoc in Hl.
    cbn [app] in Hl. apply linked_app in Hl as [Hl _]. rewrite Ep. exact Hl.
  - rewrite Hp. destruct (exists_last (l := head :: order)) as (p & x & Ep); [discriminate|].
    rewrite Ep, <-app_assoc in Hl. cbn [app] in Hl. apply linked_app in Hl as [_ Hl]. cbn in Hl.
    destruct Hl as (_ & -> & _). assert (reverse order ++ [head] = x :: reverse p) as ->.
    { rewrite <-reverse_cons, Ep, reverse_app. reflexivity. }
    reflexivity.
  - rewrite length_reverse, (order_length _ _ Ho'). lia.
Qed.

Lemma buffer_get_hit d b i x :
  first_match (bufs s) (cached_for d b) order = Some i -> bufs s !! i = Some x -> sl_locked (lock x) = false ->
  buffer_get d b s = Ok i (s <| bufs := <[i := x <| refcnt := u32 (refcnt x + 1) |>
    <| lock := Sleeplock true (mypid s) |>]> (bufs s) |>).
Proof.
  intros Hm Hx Hl. set (s1 := s <| bclocked := true |>).
  destruct (find_cached_head d b s1 eq_refl) as (h & Eh & Ef).
  unfold buffer_get. erewrite bind_step; [|unfold acquire_bc; mstep; rewrite Hlk; reflexivity].
  erewrite bind_step by exact Eh. erewrite bind_step by exact Ef. rewrite Hm.
  erewrite bmod_Ok by exact Hx. erewrite bind_step by reflexivity.
  erewrite bind_step.
  2:{ apply (lock_buf_Ok _ i (x <| refcnt := u32 (refcnt x + 1) |>)); [|exact Hl].
      apply list_lookup_insert_eq, (lookup_lt_Some _ _ _ Hx). }
  unfold mret, M_ret. f_equal. destruct s as [bl lk q d1 re dk wr me]. cbn [bclocked] in Hlk. subst lk. bsimp.
  rewrite list_insert_insert_eq. reflexivity.
Qed.

Lemma buffer_get_miss d b i x :
  first_match (bufs s) (cached_for d b) order = None ->
  first_match (bufs s) evictable (reverse order) = Some i ->
  bufs s !! i = Some x -> sl_locked (lock x) = false ->
  buffer_get d b s = Ok i (s <| bufs := <[i := x <| dev := d |> <| blockno := b |> <| flags := 0 |>
    <| refcnt := 1 |> <| lock := Sleeplock true (mypid s) |>]> (bufs s) |>).
Proof.
  intros Hm Hv Hx Hl. set (s1 := s <| bclocked := true |>).
  destruct (find_cached_head d b s1 eq_refl) as (h & Eh & Ef).
  destruct (find_victim_head s1 eq_refl) as (h' & Eh' & Ev).
  unfold buffer_get. erewrite bind_step; [|unfold acquire_bc; mstep; rewrite Hlk; reflexivity].
  erewrite bind_step by exact Eh. erewrite bind_step by exact Ef. rewrite Hm.
  erewrite bind_step by exact Eh'. erewrite bind_step by exact Ev. rewrite Hv.
  erewrite bmod_Ok by exact Hx. erewrite bind_step by reflexivity.
  erewrite bind_step.
  2:{ apply (lock_buf_Ok _ i (x <| dev := d |> <| blockno := b |> <| flags := 0 |> <| refcnt := 1 |>)); [|exact Hl].
      apply list_lookup_insert_eq, (lookup_lt_Some _ _ _ Hx). }
  unfold mret, M_ret. f_equal. destruct s as [bl lk q d1 re dk wr me]. cbn [bclocked] in Hlk. subst lk. bsimp.
  rewrite list_insert_insert_eq. reflexivity.
Qed.
End buffer_get.

Lemma nz_valid v : v = 2 \/ v = 6 -> nz (Z.land v B_VALID) = true.
Proof. intros [-> | ->]; reflexivity. Qed.

(** After [buffer_get] returned [i] with buffer [y]: read it if it is not valid. *)
Lemma buffer_read_from s b i y s1 :
  buffer_get ROOTDEV b s = Ok i s1 -> bufs s1 !! i = Some y -> lock y = Sleeplock true (mypid s1) ->
  idequeue s1 = [] -> havedisk1 s1 = true -> dev y = ROOTDEV -> blockno y = b -> b < FSSIZE ->
  rderr s1 ROOTDEV b = false -> flags y = 0 \/ flags y = 2 \/ flags y = 6 ->
  buffer_read ROOTDEV b s = Ok i
    (if decide (flags y = 0)
     then s1 <| bufs := <[i := y <| data := disk s1 ROOTDEV b |> <| flags := 2 |>]> (bufs s1) |>
     else s1).
Proof.
  intros Hg Hy Hl Hq Hd Hdv Hbn Hr He Hf. unfold buffer_read. erewrite bind_step by exact Hg.
  erewrite bind_step by (apply bget_Ok, Hy). unfold has_flag, when. case_decide as E.
  - rewrite E. change (nz (Z.land 0 B_VALID)) with false. cbn [negb].
    erewrite bind_step.
    2:{ apply (ide_read_Ok s1 i y); try assumption; [lia|]. rewrite Hdv, Hbn. exact He. }
    rewrite Hdv, Hbn. unfold mret, M_ret. f_equal. destruct s1 as [bl lk q d1 re dk wr me].
    cbn [idequeue] in Hq. subst. reflexivity.
  - rewrite nz_valid by tauto. cbn [negb]. erewrite bind_step by reflexivity. reflexivity.
Qed.

Section buffer_read.
Context (s : bstate) (c : cache) (b : Z) (order : list nat).
Context (R : rep s c) (Ho : list_ok (bufs s) order) (Hbh : b ∉ held_blocks c) (Hb : 0 <= b < FSSIZE).

(** The state [buffer_read] leaves when it filled buffer [i]. *)
Lemma refill s1 i y z :
  s1 = s <| bufs := <[i := y]> (bufs s) |> ->
  s1 <| bufs := <[i := z]> (bufs s1) |> = s <| bufs := <[i := z]> (bufs s) |>.
Proof.
  intros ->. destruct s as [bl lk q d1 re dk wr me]. bsimp. rewrite list_insert_insert_eq. reflexivity.
Qed.

Lemma buffer_read_hit i :
  first_match (bufs s) (cached_for ROOTDEV b) order = Some i ->
  exists s', buffer_read ROOTDEV b s = Ok i s' /\ cheld c !! i = None
    /\ rep s' (c <| cheld := <[i := b]> (cheld c) |>).
Proof.
  intros Hm. destruct (r_quiet _ _ R) as (Q1 & Q2 & Q3 & Q4).
  destruct (first_match_Some _ _ _ _ Hm) as (Hio & x & Hx & Hc).
  apply (order_elem s order Ho) in Hio. apply andb_prop in Hc as [Hdv Hbn].
  apply Z.eqb_eq in Hdv, Hbn. pose proof (r_buf _ _ R i x Hio Hx) as Ok.
  assert (cheld c !! i = None) as Hfree.
  { destruct (cheld c !! i) as [b'|] eqn:E; [|reflexivity]. exfalso. apply Hbh, held_blocks_elem. exists i.
    pose proof (bo_held _ _ _ _ Ok) as Hh. rewrite E in Hh. rewrite E. f_equal. destruct Hh as (_ & ? & _). congruence. }
  pose proof (bo_held _ _ _ _ Ok) as Hh. rewrite Hfree in Hh. destruct Hh as [Hrf Hl].
  set (y := x <| refcnt := u32 (refcnt x + 1) |> <| lock := Sleeplock true (mypid s) |>).
  set (s1 := s <| bufs := <[i := y]> (bufs s) |>).
  assert (bufs s1 !! i = Some y) as Hy by (apply list_lookup_insert_eq, (lookup_lt_Some _ _ _ Hx)).
  assert (forall j z, j <> i -> (j < NBUF)%nat -> bufs s !! j = Some z -> dev z = ROOTDEV -> blockno z <> b) as Hu.
  { intros j z Hne Hj Hz Hdz E. apply Hne. apply (r_uniq _ _ R j i z x); congruence. }
  eexists. split.
  { apply (buffer_read_from s b i y s1); try assumption; try reflexivity.
    - exact (buffer_get_hit s order Ho Q1 ROOTDEV b i x Hm Hx Hl).
    - apply Hb.
    - apply Q4.
    - exact (bo_flags _ _ _ _ Ok). }
  split; [exact Hfree|]. change (flags y) with (flags x).
  assert (refcnt y = 1) as Hr1. { change (u32 (refcnt x + 1) = 1). rewrite Hrf. reflexivity. }
  case_decide as Ef.
  + rewrite (refill s1 i y _ eq_refl).
    apply (rep_take s c i x); try assumption; try reflexivity.
    * change (disk s ROOTDEV b = ccur c b). rewrite <-(r_disk _ _ R). symmetry. apply (r_clean _ _ R); [exact Hbh|].
      intros Hp. destruct (r_pin _ _ R b Hp) as (j & z & Hj & Hz & D1 & D2 & D3).
      destruct (decide (j = i)) as [-> | Hne]; [congruence | exact (Hu j z Hne Hj Hz D1 D2)].
    * left. reflexivity.
    * congruence.
  + apply (rep_take s c i x); try assumption; try reflexivity.
    * change (data x = ccur c b). rewrite <-Hbn. symmetry. apply (bo_cur _ _ _ _ Ok); assumption.
    * change (flags y) with (flags x). destruct (bo_flags _ _ _ _ Ok) as [? | [? | H6]]; [tauto | tauto | right].
      split; [exact H6|]. rewrite <-Hbn. apply (bo_dirty _ _ _ _ Ok H6).
    * auto.
Qed.

Lemma buffer_read_miss :
  room c b -> first_match (bufs s) (cached_for ROOTDEV b) order = None ->
  exists i s', buffer_read ROOTDEV b s = Ok i s' /\ cheld c !! i = None
    /\ rep s' (c <| cheld := <[i := b]> (cheld c) |>).
Proof.
  intros Hroom Hm. destruct (r_quiet _ _ R) as (Q1 & Q2 & Q3 & Q4).
  assert (forall j z, (j < NBUF)%nat -> bufs s !! j = Some z -> dev z = ROOTDEV -> blockno z <> b) as Hu.
  { intros j z Hj Hz Hdz E. assert (cached_for ROOTDEV b z = false) as Hf.
    { apply (first_match_None (bufs s) _ order) with j; auto; [apply (order_lookup s order Ho) | apply (order_elem s order Ho), Hj]. }
    unfold cached_for in Hf. rewrite Hdz, E, !Z.eqb_refl in Hf. discriminate. }
  assert (b ∉ cpin c) as Hbp.
  { intros Hp. destruct (r_pin _ _ R b Hp) as (j & z & Hj & Hz & D1 & D2 & _). exact (Hu j z Hj Hz D1 D2). }
  destruct (first_match (bufs s) evictable (reverse order)) as [i|] eqn:Hv;
    [|exfalso; exact (victim_exists s c order b R Ho Hroom Hbh Hbp Hv)].
  destruct (first_match_Some _ _ _ _ Hv) as (Hio & x & Hx & He).
  rewrite elem_of_reverse in Hio. apply (order_elem s order Ho) in Hio.
  apply andb_prop in He as [Hrf Hnd]. apply Z.eqb_eq in Hrf. apply negb_true_iff in Hnd.
  pose proof (r_buf _ _ R i x Hio Hx) as Ok.
  assert (cheld c !! i = None) as Hfree.
  { destruct (cheld c !! i) as [b'|] eqn:E; [|reflexivity]. exfalso.
    pose proof (bo_held _ _ _ _ Ok) as Hh. rewrite E in Hh. destruct Hh as (_ & _ & ? & _). congruence. }
  pose proof (bo_held _ _ _ _ Ok) as Hh. rewrite Hfree in Hh. destruct Hh as [_ Hl].
  set (y := x <| dev := ROOTDEV |> <| blockno := b |> <| flags := 0 |> <| refcnt := 1 |> <| lock := Sleeplock true (mypid s) |>).
  set (s1 := s <| bufs := <[i := y]> (bufs s) |>).
  assert (bufs s1 !! i = Some y) as Hy by (apply list_lookup_insert_eq, (lookup_lt_Some _ _ _ Hx)).
  exists i. eexists. split.
  { apply (buffer_read_from s b i y s1); try assumption; try reflexivity.
    - exact (buffer_get_miss s order Ho Q1 ROOTDEV b i x Hm Hv Hx Hl).
    - apply Hb.
    - apply Q4.
    - left. reflexivity. }
  split; [exact Hfree|]. rewrite decide_True by reflexivity.
  rewrite (refill s1 i y _ eq_refl).
  apply (rep_take s c i x); try assumption; try reflexivity.
  + change (disk s ROOTDEV b = ccur c b). rewrite <-(r_disk _ _ R). symmetry. apply (r_clean _ _ R); assumption.
  + left. reflexivity.
  + intros H6. rewrite (has_flag_eq _ _ _ H6) in Hnd. discriminate.
  + intros j z _ Hj Hz Hdz. exact (Hu j z Hj Hz Hdz).
Qed.
End buffer_read.

Lemma buffer_read_ok s c b :
  rep s c -> b ∉ held_blocks c -> room c b -> 0 <= b < FSSIZE ->
  exists h s', buffer_read ROOTDEV b s = Ok h s' /\ cheld c !! h = None
    /\ rep s' (c <| cheld := <[h := b]> (cheld c) |>).
Proof.
  intros R Hbh Hroom Hb. destruct (r_order _ _ R) as [order Ho].
  destruct (first_match (bufs s) (cached_for ROOTDEV b) order) as [i|] eqn:Hm.
  - exists i. apply (buffer_read_hit s c b order); assumption.
  - apply (buffer_read_miss s c b order); assumption.
Qed.

(** *** buffer_release *)

Lemma core_fields a b :
  core a = core b -> flags a = flags b /\ dev a = dev b /\ blockno a = blockno b /\ lock a = lock b
    /\ refcnt a = refcnt b /\ data a = data b.
Proof.
  intros H. split_and!.
  - exact (f_equal flags H).
  - exact (f_equal dev H).
  - exact (f_equal blockno H).
  - exact (f_equal lock H).
  - exact (f_equal refcnt H).
  - exact (f_equal data H).
Qed.

(** Only the list order changes. *)
Lemma rep_core s c l o :
  rep s c -> same_core (bufs s) l -> list_ok l o -> rep (s <| bufs := l |>) c.
Proof.
  intros R [Hlen Hc] Ho. destruct R as [R1 R2 R3 R4 R5 R6 R7 R8 R9 R10 R11].
  assert (forall i b, l !! i = Some b -> exists b0, bufs s !! i = Some b0 /\ core b = core b0) as Hold.
  { intros i b Hb. specialize (Hc i). rewrite Hb in Hc. destruct (bufs s !! i) as [b0|]; [|discriminate].
    exists b0. split; [reflexivity|]. exact (inj Some _ _ Hc). }
  assert (forall i b0, bufs s !! i = Some b0 -> exists b, l !! i = Some b /\ core b = core b0) as Hnew.
  { intros i b0 Hb. specialize (Hc i). rewrite Hb in Hc. destruct (l !! i) as [b|]; [|discriminate].
    exists b. split; [reflexivity|]. exact (inj Some _ _ Hc). }
  split; try assumption.
  - exists o. exact Ho.
  - intros i b Hi Hb. destruct (Hold i b Hb) as (b0 & Hb0 & E). apply core_fields in E as (E1 & E2 & E3 & E4 & E5 & E6).
    destruct (R3 i b0 Hi Hb0) as [B1 B2 B3 B4 B5].
    split; rewrite ?E1, ?E2, ?E3, ?E4, ?E5, ?E6; assumption.
  - intros i j a b Hi Hj Ha Hb. destruct (Hold i a Ha) as (a0 & Ha0 & Ea), (Hold j b Hb) as (b0 & Hb0 & Eb).
    apply core_fields in Ea as (_ & -> & -> & _), Eb as (_ & -> & -> & _). apply (R4 i j a0 b0); assumption.
  - intros bn Hbn. destruct (R6 bn Hbn) as (i & b0 & Hi & Hb0 & H1 & H2 & H3).
    destruct (Hnew i b0 Hb0) as (b & Hb & E). apply core_fields in E as (E1 & E2 & E3 & _).
    exists i, b. split_and!; congruence || assumption.
Qed.

(** The buffer after its lock and its reference were given up. *)
Definition given_up (x : buf) : buf := x <| lock := Sleeplock false 0 |> <| refcnt := 0 |>.

Lemma rep_give_up s c h b x :
  rep s c -> cheld c !! h = Some b -> bufs s !! h = Some x -> b ∈ cpin c \/ ccur c b = cdisk c b ->
  rep (s <| bufs := <[h := given_up x]> (bufs s) |>) (c <| cheld := delete h (cheld c) |>).
Proof.
  intros R Hh Hx Hclean.
  destruct (rep_held s c R h b Hh) as (x' & Hi & Hx' & Ok & Hdv & Hbn & _ & _ & Hf & _ & Hc).
  rewrite Hx in Hx'. injection Hx' as <-.
  assert (forall j, cheld (c <| cheld := delete h (cheld c) |>) !! j
    = if decide (j = h) then None else cheld c !! j) as Eh.
  { intros j. change (delete h (cheld c) !! j = if decide (j = h) then None else cheld c !! j).
    case_decide as E; [subst; apply lookup_delete_eq | apply lookup_delete_ne; congruence]. }
  apply (rep_insert s c _ h x); try reflexivity; try assumption.
  - intros k bn. rewrite Eh. case_decide; [discriminate | apply (r_idx _ _ R)].
  - destruct Ok as [B1 B2 B3 B4 B5]. split; try assumption.
    rewrite Eh, decide_True by reflexivity. split; reflexivity.
  - intros j z Hne Hj Hz. split.
    + eapply (buf_ok_other s c _ h b j z z R Hh Hne Hj Hz); auto. rewrite Eh, decide_False by exact Hne. reflexivity.
    + intros _ Hdz E. apply Hne. apply (r_uniq _ _ R j h z x); auto.
  - intros bn Hp. exact (rep_pin_split s c h x bn R Hi Hx Hp).
  - intros bn Hnh Hnp. change (ccur c bn = cdisk c bn). destruct (decide (bn = b)) as [-> | Hne].
    + destruct Hclean as [? | ?]; [contradiction | assumption].
    + apply (r_clean _ _ R); [|exact Hnp]. intros E. apply Hnh. apply held_blocks_elem in E as [k Hk].
      apply held_blocks_elem. exists k. rewrite Eh. case_decide; [congruence | exact Hk].
  - apply (r_clen _ _ R).
Qed.

Lemma buffer_release_front s c h b :
  rep s c -> cheld c !! h = Some b -> b ∈ cpin c \/ ccur c b = cdisk c b ->
  exists s', buffer_release h s = Ok tt s' /\ rep s' (c <| cheld := delete h (cheld c) |>)
    /\ exists o, list_ok (bufs s') (h :: o).
Proof.
  intros R Hh Hclean.
  destruct (rep_held s c R h b Hh) as (x & Hi & Hx & Ok & Hdv & Hbn & Hrf & Hl & Hf & _ & Hc).
  destruct (r_quiet _ _ R) as (Q1 & _).
  pose proof (rep_give_up s c h b x R Hh Hx Hclean) as R1.
  match type of R1 with rep ?sx _ => set (s1 := sx) in R1 end.
  destruct (r_order _ _ R1) as [o Ho]. assert (h ∈ o) as Hho by (apply (order_elem s1 o Ho), Hi).
  apply list_elem_of_split in Hho as (o1 & o2 & ->).
  set (s2 := s1 <| bclocked := true |>).
  destruct (to_front_Ok s2 o1 h o2 Ho) as (l' & Et & Hsc & Ho').
  exists (s1 <| bufs := l' |>).
  split; [|split; [exact (rep_core s1 _ l' _ R1 Hsc Ho') | exists (o1 ++ o2); exact Ho']].
  unfold buffer_release. erewrite bind_step by (apply (holding_Ok s h x); assumption). cbn [negb].
  erewrite bind_step by (apply (unlock_buf_Ok s h x), Hx).
  erewrite bind_step; [|unfold acquire_bc; mstep; cbn [bclocked assign]; rewrite Q1; reflexivity].
  erewrite bmod_Ok by (apply list_lookup_insert_eq, (lookup_lt_Some _ _ _ Hx)).
  match goal with |- (bget h ≫= _) ?sx = _ => assert (sx = s2) as -> end.
  { unfold s2, s1. destruct s as [bl lk q d1 re dk wr me]. bsimp. rewrite list_insert_insert_eq.
    change (refcnt (x <| lock := Sleeplock false 0 |>)) with (refcnt x). rewrite Hrf. reflexivity. }
  erewrite bind_step by (apply bget_Ok, list_lookup_insert_eq, (lookup_lt_Some _ _ _ Hx)).
  change (refcnt (given_up x) =? 0) with true. unfold when. erewrite bind_step by exact Et.
  unfold release_bc. mstep. cbn [bclocked assign].
  unfold s2, s1. destruct s as [bl lk q d1 re dk wr me]. cbn [bclocked] in Q1. subst lk. reflexivity.
Qed.

Lemma buffer_release_ok s c h b :
  rep s c -> cheld c !! h = Some b -> b ∈ cpin c \/ ccur c b = cdisk c b ->
  exists s', buffer_release h s = Ok tt s' /\ rep s' (c <| cheld := delete h (cheld c) |>).
Proof.
  intros R Hh Hc. destruct (buffer_release_front s c h b R Hh Hc) as (s' & E & R' & _). eauto.
Qed.

(** ** A fresh cache *)

Definition zero_buf (z : blk) : buf := Buf 0 0 0 (Sleeplock false 0) 0 0 0 z.
Definition bss (z : blk) (d : Z -> blk) : bstate :=
  BState (replicate (S NBUF) (zero_buf z)) false [] true (fun _ _ => false) (fun _ bn => d bn) [] 1.

(** The list [buffer_init] builds: the last buffer first. *)
Definition init_list (z : blk) : list buf :=
  map (fun i => zero_buf z <| next := match i with O => head | S j => j end |>
                           <| prev := if decide (i = 29)%nat then head else S i |>) (seq 0 NBUF)
  ++ [zero_buf z <| prev := 0%nat |> <| next := 29%nat |>].

Lemma buffer_init_Ok z d : buffer_init (bss z d) = Ok tt (bss z d <| bufs := init_list z |>).
Proof. vm_compute. reflexivity. Qed.

Lemma init_list_ok z : list_ok (init_list z) (reverse (seq 0 NBUF)).
Proof.
  split; [reflexivity | apply reverse_Permutation|]. vm_compute. repeat split.
Qed.

Lemma init_list_bufs z i b :
  init_list z !! i = Some b -> flags b = 0 /\ dev b = 0 /\ refcnt b = 0 /\ lock b = Sleeplock false 0 /\ data b = z.
Proof.
  intros H. assert (Forall (fun b => flags b = 0 /\ dev b = 0 /\ refcnt b = 0 /\ lock b = Sleeplock false 0
    /\ data b = z) (init_list z)) as HF by (repeat constructor).
  exact (proj1 (Forall_lookup _ _) HF i b H).
Qed.

Definition fresh_cache (d : Z -> blk) : bstate :=
  match buffer_init (bss (replicate (Z.to_nat BSIZE) 0) d) with Ok _ s => s | _ => bss [] d end.

Lemma fresh_cache_ok d :
  (forall b, Z.of_nat (length (d b)) = BSIZE) -> rep (fresh_cache d) (Cache d d ∅ ∅ []).
Proof.
  intros Hd. unfold fresh_cache. rewrite buffer_init_Ok.
  set (z := replicate (Z.to_nat BSIZE) 0). assert (Z.of_nat (length z) = BSIZE) as Hz by reflexivity.
  split.
  - eexists. apply init_list_ok.
  - split_and!; reflexivity.
  - intros i b Hi Hb. destruct (init_list_bufs z i b Hb) as (H1 & H2 & H3 & H4 & H5).
    split; rewrite ?H1, ?H2, ?H5.
    + exact Hz.
    + auto.
    + change (cheld (Cache d d ∅ ∅ []) !! i) with ((∅ : gmap nat Z) !! i). rewrite lookup_empty, H4. auto.
    + discriminate.
    + intros []. reflexivity.
  - intros i j a b _ _ Ha _ Hda. destruct (init_list_bufs z i a Ha) as (_ & H2 & _). rewrite H2 in Hda. discriminate.
  - intros h bn H. change ((∅ : gmap nat Z) !! h = Some bn) in H. rewrite lookup_empty in H. discriminate.
  - intros bn H. change (bn ∈ (∅ : gset Z)) in H. set_solver.
  - reflexivity.
  - reflexivity.
  - exact Hd.
  - exact Hd.
  - reflexivity.
Qed.

#[export] Instance bio_cache : BufCache bstate := {|
  bread := buffer_read;
  bwrite := buffer_write;
  brelse := buffer_release;
  bdata := buffer_data;
  bstore := buffer_store;
  bpin := buffer_pin;
  bblockno := buffer_blockno;
  bfresh := fresh_cache;
  bdisk s := disk s ROOTDEV;
  bwrites := writes;
  crep := rep
|}.

Lemma bio_laws : BufCacheLaws bstate.
Proof.
  split.
  - exact buffer_read_ok.
  - exact buffer_data_ok.
  - exact buffer_blockno_ok.
  - exact buffer_store_ok.
  - exact buffer_pin_ok.
  - exact buffer_write_ok.
  - exact buffer_release_ok.
  - exact fresh_cache_ok.
  - intros s c b R. exact (r_clen _ _ R b).
  - intros s c b R. exact (r_dlen _ _ R b).
  - intros s c b R. symmetry. exact (r_disk _ _ R b).
  - intros s c R. exact (r_writes _ _ R).
  - intros s c b R. exact (r_clean _ _ R b).
Qed.
#[export] Existing Instance bio_laws.

(** C3. The buffer cache of bio.c, with its linked list, locks, reference counts
    and disk requests, implements the cache of Block.v: every law of the
    interface holds of buffer_read, buffer_write, buffer_release and of the cache
    that buffer_init sets up. *)
Theorem bio_refines_cache : BufCacheLaws bstate.
Proof. exact bio_laws. Qed.

(** Reading and releasing a block returns its current contents and never panics while at most NBUF blocks are in use or
    pinned; it changes neither the disk nor the contents of any block, and leaves
    the buffer the most recently used one of an intact list. *)
Theorem read_release_roundtrip s c b :
  rep s c -> b ∉ held_blocks c -> room c b -> 0 <= b < FSSIZE ->
  exists h s1 s2 o, buffer_read ROOTDEV b s = Ok h s1 /\ buffer_data h s1 = Ok (ccur c b) s1
    /\ buffer_release h s1 = Ok tt s2 /\ rep s2 c /\ list_ok (bufs s2) (h :: o).
Proof.
  intros R Hb Hroom Hr. destruct (buffer_read_ok s c b R Hb Hroom Hr) as (h & s1 & E1 & Hfree & R1).
  assert (cheld (c <| cheld := <[h := b]> (cheld c) |>) !! h = Some b) as Hh by apply lookup_insert_eq.
  destruct (buffer_release_front s1 _ h b R1 Hh) as (s2 & E2 & R2 & o & Ho).
  { destruct (decide (b ∈ cpin c)); [left; assumption | right]. apply (r_clean _ _ R); assumption. }
  exists h, s1, s2, o. split_and!; [exact E1 | exact (buffer_data_ok s1 _ h b R1 Hh) | exact E2 | | exact Ho].
  replace (c <| cheld := <[h := b]> (cheld c) |> <| cheld := delete h (cheld (c <| cheld := <[h := b]> (cheld c) |>)) |>)
    with c in R2; [exact R2|].
  destruct c as [dk cu he pi wr]. cbn [cheld] in Hfree. cbn [assign cdisk ccur cheld cpin cwrites].
  rewrite delete_insert_id by exact Hfree. reflexivity.
Qed.

Lemma read_release_roundtrip_witness : exists h s1 s2 o,
  buffer_read ROOTDEV 7 (fresh_cache (fun _ => replicate (Z.to_nat BSIZE) 65)) = Ok h s1
  /\ buffer_data h s1 = Ok (replicate (Z.to_nat BSIZE) 65) s1
  /\ buffer_release h s1 = Ok tt s2 /\ list_ok (bufs s2) (h :: o).
Proof.
  destruct (read_release_roundtrip (fresh_cache (fun _ => replicate (Z.to_nat BSIZE) 65))
    (Cache (fun _ => replicate (Z.to_nat BSIZE) 65) (fun _ => replicate (Z.to_nat BSIZE) 65) ∅ ∅ []) 7)
    as (h & s1 & s2 & o & H1 & H2 & H3 & _ & H4).
  - apply fresh_cache_ok. intros b. reflexivity.
  - unfold held_blocks. cbn [cheld]. rewrite map_to_list_empty. set_solver.
  - unfold room, held_blocks. cbn [cheld cpin]. rewrite map_to_list_empty. vm_compute. lia.
  - unfold FSSIZE. lia.
  - exists h, s1, s2, o. auto.
Defined.
