(* ===== verification/Log.v ===== *)
(** * The write-ahead log (src/kernel/fs/log.c)

    log.c over the buffer-cache interface of Block.v.  The in-memory [struct log]
    is a record; the header block on disk is read and written through its bytes.
    [sleep(&log, &log.lock)] is the [Block] outcome on [log_chan]. *)
From Stdlib Require Import ZArith Lia.
From stdpp Require Import base numbers list gmap strings.
From S2P Require Import Prelude Block.
Local Open Scope Z_scope.

Definition MAXOPBLOCKS : Z := 10.
Definition LOGSIZE : Z := MAXOPBLOCKS * 3.
Definition log_chan : Z := 1.

Record log (S : Type) := Log {
  bc : S;                    (* the buffer cache *)
  loglocked : bool;          (* log.lock *)
  start : Z; lsize : Z; outstanding : Z; committing : bool; ldev : Z;
  lh_n : Z; lh_block : list Z
}.
Arguments Log {S}. Arguments bc {S}. Arguments loglocked {S}. Arguments start {S}. Arguments lsize {S}.
Arguments outstanding {S}. Arguments committing {S}. Arguments ldev {S}. Arguments lh_n {S}. Arguments lh_block {S}.
#[export] Instance log_fields S : Fields (log S) := fun l =>
  Log (bc l) (loglocked l) (start l) (lsize l) (outstanding l) (committing l) (ldev l) (lh_n l) (lh_block l).

Section log.
Context {C : Type} `{BufCache C}.

(** Run an operation of the buffer cache. *)
Definition onbc {A} (m : M C A) : M (log C) A := fun l =>
  match m (bc l) with
  | Ok a s => Ok a (l <| bc := s |>)
  | Panic w => Panic w
  | Fault w => Fault w
  | Block ch s => Block ch (l <| bc := s |>)
  end.

Definition acquire_log : M (log C) unit :=
  l ← get; if loglocked l then panic "acquire" else put (l <| loglocked := true |>).
Definition release_log : M (log C) unit :=
  l ← get; if loglocked l then put (l <| loglocked := false |>) else panic "release".

(** [log.lh.block[i]] and its assignment; the array has LOGSIZE elements. *)
Definition block_at (i : Z) : M (log C) Z := l ← get; aget "log.lh.block" (lh_block l) i.
Definition set_block (i b : Z) : M (log C) unit :=
  l ← get; bs ← aset "log.lh.block" (lh_block l) i b; put (l <| lh_block := bs |>).

(** ** Blocks to and from the log *)

Definition install_one (tail : Z) : M (log C) unit :=
  l ← get;
  lbuf ← onbc (bread (ldev l) (start l + tail + 1));
  dst ← block_at tail;
  dbuf ← onbc (bread (ldev l) dst);
  d ← onbc (bdata lbuf);
  onbc (bstore dbuf d);;
  onbc (bwrite dbuf);;
  onbc (brelse lbuf);;
  onbc (brelse dbuf).

Definition log_one (tail : Z) : M (log C) unit :=
  l ← get;
  to ← onbc (bread (ldev l) (start l + tail + 1));
  src ← block_at tail;
  from ← onbc (bread (ldev l) src);
  d ← onbc (bdata from);
  onbc (bstore to d);;
  onbc (bwrite to);;
  onbc (brelse from);;
  onbc (brelse to).

(** [for (tail = 0; tail < log.lh.n; tail++)]: [k] rounds from [tail]. *)
Fixpoint tail_loop (body : Z -> M (log C) unit) (k : nat) (tail : Z) : M (log C) unit :=
  match k with
  | O => mret tt
  | S k' => body tail;; tail_loop body k' (tail + 1)
  end.

Definition install_trans : M (log C) unit :=
  l ← get; tail_loop install_one (Z.to_nat (lh_n l)) 0.
Definition write_log : M (log C) unit :=
  l ← get; tail_loop log_one (Z.to_nat (lh_n l)) 0.

(** ** The header block: [int n; int block[LOGSIZE]] *)

Definition read_head : M (log C) unit :=
  l ← get;
  buf ← onbc (bread (ldev l) (start l));
  d ← onbc (bdata buf);
  let n := i32 (get32 d 0) in
  modify (fun l => l <| lh_n := n |>);;
  tail_loop (fun i => set_block i (i32 (get32 d (4 + 4 * i)))) (Z.to_nat n) 0;;
  onbc (brelse buf).

Fixpoint put_blocks (d : blk) (off : Z) (bs : list Z) : blk :=
  match bs with
  | [] => d
  | b :: bs' => put_blocks (put32 d off b) (off + 4) bs'
  end.

(** [hb->block[i] = log.lh.block[i]] for i < n *)
Definition write_head : M (log C) unit :=
  l ← get;
  buf ← onbc (bread (ldev l) (start l));
  d ← onbc (bdata buf);
  let d := put32 d 0 (lh_n l) in
  if Z.of_nat (length (lh_block l)) <? lh_n l then fault "log.lh.block"
  else
    onbc (bstore buf (put_blocks d 4 (take (Z.to_nat (lh_n l)) (lh_block l))));;
    onbc (bwrite buf);;
    onbc (brelse buf).

Definition recover_from_log : M (log C) unit :=
  read_head;;
  install_trans;;
  modify (fun l => l <| lh_n := 0 |>);;
  write_head.

(** The header, one int and LOGSIZE ints, must be smaller than a block. *)
Definition init_log (dev : Z) : M (log C) unit :=
  if BSIZE <=? 4 + 4 * LOGSIZE then panic "initlog: too big logheader"
  else
    modify (fun l => l <| loglocked := false |>);;
    sb ← onbc (readsb dev);
    modify (fun l => l <| start := i32 (sb_logstart sb) |> <| lsize := i32 (sb_nlog sb) |> <| ldev := dev |>);;
    recover_from_log.

(** ** Transactions *)

(** One round of the loop of [begin_op]; a sleeper tries again when woken. *)
Definition begin_op : M (log C) unit :=
  acquire_log;;
  l ← get;
  if committing l then put (l <| loglocked := false |>);; block log_chan
  else if LOGSIZE <? lh_n l + (outstanding l + 1) * MAXOPBLOCKS then
    put (l <| loglocked := false |>);; block log_chan
  else
    put (l <| outstanding := outstanding l + 1 |>);;
    release_log.

Definition commit : M (log C) unit :=
  l ← get;
  if 0 <? lh_n l then
    write_log;;
    write_head;;
    install_trans;;
    modify (fun l => l <| lh_n := 0 |>);;
    write_head
  else mret tt.

(** The wake-ups of sleepers on [log] change no state of the log itself. *)
Definition end_op : M (log C) unit :=
  acquire_log;;
  modify (fun l => l <| outstanding := outstanding l - 1 |>);;
  l ← get;
  if committing l then panic "log.committing"
  else
    let do_commit := outstanding l =? 0 in
    when do_commit (modify (fun l => l <| committing := true |>));;
    release_log;;
    when do_commit
      (commit;;
       acquire_log;;
       modify (fun l => l <| committing := false |>);;
       release_log).

(** The index of the first [i < n] with [block[i] = b], or [n]. *)
Fixpoint absorb (bs : list Z) (b : Z) (i : Z) : Z :=
  match bs with
  | [] => i
  | x :: bs' => if x =? b then i else absorb bs' b (i + 1)
  end.

Definition log_write (buf : nat) : M (log C) unit :=
  l ← get;
  if (LOGSIZE <=? lh_n l) || (lsize l - 1 <=? lh_n l) then panic "too big a transaction"
  else if outstanding l <? 1 then panic "log_write outside of trans"
  else
    acquire_log;;
    b ← onbc (bblockno buf);
    let i := absorb (take (Z.to_nat (lh_n l)) (lh_block l)) b 0 in
    set_block i b;;
    when (i =? lh_n l) (modify (fun l => l <| lh_n := lh_n l + 1 |>));;
    onbc (bpin buf);;
    release_log.
End log.
