(* ===== verification/LogThm.v ===== *)
(** * The write-ahead log: crash atomicity (theorems about Log.v)

    Proved for any buffer cache that satisfies [BufCacheLaws], then instantiated
    with bio.c.  A crash keeps a prefix of the disk writes; the recovery that
    [init_log] runs at the next boot then makes a transaction all or nothing. *)
From Stdlib Require Import ZArith Lia.
From stdpp Require Import base numbers list gmap strings relations.
From S2P Require Import Prelude Block Log.
Local Open Scope Z_scope.

(** ** Disk writes *)

Definition apply_writes (d : Z -> blk) (l : list (Z * blk)) : Z -> blk :=
  fold_left (fun d w => bupd d w.1 w.2) l d.

Lemma apply_writes_app d l1 l2 : apply_writes d (l1 ++ l2) = apply_writes (apply_writes d l1) l2.
Proof. apply fold_left_app. Qed.

Lemma apply_writes_other l : forall d b, b ∉ l.*1 -> apply_writes d l b = d b.
Proof.
  induction l as [|[b' x] l IH]; intros d b Hb; [reflexivity|]. cbn in Hb.
  change (apply_writes (bupd d b' x) l b = d b). rewrite IH by set_solver. apply bupd_ne. set_solver.
Qed.

(** The last write of a block wins; with distinct blocks, the only one. *)
Lemma apply_writes_in l : forall d b x, NoDup l.*1 -> (b, x) ∈ l -> apply_writes d l b = x.
Proof.
  induction l as [|[b' y] l IH]; intros d b x Hnd Hin; [set_solver|]. cbn in Hnd.
  change (apply_writes (bupd d b' y) l b = x).
  apply NoDup_cons in Hnd as [Hn Hnd]. apply elem_of_cons in Hin as [E | Hin].
  - injection E as -> ->. rewrite apply_writes_other by exact Hn. apply bupd_eq.
  - apply IH; assumption.
Qed.

(** Writing a block through the cache: read, store, write, release. *)
Definition cput (c : cache) (b : Z) (d : blk) : cache :=
  c <| ccur := bupd (ccur c) b d |> <| cdisk := bupd (cdisk c) b d |> <| cpin := cpin c ∖ {[b]} |>
    <| cwrites := cwrites c ++ [(b, d)] |>.

Definition cputs (c : cache) (l : list (Z * blk)) : cache := fold_left (fun c w => cput c w.1 w.2) l c.

Lemma cputs_app c l1 l2 : cputs c (l1 ++ l2) = cputs (cputs c l1) l2.
Proof. apply fold_left_app. Qed.

Lemma cputs_fields l : forall c,
  cdisk (cputs c l) = apply_writes (cdisk c) l /\ ccur (cputs c l) = apply_writes (ccur c) l
  /\ cwrites (cputs c l) = cwrites c ++ l /\ cheld (cputs c l) = cheld c
  /\ (forall b, b ∈ cpin (cputs c l) <-> b ∈ cpin c /\ b ∉ l.*1).
Proof.
  induction l as [|[b d] l IH]; intros c.
  - split_and!; [reflexivity..| symmetry; apply app_nil_r | reflexivity | intros b; cbn; set_solver].
  - change (cputs c ((b, d) :: l)) with (cputs (cput c b d) l).
    destruct (IH (cput c b d)) as (H1 & H2 & H3 & H4 & H5). split_and!; [exact H1 | exact H2 | | exact H4 |].
    + rewrite H3. exact (eq_sym (app_assoc (cwrites c) [(b, d)] l)).
    + intros b'. rewrite H5. change (cpin (cput c b d)) with (cpin c ∖ {[b]}). cbn. set_solver.
Qed.

(** The cache is quiet: nothing handed out. *)
Definition idle (c : cache) : Prop := cheld c = ∅.

Lemma idle_held c b : idle c -> b ∉ held_blocks c.
Proof. intros E. unfold held_blocks. rewrite E, map_to_list_empty. set_solver. Qed.

Lemma cputs_idle c l : idle c -> idle (cputs c l).
Proof. unfold idle. destruct (cputs_fields l c) as (_ & _ & _ & -> & _). auto. Qed.

Section log_laws.
Context {C : Type} `{HBC : BufCache C} {HL : BufCacheLaws C}.
Implicit Types (l : log C) (c : cache).

(** *** Single cache operations inside the log *)

Lemma onbc_Ok {A B} (m : M C A) (k : A -> M (log C) B) l a s' :
  m (bc l) = Ok a s' -> (onbc m ≫= k) l = k a (l <| bc := s' |>).
Proof. intros E. unfold onbc. mstep. rewrite E. reflexivity. Qed.

Lemma held_insert c h a : idle c -> held_blocks (c <| cheld := <[h := a]> (cheld c) |>) = {[a]}.
Proof.
  intros E. unfold held_blocks. change (cheld (c <| cheld := <[h := a]> (cheld c) |>)) with (<[h := a]> (cheld c)).
  rewrite E, insert_empty, map_to_list_singleton. cbn. set_solver.
Qed.

(** Two blocks can be read at once. *)
Definition room2 (c : cache) (a b : Z) : Prop := (size ({[a; b]} ∪ cpin c) <= NBUF)%nat.

Lemma room2_fst c a b : idle c -> room2 c a b -> room c a.
Proof.
  unfold room, room2. intros Hi Hr. etransitivity; [|exact Hr]. apply subseteq_size.
  intros x. rewrite !elem_of_union. intros [[?|Hx]|?]; [set_solver| |set_solver].
  exfalso. exact (idle_held c x Hi Hx).
Qed.

Lemma room2_snd c a b h : idle c -> room2 c a b -> room (c <| cheld := <[h := a]> (cheld c) |>) b.
Proof.
  unfold room, room2. intros Hi Hr. etransitivity; [|exact Hr]. rewrite held_insert by exact Hi.
  apply subseteq_size. set_solver.
Qed.

(** Reading two blocks. *)
Lemma read_two s c a b :
  crep s c -> idle c -> a <> b -> 0 <= a < 50000 -> 0 <= b < 50000 -> room2 c a b ->
  exists h1 h2 s1 s2, bread ROOTDEV a s = Ok h1 s1 /\ bread ROOTDEV b s1 = Ok h2 s2 /\ h1 <> h2
    /\ crep s2 (c <| cheld := <[h2 := b]> (<[h1 := a]> ∅) |>).
Proof.
  intros R Hi Hab Ha Hb Hroom.
  destruct (bread_ok s c a R (idle_held c a Hi) (room2_fst c a b Hi Hroom) Ha) as (h1 & s1 & E1 & _ & R1).
  destruct (bread_ok s1 _ b R1) as (h2 & s2 & E2 & Hf & R2).
  - rewrite held_insert by exact Hi. set_solver.
  - apply room2_snd; assumption.
  - exact Hb.
  - rewrite Hi in *. exists h1, h2, s1, s2. split_and!; [exact E1 | exact E2 | | exact R2].
    intros <-. change (<[h1 := a]> (∅ : gmap nat Z) !! h1 = None) in Hf. rewrite lookup_insert_eq in Hf. discriminate.
Qed.

(** Copying the block [f] in buffer [hf] to the block [t] in buffer [ht]: the
    destination is written and both buffers are released, in either order. *)
Lemma copy_two s c hf ht f t (m : gmap nat Z) :
  crep s (c <| cheld := m |>) -> idle c -> hf <> ht -> f <> t -> m !! hf = Some f -> m !! ht = Some t ->
  delete hf (delete ht m) = ∅ -> f ∈ cpin c \/ ccur c f = cdisk c f ->
  exists s1 s2, bdata hf s = Ok (ccur c f) s /\ bstore ht (ccur c f) s = Ok tt s1 /\ bwrite ht s1 = Ok tt s2
    /\ (exists s3 s4, brelse hf s2 = Ok tt s3 /\ brelse ht s3 = Ok tt s4 /\ crep s4 (cput c t (ccur c f)))
    /\ (exists s3 s4, brelse ht s2 = Ok tt s3 /\ brelse hf s3 = Ok tt s4 /\ crep s4 (cput c t (ccur c f))).
Proof.
  intros R Hi Hh Hft Hf Ht Hm Hcl. set (d := ccur c f).
  pose proof (bdata_ok s _ hf f R Hf) as E0.
  destruct (bstore_ok s _ ht t d R Ht (crep_size s _ f R)) as (s1 & E1 & R1).
  destruct (bwrite_ok s1 _ ht t R1 Ht) as (s2 & E2 & R2).
  exists s1, s2. split; [exact E0|]. split; [exact E1|]. split; [exact E2|].
  match type of R2 with crep _ ?cx => set (c2 := cx) in R2 end.
  assert (ccur c2 t = d /\ cdisk c2 t = d) as [Ec Ed].
  { split; [apply bupd_eq|]. change (bupd (cdisk c) t (bupd (ccur c) t d t) t = d). rewrite !bupd_eq. reflexivity. }
  assert (f ∈ cpin c2 \/ ccur c2 f = cdisk c2 f) as Hclf.
  { change (f ∈ cpin c ∖ {[t]} \/ bupd (ccur c) t d f = bupd (cdisk c) t (bupd (ccur c) t d t) f).
    rewrite !(bupd_ne _ t f) by congruence. destruct Hcl; [left; set_solver | right; assumption]. }
  assert (forall s4 c4, c4 = c2 <| cheld := ∅ |> -> crep s4 c4 -> crep s4 (cput c t d)) as Hend.
  { intros s4 c4 -> R4. revert R4. unfold c2, cput. destruct c as [dk cu he pi wr].
    unfold idle in Hi. cbn [cheld] in Hi. subst he. cbn [assign cdisk ccur cheld cpin cwrites].
    rewrite bupd_eq. auto. }
  assert (delete ht (delete hf m) = ∅) as Hm'.
  { rewrite delete_delete. exact Hm. }
  split.
  - destruct (brelse_ok s2 c2 hf f R2 Hf Hclf) as (s3 & E3 & R3).
    destruct (brelse_ok s3 _ ht t R3) as (s4 & E4 & R4).
    + change (delete hf m !! ht = Some t). rewrite lookup_delete_ne by congruence. exact Ht.
    + right. change (ccur c2 t = cdisk c2 t). congruence.
    + exists s3, s4. split_and!; [exact E3 | exact E4|]. eapply Hend; [|exact R4].
      change (c2 <| cheld := delete ht (delete hf m) |> = c2 <| cheld := ∅ |>). rewrite Hm'. reflexivity.
  - destruct (brelse_ok s2 c2 ht t R2 Ht) as (s3 & E3 & R3); [right; congruence|].
    destruct (brelse_ok s3 _ hf f R3) as (s4 & E4 & R4).
    + change (delete ht m !! hf = Some f). rewrite lookup_delete_ne by congruence. exact Hf.
    + exact Hclf.
    + exists s3, s4. split_and!; [exact E3 | exact E4|]. eapply Hend; [|exact R4].
      change (c2 <| cheld := delete hf (delete ht m) |> = c2 <| cheld := ∅ |>). rewrite Hm. reflexivity.
Qed.

Lemma del2 (h1 h2 : nat) (a b : Z) :
  h1 <> h2 -> delete h1 (delete h2 (<[h2 := b]> (<[h1 := a]> (∅ : gmap nat Z)))) = ∅.
Proof.
  intros H. rewrite delete_insert_id by (rewrite lookup_insert_ne by congruence; apply lookup_empty).
  apply delete_insert_id, lookup_empty.
Qed.

Lemma block_at_Ok l (t : nat) b : lh_block l !! t = Some b -> block_at (Z.of_nat t) l = Ok b l.
Proof.
  intros E. unfold block_at. mstep. rewrite (aget_Ok _ _ _ b); [reflexivity | lia | rewrite Nat2Z.id; exact E].
Qed.

Section one.
Context (l : log C) (c : cache) (t : nat) (a b : Z).
Context (R : crep (bc l) c) (Hdev : ldev l = ROOTDEV) (Hi : idle c) (Hb : lh_block l !! t = Some b) (Ea : a = start l + Z.of_nat t + 1)
  (Hab : a <> b) (Ra : 0 <= a < 50000) (Rb : 0 <= b < 50000) (Hroom : room2 c a b).

Lemma log_one_Ok :
  b ∈ cpin c \/ ccur c b = cdisk c b ->
  exists s', log_one (Z.of_nat t) l = Ok tt (l <| bc := s' |>) /\ crep s' (cput c a (ccur c b)).
Proof.
  intros Hcl. destruct (read_two (bc l) c a b R Hi Hab Ra Rb Hroom) as (h1 & h2 & s1 & s2 & E1 & E2 & Hh & R2).
  destruct (copy_two s2 c h2 h1 b a _ R2 Hi) as (s3 & s4 & E3 & E4 & E5 & (s5 & s6 & E6 & E7 & R6) & _); auto.
  - apply lookup_insert_eq.
  - rewrite lookup_insert_ne by congruence. apply lookup_insert_eq.
  - rewrite delete_delete. apply del2, Hh.
  - exists s6. split; [|exact R6]. unfold log_one. erewrite bind_step by reflexivity. rewrite <-Ea, Hdev.
    erewrite onbc_Ok by exact E1. erewrite bind_step by (apply block_at_Ok; exact Hb).
    erewrite onbc_Ok by exact E2. erewrite onbc_Ok by exact E3. erewrite onbc_Ok by exact E4.
    erewrite onbc_Ok by exact E5. erewrite onbc_Ok by exact E6. unfold onbc.
    cbn [bc assign]. rewrite E7. destruct l; reflexivity.
Qed.

Lemma install_one_Ok :
  a ∈ cpin c \/ ccur c a = cdisk c a ->
  exists s', install_one (Z.of_nat t) l = Ok tt (l <| bc := s' |>) /\ crep s' (cput c b (ccur c a)).
Proof.
  intros Hcl. destruct (read_two (bc l) c a b R Hi Hab Ra Rb Hroom) as (h1 & h2 & s1 & s2 & E1 & E2 & Hh & R2).
  destruct (copy_two s2 c h1 h2 a b _ R2 Hi) as (s3 & s4 & E3 & E4 & E5 & (s5 & s6 & E6 & E7 & R6) & _); auto.
  - rewrite lookup_insert_ne by congruence. apply lookup_insert_eq.
  - apply lookup_insert_eq.
  - apply del2, Hh.
  - exists s6. split; [|exact R6]. unfold install_one. erewrite bind_step by reflexivity. rewrite <-Ea, Hdev.
    erewrite onbc_Ok by exact E1. erewrite bind_step by (apply block_at_Ok; exact Hb).
    erewrite onbc_Ok by exact E2. erewrite onbc_Ok by exact E3. erewrite onbc_Ok by exact E4.
    erewrite onbc_Ok by exact E5. erewrite onbc_Ok by exact E6. unfold onbc.
    cbn [bc assign]. rewrite E7. destruct l; reflexivity.
Qed.
End one.

(** *** The loops *)

Fixpoint log_writes (st : Z) (cur : Z -> blk) (bs : list Z) (t : Z) : list (Z * blk) :=
  match bs with [] => [] | b :: bs' => (st + t + 1, cur b) :: log_writes st cur bs' (t + 1) end.

Fixpoint installs (st : Z) (cur : Z -> blk) (bs : list Z) (t : Z) : list (Z * blk) :=
  match bs with [] => [] | b :: bs' => (b, cur (st + t + 1)) :: installs st cur bs' (t + 1) end.

(** Where the log and the logged blocks are. *)
Record placed (st : Z) (bs : list Z) : Prop := Placed {
  pl_start : 2 <= st /\ st + LOGSIZE < 50000;
  pl_len : Z.of_nat (length bs) < LOGSIZE;
  pl_home : forall b, b ∈ bs -> 2 <= b < 50000 /\ ~ (st <= b < st + LOGSIZE);
  pl_nodup : NoDup bs
}.

Definition roomy (c : cache) (bs : list Z) : Prop := forall a b, b ∈ bs -> room2 c a b.

Lemma roomy_cput c b d bs : roomy c bs -> roomy (cput c b d) bs.
Proof.
  intros H a x Hx. specialize (H a x Hx). unfold room2 in *. etransitivity; [|exact H].
  apply subseteq_size. change (cpin (cput c b d)) with (cpin c ∖ {[b]}). set_solver.
Qed.

Lemma write_log_loop bs : forall l c t cur,
  crep (bc l) c -> ldev l = ROOTDEV -> idle c -> (forall i b, bs !! i = Some b -> lh_block l !! (t + i)%nat = Some b) ->
  (0 <= start l /\ start l + Z.of_nat (t + length bs) < 50000) ->
  (forall b, b ∈ bs -> 0 <= b < 50000 /\ ~ (start l <= b <= start l + Z.of_nat (t + length bs))) ->
  roomy c bs -> (forall b, b ∈ bs -> ccur c b = cur b /\ (b ∈ cpin c \/ ccur c b = cdisk c b)) ->
  exists s', tail_loop log_one (length bs) (Z.of_nat t) l = Ok tt (l <| bc := s' |>)
    /\ crep s' (cputs c (log_writes (start l) cur bs (Z.of_nat t))).
Proof.
  induction bs as [|b bs IH]; intros l c t cur R Hdev Hi Hbs Hst Hhome Hroom Hcur; cbn [length tail_loop log_writes].
  - exists (bc l). split; [destruct l; reflexivity | exact R].
  - cbn [length] in *. set (a := start l + Z.of_nat t + 1).
    destruct (Hhome b) as [Rb Hnb]; [set_solver|]. destruct (Hcur b) as [Eb Hcl]; [set_solver|].
    destruct (log_one_Ok l c t a b) as (s1 & E1 & R1); try assumption; try reflexivity.
    + rewrite <-(Nat.add_0_r t). apply Hbs. reflexivity.
    + unfold a. lia.
    + unfold a. lia.
    + apply Hroom. set_solver.
    + erewrite bind_step by exact E1. rewrite Eb in R1.
      destruct (IH (l <| bc := s1 |>) (cput c a (cur b)) (S t) cur) as (s2 & E2 & R2).
      * exact R1.
      * exact Hdev.
      * exact Hi.
      * intros i x Hx. replace (S t + i)%nat with (t + S i)%nat by lia. apply (Hbs (S i)). exact Hx.
      * change (start (l <| bc := s1 |>)) with (start l). lia.
      * change (start (l <| bc := s1 |>)) with (start l). intros x Hx. destruct (Hhome x); [set_solver|]. split; [assumption | lia].
      * apply roomy_cput. intros x y Hy. apply Hroom. set_solver.
      * intros x Hx. destruct (Hcur x) as [Ex Hclx]; [set_solver|]. destruct (Hhome x) as [_ Hnx]; [set_solver|].
        assert (x <> a) by (unfold a; lia).
        change (bupd (ccur c) a (cur b) x = cur x /\ (x ∈ cpin c ∖ {[a]} \/
          bupd (ccur c) a (cur b) x = bupd (cdisk c) a (cur b) x)).
        rewrite !bupd_ne by assumption. split; [exact Ex|]. destruct Hclx; [left; set_solver | right; assumption].
      * exists s2. rewrite Nat2Z.inj_succ, <-Z.add_1_r in E2. split; [rewrite E2; destruct l; reflexivity|].
        rewrite Nat2Z.inj_succ, <-Z.add_1_r in R2. exact R2.
Qed.

Lemma install_loop bs : forall l c t cur,
  crep (bc l) c -> ldev l = ROOTDEV -> idle c -> (forall i b, bs !! i = Some b -> lh_block l !! (t + i)%nat = Some b) ->
  (0 <= start l /\ start l + Z.of_nat (t + length bs) < 50000) ->
  (forall b, b ∈ bs -> 0 <= b < 50000 /\ ~ (start l <= b <= start l + Z.of_nat (t + length bs))) ->
  roomy c bs -> (forall a, start l < a <= start l + Z.of_nat (t + length bs) ->
    ccur c a = cur a /\ (a ∈ cpin c \/ ccur c a = cdisk c a)) ->
  exists s', tail_loop install_one (length bs) (Z.of_nat t) l = Ok tt (l <| bc := s' |>)
    /\ crep s' (cputs c (installs (start l) cur bs (Z.of_nat t))).
Proof.
  induction bs as [|b bs IH]; intros l c t cur R Hdev Hi Hbs Hst Hhome Hroom Hcur; cbn [length tail_loop installs].
  - exists (bc l). split; [destruct l; reflexivity | exact R].
  - cbn [length] in *. set (a := start l + Z.of_nat t + 1).
    destruct (Hhome b) as [Rb Hnb]; [set_solver|]. destruct (Hcur a) as [Eb Hcl]; [unfold a; lia|].
    destruct (install_one_Ok l c t a b) as (s1 & E1 & R1); try assumption; try reflexivity.
    + rewrite <-(Nat.add_0_r t). apply Hbs. reflexivity.
    + unfold a. lia.
    + unfold a. lia.
    + apply Hroom. set_solver.
    + erewrite bind_step by exact E1. rewrite Eb in R1.
      destruct (IH (l <| bc := s1 |>) (cput c b (cur a)) (S t) cur) as (s2 & E2 & R2).
      * exact R1.
      * exact Hdev.
      * exact Hi.
      * intros i x Hx. replace (S t + i)%nat with (t + S i)%nat by lia. apply (Hbs (S i)). exact Hx.
      * change (start (l <| bc := s1 |>)) with (start l). lia.
      * change (start (l <| bc := s1 |>)) with (start l). intros x Hx. destruct (Hhome x); [set_solver|]. split; [assumption | lia].
      * apply roomy_cput. intros x y Hy. apply Hroom. set_solver.
      * change (start (l <| bc := s1 |>)) with (start l). intros x Hx. destruct (Hcur x) as [Ex Hclx]; [lia|].
        assert (x <> b) by lia.
        change (bupd (ccur c) b (cur a) x = cur x /\ (x ∈ cpin c ∖ {[b]} \/
          bupd (ccur c) b (cur a) x = bupd (cdisk c) b (cur a) x)).
        rewrite !bupd_ne by assumption. split; [exact Ex|]. destruct Hclx; [left; set_solver | right; assumption].
      * exists s2. rewrite Nat2Z.inj_succ, <-Z.add_1_r in E2. split; [rewrite E2; destruct l; reflexivity|].
        rewrite Nat2Z.inj_succ, <-Z.add_1_r in R2. exact R2.
Qed.

(** *** The header block *)

Definition header (d : blk) (n : Z) (bs : list Z) : blk := put_blocks (put32 d 0 n) 4 bs.
Definition head_n (d : blk) : Z := i32 (get32 d 0).
Definition head_block (d : blk) (i : Z) : Z := i32 (get32 d (4 + 4 * i)).

Lemma length_put_blocks bs : forall d off, length (put_blocks d off bs) = length d.
Proof. induction bs as [|b bs IH]; intros d off; [reflexivity|]. cbn. rewrite IH. apply length_put32. Qed.

Lemma length_header d n bs : length (header d n bs) = length d.
Proof. unfold header. rewrite length_put_blocks. apply length_put32. Qed.

Lemma put_blocks_below bs : forall d off off', 0 <= off' -> off' + 4 <= off ->
  get32 (put_blocks d off bs) off' = get32 d off'.
Proof.
  induction bs as [|b bs IH]; intros d off off' H1 H2; [reflexivity|]. cbn.
  rewrite IH by lia. apply get32_put32_ne; lia.
Qed.

Lemma put_blocks_get bs : forall d off i b, 0 <= off ->
  off + 4 * Z.of_nat (length bs) <= Z.of_nat (length d) -> bs !! i = Some b ->
  get32 (put_blocks d off bs) (off + 4 * Z.of_nat i) = u32 b.
Proof.
  induction bs as [|x bs IH]; intros d off i b Ho Hl Hi; [discriminate|]. cbn [length] in Hl. cbn [put_blocks].
  destruct i as [|i].
  - injection Hi as ->. rewrite Z.add_0_r. rewrite put_blocks_below by lia. apply get32_put32; lia.
  - replace (off + 4 * Z.of_nat (S i)) with ((off + 4) + 4 * Z.of_nat i) by lia.
    apply IH; [lia | rewrite length_put32; lia | exact Hi].
Qed.

Lemma i32_u32 z : in_s 32 z -> i32 (u32 z) = z.
Proof. intros Hz. rewrite swrap_uwrap. apply (swrap_id 32 eq_refl), Hz. Qed.

Lemma header_n d n bs : Z.of_nat (length d) = BSIZE -> 0 <= n <= LOGSIZE -> head_n (header d n bs) = n.
Proof.
  intros Hd Hn. unfold head_n, header. rewrite put_blocks_below by lia.
  unfold LOGSIZE, MAXOPBLOCKS, BSIZE in *. rewrite get32_put32 by lia. apply i32_u32. unfold in_s. lia.
Qed.

Lemma header_block d n bs i b :
  Z.of_nat (length d) = BSIZE -> Z.of_nat (length bs) <= LOGSIZE -> bs !! i = Some b -> 0 <= b < 50000 ->
  head_block (header d n bs) (Z.of_nat i) = b.
Proof.
  intros Hd Hl Hb Hr. unfold head_block, header. unfold LOGSIZE, MAXOPBLOCKS, BSIZE in *.
  rewrite (put_blocks_get bs _ 4 i b) by (rewrite ?length_put32; lia || assumption).
  apply i32_u32. unfold in_s. lia.
Qed.

(** Read, modify, write and release of one block. *)
Lemma rmw_Ok s c b d :
  crep s c -> idle c -> 0 <= b < 50000 -> room c b -> Z.of_nat (length d) = BSIZE ->
  exists h s1 s2 s3 s4, bread ROOTDEV b s = Ok h s1 /\ bdata h s1 = Ok (ccur c b) s1 /\ bstore h d s1 = Ok tt s2
    /\ bwrite h s2 = Ok tt s3 /\ brelse h s3 = Ok tt s4 /\ crep s4 (cput c b d).
Proof.
  intros R Hi Hb Hr Hd. destruct (bread_ok s c b R (idle_held c b Hi) Hr Hb) as (h & s1 & E1 & _ & R1).
  rewrite Hi in R1. assert ((<[h := b]> (∅ : gmap nat Z)) !! h = Some b) as Hh by apply lookup_insert_eq.
  destruct (bstore_ok s1 _ h b d R1 Hh Hd) as (s2 & E2 & R2).
  destruct (bwrite_ok s2 _ h b R2 Hh) as (s3 & E3 & R3).
  destruct (brelse_ok s3 _ h b R3 Hh) as (s4 & E4 & R4).
  { right. change (bupd (ccur c) b d b = bupd (cdisk c) b (bupd (ccur c) b d b) b). rewrite !bupd_eq. reflexivity. }
  exists h, s1, s2, s3, s4. split_and!; [exact E1 | exact (bdata_ok s1 _ h b R1 Hh) | exact E2 | exact E3 | exact E4|].
  revert R4. unfold cput. destruct c as [dk cu he pi wr]. unfold idle in Hi. cbn [cheld] in Hi. subst he.
  cbn [assign cdisk ccur cheld cpin cwrites]. rewrite bupd_eq, delete_insert_id by apply lookup_empty. auto.
Qed.

Lemma write_head_Ok l c :
  crep (bc l) c -> ldev l = ROOTDEV -> idle c -> 0 <= start l < 50000 -> room c (start l) ->
  0 <= lh_n l <= Z.of_nat (length (lh_block l)) ->
  exists s', write_head l = Ok tt (l <| bc := s' |>)
    /\ crep s' (cput c (start l) (header (ccur c (start l)) (lh_n l) (take (Z.to_nat (lh_n l)) (lh_block l)))).
Proof.
  intros R Hdev Hi Hst Hr Hn. set (d := header (ccur c (start l)) (lh_n l) (take (Z.to_nat (lh_n l)) (lh_block l))).
  destruct (rmw_Ok (bc l) c (start l) d R Hi Hst Hr) as (h & s1 & s2 & s3 & s4 & E1 & E2 & E3 & E4 & E5 & R5).
  { unfold d. rewrite length_header. exact (crep_size _ _ _ R). }
  exists s4. split; [|exact R5]. unfold write_head. erewrite bind_step by reflexivity. rewrite Hdev.
  erewrite onbc_Ok by exact E1. erewrite onbc_Ok by exact E2. cbv zeta.
  rewrite (proj2 (Z.ltb_ge _ _)) by lia. fold d. unfold header in d. fold d.
  erewrite onbc_Ok by exact E3. erewrite onbc_Ok by exact E4. unfold onbc. cbn [bc assign]. rewrite E5.
  destruct l; reflexivity.
Qed.

Lemma set_blocks_Ok (f : Z -> Z) k : forall l t,
  (t + k <= length (lh_block l))%nat ->
  exists bs, tail_loop (fun i => set_block i (f i)) k (Z.of_nat t) l = Ok tt (l <| lh_block := bs |>)
    /\ length bs = length (lh_block l) /\ (forall i, (i < t)%nat -> bs !! i = lh_block l !! i)
    /\ (forall i, (t <= i < t + k)%nat -> bs !! i = Some (f (Z.of_nat i))).
Proof.
  induction k as [|k IH]; intros l t Ht; cbn [tail_loop].
  - exists (lh_block l). split_and!; auto; [destruct l; reflexivity | intros; lia].
  - set (l1 := l <| lh_block := <[t := f (Z.of_nat t)]> (lh_block l) |>).
    assert (set_block (Z.of_nat t) (f (Z.of_nat t)) l = Ok tt l1) as E.
    { unfold set_block. mstep. rewrite aset_Ok by lia. rewrite Nat2Z.id. reflexivity. }
    erewrite bind_step by exact E. replace (Z.of_nat t + 1) with (Z.of_nat (S t)) by lia.
    assert (length (lh_block l1) = length (lh_block l)) as Hl1 by apply length_insert.
    destruct (IH l1 (S t)) as (bs & E2 & H1 & H2 & H3); [lia|].
    exists bs. split_and!.
    + rewrite E2. unfold l1. destruct l; reflexivity.
    + lia.
    + intros i Hi. rewrite H2 by lia. apply list_lookup_insert_ne. lia.
    + intros i Hi. destruct (decide (i = t)) as [-> | ]; [|apply H3; lia].
      rewrite H2 by lia. apply list_lookup_insert_eq. lia.
Qed.

Lemma read_head_Ok l c :
  crep (bc l) c -> ldev l = ROOTDEV -> idle c -> 0 <= start l < 50000 -> room c (start l) ->
  (start l ∈ cpin c \/ ccur c (start l) = cdisk c (start l)) ->
  Z.of_nat (length (lh_block l)) = LOGSIZE -> 0 <= head_n (ccur c (start l)) <= LOGSIZE ->
  exists s' bs, read_head l = Ok tt (l <| bc := s' |> <| lh_n := head_n (ccur c (start l)) |> <| lh_block := bs |>)
    /\ crep s' c /\ length bs = length (lh_block l)
    /\ (forall i, (i < Z.to_nat (head_n (ccur c (start l))))%nat ->
          bs !! i = Some (head_block (ccur c (start l)) (Z.of_nat i))).
Proof.
  intros R Hdev Hi Hst Hr Hcl Hlen Hn. set (d := ccur c (start l)) in *.
  destruct (bread_ok (bc l) c (start l) R (idle_held c _ Hi) Hr Hst) as (h & s1 & E1 & _ & R1).
  rewrite Hi in R1. assert ((<[h := start l]> (∅ : gmap nat Z)) !! h = Some (start l)) as Hh by apply lookup_insert_eq.
  pose proof (bdata_ok s1 _ h _ R1 Hh) as E2. change (bdata h s1 = Ok d s1) in E2.
  destruct (brelse_ok s1 _ h _ R1 Hh Hcl) as (s2 & E3 & R2).
  destruct (set_blocks_Ok (head_block d) (Z.to_nat (head_n d)) (l <| bc := s1 |> <| lh_n := head_n d |>) 0)
    as (bs & E4 & H1 & _ & H2).
  { change (lh_block (l <| bc := s1 |> <| lh_n := head_n d |>)) with (lh_block l). lia. }
  exists s2, bs. split_and!; [|..| intros i Hi'; apply H2; lia].
  - unfold read_head. erewrite bind_step by reflexivity. rewrite Hdev. erewrite onbc_Ok by exact E1.
    erewrite onbc_Ok by exact E2. cbv zeta. erewrite bind_step by reflexivity.
    erewrite bind_step; [|etransitivity; [|exact E4]; destruct l; reflexivity].
    unfold onbc. cbn [bc assign]. rewrite E3. destruct l; reflexivity.
  - revert R2. destruct c as [dk cu he pi wr]. unfold idle in Hi. cbn [cheld] in Hi. subst he.
    cbn [assign cdisk ccur cheld cpin cwrites]. rewrite delete_insert_id by apply lookup_empty. auto.
  - exact H1.
Qed.

(** ** Commit *)

(** A transaction ready to commit: its blocks [bs] are the pinned ones, the
    log on disk is empty. *)
Record ready (l : log C) (c : cache) (bs : list Z) : Prop := Ready {
  rd_rep : crep (bc l) c;
  rd_idle : idle c;
  rd_n : lh_n l = Z.of_nat (length bs);
  rd_blocks : take (length bs) (lh_block l) = bs;
  rd_cap : Z.of_nat (length (lh_block l)) = LOGSIZE;
  rd_placed : placed (start l) bs;
  rd_fit : (length bs < NBUF)%nat;
  rd_pin : forall b, b ∈ cpin c <-> b ∈ bs;
  rd_clean : head_n (cdisk c (start l)) = 0;
  rd_lsize : lsize l <= LOGSIZE;
  rd_dev : ldev l = ROOTDEV
}.

(** The disk writes of [commit], in order. *)
Definition committed_header (c : cache) (st : Z) (bs : list Z) : blk :=
  header (ccur c st) (Z.of_nat (length bs)) bs.
Definition cleared_header (c : cache) (st : Z) (bs : list Z) : blk :=
  header (committed_header c st bs) 0 [].
Definition home_writes (c : cache) (bs : list Z) : list (Z * blk) := map (fun b => (b, ccur c b)) bs.
Definition commit_writes (c : cache) (st : Z) (bs : list Z) : list (Z * blk) :=
  (log_writes st (ccur c) bs 0 ++ [(st, committed_header c st bs)])
  ++ (home_writes c bs ++ [(st, cleared_header c st bs)]).

Lemma log_writes_keys st cur bs t b :
  b ∈ (log_writes st cur bs t).*1 -> st + t < b <= st + t + Z.of_nat (length bs).
Proof.
  revert t. induction bs as [|x bs IH]; intros t; cbn [log_writes]; [set_solver|].
  intros Hb. apply elem_of_cons in Hb as [-> | Hb]; [cbn; lia|]. apply IH in Hb. cbn [length]. lia.
Qed.

Lemma log_writes_nodup st cur bs t : NoDup (log_writes st cur bs t).*1.
Proof.
  revert t. induction bs as [|x bs IH]; intros t; cbn [log_writes]; [constructor|].
  apply NoDup_cons. split; [|apply IH]. intros Hb. apply log_writes_keys in Hb. cbn in Hb. lia.
Qed.

Lemma log_writes_lookup st cur bs t i b :
  bs !! i = Some b -> (st + t + Z.of_nat i + 1, cur b) ∈ log_writes st cur bs t.
Proof.
  revert t i. induction bs as [|x bs IH]; intros t i Hb; [discriminate|]. cbn [log_writes]. destruct i as [|i].
  - injection Hb as ->. rewrite Z.add_0_r. set_solver.
  - apply list_elem_of_further. replace (st + t + Z.of_nat (S i) + 1) with (st + (t + 1) + Z.of_nat i + 1) by lia.
    apply IH. exact Hb.
Qed.

Lemma length_log_writes st cur bs t : length (log_writes st cur bs t) = length bs.
Proof. revert t. induction bs as [|x bs IH]; intros t; [reflexivity|]. cbn. f_equal. apply IH. Qed.

Lemma installs_home st cur cur' bs t :
  (forall i b, bs !! i = Some b -> cur' (st + t + Z.of_nat i + 1) = cur b) ->
  installs st cur' bs t = map (fun b => (b, cur b)) bs.
Proof.
  revert t. induction bs as [|x bs IH]; intros t Hc; [reflexivity|]. cbn. f_equal.
  - f_equal. replace (st + t + 1) with (st + t + Z.of_nat 0 + 1) by lia. apply Hc. reflexivity.
  - apply IH. intros i b Hb. replace (st + (t + 1) + Z.of_nat i + 1) with (st + t + Z.of_nat (S i) + 1) by lia.
    apply Hc. exact Hb.
Qed.

Lemma home_writes_keys c bs : (home_writes c bs).*1 = bs.
Proof. unfold home_writes. induction bs as [|b bs IH]; [reflexivity|]. cbn. f_equal. exact IH. Qed.

Lemma pin_size c bs X :
  (forall b, b ∈ cpin c -> b ∈ bs) -> (size (X ∪ cpin c) <= size X + length bs)%nat.
Proof.
  intros H. etransitivity; [apply (subseteq_size _ (X ∪ list_to_set bs)); set_solver|].
  rewrite size_union_alt.
  pose proof (subseteq_size (list_to_set bs ∖ X) (list_to_set bs : gset Z) ltac:(set_solver)).
  assert (size (list_to_set bs : gset Z) <= length bs)%nat; [|lia].
  clear. induction bs as [|b bs IH]; [rewrite list_to_set_nil, size_empty; reflexivity|]. cbn [list_to_set length].
  rewrite size_union_alt, size_singleton.
  pose proof (subseteq_size (list_to_set bs ∖ {[b]}) (list_to_set bs : gset Z) ltac:(set_solver)). lia.
Qed.

Lemma ready_roomy c bs :
  (length bs < NBUF)%nat -> (forall b, b ∈ cpin c -> b ∈ bs) -> (forall b, b ∈ bs -> b ∈ cpin c) \/ bs = [] -> roomy c bs.
Proof.
  intros Hl Hp Hq a b Hb. unfold room2. destruct Hq as [Hq | ->]; [|set_solver].
  etransitivity; [apply (subseteq_size _ ({[a]} ∪ cpin c)); set_solver|].
  pose proof (pin_size c bs {[a]} Hp). rewrite size_singleton in *. lia.
Qed.

Lemma room_pins c bs b : idle c -> (length bs < NBUF)%nat -> (forall x, x ∈ cpin c -> x ∈ bs) -> room c b.
Proof.
  intros Hi Hl Hp. unfold room. pose proof (pin_size c bs {[b]} Hp) as H0. rewrite size_singleton in H0.
  replace (held_blocks c) with (∅ : gset Z); [rewrite union_empty_r_L; lia|].
  apply set_eq. intros x. split; [set_solver|]. intros Hx. exfalso. exact (idle_held c x Hi Hx).
Qed.

Lemma commit_Ok l c bs :
  ready l c bs -> bs <> [] ->
  exists s', commit l = Ok tt (l <| bc := s' |> <| lh_n := 0 |>)
    /\ crep s' (cputs c (commit_writes c (start l) bs)).
Proof.
  intros [R Hi Hn Hbl Hcap Hpl Hfit Hpin Hclean Hlsz Hdev] Hne. set (st := start l) in *.
  destruct Hpl as [Hst Hlen Hhome Hnd].
  assert (0 < lh_n l) as Hpos by (rewrite Hn; destruct bs; [congruence | cbn; lia]).
  assert (Z.to_nat (lh_n l) = length bs) as Hnn by lia.
  assert (forall i b, bs !! i = Some b -> lh_block l !! i = Some b) as Hlk.
  { intros i b Hb. rewrite <-Hbl in Hb. rewrite lookup_take_Some in Hb. apply Hb. }
  assert (forall b, b ∈ bs -> 0 <= b < 50000 /\ ~ (st <= b <= st + Z.of_nat (0 + length bs))) as Hhome'.
  { intros b Hb. destruct (Hhome b Hb). split; lia. }
  (* copy to the log *)
  destruct (write_log_loop bs l c 0 (ccur c)) as (s1 & E1 & R1);
    [exact R | exact Hdev | exact Hi | exact Hlk | cbn; fold st; lia | exact Hhome' | | |].
  { apply ready_roomy; [exact Hfit | intros b; apply Hpin | left; intros b; apply Hpin]. }
  { intros b Hb. split; [reflexivity | left; apply Hpin, Hb]. }
  set (W1 := log_writes st (ccur c) bs 0) in *. set (c1 := cputs c W1) in *.
  destruct (cputs_fields W1 c) as (D1 & C1 & _ & H1 & P1). fold c1 in D1, C1, H1, P1.
  assert (forall b, b ∉ W1.*1 -> ccur c1 b = ccur c b) as Hc1 by (intros b Hb; rewrite C1; apply apply_writes_other, Hb).
  assert (idle c1) as Hi1 by (apply cputs_idle, Hi).
  assert (forall b, b ∈ W1.*1 -> st < b <= st + Z.of_nat (length bs)) as Hk1.
  { intros b Hb. apply log_writes_keys in Hb. lia. }
  assert (forall b, b ∈ cpin c1 <-> b ∈ bs) as Hpin1.
  { intros b. rewrite P1, Hpin. split; [tauto|]. intros Hb. split; [exact Hb|]. intros Hw. apply Hk1 in Hw.
    destruct (Hhome b Hb). lia. }
  (* write the header *)
  set (l1 := l <| bc := s1 |>).
  destruct (write_head_Ok l1 c1) as (s2 & E2 & R2);
    [exact R1 | exact Hdev | exact Hi1 | change (start l1) with st; lia | | change (0 <= lh_n l <= Z.of_nat (length (lh_block l))); lia |].
  { apply (room_pins c1 bs); [exact Hi1 | exact Hfit | intros x; apply Hpin1]. }
  change (start l1) with st in R2. change (lh_n l1) with (lh_n l) in R2. change (lh_block l1) with (lh_block l) in R2.
  rewrite Hnn, Hbl, Hn, (Hc1 st) in R2 by (intros Hw; apply Hk1 in Hw; lia).
  fold (committed_header c st bs) in R2. set (c2 := cput c1 st (committed_header c st bs)) in *.
  (* install *)
  set (l2 := l1 <| bc := s2 |>).
  assert (forall b, b <> st -> ccur c2 b = ccur c1 b /\ cdisk c2 b = cdisk c1 b) as Hc2.
  { intros b Hb. split; apply bupd_ne, Hb. }
  destruct (install_loop bs l2 c2 0 (ccur c2)) as (s3 & E3 & R3);
    [exact R2 | exact Hdev | exact Hi1 | exact Hlk | cbn; change (start l2) with st; lia | exact Hhome' | | |].
  { apply roomy_cput. apply ready_roomy; [exact Hfit | intros b; apply Hpin1 | left; intros b; apply Hpin1]. }
  { intros a Ha. change (start l2) with st in Ha. split; [reflexivity | right]. destruct (Hc2 a) as [-> ->]; [lia|].
    apply (crep_clean s1); [exact R1 | apply idle_held, Hi1|]. rewrite Hpin1. intros Hb. destruct (Hhome a Hb). cbn in Ha. lia. }
  change (start l2) with st in R3. change (Z.of_nat 0) with 0 in R3.
  rewrite (installs_home _ (ccur c)) in R3.
  2:{ intros i b Hb. destruct (Hc2 (st + 0 + Z.of_nat i + 1)) as [-> _]; [lia|]. rewrite C1.
      apply apply_writes_in; [apply log_writes_nodup|]. apply log_writes_lookup, Hb. }
  fold (home_writes c bs) in R3. set (c3 := cputs c2 (home_writes c bs)) in *.
  (* clear the header *)
  destruct (cputs_fields (home_writes c bs) c2) as (_ & C3 & _ & _ & P3). fold c3 in C3, P3.
  set (l3 := l2 <| bc := s3 |> <| lh_n := 0 |>).
  destruct (write_head_Ok l3 c3) as (s4 & E4 & R4);
    [exact R3 | exact Hdev | apply cputs_idle, Hi1 | change (start l3) with st; lia | | cbn; lia |].
  { apply (room_pins c3 []); [apply cputs_idle, Hi1 | cbn; lia|]. intros x Hx. exfalso. apply P3 in Hx as [Hx Hn3].
    rewrite home_writes_keys in Hn3. apply Hn3, Hpin1. change (x ∈ cpin c1 ∖ {[st]}) in Hx. set_solver. }
  change (start l3) with st in R4. change (lh_n l3) with 0 in R4. rewrite take_0 in R4.
  assert (ccur c3 st = committed_header c st bs) as E5.
  { rewrite C3, apply_writes_other; [apply bupd_eq|]. rewrite home_writes_keys. intros Hb. destruct (Hhome st Hb). lia. }
  rewrite E5 in R4. fold (cleared_header c st bs) in R4.
  exists s4. split.
  - unfold commit. erewrite bind_step by reflexivity. rewrite (proj2 (Z.ltb_lt _ _)) by lia.
    unfold write_log. erewrite bind_step; [|mstep; rewrite Hnn; exact E1]. fold l1.
    erewrite bind_step by exact E2. fold l2. unfold install_trans.
    erewrite bind_step; [|mstep; change (lh_n l2) with (lh_n l); rewrite Hnn; exact E3].
    erewrite bind_step by reflexivity. fold l3. rewrite E4. unfold l3, l2, l1. destruct l; reflexivity.
  - unfold commit_writes. fold W1. rewrite !cputs_app. exact R4.
Qed.

(** ** Recovery *)

(** Home blocks: those outside the log. *)
Definition home (st b : Z) : Prop := ~ (st <= b < st + LOGSIZE).

(** The disk [d] holds, in its log and its home blocks together, the contents
    [tgt]: the header lists [bs], whose contents are in the log. *)
Record recoverable (st : Z) (d tgt : Z -> blk) (bs : list Z) : Prop := Recoverable {
  rc_size : forall b, Z.of_nat (length (d b)) = BSIZE;
  rc_n : head_n (d st) = Z.of_nat (length bs);
  rc_blocks : forall i b, bs !! i = Some b -> head_block (d st) (Z.of_nat i) = b;
  rc_placed : placed st bs;
  rc_log : forall i b, bs !! i = Some b -> d (st + Z.of_nat i + 1) = tgt b;
  rc_home : forall b, home st b -> b ∉ bs -> d b = tgt b
}.

(** The disk writes of the recovery from [d]. *)
Definition recovery_writes (st : Z) (d : Z -> blk) (bs : list Z) : list (Z * blk) :=
  installs st d bs 0 ++ [(st, header (d st) 0 [])].

Lemma installs_keys st cur bs t : (installs st cur bs t).*1 = bs.
Proof. revert t. induction bs as [|b bs IH]; intros t; [reflexivity|]. cbn. f_equal. apply IH. Qed.

Lemma installs_lookup st cur bs t i b :
  bs !! i = Some b -> (b, cur (st + t + Z.of_nat i + 1)) ∈ installs st cur bs t.
Proof.
  revert t i. induction bs as [|x bs IH]; intros t i Hb; [discriminate|]. cbn [installs]. destruct i as [|i].
  - injection Hb as ->. rewrite Z.add_0_r. set_solver.
  - apply list_elem_of_further. replace (st + t + Z.of_nat (S i) + 1) with (st + (t + 1) + Z.of_nat i + 1) by lia.
    apply IH. exact Hb.
Qed.

(** The kernel's [struct log] at boot. *)
Definition boot_log (d : Z -> blk) : log C :=
  Log (bfresh d) false 0 0 0 false 0 0 (replicate (Z.to_nat LOGSIZE) 0).

(** The superblock [d1] puts the log at [st]. *)
Definition says (d1 : blk) (st nlog : Z) : Prop :=
  i32 (sb_logstart (decode_sb d1)) = st /\ i32 (sb_nlog (decode_sb d1)) = nlog.

Lemma readsb_Ok s c :
  crep s c -> idle c -> room c 1 -> 1 ∈ cpin c \/ ccur c 1 = cdisk c 1 ->
  exists s', readsb ROOTDEV s = Ok (decode_sb (ccur c 1)) s' /\ crep s' c.
Proof.
  intros R Hi Hr Hcl. destruct (bread_ok s c 1 R (idle_held c 1 Hi) Hr) as (h & s1 & E1 & _ & R1); [lia|].
  rewrite Hi in R1. assert ((<[h := 1]> (∅ : gmap nat Z)) !! h = Some 1) as Hh by apply lookup_insert_eq.
  destruct (brelse_ok s1 _ h 1 R1 Hh Hcl) as (s2 & E2 & R2). exists s2. split.
  - unfold readsb. erewrite bind_step by exact E1. erewrite bind_step by exact (bdata_ok s1 _ h 1 R1 Hh).
    erewrite bind_step by exact E2. reflexivity.
  - revert R2. destruct c as [dk cu he pi wr]. unfold idle in Hi. cbn [cheld] in Hi. subst he.
    cbn [assign cdisk ccur cheld cpin cwrites]. rewrite delete_insert_id by apply lookup_empty. auto.
Qed.

Lemma recover_Ok st nlog d tgt bs :
  recoverable st d tgt bs -> says (tgt 1) st nlog ->
  exists s' blks, init_log ROOTDEV (boot_log d) = Ok tt (Log s' false st nlog 0 false ROOTDEV 0 blks)
    /\ crep s' (cputs (Cache d d ∅ ∅ []) (recovery_writes st d bs)) /\ Z.of_nat (length blks) = LOGSIZE.
Proof.
  intros [Hsz Hn Hbk [Hst Hlen Hhome Hnd] Hlog Hh] Hsb. set (c := Cache d d ∅ ∅ []).
  pose proof (bfresh_ok d Hsz : crep (bfresh d) c) as R0.
  assert (idle c) as Hi by reflexivity.
  destruct (readsb_Ok (bfresh d) c R0 Hi) as (s0 & E0 & R); [|right; reflexivity|].
  { apply (room_pins c []); [exact Hi | unfold NBUF; cbn; lia | change (cpin c) with (∅ : gset Z); set_solver]. }
  rewrite <-(Hh 1) in Hsb; [|unfold home; lia | intros Hb; destruct (Hhome 1 Hb); lia].
  change (ccur c 1) with (d 1) in E0.
  set (l0 := Log s0 false st nlog 0 false ROOTDEV 0 (replicate (Z.to_nat LOGSIZE) 0)).
  destruct (read_head_Ok l0 c) as (s1 & blks & E1 & R1 & L1 & B1);
    [exact R | reflexivity | exact Hi | change (start l0) with st; lia | | right; reflexivity | reflexivity | | ].
  { apply (room_pins c []); [exact Hi | unfold NBUF; cbn; lia | change (cpin c) with (∅ : gset Z); set_solver]. }
  { change (0 <= head_n (d st) <= LOGSIZE). lia. }
  change (head_n (ccur c (start l0))) with (head_n (d st)) in *.
  change (ccur c (start l0)) with (d st) in B1.
  set (l1 := l0 <| bc := s1 |> <| lh_n := head_n (d st) |> <| lh_block := blks |>) in *.
  destruct (install_loop bs l1 c 0 d) as (s2 & E2 & R2).
  - exact R1.
  - reflexivity.
  - exact Hi.
  - intros i b Hb. change (blks !! i = Some b). rewrite (B1 i), (Hbk i b Hb); [reflexivity|].
    apply lookup_lt_Some in Hb. lia.
  - change (start l1) with st. cbn. lia.
  - change (start l1) with st. intros b Hb. destruct (Hhome b Hb). split; [lia | cbn; lia].
  - intros a b _. unfold room2. change (cpin c) with (∅ : gset Z). rewrite union_empty_r_L.
    rewrite size_union_alt, size_singleton.
    pose proof (subseteq_size ({[b]} ∖ {[a]}) ({[b]} : gset Z) ltac:(set_solver)). rewrite size_singleton in *.
    unfold NBUF. lia.
  - intros a _. split; [reflexivity | right; reflexivity].
  - change (start l1) with st in *. change (Z.of_nat 0) with 0 in *.
    set (c2 := cputs c (installs st d bs 0)) in *.
    destruct (cputs_fields (installs st d bs 0) c) as (_ & C2 & _ & _ & P2). fold c2 in C2, P2.
    set (l2 := l1 <| bc := s2 |> <| lh_n := 0 |>).
    destruct (write_head_Ok l2 c2) as (s3 & E3 & R3);
      [exact R2 | reflexivity | apply cputs_idle, Hi | change (start l2) with st; lia | | cbn; lia |].
    { apply (room_pins c2 []); [apply cputs_idle, Hi | unfold NBUF; cbn; lia|]. intros x Hx. apply P2 in Hx. exfalso.
      destruct Hx as [Hx _]. revert Hx. change (cpin c) with (∅ : gset Z). set_solver. }
    change (start l2) with st in R3. change (lh_n l2) with 0 in R3. rewrite take_0 in R3.
    assert (ccur c2 st = d st) as E5.
    { rewrite C2. apply (apply_writes_other _ d). rewrite installs_keys. intros Hb. destruct (Hhome st Hb). lia. }
    rewrite E5 in R3. exists s3, blks. split_and!.
    + unfold init_log. change (BSIZE <=? 4 + 4 * LOGSIZE) with false. cbv iota.
      erewrite bind_step by reflexivity. erewrite onbc_Ok by exact E0. cbv zeta.
      erewrite bind_step by reflexivity. unfold recover_from_log. destruct Hsb as [-> ->].
      match goal with |- mbind _ _ ?x = _ => change x with l0 end.
      erewrite bind_step by exact E1. fold l1. unfold install_trans.
      erewrite bind_step; [|mstep; change (lh_n l1) with (head_n (d st)); rewrite Hn, Nat2Z.id; exact E2].
      erewrite bind_step by reflexivity. exact E3.
    + unfold recovery_writes. rewrite cputs_app. exact R3.
    + change (Z.of_nat (length blks) = LOGSIZE). rewrite L1. reflexivity.
Qed.

(** *** Crashes during recovery *)

Lemma apply_writes_size (ws : list (Z * blk)) : forall d,
  (forall b, Z.of_nat (length (d b)) = BSIZE) -> (forall w, w ∈ ws -> Z.of_nat (length w.2) = BSIZE) ->
  forall b, Z.of_nat (length (apply_writes d ws b)) = BSIZE.
Proof.
  induction ws as [|[b' x] ws IH]; intros d Hd Hl b; [apply Hd|].
  change (Z.of_nat (length (apply_writes (bupd d b' x) ws b)) = BSIZE). apply IH; [|intros w Hw; apply Hl; set_solver].
  intros b0. unfold bupd. destruct (b0 =? b'); [|apply Hd]. apply (Hl (b', x)). set_solver.
Qed.

Lemma elem_take {A} (l : list A) k x : x ∈ take k l -> x ∈ l.
Proof. intros H. rewrite <-(take_drop k l). set_solver. Qed.

Lemma fst_take {A B} (l : list (A * B)) k x : x ∈ (take k l).*1 -> x ∈ l.*1.
Proof. rewrite !list_elem_of_fmap. intros (y & -> & Hy). exists y. split; [reflexivity | eapply elem_take, Hy]. Qed.

Lemma nodup_fst_take {A B} (l : list (A * B)) k : NoDup l.*1 -> NoDup (take k l).*1.
Proof. rewrite fmap_take. intros H. rewrite <-(take_drop k l.*1) in H. apply NoDup_app in H. apply H. Qed.

Section recovery.
Context (st : Z) (d tgt : Z -> blk) (bs : list Z) (HR : recoverable st d tgt bs).

Lemma installs_value i b : bs !! i = Some b -> (b, tgt b) ∈ installs st d bs 0.
Proof.
  intros Hb. rewrite <-(rc_log _ _ _ _ HR i b Hb).
  replace (st + Z.of_nat i + 1) with (st + 0 + Z.of_nat i + 1) by lia. apply installs_lookup, Hb.
Qed.

Lemma installs_sizes w : w ∈ installs st d bs 0 -> Z.of_nat (length w.2) = BSIZE.
Proof.
  pose proof (rc_size _ _ _ _ HR) as Hsz. clear HR. generalize 0.
  induction bs as [|x bs' IH]; intros t Hw; cbn [installs] in Hw; [set_solver|].
  apply elem_of_cons in Hw as [-> | Hw]; [apply Hsz | exact (IH _ Hw)].
Qed.

Lemma key_home b : b ∈ bs -> home st b.
Proof. intros Hb. apply (pl_home _ _ (rc_placed _ _ _ _ HR) b Hb). Qed.

(** A crash while blocks are being installed loses nothing. *)
Lemma partial_install j : recoverable st (apply_writes d (take j (installs st d bs 0))) tgt bs.
Proof.
  pose proof (rc_placed _ _ _ _ HR) as Hpl.
  assert (forall b, ~ home st b -> apply_writes d (take j (installs st d bs 0)) b = d b) as Hlogs.
  { intros b Hb. apply apply_writes_other. intros Hk. apply fst_take in Hk. rewrite installs_keys in Hk.
    exact (Hb (key_home b Hk)). }
  assert (Hst : ~ home st st) by (unfold home, LOGSIZE, MAXOPBLOCKS; lia).
  split.
  - apply apply_writes_size; [apply (rc_size _ _ _ _ HR)|]. intros w Hw. apply installs_sizes. eapply elem_take, Hw.
  - rewrite Hlogs by exact Hst. apply (rc_n _ _ _ _ HR).
  - intros i b Hb. rewrite Hlogs by exact Hst. apply (rc_blocks _ _ _ _ HR i b Hb).
  - exact Hpl.
  - intros i b Hb. rewrite Hlogs; [apply (rc_log _ _ _ _ HR i b Hb)|].
    apply lookup_lt_Some in Hb. pose proof (pl_len _ _ Hpl). unfold home. lia.
  - intros b Hh Hb. rewrite apply_writes_other; [apply (rc_home _ _ _ _ HR b Hh Hb)|].
    intros Hk. apply fst_take in Hk. rewrite installs_keys in Hk. exact (Hb Hk).
Qed.

(** The complete recovery: the home blocks hold the target, the log is empty. *)
Lemma complete_recovery : recoverable st (apply_writes d (recovery_writes st d bs)) tgt [].
Proof.
  pose proof (rc_placed _ _ _ _ HR) as Hpl. unfold recovery_writes. rewrite apply_writes_app.
  pose proof (partial_install (length (installs st d bs 0))) as HP. rewrite take_ge in HP by lia.
  set (d1 := apply_writes d (installs st d bs 0)) in *.
  change (apply_writes d1 [(st, header (d st) 0 [])]) with (bupd d1 st (header (d st) 0 [])).
  assert (forall b, home st b -> b <> st) as Hst.
  { intros b Hb ->. apply Hb. unfold LOGSIZE, MAXOPBLOCKS. lia. }
  split.
  - intros b. unfold bupd. destruct (b =? st); [rewrite length_header; apply (rc_size _ _ _ _ HR) | apply (rc_size _ _ _ _ HP)].
  - rewrite bupd_eq, header_n; [reflexivity | apply (rc_size _ _ _ _ HR) | unfold LOGSIZE, MAXOPBLOCKS; lia].
  - intros i b Hb. discriminate.
  - destruct Hpl. split; try assumption; [cbn; unfold LOGSIZE, MAXOPBLOCKS; lia | set_solver | constructor].
  - intros i b Hb. discriminate.
  - intros b Hh _. rewrite bupd_ne by auto. destruct (decide (b ∈ bs)) as [Hb | Hb].
    + apply list_elem_of_lookup in Hb as [i Hi]. apply apply_writes_in.
      * rewrite installs_keys. apply (pl_nodup _ _ Hpl).
      * apply installs_value with i, Hi.
    + apply (rc_home _ _ _ _ HP b Hh Hb).
Qed.

Lemma recovery_prefix j : exists bs', recoverable st (apply_writes d (take j (recovery_writes st d bs))) tgt bs'.
Proof.
  unfold recovery_writes. destruct (decide (j <= length (installs st d bs 0)))%nat as [Hj | Hj].
  - rewrite take_app_le by exact Hj. exists bs. apply partial_install.
  - rewrite take_ge by (rewrite length_app; cbn; lia). exists []. apply complete_recovery.
Qed.
End recovery.

(** *** Crashes during commit *)

Section commit_crash.
Context (l : log C) (c : cache) (bs : list Z) (HR : ready l c bs).
Abbreviation st := (start l).

Let Hsz b : Z.of_nat (length (cdisk c b)) = BSIZE.
Proof. exact (crep_dsize _ _ _ (rd_rep _ _ _ HR)). Qed.
Let Csz b : Z.of_nat (length (ccur c b)) = BSIZE.
Proof. exact (crep_size _ _ _ (rd_rep _ _ _ HR)). Qed.

Lemma start_not_home : ~ home st st.
Proof. unfold home, LOGSIZE, MAXOPBLOCKS. lia. Qed.

Lemma log_writes_not_home b : b ∈ (log_writes st (ccur c) bs 0).*1 -> ~ home st b /\ b <> st.
Proof.
  intros Hb. apply log_writes_keys in Hb. pose proof (pl_len _ _ (rd_placed _ _ _ HR)). unfold home. lia.
Qed.

Lemma log_writes_sizes w : w ∈ log_writes st (ccur c) bs 0 -> Z.of_nat (length w.2) = BSIZE.
Proof.
  generalize 0. clear HR. revert w. induction bs as [|x bs' IH]; intros w t Hw; cbn [log_writes] in Hw; [set_solver|].
  apply elem_of_cons in Hw as [-> | Hw]; [apply Csz | exact (IH _ _ Hw)].
Qed.

(** Before the header is written the old contents survive. *)
Lemma before_header k :
  recoverable st (apply_writes (cdisk c) (take k (log_writes st (ccur c) bs 0))) (cdisk c) [].
Proof.
  destruct (rd_placed _ _ _ HR) as [P1 P2 P3 P4].
  assert (forall b, home st b \/ b = st -> apply_writes (cdisk c) (take k (log_writes st (ccur c) bs 0)) b = cdisk c b) as Hk.
  { intros b Hb. apply apply_writes_other. intros Hx. apply fst_take, log_writes_not_home in Hx. tauto. }
  split.
  - apply apply_writes_size; [apply Hsz|]. intros w Hw. apply log_writes_sizes. eapply elem_take, Hw.
  - rewrite Hk by auto. apply (rd_clean _ _ _ HR).
  - intros i b Hb. discriminate.
  - split; try assumption; [cbn; unfold LOGSIZE, MAXOPBLOCKS; lia | set_solver | constructor].
  - intros i b Hb. discriminate.
  - intros b Hb _. apply Hk. auto.
Qed.

(** Once it is written the new contents are recoverable. *)
Lemma at_header :
  recoverable st (apply_writes (cdisk c) (log_writes st (ccur c) bs 0 ++ [(st, committed_header c st bs)])) (ccur c) bs.
Proof.
  pose proof (rd_placed _ _ _ HR) as Hpl. destruct Hpl as [P1 P2 P3 P4]. rewrite apply_writes_app.
  set (d := apply_writes (cdisk c) (log_writes st (ccur c) bs 0)).
  change (apply_writes d [(st, committed_header c st bs)]) with (bupd d st (committed_header c st bs)).
  split.
  - intros b. unfold bupd. destruct (b =? st); [unfold committed_header; rewrite length_header; apply Csz|].
    apply apply_writes_size; [apply Hsz | apply log_writes_sizes].
  - rewrite bupd_eq. apply header_n; [apply Csz | lia].
  - intros i b Hb. rewrite bupd_eq. apply header_block; [apply Csz | lia | exact Hb |].
    destruct (P3 b); [apply list_elem_of_lookup; eauto | lia].
  - split; assumption.
  - intros i b Hb. pose proof (lookup_lt_Some _ _ _ Hb). rewrite bupd_ne by lia.
    apply apply_writes_in; [apply log_writes_nodup|].
    replace (st + Z.of_nat i + 1) with (st + 0 + Z.of_nat i + 1) by lia. apply log_writes_lookup, Hb.
  - intros b Hh Hb. rewrite bupd_ne by (intros ->; exact (start_not_home Hh)).
    unfold d. rewrite apply_writes_other by (intros Hx; apply log_writes_not_home in Hx; tauto).
    symmetry. apply (crep_clean (bc l)); [apply (rd_rep _ _ _ HR) | apply idle_held, (rd_idle _ _ _ HR) |].
    rewrite (rd_pin _ _ _ HR). exact Hb.
Qed.

(** The writes that follow the header are those of its recovery. *)
Lemma after_header :
  home_writes c bs ++ [(st, cleared_header c st bs)] =
  recovery_writes st (apply_writes (cdisk c) (log_writes st (ccur c) bs 0 ++ [(st, committed_header c st bs)])) bs.
Proof.
  unfold recovery_writes. rewrite apply_writes_app.
  set (d := apply_writes (cdisk c) (log_writes st (ccur c) bs 0)).
  change (apply_writes d [(st, committed_header c st bs)]) with (bupd d st (committed_header c st bs)).
  rewrite bupd_eq. f_equal. symmetry. apply installs_home. intros i b Hb. rewrite bupd_ne by lia.
  apply apply_writes_in; [apply log_writes_nodup | apply log_writes_lookup, Hb].
Qed.

Lemma commit_prefix k :
  exists bs', recoverable st (apply_writes (cdisk c) (take k (commit_writes c st bs)))
    (if (k <=? length bs)%nat then cdisk c else ccur c) bs'.
Proof.
  unfold commit_writes. pose proof (length_log_writes st (ccur c) bs 0) as Hl.
  destruct (Nat.leb_spec k (length bs)).
  - exists []. rewrite take_app_le by (rewrite length_app; cbn; lia). rewrite take_app_le by lia. apply before_header.
  - set (W1 := log_writes st (ccur c) bs 0 ++ [(st, committed_header c st bs)]).
    assert (length W1 = S (length bs)) as HW1 by (unfold W1; rewrite length_app; cbn; lia).
    rewrite take_app_ge by lia. rewrite apply_writes_app, HW1. rewrite after_header. fold W1.
    apply recovery_prefix. exact at_header.
Qed.
End commit_crash.

(** ** log_write *)

(** A transaction under way with the logged blocks [bs]. *)
Record txn (l : log C) (c : cache) (bs : list Z) : Prop := Txn {
  tx_rep : crep (bc l) c;
  tx_n : lh_n l = Z.of_nat (length bs);
  tx_blocks : take (length bs) (lh_block l) = bs;
  tx_cap : Z.of_nat (length (lh_block l)) = LOGSIZE;
  tx_placed : placed (start l) bs;
  tx_pin : forall b, b ∈ cpin c <-> b ∈ bs;
  tx_clean : head_n (cdisk c (start l)) = 0;
  tx_unlocked : loglocked l = false;
  tx_lsize : lsize l <= LOGSIZE;
  tx_dev : ldev l = ROOTDEV
}.

Lemma txn_ready l c bs : txn l c bs -> idle c -> (length bs < NBUF)%nat -> ready l c bs.
Proof. intros [] Hi Hl. split; assumption. Qed.

Lemma absorb_in bs b : forall i, b ∈ bs -> exists k, absorb bs b i = i + Z.of_nat k /\ bs !! k = Some b.
Proof.
  induction bs as [|x bs IH]; intros i Hb; [set_solver|]. cbn. destruct (Z.eqb_spec x b) as [-> | Hne].
  - exists 0%nat. split; [lia | reflexivity].
  - destruct (IH (i + 1)) as (k & E & Hk); [set_solver|]. exists (S k). split; [rewrite E; lia | exact Hk].
Qed.

Lemma absorb_out bs b : forall i, b ∉ bs -> absorb bs b i = i + Z.of_nat (length bs).
Proof.
  induction bs as [|x bs IH]; intros i Hb; [cbn; lia|]. cbn. destruct (Z.eqb_spec x b) as [-> | Hne]; [set_solver|].
  rewrite IH by set_solver. lia.
Qed.

Lemma take_insert_snoc (l : list Z) n b :
  (n < length l)%nat -> take (S n) (<[n := b]> l) = take n l ++ [b].
Proof.
  intros Hn. rewrite (take_S_r _ n b) by (apply list_lookup_insert_eq, Hn). rewrite take_insert_ge by lia. reflexivity.
Qed.

Lemma log_write_Ok l c bs h b :
  txn l c bs -> cheld c !! h = Some b -> 2 <= b < 50000 -> home (start l) b ->
  lh_n l < LOGSIZE -> lh_n l < lsize l - 1 -> 1 <= outstanding l ->
  exists l' s', log_write h l = Ok tt l' /\ bc l' = s'
    /\ txn l' (c <| cpin := {[b]} ∪ cpin c |>) (if decide (b ∈ bs) then bs else bs ++ [b])
    /\ start l' = start l /\ lsize l' = lsize l /\ outstanding l' = outstanding l
    /\ committing l' = committing l.
Proof.
  intros [R Hn Hbl Hcap [P1 P2 P3 P4] Hpin Hcl Hlk] Hh Hb Hhome H1 H2 H3.
  destruct (bpin_ok (bc l) c h b R Hh) as (s' & Ep & R').
  assert (Z.to_nat (lh_n l) = length bs) as Hnn by lia.
  assert (forall (bs1 : list Z) n1, length bs1 = length (lh_block l) ->
    (set_block (absorb bs b 0) b;;
     when (absorb bs b 0 =? lh_n l) (modify (fun l => l <| lh_n := lh_n l + 1 |>)))
      (l <| loglocked := true |>) = Ok tt (l <| loglocked := true |> <| lh_block := bs1 |> <| lh_n := n1 |>) ->
    log_write h l = Ok tt (l <| bc := s' |> <| lh_block := bs1 |> <| lh_n := n1 |>)) as Hrun.
  { intros bs1 n1 _ E. unfold log_write. erewrite bind_step by reflexivity.
    rewrite (proj2 (Z.leb_gt _ _)), (proj2 (Z.leb_gt _ _)), (proj2 (Z.ltb_ge _ _)) by lia. cbn [orb].
    erewrite bind_step; [|unfold acquire_log; mstep; rewrite Hlk; reflexivity].
    erewrite onbc_Ok by exact (bblockno_ok (bc l) c h b R Hh). cbv zeta. rewrite Hnn, Hbl.
    rewrite <-bind_assoc. erewrite bind_step; [|etransitivity; [|exact E]; destruct l; reflexivity].
    erewrite onbc_Ok by exact Ep. unfold release_log. mstep. destruct l as [? lk ? ? ? ? ? ?]. cbn in Hlk. subst lk. reflexivity. }
  case_decide as Hin.
  - destruct (absorb_in bs b 0 Hin) as (k & Ek & Hk). pose proof (lookup_lt_Some _ _ _ Hk) as Hkl.
    assert (lh_block l !! k = Some b) as Hlk' by (rewrite <-Hbl, lookup_take_Some in Hk; apply Hk).
    eexists _, s'. split; [apply (Hrun (lh_block l) (lh_n l)); [reflexivity|]|].
    + rewrite Ek, Z.add_0_l. unfold set_block, when. mstep.
      change (lh_block (l <| loglocked := true |>)) with (lh_block l).
      rewrite aset_Ok by lia. rewrite Nat2Z.id, list_insert_id by exact Hlk'.
      rewrite (proj2 (Z.eqb_neq _ _)) by lia. destruct l; reflexivity.
    + split; [reflexivity|]. split; [|split_and!; reflexivity]. split; try assumption; [split; assumption|].
      intros x. change (x ∈ {[b]} ∪ cpin c <-> x ∈ bs). rewrite elem_of_union, elem_of_singleton, Hpin. split; [intros [-> | ?]; assumption | auto].
  - eexists _, s'. split; [apply (Hrun (<[length bs := b]> (lh_block l)) (lh_n l + 1)); [apply length_insert|]|].
    + rewrite (absorb_out bs b 0 Hin), Z.add_0_l. unfold set_block, when. mstep.
      change (lh_block (l <| loglocked := true |>)) with (lh_block l).
      rewrite aset_Ok by lia. rewrite Nat2Z.id, Hn, Z.eqb_refl. destruct l; cbn in Hn; subst; reflexivity.
    + split; [reflexivity|]. split; [|split_and!; reflexivity]. split; try assumption.
      * change (lh_n l + 1 = Z.of_nat (length (bs ++ [b]))). rewrite length_app, Hn. cbn. lia.
      * change (take (length (bs ++ [b])) (<[length bs := b]> (lh_block l)) = bs ++ [b]).
        rewrite length_app. cbn [length]. rewrite Nat.add_1_r, take_insert_snoc by lia. rewrite Hbl. reflexivity.
      * change (Z.of_nat (length (<[length bs := b]> (lh_block l))) = LOGSIZE). rewrite length_insert. exact Hcap.
      * split; [exact P1 | rewrite length_app; cbn; lia | |apply NoDup_app; split_and!; [exact P4 | set_solver | apply NoDup_singleton]].
        intros x Hx. apply elem_of_app in Hx as [Hx | Hx]; [exact (P3 x Hx)|]. assert (x = b) as -> by set_solver. split; assumption.
      * intros x. change (x ∈ {[b]} ∪ cpin c <-> x ∈ bs ++ [b]). rewrite elem_of_union, elem_of_singleton, Hpin. set_solver.
Qed.

(** ** Crashes *)

Lemma apply_writes_ext (ws : list (Z * blk)) : forall d d', (forall b, d b = d' b) -> forall b, apply_writes d ws b = apply_writes d' ws b.
Proof.
  induction ws as [|[b0 x] ws IH]; intros d d' E b; [apply E|].
  apply (IH (bupd d b0 x) (bupd d' b0 x)). intros b'. unfold bupd. destruct (b' =? b0); auto.
Qed.

Lemma recoverable_ext st d d' tgt bs : (forall b, d b = d' b) -> recoverable st d tgt bs -> recoverable st d' tgt bs.
Proof.
  intros E [H1 H2 H3 H4 H5 H6]. split; intros; rewrite <-?E; auto.
Qed.

(** The machine reboots on the disk [d], runs the recovery of [init_log], and
    crashes after some of its disk writes. *)
Definition reboot (d d' : Z -> blk) : Prop :=
  exists l j, init_log ROOTDEV (boot_log d) = Ok tt l /\ d' = apply_writes d (take j (bwrites (bc l))).

Lemma recover_writes st nlog d tgt bs l' :
  recoverable st d tgt bs -> says (tgt 1) st nlog -> init_log ROOTDEV (boot_log d) = Ok tt l' ->
  bwrites (bc l') = recovery_writes st d bs /\ (forall b, bdisk (bc l') b = apply_writes d (recovery_writes st d bs) b).
Proof.
  intros HR Hsb E. destruct (recover_Ok st nlog d tgt bs HR Hsb) as (s2 & blks & E2 & R & _). rewrite E in E2. injection E2 as ->.
  destruct (cputs_fields (recovery_writes st d bs) (Cache d d ∅ ∅ [])) as (D & _ & W & _).
  split; [etransitivity; [exact (crep_writes _ _ R)|]; rewrite W; reflexivity|].
  intros b. etransitivity; [exact (crep_disk _ _ b R)|]. rewrite D. reflexivity.
Qed.

Lemma reboots_recoverable st nlog d d' tgt :
  says (tgt 1) st nlog -> rtc reboot d d' -> (exists bs, recoverable st d tgt bs) -> exists bs, recoverable st d' tgt bs.
Proof.
  intros Hsb. induction 1 as [|d d1 d' (l & j & E & ->) _ IH]; [auto|]. intros [bs HR]. apply IH.
  destruct (recover_writes st nlog d tgt bs l HR Hsb E) as [-> _]. exact (recovery_prefix st d tgt bs HR j).
Qed.

Lemma recover_home st nlog d tgt bs :
  recoverable st d tgt bs -> says (tgt 1) st nlog ->
  exists l, init_log ROOTDEV (boot_log d) = Ok tt l /\ (forall b, home st b -> bdisk (bc l) b = tgt b)
    /\ head_n (bdisk (bc l) st) = 0.
Proof.
  intros HR Hsb. destruct (recover_Ok st nlog d tgt bs HR Hsb) as (s2 & blks & E & _). eexists. split; [exact E|].
  destruct (recover_writes st nlog d tgt bs _ HR Hsb E) as [_ D].
  pose proof (complete_recovery st d tgt bs HR) as HC. split.
  - intros b Hb. rewrite D. apply (rc_home _ _ _ _ HC b Hb). set_solver.
  - rewrite D. apply (rc_n _ _ _ _ HC).
Qed.

(** C1. Transactions are atomic across crashes.  A commit of the logged blocks
    [bs] makes exactly 2 |bs| + 2 disk writes.  Let the machine crash after any
    [k] of them, reboot, and crash again any number of times at any point of the
    recovery: the boot that completes finds every home block with its contents
    before the transaction when the header had not been written ([k] <= |bs|),
    and every home block with its contents after it otherwise; the log is then
    empty. *)
Theorem commit_crash_atomic l c bs nlog :
  ready l c bs -> bs <> [] -> says (bdisk (bc l) 1) (start l) nlog ->
  exists l' W, commit l = Ok tt l' /\ bwrites (bc l') = bwrites (bc l) ++ W
    /\ length W = (2 * length bs + 2)%nat
    /\ forall k d, rtc reboot (apply_writes (bdisk (bc l)) (take k W)) d ->
       exists l2, init_log ROOTDEV (boot_log d) = Ok tt l2
         /\ (forall b, home (start l) b ->
               bdisk (bc l2) b = if (k <=? length bs)%nat then bdisk (bc l) b else ccur c b)
         /\ head_n (bdisk (bc l2) (start l)) = 0.
Proof.
  intros HR Hne Hsb. destruct (commit_Ok l c bs HR Hne) as (s' & E & R').
  exists (l <| bc := s' |> <| lh_n := 0 |>), (commit_writes c (start l) bs).
  destruct (cputs_fields (commit_writes c (start l) bs) c) as (_ & _ & HW & _).
  split; [exact E|]. split.
  { change (bwrites s' = bwrites (bc l) ++ commit_writes c (start l) bs).
    rewrite (crep_writes _ _ R'), (crep_writes _ _ (rd_rep _ _ _ HR)). exact HW. }
  split.
  { unfold commit_writes, home_writes. rewrite !length_app, length_log_writes, length_map. cbn. lia. }
  intros k d Hd. set (tgt := if (k <=? length bs)%nat then cdisk c else ccur c).
  assert (says (tgt 1) (start l) nlog) as Hsb'.
  { rewrite (crep_disk _ _ 1 (rd_rep _ _ _ HR)) in Hsb. unfold tgt. destruct (k <=? length bs)%nat; [exact Hsb|].
    rewrite (crep_clean (bc l) c 1); [exact Hsb | apply (rd_rep _ _ _ HR) | apply idle_held, (rd_idle _ _ _ HR) |].
    rewrite (rd_pin _ _ _ HR). intros Hb. destruct (pl_home _ _ (rd_placed _ _ _ HR) 1 Hb). lia. }
  destruct (reboots_recoverable (start l) nlog _ d tgt Hsb' Hd) as [bs' HR'].
  { destruct (commit_prefix l c bs HR k) as [bs' H']. exists bs'. eapply recoverable_ext; [|exact H'].
    intros b. apply apply_writes_ext. intros b'. symmetry. apply crep_disk, (rd_rep _ _ _ HR). }
  destruct (recover_home (start l) nlog d tgt bs' HR' Hsb') as (l2 & E2 & H1 & H2).
  exists l2. split; [exact E2|]. split; [|exact H2]. intros b Hb. rewrite (H1 b Hb). unfold tgt.
  destruct (k <=? length bs)%nat; [|reflexivity]. symmetry. apply crep_disk, (rd_rep _ _ _ HR).
Qed.

Lemma commit_txn l c bs :
  ready l c bs -> bs <> [] -> loglocked l = false ->
  exists s' c', commit l = Ok tt (l <| bc := s' |> <| lh_n := 0 |>) /\ txn (l <| bc := s' |> <| lh_n := 0 |>) c' []
    /\ idle c' /\ (forall b, home (start l) b -> cdisk c' b = ccur c b /\ ccur c' b = ccur c b).
Proof.
  intros HR Hne Hlk. destruct (commit_Ok l c bs HR Hne) as (s' & E & R').
  set (W := commit_writes c (start l) bs) in *. set (c' := cputs c W) in *. exists s', c'.
  destruct (cputs_fields W c) as (D & _ & _ & _ & P). fold c' in D, P.
  assert (recoverable (start l) (cdisk c') (ccur c) []) as HC.
  { rewrite D. unfold W, commit_writes. rewrite apply_writes_app, (after_header l c bs).
    apply complete_recovery. exact (at_header l c bs HR). }
  assert (forall b, b ∉ cpin c') as Hp.
  { intros b Hb. apply P in Hb as [Hb Hk]. apply Hk. apply (rd_pin _ _ _ HR) in Hb.
    unfold W, commit_writes. rewrite !fmap_app, home_writes_keys. set_solver. }
  assert (idle c') as Hi by (apply cputs_idle, (rd_idle _ _ _ HR)).
  split; [exact E|]. split; [|split; [exact Hi|]].
  - split; try reflexivity; try assumption.
    + exact (rd_cap _ _ _ HR).
    + exact (rc_placed _ _ _ _ HC).
    + intros b. split; [intros Hb; destruct (Hp b Hb) | set_solver].
    + exact (rc_n _ _ _ _ HC).
    + exact (rd_lsize _ _ _ HR).
    + exact (rd_dev _ _ _ HR).
  - intros b Hb. assert (cdisk c' b = ccur c b) as E1 by (apply (rc_home _ _ _ _ HC b Hb); set_solver).
    split; [exact E1|]. rewrite <-E1. apply (crep_clean s'); [exact R' | apply idle_held, Hi | apply Hp].
Qed.

(** The last end_op of a transaction installs it: every home block on disk
    has its latest contents, nothing is pinned, the log is empty in memory and on
    disk, no operation is outstanding and the next begin_op is admitted. *)
Theorem end_op_commits l c bs :
  ready l c bs -> bs <> [] -> loglocked l = false -> committing l = false -> outstanding l = 1 ->
  exists l' c' l2, end_op l = Ok tt l' /\ txn l' c' [] /\ idle c' /\ outstanding l' = 0 /\ committing l' = false
    /\ (forall b, home (start l) b -> bdisk (bc l') b = ccur c b /\ ccur c' b = ccur c b)
    /\ begin_op l' = Ok tt l2 /\ outstanding l2 = 1.
Proof.
  intros HR Hne Hlk Hcm Ho.
  set (l1 := l <| outstanding := 0 |> <| committing := true |>).
  assert (ready l1 c bs) as HR1 by (destruct HR; split; assumption).
  destruct (commit_txn l1 c bs HR1 Hne Hlk) as (s' & c' & E & HT & Hi & Hd).
  set (l' := l <| bc := s' |> <| outstanding := 0 |> <| lh_n := 0 |>).
  assert (txn l' c' []) as HT' by (destruct HT; split; assumption).
  exists l', c'. eexists. split_and!.
  - unfold end_op. erewrite bind_step; [|unfold acquire_log; mstep; rewrite Hlk; reflexivity].
    erewrite bind_step by reflexivity. erewrite bind_step by reflexivity.
    change (committing (l <| loglocked := true |> <| outstanding := outstanding (l <| loglocked := true |>) - 1 |>)) with (committing l).
    rewrite Hcm. cbv zeta.
    change (outstanding (l <| loglocked := true |> <| outstanding := outstanding (l <| loglocked := true |>) - 1 |>)) with (outstanding l - 1).
    rewrite Ho. change (1 - 1 =? 0) with true. unfold when. erewrite bind_step by reflexivity.
    erewrite bind_step by reflexivity.
    erewrite bind_step; [|etransitivity; [|exact E]; unfold l1; destruct l; cbn in Hlk, Ho; subst; reflexivity].
    unfold l', l1. destruct l; cbn in Hlk, Hcm, Ho; subst; reflexivity.
  - exact HT'.
  - exact Hi.
  - reflexivity.
  - exact Hcm.
  - intros b Hb. destruct (Hd b Hb) as [D1 D2]. split; [|exact D2]. rewrite <-D1. apply crep_disk, (tx_rep _ _ _ HT).
  - unfold begin_op. erewrite bind_step; [|unfold acquire_log; mstep; change (loglocked l') with (loglocked l); rewrite Hlk; reflexivity].
    erewrite bind_step by reflexivity.
    change (committing (l' <| loglocked := true |>)) with (committing l). rewrite Hcm. reflexivity.
  - reflexivity.
Qed.

(** log_write records a block of the running transaction once: the block
    joins the list unless it is already there, it is pinned in the cache, and no
    contents change.  It panics when the log is full or no operation is open. *)
Theorem log_write_correct l c bs h b :
  txn l c bs -> cheld c !! h = Some b -> 2 <= b < 50000 -> home (start l) b ->
  (lh_n l < LOGSIZE -> lh_n l < lsize l - 1 -> 1 <= outstanding l ->
     exists l', log_write h l = Ok tt l'
       /\ txn l' (c <| cpin := {[b]} ∪ cpin c |>) (if decide (b ∈ bs) then bs else bs ++ [b])
       /\ start l' = start l /\ lsize l' = lsize l /\ outstanding l' = outstanding l
       /\ committing l' = committing l)
  /\ (LOGSIZE <= lh_n l \/ lsize l - 1 <= lh_n l -> log_write h l = Panic "too big a transaction")
  /\ (lh_n l < LOGSIZE -> lh_n l < lsize l - 1 -> outstanding l < 1 -> log_write h l = Panic "log_write outside of trans").
Proof.
  intros HT Hh Hb Hhome. split_and!.
  - intros H1 H2 H3. destruct (log_write_Ok l c bs h b HT Hh Hb Hhome H1 H2 H3) as (l' & s' & E & _ & H).
    exists l'. split; [exact E | exact H].
  - intros Hf. unfold log_write. mstep.
    destruct (Z.leb_spec LOGSIZE (lh_n l)), (Z.leb_spec (lsize l - 1) (lh_n l)); cbn [orb]; try reflexivity. lia.
  - intros H1 H2 H3. unfold log_write. mstep.
    rewrite (proj2 (Z.leb_gt _ _)), (proj2 (Z.leb_gt _ _)), (proj2 (Z.ltb_lt _ _)) by lia. reflexivity.
Qed.
End log_laws.
