(* ===== verification/LogBio.v ===== *)
(** * The log over the buffer cache of bio.c

    A write transaction run through log.c and bio.c together, which shows that
    the hypotheses of the crash theorems hold of real states, and what the
    admission rule of begin_op guarantees and does not. *)
From Stdlib Require Import ZArith Lia.
From stdpp Require Import base numbers list gmap strings relations.
From S2P Require Import Prelude Block Bio BioThm Log LogThm.
Local Open Scope Z_scope.

(** ** One transaction: begin_op, a logged update of one block *)

Section update.
Context {C : Type} `{HBC : BufCache C} {HL : BufCacheLaws C}.

(** [bp = buffer_read(b); memmove(bp->data, x, BSIZE); log_write(bp); buffer_release(bp)] *)
Definition logged_update (b : Z) (x : blk) : M (log C) unit :=
  l ← get;
  bp ← onbc (bread (ldev l) b);
  onbc (bstore bp x);;
  log_write bp;;
  onbc (brelse bp).

Lemma logged_update_Ok l c bs b x :
  txn l c bs -> idle c -> (length bs < NBUF)%nat -> Z.of_nat (length x) = BSIZE ->
  2 <= b < 50000 -> home (start l) b ->
  lh_n l < LOGSIZE -> lh_n l < lsize l - 1 -> 1 <= outstanding l ->
  exists l' c', logged_update b x l = Ok tt l'
    /\ txn l' c' (if decide (b ∈ bs) then bs else bs ++ [b]) /\ idle c'
    /\ ccur c' = bupd (ccur c) b x /\ cdisk c' = cdisk c
    /\ start l' = start l /\ lsize l' = lsize l /\ outstanding l' = outstanding l
    /\ committing l' = committing l.
Proof.
  intros HT Hi Hl Hx Hb Hh H1 H2 H3.
  destruct (bread_ok (bc l) c b (tx_rep _ _ _ HT) (idle_held c b Hi)) as (h & s1 & E1 & _ & R1); [|lia|].
  { apply (room_pins c bs); [exact Hi | exact Hl | intros y; apply (tx_pin _ _ _ HT)]. }
  rewrite Hi in R1. assert ((<[h := b]> (∅ : gmap nat Z)) !! h = Some b) as Hhb by apply lookup_insert_eq.
  destruct (bstore_ok s1 _ h b x R1 Hhb Hx) as (s2 & E2 & R2).
  set (c2 := c <| cheld := <[h := b]> ∅ |> <| ccur := bupd (ccur c) b x |>) in *.
  assert (txn (l <| bc := s2 |>) c2 bs) as HT2 by (destruct HT; split; assumption).
  destruct (log_write_Ok (l <| bc := s2 |>) c2 bs h b HT2 Hhb Hb Hh H1 H2 H3) as (l3 & s3 & E3 & Es & HT3 & F1 & F2 & F3 & F4).
  destruct (brelse_ok (bc l3) _ h b (tx_rep _ _ _ HT3) Hhb) as (s4 & E4 & R4).
  { left. change (b ∈ {[b]} ∪ cpin c). set_solver. }
  match type of R4 with crep _ ?cx => exists (l3 <| bc := s4 |>), cx end. split_and!; try assumption.
  - unfold logged_update. erewrite bind_step by reflexivity. rewrite (tx_dev _ _ _ HT). erewrite onbc_Ok by exact E1. erewrite onbc_Ok by (cbn [bc assign]; exact E2).
    erewrite bind_step; [|etransitivity; [|exact E3]; destruct l; reflexivity].
    unfold onbc. rewrite E4. reflexivity.
  - destruct HT3. split; assumption.
  - change (delete h (<[h := b]> (∅ : gmap nat Z)) = ∅). apply delete_insert_id, lookup_empty.
  - reflexivity.
  - reflexivity.
Qed.

(** After the boot of a clean file system and a begin_op. *)
Lemma begin_txn st nlog d :
  (forall b, Z.of_nat (length (d b)) = BSIZE) -> head_n (d st) = 0 -> 2 <= st /\ st + LOGSIZE < 50000 -> nlog <= LOGSIZE -> says (d 1) st nlog ->
  exists l c, (init_log ROOTDEV;; begin_op) (boot_log d) = Ok tt l /\ txn l c [] /\ idle c
    /\ (forall b, home st b -> ccur c b = d b /\ cdisk c b = d b)
    /\ start l = st /\ lsize l = nlog /\ outstanding l = 1 /\ committing l = false.
Proof.
  intros Hd Hn Hst Hnl Hsb.
  assert (recoverable st d d []) as HR.
  { split; [exact Hd | exact Hn | discriminate | | discriminate | reflexivity].
    split; [exact Hst | cbn; unfold LOGSIZE, MAXOPBLOCKS; lia | set_solver | constructor]. }
  destruct (recover_Ok st nlog d d [] HR Hsb) as (s1 & blks & E1 & R1 & L1).
  pose proof (complete_recovery st d d [] HR) as HC.
  set (c := cputs (Cache d d ∅ ∅ []) (recovery_writes st d [])) in *.
  destruct (cputs_fields (recovery_writes st d []) (Cache d d ∅ ∅ [])) as (D & _ & _ & _ & P). fold c in D, P.
  change (cdisk (Cache d d ∅ ∅ [])) with d in D. rewrite <-D in HC.
  assert (idle c) as Hi by (apply cputs_idle; reflexivity).
  assert (forall b, b ∉ cpin c) as Hp.
  { intros b Hb. apply P in Hb as [Hb _]. change (b ∈ (∅ : gset Z)) in Hb. set_solver. }
  exists (Log s1 false st nlog 1 false ROOTDEV 0 blks), c. split_and!; try reflexivity; try assumption.
  - erewrite bind_step by exact E1. reflexivity.
  - split; try assumption; try reflexivity.
    + exact (rc_placed _ _ _ _ HC).
    + intros b. split; [intros Hb; destruct (Hp b Hb) | set_solver].
    + exact (rc_n _ _ _ _ HC).
  - intros b Hb. assert (cdisk c b = d b) as E by (apply (rc_home _ _ _ _ HC b Hb); set_solver).
    split; [|exact E]. rewrite <-E. apply (crep_clean s1); [exact R1 | apply idle_held, Hi | apply Hp].
Qed.
End update.

(** ** Concrete runs *)

(** A disk of zeroes with a superblock that puts a log of LOGSIZE blocks at 2,
    as mkfs does. *)
Definition zero_disk : Z -> blk :=
  bupd (fun _ => replicate (Z.to_nat BSIZE) 0) 1
    (put32 (put32 (put32 (replicate (Z.to_nat BSIZE) 0) 0 50000) 12 LOGSIZE) 16 2).

Lemma zero_disk_size b : Z.of_nat (length (zero_disk b)) = BSIZE.
Proof. unfold zero_disk, bupd. destruct (b =? 1); reflexivity. Qed.

Definition sevens : blk := replicate (Z.to_nat BSIZE) 7.

Lemma one_update : exists (l : log bstate) c,
  (init_log ROOTDEV;; begin_op;; logged_update 100 sevens) (boot_log zero_disk) = Ok tt l
  /\ ready l c [100] /\ loglocked l = false /\ committing l = false /\ outstanding l = 1 /\ start l = 2
  /\ ccur c 100 = sevens /\ cdisk c 100 = zero_disk 100
  /\ says (bdisk (bc l) 1) 2 30.
Proof.
  destruct (begin_txn (C := bstate) 2 30 zero_disk) as (l & c & E & HT & Hi & Hc & H1 & H2 & H3 & H4).
  { apply zero_disk_size. } { vm_compute. reflexivity. } { unfold LOGSIZE, MAXOPBLOCKS. lia. } { reflexivity || (unfold LOGSIZE, MAXOPBLOCKS; lia). } { split; vm_compute; reflexivity. }
  assert (home 2 100) as Hh by (unfold home, LOGSIZE, MAXOPBLOCKS; lia).
  destruct (logged_update_Ok l c [] 100 sevens) as (l' & c' & E' & HT' & Hi' & Hc1 & Hd1 & F1 & F2 & F3 & F4);
    try assumption; try reflexivity; try lia.
  { unfold NBUF. cbn. lia. } { rewrite H1. exact Hh. }
  { rewrite (tx_n _ _ _ HT). reflexivity. } { rewrite (tx_n _ _ _ HT), H2. reflexivity. }
  revert HT'. case_decide as Hin; [exfalso; exact (not_elem_of_nil _ Hin)|]. intros HT'. cbn [app] in HT'.
  exists l', c'. split_and!.
  - rewrite <-bind_assoc. erewrite bind_step by exact E. exact E'.
  - apply txn_ready; [exact HT' | exact Hi' | unfold NBUF; cbn; lia].
  - apply (tx_unlocked _ _ _ HT').
  - rewrite F4. exact H4.
  - rewrite F3. exact H3.
  - rewrite F1. exact H1.
  - rewrite Hc1. apply bupd_eq.
  - rewrite Hd1. apply Hc. exact Hh.
  - rewrite (crep_disk _ _ 1 (tx_rep _ _ _ HT')), Hd1.
    destruct (Hc 1) as [_ ->]; [unfold home, LOGSIZE, MAXOPBLOCKS; lia|]. split; vm_compute; reflexivity.
Qed.

Lemma commit_crash_atomic_witness : exists (l : log bstate) c l' W,
  ready l c [100] /\ commit l = Ok tt l' /\ length W = 4%nat
  /\ forall k d, rtc (reboot (C := bstate)) (apply_writes (bdisk (bc l)) (take k W)) d ->
       exists l2 : log bstate, init_log ROOTDEV (boot_log d) = Ok tt l2
         /\ bdisk (bc l2) 100 = if (k <=? 1)%nat then zero_disk 100 else sevens.
Proof.
  destruct one_update as (l & c & _ & HR & _ & _ & _ & Hst & Hc & Hd & Hsb).
  destruct (commit_crash_atomic l c [100] 30 HR) as (l' & W & E & _ & HW & Hcr); [discriminate | rewrite Hst; exact Hsb|].
  exists l, c, l', W. split; [exact HR|]. split; [exact E|]. split; [exact HW|].
  rewrite Hst in Hcr. intros k d Hk. destruct (Hcr k d Hk) as (l2 & E2 & Hh & _). exists l2. split; [exact E2|].
  rewrite Hh by (unfold home, LOGSIZE, MAXOPBLOCKS; lia). rewrite Hc.
  rewrite (crep_disk _ _ 100 (rd_rep _ _ _ HR)), Hd. reflexivity.
Defined.

Lemma end_op_commits_witness : exists (l : log bstate) l',
  outstanding l = 1 /\ end_op l = Ok tt l' /\ bdisk (bc l') 100 = sevens.
Proof.
  destruct one_update as (l & c & _ & HR & H1 & H2 & H3 & Hst & Hc & Hd & _).
  destruct (end_op_commits l c [100] HR) as (l' & c' & l2 & E & _ & _ & _ & _ & Hh & _); try assumption; [discriminate|].
  exists l, l'. split; [exact H3|]. split; [exact E|]. rewrite Hst in Hh.
  destruct (Hh 100) as [-> _]; [unfold home, LOGSIZE, MAXOPBLOCKS; lia | exact Hc].
Defined.

Lemma log_write_correct_witness : exists (l : log bstate) c h l',
  cheld c !! h = Some 100 /\ log_write h l = Ok tt l' /\ lh_n l' = 1.
Proof.
  destruct (begin_txn (C := bstate) 2 30 zero_disk) as (l & c & E & HT & Hi & Hc & H1 & H2 & H3 & H4).
  { apply zero_disk_size. } { vm_compute. reflexivity. } { unfold LOGSIZE, MAXOPBLOCKS. lia. } { reflexivity || (unfold LOGSIZE, MAXOPBLOCKS; lia). } { split; vm_compute; reflexivity. }
  destruct (bread_ok (bc l) c 100 (tx_rep _ _ _ HT) (idle_held c 100 Hi)) as (h & s1 & E1 & _ & R1); [|lia|].
  { apply (room_pins c []); [exact Hi | unfold NBUF; cbn; lia | intros y; apply (tx_pin _ _ _ HT)]. }
  assert (txn (l <| bc := s1 |>) (c <| cheld := <[h := 100]> (cheld c) |>) []) as HT1 by (destruct HT; split; assumption).
  destruct (log_write_correct (l <| bc := s1 |>) _ [] h 100 HT1) as [Hw _].
  - apply lookup_insert_eq.
  - lia.
  - change (home (start l) 100). rewrite H1. unfold home, LOGSIZE, MAXOPBLOCKS. lia.
  - destruct Hw as (l' & E' & HT' & _).
    + change (lh_n l < LOGSIZE). rewrite (tx_n _ _ _ HT). reflexivity.
    + change (lh_n l < lsize l - 1). rewrite (tx_n _ _ _ HT), H2. reflexivity.
    + change (1 <= outstanding l). lia.
    + exists (l <| bc := s1 |>), (c <| cheld := <[h := 100]> (cheld c) |>), h, l'. split; [apply lookup_insert_eq|]. split; [exact E'|].
      rewrite (tx_n _ _ _ HT'). case_decide as Hin; [exfalso; exact (not_elem_of_nil _ Hin) | reflexivity].
Defined.

(** ** What goes wrong *)

Fixpoint updates (n : nat) (b : Z) : M (log bstate) unit :=
  match n with O => mret tt | S n' => logged_update b sevens;; updates n' (b + 1) end.

(** begin_op admits three operations of MAXOPBLOCKS blocks each, but with
    the log that mkfs lays out (nlog = LOGSIZE blocks, one of them the header)
    log_write refuses the thirtieth block: three admitted operations that stay
    within their reservation panic the kernel. *)
Theorem admitted_operations_panic :
  (init_log ROOTDEV;; begin_op;; begin_op;; begin_op;; updates 29 100;; updates 1 129)
    (boot_log zero_disk) = Panic "too big a transaction"
  /\ exists l, (init_log ROOTDEV;; begin_op;; begin_op;; begin_op;; updates 29 100) (boot_log zero_disk) = Ok tt l
       /\ lh_n l = 29 /\ outstanding l = 3.
Proof. split; [vm_compute; reflexivity|]. eexists. split; [vm_compute; reflexivity|]. split; reflexivity. Qed.

(** sync writes dirty buffers home although the log pinned them for a
    transaction that has not committed: a crash after sync keeps a block of a
    transaction that never ended. *)
Theorem sync_breaks_write_ahead :
  exists l l2, (init_log ROOTDEV;; begin_op;; logged_update 100 sevens;; onbc sync) (boot_log zero_disk) = Ok tt l
    /\ outstanding l = 1 /\ lh_n l = 1
    /\ init_log ROOTDEV (boot_log (bdisk (bc l))) = Ok tt l2
    /\ bdisk (bc l2) 100 = sevens /\ zero_disk 100 <> sevens.
Proof.
  eexists _, _. split; [vm_compute; reflexivity|]. split; [reflexivity|]. split; [reflexivity|].
  split; [vm_compute; reflexivity|]. split; [vm_compute; reflexivity | discriminate].
Qed.
