(* ===== verification/Fs.v ===== *)
(** * The file system (src/kernel/fs/fs.c)

    fs.c over the log of Log.v: the block allocator, the inode cache, file
    contents, directories and path names.  An inode pointer is the index of its
    entry in icache.inode; a null pointer is [None].  Inode locks are the sleep
    locks of Locks.v.  The drivers behind devsw are an argument: what
    [devsw[major].read] and [.write] do is not part of fs.c. *)
From Stdlib Require Import ZArith Lia.
From stdpp Require Import base numbers list list_numbers gmap strings.
From S2P Require Import Prelude KString Locks Block Log.
Local Open Scope Z_scope.

Definition BPB : Z := BSIZE * 8.
Definition DINODE : Z := 80.                 (* sizeof(struct dinode) *)
Definition IPB : Z := BSIZE / DINODE.
Definition NDIRECT : nat := 11.
Definition NINDIRECT : Z := BSIZE / 4.
Definition MAXFILE : Z := Z.of_nat NDIRECT + NINDIRECT.
Definition NINODE : nat := 50.
Definition NDEV : Z := 255.
Definition ROOTINO : Z := 1.
Definition DIRSIZ : Z := 20.
Definition DIRENT : Z := 32.                 (* sizeof(struct dirent) *)
Definition D_NAME : Z := 7.                  (* offset of d_name *)
Definition S_IFMT : Z := 61440.
Definition S_IFDIR : Z := 16384.
Definition S_IFCHR : Z := 8192.
Definition S_IFBLK : Z := 24576.
Definition ENXIO : Z := 6.

(** struct inode *)
Record inode := Inode {
  idev : Z; inum : Z; ref : Z; ilk : sleeplock; valid : bool;
  mode : Z; lmtime : Z; ctime : Z; major : Z; minor : Z; nlink : Z; isize : Z;
  addrs : list Z; iuid : Z; igid : Z
}.
#[export] Instance inode_fields : Fields inode := fun i =>
  Inode (idev i) (inum i) (ref i) (ilk i) (valid i) (mode i) (lmtime i) (ctime i) (major i) (minor i)
    (nlink i) (isize i) (addrs i) (iuid i) (igid i).

(** struct stat, as far as stati fills it *)
Record stat := Stat {
  st_dev : Z; st_ino : Z; st_mode : Z; st_lmtime : Z; st_ctime : Z; st_nlink : Z; st_size : Z;
  st_uid : Z; st_gid : Z
}.

(** The log with the disk below it, icache, sb, the clock, and the pid and
    current directory of the running process. *)
Record fsys (C : Type) := Fsys {
  lg : log C; iclocked : bool; inodes : list inode; sb : superblock;
  clock : Z; mypid : Z; cwd : nat
}.
Arguments Fsys {C}. Arguments lg {C}. Arguments iclocked {C}. Arguments inodes {C}. Arguments sb {C}.
Arguments clock {C}. Arguments mypid {C}. Arguments cwd {C}.
#[export] Instance fsys_fields C : Fields (fsys C) := fun s =>
  Fsys (lg s) (iclocked s) (inodes s) (sb s) (clock s) (mypid s) (cwd s).

Section fs.
Context {C : Type} `{BufCache C}.

(** An entry of devsw: the functions it holds, if any. *)
Record devops := Devops {
  dread : option (Z -> nat -> Z -> Z -> M (fsys C) (Z * list Z));   (* minor, ip, n, off *)
  dwrite : option (Z -> nat -> list Z -> Z -> Z -> M (fsys C) Z)    (* minor, ip, src, n, off *)
}.
Context (devsw : Z -> devops).

(** ** Calls into log.c and bio.c *)

Definition onlog {A} (m : M (log C) A) : M (fsys C) A := fun s =>
  match m (lg s) with
  | Ok a l => Ok a (s <| lg := l |>)
  | Panic w => Panic w
  | Fault w => Fault w
  | Block ch l => Block ch (s <| lg := l |>)
  end.

Definition buffer_read (dev b : Z) : M (fsys C) nat := onlog (onbc (bread dev b)).
Definition buffer_release (bp : nat) : M (fsys C) unit := onlog (onbc (brelse bp)).
Definition data (bp : nat) : M (fsys C) blk := onlog (onbc (bdata bp)).
Definition set_data (bp : nat) (d : blk) : M (fsys C) unit := onlog (onbc (bstore bp d)).
Definition log_write (bp : nat) : M (fsys C) unit := onlog (Log.log_write bp).
Definition epoch_mktime : M (fsys C) Z := gets (fun s => u32 (clock s)).

(** ** Blocks *)

Definition bzero (dev bno : Z) : M (fsys C) unit :=
  bp ← buffer_read dev bno;
  set_data bp (replicate (Z.to_nat BSIZE) 0);;
  log_write bp;;
  buffer_release bp.

Definition BBLOCK (b : Z) (sb : superblock) : Z := b / BPB + sb_bmapstart sb.

(** Bit [bi] of a bitmap block; [m = 1 << (bi % 8)]. *)
Definition bit_mask (bi : Z) : Z := Z.shiftl 1 (bi mod 8).
Definition bit_set (d : blk) (bi : Z) : bool := nz (Z.land (get8 d (bi / 8)) (bit_mask bi)).
Definition set_bit (d : blk) (bi : Z) : blk := put8 d (bi / 8) (Z.lor (get8 d (bi / 8)) (bit_mask bi)).
Definition clear_bit (d : blk) (bi : Z) : blk :=
  put8 d (bi / 8) (Z.land (get8 d (bi / 8)) (Z.lnot (bit_mask bi))).

(** The inner loop of [balloc]: the first free bit of the block of [b]. *)
Fixpoint find_free (k : nat) (d : blk) (b bi size : Z) : option Z :=
  match k with
  | O => None
  | S k' =>
      if b + bi <? size then
        if bit_set d bi then find_free k' d b (bi + 1) size else Some bi
      else None
  end.

Fixpoint balloc_from (fuel : nat) (dev b : Z) : M (fsys C) Z :=
  match fuel with
  | O => fault "balloc"
  | S fuel' =>
      s ← get;
      if b <? sb_size (sb s) then
        bp ← buffer_read dev (BBLOCK b (sb s));
        d ← data bp;
        match find_free (Z.to_nat BPB) d b 0 (sb_size (sb s)) with
        | Some bi =>
            set_data bp (set_bit d bi);;
            log_write bp;;
            buffer_release bp;;
            bzero dev (b + bi);;
            mret (b + bi)
        | None =>
            buffer_release bp;;
            balloc_from fuel' dev (b + BPB)
        end
      else panic "balloc: out of blocks"
  end.

(** One round per bitmap block and the last test of the loop. *)
Definition balloc (dev : Z) : M (fsys C) Z :=
  s ← get; balloc_from (Z.to_nat (sb_size (sb s) / BPB) + 2) dev 0.

Definition bfree (dev b : Z) : M (fsys C) unit :=
  s ← get;
  bp ← buffer_read dev (BBLOCK b (sb s));
  d ← data bp;
  let bi := b mod BPB in
  if bit_set d bi then
    set_data bp (clear_bit d bi);;
    log_write bp;;
    buffer_release bp
  else panic "freeing free block".

(** ** Inodes *)

Definition iat (ip : nat) : M (fsys C) inode :=
  s ← get; match inodes s !! ip with Some i => mret i | None => fault "inode pointer" end.
Definition imod (ip : nat) (f : inode -> inode) : M (fsys C) unit :=
  modify (fun s => s <| inodes := alter f ip (inodes s) |>).

Definition acquire_ic : M (fsys C) unit :=
  s ← get; if iclocked s then panic "acquire" else put (s <| iclocked := true |>).
Definition release_ic : M (fsys C) unit :=
  s ← get; if iclocked s then put (s <| iclocked := false |>) else panic "release".

(** Run a sleep-lock operation on ip->lock. *)
Definition on_ilock {A} (ip : nat) (m : M sleeplock A) : M (fsys C) A :=
  i ← iat ip;
  match m (ilk i) with
  | Ok a l => imod ip (fun i => i <| ilk := l |>);; mret a
  | Panic w => panic w
  | Fault w => fault w
  | Block ch l => imod ip (fun i => i <| ilk := l |>);; block ch
  end.

Definition iinit (dev : Z) : M (fsys C) unit :=
  modify (fun s => s <| iclocked := false |>);;
  modify (fun s => s <| inodes := (fun i => i <| ilk := initsleeplock |>) <$> inodes s |>);;
  x ← onlog (onbc (readsb dev));
  modify (fun s => s <| sb := x |>).

Definition IBLOCK (i : Z) (sb : superblock) : Z := i / IPB + sb_inodestart sb.

(** Offset of the dinode of [i] in its block, and the fields of struct dinode. *)
Definition dip (i : Z) : Z := DINODE * (i mod IPB).
Definition d_mode (d : blk) (o : Z) : Z := i16 (get16 d o).
Definition d_lmtime (d : blk) (o : Z) : Z := get32 d (o + 4).
Definition d_ctime (d : blk) (o : Z) : Z := get32 d (o + 8).
Definition d_major (d : blk) (o : Z) : Z := i16 (get16 d (o + 12)).
Definition d_minor (d : blk) (o : Z) : Z := i16 (get16 d (o + 14)).
Definition d_nlink (d : blk) (o : Z) : Z := i16 (get16 d (o + 16)).
Definition d_size (d : blk) (o : Z) : Z := get32 d (o + 20).
Definition d_addrs (d : blk) (o : Z) : list Z :=
  map (fun k => get32 d (o + 24 + 4 * Z.of_nat k)) (seq 0 (S NDIRECT)).
Definition d_uid (d : blk) (o : Z) : Z := get32 d (o + 72).
Definition d_gid (d : blk) (o : Z) : Z := get32 d (o + 76).

(** [memset] of a whole dinode *)
Fixpoint zero_bytes (d : blk) (o : Z) (n : nat) : blk :=
  match n with O => d | S n' => zero_bytes (put8 d o 0) (o + 1) n' end.

(** iget: the cached entry, or the first empty one. *)
Fixpoint iget_scan (l : list inode) (k : nat) (empty : option nat) (dev i : Z) : nat + option nat :=
  match l with
  | [] => inr empty
  | ip :: l' =>
      if (0 <? ref ip) && (idev ip =? dev) && (inum ip =? i) then inl k
      else iget_scan l' (S k) (match empty with None => if ref ip =? 0 then Some k else None | _ => empty end) dev i
  end.

Definition iget (dev i : Z) : M (fsys C) nat :=
  acquire_ic;;
  s ← get;
  match iget_scan (inodes s) 0 None dev i with
  | inl ip =>
      imod ip (fun i => i <| ref := i32 (ref i + 1) |>);;
      release_ic;;
      mret ip
  | inr None => panic "iget: no inodes"
  | inr (Some ip) =>
      imod ip (fun x => x <| idev := dev |> <| inum := i |> <| ref := 1 |> <| valid := false |>);;
      release_ic;;
      mret ip
  end.

Definition idup (ip : nat) : M (fsys C) nat :=
  acquire_ic;;
  imod ip (fun i => i <| ref := i32 (ref i + 1) |>);;
  release_ic;;
  mret ip.

Fixpoint ialloc_from (fuel : nat) (dev type i : Z) : M (fsys C) nat :=
  match fuel with
  | O => fault "ialloc"
  | S fuel' =>
      s ← get;
      if i <? sb_ninodes (sb s) then
        bp ← buffer_read dev (IBLOCK i (sb s));
        d ← data bp;
        if d_mode d (dip i) =? 0 then
          let d := zero_bytes d (dip i) (Z.to_nat DINODE) in
          let d := put16 d (dip i) type in
          t ← epoch_mktime;
          set_data bp (put32 d (dip i + 8) t);;
          log_write bp;;
          buffer_release bp;;
          iget dev i
        else
          buffer_release bp;;
          ialloc_from fuel' dev type (i + 1)
      else panic "ialloc: no inodes"
  end.

Definition ialloc (dev type : Z) : M (fsys C) nat :=
  s ← get; ialloc_from (Z.to_nat (sb_ninodes (sb s)) + 1) dev type 1.

(** The assignments of [iupdate] to the dinode at [o]; dip->ctime is not among
    them. *)
Definition store_inode (d : blk) (o : Z) (i : inode) : blk :=
  let d := put16 d o (mode i) in
  let d := put32 d (o + 4) (lmtime i) in
  let d := put16 d (o + 12) (major i) in
  let d := put16 d (o + 14) (minor i) in
  let d := put16 d (o + 16) (nlink i) in
  let d := put32 d (o + 20) (isize i) in
  let d := put32 d (o + 72) (iuid i) in
  let d := put32 d (o + 76) (igid i) in
  put_blocks d (o + 24) (addrs i).

Definition iupdate (ip : nat) : M (fsys C) unit :=
  i ← iat ip;
  s ← get;
  bp ← buffer_read (idev i) (IBLOCK (inum i) (sb s));
  d ← data bp;
  set_data bp (store_inode d (dip (inum i)) i);;
  log_write bp;;
  buffer_release bp.

Definition load_inode (d : blk) (o : Z) (i : inode) : inode :=
  i <| mode := d_mode d o |> <| lmtime := d_lmtime d o |> <| ctime := d_ctime d o |>
    <| major := d_major d o |> <| minor := d_minor d o |> <| nlink := d_nlink d o |>
    <| isize := d_size d o |> <| iuid := d_uid d o |> <| igid := d_gid d o |> <| addrs := d_addrs d o |>.

Definition ilock (p : option nat) : M (fsys C) unit :=
  match p with
  | None => panic "ilock"
  | Some ip =>
      i ← iat ip;
      if ref i <? 1 then panic "ilock"
      else
        s ← get;
        on_ilock ip (acquiresleep (Z.of_nat ip) (mypid s));;
        i ← iat ip;
        if valid i then mret tt
        else
          s ← get;
          bp ← buffer_read (idev i) (IBLOCK (inum i) (sb s));
          d ← data bp;
          imod ip (load_inode d (dip (inum i)));;
          buffer_release bp;;
          imod ip (fun i => i <| valid := true |>);;
          i ← iat ip;
          if mode i =? 0 then panic "ilock: no type" else mret tt
  end.

Definition iunlock (p : option nat) : M (fsys C) unit :=
  match p with
  | None => panic "iunlock"
  | Some ip =>
      s ← get;
      h ← on_ilock ip (holdingsleep (mypid s));
      i ← iat ip;
      if negb h || (ref i <? 1) then panic "iunlock" else on_ilock ip releasesleep
  end.

(** ** Contents *)

Definition addr_at (ip : nat) (k : nat) : M (fsys C) Z :=
  i ← iat ip; match addrs i !! k with Some a => mret a | None => fault "ip->addrs" end.
Definition set_addr (ip : nat) (k : nat) (a : Z) : M (fsys C) unit :=
  imod ip (fun i => i <| addrs := <[k := a]> (addrs i) |>).

Definition bmap (ip : nat) (bn : Z) : M (fsys C) Z :=
  i ← iat ip;
  if bn <? Z.of_nat NDIRECT then
    addr ← addr_at ip (Z.to_nat bn);
    if addr =? 0 then
      addr ← balloc (idev i);
      set_addr ip (Z.to_nat bn) addr;;
      mret addr
    else mret addr
  else
    let bn := bn - Z.of_nat NDIRECT in
    if bn <? NINDIRECT then
      addr ← addr_at ip NDIRECT;
      addr ← (if addr =? 0 then
                addr ← balloc (idev i);
                set_addr ip NDIRECT addr;;
                mret addr
              else mret addr);
      bp ← buffer_read (idev i) addr;
      a ← data bp;
      addr ← (if get32 a (4 * bn) =? 0 then
                addr ← balloc (idev i);
                a ← data bp;
                set_data bp (put32 a (4 * bn) addr);;
                log_write bp;;
                mret addr
              else mret (get32 a (4 * bn)));
      buffer_release bp;;
      mret addr
    else panic "bmap: out of range".

(** The loops of [itrunc] over ip->addrs and over the indirect block. *)
Fixpoint trunc_direct (ip : nat) (k n : nat) : M (fsys C) unit :=
  match n with
  | O => mret tt
  | S n' =>
      i ← iat ip;
      a ← addr_at ip k;
      when (nz a) (bfree (idev i) a;; set_addr ip k 0);;
      trunc_direct ip (S k) n'
  end.

Fixpoint trunc_indirect (ip bp : nat) (j : Z) (n : nat) : M (fsys C) unit :=
  match n with
  | O => mret tt
  | S n' =>
      i ← iat ip;
      d ← data bp;
      when (nz (get32 d (4 * j))) (bfree (idev i) (get32 d (4 * j)));;
      trunc_indirect ip bp (j + 1) n'
  end.

Definition itrunc (ip : nat) : M (fsys C) unit :=
  trunc_direct ip 0 NDIRECT;;
  a ← addr_at ip NDIRECT;
  when (nz a)
    (i ← iat ip;
     bp ← buffer_read (idev i) a;
     trunc_indirect ip bp 0 (Z.to_nat NINDIRECT);;
     buffer_release bp;;
     bfree (idev i) a;;
     set_addr ip NDIRECT 0);;
  imod ip (fun i => i <| isize := 0 |>);;
  iupdate ip.

Definition iput (ip : nat) : M (fsys C) unit :=
  s ← get;
  on_ilock ip (acquiresleep (Z.of_nat ip) (mypid s));;
  i ← iat ip;
  when (valid i && (nlink i =? 0))
    (acquire_ic;;
     i ← iat ip;
     release_ic;;
     when (ref i =? 1)
       (itrunc ip;;
        imod ip (fun i => i <| mode := 0 |>);;
        iupdate ip;;
        imod ip (fun i => i <| valid := false |>)));;
  on_ilock ip releasesleep;;
  acquire_ic;;
  imod ip (fun i => i <| ref := i32 (ref i - 1) |>);;
  release_ic.

Definition iunlockput (p : option nat) : M (fsys C) unit :=
  iunlock p;;
  match p with Some ip => iput ip | None => fault "iput" end.

Definition stati (ip : nat) : M (fsys C) stat :=
  i ← iat ip;
  mret (Stat (idev i) (inum i) (mode i) (lmtime i) (ctime i) (nlink i) (isize i) (iuid i) (igid i)).

(** [d] with [src] written at [o]. *)
Definition splice (d : blk) (o : Z) (src : list Z) : blk :=
  take (Z.to_nat o) d ++ src ++ drop (Z.to_nat o + length src) d.

(** The loop of [readi]: the bytes it copies to dst, in order. *)
Fixpoint readi_loop (fuel : nat) (ip : nat) (off n tot : Z) : M (fsys C) (list Z) :=
  match fuel with
  | O => fault "readi"
  | S fuel' =>
      if tot <? n then
        i ← iat ip;
        b ← bmap ip (off / BSIZE);
        bp ← buffer_read (idev i) b;
        let m := Z.min (n - tot) (BSIZE - off mod BSIZE) in
        d ← data bp;
        let part := take (Z.to_nat m) (drop (Z.to_nat (off mod BSIZE)) d) in
        buffer_release bp;;
        rest ← readi_loop fuel' ip (off + m) n (tot + m);
        mret (part ++ rest)
      else mret []
  end.

Definition is_dev (mode : Z) : bool :=
  (Z.land mode S_IFMT =? S_IFCHR) || (Z.land mode S_IFMT =? S_IFBLK).

(** The return value and the bytes stored at dst. *)
Definition readi (ip : nat) (off n : Z) : M (fsys C) (Z * list Z) :=
  i ← iat ip;
  if is_dev (mode i) then
    if (major i <? 0) || (NDEV <=? major i) then mret (- ENXIO, [])
    else match dread (devsw (major i)) with
         | None => mret (- ENXIO, [])
         | Some rd => rd (minor i) ip (i32 n) off
         end
  else if (isize i <? off) || (u32 (off + n) <? off) then mret (-1, [])
  else
    let n := if isize i <? u32 (off + n) then isize i - off else n in
    bytes ← readi_loop (Z.to_nat (n / BSIZE) + 3) ip off n 0;
    mret (i32 n, bytes).

Fixpoint writei_loop (fuel : nat) (ip : nat) (src : list Z) (off n tot : Z) : M (fsys C) Z :=
  match fuel with
  | O => fault "writei"
  | S fuel' =>
      if tot <? n then
        i ← iat ip;
        b ← bmap ip (off / BSIZE);
        bp ← buffer_read (idev i) b;
        let m := Z.min (n - tot) (BSIZE - off mod BSIZE) in
        d ← data bp;
        let part := take (Z.to_nat m) (drop (Z.to_nat tot) src) in
        if Z.of_nat (length part) <? m then fault "src"
        else
          set_data bp (splice d (off mod BSIZE) part);;
          log_write bp;;
          buffer_release bp;;
          writei_loop fuel' ip src (off + m) n (tot + m)
      else mret off
  end.

Definition writei (ip : nat) (src : list Z) (off n : Z) : M (fsys C) Z :=
  i ← iat ip;
  if nz (Z.land (mode i) S_IFCHR) then
    if (major i <? 0) || (NDEV <=? major i) then mret (-1)
    else match dwrite (devsw (major i)) with
         | None => mret (-1)
         | Some wr => wr (minor i) ip src (i32 n) off
         end
  else if (isize i <? off) || (u32 (off + n) <? off) then mret (-1)
  else if MAXFILE * BSIZE <? u32 (off + n) then mret (-1)
  else
    off ← writei_loop (Z.to_nat (n / BSIZE) + 3) ip src off n 0;
    i ← iat ip;
    when ((0 <? n) && (isize i <? off))
      (imod ip (fun i => i <| isize := off |>);;
       t ← epoch_mktime;
       imod ip (fun i => i <| ctime := t |>);;
       t ← epoch_mktime;
       imod ip (fun i => i <| lmtime := t |>);;
       iupdate ip);;
    mret (i32 n).

(** ** Directories *)

(** strncmp and strncpy of string.c, with the first string placed at address 0
    and the second at DIRSIZ; neither looks further than DIRSIZ bytes. *)
Definition two_strings (s t : list Z) : mem :=
  fun x => if x <? DIRSIZ then get8 s x else get8 t (x - DIRSIZ).
Definition namecmp (s t : list Z) : Z := strncmp (two_strings s t) 0 DIRSIZ (Z.to_nat DIRSIZ).
Definition name_copy (dst src : list Z) : list Z :=
  map (fun k => strncpy (two_strings dst src) 0 DIRSIZ (Z.to_nat DIRSIZ) (Z.of_nat k)) (seq 0 (Z.to_nat DIRSIZ)).

Definition d_ino (de : list Z) : Z := get16 de 0.
Definition d_name (de : list Z) : list Z := take (Z.to_nat DIRSIZ) (drop (Z.to_nat D_NAME) de).

Fixpoint dirlookup_from (fuel : nat) (dp : nat) (name : list Z) (off : Z) : M (fsys C) (option (nat * Z)) :=
  match fuel with
  | O => fault "dirlookup"
  | S fuel' =>
      i ← iat dp;
      if off <? isize i then
        r ← readi dp off DIRENT;
        let '(n, de) := r in
        if negb (n =? DIRENT) then panic "dirlookup read"
        else if d_ino de =? 0 then dirlookup_from fuel' dp name (u32 (off + DIRENT))
        else if namecmp name (d_name de) =? 0 then
          ip ← iget (idev i) (d_ino de);
          mret (Some (ip, off))
        else dirlookup_from fuel' dp name (u32 (off + DIRENT))
      else mret None
  end.

(** The inode found and the offset *poff of its entry. *)
Definition dirlookup (dp : nat) (name : list Z) : M (fsys C) (option (nat * Z)) :=
  i ← iat dp;
  if negb (Z.land (mode i) S_IFMT =? S_IFDIR) then panic "dirlookup not DIR"
  else dirlookup_from (Z.to_nat (isize i / DIRENT) + 2) dp name 0.

(** The search of [dirlink] for an empty entry: the offset it stops at and the
    last entry it read into [de]. *)
Fixpoint dirlink_slot (fuel : nat) (dp : nat) (de : list Z) (off : Z) : M (fsys C) (Z * list Z) :=
  match fuel with
  | O => fault "dirlink"
  | S fuel' =>
      i ← iat dp;
      if off <? isize i then
        r ← readi dp off DIRENT;
        let '(n, de) := r in
        if negb (n =? DIRENT) then panic "dirlink read"
        else if d_ino de =? 0 then mret (off, de)
        else dirlink_slot fuel' dp de (i32 (off + DIRENT))
      else mret (off, de)
  end.

(** [de0] is what the stack holds in the uninitialised variable [de]. *)
Definition dirlink (dp : nat) (name : list Z) (i : Z) (de0 : list Z) : M (fsys C) Z :=
  found ← dirlookup dp name;
  match found with
  | Some (ip, _) => iput ip;; mret (-1)
  | None =>
      d ← iat dp;
      r ← dirlink_slot (Z.to_nat (isize d / DIRENT) + 2) dp de0 0;
      let '(off, de) := r in
      let de := splice de D_NAME (name_copy (d_name de) name) in
      let de := put16 de 0 i in
      n ← writei dp de (u32 off) DIRENT;
      if negb (n =? DIRENT) then panic "dirlink" else mret 0
  end.

(** ** Paths *)

Definition slash : Z := 47.

(** Skipping slashes; a path is its bytes before the NUL. *)
Fixpoint skip_slashes (path : list Z) : list Z :=
  match path with c :: p => if c =? slash then skip_slashes p else path | [] => [] end.

(** The element up to the next slash, and what follows it. *)
Fixpoint elem (path : list Z) : list Z * list Z :=
  match path with
  | [] => ([], [])
  | c :: p => if c =? slash then ([], path) else let '(e, r) := elem p in (c :: e, r)
  end.

(** The rest of the path and the DIRSIZ bytes of the caller's name buffer. *)
Definition skipelem (path name : list Z) : option (list Z * list Z) :=
  match skip_slashes path with
  | [] => None
  | path =>
      let '(e, rest) := elem path in
      let len := Z.of_nat (length e) in
      let name := if DIRSIZ <=? len then splice name 0 (take (Z.to_nat DIRSIZ) e)
                  else splice (splice name 0 e) len [0] in
      Some (skip_slashes rest, name)
  end.

Fixpoint namex_loop (fuel : nat) (ip : nat) (path : list Z) (parent : bool) (name : list Z)
    : M (fsys C) (option nat * list Z) :=
  match fuel with
  | O => fault "namex"
  | S fuel' =>
      match skipelem path name with
      | None =>
          if parent then iput ip;; mret (None, name) else mret (Some ip, name)
      | Some (path, name) =>
          ilock (Some ip);;
          i ← iat ip;
          if negb (Z.land (mode i) S_IFMT =? S_IFDIR) then
            iunlockput (Some ip);; mret (None, name)
          else if parent && (match path with [] => true | _ => false end) then
            iunlock (Some ip);; mret (Some ip, name)
          else
            next ← dirlookup ip name;
            match next with
            | None => iunlockput (Some ip);; mret (None, name)
            | Some (next, _) => iunlockput (Some ip);; namex_loop fuel' next path parent name
            end
      end
  end.

Definition namex (path : list Z) (parent : bool) (name : list Z) : M (fsys C) (option nat * list Z) :=
  ip ← (match path with
        | c :: _ => if c =? slash then iget ROOTDEV ROOTINO else s ← get; idup (cwd s)
        | [] => s ← get; idup (cwd s)
        end);
  namex_loop (S (length path)) ip path parent name.

(** [stack] is what the uninitialised name buffer of [namei] holds. *)
Definition namei (path stack : list Z) : M (fsys C) (option nat) :=
  r ← namex path false stack; mret r.1.
Definition nameiparent (path name : list Z) : M (fsys C) (option nat * list Z) := namex path true name.
End fs.
Arguments Devops {C}. Arguments dread {C}. Arguments dwrite {C}.
