(* ===== verification/FsView.v ===== *)
(** * What the log promises to the file system

    Inside a transaction the file system sees one copy of every block: its latest
    contents.  [vrep] relates the state of log.c and bio.c to that view; the
    lemmas give the effect on it of the calls fs.c makes.  A transaction may log
    [TXCAP] blocks and hold three buffers at a time, which the NBUF buffers of
    the cache and the LOGSIZE blocks of the log leave room for. *)
From Stdlib Require Import ZArith Lia.
From stdpp Require Import base numbers list gmap strings.
From S2P Require Import Prelude Block Log LogThm Locks Fs.
Local Open Scope Z_scope.

Definition TXCAP : nat := 27.

(** Latest contents, buffers held, blocks logged, blocks changed but not logged. *)
Record view := View { vcur : Z -> blk; vheld : gmap nat Z; vlogged : gset Z; vdirty : gset Z; vlog : Z }.
#[export] Instance view_fields : Fields view := fun v =>
  View (vcur v) (vheld v) (vlogged v) (vdirty v) (vlog v).

Definition budget (v : view) : nat := TXCAP - size (vlogged v).
Definition not_held (v : view) (b : Z) : Prop := forall h, vheld v !! h <> Some b.

Section view.
Context {C : Type} `{HBC : BufCache C} {HL : BufCacheLaws C}.

Record vrep (l : log C) (v : view) : Prop := Vrep {
  vr_txn : exists c bs, txn l c bs /\ ccur c = vcur v /\ cheld c = vheld v /\ cpin c = vlogged v
    /\ forall b, b ∉ vdirty v -> b ∈ cpin c \/ ccur c b = cdisk c b;
  vr_cap : (size (vlogged v) <= TXCAP)%nat;
  vr_out : 1 <= outstanding l;
  vr_size : lsize l = LOGSIZE;
  vr_start : start l = vlog v
}.

Lemma not_held_blocks v c b : cheld c = vheld v -> not_held v b -> b ∉ held_blocks c.
Proof.
  intros E Hn Hb. unfold held_blocks in Hb. rewrite elem_of_list_to_set, list_elem_of_fmap in Hb.
  destruct Hb as ([h x] & -> & Hx). apply elem_of_map_to_list in Hx. rewrite E in Hx. exact (Hn h Hx).
Qed.

Lemma size_held c : (size (held_blocks c) <= size (cheld c))%nat.
Proof.
  unfold held_blocks. rewrite <-length_map_to_list. generalize (map_to_list (cheld c)). intros l.
  induction l as [|x l IH]; [reflexivity|]. cbn [fmap list_fmap list_to_set length].
  pose proof (size_union_alt ({[x.2]} : gset Z) (list_to_set l.*2)) as E.
  pose proof (subseteq_size (list_to_set l.*2 ∖ {[x.2]} : gset Z) (list_to_set l.*2) ltac:(set_solver)).
  rewrite size_singleton in E. etransitivity; [apply Nat.eq_le_incl, E|]. lia.
Qed.

Lemma size_union_le (X Y : gset Z) : (size (X ∪ Y) <= size X + size Y)%nat.
Proof. rewrite size_union_alt. pose proof (subseteq_size (Y ∖ X) Y ltac:(set_solver)). lia. Qed.

Lemma view_room v c b :
  cheld c = vheld v -> cpin c = vlogged v -> (size (vheld v) <= 2)%nat -> (size (vlogged v) <= TXCAP)%nat -> room c b.
Proof.
  intros E1 E2 H1 H2. unfold room. pose proof (size_held c). rewrite E1 in *.
  pose proof (size_union_le ({[b]} ∪ held_blocks c) (cpin c)). pose proof (size_union_le {[b]} (held_blocks c)).
  rewrite size_singleton, E2 in *. unfold TXCAP, NBUF in *. lia.
Qed.

Lemma vread_Ok l v b :
  vrep l v -> not_held v b -> (size (vheld v) <= 2)%nat -> 0 <= b < 50000 ->
  exists h l', onbc (bread ROOTDEV b) l = Ok h l' /\ vheld v !! h = None
    /\ vrep l' (v <| vheld := <[h := b]> (vheld v) |>).
Proof.
  intros [(c & bs & HT & E1 & E2 & E3 & Hd) Hcap Ho Hs Hst] Hn Hsz Hb.
  destruct (bread_ok (bc l) c b (tx_rep _ _ _ HT)) as (h & s' & E & Hf & R); [| |exact Hb|].
  { apply (not_held_blocks v); assumption. }
  { apply (view_room v); assumption. }
  exists h, (l <| bc := s' |>). split; [unfold onbc; rewrite E; reflexivity|]. split; [rewrite <-E2; exact Hf|].
  split; try assumption. exists (c <| cheld := <[h := b]> (cheld c) |>), bs.
  split; [destruct HT; split; assumption|]. split_and!; try assumption.
  change (<[h := b]> (cheld c) = <[h := b]> (vheld v)). rewrite E2. reflexivity.
Qed.

Lemma vdata_Ok l v h b : vrep l v -> vheld v !! h = Some b -> onbc (bdata h) l = Ok (vcur v b) l.
Proof.
  intros [(c & bs & HT & E1 & E2 & _) _ _ _ _] Hh. unfold onbc. rewrite <-E2 in Hh.
  rewrite (bdata_ok (bc l) c h b (tx_rep _ _ _ HT) Hh), E1. destruct l; reflexivity.
Qed.

Lemma vrep_len l v b : vrep l v -> Z.of_nat (length (vcur v b)) = BSIZE.
Proof. intros [(c & bs & HT & <- & _) _ _ _ _]. exact (crep_size _ _ b (tx_rep _ _ _ HT)). Qed.

Lemma vstore_Ok l v h b d :
  vrep l v -> vheld v !! h = Some b -> Z.of_nat (length d) = BSIZE ->
  exists l', onbc (bstore h d) l = Ok tt l'
    /\ vrep l' (v <| vcur := bupd (vcur v) b d |> <| vdirty := {[b]} ∪ vdirty v |>).
Proof.
  intros [(c & bs & HT & E1 & E2 & E3 & Hd) Hcap Ho Hs Hst] Hh Hlen. rewrite <-E2 in Hh.
  destruct (bstore_ok (bc l) c h b d (tx_rep _ _ _ HT) Hh Hlen) as (s' & E & R).
  exists (l <| bc := s' |>). split; [unfold onbc; rewrite E; reflexivity|]. split; try assumption.
  exists (c <| ccur := bupd (ccur c) b d |>), bs. split; [destruct HT; split; assumption|].
  split_and!; try assumption.
  - change (bupd (ccur c) b d = bupd (vcur v) b d). rewrite E1. reflexivity.
  - intros x Hx. change (x ∈ cpin c \/ bupd (ccur c) b d x = cdisk c x). change (x ∉ {[b]} ∪ vdirty v) in Hx.
    rewrite bupd_ne by set_solver. apply Hd. set_solver.
Qed.

Lemma vlog_Ok l v h b :
  vrep l v -> vheld v !! h = Some b -> 2 <= b < 50000 -> home (vlog v) b ->
  b ∈ vlogged v \/ (0 < budget v)%nat ->
  exists l', Log.log_write h l = Ok tt l'
    /\ vrep l' (v <| vlogged := {[b]} ∪ vlogged v |> <| vdirty := vdirty v ∖ {[b]} |>).
Proof.
  intros [(c & bs & HT & E1 & E2 & E3 & Hd) Hcap Ho Hs Hst] Hh Hb Hhome Hbud. rewrite <-E2 in Hh. rewrite <-Hst in Hhome.
  assert (length bs = size (vlogged v)) as Hlen.
  { rewrite <-E3. replace (cpin c) with (list_to_set bs : gset Z); [symmetry; apply size_list_to_set, (pl_nodup _ _ (tx_placed _ _ _ HT))|].
    apply set_eq. intros x. rewrite elem_of_list_to_set, (tx_pin _ _ _ HT). reflexivity. }
  unfold budget, TXCAP in *.
  destruct (log_write_Ok l c bs h b HT Hh Hb Hhome) as (l' & s' & E & _ & HT' & F1 & F2 & F3 & F4);
    [rewrite (tx_n _ _ _ HT); unfold LOGSIZE, MAXOPBLOCKS; lia | rewrite (tx_n _ _ _ HT), Hs; unfold LOGSIZE, MAXOPBLOCKS; lia | exact Ho|].
  exists l'. split; [exact E|]. split.
  - eexists _, _. split; [exact HT'|]. split_and!; try assumption.
    + change ({[b]} ∪ cpin c = {[b]} ∪ vlogged v). rewrite E3. reflexivity.
    + intros x Hx. change (x ∉ vdirty v ∖ {[b]}) in Hx. change (x ∈ {[b]} ∪ cpin c \/ ccur c x = cdisk c x).
      destruct (decide (x = b)) as [->|]; [left; set_solver|]. destruct (Hd x); [set_solver | left; set_solver | auto].
  - change (size ({[b]} ∪ vlogged v) <= 27)%nat. destruct Hbud as [Hin | Hbud].
    + replace ({[b]} ∪ vlogged v) with (vlogged v) by set_solver. exact Hcap.
    + pose proof (size_union_le {[b]} (vlogged v)). rewrite size_singleton in *. lia.
  - rewrite F3. exact Ho.
  - rewrite F2. exact Hs.
  - rewrite F1. exact Hst.
Qed.

Lemma vrelse_Ok l v h b :
  vrep l v -> vheld v !! h = Some b -> b ∉ vdirty v ->
  exists l', onbc (brelse h) l = Ok tt l' /\ vrep l' (v <| vheld := delete h (vheld v) |>).
Proof.
  intros [(c & bs & HT & E1 & E2 & E3 & Hd) Hcap Ho Hs Hst] Hh Hnd. rewrite <-E2 in Hh.
  destruct (brelse_ok (bc l) c h b (tx_rep _ _ _ HT) Hh (Hd b Hnd)) as (s' & E & R).
  exists (l <| bc := s' |>). split; [unfold onbc; rewrite E; reflexivity|]. split; try assumption.
  exists (c <| cheld := delete h (cheld c) |>), bs. split; [destruct HT; split; assumption|].
  split_and!; try assumption. change (delete h (cheld c) = delete h (vheld v)). rewrite E2. reflexivity.
Qed.
End view.
