(* ===== verification/FsThm.v ===== *)
(** * Correctness of the file system

    Total-correctness lemmas for the operations of Fs.v inside a transaction, and
    the theorems that follow: block allocation, inode round trips, file contents. *)
From Stdlib Require Import ZArith Lia.
From stdpp Require Import base numbers list list_numbers gmap strings.
From S2P Require Import Prelude Block Log LogThm Locks Fs FsView.
Local Open Scope Z_scope.

Abbreviation zeroes := (replicate (Z.to_nat BSIZE) 0).

Section fs_thm.
Context {C : Type} `{HBC : BufCache C} {HL : BufCacheLaws C}.

(** Between operations: the superblock [SB], the log at [LS], the clock, the
    process and its directory do not change; icache.lock is free. *)
Context (SB : superblock) (LS CK PID : Z) (CWD : nat).

Definition F (l : log C) (ins : list inode) : fsys C := Fsys l false ins SB CK PID CWD.
Definition sees (l : log C) (cur : Z -> blk) (held : gmap nat Z) (lgd : gset Z) : Prop :=
  vrep l (View cur held lgd ∅ LS).

Definition free_of (held : gmap nat Z) (b : Z) : Prop := forall h, held !! h <> Some b.
Definition loggable (lgd : gset Z) (b : Z) : Prop :=
  2 <= b < 50000 /\ home LS b /\ (b ∈ lgd \/ (size lgd < TXCAP)%nat).

Section calls.
Context {A : Type} (l : log C) (ins : list inode) (cur : Z -> blk) (held : gmap nat Z) (lgd : gset Z).
Context (Q : A -> fsys C -> Prop).

Lemma read_runs b (k : nat -> M (fsys C) A) :
  sees l cur held lgd -> free_of held b -> (size held <= 2)%nat -> 0 <= b < 50000 ->
  (forall h l', held !! h = None -> sees l' cur (<[h := b]> held) lgd -> runs (k h) (F l' ins) Q) ->
  runs (bp ← buffer_read ROOTDEV b; k bp) (F l ins) Q.
Proof.
  intros HS Hf Hsz Hb HK. destruct (vread_Ok l _ b HS Hf Hsz Hb) as (h & l' & E & Hn & HS').
  apply (runs_step _ _ _ h (F l' ins)); [|exact (HK h l' Hn HS')].
  unfold buffer_read, onlog. cbn [lg F]. rewrite E. reflexivity.
Qed.

Lemma data_runs h b (k : blk -> M (fsys C) A) :
  sees l cur held lgd -> held !! h = Some b -> runs (k (cur b)) (F l ins) Q ->
  runs (d ← data h; k d) (F l ins) Q.
Proof.
  intros HS Hh HK. apply (runs_step _ _ _ (cur b) (F l ins)); [|exact HK].
  unfold data, onlog. cbn [lg F]. rewrite (vdata_Ok l _ h b HS Hh). reflexivity.
Qed.

Lemma release_runs h b (k : unit -> M (fsys C) A) :
  sees l cur (<[h := b]> held) lgd -> held !! h = None ->
  (forall l', sees l' cur held lgd -> runs (k tt) (F l' ins) Q) ->
  runs (buffer_release h ≫= k) (F l ins) Q.
Proof.
  intros HS Hn HK. destruct (vrelse_Ok l _ h b HS) as (l' & E & HS'); [apply lookup_insert_eq | cbn; set_solver|].
  apply (runs_step _ _ _ tt (F l' ins)).
  - unfold buffer_release, onlog. cbn [lg F]. rewrite E. reflexivity.
  - apply HK. unfold sees. revert HS'. cbn [assign vcur vheld vlogged vdirty vlog].
    rewrite delete_insert_id by exact Hn. auto.
Qed.

(** Change a held block and log it; the block stays held. *)
Lemma store_runs h b x (k : unit -> M (fsys C) A) :
  sees l cur held lgd -> held !! h = Some b -> Z.of_nat (length x) = BSIZE -> loggable lgd b ->
  (forall l', sees l' (bupd cur b x) held ({[b]} ∪ lgd) -> runs (k tt) (F l' ins) Q) ->
  runs (set_data h x;; log_write h ≫= k) (F l ins) Q.
Proof.
  intros HS Hh Hx (Hb & Hhome & Hbud) HK.
  destruct (vstore_Ok l _ h b x HS Hh Hx) as (l1 & E1 & HS1).
  destruct (vlog_Ok l1 _ h b HS1 Hh Hb Hhome) as (l2 & E2 & HS2).
  { destruct Hbud; [left; assumption | right; unfold budget; cbn [vlogged assign]; lia]. }
  apply (runs_step _ _ _ tt (F l1 ins)).
  { unfold set_data, onlog. cbn [lg F]. rewrite E1. reflexivity. }
  apply (runs_step _ _ _ tt (F l2 ins)).
  { unfold log_write, onlog. cbn [lg F]. rewrite E2. reflexivity. }
  apply HK. unfold sees. revert HS2. cbn [assign vcur vheld vlogged vdirty vlog].
  replace (({[b]} ∪ ∅) ∖ {[b]} : gset Z) with (∅ : gset Z) by set_solver. auto.
Qed.
End calls.

Lemma sees_len l cur held lgd b : sees l cur held lgd -> Z.of_nat (length (cur b)) = BSIZE.
Proof. intros HS. exact (vrep_len l _ b HS). Qed.

Lemma sees_cap l cur held lgd : sees l cur held lgd -> (size lgd <= TXCAP)%nat.
Proof. intros HS. exact (vr_cap _ _ HS). Qed.

(** A program in tail position. *)
Lemma runs_last {A} (m : M (fsys C) A) s Q : runs (m ≫= mret) s Q -> runs m s Q.
Proof. intros (a & s' & E & HQ). exists a, s'. rewrite bind_ret_r in E. split; assumption. Qed.

Lemma runs_assoc {A B D} (m : M (fsys C) A) (k : A -> M (fsys C) B) (k2 : B -> M (fsys C) D) s Q :
  runs (m ≫= fun a => k a ≫= k2) s Q -> runs ((m ≫= k) ≫= k2) s Q.
Proof. intros (a & s' & E & HQ). exists a, s'. rewrite bind_assoc. split; assumption. Qed.

(** ** Bitmaps *)

Lemma bit_mask_testbit bi i : 0 <= i -> Z.testbit (bit_mask bi) i = (i =? bi mod 8).
Proof.
  intros Hi. unfold bit_mask. pose proof (Z.mod_pos_bound bi 8 ltac:(lia)).
  rewrite Z.shiftl_1_l, Z.pow2_bits_eqb by lia. apply Z.eqb_sym.
Qed.

Lemma bit_set_testbit d bi : bit_set d bi = Z.testbit (get8 d (bi / 8)) (bi mod 8).
Proof.
  unfold bit_set, nz. pose proof (Z.mod_pos_bound bi 8 ltac:(lia)).
  destruct (Z.testbit (get8 d (bi / 8)) (bi mod 8)) eqn:E.
  - destruct (Z.eqb_spec (Z.land (get8 d (bi / 8)) (bit_mask bi)) 0) as [E0|]; [|reflexivity]. exfalso.
    assert (Z.testbit (Z.land (get8 d (bi / 8)) (bit_mask bi)) (bi mod 8) = true) as Ht.
    { rewrite Z.land_spec, E, bit_mask_testbit by lia. rewrite Z.eqb_refl. reflexivity. }
    rewrite E0, Z.bits_0 in Ht. discriminate.
  - replace (Z.land (get8 d (bi / 8)) (bit_mask bi)) with 0; [reflexivity|]. symmetry.
    apply Z.bits_inj'. intros i Hi. rewrite Z.land_spec, bit_mask_testbit, Z.bits_0 by lia.
    destruct (Z.eqb_spec i (bi mod 8)) as [-> |]; [rewrite E; reflexivity | apply andb_false_r].
Qed.

(** Bytes of a block agree on the other bits. *)
Lemma put_bit d bi bj v :
  0 <= bi < BPB -> 0 <= bj -> Z.of_nat (length d) = BSIZE ->
  bit_set (put8 d (bi / 8) v) bj =
    if bi / 8 =? bj / 8 then Z.testbit v (bj mod 8) else bit_set d bj.
Proof.
  unfold BPB, BSIZE. intros Hi Hj Hd. rewrite !bit_set_testbit.
  pose proof (Z.mod_pos_bound bj 8 ltac:(lia)).
  assert (0 <= bi / 8 < 2048) by (split; [apply Z.div_pos; lia | apply Z.div_lt_upper_bound; lia]).
  assert (0 <= bj / 8) by (apply Z.div_pos; lia).
  destruct (Z.eqb_spec (bi / 8) (bj / 8)) as [E | Hne].
  - rewrite E in *. rewrite get8_put8 by lia. rewrite uwrap_testbit by lia.
    rewrite (proj2 (Z.ltb_lt _ _)) by lia. reflexivity.
  - rewrite get8_put8_ne by lia. reflexivity.
Qed.

Lemma same_bit bi bj : bi / 8 = bj / 8 -> (bj mod 8 =? bi mod 8) = (bi =? bj).
Proof.
  intros E. pose proof (Z.div_mod bi 8 ltac:(lia)). pose proof (Z.div_mod bj 8 ltac:(lia)).
  destruct (Z.eqb_spec (bj mod 8) (bi mod 8)), (Z.eqb_spec bi bj); try reflexivity; subst; lia.
Qed.

Lemma bit_set_set d bi bj :
  0 <= bi < BPB -> 0 <= bj -> Z.of_nat (length d) = BSIZE ->
  bit_set (set_bit d bi) bj = (bi =? bj) || bit_set d bj.
Proof.
  intros Hi Hj Hd. unfold set_bit. rewrite put_bit by assumption. pose proof (Z.mod_pos_bound bj 8 ltac:(lia)).
  destruct (Z.eqb_spec (bi / 8) (bj / 8)) as [E | Hne].
  - rewrite Z.lor_spec, bit_mask_testbit by lia. rewrite (bit_set_testbit d bj), E, same_bit by exact E. apply orb_comm.
  - destruct (Z.eqb_spec bi bj); [congruence | reflexivity].
Qed.

Lemma bit_set_clear d bi bj :
  0 <= bi < BPB -> 0 <= bj -> Z.of_nat (length d) = BSIZE ->
  bit_set (clear_bit d bi) bj = negb (bi =? bj) && bit_set d bj.
Proof.
  intros Hi Hj Hd. unfold clear_bit. rewrite put_bit by assumption. pose proof (Z.mod_pos_bound bj 8 ltac:(lia)).
  destruct (Z.eqb_spec (bi / 8) (bj / 8)) as [E | Hne].
  - rewrite Z.land_spec, Z.lnot_spec, bit_mask_testbit by lia.
    rewrite (bit_set_testbit d bj), E, same_bit by exact E. apply andb_comm.
  - destruct (Z.eqb_spec bi bj); [congruence | reflexivity].
Qed.

(** ** The block allocator *)

(** The regions of the disk, in the order mkfs lays them out: log, inodes,
    bitmap, data. *)
Definition datastart : Z := sb_bmapstart SB + sb_size SB / BPB + 1.
Record layout : Prop := Layout {
  lay_log : 2 <= LS /\ LS + LOGSIZE <= sb_inodestart SB;
  lay_inodes : 0 <= sb_ninodes SB /\ sb_ninodes SB / IPB + sb_inodestart SB < sb_bmapstart SB;
  lay_data : 0 <= sb_size SB /\ datastart <= sb_size SB <= 50000
}.

Definition used (cur : Z -> blk) (b : Z) : bool := bit_set (cur (BBLOCK b SB)) (b mod BPB).
Definition alloc_ok (cur : Z -> blk) : Prop := forall b, 0 <= b < datastart -> used cur b = true.
Definition first_free (cur : Z -> blk) (b : Z) : Prop :=
  0 <= b < sb_size SB /\ used cur b = false /\ forall b', 0 <= b' < b -> used cur b' = true.
Definition bitmap_block (b : Z) : Prop := sb_bmapstart SB <= b < datastart.

Lemma bblock_range b : layout -> 0 <= b < sb_size SB -> bitmap_block (BBLOCK b SB).
Proof.
  intros HL' Hb. unfold bitmap_block, BBLOCK, datastart.
  assert (0 <= b / BPB <= sb_size SB / BPB) by (unfold BPB, BSIZE; split; [apply Z.div_pos | apply Z.div_le_mono]; lia).
  lia.
Qed.

Lemma bitmap_loggable lgd b : layout -> bitmap_block b -> b ∈ lgd \/ (size lgd < TXCAP)%nat -> loggable lgd b.
Proof.
  intros [L1 L2 L3] [B1 B2] Hg. pose proof (eq_refl : LOGSIZE = 30).
  assert (0 <= sb_ninodes SB / IPB) by (apply Z.div_pos; [lia | unfold IPB, BSIZE, DINODE; vm_compute; reflexivity]).
  split; [lia|]. split; [unfold home; lia | exact Hg].
Qed.

Lemma data_loggable lgd b : layout -> datastart <= b < sb_size SB -> b ∈ lgd \/ (size lgd < TXCAP)%nat -> loggable lgd b.
Proof.
  intros [L1 L2 L3] Hb Hg. pose proof (eq_refl : LOGSIZE = 30).
  assert (0 <= sb_ninodes SB / IPB) by (apply Z.div_pos; [lia | unfold IPB, BSIZE, DINODE; vm_compute; reflexivity]).
  assert (0 <= sb_size SB / BPB) by (apply Z.div_pos; [lia | unfold BPB, BSIZE; lia]).
  unfold datastart in *. split; [lia|]. split; [unfold home; lia | exact Hg].
Qed.

Lemma find_free_Some k : forall d b bi size r,
  bi <= r < bi + Z.of_nat k -> b + r < size -> bit_set d r = false ->
  (forall j, bi <= j < r -> bit_set d j = true) -> find_free k d b bi size = Some r.
Proof.
  induction k as [|k IH]; intros d b bi size r Hr Hs Hf Hu; [lia|]. cbn [find_free].
  rewrite (proj2 (Z.ltb_lt _ _)) by lia. destruct (Z.eq_dec bi r) as [-> |].
  - rewrite Hf. reflexivity.
  - rewrite Hu by lia. apply IH; [lia | exact Hs | exact Hf|]. intros j Hj. apply Hu. lia.
Qed.

Lemma find_free_None k : forall d b bi size,
  (forall j, bi <= j < bi + Z.of_nat k -> b + j < size -> bit_set d j = true) -> find_free k d b bi size = None.
Proof.
  induction k as [|k IH]; intros d b bi size Hu; [reflexivity|]. cbn [find_free].
  destruct (Z.ltb_spec (b + bi) size); [|reflexivity]. rewrite Hu by lia. apply IH. intros j Hj Hs. apply Hu; lia.
Qed.

Lemma bpb_split q j : 0 <= j < BPB -> (BPB * q + j) / BPB = q /\ (BPB * q + j) mod BPB = j.
Proof.
  intros Hj. unfold BPB, BSIZE in *. split.
  - symmetry. apply (Z.div_unique _ _ _ j); lia.
  - symmetry. apply (Z.mod_unique _ _ q); lia.
Qed.

Definition balloc_cur (cur : Z -> blk) (b : Z) : Z -> blk :=
  bupd (bupd cur (BBLOCK b SB) (set_bit (cur (BBLOCK b SB)) (b mod BPB))) b zeroes.

Lemma length_set_bit d bi : length (set_bit d bi) = length d.
Proof. apply length_put8. Qed.
Lemma length_clear_bit d bi : length (clear_bit d bi) = length d.
Proof. apply length_put8. Qed.

Section balloc.
Context (l : log C) (ins : list inode) (cur : Z -> blk) (held : gmap nat Z) (lgd : gset Z).
Context (HS : sees l cur held lgd) (HLay : layout) (HA : alloc_ok cur) (Hsz : (size held <= 2)%nat).
Context (Hbm : forall b, bitmap_block b -> free_of held b).

Lemma bzero_runs b :
  free_of held b -> loggable lgd b ->
  runs (bzero ROOTDEV b) (F l ins) (fun _ s' => exists l', s' = F l' ins /\ sees l' (bupd cur b zeroes) held ({[b]} ∪ lgd)).
Proof.
  intros Hf Hg. unfold bzero. apply (read_runs l ins cur held lgd); [exact HS | exact Hf | exact Hsz | destruct Hg; lia|].
  intros h l1 Hn HS1. apply (store_runs l1 ins cur (<[h := b]> held) lgd _ h b);
    [exact HS1 | apply lookup_insert_eq | reflexivity | exact Hg|].
  intros l2 HS2. apply runs_last, (release_runs l2 ins _ held _ _ h b _ HS2 Hn).
  intros l3 HS3. apply runs_ret. eauto.
Qed.
End balloc.

Lemma balloc_from_runs ins cur held lgd fuel : forall q l b,
  sees l cur held lgd -> layout -> alloc_ok cur -> (size held <= 2)%nat -> (size lgd + 2 <= TXCAP)%nat ->
  (forall b, bitmap_block b -> free_of held b) -> first_free cur b -> free_of held b ->
  0 <= q <= b / BPB -> (Z.to_nat (b / BPB - q) < fuel)%nat ->
  runs (balloc_from fuel ROOTDEV (BPB * q)) (F l ins) (fun r s' => r = b /\ exists l', s' = F l' ins
    /\ sees l' (balloc_cur cur b) held ({[b]} ∪ ({[BBLOCK b SB]} ∪ lgd))).
Proof.
  induction fuel as [|fuel IH]; intros q l b HS HLay HA Hsz Hbud Hbm Hff Hfb Hq Hfuel; [lia|].
  destruct Hff as (Hb & Hfree & Hused). cbn [balloc_from]. apply (runs_step _ _ _ (F l ins) (F l ins)); [reflexivity|].
  change (sb (F l ins)) with SB.
  assert (BPB * (b / BPB) <= b < BPB * (b / BPB) + BPB) as Hdiv
    by (pose proof (Z.div_mod b BPB ltac:(unfold BPB, BSIZE; lia)); pose proof (Z.mod_pos_bound b BPB ltac:(unfold BPB, BSIZE; lia)); lia).
  assert (BPB * q <= BPB * (b / BPB)) by (apply Z.mul_le_mono_nonneg_l; [unfold BPB, BSIZE; lia | lia]).
  rewrite (proj2 (Z.ltb_lt _ _)) by lia.
  assert (forall j, 0 <= j < BPB -> used cur (BPB * q + j) = bit_set (cur (BBLOCK (BPB * q) SB)) j) as Hu.
  { intros j Hj. unfold used, BBLOCK. destruct (bpb_split q j Hj) as [-> ->].
    destruct (bpb_split q 0) as [E _]; [unfold BPB, BSIZE; lia|]. rewrite Z.add_0_r in E. rewrite E. reflexivity. }
  assert (0 <= BPB * q) by (unfold BPB, BSIZE; lia).
  assert (bitmap_block (BBLOCK (BPB * q) SB)) as Hbb by (apply bblock_range; [exact HLay | lia]).
  pose proof (bitmap_loggable lgd _ HLay Hbb) as Hlog1.
  apply (read_runs l ins cur held lgd); [exact HS | apply Hbm, Hbb | exact Hsz | destruct Hlog1; [right; lia | lia]|].
  intros h l1 Hn HS1. apply (data_runs l1 ins cur (<[h := BBLOCK (BPB * q) SB]> held) lgd _ h (BBLOCK (BPB * q) SB) _ HS1);
    [apply lookup_insert_eq|].
  destruct (Z.eq_dec q (b / BPB)) as [-> | Hne].
  - set (r := b - BPB * (b / BPB)). assert (b = BPB * (b / BPB) + r) as Eb by (unfold r; lia).
    assert (0 <= r < BPB) as Hr by lia.
    assert (b mod BPB = r) as Em by (pose proof (Z.div_mod b BPB ltac:(unfold BPB, BSIZE; lia)); lia).
    assert (BBLOCK (BPB * (b / BPB)) SB = BBLOCK b SB) as EB.
    { unfold BBLOCK. destruct (bpb_split (b / BPB) 0) as [E _]; [unfold BPB, BSIZE; lia|]. rewrite Z.add_0_r in E. rewrite E. reflexivity. }
    rewrite (find_free_Some _ _ _ _ _ r); [| |lia | rewrite <-Hu, <-Eb by exact Hr; exact Hfree |].
    2:{ change (Z.of_nat (Z.to_nat BPB)) with BPB. lia. }
    2:{ intros j Hj. rewrite <-Hu by lia. apply Hused. lia. }
    rewrite EB in *. rewrite <-Eb.
    apply (store_runs l1 ins cur (<[h := BBLOCK b SB]> held) lgd _ h (BBLOCK b SB));
      [exact HS1 | apply lookup_insert_eq | rewrite length_set_bit; exact (sees_len _ _ _ _ _ HS1) | apply Hlog1; right; lia|].
    intros l2 HS2. apply (release_runs l2 ins _ held _ _ h (BBLOCK b SB) _ HS2 Hn). intros l3 HS3.
    apply runs_bind. eapply runs_wand; [apply (bzero_runs l3 ins _ held _ HS3 Hsz b Hfb)|].
    + apply data_loggable; [exact HLay | | right].
      * split; [|lia]. destruct (Z.le_gt_cases datastart b); [assumption|]. rewrite HA in Hfree by lia. discriminate.
      * pose proof (size_union_le {[BBLOCK b SB]} lgd). rewrite size_singleton in *. lia.
    + intros [] s' (l4 & -> & HS4). apply runs_ret. split; [reflexivity|]. exists l4. split; [reflexivity|].
      unfold balloc_cur. rewrite Em. exact HS4.
  - rewrite find_free_None.
    2:{ change (Z.of_nat (Z.to_nat BPB)) with BPB. intros j Hj _. rewrite <-Hu by lia. apply Hused.
        assert (BPB * (q + 1) <= BPB * (b / BPB)) by (apply Z.mul_le_mono_nonneg_l; [unfold BPB, BSIZE; lia | lia]). lia. }
    apply (release_runs l1 ins _ held _ _ h _ _ HS1 Hn). intros l2 HS2.
    replace (BPB * q + BPB) with (BPB * (q + 1)) by lia. apply (IH (q + 1) l2 b); try assumption; try lia.
    split; [exact Hb | split; assumption].
Qed.

Lemma balloc_runs l ins cur held lgd b :
  sees l cur held lgd -> layout -> alloc_ok cur -> (size held <= 2)%nat -> (size lgd + 2 <= TXCAP)%nat ->
  (forall b, bitmap_block b -> free_of held b) -> first_free cur b -> free_of held b ->
  runs (balloc ROOTDEV) (F l ins) (fun r s' => r = b /\ exists l', s' = F l' ins
    /\ sees l' (balloc_cur cur b) held ({[b]} ∪ ({[BBLOCK b SB]} ∪ lgd))).
Proof.
  intros HS HLay HA Hsz Hbud Hbm Hff Hfb. unfold balloc. apply (runs_step _ _ _ (F l ins) (F l ins)); [reflexivity|].
  change (sb (F l ins)) with SB. replace 0 with (BPB * 0) by lia. apply balloc_from_runs; auto.
  - split; [lia|]. apply Z.div_pos; [apply Hff | unfold BPB, BSIZE; lia].
  - assert (b / BPB <= sb_size SB / BPB) by (apply Z.div_le_mono; [unfold BPB, BSIZE; lia | destruct Hff; lia]).
    lia.
Qed.

(** When every block is used, balloc panics. *)
Lemma balloc_from_full ins cur held lgd fuel : forall q l,
  sees l cur held lgd -> layout -> (size held <= 2)%nat -> (forall b, bitmap_block b -> free_of held b) ->
  (forall b, 0 <= b < sb_size SB -> used cur b = true) -> 0 <= q ->
  (Z.to_nat (sb_size SB / BPB + 1 - q) < fuel)%nat ->
  balloc_from fuel ROOTDEV (BPB * q) (F l ins) = Panic "balloc: out of blocks".
Proof.
  induction fuel as [|fuel IH]; intros q l HS HLay Hsz Hbm Hall Hq Hfuel; [lia|].
  cbn [balloc_from]. erewrite bind_step by reflexivity. change (sb (F l ins)) with SB.
  destruct (Z.ltb_spec (BPB * q) (sb_size SB)) as [Hlt | Hge]; [|reflexivity].
  assert (0 <= BPB * q) by (unfold BPB, BSIZE; lia).
  assert (bitmap_block (BBLOCK (BPB * q) SB)) as Hbb by (apply bblock_range; [exact HLay | lia]).
  destruct (bitmap_loggable {[BBLOCK (BPB * q) SB]} _ HLay Hbb) as (Hrange & _); [left; set_solver|].
  destruct (vread_Ok l _ _ HS (Hbm _ Hbb) Hsz) as (h & l1 & E1 & Hn & HS1); [lia|].
  erewrite bind_step; [|unfold buffer_read, onlog; cbn [lg F]; rewrite E1; reflexivity].
  erewrite bind_step; [|unfold data, onlog; cbn [lg F assign];
    rewrite (vdata_Ok l1 _ h _ HS1) by apply lookup_insert_eq; reflexivity].
  cbn [vcur assign]. rewrite find_free_None.
  - destruct (vrelse_Ok l1 _ h (BBLOCK (BPB * q) SB) HS1) as (l2 & E2 & HS2); [apply lookup_insert_eq | cbn; set_solver|].
    erewrite bind_step; [|unfold buffer_release, onlog; cbn [lg F assign]; rewrite E2; reflexivity].
    cbn [assign lg iclocked inodes sb clock mypid cwd F]. replace (BPB * q + BPB) with (BPB * (q + 1)) by lia.
    apply (IH (q + 1) l2); try assumption; try lia.
    + unfold sees. revert HS2. cbn [assign vcur vheld vlogged vdirty vlog]. rewrite delete_insert_id by exact Hn. auto.
    + assert (q <= sb_size SB / BPB) by (apply Z.div_le_lower_bound; [unfold BPB, BSIZE | ]; lia). lia.
  - change (Z.of_nat (Z.to_nat BPB)) with BPB. intros j Hj Hs. specialize (Hall (BPB * q + j) ltac:(lia)).
    unfold used, BBLOCK in *. destruct (bpb_split q j ltac:(lia)) as [E1' E2']. rewrite E1', E2' in Hall.
    destruct (bpb_split q 0) as [E _]; [unfold BPB, BSIZE; lia|]. rewrite Z.add_0_r in E. rewrite E. exact Hall.
Qed.

Lemma used_balloc cur b b' :
  layout -> (forall x, Z.of_nat (length (cur x)) = BSIZE) -> datastart <= b < sb_size SB -> 0 <= b' < sb_size SB ->
  used (balloc_cur cur b) b' = (b =? b') || used cur b'.
Proof.
  intros HLay Hlen Hb Hb'. pose proof (bblock_range b' HLay Hb') as [B1 B2].
  assert (0 <= b).
  { pose proof (lay_data HLay). pose proof (lay_inodes HLay). pose proof (lay_log HLay). pose proof (eq_refl : LOGSIZE = 30).
    assert (0 <= sb_ninodes SB / IPB) by (apply Z.div_pos; [lia | vm_compute; reflexivity]).
    assert (0 <= sb_size SB / BPB) by (apply Z.div_pos; [lia | unfold BPB, BSIZE; lia]). unfold datastart in *. lia. }
  unfold used, balloc_cur. rewrite bupd_ne by lia. unfold bupd.
  pose proof (Z.mod_pos_bound b BPB ltac:(unfold BPB, BSIZE; lia)). pose proof (Z.mod_pos_bound b' BPB ltac:(unfold BPB, BSIZE; lia)).
  pose proof (Z.div_mod b BPB ltac:(unfold BPB, BSIZE; lia)). pose proof (Z.div_mod b' BPB ltac:(unfold BPB, BSIZE; lia)).
  destruct (Z.eqb_spec (BBLOCK b' SB) (BBLOCK b SB)) as [E | Hne].
  - assert (b' / BPB = b / BPB) as E' by (unfold BBLOCK in E; lia). rewrite <-E.
    rewrite bit_set_set; [|lia | lia | apply Hlen]. f_equal.
    destruct (Z.eqb_spec (b mod BPB) (b' mod BPB)), (Z.eqb_spec b b'); try reflexivity; subst; congruence || (exfalso; rewrite E' in *; lia).
  - destruct (Z.eqb_spec b b') as [-> |]; [congruence|]. reflexivity.
Qed.

Definition bfree_cur (cur : Z -> blk) (b : Z) : Z -> blk :=
  bupd cur (BBLOCK b SB) (clear_bit (cur (BBLOCK b SB)) (b mod BPB)).

Lemma used_bfree cur b b' :
  (forall x, Z.of_nat (length (cur x)) = BSIZE) -> 0 <= b -> 0 <= b' ->
  used (bfree_cur cur b) b' = negb (b =? b') && used cur b'.
Proof.
  intros Hlen Hb Hb'. unfold used, bfree_cur, bupd.
  pose proof (Z.mod_pos_bound b BPB ltac:(unfold BPB, BSIZE; lia)). pose proof (Z.mod_pos_bound b' BPB ltac:(unfold BPB, BSIZE; lia)).
  pose proof (Z.div_mod b BPB ltac:(unfold BPB, BSIZE; lia)). pose proof (Z.div_mod b' BPB ltac:(unfold BPB, BSIZE; lia)).
  destruct (Z.eqb_spec (BBLOCK b' SB) (BBLOCK b SB)) as [E | Hne].
  - assert (b' / BPB = b / BPB) as E' by (unfold BBLOCK in E; lia). rewrite <-E.
    rewrite bit_set_clear; [|lia | lia | apply Hlen]. f_equal. f_equal.
    destruct (Z.eqb_spec (b mod BPB) (b' mod BPB)), (Z.eqb_spec b b'); try reflexivity; subst; congruence || (exfalso; rewrite E' in *; lia).
  - destruct (Z.eqb_spec b b') as [-> |]; [congruence|]. reflexivity.
Qed.

Lemma bfree_runs l ins cur held lgd b :
  sees l cur held lgd -> layout -> (size held <= 2)%nat -> 0 <= b < sb_size SB -> used cur b = true ->
  free_of held (BBLOCK b SB) -> BBLOCK b SB ∈ lgd \/ (size lgd < TXCAP)%nat ->
  runs (bfree ROOTDEV b) (F l ins) (fun _ s' => exists l', s' = F l' ins
    /\ sees l' (bfree_cur cur b) held ({[BBLOCK b SB]} ∪ lgd)).
Proof.
  intros HS HLay Hsz Hb Hu Hf Hg. unfold bfree. apply (runs_step _ _ _ (F l ins) (F l ins)); [reflexivity|].
  change (sb (F l ins)) with SB.
  pose proof (bitmap_loggable lgd _ HLay (bblock_range b HLay Hb) Hg) as Hlog.
  apply (read_runs l ins cur held lgd); [exact HS | exact Hf | exact Hsz | destruct Hlog; lia|].
  intros h l1 Hn HS1. apply (data_runs l1 ins cur (<[h := BBLOCK b SB]> held) lgd _ h (BBLOCK b SB) _ HS1); [apply lookup_insert_eq|].
  cbv zeta. unfold used in Hu. rewrite Hu.
  apply (store_runs l1 ins cur (<[h := BBLOCK b SB]> held) lgd _ h (BBLOCK b SB));
    [exact HS1 | apply lookup_insert_eq | rewrite length_clear_bit; exact (sees_len _ _ _ _ _ HS1) | exact Hlog|].
  intros l2 HS2. apply runs_last, (release_runs l2 ins _ held _ _ h _ _ HS2 Hn). intros l3 HS3. apply runs_ret. eauto.
Qed.

(** ** Inodes on disk *)

Lemma get8_put_blocks bs : forall d off off',
  0 <= off -> 0 <= off' -> off' < off \/ off + 4 * Z.of_nat (length bs) <= off' ->
  get8 (put_blocks d off bs) off' = get8 d off'.
Proof.
  induction bs as [|b bs IH]; intros d off off' H1 H2 H3; [reflexivity|]. cbn [put_blocks length] in *.
  rewrite IH by lia. apply get8_put32_ne; lia.
Qed.

(** Values the fields of an in-memory inode can have. *)
Record inode_ok (i : inode) : Prop := InodeOk {
  io_mode : in_s 16 (mode i); io_major : in_s 16 (major i); io_minor : in_s 16 (minor i); io_nlink : in_s 16 (nlink i);
  io_lmtime : in_u 32 (lmtime i); io_size : in_u 32 (isize i); io_uid : in_u 32 (iuid i); io_gid : in_u 32 (igid i);
  io_len : length (addrs i) = S NDIRECT; io_addrs : Forall (in_u 32) (addrs i)
}.

Lemma dip_range n : 0 <= n -> 0 <= dip n /\ dip n + DINODE <= BSIZE.
Proof.
  intros Hn. unfold dip. pose proof (Z.mod_pos_bound n IPB ltac:(vm_compute; reflexivity)) as Hm.
  unfold DINODE, BSIZE. change IPB with 25 in *. lia.
Qed.

Lemma i16_u16 z : in_s 16 z -> i16 (u16 z) = z.
Proof. intros Hz. rewrite swrap_uwrap. apply swrap_id; [reflexivity | exact Hz]. Qed.

Lemma get16_put_blocks d off off' bs :
  0 <= off -> 0 <= off' -> off' + 2 <= off \/ off + 4 * Z.of_nat (length bs) <= off' ->
  get16 (put_blocks d off bs) off' = get16 d off'.
Proof. intros. unfold get16. rewrite !get8_put_blocks by lia. reflexivity. Qed.

Lemma get32_put_blocks d off off' bs :
  0 <= off -> 0 <= off' -> off' + 4 <= off \/ off + 4 * Z.of_nat (length bs) <= off' ->
  get32 (put_blocks d off bs) off' = get32 d off'.
Proof. intros. unfold get32. rewrite !get16_put_blocks by lia. reflexivity. Qed.

(** Peel the writes of [store_inode] off a read. *)
Ltac peel :=
  repeat first
    [ rewrite get16_put_blocks by lia | rewrite get32_put_blocks by lia
    | rewrite get32_put32 by (autorewrite with blk; lia) | rewrite get16_put16 by (autorewrite with blk; lia)
    | rewrite get32_put32_ne by lia | rewrite get16_put16_ne by lia
    | rewrite get32_put16_ne by lia | rewrite get16_put32_ne by lia ].

Lemma length_store_inode d o i : length (store_inode d o i) = length d.
Proof. unfold store_inode. rewrite length_put_blocks. autorewrite with blk. reflexivity. Qed.

Lemma d_addrs_store d o i :
  inode_ok i -> 0 <= o -> o + DINODE <= Z.of_nat (length d) -> d_addrs (store_inode d o i) o = addrs i.
Proof.
  intros Hi Ho Hl. apply list_eq. intros k. unfold d_addrs. rewrite list_lookup_fmap.
  destruct (decide (k < S NDIRECT)%nat) as [Hk|Hk].
  - rewrite lookup_seq_lt by exact Hk. cbn [fmap option_fmap option_map].
    destruct (lookup_lt_is_Some_2 (addrs i) k ltac:(rewrite (io_len i Hi); exact Hk)) as [a Ha]. rewrite Ha. f_equal.
    unfold store_inode, DINODE in *. rewrite (put_blocks_get _ _ _ k a); [| lia | | exact Ha].
    + apply uwrap_id. exact (proj1 (Forall_lookup _ _) (io_addrs i Hi) k a Ha).
    + autorewrite with blk. rewrite (io_len i Hi). unfold NDIRECT. lia.
  - rewrite lookup_seq_ge, lookup_ge_None_2 by (rewrite ?(io_len i Hi); lia). reflexivity.
Qed.

(** What [ilock] loads after [iupdate] stored [i]: everything but ctime. *)
Lemma load_store d n i j :
  inode_ok i -> 0 <= n -> Z.of_nat (length d) = BSIZE ->
  load_inode (store_inode d (dip n) i) (dip n) j =
    i <| idev := idev j |> <| inum := inum j |> <| ref := ref j |> <| ilk := ilk j |> <| valid := valid j |>
      <| ctime := d_ctime d (dip n) |>.
Proof.
  intros Hi Hn Hd. destruct (dip_range n Hn) as [H1 H2]. rewrite <-Hd in H2. unfold DINODE in *.
  assert (length (addrs i) = 12%nat) as Hlen by (rewrite (io_len i Hi); reflexivity).
  pose proof (d_addrs_store d (dip n) i Hi H1 ltac:(unfold DINODE; lia)) as Ea.
  unfold load_inode. rewrite Ea. clear Ea.
  unfold store_inode, d_mode, d_lmtime, d_ctime, d_major, d_minor, d_nlink, d_size, d_uid, d_gid. peel.
  rewrite !i16_u16 by apply Hi. rewrite !(uwrap_id 32) by apply Hi.
  destruct i, j; reflexivity.
Qed.

(** The other inodes of the block are untouched. *)
Lemma store_inode_other d n n' i k :
  inode_ok i -> 0 <= n -> 0 <= n' -> n mod IPB <> n' mod IPB -> 0 <= k < DINODE ->
  get8 (store_inode d (dip n) i) (dip n' + k) = get8 d (dip n' + k).
Proof.
  intros Hi Hn Hn' Hne Hk. unfold dip, DINODE in *.
  pose proof (Z.mod_pos_bound n IPB ltac:(vm_compute; reflexivity)). pose proof (Z.mod_pos_bound n' IPB ltac:(vm_compute; reflexivity)).
  assert (length (addrs i) = 12%nat) as Hlen by (rewrite (io_len i Hi); reflexivity).
  unfold store_inode. rewrite get8_put_blocks by lia. rewrite !get8_put32_ne by lia.
  rewrite !get8_put16_ne by lia. rewrite get8_put32_ne by lia. apply get8_put16_ne; lia.
Qed.

Lemma iblock_loggable lgd n :
  layout -> 0 <= n < sb_ninodes SB -> IBLOCK n SB ∈ lgd \/ (size lgd < TXCAP)%nat -> loggable lgd (IBLOCK n SB).
Proof.
  intros [L1 L2 L3] Hn Hg. pose proof (eq_refl : LOGSIZE = 30).
  assert (0 <= n / IPB <= sb_ninodes SB / IPB).
  { split; [apply Z.div_pos; [lia | vm_compute; reflexivity] | apply Z.div_le_mono; [vm_compute; reflexivity | lia]]. }
  assert (0 <= sb_size SB / BPB) by (apply Z.div_pos; [lia | unfold BPB, BSIZE; lia]).
  unfold datastart, IBLOCK in *. split; [lia|]. split; [unfold home; lia | exact Hg].
Qed.

Definition iupdate_cur (cur : Z -> blk) (i : inode) : Z -> blk :=
  bupd cur (IBLOCK (inum i) SB) (store_inode (cur (IBLOCK (inum i) SB)) (dip (inum i)) i).

Lemma iupdate_runs l ins cur held lgd ip i :
  sees l cur held lgd -> (size held <= 2)%nat -> ins !! ip = Some i -> idev i = ROOTDEV ->
  free_of held (IBLOCK (inum i) SB) -> loggable lgd (IBLOCK (inum i) SB) ->
  runs (iupdate ip) (F l ins) (fun _ s' => exists l', s' = F l' ins
    /\ sees l' (iupdate_cur cur i) held ({[IBLOCK (inum i) SB]} ∪ lgd)).
Proof.
  intros HS Hsz Hi Hdev Hf Hg. unfold iupdate.
  apply (runs_step _ _ _ i (F l ins)); [unfold iat; mstep; cbn [inodes F]; rewrite Hi; reflexivity|].
  apply (runs_step _ _ _ (F l ins) (F l ins)); [reflexivity|]. change (sb (F l ins)) with SB. rewrite Hdev.
  set (b := IBLOCK (inum i) SB) in *.
  apply (read_runs l ins cur held lgd); [exact HS | exact Hf | exact Hsz | destruct Hg; lia|].
  intros h l1 Hn HS1. apply (data_runs l1 ins cur (<[h := b]> held) lgd _ h b _ HS1); [apply lookup_insert_eq|].
  apply (store_runs l1 ins cur (<[h := b]> held) lgd _ h b);
    [exact HS1 | apply lookup_insert_eq | rewrite length_store_inode; exact (sees_len _ _ _ _ _ HS1) | exact Hg|].
  intros l2 HS2. apply runs_last, (release_runs l2 ins _ held _ _ h _ _ HS2 Hn). intros l3 HS3. apply runs_ret. eauto.
Qed.

(** ** The inode cache *)

Section cache_calls.
Context {A : Type} (l : log C) (ins : list inode) (Q : A -> fsys C -> Prop).

Lemma iat_runs ip i (k : inode -> M (fsys C) A) :
  ins !! ip = Some i -> runs (k i) (F l ins) Q -> runs (i ← iat ip; k i) (F l ins) Q.
Proof.
  intros Hi HK. apply (runs_step _ _ _ i (F l ins)); [|exact HK]. unfold iat. mstep. cbn [inodes F]. rewrite Hi. reflexivity.
Qed.

Lemma imod_runs ip i f (k : unit -> M (fsys C) A) :
  ins !! ip = Some i -> runs (k tt) (F l (<[ip := f i]> ins)) Q -> runs (imod ip f ≫= k) (F l ins) Q.
Proof.
  intros Hi HK. apply (runs_step _ _ _ tt (F l (<[ip := f i]> ins))); [|exact HK].
  unfold imod. mstep. rewrite <-(alter_insert f ip ins i Hi). reflexivity.
Qed.

Lemma get_runs (k : fsys C -> M (fsys C) A) : runs (k (F l ins)) (F l ins) Q -> runs (get ≫= k) (F l ins) Q.
Proof. apply runs_step. reflexivity. Qed.

(** An operation on the lock of an inode that succeeds. *)
Lemma ilk_runs {B} ip i (m : M sleeplock B) b lk (k : B -> M (fsys C) A) :
  ins !! ip = Some i -> m (ilk i) = Ok b lk ->
  runs (k b) (F l (<[ip := i <| ilk := lk |>]> ins)) Q -> runs (on_ilock ip m ≫= k) (F l ins) Q.
Proof.
  intros Hi Hm HK. apply (runs_step _ _ _ b (F l (<[ip := i <| ilk := lk |>]> ins))); [|exact HK].
  unfold on_ilock, iat, imod. mstep. cbn [inodes F]. rewrite Hi, Hm.
  rewrite <-(alter_insert (fun i => i <| ilk := lk |>) ip ins i Hi). reflexivity.
Qed.
End cache_calls.

Definition locked_by_me (i : inode) : inode := i <| ilk := Sleeplock true PID |>.
Definition unlocked (i : inode) : inode := i <| ilk := Sleeplock false 0 |>.

(** The entry after [ilock]. *)
Definition ilock_result (cur : Z -> blk) (i : inode) : inode :=
  let i := locked_by_me i in
  if valid i then i else load_inode (cur (IBLOCK (inum i) SB)) (dip (inum i)) i <| valid := true |>.

Lemma ilock_runs l ins cur held lgd ip i :
  sees l cur held lgd -> (size held <= 2)%nat -> ins !! ip = Some i -> 1 <= ref i -> sl_locked (ilk i) = false ->
  (valid i = false -> idev i = ROOTDEV /\ free_of held (IBLOCK (inum i) SB) /\ 0 <= IBLOCK (inum i) SB < 50000
     /\ mode (ilock_result cur i) <> 0) ->
  runs (ilock (Some ip)) (F l ins) (fun _ s' => exists l', s' = F l' (<[ip := ilock_result cur i]> ins)
    /\ sees l' cur held lgd).
Proof.
  intros HS Hsz Hi Href Hlk Hv. unfold ilock. apply (iat_runs l ins _ ip i _ Hi).
  rewrite (proj2 (Z.ltb_ge _ _)) by lia. apply get_runs. change (mypid (F l ins)) with PID.
  assert (acquiresleep (Z.of_nat ip) PID (ilk i) = Ok tt (Sleeplock true PID)) as Ea
    by (unfold acquiresleep; mstep; rewrite Hlk; reflexivity).
  apply (ilk_runs l ins _ ip i _ tt (Sleeplock true PID) _ Hi Ea). fold (locked_by_me i).
  assert (is_Some (ins !! ip)) as Hin by eauto. apply lookup_lt_is_Some in Hin.
  set (ins1 := <[ip := locked_by_me i]> ins).
  assert (ins1 !! ip = Some (locked_by_me i)) as Hi1 by (apply list_lookup_insert_eq, Hin).
  apply (iat_runs l ins1 _ ip _ _ Hi1). unfold ilock_result. change (valid (locked_by_me i)) with (valid i) in *.
  destruct (valid i) eqn:Hvi; cbv zeta; [apply runs_ret; eauto|].
  destruct (Hv eq_refl) as (Hdev & Hf & Hr & Hm). apply get_runs. change (sb (F l ins1)) with SB.
  change (idev (locked_by_me i)) with (idev i). change (inum (locked_by_me i)) with (inum i). rewrite Hdev.
  apply (read_runs l ins1 cur held lgd); [exact HS | exact Hf | exact Hsz | exact Hr|].
  intros h l1 Hn HS1. apply (data_runs l1 ins1 cur (<[h := IBLOCK (inum i) SB]> held) lgd _ h (IBLOCK (inum i) SB) _ HS1); [apply lookup_insert_eq|].
  apply (imod_runs l1 ins1 _ ip _ _ _ Hi1). apply (release_runs l1 _ cur held lgd _ h _ _ HS1 Hn). intros l2 HS2.
  set (j := load_inode (cur (IBLOCK (inum i) SB)) (dip (inum i)) (locked_by_me i)).
  assert (<[ip := j]> ins1 !! ip = Some j) as Hj by (apply list_lookup_insert_eq; unfold ins1; rewrite length_insert; exact Hin).
  apply (imod_runs l2 _ _ ip _ _ _ Hj). rewrite list_insert_insert_eq.
  apply (iat_runs l2 _ _ ip (j <| valid := true |>)); [apply list_lookup_insert_eq; unfold ins1; rewrite length_insert; exact Hin|].
  unfold ilock_result in Hm. change (valid (locked_by_me i)) with (valid i) in Hm. rewrite Hvi in Hm. fold j in Hm.
  rewrite (proj2 (Z.eqb_neq _ _)) by exact Hm. apply runs_ret. exists l2. split; [|exact HS2].
  unfold ins1. rewrite list_insert_insert_eq. reflexivity.
Qed.

Lemma iunlock_runs l ins ip i :
  ins !! ip = Some i -> 1 <= ref i -> ilk i = Sleeplock true PID ->
  iunlock (Some ip) (F l ins) = Ok tt (F l (<[ip := unlocked i]> ins)).
Proof.
  intros Hi Href Hlk.
  assert (runs (iunlock (Some ip)) (F l ins) (fun _ s' => s' = F l (<[ip := unlocked i]> ins))) as ([] & s' & E & ->); [|exact E].
  unfold iunlock. apply get_runs. change (mypid (F l ins)) with PID.
  apply (ilk_runs l ins _ ip i _ true (Sleeplock true PID) _ Hi).
  { unfold holdingsleep. mstep. rewrite Hlk. cbn. rewrite Z.eqb_refl. reflexivity. }
  replace (i <| ilk := Sleeplock true PID |>) with i by (destruct i; cbn in Hlk; subst; reflexivity).
  rewrite list_insert_id by exact Hi. apply (iat_runs l ins _ ip i _ Hi).
  rewrite (proj2 (Z.ltb_ge _ _)) by lia. cbn [negb orb].
  apply runs_last, (ilk_runs l ins _ ip i _ tt (Sleeplock false 0) _ Hi); [reflexivity|]. apply runs_ret. reflexivity.
Qed.

Definition cached_as (dev n : Z) (x : inode) : Prop := 0 < ref x /\ idev x = dev /\ inum x = n.

Lemma iget_scan_spec l : forall k empty dev n,
  match iget_scan l k empty dev n with
  | inl p => exists j x, p = (k + j)%nat /\ l !! j = Some x /\ cached_as dev n x
  | inr e => (forall x, x ∈ l -> ~ cached_as dev n x)
      /\ match empty with
         | Some _ => e = empty
         | None => match e with
                   | Some p => exists j x, p = (k + j)%nat /\ l !! j = Some x /\ ref x = 0
                   | None => forall x, x ∈ l -> ref x <> 0
                   end
         end
  end.
Proof.
  induction l as [|x l IH]; intros k empty dev n; cbn [iget_scan].
  - split; [set_solver|]. destruct empty; [reflexivity | set_solver].
  - destruct ((0 <? ref x) && (idev x =? dev) && (inum x =? n)) eqn:Ec.
    + exists 0%nat, x. split; [lia|]. split; [reflexivity|]. unfold cached_as. lia.
    + assert (~ cached_as dev n x) as Hx by (unfold cached_as; lia).
      specialize (IH (S k) (match empty with None => if ref x =? 0 then Some k else None | _ => empty end) dev n).
      destruct (iget_scan l (S k) _ dev n) as [p | e].
      * destruct IH as (j & y & -> & Hy & Hc). exists (S j), y. split; [lia|]. split; assumption.
      * destruct IH as [Hnone He]. split; [intros y Hy; apply elem_of_cons in Hy as [-> |]; auto|].
        destruct empty; [exact He|]. destruct (Z.eqb_spec (ref x) 0) as [E0 | N0].
        { subst e. exists 0%nat, x. split; [lia|]. split; [reflexivity | exact E0]. }
        destruct e as [p|]; [|intros y Hy; apply elem_of_cons in Hy as [-> |]; auto].
        destruct He as (j & y & -> & Hy & Hr). exists (S j), y. split; [lia|]. split; assumption.
Qed.

(** At most one entry in use per inode. *)
Definition icache_ok (ins : list inode) : Prop :=
  forall p q x y, ins !! p = Some x -> ins !! q = Some y -> 0 < ref x -> 0 < ref y ->
    idev x = idev y -> inum x = inum y -> p = q.

Lemma icache_ok_insert ins p x y :
  icache_ok ins -> ins !! p = Some x -> 0 < ref x -> idev y = idev x -> inum y = inum x -> icache_ok (<[p := y]> ins).
Proof.
  intros HI Hx Hr E1 E2 q1 q2 a b Ha Hb Ra Rb D1 D2.
  apply list_lookup_insert_Some in Ha as [(<- & <- & _) | [Hn1 Ha]];
  apply list_lookup_insert_Some in Hb as [(<- & <- & _) | [Hn2 Hb]].
  - reflexivity.
  - apply (HI p q2 x b); auto; congruence.
  - apply (HI q1 p a x); auto; congruence.
  - apply (HI q1 q2 a b); auto.
Qed.

Lemma iget_cases l ins dev n :
  match iget_scan ins 0 None dev n with
  | inl p => exists x, ins !! p = Some x /\ cached_as dev n x
      /\ iget dev n (F l ins) = Ok p (F l (<[p := x <| ref := i32 (ref x + 1) |>]> ins))
  | inr (Some p) => exists x, ins !! p = Some x /\ ref x = 0 /\ (forall y, y ∈ ins -> ~ cached_as dev n y)
      /\ iget dev n (F l ins) = Ok p (F l (<[p := x <| idev := dev |> <| inum := n |> <| ref := 1 |> <| valid := false |>]> ins))
  | inr None => (forall y, y ∈ ins -> ~ cached_as dev n y /\ ref y <> 0) /\ iget dev n (F l ins) = Panic "iget: no inodes"
  end.
Proof.
  pose proof (iget_scan_spec ins 0 None dev n) as Hs.
  assert (iget dev n (F l ins) = match iget_scan ins 0 None dev n with
    | inl ip => Ok ip (F l (alter (fun i => i <| ref := i32 (ref i + 1) |>) ip ins))
    | inr None => Panic "iget: no inodes"
    | inr (Some ip) => Ok ip (F l (alter (fun x => x <| idev := dev |> <| inum := n |> <| ref := 1 |> <| valid := false |>) ip ins))
    end) as E.
  { unfold iget. erewrite bind_step by reflexivity. erewrite bind_step by reflexivity.
    change (inodes (F l ins <| iclocked := true |>)) with ins.
    destruct (iget_scan ins 0 None dev n) as [p | [p|]]; reflexivity. }
  destruct (iget_scan ins 0 None dev n) as [p | [p|]].
  - destruct Hs as (j & x & -> & Hx & Hc). exists x. split_and!; [exact Hx | exact Hc|]. rewrite E. cbn [Nat.add].
    rewrite (alter_insert _ _ _ x Hx). reflexivity.
  - destruct Hs as [Hno (j & x & -> & Hx & Hr)]. exists x. split_and!; [exact Hx | exact Hr | exact Hno|]. rewrite E. cbn [Nat.add].
    rewrite (alter_insert _ _ _ x Hx). reflexivity.
  - destruct Hs as [Hno Hr]. split; [intros y Hy; split; auto | exact E].
Qed.
End fs_thm.
