(* ===== verification/FsRw.v ===== *)
(** * Reading and writing files

    A file is an array of bytes: [fbyte] is the byte at an offset.  readi copies a
    range of it out; writei replaces a range and extends the file; neither touches
    a block of any other file. *)
From Stdlib Require Import ZArith Lia.
From stdpp Require Import base numbers list list_numbers gmap strings.
From S2P Require Import Prelude Block Log LogThm Locks Fs FsView FsThm FsFile.
Local Open Scope Z_scope.

(** ** Bytes of blocks *)

Lemma get8_take_drop d o m :
  0 <= o -> 0 <= m -> o + m <= Z.of_nat (length d) ->
  take (Z.to_nat m) (drop (Z.to_nat o) d) = (fun k => get8 d (o + k)) <$> seqZ 0 m.
Proof.
  intros Ho Hm Hl. apply list_eq. intros k. rewrite list_lookup_fmap.
  destruct (decide (k < Z.to_nat m)%nat) as [Hk | Hk].
  - rewrite lookup_take_lt, lookup_drop by lia. rewrite lookup_seqZ_lt by lia. cbn [fmap option_fmap option_map].
    unfold get8. replace (Z.to_nat (o + (0 + Z.of_nat k))) with (Z.to_nat o + k)%nat by lia.
    destruct (lookup_lt_is_Some_2 d (Z.to_nat o + k)) as [x ->]; [lia | reflexivity].
  - rewrite lookup_take_ge, lookup_seqZ_ge by lia. reflexivity.
Qed.

Lemma length_splice d o src : 0 <= o -> (Z.to_nat o + length src <= length d)%nat -> length (splice d o src) = length d.
Proof. intros Ho Hl. unfold splice. rewrite !length_app, length_take, length_drop. lia. Qed.

Lemma get8_splice d o src k :
  0 <= o -> 0 <= k -> (Z.to_nat o + length src <= length d)%nat ->
  get8 (splice d o src) k = if (o <=? k) && (k <? o + Z.of_nat (length src)) then default 0 (src !! Z.to_nat (k - o)) else get8 d k.
Proof.
  intros Ho Hk Hl. unfold get8, splice.
  destruct (Z.leb_spec o k), (Z.ltb_spec k (o + Z.of_nat (length src))); cbn [andb].
  - rewrite lookup_app_r by (rewrite length_take; lia). rewrite length_take, lookup_app_l by lia.
    replace (Z.to_nat k - Nat.min (Z.to_nat o) (length d))%nat with (Z.to_nat (k - o)) by lia. reflexivity.
  - rewrite lookup_app_r by (rewrite length_take; lia). rewrite length_take, lookup_app_r by lia.
    rewrite lookup_drop. replace (Z.to_nat o + length src + (Z.to_nat k - Nat.min (Z.to_nat o) (length d) - length src))%nat with (Z.to_nat k) by lia.
    reflexivity.
  - rewrite lookup_app_l by (rewrite length_take; lia). rewrite lookup_take_lt by lia. reflexivity.
  - lia.
Qed.

(** Offsets within a block. *)
Lemma same_block off k :
  0 <= off -> 0 <= k < BSIZE - off mod BSIZE -> (off + k) / BSIZE = off / BSIZE /\ (off + k) mod BSIZE = off mod BSIZE + k.
Proof.
  unfold BSIZE. intros Ho Hk. pose proof (Z.div_mod off 2048 ltac:(lia)). pose proof (Z.mod_pos_bound off 2048 ltac:(lia)).
  split; symmetry; [apply (Z.div_unique _ _ _ (off mod 2048 + k)) | apply (Z.mod_unique _ _ (off / 2048))]; lia.
Qed.

Section rw.
Context (SB : superblock) (LS CK PID : Z) (CWD : nat).
#[local] Abbreviation used := (used SB).
#[local] Abbreviation is_data := (is_data SB).
#[local] Abbreviation file_ok := (file_ok SB).
#[local] Abbreviation alloc_ok := (alloc_ok SB).
#[local] Abbreviation nfree := (nfree SB).

Definition fbyte (cur : Z -> blk) (i : inode) (o : Z) : Z := get8 (cur (fblock cur i (o / BSIZE))) (o mod BSIZE).
Definition frange (cur : Z -> blk) (i : inode) (off n : Z) : list Z := fbyte cur i <$> seqZ off n.

(** Every block below the size is there. *)
Definition mapped (cur : Z -> blk) (i : inode) : Prop :=
  isize i <= MAXFILE * BSIZE /\ forall bn, 0 <= bn -> bn * BSIZE < isize i -> fblock cur i bn <> 0.

Lemma frange_block cur i off m :
  Z.of_nat (length (cur (fblock cur i (off / BSIZE)))) = BSIZE -> 0 <= off -> 0 <= m <= BSIZE - off mod BSIZE ->
  take (Z.to_nat m) (drop (Z.to_nat (off mod BSIZE)) (cur (fblock cur i (off / BSIZE)))) = frange cur i off m.
Proof.
  intros Hl Ho Hm. pose proof (Z.mod_pos_bound off BSIZE ltac:(unfold BSIZE; lia)).
  rewrite get8_take_drop by lia. unfold frange. apply list_eq. intros k. rewrite !list_lookup_fmap.
  destruct (decide (Z.of_nat k < m)) as [Hk | Hk]; [|rewrite !lookup_seqZ_ge by lia; reflexivity].
  rewrite !lookup_seqZ_lt by lia. cbn [fmap option_fmap option_map]. unfold fbyte.
  destruct (same_block off (Z.of_nat k)) as [-> ->]; [lia | lia | reflexivity].
Qed.

Lemma frange_app cur i off m n : 0 <= m -> 0 <= n -> frange cur i off (m + n) = frange cur i off m ++ frange cur i (off + m) n.
Proof. intros Hm Hn. unfold frange. rewrite seqZ_app by lia. apply fmap_app. Qed.

Lemma block_bound off n : 0 <= off -> off < n -> n <= MAXFILE * BSIZE -> 0 <= off / BSIZE < MAXFILE /\ off / BSIZE * BSIZE < n.
Proof.
  intros Ho Hn Hm. assert (0 < BSIZE) by (unfold BSIZE; lia). pose proof (Z.div_mod off BSIZE ltac:(lia)).
  pose proof (Z.mod_pos_bound off BSIZE ltac:(lia)). split; [|lia]. split; [apply Z.div_pos; lia|].
  apply Z.div_lt_upper_bound; lia.
Qed.

(** Progress through the blocks: how many rounds a transfer of [r] bytes at
    [off] takes. *)
Definition rounds (off r : Z) : Z := (off mod BSIZE + r) / BSIZE + 1.

Lemma rounds_next off r :
  0 <= off -> BSIZE - off mod BSIZE < r ->
  (off + (BSIZE - off mod BSIZE)) mod BSIZE = 0 /\ rounds (off + (BSIZE - off mod BSIZE)) (r - (BSIZE - off mod BSIZE)) = rounds off r - 1.
Proof.
  unfold rounds, BSIZE. intros Ho Hr. pose proof (Z.div_mod off 2048 ltac:(lia)). pose proof (Z.mod_pos_bound off 2048 ltac:(lia)).
  assert ((off + (2048 - off mod 2048)) mod 2048 = 0) as E.
  { symmetry. apply (Z.mod_unique _ _ (off / 2048 + 1)); lia. }
  split; [exact E|]. rewrite E. replace (off mod 2048 + r) with (0 + (r - (2048 - off mod 2048)) + 1 * 2048) by lia.
  rewrite Z.div_add by lia. lia.
Qed.

Lemma rounds_pos off r : 0 <= off -> 0 <= r -> 1 <= rounds off r.
Proof.
  intros Ho Hr. unfold rounds. pose proof (Z.mod_pos_bound off BSIZE ltac:(unfold BSIZE; lia)).
  assert (0 <= (off mod BSIZE + r) / BSIZE) by (apply Z.div_pos; [lia | unfold BSIZE; lia]). lia.
Qed.

(** *** The effect of a write *)

Definition mine (cur : Z -> blk) (i : inode) (x : Z) : Prop :=
  x <> 0 /\ (x = ind i \/ exists bn, 0 <= bn < MAXFILE /\ fblock cur i bn = x).

Record wrote (cur : Z -> blk) (i : inode) (off : Z) (bytes : list Z) (cur' : Z -> blk) (i' : inode) : Prop := Wrote {
  w_file : file_ok cur' i';
  w_alloc : alloc_ok cur';
  w_bytes : forall k b, bytes !! k = Some b -> fbyte cur' i' (off + Z.of_nat k) = b;
  w_same : forall o, 0 <= o < MAXFILE * BSIZE -> o < off \/ off + Z.of_nat (length bytes) <= o ->
    fblock cur i (o / BSIZE) <> 0 -> fbyte cur' i' o = fbyte cur i o;
  w_map : forall bn, 0 <= bn < MAXFILE -> fblock cur i bn <> 0 -> fblock cur' i' bn = fblock cur i bn;
  w_mapped : forall k, (k < length bytes)%nat -> fblock cur' i' ((off + Z.of_nat k) / BSIZE) <> 0;
  w_keep : forall x, ~ bitmap_block SB x -> ~ is_data x \/ used cur x = true -> ~ mine cur i x -> cur' x = cur x;
  w_grow : forall x, 0 <= x < sb_size SB -> used cur x = true -> used cur' x = true;
  w_mine : forall x, mine cur' i' x -> mine cur i x \/ used cur x = false;
  w_fields : i' = i <| addrs := addrs i' |>
}.

Lemma wrote_nil cur i off : file_ok cur i -> alloc_ok cur -> wrote cur i off [] cur i.
Proof. intros HF HA. split; auto; [discriminate | cbn; lia | destruct i; reflexivity]. Qed.

Lemma wrote_app cur i off d1 cur1 i1 d2 cur2 i2 :
  0 <= off -> off + Z.of_nat (length d1) + Z.of_nat (length d2) <= MAXFILE * BSIZE -> layout SB LS ->
  wrote cur i off d1 cur1 i1 -> wrote cur1 i1 (off + Z.of_nat (length d1)) d2 cur2 i2 -> wrote cur i off (d1 ++ d2) cur2 i2.
Proof.
  intros Ho Hmax HLay W1 W2.
  assert (forall o, 0 <= o < MAXFILE * BSIZE -> 0 <= o / BSIZE < MAXFILE) as Hr.
  { intros o Ho'. destruct (block_bound o (o + 1)); [lia | lia | lia | assumption]. }
  split.
  - apply W2.
  - apply W2.
  - intros k b Hb. destruct (decide (k < length d1)%nat) as [Hk | Hk].
    + rewrite lookup_app_l in Hb by exact Hk. rewrite (w_same _ _ _ _ _ _ W2); [exact (w_bytes _ _ _ _ _ _ W1 k b Hb) | lia | lia|].
      apply (w_mapped _ _ _ _ _ _ W1). exact Hk.
    + rewrite lookup_app_r in Hb by lia. rewrite <-(w_bytes _ _ _ _ _ _ W2 _ b Hb). f_equal. lia.
  - intros o Ho' Hout Hm. rewrite length_app in Hout. rewrite (w_same _ _ _ _ _ _ W2); [|exact Ho' | lia|].
    + apply (w_same _ _ _ _ _ _ W1); [exact Ho' | lia | exact Hm].
    + rewrite (w_map _ _ _ _ _ _ W1); [exact Hm | apply Hr, Ho' | exact Hm].
  - intros bn Hbn Hm. pose proof (w_map _ _ _ _ _ _ W1 bn Hbn Hm) as E1. rewrite <-E1.
    apply (w_map _ _ _ _ _ _ W2 bn Hbn). rewrite E1. exact Hm.
  - intros k Hk. rewrite length_app in Hk. destruct (decide (k < length d1)%nat) as [Hk' | Hk'].
    + pose proof (w_mapped _ _ _ _ _ _ W1 k Hk') as Hm. rewrite (w_map _ _ _ _ _ _ W2); [exact Hm | apply Hr; lia | exact Hm].
    + replace (off + Z.of_nat k) with (off + Z.of_nat (length d1) + Z.of_nat (k - length d1)) by lia.
      apply (w_mapped _ _ _ _ _ _ W2). lia.
  - intros x Hx Hu Hm. rewrite (w_keep _ _ _ _ _ _ W2 x Hx); [apply (w_keep _ _ _ _ _ _ W1 x Hx Hu Hm) | |].
    + destruct Hu as [Hu | Hu]; [auto|]. destruct (decide (is_data x)) as [Hd | Hd]; [right | auto].
      apply (w_grow _ _ _ _ _ _ W1 x); [apply (data_range SB LS x HLay Hd) | exact Hu].
    + intros Hm1. destruct (w_mine _ _ _ _ _ _ W1 x Hm1) as [|Hu']; [auto|]. destruct Hu as [Hu | Hu]; [|congruence].
      destruct Hm1 as [Hx0 [-> | (bn & Hbn & Eb)]].
      * destruct (fo_ind _ _ _ (w_file _ _ _ _ _ _ W1)) as [|[]]; auto.
      * destruct (fo_blocks _ _ _ (w_file _ _ _ _ _ _ W1) bn Hbn) as [|(Hd & _)]; [congruence|]. rewrite Eb in Hd. auto.
  - intros x Hx Hu. apply (w_grow _ _ _ _ _ _ W2 x Hx), (w_grow _ _ _ _ _ _ W1 x Hx Hu).
  - intros x Hm. destruct (w_mine _ _ _ _ _ _ W2 x Hm) as [Hm1 | Hu].
    + exact (w_mine _ _ _ _ _ _ W1 x Hm1).
    + right. destruct (used cur x) eqn:E; [|reflexivity]. rewrite <-Hu. symmetry. apply (w_grow _ _ _ _ _ _ W1 x); [|exact E].
      destruct Hm as [Hx0 [-> | (bn & Hbn & Eb)]].
      * destruct (fo_ind _ _ _ (w_file _ _ _ _ _ _ W2)) as [|[Hd _]]; [contradiction|]. apply (data_range SB LS _ HLay Hd).
      * destruct (fo_blocks _ _ _ (w_file _ _ _ _ _ _ W2) bn Hbn) as [|(Hd & _)]; [congruence|]. rewrite Eb in Hd.
        apply (data_range SB LS _ HLay Hd).
  - rewrite (w_fields _ _ _ _ _ _ W2), (w_fields _ _ _ _ _ _ W1). reflexivity.
Qed.

(** Writing into one block that bmap returned. *)
Lemma wrote_block cur i off a cur1 i1 bytes :
  layout SB LS -> (forall x, Z.of_nat (length (cur1 x)) = BSIZE) -> 0 <= off ->
  off + Z.of_nat (length bytes) <= MAXFILE * BSIZE -> Z.of_nat (length bytes) <= BSIZE - off mod BSIZE ->
  file_ok cur i -> 0 <= off / BSIZE < MAXFILE -> bmapped SB cur i (off / BSIZE) a cur1 i1 ->
  wrote cur i off bytes (bupd cur1 a (splice (cur1 a) (off mod BSIZE) bytes)) i1.
Proof.
  intros HLay Hlen Ho Hmax Hfit HF Hbn HB. pose proof (Z.mod_pos_bound off BSIZE ltac:(unfold BSIZE; lia)) as Hmod.
  pose proof (bm_data _ _ _ _ _ _ _ HB) as Hd. destruct (data_range SB LS a HLay Hd) as (Ha & Har & Hanb & _).
  set (cur2 := bupd cur1 a (splice (cur1 a) (off mod BSIZE) bytes)).
  assert (a <> ind i1) as Hai.
  { pose proof (fo_blocks _ _ _ (bm_file _ _ _ _ _ _ _ HB) (off / BSIZE) Hbn) as Hf.
    rewrite (bm_block _ _ _ _ _ _ _ HB) in Hf. destruct Hf as [|(_ & _ & Hf)]; [lia | exact Hf]. }
  assert (forall bn, fblock cur2 i1 bn = fblock cur1 i1 bn) as Ef.
  { intros bn. apply fblock_ext; [reflexivity|]. intros _. unfold cur2. apply bupd_ne. congruence. }
  assert (forall x, 0 <= x < sb_size SB -> used cur2 x = used cur1 x) as Eu.
  { intros x Hx. apply (used_ext SB LS); [exact HLay | | exact Hx]. intros y Hy. apply bupd_ne. intros ->. contradiction. }
  assert (forall o, 0 <= o < MAXFILE * BSIZE -> o / BSIZE <> off / BSIZE -> fblock cur i (o / BSIZE) <> 0 -> fbyte cur2 i1 o = fbyte cur i o) as Hothers.
  { intros o Ho' Hne Hm. assert (0 <= o / BSIZE < MAXFILE) as Hob by (destruct (block_bound o (o + 1)); [lia | lia | lia | assumption]).
    unfold fbyte. rewrite Ef. pose proof (bm_other _ _ _ _ _ _ _ HB (o / BSIZE) Hob Hne) as Eo. rewrite Eo. f_equal.
    destruct (fo_blocks _ _ _ HF (o / BSIZE) Hob) as [|(Hod & Hou & Hoi)]; [contradiction|].
    assert (fblock cur i (o / BSIZE) <> a) as Hoa.
    { intros E. apply Hne. apply (fo_inj _ _ _ (bm_file _ _ _ _ _ _ _ HB)); [exact Hob | exact Hbn | | congruence].
      rewrite Eo, (bm_block _ _ _ _ _ _ _ HB). exact E. }
    unfold cur2. rewrite bupd_ne by exact Hoa. apply (bm_keep _ _ _ _ _ _ _ HB); [apply (data_range SB LS _ HLay Hod) | auto | auto]. }
  assert (Z.to_nat (off mod BSIZE) + length bytes <= length (cur1 a))%nat as Hspl by (pose proof (Hlen a); lia).
  split.
  - apply (file_ok_frame SB cur1 cur2 i1 i1); [apply HB | reflexivity | intros _ _; unfold cur2; apply bupd_ne; congruence|].
    intros x Hx. rewrite Eu by apply (data_range SB LS x HLay Hx). auto.
  - intros x Hx. pose proof (lay_data _ _ HLay). rewrite Eu by lia. apply (bm_alloc _ _ _ _ _ _ _ HB x Hx).
  - intros k b Hb. pose proof (lookup_lt_Some _ _ _ Hb). unfold fbyte. rewrite Ef.
    destruct (same_block off (Z.of_nat k)) as [-> ->]; [lia | lia|]. rewrite (bm_block _ _ _ _ _ _ _ HB). unfold cur2. rewrite bupd_eq.
    rewrite get8_splice by lia. rewrite (proj2 (Z.leb_le _ _)), (proj2 (Z.ltb_lt _ _)) by lia. cbn [andb].
    replace (Z.to_nat (off mod BSIZE + Z.of_nat k - off mod BSIZE)) with k by lia. rewrite Hb. reflexivity.
  - intros o Ho' Hout Hm. destruct (Z.eq_dec (o / BSIZE) (off / BSIZE)) as [E | Hne]; [|apply Hothers; assumption].
    destruct (bm_old _ _ _ _ _ _ _ HB) as [Ec Ei]; [rewrite <-E; exact Hm|]. unfold fbyte. rewrite Ef, E, (bm_block _ _ _ _ _ _ _ HB).
    unfold cur2. rewrite bupd_eq, get8_splice; [|lia | apply Z.mod_pos_bound; unfold BSIZE; lia | exact Hspl].
    pose proof (Z.div_mod o BSIZE ltac:(unfold BSIZE; lia)). pose proof (Z.div_mod off BSIZE ltac:(unfold BSIZE; lia)). rewrite E in *.
    destruct (Z.leb_spec (off mod BSIZE) (o mod BSIZE)), (Z.ltb_spec (o mod BSIZE) (off mod BSIZE + Z.of_nat (length bytes))); cbn [andb]; try lia;
      rewrite Ec, <-(bm_block _ _ _ _ _ _ _ HB), Ec, Ei; reflexivity.
  - intros bn Hbn' Hm. rewrite Ef. destruct (Z.eq_dec bn (off / BSIZE)) as [-> | Hne].
    + destruct (bm_old _ _ _ _ _ _ _ HB Hm) as [-> ->]. reflexivity.
    + apply (bm_other _ _ _ _ _ _ _ HB); assumption.
  - intros k Hk. rewrite Ef. destruct (same_block off (Z.of_nat k)) as [-> _]; [lia | lia|]. rewrite (bm_block _ _ _ _ _ _ _ HB). lia.
  - intros x Hx Hu Hm. assert (x <> a) as Hxa.
    { intros ->. destruct (Z.eq_dec (fblock cur i (off / BSIZE)) 0) as [E0 | Hn0].
      - destruct (bm_new _ _ _ _ _ _ _ HB E0) as [_ Hua]. destruct Hu; [contradiction | congruence].
      - apply Hm. split; [lia|]. right. exists (off / BSIZE). split; [exact Hbn|].
        destruct (bm_old _ _ _ _ _ _ _ HB Hn0) as [Ec Ei]. rewrite <-(bm_block _ _ _ _ _ _ _ HB), Ec, Ei. reflexivity. }
    unfold cur2. rewrite bupd_ne by exact Hxa. apply (bm_keep _ _ _ _ _ _ _ HB x Hx Hu).
    destruct (Z.eq_dec x 0) as [-> | Hx0]; [auto|]. right. intros ->. apply Hm. split; auto.
  - intros x Hx Hu. rewrite Eu by exact Hx. exact (bm_grow _ _ _ _ _ _ _ HB x Hx Hu).
  - intros x [Hx0 Hm]. destruct Hm as [-> | (bn & Hbn' & Eb)].
    + destruct (bm_ind _ _ _ _ _ _ _ HB) as [E | Hu]; [|auto]. left. split; [exact Hx0 | left; exact E].
    + rewrite Ef in Eb. destruct (Z.eq_dec bn (off / BSIZE)) as [-> | Hne].
      * destruct (Z.eq_dec (fblock cur i (off / BSIZE)) 0) as [E0 | Hn0].
        -- destruct (bm_new _ _ _ _ _ _ _ HB E0) as [_ Hua]. rewrite (bm_block _ _ _ _ _ _ _ HB) in Eb. subst x. auto.
        -- destruct (bm_old _ _ _ _ _ _ _ HB Hn0) as [Ec Ei]. left. split; [exact Hx0|]. right. exists (off / BSIZE).
           split; [exact Hbn | rewrite <-Eb, Ec, Ei; reflexivity].
      * left. split; [exact Hx0|]. right. exists bn. split; [exact Hbn'|]. rewrite <-Eb. symmetry. apply (bm_other _ _ _ _ _ _ _ HB); assumption.
  - exact (bm_fields _ _ _ _ _ _ _ HB).
Qed.

(** Fuel for [r] more bytes at [off]: the rounds and the last test. *)
Definition enough (fuel : nat) (off r : Z) : Prop :=
  (1 <= fuel)%nat /\ (0 < r -> rounds off r + 1 <= Z.of_nat fuel).

Lemma enough_next fuel off r :
  0 <= off -> 0 < r -> enough (S fuel) off r ->
  let m := Z.min r (BSIZE - off mod BSIZE) in enough fuel (off + m) (r - m).
Proof.
  intros Ho Hr [_ H]. specialize (H Hr). pose proof (rounds_pos off r Ho ltac:(lia)). cbv zeta. split; [lia|]. intros Hr'.
  destruct (Z.le_gt_cases r (BSIZE - off mod BSIZE)); [lia|]. rewrite Z.min_r in * by lia.
  destruct (rounds_next off r Ho ltac:(lia)) as [_ E]. lia.
Qed.

Lemma enough_start off r : 0 <= off -> 0 <= r -> enough (Z.to_nat (r / BSIZE) + 3) off r.
Proof.
  intros Ho Hr. split; [lia|]. intros _. unfold rounds. rewrite Nat2Z.inj_add, Z2Nat.id by (apply Z.div_pos; [lia | unfold BSIZE; lia]).
  pose proof (Z.mod_pos_bound off BSIZE ltac:(unfold BSIZE; lia)).
  assert ((off mod BSIZE + r) / BSIZE <= (r + 1 * BSIZE) / BSIZE) as Hle by (apply Z.div_le_mono; [unfold BSIZE; lia | lia]).
  rewrite Z.div_add in Hle by (unfold BSIZE; lia). lia.
Qed.

(** Rounds still to make. *)
Definition todo (off r : Z) : Z := if 0 <? r then rounds off r else 0.

Lemma todo_next off r :
  0 <= off -> 0 < r ->
  let m := Z.min r (BSIZE - off mod BSIZE) in 0 <= todo (off + m) (r - m) /\ todo (off + m) (r - m) + 1 <= todo off r.
Proof.
  intros Ho Hr. cbv zeta. unfold todo. rewrite (proj2 (Z.ltb_lt 0 r)) by lia. pose proof (rounds_pos off r Ho ltac:(lia)).
  pose proof (Z.mod_pos_bound off BSIZE ltac:(unfold BSIZE; lia)).
  destruct (Z.ltb_spec 0 (r - Z.min r (BSIZE - off mod BSIZE))) as [Hr' |]; [|lia]. rewrite Z.min_r in * by lia.
  destruct (rounds_next off r Ho ltac:(lia)) as [_ E].
  pose proof (rounds_pos (off + (BSIZE - off mod BSIZE)) (r - (BSIZE - off mod BSIZE)) ltac:(lia) ltac:(lia)). lia.
Qed.

Section run.
Context {C : Type} `{HBC : BufCache C} {HL : BufCacheLaws C} (HLay : layout SB LS) (devsw : Z -> devops (C := C)).
#[local] Abbreviation F := (F SB CK PID CWD).
#[local] Abbreviation sees := (sees LS).
Implicit Types (l : log C) (ins : list inode).

(** *** readi *)

Lemma readi_loop_runs ip i cur ins lgd fuel : forall l off n tot,
  file_ok cur i -> mapped cur i -> idev i = ROOTDEV -> ins !! ip = Some i -> sees l cur ∅ lgd ->
  0 <= off -> 0 <= tot <= n -> off + (n - tot) <= isize i -> enough fuel off (n - tot) ->
  runs (readi_loop fuel ip off n tot) (F l ins) (fun bytes s' => bytes = frange cur i off (n - tot)
    /\ exists l', s' = F l' ins /\ sees l' cur ∅ lgd).
Proof.
  induction fuel as [|fuel IH]; intros l off n tot HF HM Hdev Hi HS Ho Ht Hsz Hfuel.
  { destruct Hfuel. lia. }
  cbn [readi_loop]. destruct (Z.ltb_spec tot n) as [Hlt | Hge].
  2:{ apply runs_ret. split; [|eauto]. unfold frange. rewrite seqZ_nil by lia. reflexivity. }
  destruct (block_bound off (isize i) Ho ltac:(lia) ltac:(destruct HM; lia)) as [Hbn Hbs].
  pose proof (proj2 HM (off / BSIZE) (proj1 Hbn) Hbs) as Hn0.
  pose proof (Z.mod_pos_bound off BSIZE ltac:(unfold BSIZE; lia)) as Hmod.
  apply (iat_runs SB CK PID CWD l ins _ ip i _ Hi). apply runs_bind.
  eapply runs_wand; [apply (bmap_old_runs SB LS CK PID CWD HLay ip i cur (off / BSIZE) l ins lgd); assumption|].
  intros b s' (-> & l1 & -> & HS1). set (b := fblock cur i (off / BSIZE)) in *. rewrite Hdev.
  destruct (fo_blocks _ _ _ HF (off / BSIZE) Hbn) as [|(Hd & _)]; [contradiction|]. destruct (data_range SB LS _ HLay Hd) as (Hr & _).
  apply (read_runs SB LS CK PID CWD l1 ins cur ∅ lgd); [exact HS1 | | rewrite map_size_empty; lia | lia|].
  { intros h E. rewrite lookup_empty in E. discriminate. }
  intros h l2 Hnone HS2. cbv zeta. apply (data_runs SB LS CK PID CWD l2 ins cur (<[h := b]> ∅) lgd _ h b _ HS2); [apply lookup_insert_eq|].
  apply (release_runs SB LS CK PID CWD l2 ins _ ∅ _ _ h b _ HS2 Hnone). intros l3 HS3.
  set (m := Z.min (n - tot) (BSIZE - off mod BSIZE)) in *.
  unfold b. rewrite frange_block by (lia || exact (sees_len _ _ _ _ _ _ HS3)).
  apply runs_bind. eapply runs_wand; [apply (IH l3 (off + m) n (tot + m)); try assumption; try lia|].
  - pose proof (enough_next fuel off (n - tot) Ho ltac:(lia) Hfuel) as He. cbv zeta in He. fold m in He.
    replace (n - (tot + m)) with (n - tot - m) by lia. exact He.
  - intros rest s' (-> & l4 & -> & HS4). apply runs_ret. split; [|eauto].
    replace (n - tot) with (m + (n - (tot + m))) by lia. rewrite frange_app by lia. reflexivity.
Qed.

Definition is_file (i : inode) : Prop := Z.land (mode i) S_IFCHR = 0.

Lemma is_file_not_dev i : is_file i -> is_dev (mode i) = false.
Proof.
  unfold is_file, is_dev. intros E.
  assert (forall m, Z.testbit m 13 = true -> Z.land (mode i) S_IFMT <> m) as Hbit.
  { intros m Hm Em. assert (Z.testbit (Z.land (mode i) S_IFCHR) 13 = true) as Ht; [|rewrite E in Ht; discriminate].
    rewrite <-Em, Z.land_spec in Hm. rewrite Z.land_spec. apply andb_prop in Hm as [-> _]. reflexivity. }
  rewrite (proj2 (Z.eqb_neq _ _)), (proj2 (Z.eqb_neq _ _)); [reflexivity | apply Hbit; reflexivity | apply Hbit; reflexivity].
Qed.

Lemma readi_runs ip i cur ins lgd l off n :
  file_ok cur i -> mapped cur i -> idev i = ROOTDEV -> is_file i -> ins !! ip = Some i -> sees l cur ∅ lgd ->
  0 <= off <= isize i -> 0 <= n -> off + n < 2 ^ 32 ->
  runs (readi devsw ip off n) (F l ins) (fun r s' =>
    r = (Z.min n (isize i - off), frange cur i off (Z.min n (isize i - off))) /\ exists l', s' = F l' ins /\ sees l' cur ∅ lgd).
Proof.
  intros HF HM Hdev Hfile Hi HS Ho Hn Hov. unfold readi. apply (iat_runs SB CK PID CWD l ins _ ip i _ Hi).
  rewrite (is_file_not_dev i Hfile), (uwrap_id 32 (off + n)) by (unfold in_u; lia).
  rewrite (proj2 (Z.ltb_ge (isize i) off)), (proj2 (Z.ltb_ge (off + n) off)) by lia. cbn [orb]. cbv zeta.
  replace (if isize i <? off + n then isize i - off else n) with (Z.min n (isize i - off)) by (destruct (Z.ltb_spec (isize i) (off + n)); lia).
  set (r := Z.min n (isize i - off)) in *. apply runs_bind.
  eapply runs_wand; [apply (readi_loop_runs ip i cur ins lgd _ l off r 0); try assumption; try lia|].
  - rewrite Z.sub_0_r. apply enough_start; lia.
  - intros bytes s' (-> & l' & -> & HS'). apply runs_ret. rewrite Z.sub_0_r. split; [|eauto]. f_equal.
    apply swrap_id; [reflexivity|]. destruct HM as [HM _]. change (MAXFILE * BSIZE) with 1071104 in HM. unfold in_s. lia.
Qed.

(** *** writei *)

Lemma writei_loop_runs ip src n fuel : forall l i ins cur lgd off tot,
  file_ok cur i -> alloc_ok cur -> idev i = ROOTDEV -> ins !! ip = Some i -> sees l cur ∅ lgd ->
  0 <= off -> 0 <= tot <= n -> n <= Z.of_nat (length src) -> off + (n - tot) <= MAXFILE * BSIZE ->
  enough fuel off (n - tot) -> Z.of_nat (size lgd) + 6 * todo off (n - tot) <= Z.of_nat TXCAP ->
  2 * todo off (n - tot) <= Z.of_nat (nfree cur) ->
  runs (writei_loop fuel ip src off n tot) (F l ins) (fun r s' => r = off + (n - tot)
    /\ exists l' cur' i' lgd', s' = F l' (<[ip := i']> ins) /\ sees l' cur' ∅ lgd'
       /\ wrote cur i off (take (Z.to_nat (n - tot)) (drop (Z.to_nat tot) src)) cur' i'
       /\ lgd ⊆ lgd' /\ Z.of_nat (size lgd') <= Z.of_nat (size lgd) + 6 * todo off (n - tot)).
Proof.
  induction fuel as [|fuel IH]; intros l i ins cur lgd off tot HF HA Hdev Hi HS Ho Ht Hsrc Hmax Hfuel Hbud Hfree.
  { destruct Hfuel. lia. }
  cbn [writei_loop]. destruct (Z.ltb_spec tot n) as [Hlt | Hge].
  2:{ apply runs_ret. split; [lia|]. exists l, cur, i, lgd. rewrite list_insert_id by exact Hi.
      replace (Z.to_nat (n - tot)) with 0%nat by lia. rewrite take_0. unfold todo. rewrite (proj2 (Z.ltb_ge _ _)) by lia.
      split_and!; [reflexivity | exact HS | apply wrote_nil; assumption | reflexivity | lia]. }
  destruct (block_bound off (off + (n - tot)) Ho ltac:(lia) Hmax) as [Hbn _].
  pose proof (Z.mod_pos_bound off BSIZE ltac:(unfold BSIZE; lia)) as Hmod.
  destruct (todo_next off (n - tot) Ho ltac:(lia)) as [Ht0 Ht1].
  pose proof (enough_next fuel off (n - tot) Ho ltac:(lia) Hfuel) as He.
  set (m := Z.min (n - tot) (BSIZE - off mod BSIZE)) in *. cbv zeta in Ht0, Ht1, He.
  apply (iat_runs SB CK PID CWD l ins _ ip i _ Hi). apply runs_bind.
  eapply runs_wand; [apply (bmap_runs SB LS CK PID CWD HLay ip i cur (off / BSIZE) l ins lgd); try assumption; lia|].
  intros a s' (l1 & cur1 & i1 & lgd1 & -> & HS1 & HB & Hsub1 & Hlg1). rewrite Hdev.
  pose proof (bm_data _ _ _ _ _ _ _ HB) as Hd. destruct (data_range SB LS a HLay Hd) as (Ha & _ & Hanb & _).
  apply (read_runs SB LS CK PID CWD l1 _ cur1 ∅ lgd1); [exact HS1 | | rewrite map_size_empty; lia | lia|].
  { intros h E. rewrite lookup_empty in E. discriminate. }
  intros h l2 Hnone HS2. cbv zeta. apply (data_runs SB LS CK PID CWD l2 _ cur1 (<[h := a]> ∅) lgd1 _ h a _ HS2); [apply lookup_insert_eq|].
  set (part := take (Z.to_nat m) (drop (Z.to_nat tot) src)).
  assert (Z.of_nat (length part) = m) as Hpl by (unfold part; rewrite length_take, length_drop; lia).
  rewrite (proj2 (Z.ltb_ge _ _)) by lia.
  assert (Z.to_nat (off mod BSIZE) + length part <= length (cur1 a))%nat as Hspl by (pose proof (sees_len _ _ _ _ _ a HS2); lia).
  apply (store_runs SB LS CK PID CWD l2 _ cur1 (<[h := a]> ∅) lgd1 _ h a); [exact HS2 | apply lookup_insert_eq | | |].
  { rewrite length_splice by lia. exact (sees_len _ _ _ _ _ a HS2). }
  { apply (data_loggable SB LS lgd1 a HLay Hd). right. lia. }
  intros l3 HS3. apply (release_runs SB LS CK PID CWD l3 _ _ ∅ _ _ h a _ HS3 Hnone). intros l4 HS4.
  pose proof (wrote_block cur i off a cur1 i1 part HLay (fun x => sees_len _ _ _ _ _ x HS2) Ho ltac:(lia) ltac:(lia) HF Hbn HB) as W1.
  set (cur2 := bupd cur1 a (splice (cur1 a) (off mod BSIZE) part)) in *.
  assert (nfree cur2 = nfree cur1) as Enf.
  { apply length_filter_ext. intros x Hx. apply elem_of_seqZ in Hx. rewrite (used_ext SB LS cur1 cur2 x HLay); [reflexivity | | lia].
    intros y Hy. apply bupd_ne. intros ->. contradiction. }
  pose proof (bm_nfree _ _ _ _ _ _ _ HB) as Hnf.
  pose proof (size_union_le {[a]} lgd1) as Hlg2. rewrite size_singleton in Hlg2.
  assert ((<[ip := i1]> ins) !! ip = Some i1) as Hi1 by (apply list_lookup_insert_eq, (lookup_lt_Some _ _ _ Hi)).
  eapply runs_wand; [apply (IH l4 i1 (<[ip := i1]> ins) cur2 ({[a]} ∪ lgd1) (off + m) (tot + m))|].
  - apply W1.
  - apply W1.
  - rewrite (w_fields _ _ _ _ _ _ W1). exact Hdev.
  - exact Hi1.
  - exact HS4.
  - lia.
  - lia.
  - exact Hsrc.
  - lia.
  - replace (n - (tot + m)) with (n - tot - m) by lia. exact He.
  - replace (n - (tot + m)) with (n - tot - m) by lia. lia.
  - replace (n - (tot + m)) with (n - tot - m) by lia. lia.
  - intros r s' (-> & l5 & cur5 & i5 & lgd5 & -> & HS5 & W2 & Hsub5 & Hlg5). split; [lia|].
    exists l5, cur5, i5, lgd5. rewrite list_insert_insert_eq. replace (n - (tot + m)) with (n - tot - m) in * by lia.
    split_and!; [reflexivity | exact HS5 | | set_solver | lia].
    replace (take (Z.to_nat (n - tot)) (drop (Z.to_nat tot) src))
      with (part ++ take (Z.to_nat (n - tot - m)) (drop (Z.to_nat (tot + m)) src)).
    + apply (wrote_app cur i off part cur2 i1); [exact Ho | | exact HLay | exact W1 |].
      * rewrite length_take, length_drop. lia.
      * rewrite Hpl. exact W2.
    + unfold part. replace (drop (Z.to_nat (tot + m)) src) with (drop (Z.to_nat m) (drop (Z.to_nat tot) src)) by (rewrite drop_drop; f_equal; lia).
      replace (Z.to_nat (n - tot)) with (Z.to_nat m + Z.to_nat (n - tot - m))%nat by lia. apply take_take_drop.
Qed.

Lemma iblock_meta n : 0 <= n < sb_ninodes SB -> IBLOCK n SB < sb_bmapstart SB /\ ~ is_data (IBLOCK n SB) /\ ~ bitmap_block SB (IBLOCK n SB).
Proof.
  intros Hn. destruct HLay as [L1 L2 L3].
  assert (n / IPB <= sb_ninodes SB / IPB) by (apply Z.div_le_mono; [vm_compute; reflexivity | lia]).
  assert (0 <= sb_size SB / BPB) by (apply Z.div_pos; [lia | unfold BPB, BSIZE; lia]).
  unfold IBLOCK, FsFile.is_data, bitmap_block, FsThm.datastart in *. lia.
Qed.

(** An inode block is rewritten: no file changes. *)
Lemma iupdate_keeps cur i j :
  0 <= inum j < sb_ninodes SB ->
  (forall x, ~ is_data x -> ~ bitmap_block SB x -> x <> IBLOCK (inum j) SB -> iupdate_cur SB cur j x = cur x)
  /\ (forall x, is_data x -> iupdate_cur SB cur j x = cur x)
  /\ (forall x, 0 <= x < sb_size SB -> used (iupdate_cur SB cur j) x = used cur x)
  /\ (file_ok cur i -> file_ok (iupdate_cur SB cur j) i
       /\ (forall bn, fblock (iupdate_cur SB cur j) i bn = fblock cur i bn)
       /\ (forall o, 0 <= o < MAXFILE * BSIZE -> fblock cur i (o / BSIZE) <> 0 -> fbyte (iupdate_cur SB cur j) i o = fbyte cur i o)).
Proof.
  intros Hn. destruct (iblock_meta _ Hn) as (_ & Hnd & Hnb). unfold iupdate_cur.
  set (cur' := bupd cur (IBLOCK (inum j) SB) _).
  assert (forall x, is_data x -> cur' x = cur x) as Hkeep by (intros x Hx; apply bupd_ne; intros ->; contradiction).
  assert (forall x, 0 <= x < sb_size SB -> used cur' x = used cur x) as Hu.
  { intros x Hx. apply (used_ext SB LS); [exact HLay | | exact Hx]. intros y Hy. apply bupd_ne. intros ->. contradiction. }
  split_and!; [intros x _ _ Hx; apply bupd_ne, Hx | exact Hkeep | exact Hu|]. intros HF.
  assert (forall bn, fblock cur' i bn = fblock cur i bn) as Ef.
  { intros bn. apply fblock_ext; [reflexivity|]. intros Hi. destruct (fo_ind _ _ _ HF) as [|[]]; [contradiction | auto]. }
  split_and!; [| exact Ef |].
  - apply (file_ok_frame SB cur cur' i i HF eq_refl); [intros Hd _; auto|]. intros x Hx. rewrite Hu by apply (data_range SB LS x HLay Hx). auto.
  - intros o Ho Hm. unfold fbyte. rewrite Ef. assert (0 <= o / BSIZE < MAXFILE) as Hob by (destruct (block_bound o (o + 1)); [lia | lia | lia | assumption]).
    destruct (fo_blocks _ _ _ HF _ Hob) as [|(Hd & _)]; [contradiction|]. rewrite Hkeep by exact Hd. reflexivity.
Qed.

(** What [writei] does to the file [i]. *)
Record written (cur : Z -> blk) (i : inode) (off : Z) (bytes : list Z) (cur' : Z -> blk) (i' : inode) : Prop := Written {
  wr_file : file_ok cur' i';
  wr_alloc : alloc_ok cur';
  wr_size : isize i' = Z.max (isize i) (off + Z.of_nat (length bytes));
  wr_mapped : mapped cur' i';
  wr_bytes : forall o, 0 <= o < isize i' -> fbyte cur' i' o =
    if (off <=? o) && (o <? off + Z.of_nat (length bytes)) then default 0 (bytes !! Z.to_nat (o - off)) else fbyte cur i o;
  wr_others : forall x, is_data x -> used cur x = true -> ~ mine cur i x -> cur' x = cur x /\ used cur' x = true;
  wr_meta : forall x, ~ is_data x -> ~ bitmap_block SB x -> x <> IBLOCK (inum i) SB -> cur' x = cur x;
  wr_disk : isize i < isize i' ->
    cur' (IBLOCK (inum i) SB) = store_inode (cur (IBLOCK (inum i) SB)) (dip (inum i)) i'
    /\ lmtime i' = u32 CK /\ ctime i' = u32 CK;
  wr_fields : i' = i <| addrs := addrs i' |> <| isize := isize i' |> <| ctime := ctime i' |> <| lmtime := lmtime i' |>
}.

Lemma wrote_mapped cur i off bytes cur' i' :
  mapped cur i -> 0 <= off <= isize i -> off + Z.of_nat (length bytes) <= MAXFILE * BSIZE -> wrote cur i off bytes cur' i' ->
  forall bn, 0 <= bn -> bn * BSIZE < Z.max (isize i) (off + Z.of_nat (length bytes)) -> fblock cur' i' bn <> 0.
Proof.
  intros [Hm1 Hm2] Ho Hmax W bn Hbn Hlt. assert (0 < BSIZE) by (unfold BSIZE; lia).
  assert (0 <= bn < MAXFILE) as Hb by (split; [lia|]; apply Z.mul_lt_mono_pos_r with BSIZE; lia).
  destruct (Z.lt_ge_cases (bn * BSIZE) (isize i)) as [H1 | H1].
  { pose proof (Hm2 bn Hbn H1). rewrite (w_map _ _ _ _ _ _ W) by assumption. assumption. }
  assert (bn = (off + Z.of_nat (Z.to_nat (bn * BSIZE - off))) / BSIZE) as ->.
  { rewrite Z2Nat.id by lia. replace (off + (bn * BSIZE - off)) with (bn * BSIZE) by lia. rewrite Z.div_mul by lia. reflexivity. }
  apply (w_mapped _ _ _ _ _ _ W). lia.
Qed.

Lemma writei_runs ip i cur ins lgd l src off n :
  file_ok cur i -> alloc_ok cur -> mapped cur i -> idev i = ROOTDEV -> 0 <= inum i < sb_ninodes SB -> is_file i ->
  ins !! ip = Some i -> sees l cur ∅ lgd -> 0 <= off <= isize i -> 0 <= n <= Z.of_nat (length src) ->
  off + n <= MAXFILE * BSIZE -> Z.of_nat (size lgd) + 6 * todo off n + 1 <= Z.of_nat TXCAP -> 2 * todo off n <= Z.of_nat (nfree cur) ->
  runs (writei devsw ip src off n) (F l ins) (fun r s' => r = n
    /\ exists l' cur' i' lgd', s' = F l' (<[ip := i']> ins) /\ sees l' cur' ∅ lgd' /\ lgd ⊆ lgd'
       /\ Z.of_nat (size lgd') <= Z.of_nat (size lgd) + 6 * todo off n + 1
       /\ written cur i off (take (Z.to_nat n) src) cur' i').
Proof.
  intros HF HA HM Hdev Hin Hfile Hi HS Ho Hn Hmax Hbud Hfree.
  assert (MAXFILE * BSIZE = 1071104) as Emax by reflexivity.
  unfold writei. apply (iat_runs SB CK PID CWD l ins _ ip i _ Hi).
  unfold is_file in Hfile. rewrite Hfile. change (nz 0) with false. cbv iota.
  rewrite (uwrap_id 32 (off + n)) by (unfold in_u; lia).
  rewrite (proj2 (Z.ltb_ge (isize i) off)), (proj2 (Z.ltb_ge (off + n) off)), (proj2 (Z.ltb_ge (MAXFILE * BSIZE) _)) by lia. cbn [orb].
  apply runs_bind. eapply runs_wand; [apply (writei_loop_runs ip src n _ l i ins cur lgd off 0); rewrite ?Z.sub_0_r; try assumption; try lia; apply enough_start; lia|].
  rewrite Z.sub_0_r, drop_0. intros r s' (-> & l1 & cur1 & i1 & lgd1 & -> & HS1 & W & Hsub & Hlg).
  assert (Z.of_nat (length (take (Z.to_nat n) src)) = n) as Hlen by (rewrite length_take; lia).
  set (bytes := take (Z.to_nat n) src) in *.
  pose proof (wrote_mapped cur i off bytes cur1 i1 HM Ho ltac:(lia) W) as Hmap. rewrite Hlen in Hmap.
  assert (isize i1 = isize i /\ inum i1 = inum i /\ idev i1 = idev i) as (Es & En & Ed) by (rewrite (w_fields _ _ _ _ _ _ W); auto).
  assert (forall o, 0 <= o < Z.max (isize i) (off + n) -> fbyte cur1 i1 o =
    if (off <=? o) && (o <? off + n) then default 0 (bytes !! Z.to_nat (o - off)) else fbyte cur i o) as Hbytes.
  { intros o Ho'. destruct ((off <=? o) && (o <? off + n)) eqn:E.
    - destruct (lookup_lt_is_Some_2 bytes (Z.to_nat (o - off))) as [b Hb]; [lia|]. rewrite Hb.
      cbn. rewrite <-(w_bytes _ _ _ _ _ _ W _ b Hb). f_equal. lia.
    - destruct HM as [HM1 HM2]. apply (w_same _ _ _ _ _ _ W); [lia | lia|].
      destruct (block_bound o (isize i)) as [Hb1 Hb2]; [lia | lia | lia|]. apply HM2; lia. }
  assert (forall x, is_data x -> used cur x = true -> ~ mine cur i x -> cur1 x = cur x /\ used cur1 x = true) as Hoth.
  { intros x Hx Hu Hm. destruct (data_range SB LS x HLay Hx) as (_ & Hr & Hb & _).
    split; [apply (w_keep _ _ _ _ _ _ W); auto | apply (w_grow _ _ _ _ _ _ W x Hr Hu)]. }
  assert (forall x, ~ is_data x -> ~ bitmap_block SB x -> cur1 x = cur x) as Hmeta.
  { intros x Hx Hb. apply (w_keep _ _ _ _ _ _ W); auto. intros [Hx0 [-> | (bn & Hbn & Eb)]].
    - destruct (fo_ind _ _ _ HF) as [|[]]; auto.
    - destruct (fo_blocks _ _ _ HF bn Hbn) as [|(Hd & _)]; [congruence|]. rewrite Eb in Hd. auto. }
  assert ((<[ip := i1]> ins) !! ip = Some i1) as Hi1 by (apply list_lookup_insert_eq, (lookup_lt_Some _ _ _ Hi)).
  assert (i32 n = n) as Ei by (apply swrap_id; [reflexivity | unfold in_s; lia]).
  apply (iat_runs SB CK PID CWD l1 _ _ ip i1 _ Hi1). rewrite Es.
  destruct ((0 <? n) && (isize i <? off + n)) eqn:Hgrow; unfold when.
  - set (i2 := i1 <| isize := off + n |>). set (i3 := i2 <| ctime := u32 CK |>). set (i4 := i3 <| lmtime := u32 CK |>).
    assert (forall j, (<[ip := j]> ins) !! ip = Some j) as Hlk by (intros j; apply list_lookup_insert_eq, (lookup_lt_Some _ _ _ Hi)).
    apply runs_bind. apply (imod_runs SB CK PID CWD l1 _ _ ip i1 _ _ Hi1). rewrite list_insert_insert_eq. fold i2.
    apply (runs_step _ _ _ (u32 CK) (F l1 (<[ip := i2]> ins))); [reflexivity|].
    apply (imod_runs SB CK PID CWD l1 _ _ ip i2 _ _ (Hlk i2)). rewrite list_insert_insert_eq. fold i3.
    apply (runs_step _ _ _ (u32 CK) (F l1 (<[ip := i3]> ins))); [reflexivity|].
    apply (imod_runs SB CK PID CWD l1 _ _ ip i3 _ _ (Hlk i3)). rewrite list_insert_insert_eq. fold i4.
    assert (inum i4 = inum i) as En4 by exact En.
    eapply runs_wand; [apply (iupdate_runs SB LS CK PID CWD l1 (<[ip := i4]> ins) cur1 ∅ lgd1 ip i4)|].
    + exact HS1.
    + rewrite map_size_empty. lia.
    + apply Hlk.
    + change (idev i4) with (idev i1). congruence.
    + intros h E. rewrite lookup_empty in E. discriminate.
    + apply iblock_loggable; [exact HLay | rewrite En4; exact Hin | right; lia].
    + intros [] s' (l2 & -> & HS2). apply runs_ret. rewrite Ei. split; [reflexivity|].
      destruct (iupdate_keeps cur1 i4 i4) as (K1 & K2 & K3 & K4); [rewrite En4; exact Hin|].
      destruct K4 as (K4 & K5 & K6); [apply (file_ok_frame SB cur1 cur1 i1 i4); auto; apply W|].
      exists l2, (iupdate_cur SB cur1 i4), i4, ({[IBLOCK (inum i4) SB]} ∪ lgd1).
      split; [reflexivity|]. split; [exact HS2|]. split; [set_solver|]. split.
      { pose proof (size_union_le {[IBLOCK (inum i4) SB]} lgd1). rewrite size_singleton in *. lia. }
      split.
      * exact K4.
      * intros x Hx. pose proof (lay_data _ _ HLay). rewrite K3 by lia. apply (w_alloc _ _ _ _ _ _ W x Hx).
      * change (isize i4) with (off + n). lia.
      * split; [change (isize i4) with (off + n); lia|]. change (isize i4) with (off + n). intros bn Hbn Hlt.
        rewrite K5. apply Hmap; lia.
      * change (isize i4) with (off + n). intros o Ho'. rewrite K6; [rewrite Hlen; apply Hbytes; lia | lia|].
        destruct (block_bound o (off + n)) as [Hb1 Hb2]; [lia | lia | lia|]. apply Hmap; lia.
      * intros x Hx Hu Hm. destruct (Hoth x Hx Hu Hm) as [E1 E2]. rewrite K2 by exact Hx.
        rewrite K3 by apply (data_range SB LS x HLay Hx). auto.
      * intros x Hx Hb Hne. rewrite K1; [apply Hmeta; assumption | exact Hx | exact Hb | rewrite En4; exact Hne].
      * intros _. split; [|split; reflexivity]. unfold iupdate_cur. rewrite En4, bupd_eq. f_equal.
        destruct (iblock_meta _ Hin) as (_ & Hnd & Hnb). apply Hmeta; assumption.
      * unfold i4, i3, i2. rewrite (w_fields _ _ _ _ _ _ W). reflexivity.
  - apply (runs_step _ _ _ tt (F l1 (<[ip := i1]> ins))); [reflexivity|]. apply runs_ret. rewrite Ei. split; [reflexivity|].
    assert (off + n <= isize i) as Hle by lia.
    exists l1, cur1, i1, lgd1. split; [reflexivity|]. split; [exact HS1|]. split; [exact Hsub|]. split; [lia|]. split.
    + apply W.
    + apply W.
    + lia.
    + split; [rewrite Es; apply HM|]. rewrite Es. intros bn Hbn Hlt. apply Hmap; lia.
    + rewrite Es, Hlen. intros o Ho'. apply Hbytes. lia.
    + exact Hoth.
    + intros x Hx Hb _. apply Hmeta; assumption.
    + lia.
    + rewrite (w_fields _ _ _ _ _ _ W). destruct i; reflexivity.
Qed.
End run.
End rw.
