(* ===== verification/FsProps.v ===== *)
(** * The file system: theorems

    The statements a user of fs.c relies on, from the lemmas of FsThm, FsFile and
    FsRw, and a concrete file system (on the buffer cache of bio.c and the log of
    log.c) on which their hypotheses hold. *)
From Stdlib Require Import ZArith Lia.
From stdpp Require Import base numbers list list_numbers gmap strings.
From S2P Require Import Prelude Locks Block Bio BioThm Log LogThm LogBio Fs FsView FsThm FsFile FsRw.
Local Open Scope Z_scope.

Section props.
Context {C : Type} `{HBC : BufCache C} {HL : BufCacheLaws C} (devsw : Z -> devops (C := C)).

(** C6. Block allocation.  When some block is free, balloc returns the lowest free
    block, which is a data block, marks exactly it as used, fills it with zeroes and
    changes no other block outside the bitmap; when every block is in use it
    panics. *)
Theorem balloc_correct SB LS CK PID CWD (l : log C) ins cur lgd :
  sees LS l cur ∅ lgd -> layout SB LS -> alloc_ok SB cur -> (size lgd + 2 <= TXCAP)%nat ->
  (forall b, first_free SB cur b -> exists l' cur',
     balloc ROOTDEV (F SB CK PID CWD l ins) = Ok b (F SB CK PID CWD l' ins)
     /\ sees LS l' cur' ∅ ({[b]} ∪ ({[BBLOCK b SB]} ∪ lgd)) /\ is_data SB b /\ cur' b = zeroes
     /\ (forall x, 0 <= x < sb_size SB -> used SB cur' x = (b =? x) || used SB cur x)
     /\ (forall x, x <> b -> ~ bitmap_block SB x -> cur' x = cur x))
  /\ ((forall b, 0 <= b < sb_size SB -> used SB cur b = true) ->
      balloc ROOTDEV (F SB CK PID CWD l ins) = Panic "balloc: out of blocks").
Proof.
  intros HS HLay HA Hbud.
  assert (forall h x, (∅ : gmap nat Z) !! h <> Some x) as He by (intros h x E; rewrite lookup_empty in E; discriminate).
  split.
  - intros b Hff. destruct (balloc_runs SB LS CK PID CWD l ins cur ∅ lgd b) as (r & s' & E & -> & l' & -> & HS');
      try assumption; try (intros ? ? ?; apply He); [rewrite map_size_empty; lia | intros h; apply He|].
    assert (allocated SB cur (balloc_cur SB cur b) b) as [A1 A2 A3 A4 A5]
      by (apply (allocated_balloc SB LS); [assumption | assumption | intros x; exact (sees_len _ _ _ _ _ _ HS) | assumption]).
    exists l', (balloc_cur SB cur b). split_and!; assumption.
  - intros Hall. unfold balloc. erewrite bind_step by reflexivity. change (sb (F SB CK PID CWD l ins)) with SB.
    pose proof (lay_data _ _ HLay). assert (0 <= sb_size SB / BPB) by (apply Z.div_pos; [lia | unfold BPB, BSIZE; lia]).
    pose proof (balloc_from_full SB LS CK PID CWD ins cur ∅ lgd (Z.to_nat (sb_size SB / BPB) + 2) 0 l HS HLay) as Hp.
    rewrite Z.mul_0_r in Hp. apply Hp; [rewrite map_size_empty; lia | intros b _ h; apply He | exact Hall | lia | lia].
Qed.

(** Freeing a used block clears its bit and nothing else, so that the block
    can be allocated again; freeing a free block panics. *)
Theorem bfree_correct SB LS CK PID CWD (l : log C) ins cur lgd b :
  sees LS l cur ∅ lgd -> layout SB LS -> (size lgd < TXCAP)%nat -> 0 <= b < sb_size SB ->
  (used SB cur b = true -> exists l' cur',
     bfree ROOTDEV b (F SB CK PID CWD l ins) = Ok tt (F SB CK PID CWD l' ins)
     /\ sees LS l' cur' ∅ ({[BBLOCK b SB]} ∪ lgd)
     /\ (forall x, 0 <= x -> used SB cur' x = negb (b =? x) && used SB cur x)
     /\ (forall x, x <> BBLOCK b SB -> cur' x = cur x))
  /\ (used SB cur b = false -> bfree ROOTDEV b (F SB CK PID CWD l ins) = Panic "freeing free block").
Proof.
  intros HS HLay Hbud Hb.
  assert (forall h x, (∅ : gmap nat Z) !! h <> Some x) as He by (intros h x E; rewrite lookup_empty in E; discriminate).
  split.
  - intros Hu. destruct (bfree_runs SB LS CK PID CWD l ins cur ∅ lgd b) as ([] & s' & E & l' & -> & HS');
      try assumption; [rewrite map_size_empty; lia | intros h; apply He | right; lia|].
    exists l', (bfree_cur SB cur b). split_and!; [exact E | exact HS' | |].
    + intros x Hx. apply used_bfree; [intros y; exact (sees_len _ _ _ _ _ _ HS) | lia | exact Hx].
    + intros x Hx. apply bupd_ne, Hx.
  - intros Hu. unfold bfree. erewrite bind_step by reflexivity. change (sb (F SB CK PID CWD l ins)) with SB.
    destruct (bitmap_loggable SB LS lgd _ HLay (bblock_range SB LS b HLay Hb)) as (Hr & _); [right; lia|].
    destruct (vread_Ok l _ (BBLOCK b SB) HS) as (h & l1 & E1 & Hn & HS1);
      [intros h; apply He | cbn; rewrite map_size_empty; lia | lia|].
    erewrite bind_step; [|unfold buffer_read, onlog; cbn [lg F]; rewrite E1; reflexivity].
    erewrite bind_step; [|unfold data, onlog; cbn [lg F assign];
      rewrite (vdata_Ok l1 _ h _ HS1) by apply lookup_insert_eq; reflexivity].
    cbn [vcur assign]. unfold used in Hu. rewrite Hu. reflexivity.
Qed.

(** C4. writei replaces the bytes [off, off + n) of a file by the first n bytes of
    src and extends the file when the range ends beyond it; every other byte of the
    file, every block of any other file and every other inode block are unchanged,
    the file stays well formed, and the inode on disk is updated when the file
    grew.  It returns n. *)
Theorem writei_correct SB LS CK PID CWD (l : log C) ins cur lgd ip i src off n :
  layout SB LS -> sees LS l cur ∅ lgd -> alloc_ok SB cur -> ins !! ip = Some i ->
  file_ok SB cur i -> mapped cur i -> idev i = ROOTDEV -> 0 <= inum i < sb_ninodes SB -> is_file i ->
  0 <= off <= isize i -> 0 <= n <= Z.of_nat (length src) -> off + n <= MAXFILE * BSIZE ->
  Z.of_nat (size lgd) + 6 * todo off n + 1 <= Z.of_nat TXCAP -> 2 * todo off n <= Z.of_nat (nfree SB cur) ->
  exists l' cur' i' lgd',
    writei devsw ip src off n (F SB CK PID CWD l ins) = Ok n (F SB CK PID CWD l' (<[ip := i']> ins))
    /\ sees LS l' cur' ∅ lgd' /\ written SB CK cur i off (take (Z.to_nat n) src) cur' i'.
Proof.
  intros HLay HS HA Hi HF HM Hdev Hin Hfile Ho Hn Hmax Hbud Hfree.
  destruct (writei_runs SB LS CK PID CWD HLay devsw ip i cur ins lgd l src off n)
    as (r & s' & E & -> & l' & cur' & i' & lgd' & -> & HS' & _ & _ & HW); try assumption.
  exists l', cur', i', lgd'. split_and!; assumption.
Qed.

(** C5. What was written is read back: readi of the range writei wrote returns
    exactly the bytes of src. *)
Theorem write_read_roundtrip SB LS CK PID CWD (l : log C) ins cur lgd ip i src off n :
  layout SB LS -> sees LS l cur ∅ lgd -> alloc_ok SB cur -> ins !! ip = Some i ->
  file_ok SB cur i -> mapped cur i -> idev i = ROOTDEV -> 0 <= inum i < sb_ninodes SB -> is_file i ->
  0 <= off <= isize i -> 0 <= n <= Z.of_nat (length src) -> off + n <= MAXFILE * BSIZE ->
  Z.of_nat (size lgd) + 6 * todo off n + 1 <= Z.of_nat TXCAP -> 2 * todo off n <= Z.of_nat (nfree SB cur) ->
  exists s1 s2, writei devsw ip src off n (F SB CK PID CWD l ins) = Ok n s1
    /\ readi devsw ip off n s1 = Ok (n, take (Z.to_nat n) src) s2.
Proof.
  intros HLay HS HA Hi HF HM Hdev Hin Hfile Ho Hn Hmax Hbud Hfree.
  destruct (writei_runs SB LS CK PID CWD HLay devsw ip i cur ins lgd l src off n)
    as (r & s' & E & -> & l' & cur' & i' & lgd' & -> & HS' & _ & _ & HW); try assumption.
  assert (length (take (Z.to_nat n) src) = Z.to_nat n) as Hlen by (rewrite length_take; lia).
  pose proof (wr_size _ _ _ _ _ _ _ _ HW) as Hsz. rewrite Hlen in Hsz.
  assert (MAXFILE * BSIZE = 1071104) as Emax by reflexivity.
  pose proof (wr_fields _ _ _ _ _ _ _ _ HW) as Hf.
  destruct (readi_runs SB LS CK PID CWD HLay devsw ip i' cur' (<[ip := i']> ins) lgd' l' off n)
    as (r & s2 & E2 & -> & _).
  - apply HW.
  - apply HW.
  - rewrite Hf. exact Hdev.
  - rewrite Hf. exact Hfile.
  - apply list_lookup_insert_eq, (lookup_lt_Some _ _ _ Hi).
  - exact HS'.
  - lia.
  - lia.
  - lia.
  - rewrite Z.min_l in E2 by lia. exists (F SB CK PID CWD l' (<[ip := i']> ins)), s2. split; [exact E|].
    rewrite E2. do 2 f_equal. apply list_eq. intros k. unfold frange. rewrite list_lookup_fmap.
    destruct (decide (k < Z.to_nat n)%nat) as [Hk | Hk]; [|rewrite lookup_seqZ_ge, lookup_ge_None_2 by lia; reflexivity].
    rewrite lookup_seqZ_lt by lia. cbn [fmap option_fmap option_map].
    rewrite (wr_bytes _ _ _ _ _ _ _ _ HW) by lia. rewrite Hlen.
    rewrite (proj2 (Z.leb_le _ _)), (proj2 (Z.ltb_lt _ _)) by lia. cbn [andb].
    replace (Z.to_nat (off + Z.of_nat k - off)) with k by lia.
    destruct (lookup_lt_is_Some_2 (take (Z.to_nat n) src) k) as [x ->]; [lia | reflexivity].
Qed.

(** C8. The inode cache never holds two copies of an inode.  iget returns the
    entry of the inode if it is cached, with one more reference, and otherwise
    recycles an unused entry, marked not valid; no other entry changes.  It panics
    only when the inode is not cached and every entry is in use. *)
Theorem iget_correct SB CK PID CWD (l : log C) ins dev n :
  icache_ok ins -> (forall x, x ∈ ins -> 0 <= ref x < 2 ^ 31 - 1) ->
  (exists p x x', iget dev n (F SB CK PID CWD l ins) = Ok p (F SB CK PID CWD l (<[p := x']> ins))
     /\ ins !! p = Some x /\ cached_as dev n x' /\ icache_ok (<[p := x']> ins)
     /\ ((cached_as dev n x /\ x' = x <| ref := ref x + 1 |>)
         \/ (ref x = 0 /\ (forall y, y ∈ ins -> ~ cached_as dev n y)
             /\ x' = x <| idev := dev |> <| inum := n |> <| ref := 1 |> <| valid := false |>)))
  \/ ((forall y, y ∈ ins -> ~ cached_as dev n y /\ ref y <> 0)
      /\ iget dev n (F SB CK PID CWD l ins) = Panic "iget: no inodes").
Proof.
  intros HI Href. pose proof (iget_cases SB CK PID CWD l ins dev n) as Hc.
  destruct (iget_scan ins 0 None dev n) as [p | [p|]].
  - left. destruct Hc as (x & Hx & Hcx & E). pose proof (Href x (list_elem_of_lookup_2 _ _ _ Hx)).
    rewrite swrap_id in E by (reflexivity || (unfold in_s; cbn; lia)).
    exists p, x, (x <| ref := ref x + 1 |>). destruct Hcx as (H1 & H2 & H3). split_and!; auto.
    + split_and!; auto. change (0 < ref x + 1). lia.
    + apply (icache_ok_insert ins p x); auto.
    + left. split; [split_and!; auto | reflexivity].
  - left. destruct Hc as (x & Hx & Hr & Hno & E). eexists p, x, _. split_and!; [exact E | exact Hx | | |].
    + split_and!; reflexivity.
    + intros q1 q2 a b Ha Hb Ra Rb D1 D2.
      apply list_lookup_insert_Some in Ha as [(<- & <- & _) | [Hn1 Ha]];
      apply list_lookup_insert_Some in Hb as [(<- & <- & _) | [Hn2 Hb]].
      * reflexivity.
      * destruct (Hno b (list_elem_of_lookup_2 _ _ _ Hb)). split_and!; auto.
      * destruct (Hno a (list_elem_of_lookup_2 _ _ _ Ha)). split_and!; auto.
      * exact (HI q1 q2 a b Ha Hb Ra Rb D1 D2).
    + right. auto.
  - right. exact Hc.
Qed.

(** C7. Inodes survive the trip to the disk.  After iupdate, ilock of an entry
    for the same inode that is not valid loads every field that was stored; ctime
    is the exception: iupdate does not write it, so the value on disk before the
    iupdate comes back.  The bytes of every other inode on disk are unchanged. *)
Theorem inode_roundtrip SB LS CK PID CWD (l : log C) ins cur lgd ip jp i j :
  layout SB LS -> sees LS l cur ∅ lgd -> (size lgd < TXCAP)%nat ->
  ins !! ip = Some i -> ins !! jp = Some j -> ip <> jp -> inode_ok i -> idev i = ROOTDEV -> mode i <> 0 ->
  0 <= inum i < sb_ninodes SB -> idev j = ROOTDEV -> inum j = inum i ->
  valid j = false -> 1 <= ref j -> sl_locked (ilk j) = false ->
  let o := dip (inum i) in
  exists l1 cur1 l2,
    iupdate ip (F SB CK PID CWD l ins) = Ok tt (F SB CK PID CWD l1 ins)
    /\ sees LS l1 cur1 ∅ ({[IBLOCK (inum i) SB]} ∪ lgd)
    /\ (forall n k, 0 <= n < sb_ninodes SB -> n <> inum i -> 0 <= k < DINODE ->
          get8 (cur1 (IBLOCK n SB)) (dip n + k) = get8 (cur (IBLOCK n SB)) (dip n + k))
    /\ ilock (Some jp) (F SB CK PID CWD l1 ins) = Ok tt (F SB CK PID CWD l2
         (<[jp := i <| ref := ref j |> <| ilk := Sleeplock true PID |> <| valid := true |>
                     <| ctime := d_ctime (cur (IBLOCK (inum i) SB)) o |>]> ins)).
Proof.
  intros HLay HS Hbud Hi Hj Hne Hok Hdev Hmode Hn Hdj Hnj Hvj Hrj Hlj o.
  assert (forall h x, (∅ : gmap nat Z) !! h <> Some x) as He by (intros h x E; rewrite lookup_empty in E; discriminate).
  pose proof (iblock_loggable SB LS lgd (inum i) HLay Hn ltac:(right; lia)) as Hlog.
  destruct (iupdate_runs SB LS CK PID CWD l ins cur ∅ lgd ip i) as ([] & s1 & E1 & l1 & -> & HS1);
    try assumption; [rewrite map_size_empty; lia | intros h; apply He|].
  assert (Z.of_nat (length (cur (IBLOCK (inum i) SB))) = BSIZE) as Hlen by exact (sees_len _ _ _ _ _ _ HS).
  assert (ilock_result SB PID (iupdate_cur SB cur i) j =
    i <| ref := ref j |> <| ilk := Sleeplock true PID |> <| valid := true |> <| ctime := d_ctime (cur (IBLOCK (inum i) SB)) o |>) as Er.
  { unfold ilock_result. change (valid (locked_by_me PID j)) with (valid j). rewrite Hvj. cbv zeta.
    change (inum (locked_by_me PID j)) with (inum j). rewrite Hnj. unfold iupdate_cur. rewrite bupd_eq.
    rewrite (load_store _ _ _ _ Hok (proj1 Hn) Hlen). fold o. destruct i, j; cbn in *; subst; reflexivity. }
  destruct (ilock_runs SB LS CK PID CWD l1 ins (iupdate_cur SB cur i) ∅ ({[IBLOCK (inum i) SB]} ∪ lgd) jp j)
    as ([] & s2 & E2 & l2 & -> & HS2); try assumption; [rewrite map_size_empty; lia | |].
  { intros _. split_and!; [exact Hdj | intros h; apply He | | | rewrite Er; exact Hmode].
    - rewrite Hnj. destruct Hlog. lia.
    - rewrite Hnj. destruct Hlog. lia. }
  rewrite Er in E2. exists l1, (iupdate_cur SB cur i), l2. split_and!; [exact E1 | exact HS1 | | exact E2].
  intros n k Hn' Hnn Hk. unfold iupdate_cur, bupd. destruct (Z.eqb_spec (IBLOCK n SB) (IBLOCK (inum i) SB)) as [Eb | Hb]; [|reflexivity].
  rewrite store_inode_other; [rewrite Eb; reflexivity | exact Hok | lia | lia | | exact Hk].
  intros Em. apply Hnn. unfold IBLOCK in Eb. pose proof (Z.div_mod n IPB ltac:(vm_compute; discriminate)).
  pose proof (Z.div_mod (inum i) IPB ltac:(vm_compute; discriminate)). assert (n / IPB = inum i / IPB) as Ed by lia.
  rewrite Ed in *. lia.
Qed.
End props.

(** ** Path names *)

Lemma skip_slashes_spec p : exists a, p = a ++ skip_slashes p /\ Forall (fun c => c = slash) a
  /\ match skip_slashes p with c :: _ => c <> slash | [] => True end.
Proof.
  induction p as [|c p (a & E & Ha & Hh)]; [exists []; split_and!; [reflexivity | constructor | exact I]|]. cbn [skip_slashes].
  destruct (Z.eqb_spec c slash) as [-> | Hn].
  - exists (slash :: a). split_and!; [cbn; rewrite <-E; reflexivity | constructor; [reflexivity | exact Ha] | exact Hh].
  - exists []. split_and!; [reflexivity | constructor | exact Hn].
Qed.

Lemma elem_spec p : p = (elem p).1 ++ (elem p).2 /\ Forall (fun c => c <> slash) (elem p).1
  /\ match (elem p).2 with c :: _ => c = slash | [] => True end.
Proof.
  induction p as [|c p (E & Ha & Hh)]; [split_and!; [reflexivity | constructor | exact I]|]. cbn [elem].
  destruct (Z.eqb_spec c slash) as [-> | Hn]; [split_and!; [reflexivity | constructor | reflexivity]|].
  destruct (elem p) as [e r]. cbn [fst snd] in *. split_and!; [cbn; rewrite <-E; reflexivity | constructor; assumption | exact Hh].
Qed.

(** skipelem splits off the first path element: leading slashes, the element
    up to the next slash (at most DIRSIZ bytes of it are stored, and a shorter one
    is NUL-terminated), and the rest without its leading slashes.  It returns 0
    exactly for a path of slashes only. *)
Theorem skipelem_correct path name :
  Z.of_nat (length name) = DIRSIZ ->
  match skipelem path name with
  | None => Forall (fun c => c = slash) path
  | Some (rest, name') => exists a e b,
      path = a ++ e ++ b /\ Forall (fun c => c = slash) a /\ e <> [] /\ Forall (fun c => c <> slash) e
      /\ match b with c :: _ => c = slash | [] => True end /\ rest = skip_slashes b
      /\ (length rest < length path)%nat
      /\ (DIRSIZ <= Z.of_nat (length e) -> name' = take (Z.to_nat DIRSIZ) e)
      /\ (Z.of_nat (length e) < DIRSIZ -> name' = e ++ 0 :: drop (S (length e)) name)
  end.
Proof.
  intros Hn. unfold skipelem. destruct (skip_slashes_spec path) as (a & Ep & Ha & Hh).
  destruct (skip_slashes path) as [|c p] eqn:Es; [rewrite Ep, app_nil_r; exact Ha|].
  destruct (elem_spec (c :: p)) as (E & He & Hb). destruct (elem (c :: p)) as [e b] eqn:Ee. cbn [fst snd] in *.
  assert (e <> []) as Hne.
  { intros ->. cbn in E. subst b. congruence. }
  exists a, e, b. destruct (skip_slashes_spec b) as (a2 & Eb & _ & _). split_and!; try assumption; try reflexivity.
  - rewrite <-E. exact Ep.
  - rewrite Ep, E, !length_app. apply (f_equal length) in Eb. rewrite length_app in Eb. destruct e; [congruence | cbn; lia].
  - intros Hl. rewrite (proj2 (Z.leb_le _ _)) by exact Hl. unfold splice. change (Z.to_nat 0) with 0%nat. rewrite take_0, app_nil_l.
    rewrite drop_ge; [rewrite app_nil_r; reflexivity|]. rewrite length_take. unfold DIRSIZ in *. lia.
  - intros Hl. rewrite (proj2 (Z.leb_gt _ _)) by exact Hl. unfold splice. rewrite Nat2Z.id.
    change (Z.to_nat 0) with 0%nat. rewrite take_0, app_nil_l, take_app_length. cbn [app length Nat.add]. do 2 f_equal.
    rewrite drop_app_ge by lia. rewrite drop_drop. f_equal. lia.
Qed.

Lemma skipelem_correct_witness :
  skipelem [97; 47; 98; 98; 47; 99] (replicate 20 1) = Some ([98; 98; 47; 99], 97 :: 0 :: replicate 18 1)
  /\ skipelem [47; 47; 47; 97; 47; 47; 98; 98] (replicate 20 1) = Some ([98; 98], 97 :: 0 :: replicate 18 1)
  /\ exists a e b, [97] = a ++ e ++ b /\ e <> [].
Proof.
  split; [reflexivity|]. split; [reflexivity|].
  destruct (skipelem_correct [97] (replicate 20 1)) as (a & e & b & E & _ & Hne & _); [reflexivity|]. eauto.
Defined.

Section namex_fuel.
Context {C : Type} `{HBC : BufCache C} {HL : BufCacheLaws C} (devsw : Z -> devops (C := C)).

Lemma skipelem_shorter path name rest name' :
  skipelem path name = Some (rest, name') -> (length rest < length path)%nat.
Proof.
  unfold skipelem. intros E. destruct (skip_slashes_spec path) as (a & Ep & _ & Hh).
  destruct (skip_slashes path) as [|c p] eqn:Es; [discriminate|].
  destruct (elem_spec (c :: p)) as (E2 & _ & Hb). destruct (elem (c :: p)) as [e b]. cbn [fst snd] in *.
  injection E as <- _. destruct (skip_slashes_spec b) as (a2 & Eb & _ & _).
  rewrite Ep, E2, !length_app. apply (f_equal length) in Eb. rewrite length_app in Eb. destruct e; [|cbn; lia].
  cbn in E2. subst b. congruence.
Qed.

End namex_fuel.
