(* ===== verification/FsRun.v ===== *)
(** * A concrete file system

    A disk of 100 blocks laid out as mkfs does it, mounted through bio.c and log.c,
    with one transaction begun: the hypotheses of the file system theorems hold of
    it, and the theorems are applied to it. *)
From Stdlib Require Import ZArith Lia.
From stdpp Require Import base numbers list list_numbers gmap strings.
From S2P Require Import Prelude Locks Block Bio BioThm Log LogThm LogBio Fs FsView FsThm FsFile FsRw FsProps.
Local Open Scope Z_scope.

(** Superblock in block 1, log at 2, inodes at 32, bitmap in block 34 with the
    first 35 blocks in use. *)
Definition SB0 : superblock := Superblock 100 65 25 30 2 32 34.
Definition zeros : blk := replicate (Z.to_nat BSIZE) 0.
Definition sb_block : blk := put_blocks zeros 0 [100; 65; 25; 30; 2; 32; 34].
Definition bitmap0 : blk := [255; 255; 255; 255; 7] ++ replicate (Z.to_nat BSIZE - 5) 0.
Definition disk0 : Z -> blk := bupd (bupd (fun _ => zeros) 1 sb_block) 34 bitmap0.

Lemma disk0_size b : Z.of_nat (length (disk0 b)) = BSIZE.
Proof. unfold disk0, bupd. destruct (b =? 34), (b =? 1); reflexivity. Qed.

Lemma layout0 : layout SB0 2.
Proof. split; vm_compute; intuition congruence. Qed.

Lemma mounted : exists (l : log bstate) cur, sees 2 l cur ∅ ∅ /\ forall b, home 2 b -> cur b = disk0 b.
Proof.
  destruct (begin_txn (C := bstate) 2 30 disk0) as (l & c & _ & HT & Hi & Hc & H1 & H2 & H3 & _).
  { apply disk0_size. } { vm_compute. reflexivity. } { unfold LOGSIZE, MAXOPBLOCKS. lia. }
  { unfold LOGSIZE, MAXOPBLOCKS. lia. } { split; vm_compute; reflexivity. }
  assert (cpin c = ∅) as Hp.
  { apply set_eq. intros b. rewrite (tx_pin _ _ _ HT). set_solver. }
  exists l, (ccur c). split; [|intros b Hb; apply Hc, Hb]. split.
  - exists c, []. split_and!; [exact HT | reflexivity | exact Hi | exact Hp|]. intros b _. right.
    apply (crep_clean (bc l)); [exact (tx_rep _ _ _ HT) | apply idle_held, Hi | rewrite Hp; set_solver].
  - cbn. rewrite size_empty. lia.
  - lia.
  - exact H2.
  - exact H1.
Qed.

Section on_disk0.
Context (cur : Z -> blk) (Hcur : forall b, home 2 b -> cur b = disk0 b).

Lemma used0 b : 0 <= b < 100 -> used SB0 cur b = used SB0 disk0 b.
Proof.
  intros Hb. unfold used, BBLOCK. rewrite Z.div_small by (unfold BPB, BSIZE; lia).
  change (0 + sb_bmapstart SB0) with 34. rewrite Hcur; [reflexivity|]. unfold home, LOGSIZE, MAXOPBLOCKS. lia.
Qed.

Lemma used_disk0 : forallb (fun b => Bool.eqb (used SB0 disk0 b) (b <? 35)) (seqZ 0 100) = true.
Proof. vm_compute. reflexivity. Qed.

Lemma used_first b : 0 <= b < 100 -> used SB0 cur b = (b <? 35).
Proof.
  intros Hb. rewrite used0 by exact Hb. pose proof used_disk0 as H. rewrite forallb_forall in H.
  apply eqb_prop, H, list_elem_of_In. apply elem_of_seqZ. lia.
Qed.

Lemma alloc0 : alloc_ok SB0 cur.
Proof. intros b Hb. change (datastart SB0) with 35 in Hb. rewrite used_first by lia. apply Z.ltb_lt. lia. Qed.

Lemma free0 : first_free SB0 cur 35.
Proof.
  split; [cbn; lia|]. split; [rewrite used_first by lia; reflexivity|].
  intros b Hb. rewrite used_first by lia. apply Z.ltb_lt. lia.
Qed.

Lemma nfree0 : nfree SB0 cur = 65%nat.
Proof.
  unfold nfree. rewrite (length_filter_ext _ (fun b => 35 <= b)); [vm_compute; reflexivity|].
  intros b Hb. apply elem_of_seqZ in Hb. rewrite used_first by (cbn in Hb; lia). rewrite Z.ltb_ge. reflexivity.
Qed.

(** An empty regular file, locked by process 1, with inode number 2. *)
Definition file0 : inode :=
  Inode ROOTDEV 2 1 (Sleeplock true 1) true (i16 33188) 0 0 0 0 1 0 (replicate 12 0) 0 0.

Lemma fblock0 bn : 0 <= bn -> fblock cur file0 bn = 0.
Proof.
  intros Hbn. unfold fblock. destruct (Z.ltb_spec bn (Z.of_nat NDIRECT)); [|reflexivity].
  cbn [addrs file0]. rewrite lookup_replicate_2 by (change (Z.of_nat NDIRECT) with 11 in *; lia). reflexivity.
Qed.

Lemma file_ok0 : file_ok SB0 cur file0.
Proof.
  split; [reflexivity | left; reflexivity | |].
  - intros bn Hbn. left. apply fblock0. lia.
  - intros bn bn' H1 H2 _ Hn. rewrite fblock0 in Hn by lia. congruence.
Qed.

Lemma mapped0 : mapped cur file0.
Proof. split; [vm_compute; discriminate|]. intros bn Hbn Hlt. cbn [isize file0] in Hlt. unfold BSIZE in Hlt. lia. Qed.
End on_disk0.

Lemma file0_ok : inode_ok file0.
Proof.
  assert (in_u 32 0) by (unfold in_u; lia). assert (in_s 16 0) by (unfold in_s; cbn; lia). assert (in_s 16 1) by (unfold in_s; cbn; lia).
  split; cbn [mode major minor nlink lmtime isize iuid igid addrs file0]; try assumption; try (apply swrap_range; reflexivity).
  - reflexivity.
  - apply Forall_replicate. assumption.
Qed.

Definition no_devices : Z -> devops (C := bstate) := fun _ => Devops None None.
Definition icache0 : list inode := [file0; file0 <| ref := 0 |> <| ilk := Sleeplock false 0 |>].

Lemma balloc_correct_witness : exists (l l' : log bstate) cur',
  balloc ROOTDEV (F SB0 0 1 0 l []) = Ok 35 (F SB0 0 1 0 l' []) /\ cur' 35 = zeroes.
Proof.
  destruct mounted as (l & cur & HS & Hc).
  destruct (balloc_correct SB0 2 0 1 0 l [] cur ∅ HS layout0 (alloc0 cur Hc)) as [Hb _]; [rewrite size_empty; unfold TXCAP; lia|].
  destruct (Hb 35 (free0 cur Hc)) as (l' & cur' & E & _ & _ & Hz & _). exists l, l', cur'. split; assumption.
Defined.

Lemma bfree_correct_witness : exists (l l' : log bstate),
  bfree ROOTDEV 34 (F SB0 0 1 0 l []) = Ok tt (F SB0 0 1 0 l' [])
  /\ bfree ROOTDEV 50 (F SB0 0 1 0 l []) = Panic "freeing free block".
Proof.
  destruct mounted as (l & cur & HS & Hc).
  destruct (bfree_correct SB0 2 0 1 0 l [] cur ∅ 34 HS layout0) as [Hf _]; [rewrite size_empty; unfold TXCAP; lia | cbn; lia|].
  destruct (bfree_correct SB0 2 0 1 0 l [] cur ∅ 50 HS layout0) as [_ Hp]; [rewrite size_empty; unfold TXCAP; lia | cbn; lia|].
  destruct Hf as (l' & cur' & E & _); [rewrite used_first by (assumption || lia); reflexivity|].
  exists l, l'. split; [exact E|]. apply Hp. rewrite used_first by (assumption || lia). reflexivity.
Defined.

Definition hello : list Z := [104; 101; 108; 108; 111].

Lemma writei_correct_witness : exists (l l' : log bstate) i',
  writei no_devices 0 hello 0 5 (F SB0 0 1 0 l icache0) = Ok 5 (F SB0 0 1 0 l' (<[0%nat := i']> icache0))
  /\ isize i' = 5.
Proof.
  destruct mounted as (l & cur & HS & Hc).
  destruct (writei_correct no_devices SB0 2 0 1 0 l icache0 cur ∅ 0 file0 hello 0 5) as (l' & cur' & i' & lgd' & E & _ & W).
  - exact layout0.
  - exact HS.
  - exact (alloc0 cur Hc).
  - reflexivity.
  - apply file_ok0.
  - apply mapped0.
  - reflexivity.
  - cbn. lia.
  - reflexivity.
  - cbn. lia.
  - cbn. lia.
  - vm_compute. discriminate.
  - vm_compute. discriminate.
  - rewrite (nfree0 cur Hc). vm_compute. discriminate.
  - exists l, l', i'. split; [exact E|]. rewrite (wr_size _ _ _ _ _ _ _ _ W). reflexivity.
Defined.

Lemma write_read_roundtrip_witness : exists (l : log bstate) s1 s2,
  writei no_devices 0 hello 0 5 (F SB0 0 1 0 l icache0) = Ok 5 s1 /\ readi no_devices 0 0 5 s1 = Ok (5, hello) s2.
Proof.
  destruct mounted as (l & cur & HS & Hc).
  destruct (write_read_roundtrip no_devices SB0 2 0 1 0 l icache0 cur ∅ 0 file0 hello 0 5) as (s1 & s2 & E1 & E2).
  - exact layout0.
  - exact HS.
  - exact (alloc0 cur Hc).
  - reflexivity.
  - apply file_ok0.
  - apply mapped0.
  - reflexivity.
  - cbn. lia.
  - reflexivity.
  - cbn. lia.
  - cbn. lia.
  - vm_compute. discriminate.
  - vm_compute. discriminate.
  - rewrite (nfree0 cur Hc). vm_compute. discriminate.
  - exists l, s1, s2. split; [exact E1 | exact E2].
Defined.

Lemma iget_correct_witness : exists (l : log bstate) p x', iget 1 2 (F SB0 0 1 0 l icache0) = Ok p (F SB0 0 1 0 l (<[p := x']> icache0)).
Proof.
  destruct mounted as (l & _). destruct (iget_correct SB0 0 1 0 l icache0 1 2) as [(p & x & x' & E & _) | [Hn _]].
  - intros p q x y Hx Hy Rx Ry _ _. destruct p as [|[|p]], q as [|[|q]]; cbn in Hx, Hy; simplify_eq; cbn in *; try reflexivity; try lia.
  - intros x Hx. unfold icache0 in Hx. apply elem_of_cons in Hx as [-> | Hx]; [cbn; lia|].
    apply list_elem_of_singleton in Hx as ->. cbn. lia.
  - exists l, p, x'. exact E.
  - exfalso. destruct (Hn file0) as [Hc _]; [unfold icache0; set_solver|]. apply Hc. repeat split.
Defined.

Lemma inode_roundtrip_witness : exists (l l1 l2 : log bstate) j',
  iupdate 0 (F SB0 0 1 0 l [file0; file0 <| ilk := Sleeplock false 0 |> <| valid := false |>])
    = Ok tt (F SB0 0 1 0 l1 [file0; file0 <| ilk := Sleeplock false 0 |> <| valid := false |>])
  /\ ilock (Some 1%nat) (F SB0 0 1 0 l1 [file0; file0 <| ilk := Sleeplock false 0 |> <| valid := false |>])
    = Ok tt (F SB0 0 1 0 l2 [file0; j']) /\ isize j' = 0 /\ mode j' = i16 33188.
Proof.
  destruct mounted as (l & cur & HS & Hc).
  destruct (inode_roundtrip SB0 2 0 1 0 l [file0; file0 <| ilk := Sleeplock false 0 |> <| valid := false |>] cur ∅ 0 1 file0
    (file0 <| ilk := Sleeplock false 0 |> <| valid := false |>)) as (l1 & cur1 & l2 & E1 & _ & _ & E2).
  - exact layout0.
  - exact HS.
  - rewrite size_empty. unfold TXCAP. lia.
  - reflexivity.
  - reflexivity.
  - discriminate.
  - exact file0_ok.
  - reflexivity.
  - vm_compute. discriminate.
  - cbn. lia.
  - reflexivity.
  - reflexivity.
  - reflexivity.
  - cbn. lia.
  - reflexivity.
  - eexists l, l1, l2, _. split; [exact E1|]. split; [exact E2|]. split; reflexivity.
Defined.

