(* ===== verification/IdeDev.v ===== *)
(** * The disk as a device (ide0read, ide0write of src/drivers/ide/ide.c, badread,
      badwrite of src/kernel/fs/file.c)

    Entries of devsw for the majors of the disk: they go through the buffer cache to
    the blocks of the device the inode lies on, whatever its own major and minor.  A
    read or write past the last block of the disk panics in ide_start. *)
From Stdlib Require Import ZArith Lia.
From stdpp Require Import base numbers list gmap strings.
From S2P Require Import Prelude Locks Block Bio BioThm Log LogThm Fs FsView FsThm FsFile FsRw.
Local Open Scope Z_scope.

Section idedev.
Context {C : Type} `{BufCache C}.

Definition buffer_write (bp : nat) : M (fsys C) unit := onlog (onbc (bwrite bp)).

Fixpoint ide_read_loop (fuel : nat) (ip : nat) (n off bytes_read : Z) : M (fsys C) (Z * list Z) :=
  match fuel with
  | O => fault "ide0read"
  | S fuel' =>
      if 0 <? n then
        let sector := off / BSIZE in
        let sector_off := off mod BSIZE in
        i ← iat ip;
        bp ← buffer_read (idev i) sector;
        let count := Z.min n (BSIZE - sector_off) in
        d ← data bp;
        let part := take (Z.to_nat count) (drop (Z.to_nat sector_off) d) in
        buffer_release bp;;
        r ← ide_read_loop fuel' ip (n - count) (u32 (off + count)) (bytes_read + count);
        mret (r.1, part ++ r.2)
      else mret (bytes_read, [])
  end.
Definition ide0read (minor : Z) (ip : nat) (n off : Z) : M (fsys C) (Z * list Z) :=
  ide_read_loop (Z.to_nat (n / BSIZE) + 3) ip n off 0.

(** The sector of block [lbn] of the device; the minor number is added. *)
Fixpoint ide_write_loop (fuel : nat) (ip : nat) (src : list Z) (n off tot : Z) (to_sector : Z -> M (fsys C) Z) (done : nat -> M (fsys C) unit) : M (fsys C) (Z * Z) :=
  match fuel with
  | O => fault "ide0write"
  | S fuel' =>
      if 0 <? n then
        sector ← to_sector (off / BSIZE);
        let boff := off mod BSIZE in
        i ← iat ip;
        bp ← buffer_read (idev i) sector;
        let count := if n <? BSIZE - boff then n else BSIZE - boff in
        d ← data bp;
        let part := take (Z.to_nat count) src in
        if Z.of_nat (length part) <? count then fault "src"
        else
          set_data bp (splice d boff part);;
          done bp;;
          buffer_release bp;;
          ide_write_loop fuel' ip (drop (Z.to_nat count) src) (n - count) (u32 (off + count)) (tot + count) to_sector done
      else mret (tot, off)
  end.
Definition ide0write (_ : Z) (ip : nat) (src : list Z) (n off : Z) : M (fsys C) Z :=
  let fuel := (Z.to_nat (n / BSIZE) + 3)%nat in
  i ← iat ip;
  if Z.land (mode i) S_IFMT =? S_IFBLK then
    let base := u32 (minor i) in
    r ← ide_write_loop fuel ip src n off 0 (fun lbn => mret (u32 (base + lbn))) buffer_write;
    mret r.1
  else
    r ← ide_write_loop fuel ip src n off 0 (bmap ip) log_write;
    i ← iat ip;
    when (isize i <? r.2) (imod ip (fun i => i <| isize := r.2 |>);; iupdate ip);;
    mret r.1.

Definition badread (minor : Z) (ip : nat) (n off : Z) : M (fsys C) (Z * list Z) := mret (-1, []).
Definition badwrite (minor : Z) (ip : nat) (src : list Z) (n off : Z) : M (fsys C) Z := mret (-1).

(** ** What a transfer does to the bytes of the disk *)

(** Byte [o] of the disk, in the latest contents of its blocks. *)
Definition dbyte (cur : Z -> blk) (o : Z) : Z := get8 (cur (o / BSIZE)) (o mod BSIZE).

(** The file system with the buffer cache replaced. *)
Definition withbc (s : fsys C) (x : C) : fsys C := s <| lg := lg s <| bc := x |> |>.

(** A cache with no buffer handed out and one to spare. *)
Definition idle (c : cache) : Prop := cheld c = ∅ /\ (size (cpin c) < NBUF)%nat.

Lemma onbc_run {A B} (m : M C A) (k : A -> M (fsys C) B) s x a x' Q :
  m x = Ok a x' -> runs (k a) (withbc s x') Q -> runs (onlog (onbc m) ≫= k) (withbc s x) Q.
Proof.
  intros E. apply runs_step. unfold onlog, onbc. change (bc (lg (withbc s x))) with x. rewrite E. reflexivity.
Qed.

Lemma iat_run {B} ip i (k : inode -> M (fsys C) B) s x Q :
  inodes s !! ip = Some i -> runs (k i) (withbc s x) Q -> runs (i ← iat ip; k i) (withbc s x) Q.
Proof.
  intros Hi. apply runs_step. unfold iat. mstep. change (inodes (withbc s x)) with (inodes s). rewrite Hi. reflexivity.
Qed.

Context {HL : BufCacheLaws C}.

Lemma idle_room c b : idle c -> room c b.
Proof.
  intros [Hh Hp]. unfold room, held_blocks. rewrite Hh, map_to_list_empty. cbn [fmap list_fmap list_to_set].
  pose proof (size_union_le ({[b]} ∪ ∅) (cpin c)) as Hu. rewrite union_empty_r_L, size_singleton in Hu.
  rewrite union_empty_r_L. lia.
Qed.

Lemma idle_free c b : idle c -> b ∉ held_blocks c.
Proof. intros [Hh _]. unfold held_blocks. rewrite Hh, map_to_list_empty. set_solver. Qed.

(** A block read, looked at and given back. *)
Lemma peek_run {B} b (k : nat -> blk -> M (fsys C) B) s x c Q :
  crep x c -> idle c -> 0 <= b < 50000 ->
  (forall h x', crep x' (c <| cheld := <[h := b]> (cheld c) |>) -> runs (k h (ccur c b)) (withbc s x') Q) ->
  runs (bp ← buffer_read ROOTDEV b; d ← data bp; k bp d) (withbc s x) Q.
Proof.
  intros Hc Hi Hb HK. destruct (bread_ok x c b Hc (idle_free c b Hi) (idle_room c b Hi) Hb) as (h & x1 & E & _ & R).
  apply (onbc_run _ _ _ _ _ _ _ E). refine (onbc_run _ _ _ _ _ _ _ (bdata_ok _ _ h b R _) (HK h x1 R)).
  apply lookup_insert_eq.
Qed.

Lemma put_back c h b c' :
  idle c -> cheld c' = <[h := b]> (cheld c) -> c' <| cheld := delete h (cheld c') |> = c' <| cheld := ∅ |>.
Proof. intros [Hh _] E. rewrite E, Hh, delete_insert_eq, delete_empty. reflexivity. Qed.

Lemma release_run {B} h b (k : unit -> M (fsys C) B) s x c c' Q :
  crep x c' -> idle c -> cheld c' = <[h := b]> (cheld c) -> b ∈ cpin c' \/ ccur c' b = cdisk c' b ->
  (forall x', crep x' (c' <| cheld := ∅ |>) -> runs (k tt) (withbc s x') Q) ->
  runs (buffer_release h ≫= k) (withbc s x) Q.
Proof.
  intros Hc Hi E Hcl HK. destruct (brelse_ok x c' h b Hc) as (x1 & E1 & R); [rewrite E; apply lookup_insert_eq | exact Hcl|].
  rewrite (put_back c h b c' Hi E) in R. exact (onbc_run _ _ _ _ _ _ _ E1 (HK x1 R)).
Qed.

Lemma idle_clean x c b : crep x c -> idle c -> b ∈ cpin c \/ ccur c b = cdisk c b.
Proof.
  intros Hc Hi. destruct (decide (b ∈ cpin c)); [left; assumption | right].
  apply (crep_clean x c b Hc (idle_free c b Hi)). assumption.
Qed.

Lemma dbyte_block cur off m :
  Z.of_nat (length (cur (off / BSIZE))) = BSIZE -> 0 <= off -> 0 <= m <= BSIZE - off mod BSIZE ->
  take (Z.to_nat m) (drop (Z.to_nat (off mod BSIZE)) (cur (off / BSIZE))) = dbyte cur <$> seqZ off m.
Proof.
  intros Hl Ho Hm. pose proof (Z.mod_pos_bound off BSIZE ltac:(unfold BSIZE; lia)).
  rewrite get8_take_drop by lia. apply list_eq. intros k. rewrite !list_lookup_fmap.
  destruct (decide (Z.of_nat k < m)) as [Hk | Hk]; [|rewrite !lookup_seqZ_ge by lia; reflexivity].
  rewrite !lookup_seqZ_lt by lia. cbn [fmap option_fmap option_map]. unfold dbyte.
  destruct (same_block off (Z.of_nat k)) as [-> ->]; [lia | lia | reflexivity].
Qed.

Lemma on_disk off n : 0 <= off -> 0 < n -> off + n <= 50000 * BSIZE -> 0 <= off / BSIZE < 50000.
Proof.
  intros Ho Hn Hb. split; [apply Z.div_pos; unfold BSIZE; lia|]. apply Z.div_lt_upper_bound; unfold BSIZE in *; lia.
Qed.

(** *** ide0read *)

Lemma ide_read_loop_runs ip i s c fuel : forall x n off tot,
  inodes s !! ip = Some i -> idev i = ROOTDEV -> crep x c -> idle c ->
  0 <= off -> 0 <= n -> off + n <= 50000 * BSIZE -> enough fuel off n ->
  runs (ide_read_loop fuel ip n off tot) (withbc s x) (fun r s' => r = (tot + n, dbyte (ccur c) <$> seqZ off n)
    /\ exists x', s' = withbc s x' /\ crep x' c).
Proof.
  induction fuel as [|fuel IH]; intros x n off tot Hip Hdev Hc Hi Ho Hn Hb Hf; [destruct Hf; lia|].
  cbn [ide_read_loop]. destruct (Z.ltb_spec 0 n) as [Hlt | Hge].
  2:{ apply runs_ret. split; [|eauto]. rewrite seqZ_nil by lia. cbn. f_equal. lia. }
  apply (iat_run ip i _ _ _ _ Hip). rewrite Hdev. cbv zeta. pose proof (Z.mod_pos_bound off BSIZE ltac:(unfold BSIZE; lia)).
  apply (peek_run _ (fun bp d => _ : M (fsys C) (Z * list Z)) s x c _ Hc Hi (on_disk off n Ho Hlt Hb)). intros h x1 R.
  refine (release_run h _ _ s x1 c _ _ R Hi eq_refl (idle_clean x c _ Hc Hi) _). intros x2 R2.
  assert ((c <| cheld := <[h := off / BSIZE]> (cheld c) |>) <| cheld := ∅ |> = c) as Ec
    by (destruct c; destruct Hi as [Hh _]; cbn in Hh; subst; reflexivity).
  rewrite Ec in R2. set (m := Z.min n (BSIZE - off mod BSIZE)) in *.
  assert (u32 (off + m) = off + m) as Eu by (unfold uwrap; apply Z.mod_small; unfold BSIZE in *; lia). rewrite Eu.
  apply runs_bind. eapply runs_wand; [apply (IH x2 (n - m) (off + m) (tot + m)); try assumption; try lia|].
  { exact (enough_next fuel off n Ho Hlt Hf). }
  intros r s' (-> & x3 & -> & R3). apply runs_ret. split; [|eauto]. cbn [fst snd].
  rewrite dbyte_block by (lia || exact (crep_size _ _ _ Hc)). rewrite <-fmap_app, <-seqZ_app by lia.
  f_equal; [lia | f_equal; f_equal; lia].
Qed.

(** *** ide0write to a block device *)

(** [src] over the bytes from [off] on. *)
Definition overlay (cur : Z -> Z) (off : Z) (src : list Z) (o : Z) : Z :=
  if (off <=? o) && (o <? off + Z.of_nat (length src)) then default 0 (src !! Z.to_nat (o - off)) else cur o.

Lemma overlay_ext cur cur' off src o : cur o = cur' o -> overlay cur off src o = overlay cur' off src o.
Proof. intros E. unfold overlay. rewrite E. reflexivity. Qed.

Lemma overlay_app cur off a b o :
  0 <= o -> overlay (overlay cur off a) (off + Z.of_nat (length a)) b o = overlay cur off (a ++ b) o.
Proof.
  intros Ho. unfold overlay. rewrite length_app.
  destruct (Z.leb_spec (off + Z.of_nat (length a)) o), (Z.ltb_spec o (off + Z.of_nat (length a) + Z.of_nat (length b))),
    (Z.leb_spec off o), (Z.ltb_spec o (off + Z.of_nat (length a))), (Z.ltb_spec o (off + Z.of_nat (length a + length b)));
    cbn [andb]; try lia; try reflexivity.
  - rewrite lookup_app_r by lia. do 2 f_equal. lia.
  - rewrite lookup_app_l by lia. reflexivity.
Qed.

Lemma dbyte_splice cur off part o :
  Z.of_nat (length (cur (off / BSIZE))) = BSIZE -> 0 <= off -> 0 <= o -> Z.of_nat (length part) <= BSIZE - off mod BSIZE ->
  dbyte (bupd cur (off / BSIZE) (splice (cur (off / BSIZE)) (off mod BSIZE) part)) o = overlay (dbyte cur) off part o.
Proof.
  intros Hl Ho Hoo Hp. unfold dbyte, overlay. pose proof (Z.mod_pos_bound off BSIZE ltac:(unfold BSIZE; lia)).
  pose proof (Z.mod_pos_bound o BSIZE ltac:(unfold BSIZE; lia)).
  pose proof (Z.div_mod off BSIZE ltac:(unfold BSIZE; lia)). pose proof (Z.div_mod o BSIZE ltac:(unfold BSIZE; lia)).
  destruct (Z.eq_dec (o / BSIZE) (off / BSIZE)) as [E | NE].
  - rewrite E, bupd_eq, get8_splice by lia. rewrite E in *.
    replace (off mod BSIZE <=? o mod BSIZE) with (off <=? o) by (apply eq_true_iff_eq; rewrite !Z.leb_le; lia).
    replace (o mod BSIZE <? off mod BSIZE + Z.of_nat (length part)) with (o <? off + Z.of_nat (length part)) by (apply eq_true_iff_eq; rewrite !Z.ltb_lt; lia).
    replace (o - off) with (o mod BSIZE - off mod BSIZE) by lia. reflexivity.
  - rewrite bupd_ne by exact NE. destruct (Z.leb_spec off o), (Z.ltb_spec o (off + Z.of_nat (length part))); cbn [andb]; try reflexivity.
    exfalso. apply NE. destruct (same_block off (o - off)) as [E' _]; [lia | lia|]. rewrite <-E'. f_equal. lia.
Qed.

(** [c'] is [c] with [src] at [off]: in the cache and, where it was written, on the disk. *)
Record disk_wrote (c : cache) (off : Z) (src : list Z) (c' : cache) : Prop := DiskWrote {
  dw_cur o : 0 <= o -> dbyte (ccur c') o = overlay (dbyte (ccur c)) off src o;
  dw_disk o : off <= o < off + Z.of_nat (length src) -> dbyte (cdisk c') o = dbyte (ccur c') o;
  dw_pin : cpin c' ⊆ cpin c;
  dw_held : cheld c' = ∅
}.

Lemma disk_wrote_nil c off : idle c -> disk_wrote c off [] c.
Proof. intros [Hh _]. split; [|cbn; lia | reflexivity | exact Hh]. intros o _. unfold overlay. cbn [length]. destruct (Z.leb_spec off o), (Z.ltb_spec o (off + Z.of_nat 0)); cbn [andb]; (lia || reflexivity). Qed.

Lemma disk_wrote_app c off a c1 b c2 :
  0 <= off -> disk_wrote c off a c1 -> disk_wrote c1 (off + Z.of_nat (length a)) b c2 ->
  (forall o, off <= o < off + Z.of_nat (length a) -> dbyte (cdisk c2) o = dbyte (ccur c2) o) ->
  disk_wrote c off (a ++ b) c2.
Proof.
  intros Ho [A1 A2 A3 A4] [B1 B2 B3 B4] Hk. split; [| |set_solver|exact B4].
  - intros o Hoo. rewrite B1 by exact Hoo. rewrite <-overlay_app by exact Hoo. apply overlay_ext, A1, Hoo.
  - intros o. rewrite length_app. intros Hr. destruct (Z.lt_ge_cases o (off + Z.of_nat (length a))); [apply Hk; lia | apply B2; lia].
Qed.

Lemma block_wrote c b d h off part :
  idle c -> (forall x, Z.of_nat (length (ccur c x)) = BSIZE) -> 0 <= off -> b = off / BSIZE ->
  Z.of_nat (length part) <= BSIZE - off mod BSIZE -> d = splice (ccur c b) (off mod BSIZE) part ->
  disk_wrote c off part (Cache (bupd (cdisk c) b d) (bupd (ccur c) b d) ∅ (cpin c ∖ {[b]}) h).
Proof.
  intros Hi Hl Ho -> Hp ->. split; cbn [ccur cdisk cpin cheld].
  - intros o Hoo. apply dbyte_splice; [apply Hl | assumption..].
  - intros o Hr. unfold dbyte. destruct (same_block off (o - off)) as [E _]; [lia | lia|].
    replace (off + (o - off)) with o in E by lia. rewrite E, !bupd_eq. reflexivity.
  - set_solver.
  - reflexivity.
Qed.

Lemma idle_wrote c off src c' : idle c -> disk_wrote c off src c' -> idle c'.
Proof. intros [_ Hp] [_ _ Hs Hh]. split; [exact Hh|]. pose proof (subseteq_size _ _ Hs). lia. Qed.

(** A block that agrees with its copy on the disk still does after the writes behind it. *)
Lemma ide_write_loop_runs ip i s base fuel : forall x c n off tot src,
  inodes s !! ip = Some i -> idev i = ROOTDEV -> crep x c -> idle c -> 0 <= base ->
  0 <= off -> n = Z.of_nat (length src) -> base * BSIZE + off + n <= 50000 * BSIZE -> enough fuel off n ->
  runs (ide_write_loop fuel ip src n off tot (fun lbn => mret (u32 (base + lbn))) buffer_write) (withbc s x)
    (fun r s' => r = (tot + n, off + n) /\ exists x' c', s' = withbc s x' /\ crep x' c'
      /\ disk_wrote c (base * BSIZE + off) src c'
      /\ forall b, ccur c b = cdisk c b -> ccur c' b = cdisk c' b).
Proof.
  induction fuel as [|fuel IH]; intros x c n off tot src Hip Hdev Hc Hi Hb0 Ho Hn Hb Hf; [destruct Hf; lia|].
  cbn [ide_write_loop]. destruct (Z.ltb_spec 0 n) as [Hlt | Hge].
  2:{ apply runs_ret. destruct src; [|cbn in Hn; lia]. cbn in Hn. subst n. split; [f_equal; lia|].
      exists x, c. split_and!; auto using disk_wrote_nil. }
  pose proof (Z.mod_pos_bound off BSIZE ltac:(unfold BSIZE; lia)) as Hmod.
  set (pos := base * BSIZE + off). assert (pos / BSIZE = base + off / BSIZE) as Epd
    by (unfold pos; rewrite Z.add_comm, Z.div_add by (unfold BSIZE; lia); lia).
  assert (pos mod BSIZE = off mod BSIZE) as Epm by (unfold pos; rewrite Z.add_comm, Z.mod_add by (unfold BSIZE; lia); reflexivity).
  pose proof (on_disk pos n ltac:(unfold pos, BSIZE in *; lia) Hlt Hb) as Hpb. rewrite Epd in Hpb.
  assert (u32 (base + off / BSIZE) = base + off / BSIZE) as Eu by (unfold uwrap; apply Z.mod_small; lia).
  apply (runs_step _ _ _ (base + off / BSIZE) (withbc s x)); [rewrite Eu; reflexivity|]. cbv zeta.
  apply (iat_run ip i _ _ _ _ Hip). rewrite Hdev.
  apply (peek_run _ (fun bp d => _ : M (fsys C) (Z * Z)) s x c _ Hc Hi Hpb). intros h x1 R.
  replace (if n <? BSIZE - off mod BSIZE then n else BSIZE - off mod BSIZE) with (Z.min n (BSIZE - off mod BSIZE))
    by (destruct (Z.ltb_spec n (BSIZE - off mod BSIZE)); lia).
  set (m := Z.min n (BSIZE - off mod BSIZE)) in *. set (part := take (Z.to_nat m) src).
  assert (Z.of_nat (length part) = m) as Hpl by (unfold part; rewrite length_take; lia).
  rewrite (proj2 (Z.ltb_ge _ _)) by lia. set (b := base + off / BSIZE) in *.
  set (d := splice (ccur c b) (off mod BSIZE) part).
  pose proof (crep_size _ _ b Hc) as Hlb.
  assert (Z.of_nat (length d) = BSIZE) as Hd by (unfold d; rewrite length_splice by lia; exact Hlb).
  destruct (bstore_ok x1 _ h b d R (lookup_insert_eq _ _ _) Hd) as (x2 & E2 & R2). apply (onbc_run _ _ _ _ _ _ _ E2).
  destruct (bwrite_ok x2 _ h b R2 (lookup_insert_eq _ _ _)) as (x3 & E3 & R3). apply (onbc_run _ _ _ _ _ _ _ E3).
  refine (release_run h b _ s x3 c _ _ R3 Hi eq_refl _ _).
  { right. cbn. rewrite !bupd_eq. reflexivity. }
  intros x4 R4. cbn in R4. rewrite bupd_eq in R4.
  match type of R4 with crep _ ?c0 => set (c4 := c0) in * end.
  assert (disk_wrote c pos part c4) as HW.
  { apply (block_wrote c b d); [exact Hi | intros y; exact (crep_size _ _ y Hc) | unfold pos, BSIZE; lia | symmetry; exact Epd | |];
      rewrite Epm; [lia | reflexivity]. }
  assert (u32 (off + m) = off + m) as Eo by (unfold uwrap; apply Z.mod_small; unfold BSIZE in *; lia). rewrite Eo.
  eapply runs_wand; [apply (IH x4 c4 (n - m) (off + m) (tot + m) (drop (Z.to_nat m) src)); try assumption; try lia|].
  { exact (idle_wrote _ _ _ _ Hi HW). }
  { rewrite length_drop. lia. }
  { exact (enough_next fuel off n Ho Hlt Hf). }
  intros r s' (-> & x5 & c5 & -> & R5 & HW5 & Hk5). split; [f_equal; lia|]. exists x5, c5.
  split_and!; [reflexivity | exact R5 | |].
  - rewrite <-(take_drop (Z.to_nat m) src). fold part. apply (disk_wrote_app c pos part c4); [unfold pos, BSIZE; lia | exact HW | |].
    + rewrite Hpl. replace (pos + m) with (base * BSIZE + (off + m)) by (unfold pos; lia). exact HW5.
    + intros o Hr. unfold dbyte. f_equal. symmetry. apply Hk5. destruct (same_block pos (o - pos)) as [E _]; [unfold pos, BSIZE; lia | lia|].
      replace (pos + (o - pos)) with o in E by lia. rewrite E, Epd. fold b. unfold c4. cbn. rewrite !bupd_eq. reflexivity.
  - intros y Hy. apply Hk5. unfold c4. cbn. unfold bupd. destruct (y =? b); [reflexivity | exact Hy].
Qed.

Lemma wrote_reads c off src c' :
  0 <= off -> disk_wrote c off src c' -> dbyte (ccur c') <$> seqZ off (Z.of_nat (length src)) = src.
Proof.
  intros Ho [Hcur _ _ _]. apply list_eq. intros k. rewrite list_lookup_fmap.
  destruct (decide (k < length src)%nat) as [Hk | Hk].
  - rewrite lookup_seqZ_lt by lia. cbn [fmap option_fmap option_map]. rewrite Hcur by lia. unfold overlay.
    rewrite (proj2 (Z.leb_le _ _)), (proj2 (Z.ltb_lt _ _)) by lia. cbn [andb].
    replace (Z.to_nat (off + Z.of_nat k - off)) with k by lia.
    destruct (lookup_lt_is_Some_2 src k Hk) as [y ->]. reflexivity.
  - rewrite lookup_seqZ_ge, (lookup_ge_None_2 src) by lia. reflexivity.
Qed.

(** A write to a block special file of the disk and a read of it: ide0write
    returns the number of bytes, puts them on the disk from block [minor] on (in
    the cache and through to the disk, every other byte as it was), and ide0read,
    which does not add the minor number, finds them at that byte of the disk. *)
Theorem ide0_roundtrip mn ip i s c src off :
  let n := Z.of_nat (length src) in
  let pos := minor i * BSIZE + off in
  inodes s !! ip = Some i -> idev i = ROOTDEV -> Z.land (mode i) S_IFMT = S_IFBLK -> 0 <= minor i ->
  crep (bc (lg s)) c -> idle c -> 0 <= off -> pos + n <= 50000 * BSIZE ->
  runs (w ← ide0write mn ip src n off; r ← ide0read mn ip n pos; mret (w, r)) s
    (fun r s' => r = (n, (n, src)) /\ exists x' c', s' = withbc s x' /\ crep x' c' /\ disk_wrote c pos src c').
Proof.
  intros n pos Hip Hdev Hmode Hmin Hc Hi Ho Hb.
  assert (0 <= pos) as Hpos by (unfold pos, BSIZE; lia). assert (minor i < 50001) by (unfold pos, BSIZE, n in *; lia).
  assert (s = withbc s (bc (lg s))) as Es by (destruct s as [[]]; reflexivity). rewrite Es at 1.
  apply runs_bind. unfold ide0write. apply (iat_run ip i _ _ _ _ Hip). rewrite Hmode, Z.eqb_refl.
  assert (u32 (minor i) = minor i) as Eu by (unfold uwrap; apply Z.mod_small; lia). rewrite Eu. apply runs_bind.
  eapply runs_wand; [apply (ide_write_loop_runs ip i s (minor i) _ (bc (lg s)) c n off 0 src); try assumption; try reflexivity|].
  { apply enough_start; lia. }
  intros r s1 (-> & x1 & c1 & -> & R1 & HW & _). apply runs_ret. cbn [fst]. apply runs_bind.
  eapply runs_wand; [apply (ide_read_loop_runs ip i s c1 _ x1 n pos 0); try assumption; try lia|].
  { exact (idle_wrote _ _ _ _ Hi HW). }
  { apply enough_start; lia. }
  intros r s2 (-> & x2 & -> & R2). apply runs_ret. rewrite (wrote_reads _ _ _ _ Hpos HW : dbyte (ccur c1) <$> seqZ pos n = src).
  split; [f_equal; f_equal; lia|]. eauto 8.
Qed.
End idedev.

(** A disk of zeroes, its cache empty, and a block special file with minor number 3. *)
Definition raw_node : inode :=
  Inode 1 7 1 (Sleeplock false 0) true S_IFBLK 0 0 3 3 1 0 (replicate 13 0) 0 0.
Definition raw_state : fsys bstate :=
  Fsys (Log (bfresh (fun _ => replicate 2048 0)) false 2 30 0 false 1 0 (replicate 30 0)) false [raw_node]
    (Superblock 50000 0 0 0 0 0 0) 0 1 0.
Definition zero_cache : cache := Cache (fun _ => replicate 2048 0) (fun _ => replicate 2048 0) ∅ ∅ [].

Lemma ide0_roundtrip_witness :
  runs (w ← ide0write 3 0 [11; 22; 33] 3 2046; r ← ide0read 3 0 3 (3 * BSIZE + 2046); mret (w, r)) raw_state
    (fun r s' => r = (3, (3, [11; 22; 33])) /\ exists x' c', s' = withbc raw_state x' /\ crep x' c'
      /\ disk_wrote zero_cache (3 * BSIZE + 2046) [11; 22; 33] c').
Proof.
  apply (ide0_roundtrip 3 0 raw_node raw_state zero_cache [11; 22; 33] 2046); try reflexivity; try (vm_compute; discriminate).
  - apply bfresh_ok. intros b. reflexivity.
  - split; [reflexivity|]. apply Nat.ltb_lt. vm_compute. reflexivity.
Defined.
