(* ===== verification/IdePorts.v ===== *)
(** * The disk driver at the ports (src/drivers/ide/ide.c) and the disk in memory
      (src/drivers/memide.c)

    Bio.v gives ide_start its effect on the blocks of a drive.  Here it is the code as
    written, bytes to the task-file ports, with an ATA drive that reads them; the two
    are shown to agree.  A read of the status port takes the next value of [status]:
    a driver still polling at the end of the list is the [Block] outcome.  memide.c,
    the disk kept in memory, is shown to serve a request as ide.c does. *)
From Stdlib Require Import ZArith Lia.
From stdpp Require Import base numbers list gmap strings.
From S2P Require Import Prelude Locks Block Bio BioThm FsRw.
Local Open Scope Z_scope.

Definition SECTOR_SIZE : Z := 512.
Definition IDE_BSY : Z := 0x80.
Definition IDE_DRDY : Z := 0x40.
Definition IDE_DF : Z := 0x20.
Definition IDE_ERR : Z := 0x01.
Definition IDE_CMD_READ : Z := 0x20.
Definition IDE_CMD_WRITE : Z := 0x30.
Definition IDE_CMD_RDMUL : Z := 0xc4.
Definition IDE_CMD_WRMUL : Z := 0xc5.

(** A byte written to a port, or a block of words ([outsl]). *)
Inductive io := Out8 (port v : Z) | Outsl (port : Z) (bytes : list Z).

(** What the status port will answer, what was written, and havedisk1. *)
Record ports := Ports { status : list Z; written : list io; disk1 : bool }.
#[export] Instance ports_fields : Fields ports := fun s => Ports (status s) (written s) (disk1 s).

Definition emit (x : io) : M ports unit := modify (fun s => s <| written := written s ++ [x] |>).
Definition outb (port v : Z) : M ports unit := emit (Out8 port (u8 v)).
Definition inb_status : M ports Z := s ← get;
  match status s with [] => block 0x1f7 | r :: l => put (s <| status := l |>);; mret r end.

(** [while(((r = inb(0x1f7)) & (IDE_BSY|IDE_DRDY)) != IDE_DRDY);] *)
Fixpoint poll (fuel : nat) : M ports Z :=
  r ← inb_status;
  if Z.land r (Z.lor IDE_BSY IDE_DRDY) =? IDE_DRDY then mret r
  else match fuel with O => block 0x1f7 | S fuel' => poll fuel' end.
Definition idewait (checkerr : bool) : M ports Z :=
  s ← get; r ← poll (length (status s));
  mret (if checkerr && nz (Z.land r (Z.lor IDE_DF IDE_ERR)) then -1 else 0).

Definition ide_start (b : buf) : M ports unit :=
  if FSSIZE <=? blockno b then panic "fatal ide error: incorrect number of blocks"
  else
    let sector_per_block := BSIZE / SECTOR_SIZE in
    let sector := i32 (blockno b * sector_per_block) in
    let read_cmd := if sector_per_block =? 1 then IDE_CMD_READ else IDE_CMD_RDMUL in
    let write_cmd := if sector_per_block =? 1 then IDE_CMD_WRITE else IDE_CMD_WRMUL in
    if 7 <? sector_per_block then panic "fatal ide error: incorrect sector-per-block amount"
    else
      idewait false;;
      outb 0x3f6 0;;
      outb 0x1f2 sector_per_block;;
      outb 0x1f3 (Z.land sector 0xff);;
      outb 0x1f4 (Z.land (Z.shiftr sector 8) 0xff);;
      outb 0x1f5 (Z.land (Z.shiftr sector 16) 0xff);;
      outb 0x1f6 (Z.lor (Z.lor 0xe0 (Z.shiftl (Z.land (dev b) 1) 4)) (Z.land (Z.shiftr sector 24) 0x0f));;
      if has_flag b B_DIRTY then outb 0x1f7 write_cmd;; emit (Outsl 0x1f0 (data b))
      else outb 0x1f7 read_cmd.

(** [for(i = 0; i < 1000; i++) if(inb(0x1f7) != 0xff) { havedisk1 = 1; break; }] *)
Fixpoint probe (n : nat) : M ports unit :=
  match n with
  | O => mret tt
  | S n' => r ← inb_status;
      if negb (r =? 0xff) then modify (fun s => s <| disk1 := true |>) else probe n'
  end.
Definition ide_init : M ports unit :=
  outb 0x1f6 (Z.lor 0xe0 (Z.shiftl 0 4));;
  idewait false;;
  outb 0x1f6 (Z.lor 0xe0 (Z.shiftl 1 4));;
  probe 1000;;
  outb 0x1f6 (Z.lor 0xe0 (Z.shiftl 0 4)).

(** ** The drives of an ATA channel *)

(** The task file, the transfer a command started (read or write, drive, first
    sector, sectors) and the sectors of the two drives. *)
Record ata := Ata {
  r_count : Z; r_lba0 : Z; r_lba1 : Z; r_lba2 : Z; r_dev : Z;
  xfer : option (bool * Z * Z * Z); sectors : Z -> Z -> list Z
}.
#[export] Instance ata_fields : Fields ata := fun a =>
  Ata (r_count a) (r_lba0 a) (r_lba1 a) (r_lba2 a) (r_dev a) (xfer a) (sectors a).

(** The 28-bit address of LBA mode. *)
Definition lba (a : ata) : Z := r_lba0 a + 2 ^ 8 * r_lba1 a + 2 ^ 16 * r_lba2 a + 2 ^ 24 * (r_dev a mod 16).
Definition drive (a : ata) : Z := r_dev a / 16 mod 2.
Definition lba_mode (a : ata) : bool := Z.testbit (r_dev a) 6.
Definition is_read (cmd : Z) : bool := (cmd =? 0x20) || (cmd =? 0xc4).
Definition is_write (cmd : Z) : bool := (cmd =? 0x30) || (cmd =? 0xc5).

Definition sector_data (bytes : list Z) (k : Z) : list Z :=
  take (Z.to_nat SECTOR_SIZE) (drop (Z.to_nat (k * SECTOR_SIZE)) bytes).

Definition ata_step (a : ata) (x : io) : ata :=
  match x with
  | Out8 port v =>
      if port =? 0x1f2 then a <| r_count := v |>
      else if port =? 0x1f3 then a <| r_lba0 := v |>
      else if port =? 0x1f4 then a <| r_lba1 := v |>
      else if port =? 0x1f5 then a <| r_lba2 := v |>
      else if port =? 0x1f6 then a <| r_dev := v |>
      else if port =? 0x1f7 then
        if lba_mode a && (is_read v || is_write v) then a <| xfer := Some (is_write v, drive a, lba a, r_count a) |>
        else a
      else a
  | Outsl port bytes =>
      match xfer a with
      | Some (true, dr, first, n) =>
          if port =? 0x1f0 then
            a <| sectors := fun d k => if (d =? dr) && (first <=? k) && (k <? first + n) then sector_data bytes (k - first) else sectors a d k |>
              <| xfer := None |>
          else a
      | _ => a
      end
  end.
Definition ata_run (a : ata) (l : list io) : ata := foldl ata_step a l.

(** Block [bn] of a drive: its four sectors; what a read of them returns. *)
Definition read_sectors (a : ata) (dr first n : Z) : list Z := mjoin (sectors a dr <$> seqZ first n).
Definition block_view (a : ata) (dr bn : Z) : blk := read_sectors a dr (bn * 4) 4.

(** ** ide_start and the drives *)

(** The task file holds the sector and the drive of the request. *)
Definition addressed (b : buf) (a : ata) : ata :=
  let k := blockno b * 4 in
  a <| r_count := 4 |> <| r_lba0 := k mod 256 |> <| r_lba1 := k / 256 mod 256 |> <| r_lba2 := k / 65536 mod 256 |>
    <| r_dev := 0xe0 + 16 * (dev b mod 2) |>.

Definition ready_status (l : list Z) : Prop := exists l1 r l2, l = l1 ++ r :: l2 /\ Z.land r 0xC0 = 0x40.

Lemma poll_ready l1 : forall fuel s r l2,
  status s = l1 ++ r :: l2 -> Z.land r 0xC0 = 0x40 -> (length l1 <= fuel)%nat ->
  exists r' l', poll fuel s = Ok r' (s <| status := l' |>) /\ Z.land r' 0xC0 = 0x40.
Proof.
  induction l1 as [|x l1 IH]; intros fuel s r l2 Hs Hr Hf; (destruct fuel as [|fuel]; [cbn in Hf; try lia|]); cbn [poll];
    unfold inb_status at 1; mstep; rewrite Hs; cbn [app];
    change (Z.lor IDE_BSY IDE_DRDY) with 0xC0; change IDE_DRDY with 0x40.
  - rewrite Hr. cbn. eauto.
  - rewrite Hr. cbn. eauto.
  - destruct (Z.eqb_spec (Z.land x 0xC0) 0x40); [eauto|].
    set (s1 := s <| status := l1 ++ r :: l2 |>).
    destruct (IH fuel s1 r l2 eq_refl Hr ltac:(cbn in Hf; lia)) as (r' & l' & E & Hr').
    exists r', l'. split; [rewrite E; reflexivity | exact Hr'].
Qed.

Lemma idewait_ready s : ready_status (status s) -> exists l', idewait false s = Ok 0 (s <| status := l' |>).
Proof.
  intros (l1 & r & l2 & Hs & Hr). unfold idewait. rewrite (bind_step get _ _ _ _ eq_refl).
  destruct (poll_ready l1 (length (status s)) s r l2 Hs Hr ltac:(rewrite Hs, length_app; lia)) as (r' & l' & E & _).
  exists l'. rewrite (bind_step _ _ _ _ _ E). reflexivity.
Qed.

Lemma task_file_bytes k : 0 <= k < 2 ^ 24 ->
  u8 (Z.land k 0xff) = k mod 256 /\ u8 (Z.land (Z.shiftr k 8) 0xff) = k / 256 mod 256
  /\ u8 (Z.land (Z.shiftr k 16) 0xff) = k / 65536 mod 256 /\ Z.land (Z.shiftr k 24) 0x0f = 0.
Proof.
  intros Hk. change 0xff with (Z.ones 8). change 0x0f with (Z.ones 4).
  rewrite !Z.land_ones, !Z.shiftr_div_pow2 by lia. unfold uwrap. rewrite !Z.mod_mod by lia.
  split_and!; try reflexivity. rewrite (Z.div_small k (2 ^ 24)) by lia. reflexivity.
Qed.

Lemma lba_addressed b a : 0 <= blockno b < FSSIZE ->
  lba (addressed b a) = blockno b * 4 /\ drive (addressed b a) = dev b mod 2 /\ lba_mode (addressed b a) = true.
Proof.
  intros Hb. unfold FSSIZE in Hb. unfold lba, drive, lba_mode, addressed. cbn [r_lba0 r_lba1 r_lba2 r_dev assign].
  set (k := blockno b * 4). assert (0 <= k < 200000) by lia.
  pose proof (Z.div_mod k 256 ltac:(lia)). pose proof (Z.div_mod (k / 256) 256 ltac:(lia)).
  replace (k / 65536) with (k / 256 / 256) by (rewrite Z.div_div by lia; reflexivity).
  rewrite (Z.mod_small (k / 256 / 256)) by (split; [apply Z.div_pos; [apply Z.div_pos; lia | lia] | apply Z.div_lt_upper_bound; [lia|]; apply Z.div_lt_upper_bound; lia]).
  pose proof (Z.mod_pos_bound (dev b) 2 ltac:(lia)). assert (dev b mod 2 = 0 \/ dev b mod 2 = 1) as [-> | ->] by lia;
    change ((0xe0 + 16 * 0) mod 16) with 0; change ((0xe0 + 16 * 1) mod 16) with 0; split_and!; try reflexivity; lia.
Qed.

Definition task_file (b : buf) : list io :=
  let k := blockno b * 4 in
  [Out8 0x3f6 0; Out8 0x1f2 4; Out8 0x1f3 (k mod 256); Out8 0x1f4 (k / 256 mod 256); Out8 0x1f5 (k / 65536 mod 256);
   Out8 0x1f6 (0xe0 + 16 * (dev b mod 2))].
Definition command (b : buf) : list io :=
  if has_flag b B_DIRTY then [Out8 0x1f7 0xc5; Outsl 0x1f0 (data b)] else [Out8 0x1f7 0xc4].

Lemma ide_start_sent b s :
  0 <= blockno b < FSSIZE -> ready_status (status s) ->
  exists l', ide_start b s = Ok tt (Ports l' (written s ++ task_file b ++ command b) (disk1 s)).
Proof.
  intros Hb Hr. unfold ide_start. rewrite (proj2 (Z.leb_gt _ _)) by lia. change (BSIZE / SECTOR_SIZE) with 4. cbv zeta.
  change (4 =? 1) with false. change (7 <? 4) with false. cbv iota.
  destruct (idewait_ready s Hr) as (l' & E). exists l'. rewrite (bind_step _ _ _ _ _ E).
  rewrite (swrap_id 32) by (unfold in_s, FSSIZE in *; lia).
  destruct (task_file_bytes (blockno b * 4) ltac:(unfold FSSIZE in *; lia)) as (E0 & E1 & E2 & E3).
  unfold outb. rewrite E0, E1, E2, E3, Z.lor_0_r.
  replace (u8 (Z.lor 0xe0 (Z.shiftl (Z.land (dev b) 1) 4))) with (0xe0 + 16 * (dev b mod 2)).
  2:{ change 1 with (Z.ones 1) at 1. rewrite Z.land_ones by lia. change (2 ^ 1) with 2.
      pose proof (Z.mod_pos_bound (dev b) 2 ltac:(lia)). assert (dev b mod 2 = 0 \/ dev b mod 2 = 1) as [-> | ->] by lia; reflexivity. }
  unfold command, task_file, emit. destruct s as [st w d1]. mstep.
  destruct (has_flag b B_DIRTY); cbv beta iota delta [assign status written disk1]; rewrite <-!app_assoc; reflexivity.
Qed.

Lemma ata_run_app a l1 l2 : ata_run a (l1 ++ l2) = ata_run (ata_run a l1) l2.
Proof. apply foldl_app. Qed.

Lemma task_file_run b a : ata_run a (task_file b) = addressed b a.
Proof. destruct a. reflexivity. Qed.

Lemma concat_sectors d : Z.of_nat (length d) = BSIZE -> mjoin (sector_data d <$> [0; 1; 2; 3]) = d.
Proof.
  intros Hl. unfold BSIZE in Hl. cbn [fmap list_fmap mjoin list_join]. unfold sector_data, SECTOR_SIZE.
  change (Z.to_nat (0 * 512)) with 0%nat. change (Z.to_nat (1 * 512)) with 512%nat. change (Z.to_nat (2 * 512)) with 1024%nat.
  change (Z.to_nat (3 * 512)) with 1536%nat. change (Z.to_nat 512) with 512%nat. rewrite drop_0, app_nil_r.
  rewrite (take_ge (drop 1536 d)) by (rewrite length_drop; lia).
  replace (drop 1536 d) with (drop 512 (drop 1024 d)) by (rewrite drop_drop; reflexivity).
  rewrite take_drop. replace (drop 1024 d) with (drop 512 (drop 512 d)) by (rewrite drop_drop; reflexivity).
  rewrite take_drop. apply take_drop.
Qed.

(** A write command and its data, as the blocks of the drives see it. *)
Lemma write_view b a dr bn :
  0 <= blockno b < FSSIZE -> Z.of_nat (length (data b)) = BSIZE -> has_flag b B_DIRTY = true -> 0 <= bn ->
  block_view (ata_run (addressed b a) (command b)) dr bn
  = if (dr =? Z.land (dev b) 1) && (bn =? blockno b) then data b else block_view a dr bn.
Proof.
  intros Hb Hl Hf Hbn. unfold command. rewrite Hf. cbn [ata_run foldl]. destruct (lba_addressed b a Hb) as (El & Ed & Em).
  change 1 with (Z.ones 1). rewrite Z.land_ones by lia. change (2 ^ 1) with 2. rewrite <-Ed.
  set (a1 := ata_step (addressed b a) (Out8 0x1f7 0xc5)).
  assert (a1 = addressed b a <| xfer := Some (true, drive (addressed b a), lba (addressed b a), 4) |>) as Ea1.
  { unfold a1. cbn [ata_step]. change (0x1f7 =? 0x1f7) with true. cbn. unfold lba_mode in Em. cbn in Em. rewrite Em. reflexivity. }
  rewrite Ea1. set (g := drive (addressed b a)) in *. set (a2 := ata_step _ _).
  assert (forall d k, sectors a2 d k = if (d =? g) && (blockno b * 4 <=? k) && (k <? blockno b * 4 + 4)
            then sector_data (data b) (k - blockno b * 4) else sectors a d k) as HS by (intros d k; rewrite <-El; reflexivity).
  clearbody a2. unfold block_view, read_sectors.
  replace (seqZ (bn * 4) 4) with [bn * 4; bn * 4 + 1; bn * 4 + 2; bn * 4 + 3]
    by (do 4 (rewrite (seqZ_cons (_)) by lia); cbn; repeat f_equal; lia).
  cbn [fmap list_fmap]. rewrite !HS. destruct (Z.eqb_spec dr g) as [-> |]; cbn [andb]; [|reflexivity].
  destruct (Z.eqb_spec bn (blockno b)) as [-> | Hne].
  - etransitivity; [|apply (concat_sectors (data b)), Hl]. cbn [fmap list_fmap].
    repeat (rewrite (proj2 (Z.leb_le (blockno b * 4) _)) by lia; rewrite (proj2 (Z.ltb_lt _ (blockno b * 4 + 4))) by lia; cbn [andb]).
    repeat f_equal; lia.
  - repeat match goal with |- context [if ?c then _ else _] =>
      replace c with false by (symmetry; apply andb_false_iff; rewrite Z.leb_gt, Z.ltb_ge; lia) end.
    reflexivity.
Qed.

Lemma read_view b a : 0 <= blockno b < FSSIZE -> has_flag b B_DIRTY = false ->
  let a' := ata_run (addressed b a) (command b) in
  sectors a' = sectors a /\ xfer a' = Some (false, Z.land (dev b) 1, blockno b * 4, 4).
Proof.
  intros Hb Hf. unfold command. rewrite Hf. destruct (lba_addressed b a Hb) as (El & Ed & Em).
  change 1 with (Z.ones 1). rewrite Z.land_ones by lia. change (2 ^ 1) with 2. rewrite <-Ed, <-El.
  cbn [ata_run foldl ata_step]. change (0x1f7 =? 0x1f7) with true. cbn. unfold lba_mode in Em. cbn in Em. rewrite Em. split; reflexivity.
Qed.

(** C2. ide_start at the ports does to the drives what Bio.v's ide_start says it does to
    their blocks: for a request in range the task file holds the request's drive and
    the LBA address of its first sector, a dirty buffer replaces exactly its block and
    no other, a clean one starts a read whose data is that block; out of range, both
    panic, with nothing sent. *)
Theorem ide_start_refines s i b p a :
  bufs s !! i = Some b -> 0 <= blockno b -> Z.of_nat (length (data b)) = BSIZE -> ready_status (status p) ->
  (forall dr bn, 0 <= bn -> disk s dr bn = block_view (ata_run a (written p)) dr bn) ->
  match Bio.ide_start i s with
  | Ok _ s' => exists p', ide_start b p = Ok tt p' /\ let a' := ata_run a (written p') in
      (forall dr bn, 0 <= bn -> disk s' dr bn = block_view a' dr bn)
      /\ (has_flag b B_DIRTY = false ->
            exists dr first n, xfer a' = Some (false, dr, first, n) /\ read_sectors a' dr first n = disk s' (Z.land (dev b) 1) (blockno b))
  | Panic _ => exists w, ide_start b p = Panic w
  | _ => False
  end.
Proof.
  intros Hi Hb Hl Hr Hv. unfold Bio.ide_start. rewrite (bind_step _ _ _ _ _ (bget_Ok i b s Hi)).
  destruct (Z.leb_spec FSSIZE (blockno b)).
  { unfold panic. eexists. unfold ide_start. rewrite (proj2 (Z.leb_le _ _)) by lia. reflexivity. }
  destruct (ide_start_sent b p ltac:(lia) Hr) as (l' & E). destruct (has_flag b B_DIRTY) eqn:Hf; unfold modify, mret, M_ret.
  - eexists. split; [exact E|]. cbn [written]. rewrite !ata_run_app, task_file_run. split; [|discriminate].
    intros dr bn Hbn. rewrite write_view by (assumption || lia). cbn [disk assign]. rewrite <-Hv by exact Hbn. reflexivity.
  - eexists. split; [exact E|]. cbn [written]. rewrite !ata_run_app, task_file_run.
    destruct (read_view b (ata_run a (written p)) ltac:(lia) Hf) as [Es Ex]. split.
    + intros dr bn Hbn. unfold block_view, read_sectors. rewrite Es. apply Hv, Hbn.
    + intros _. do 3 eexists. split; [exact Ex|]. rewrite Hv by lia. unfold block_view, read_sectors. rewrite Es. reflexivity.
Qed.

(** ** The disk in memory *)

(** memdisk and disksize of memide.c *)
Record memide := Memide { memdisk : list Z; disksize : Z }.
#[export] Instance memide_fields : Fields memide := fun m => Memide (memdisk m) (disksize m).

Definition ideinit (img : list Z) : memide := Memide img (Z.of_nat (length img) / BSIZE).
Definition ideintr : M memide unit := mret tt.

(** [iderw] on the buffer [b], for process [pid]; the buffer it leaves. *)
Definition iderw (pid : Z) (b : buf) : M memide buf :=
  if negb (sl_locked (lock b) && (sl_pid (lock b) =? pid)) then panic "iderw: buf not locked"
  else if Z.land (flags b) (Z.lor B_VALID B_DIRTY) =? B_VALID then panic "iderw: nothing to do"
  else if negb (dev b =? 1) then panic "iderw: request not for disk 1"
  else
    m ← get;
    if disksize m <=? blockno b then panic "iderw: block out of range"
    else
      let p := blockno b * BSIZE in
      b ← (if has_flag b B_DIRTY then
             put (m <| memdisk := Fs.splice (memdisk m) p (data b) |>);;
             mret (b <| flags := Z.ldiff (flags b) B_DIRTY |>)
           else mret (b <| data := take (Z.to_nat BSIZE) (drop (Z.to_nat p) (memdisk m)) |>));
      mret (b <| flags := Z.lor (flags b) B_VALID |>).

Definition mem_block (m : memide) (bn : Z) : blk := take (Z.to_nat BSIZE) (drop (Z.to_nat (bn * BSIZE)) (memdisk m)).

Lemma mem_block_splice l p d bn :
  Z.of_nat (length d) = BSIZE -> 0 <= bn -> 0 <= p -> (p + 1) * BSIZE <= Z.of_nat (length l) ->
  take (Z.to_nat BSIZE) (drop (Z.to_nat (bn * BSIZE)) (Fs.splice l (p * BSIZE) d))
  = if bn =? p then d else take (Z.to_nat BSIZE) (drop (Z.to_nat (bn * BSIZE)) l).
Proof.
  unfold BSIZE. intros Hd Hbn Hp Hl. unfold Fs.splice. apply list_eq. intros k.
  destruct (decide (k < 2048)%nat) as [Hk | Hk].
  2:{ rewrite lookup_take_ge by lia. destruct (bn =? p); [rewrite lookup_ge_None_2 by lia | rewrite lookup_take_ge by lia]; reflexivity. }
  rewrite lookup_take_lt, lookup_drop by lia. destruct (Z.eqb_spec bn p) as [-> | Hne].
  - rewrite lookup_app_r by (rewrite length_take; lia). rewrite length_take, lookup_app_l by lia. f_equal. lia.
  - rewrite lookup_take_lt, lookup_drop by lia. destruct (Z.lt_ge_cases bn p).
    + rewrite lookup_app_l by (rewrite length_take; lia). rewrite lookup_take_lt by lia. reflexivity.
    + rewrite lookup_app_r by (rewrite length_take; lia). rewrite length_take, lookup_app_r by lia.
      rewrite lookup_drop. f_equal. lia.
Qed.

(** The disk in memory serves a request as the disk does: for a locked buffer of
    device 1 and a block of the image, iderw of memide.c leaves the buffer that
    ide_dirty_write leaves on an idle drive that reports no error, and the image holds
    the blocks the drive holds. *)
Theorem memide_serves_like_ide s i b m :
  bufs s !! i = Some b -> lock b = Sleeplock true (mypid s) -> idequeue s = [] -> havedisk1 s = true ->
  flags b = 0 \/ flags b = Z.lor B_VALID B_DIRTY -> dev b = 1 -> Z.of_nat (length (data b)) = BSIZE ->
  (forall dr bn, rderr s dr bn = false) ->
  0 <= blockno b < disksize m -> disksize m <= FSSIZE -> disksize m * BSIZE <= Z.of_nat (length (memdisk m)) ->
  (forall bn, 0 <= bn < disksize m -> disk s 1 bn = mem_block m bn) ->
  exists b' m' s', iderw (mypid s) b m = Ok b' m' /\ ide_dirty_write i s = Ok tt s'
    /\ bufs s' = <[i := b']> (bufs s) /\ disksize m' = disksize m
    /\ (forall bn, 0 <= bn < disksize m -> disk s' 1 bn = mem_block m' bn).
Proof.
  intros Hi Hlk Hq Hd1 Hf Hdev Hl He Hb Hsz Hm Hv. unfold iderw. rewrite Hlk. cbn [sl_locked sl_pid]. rewrite Z.eqb_refl. cbn [andb negb].
  assert ((Z.land (flags b) (Z.lor B_VALID B_DIRTY) =? B_VALID) = false) as -> by (destruct Hf as [-> | ->]; reflexivity).
  rewrite Hdev. cbn [Z.eqb negb Pos.eqb]. rewrite (bind_step get _ _ _ _ eq_refl), (proj2 (Z.leb_gt _ _)) by lia.
  assert (blockno b < FSSIZE) as Hlt by lia. destruct Hf as [Hf | Hf]; rewrite (has_flag_eq b _ B_DIRTY Hf).
  - do 3 eexists. split; [reflexivity|]. split; [apply (ide_read_Ok s i b Hi Hlk Hq Hd1 Hlt Hf), He|].
    split_and!; [|reflexivity | exact Hv]. cbn [bufs assign]. rewrite Hdev. change (Z.land 1 1) with 1. rewrite Hv by lia.
    destruct b. cbn in *. subst. reflexivity.
  - do 3 eexists. split; [reflexivity|]. split; [apply (ide_write_Ok s i b Hi Hlk Hq Hd1 Hlt Hf)|].
    split_and!; [|reflexivity|].
    + destruct b. cbn in *. subst. reflexivity.
    + intros bn Hbn. cbn [disk assign]. rewrite Hdev. change (1 =? Z.land 1 1) with true. cbn [andb].
      unfold mem_block. cbn [memdisk assign]. rewrite mem_block_splice by (assumption || lia || (unfold BSIZE in *; lia)).
      destruct (bn =? blockno b); [reflexivity | apply Hv, Hbn].
Qed.

(** Zeroed drives, and process 7 with the lock of one dirty buffer for block 5. *)
Definition zero_ata : ata := Ata 0 0 0 0 0 None (fun _ _ => replicate 512 0).
Definition dirty_buf : buf := Buf 6 1 5 (Sleeplock true 7) 1 0 0 (replicate 2048 9).
Definition zero_image : list Z := replicate (7 * 2048) 0.
Definition one_request : bstate := BState [dirty_buf] false [] true (fun _ _ => false) (fun _ _ => replicate 2048 0) [] 7.

Lemma zero_view dr bn : block_view zero_ata dr bn = replicate 2048 0.
Proof.
  unfold block_view, read_sectors.
  replace (seqZ (bn * 4) 4) with [bn * 4; bn * 4 + 1; bn * 4 + 2; bn * 4 + 3]
    by (do 4 (rewrite (seqZ_cons (_)) by lia); cbn; repeat f_equal; lia).
  reflexivity.
Qed.

Lemma ide_start_refines_witness :
  exists p', ide_start dirty_buf (Ports [0xD0; 0x50] [] true) = Ok tt p'
  /\ block_view (ata_run zero_ata (written p')) 1 5 = replicate 2048 9.
Proof.
  destruct (ide_start_refines one_request 0 dirty_buf (Ports [0xD0; 0x50] [] true) zero_ata) as (p' & E & Hv & _).
  - reflexivity.
  - vm_compute. discriminate.
  - reflexivity.
  - exists [0xD0], 0x50, []. split; reflexivity.
  - intros dr bn _. symmetry. apply zero_view.
  - exists p'. split; [exact E|]. rewrite <-(Hv 1 5) by lia. reflexivity.
Defined.

Lemma zero_image_blocks bn : 0 <= bn < 7 -> replicate 2048 0 = mem_block (ideinit zero_image) bn.
Proof.
  intros Hb. unfold mem_block, ideinit, zero_image. cbn [memdisk]. rewrite drop_replicate, take_replicate.
  rewrite Nat.min_l; [reflexivity|]. apply Nat2Z.inj_le. rewrite Nat2Z.inj_sub by (unfold BSIZE; lia). unfold BSIZE. lia.
Qed.

Lemma memide_serves_like_ide_witness :
  exists b' m' s', iderw 7 dirty_buf (ideinit zero_image) = Ok b' m' /\ ide_dirty_write 0 one_request = Ok tt s'
    /\ bufs s' = [b'].
Proof.
  assert (disksize (ideinit zero_image) = 7) as Hs by (vm_compute; reflexivity).
  destruct (memide_serves_like_ide one_request 0 dirty_buf (ideinit zero_image)) as (b' & m' & s' & E & E2 & Hb & _).
  - reflexivity.
  - reflexivity.
  - reflexivity.
  - reflexivity.
  - right. reflexivity.
  - reflexivity.
  - reflexivity.
  - intros dr bn. reflexivity.
  - rewrite Hs. cbn. lia.
  - rewrite Hs. unfold FSSIZE. lia.
  - rewrite Hs. vm_compute. discriminate.
  - intros bn Hbn. rewrite Hs in Hbn. exact (zero_image_blocks bn Hbn).
  - exists b', m', s'. split_and!; [exact E | exact E2 | exact Hb].
Defined.
