(* ===== verification/File.v ===== *)
(** * Open files (src/kernel/fs/file.c, pipealloc of src/kernel/fs/pipe.c)

    The state [ksys] joins the components a system call works on: the file system
    (Fs.v), the process table (Proc.v), the page allocator and the memory with the
    page tables (Kalloc.v, Vm.v), the pipes (Pipe.v) by the address of their page,
    the table of open files, and the process group of each terminal.  A file pointer is one more than its index in
    ftable.file, an inode pointer kept in struct proc one more than its index in
    icache.inode; 0 is the null pointer. *)
From Stdlib Require Import ZArith Lia.
From stdpp Require Import base numbers list gmap strings.
From S2P Require Import Prelude KString Locks Kalloc Vm Pipe Proc Syscall Block Log Fs Signal.
Local Open Scope Z_scope.

Definition NFILE : nat := 100.

Inductive fdtype : Type := FD_NONE | FD_PIPE | FD_INODE.
#[export] Instance fdtype_eq : EqDecision fdtype.
Proof. solve_decision. Defined.

(** struct file *)
Record file := File {
  ftype : fdtype; fref : Z; readable : bool; writable : bool; fpipe : Z; fip : option nat; foff : Z; fflags : Z
}.
#[export] Instance file_fields : Fields file := fun f =>
  File (ftype f) (fref f) (readable f) (writable f) (fpipe f) (fip f) (foff f) (fflags f).
Definition null_file : file := File FD_NONE 0 false false 0 None 0 0.

Record ksys (C : Type) := Ksys {
  kfs : fsys C;
  kps : pstate;
  kmm : kstate;
  kpipes : gmap Z pipe;
  ftable : list file;
  ftlocked : bool;
  kttys : list Z              (* ttys[i].pgrp *)
}.
Arguments Ksys {C}. Arguments kfs {C}. Arguments kps {C}. Arguments kmm {C}. Arguments kpipes {C}.
Arguments ftable {C}. Arguments ftlocked {C}. Arguments kttys {C}.
#[export] Instance ksys_fields C : Fields (ksys C) := fun s =>
  Ksys (kfs s) (kps s) (kmm s) (kpipes s) (ftable s) (ftlocked s) (kttys s).

(** The sleep channels of the pipe at [p]: [&p->nread] and [&p->nwrite]. *)
Definition pipe_chan (p : Z) (c : Pipe.chan) : Z :=
  match c with ChRead => p + 564 | ChWrite => p + 568 end.

Section file.
Context {C : Type} `{BufCache C}.
Context (devsw : Z -> @devops C) (kend PHYSTOP : Z).
#[local] Abbreviation K := (M (ksys C)).

(** ** Calls into the other components *)

Definition onps {A} (m : M pstate A) : K A := fun s =>
  match m (kps s) with
  | Ok a p => Ok a (s <| kps := p |>)
  | Panic w => Panic w
  | Fault w => Fault w
  | Block ch p => Block ch (s <| kps := p |>)
  end.
Definition onmm {A} (m : M kstate A) : K A := fun s =>
  match m (kmm s) with
  | Ok a k => Ok a (s <| kmm := k |>)
  | Panic w => Panic w
  | Fault w => Fault w
  | Block ch k => Block ch (s <| kmm := k |>)
  end.

Definition curproc : K proc := onps (i ← myproc; pget i).
Definition pset (f : proc -> proc) : K unit := onps (i ← myproc; pmod i f).

(** fs.c runs as the current process, with its pid and directory. *)
Definition as_proc {A} (p : proc) (m : M (fsys C) A) : K A := fun s =>
  match m (kfs s <| Fs.mypid := pid p |> <| Fs.cwd := Z.to_nat (Proc.cwd p - 1) |>) with
  | Ok a f => Ok a (s <| kfs := f |>)
  | Panic w => Panic w
  | Fault w => Fault w
  | Block ch f => Block ch (s <| kfs := f |>)
  end.
Definition onfs {A} (m : M (fsys C) A) : K A := p ← curproc; as_proc p m.
Definition kbegin_op : K unit := onfs (onlog begin_op).
Definition kend_op : K unit := onfs (onlog end_op).

(** ** The file table *)

Definition acquire_ft : K unit :=
  s ← get; if ftlocked s then panic "acquire" else put (s <| ftlocked := true |>).
Definition release_ft : K unit :=
  s ← get; if ftlocked s then put (s <| ftlocked := false |>) else panic "release".
Definition fat (f : Z) : K file := s ← get; aget "file pointer" (ftable s) (f - 1).
Definition fmod (f : Z) (g : file -> file) : K unit :=
  modify (fun s => s <| ftable := alter g (Z.to_nat (f - 1)) (ftable s) |>).

Fixpoint free_file (l : list file) (i : Z) : Z :=
  match l with
  | [] => 0
  | f :: l' => if fref f =? 0 then i + 1 else free_file l' (i + 1)
  end.

Definition file_alloc : K Z :=
  acquire_ft;;
  s ← get;
  let f := free_file (ftable s) 0 in
  if f =? 0 then release_ft;; mret 0
  else fmod f (fun x => x <| fref := 1 |>);; release_ft;; mret f.

Definition file_dup (f : Z) : K Z :=
  acquire_ft;;
  x ← fat f;
  if fref x <? 1 then panic "filedup"
  else fmod f (fun x => x <| fref := i32 (fref x + 1) |>);; release_ft;; mret f.

(** ** Pipes as files *)

Definition wakeups (p : Z) (l : list Pipe.chan) : K unit :=
  foldr (fun c m => onps (wakeup (pipe_chan p c));; m) (mret tt) l.

Definition pipe_at (p : Z) : K pipe :=
  s ← get; match kpipes s !! p with Some x => mret x | None => fault "pipe pointer" end.
Definition pipe_put (p : Z) (x : pipe) : K unit := modify (fun s => s <| kpipes := <[p := x]> (kpipes s) |>).

Definition kpipeclose (p : Z) (w : bool) : K unit :=
  x ← pipe_at p;
  let '(x', ch, done) := pipeclose w x in
  pipe_put p x';;
  wakeups p [ch];;
  if done then
    modify (fun s => s <| kpipes := delete p (kpipes s) |>);;
    onmm (kfree kend PHYSTOP p)
  else mret tt.

Definition kpiperead (p : Z) (n : Z) : K (Z * list Z) :=
  x ← pipe_at p;
  me ← curproc;
  let '(x', r, wk) := piperead (nz (killed me)) n x in
  pipe_put p x';;
  wakeups p wk;;
  match r with
  | RBytes bs => mret (Z.of_nat (length bs), bs)
  | RFail => mret (-1, [])
  | RSleep => block (pipe_chan p ChRead)
  end.

Definition kpipewrite (p : Z) (src : list Z) (n : Z) : K Z :=
  x ← pipe_at p;
  me ← curproc;
  let '(x', r, wk) := pipewrite (nz (killed me)) src x in
  pipe_put p x';;
  wakeups p wk;;
  match r with
  | WDone => mret n
  | WFail => mret (-1)
  | WSleep _ => block (pipe_chan p ChWrite)
  end.

(** ** Operations on open files *)

Definition file_close (f : Z) : K unit :=
  acquire_ft;;
  x ← fat f;
  if fref x <? 1 then panic "fileclose"
  else
    fmod f (fun x => x <| fref := i32 (fref x - 1) |>);;
    x ← fat f;
    if 0 <? fref x then release_ft
    else
      fmod f (fun x => x <| fref := 0 |>);;
      fmod f (fun x => x <| ftype := FD_NONE |>);;
      release_ft;;
      match ftype x with
      | FD_PIPE => kpipeclose (fpipe x) (writable x)
      | FD_INODE =>
          kbegin_op;;
          match fip x with Some ip => onfs (iput ip) | None => fault "iput" end;;
          kend_op
      | FD_NONE => mret tt
      end.

Definition file_stat (f : Z) : K (option stat) :=
  x ← fat f;
  match ftype x with
  | FD_INODE =>
      onfs (ilock (fip x));;
      st ← match fip x with Some ip => onfs (stati ip) | None => fault "stati" end;
      onfs (iunlock (fip x));;
      mret (Some st)
  | _ => mret None
  end.

(** The result and the bytes stored at [addr]. *)
Definition file_read (f n : Z) : K (Z * list Z) :=
  x ← fat f;
  if negb (readable x) then mret (- EACCES, [])
  else match ftype x with
       | FD_PIPE => kpiperead (fpipe x) n
       | FD_INODE =>
           onfs (ilock (fip x));;
           match fip x with
           | None => fault "readi"
           | Some ip =>
               r ← onfs (readi devsw ip (foff x) (u32 n));
               (if 0 <? r.1 then fmod f (fun x => x <| foff := u32 (foff x + r.1) |>) else mret tt);;
               onfs (iunlock (fip x));;
               mret r
           end
       | FD_NONE => panic "fileread"
       end.

Definition WMAX : Z := (MAXOPBLOCKS - 1 - 1 - 2) / 2 * 512.
Definition is_special (m : Z) : bool :=
  (Z.land m S_IFMT =? S_IFCHR) || (Z.land m S_IFMT =? S_IFBLK).

(** The loop of file_write on an inode: [src] is the rest of the buffer,
    [addr + i] on. *)
Fixpoint write_loop (fuel : nat) (f : Z) (src : list Z) (n i : Z) : K Z :=
  match fuel with
  | O => fault "filewrite"
  | S fuel' =>
      if i <? n then
        let n1 := Z.min (n - i) WMAX in
        kbegin_op;;
        x ← fat f;
        onfs (ilock (fip x));;
        match fip x with
        | None => fault "writei"
        | Some ip =>
            me ← curproc;
            d ← onfs (iat ip);
            if negb (uid me =? iuid d) && negb (is_special (mode d)) then
              onfs (iunlock (fip x));;
              kend_op;;
              mret (-1)
            else
              r ← onfs (writei devsw ip (take (Z.to_nat n1) src) (foff x) n1);
              (if 0 <? r then
                 fmod f (fun x => x <| foff := u32 (foff x + r) |>);;
                 onfs (t ← epoch_mktime; imod ip (fun d => d <| lmtime := t |>));;
                 onfs (iupdate ip)
               else mret tt);;
              onfs (iunlock (fip x));;
              kend_op;;
              if r <? 0 then mret (if i =? n then n else -1)
              else if negb (r =? n1) then panic "short filewrite"
              else write_loop fuel' f (drop (Z.to_nat n1) src) n (i + r)
        end
      else mret (if i =? n then n else -1)
  end.

Definition file_write (f : Z) (src : list Z) (n : Z) : K Z :=
  x ← fat f;
  if negb (writable x) then mret (- EACCES)
  else match ftype x with
       | FD_PIPE => kpipewrite (fpipe x) src n
       | FD_INODE => write_loop (Z.to_nat (n / WMAX) + 2) f src n 0
       | FD_NONE => panic "filewrite"
       end.

(** pipealloc: both files, or neither; [page] are the bytes kalloc's page held
    where the ring begins. *)
Definition pipealloc (page : list Z) : K (option (Z * Z)) :=
  f0 ← file_alloc;
  f1 ← (if f0 =? 0 then mret 0 else file_alloc);
  p ← (if (f0 =? 0) || (f1 =? 0) then mret 0 else onmm kalloc);
  if p =? 0 then
    (if f0 =? 0 then mret tt else file_close f0);;
    (if f1 =? 0 then mret tt else file_close f1);;
    mret None
  else
    pipe_put p (pipe_new page);;
    fmod f0 (fun x => x <| ftype := FD_PIPE |> <| readable := true |> <| writable := false |> <| fpipe := p |>);;
    fmod f1 (fun x => x <| ftype := FD_PIPE |> <| readable := false |> <| writable := true |> <| fpipe := p |>);;
    mret (Some (f0, f1)).
End file.
