(* ===== verification/SysFd.v ===== *)
(** * File descriptors (src/kernel/sys/sys.c)

    The system calls that take or return a descriptor, over the state of File.v.
    A handler fetches its arguments from the registers of the running process
    (Syscall.v) and reads and writes the process's memory through its page table
    (uload and ustore of Signal.v). *)
From Stdlib Require Import ZArith Lia.
From stdpp Require Import base numbers list gmap strings.
From S2P Require Import Prelude KString Locks Kalloc Vm Pipe Proc Syscall Block Log Fs Signal File.
Local Open Scope Z_scope.

Definition O_APPEND : Z := 1024.
Definition F_DUPFD : Z := 0.
Definition F_SETFD : Z := 2.
Definition F_GETFL : Z := 3.
Definition F_SETFL : Z := 4.
Definition F_DUPFD_CLOEXEC : Z := 1030.

(** The byte the processor finds at [va] below the size of the process. *)
Definition uview (pgdir : Z) (k : kstate) : mem := fun va =>
  let m := kmem_mem k in
  let pgtab := P2V (PTE_ADDR (load32 m (pgdir + 4 * PDX va))) in
  m (P2V (PTE_ADDR (load32 m (pgtab + 4 * PTX va))) + va mod 4096).

(** [n] bytes at a user address. *)
Fixpoint ureads (pgdir va : Z) (n : nat) : M kstate (list Z) :=
  match n with
  | O => mret []
  | S k => b ← uload pgdir va; bs ← ureads pgdir (va + 1) k; mret (b :: bs)
  end.

(** The first free descriptor from [fd] on. *)
Fixpoint free_fd (l : list Z) (fd : Z) : option Z :=
  match l with
  | [] => None
  | f :: l' => if f =? 0 then Some fd else free_fd l' (fd + 1)
  end.

Section sysfd.
Context {C : Type} `{BufCache C}.
Context (devsw : Z -> @devops C) (kend PHYSTOP : Z).
#[local] Abbreviation K := (M (ksys C)).

Definition argi (n : nat) (k : Z -> K Z) : K Z :=
  p ← curproc; match argint p n with Some v => k v | None => mret (- EINVAL) end.
Definition argp (n : nat) (size : Z) (k : Z -> K Z) : K Z :=
  p ← curproc; match argptr p n size with Some v => k v | None => mret (- EINVAL) end.

(** [ofile[fd] = f] *)
Definition set_fd (fd f : Z) : K unit := pset (fun p => p <| ofile := <[Z.to_nat fd := f]> (ofile p) |>).

Definition fdalloc (f : Z) : K Z :=
  p ← curproc;
  match free_fd (ofile p) 0 with
  | Some fd => set_fd fd f;; mret fd
  | None => mret (-1)
  end.

(** The descriptor and its file, or the negative result. *)
Definition argfd (n : nat) : K (Z * Z + Z) :=
  p ← curproc;
  match argint p n with
  | None => mret (inr (- EINVAL))
  | Some fd =>
      if (fd <? 0) || (Z.of_nat NOFILE <=? fd) then mret (inr (- ENOENT))
      else
        f ← aget "ofile" (ofile p) fd;
        if f =? 0 then mret (inr (- ENOENT)) else mret (inl (fd, f))
  end.

(** [if (argfd(n, &fd, &f) < 0 || ...) return -EINVAL;] *)
Definition with_fd (n : nat) (k : Z -> Z -> K Z) : K Z :=
  r ← argfd n; match r with inl (fd, f) => k fd f | inr _ => mret (- EINVAL) end.

Definition sys_read : K Z :=
  with_fd 0 (fun _ f => argi 2 (fun n => argp 1 n (fun p =>
    r ← file_read devsw f n;
    me ← curproc;
    onmm (ustores (pgdir me) p r.2);;
    mret r.1))).

Definition sys_write : K Z :=
  with_fd 0 (fun _ f => argi 2 (fun n => argp 1 n (fun p =>
    me ← curproc;
    src ← onmm (ureads (pgdir me) p (Z.to_nat n));
    file_write devsw f src n))).

Definition sys_close : K Z :=
  with_fd 0 (fun fd f =>
    set_fd fd 0;;
    file_close kend PHYSTOP f;;
    mret 0).

Definition sys_dup : K Z :=
  with_fd 0 (fun _ f =>
    fd ← fdalloc f;
    if fd <? 0 then mret (- ENOENT)
    else file_dup f;; mret fd).

Definition sys_dup2 : K Z :=
  argi 0 (fun oldfd => argi 1 (fun newfd =>
    if (oldfd <? 0) || (Z.of_nat NOFILE <=? oldfd) || (newfd <? 0) || (Z.of_nat NOFILE <=? newfd) then mret (- EBADF)
    else
      p ← curproc;
      f ← aget "ofile" (ofile p) oldfd;
      if f =? 0 then mret (- EBADF)
      else if oldfd =? newfd then mret newfd
      else
        g ← aget "ofile" (ofile p) newfd;
        (if g =? 0 then mret tt
         else file_close kend PHYSTOP g;; set_fd newfd 0);;
        set_fd newfd f;;
        file_dup f;;
        pset (fun p => p <| close_on_exec := Z.ldiff (close_on_exec p) (sigbit newfd) |>);;
        mret newfd)).

(** F_DUPFD starts at [arg], as an int; a negative one indexes below ofile. *)
Definition dupfd (cmd arg f : Z) : K Z :=
  p ← curproc;
  if i32 arg <? 0 then fault "ofile"
  else match free_fd (drop (Z.to_nat (i32 arg)) (ofile p)) (i32 arg) with
       | Some i =>
           set_fd i f;;
           file_dup f;;
           (if cmd =? F_DUPFD_CLOEXEC then pset (fun p => p <| close_on_exec := 1 |>) else mret tt);;
           mret i
       | None => mret (- EMFILE)
       end.

Definition sys_fcntl : K Z :=
  with_fd 0 (fun fd f => argi 1 (fun cmd => argi 2 (fun a =>
    let arg := u32 a in
    if (cmd =? F_DUPFD) || (cmd =? F_DUPFD_CLOEXEC) then dupfd cmd arg f
    else if cmd =? F_GETFL then x ← fat f; mret (i32 (fflags x))
    else if cmd =? F_SETFL then
      if nz (Z.ldiff arg O_APPEND) then mret (- EPERM)
      else fmod f (fun x => x <| fflags := Z.lor (Z.ldiff (fflags x) O_APPEND) (Z.land arg O_APPEND) |>);; mret 0
    else if cmd =? F_SETFD then
      (if nz (Z.land arg 1)
       then pset (fun p => p <| close_on_exec := Z.lor (close_on_exec p) (sigbit fd) |>)
       else pset (fun p => p <| close_on_exec := Z.ldiff (close_on_exec p) (sigbit fd) |>));;
      mret 0
    else mret (- EPERM)))).

Definition SEEK_SET : Z := 0.
Definition SEEK_CUR : Z := 1.
Definition SEEK_END : Z := 2.

Definition sys_lseek : K Z :=
  with_fd 0 (fun _ f => argi 1 (fun offset => argi 2 (fun whence =>
    x ← fat f;
    if decide (ftype x = FD_PIPE) then mret (- ESPIPE)
    else
      onfs (ilock (fip x));;
      match fip x with
      | None => fault "inode pointer"
      | Some ip =>
          d ← onfs (iat ip);
          if whence =? SEEK_SET then
            fmod f (fun x => x <| foff := u32 offset |>);;
            onfs (iunlock (fip x));; x ← fat f; mret (i32 (foff x))
          else if whence =? SEEK_CUR then
            fmod f (fun x => x <| foff := u32 (foff x + offset) |>);;
            onfs (iunlock (fip x));; x ← fat f; mret (i32 (foff x))
          else if whence =? SEEK_END then
            fmod f (fun x => x <| foff := u32 (isize d + offset) |>);;
            onfs (iunlock (fip x));; x ← fat f; mret (i32 (foff x))
          else onfs (iunlock (fip x));; mret (- EINVAL)
      end))).

(** The 64-bit offset: both halves are ints widened with their sign. *)
Definition sys__llseek : K Z :=
  with_fd 0 (fun _ f => argi 1 (fun high => argi 2 (fun low => argp 3 8 (fun result => argi 4 (fun whence =>
    x ← fat f;
    if decide (ftype x = FD_PIPE) then mret (- ESPIPE)
    else
      let offset := Z.lor (u64 (Z.shiftl (u64 high) 32)) (u64 low) in
      onfs (ilock (fip x));;
      match fip x with
      | None => fault "inode pointer"
      | Some ip =>
          d ← onfs (iat ip);
          let new := if whence =? SEEK_SET then Some offset
                     else if whence =? SEEK_CUR then Some (u64 (foff x + offset))
                     else if whence =? SEEK_END then Some (u64 (isize d + offset)) else None in
          match new with
          | None => onfs (iunlock (fip x));; mret (- EINVAL)
          | Some new =>
              fmod f (fun x => x <| foff := u32 new |>);;
              onfs (iunlock (fip x));;
              me ← curproc;
              onmm (ustores (pgdir me) result (bytes32 new ++ bytes32 (Z.shiftr new 32)));;
              mret 0
          end
      end))))).

(** struct stat in memory *)
Definition stat_bytes (st : stat) : list Z :=
  bytes32 (st_mode st) ++ bytes32 (st_ctime st) ++ bytes32 (st_lmtime st) ++ bytes32 (st_dev st) ++ bytes32 (st_ino st)
  ++ take 2 (bytes32 (st_nlink st)) ++ [0; 0] ++ bytes32 (st_size st) ++ bytes32 (st_gid st) ++ bytes32 (st_uid st).

(** stati is called without the inode's lock. *)
Definition sys_fstat : K Z :=
  with_fd 0 (fun _ f => argp 1 36 (fun user_st =>
    x ← fat f;
    st ← match fip x with Some ip => onfs (stati ip) | None => fault "stati" end;
    me ← curproc;
    r ← onmm (copyout (pgdir me) user_st (stat_bytes st));
    if r <? 0 then mret (- ENOENT) else mret 0)).

Definition sys_pipe (page : list Z) : K Z :=
  argp 0 8 (fun fd =>
    r ← pipealloc kend PHYSTOP page;
    match r with
    | None => mret (- ENOMEM)
    | Some (rf, wf) =>
        fd0 ← fdalloc rf;
        fd1 ← (if fd0 <? 0 then mret (-1) else fdalloc wf);
        if (fd0 <? 0) || (fd1 <? 0) then
          (if 0 <=? fd0 then set_fd fd0 0 else mret tt);;
          file_close kend PHYSTOP rf;;
          file_close kend PHYSTOP wf;;
          mret (- ENOMEM)
        else
          me ← curproc;
          onmm (ustores (pgdir me) fd (bytes32 fd0));;
          onmm (ustores (pgdir me) (fd + 4) (bytes32 fd1));;
          mret 0
    end).

(** The buffers of readv and writev: [k] more from number [i] on.  Neither the
    buffers nor their lengths are checked against the process. *)
Fixpoint readv_loop (k : nat) (f vec i total : Z) : K Z :=
  match k with
  | O => mret total
  | S k' =>
      me ← curproc;
      p ← onmm (uword (pgdir me) (vec + 8 * i));
      len ← onmm (uword (pgdir me) (vec + 8 * i + 4));
      let n := i32 len in
      r ← file_read devsw f n;
      onmm (ustores (pgdir me) p r.2);;
      if r.1 <? 0 then mret (- EIO)
      else if r.1 <? n then mret (i32 (total + r.1))
      else readv_loop k' f vec (i + 1) (i32 (total + r.1))
  end.
Definition sys_readv : K Z :=
  with_fd 0 (fun _ f => argi 2 (fun count => argp 1 (i32 (count * 4 * 2)) (fun vec =>
    readv_loop (Z.to_nat count) f vec 0 0))).

Fixpoint writev_loop (k : nat) (f vec i total : Z) : K Z :=
  match k with
  | O => mret total
  | S k' =>
      me ← curproc;
      p ← onmm (uword (pgdir me) (vec + 8 * i));
      len ← onmm (uword (pgdir me) (vec + 8 * i + 4));
      let n := i32 len in
      src ← onmm (ureads (pgdir me) p (Z.to_nat n));
      r ← file_write devsw f src n;
      if r <? 0 then mret (- EIO) else writev_loop k' f vec (i + 1) (i32 (total + r))
  end.
Definition sys_writev : K Z :=
  with_fd 0 (fun _ f => argi 2 (fun count => argp 1 (i32 (count * 4 * 2)) (fun vec =>
    writev_loop (Z.to_nat count) f vec 0 0))).
End sysfd.
