(* ===== verification/SysDir.v ===== *)
(** * Paths and directories (src/kernel/sys/sys.c)

    The system calls that take a path name, over the state of File.v.  Where the C
    code passes a buffer of its own stack that it has not set, the bytes are a
    variable of the section: [name0] for a [char name[DIRSIZ]], [de0] for a
    struct dirent. *)
From Stdlib Require Import ZArith Lia.
From stdpp Require Import base numbers list gmap strings.
From S2P Require Import Prelude KString Locks Kalloc Vm Pipe Proc Syscall Block Log Fs Signal File SysFd.
Local Open Scope Z_scope.

Definition S_IFREG : Z := 32768.
Definition O_WRONLY : Z := 1.
Definition O_RDWR : Z := 2.
Definition O_CREAT : Z := 64.
Definition O_TRUNC : Z := 512.
Definition FSSIZE : Z := 50000.
Definition TTY_MAJOR : Z := 4.
Definition fmt (m : Z) : Z := Z.land m S_IFMT.
Definition dot : list Z := [46].
Definition dotdot : list Z := [46; 46].
Definition zero_dirent : list Z := replicate (Z.to_nat DIRENT) 0.

Section sysdir.
Context {C : Type} `{BufCache C}.
Context (devsw : Z -> @devops C) (kend PHYSTOP : Z).
Context (name0 de0 : list Z).
#[local] Abbreviation K := (M (ksys C)).

(** [argstr(n, &path) < 0] gives [err]. *)
Definition args (n : nat) (err : Z) (k : list Z -> K Z) : K Z :=
  p ← curproc;
  s ← get;
  let umem := uview (pgdir p) (kmm s) in
  match argstr p umem n with Some a => k (ustr umem a) | None => mret err end.

(** An error inside a transaction: [end_op(); return r;]. *)
Definition fail_op (r : Z) : K Z := kend_op;; mret r.

Definition knamei (path : list Z) : K (option nat) := onfs (namei devsw path name0).
Definition knameiparent (path : list Z) : K (option nat * list Z) := onfs (nameiparent devsw path name0).

(** ** Directories *)

Fixpoint isdirempty_from (fuel : nat) (dp : nat) (off : Z) : M (fsys C) Z :=
  match fuel with
  | O => fault "isdirempty"
  | S fuel' =>
      d ← iat dp;
      if off <? isize d then
        r ← readi devsw dp off DIRENT;
        if negb (r.1 =? DIRENT) then panic "isdirempty: readi"
        else if negb (d_ino r.2 =? 0) then mret 0
        else isdirempty_from fuel' dp (off + DIRENT)
      else mret 1
  end.
Definition isdirempty (dp : nat) : M (fsys C) Z :=
  d ← iat dp; isdirempty_from (Z.to_nat (isize d / DIRENT) + 2) dp (2 * DIRENT).

(** create: the new inode, or the existing one of a regular file; locked. *)
Definition create (path : list Z) (type_arg major_arg minor_arg : Z) : K (option nat) :=
  let type := i16 type_arg in
  pr ← knameiparent path;
  match pr.1 with
  | None => mret None
  | Some dp =>
      let name := pr.2 in
      onfs (ilock (Some dp));;
      found ← onfs (dirlookup devsw dp name);
      match found with
      | Some (ip, _) =>
          onfs (iunlockput (Some dp));;
          onfs (ilock (Some ip));;
          if fmt type =? S_IFREG then mret (Some ip)
          else onfs (iunlockput (Some ip));; mret None
      | None =>
          me ← curproc;
          onfs (
            d ← iat dp;
            ip ← ialloc (idev d) type;
            ilock (Some ip);;
            imod ip (fun i => i <| major := i16 major_arg |> <| minor := i16 minor_arg |> <| mode := type |> <| nlink := 1 |>);;
            t ← epoch_mktime;
            imod ip (fun i => i <| ctime := t |>);;
            t ← epoch_mktime;
            imod ip (fun i => i <| lmtime := t |>);;
            imod ip (fun i => i <| iuid := uid me |> <| igid := gid me |>);;
            iupdate ip;;
            (if fmt type =? S_IFDIR then
               imod dp (fun d => d <| nlink := i16 (nlink d + 1) |>);;
               iupdate dp;;
               i ← iat ip;
               r1 ← dirlink devsw ip dot (inum i) de0;
               if r1 <? 0 then panic "create dots"
               else
                 d ← iat dp;
                 r2 ← dirlink devsw ip dotdot (inum d) de0;
                 if r2 <? 0 then panic "create dots" else mret tt
             else mret tt);;
            i ← iat ip;
            r ← dirlink devsw dp name (inum i) de0;
            if r <? 0 then panic "create: dirlink"
            else iunlockput (Some dp);; mret (Some ip))
      end
  end.

(** ** Opening *)

(** A terminal becomes the controlling terminal of a session leader without one. *)
Definition open_tty (ip : nat) : K unit :=
  d ← onfs (iat ip);
  p ← curproc;
  if (fmt (mode d) =? S_IFCHR) && (major d =? TTY_MAJOR) && nz (leader p) && (tty p <? 0) then
    pset (fun p => p <| tty := minor d |>);;
    p ← curproc;
    s ← get;
    l ← aset "ttys" (kttys s) (tty p) (pgrp p);
    modify (fun s => s <| kttys := l |>)
  else mret tt.

(** The end of open and creat: a file and a descriptor for the locked [ip], or
    [err]; [finish] is what each does with the inode and the file then. *)
Definition new_file (ip : nat) (err : Z) (finish : Z -> Z -> K Z) : K Z :=
  f ← file_alloc;
  fd ← (if f =? 0 then mret (-1) else fdalloc f);
  if (f =? 0) || (fd <? 0) then
    (if f =? 0 then mret tt
     else
       onfs (t ← epoch_mktime; imod ip (fun i => i <| lmtime := t |>));;
       file_close kend PHYSTOP f);;
    onfs (iunlockput (Some ip));;
    fail_op err
  else finish f fd.

Definition sys_open : K Z :=
  args 0 (- EINVAL) (fun path => argi 1 (fun omode =>
    me ← curproc;
    let mode_arg := if nz (Z.land omode O_CREAT) then default 0 (argint me 2) else 0 in
    kbegin_op;;
    ip ← (if nz (Z.land omode O_CREAT) then create path (Z.ldiff (Z.lor S_IFREG mode_arg) (umask me)) 0 0
          else
            r ← knamei path;
            match r with Some ip => onfs (ilock (Some ip));; mret (Some ip) | None => mret None end);
    match ip with
    | None => fail_op (- ENOENT)
    | Some ip =>
        open_tty ip;;
        (if nz (Z.land omode O_TRUNC) then onfs (itrunc ip) else mret tt);;
        new_file ip (-1) (fun f fd =>
          onfs (iunlock (Some ip));;
          d ← onfs (iat ip);
          fmod f (fun x => x <| foff := if nz (Z.land omode O_APPEND) then isize d else 0 |>);;
          kend_op;;
          fmod f (fun x => x <| ftype := FD_INODE |> <| fip := Some ip |> <| readable := negb (nz (Z.land omode O_WRONLY)) |>
                             <| writable := nz (Z.land omode O_WRONLY) || nz (Z.land omode O_RDWR) |>);;
          mret fd)
    end)).

Definition sys_creat : K Z :=
  args 0 (- EINVAL) (fun path => argi 1 (fun mode_arg =>
    me ← curproc;
    kbegin_op;;
    ip ← create path (Z.ldiff (Z.lor S_IFREG mode_arg) (umask me)) 0 0;
    match ip with
    | None => fail_op (- ENOENT)
    | Some ip =>
        onfs (itrunc ip);;
        new_file ip (- ENOENT) (fun f fd =>
          onfs (iunlock (Some ip));;
          kend_op;;
          fmod f (fun x => x <| ftype := FD_INODE |> <| fip := Some ip |> <| readable := false |> <| writable := true |> <| foff := 0 |>);;
          mret fd)
    end)).

(** ** Links *)

(** From [ip->nlink++] on: the body link and linkat share; [ip] is locked. *)
Definition link_to (ip : nat) (new : list Z) : K Z :=
  onfs (imod ip (fun i => i <| nlink := i16 (nlink i + 1) |>);; iupdate ip;; iunlock (Some ip));;
  pr ← knameiparent new;
  bad ← (match pr.1 with
         | None => mret true
         | Some dp =>
             onfs (
               ilock (Some dp);;
               d ← iat dp;
               i ← iat ip;
               r ← (if negb (idev d =? idev i) then mret (-1) else dirlink devsw dp pr.2 (inum i) de0);
               iunlockput (Some dp);;
               mret (r <? 0))
         end);
  if (bad : bool) then
    onfs (ilock (Some ip);; imod ip (fun i => i <| nlink := i16 (nlink i - 1) |>);; iupdate ip;; iunlockput (Some ip));;
    fail_op (- ENOENT)
  else
    onfs (iput ip);;
    kend_op;;
    mret 0.

Definition sys_link : K Z :=
  args 0 (- EINVAL) (fun old => args 1 (- EINVAL) (fun new =>
    kbegin_op;;
    r ← knamei old;
    match r with
    | None => fail_op (- ENOENT)
    | Some ip => onfs (ilock (Some ip));; link_to ip new
    end)).

Definition sys_linkat : K Z :=
  args 1 (- EINVAL) (fun old => args 3 (- EINVAL) (fun new =>
    kbegin_op;;
    r ← knamei old;
    match r with
    | None => fail_op (- ENOENT)
    | Some ip =>
        onfs (ilock (Some ip));;
        i ← onfs (iat ip);
        if fmt (mode i) =? S_IFDIR then onfs (iunlockput (Some ip));; fail_op (- EPERM)
        else link_to ip new
    end)).

Definition sys_unlink : K Z :=
  args 0 (- EINVAL) (fun path =>
    kbegin_op;;
    pr ← knameiparent path;
    match pr.1 with
    | None => fail_op (- ENOENT)
    | Some dp =>
        let bad := onfs (iunlockput (Some dp));; fail_op (- ENOENT) in
        onfs (ilock (Some dp));;
        me ← curproc;
        d ← onfs (iat dp);
        if negb (uid me =? iuid d) && negb (fmt (mode d) =? S_IFCHR) && negb (fmt (mode d) =? S_IFBLK) then
          onfs (iunlock (Some dp));; fail_op (- EACCES)
        else if (namecmp pr.2 dot =? 0) || (namecmp pr.2 dotdot =? 0) then bad
        else
          found ← onfs (dirlookup devsw dp pr.2);
          match found with
          | None => bad
          | Some (ip, off) =>
              onfs (ilock (Some ip));;
              i ← onfs (iat ip);
              if nlink i <? 1 then panic "unlink: nlink < 1"
              else
                e ← (if fmt (mode i) =? S_IFDIR then onfs (isdirempty ip) else mret 1);
                if e =? 0 then onfs (iunlockput (Some ip));; bad
                else
                  n ← onfs (writei devsw dp zero_dirent off DIRENT);
                  if negb (n =? DIRENT) then panic "unlink: writei"
                  else
                    onfs (
                      i ← iat ip;
                      when (fmt (mode i) =? S_IFDIR)
                        (imod dp (fun d => d <| nlink := i16 (nlink d - 1) |>);; iupdate dp);;
                      iunlockput (Some dp);;
                      imod ip (fun i => i <| nlink := i16 (nlink i - 1) |>);;
                      iupdate ip;;
                      iunlockput (Some ip));;
                    kend_op;;
                    mret 0
          end
    end).

Definition sys_rmdir : K Z :=
  args 0 (- EINVAL) (fun path =>
    kbegin_op;;
    pr ← knameiparent path;
    match pr.1 with
    | None => fail_op (- ENOENT)
    | Some dp =>
        let fail_dp r := onfs (iunlockput (Some dp));; fail_op r in
        onfs (ilock (Some dp));;
        me ← curproc;
        d ← onfs (iat dp);
        if negb (uid me =? iuid d) then fail_dp (- EPERM)
        else if (namecmp pr.2 dot =? 0) || (namecmp pr.2 dotdot =? 0) then fail_dp (- EPERM)
        else
          found ← onfs (dirlookup devsw dp pr.2);
          match found with
          | None => fail_dp (- ENOENT)
          | Some (ip, off) =>
              onfs (ilock (Some ip));;
              i ← onfs (iat ip);
              if negb (fmt (mode i) =? S_IFDIR) then onfs (iunlockput (Some ip));; fail_dp (- ENOTDIR)
              else
                e ← onfs (isdirempty ip);
                if e =? 0 then onfs (iunlockput (Some ip));; fail_dp (- ENOTEMPTY)
                else
                  n ← onfs (writei devsw dp zero_dirent off DIRENT);
                  if negb (n =? DIRENT) then panic "rmdir: writei"
                  else
                    onfs (
                      imod dp (fun d => d <| nlink := i16 (nlink d - 1) |>);;
                      iupdate dp;;
                      iunlockput (Some dp);;
                      imod ip (fun i => i <| nlink := i16 (nlink i - 1) |>);;
                      iupdate ip;;
                      iunlockput (Some ip));;
                    kend_op;;
                    mret 0
          end
    end).

(** [S_IFDIR] with mode 0755, less the mask. *)
Definition sys_mkdir : K Z :=
  kbegin_op;;
  me ← curproc;
  s ← get;
  let umem := uview (pgdir me) (kmm s) in
  ip ← (match argstr me umem 0 with
        | Some a => create (ustr umem a) (Z.ldiff (Z.lor S_IFDIR 493) (umask me)) 0 0
        | None => mret None
        end);
  match ip with
  | None => fail_op (- EEXIST)
  | Some ip => onfs (iunlockput (Some ip));; kend_op;; mret 0
  end.

Definition sys_mknod : K Z :=
  me ← curproc;
  if negb (euid me =? 0) then mret (- EPERM)
  else
    kbegin_op;;
    s ← get;
    let umem := uview (pgdir me) (kmm s) in
    match argstr me umem 0, argint me 1, argint me 2 with
    | Some a, Some mode_arg, Some dev =>
        ip ← create (ustr umem a) mode_arg (Z.shiftr dev 8) (Z.land dev 255);
        match ip with
        | None => fail_op (- EEXIST)
        | Some ip =>
            (if fmt mode_arg =? S_IFBLK then onfs (imod ip (fun i => i <| isize := FSSIZE * BSIZE |>)) else mret tt);;
            onfs (iunlockput (Some ip));;
            kend_op;;
            mret 0
        end
    | _, _, _ => fail_op (- EACCES)
    end.

Definition sys_chdir : K Z :=
  kbegin_op;;
  me ← curproc;
  s ← get;
  let umem := uview (pgdir me) (kmm s) in
  r ← (match argstr me umem 0 with Some a => knamei (ustr umem a) | None => mret None end);
  match r with
  | None => fail_op (- ENOENT)
  | Some ip =>
      onfs (ilock (Some ip));;
      i ← onfs (iat ip);
      if negb (fmt (mode i) =? S_IFDIR) then onfs (iunlockput (Some ip));; fail_op (- ENOTDIR)
      else
        onfs (iunlock (Some ip));;
        me ← curproc;
        onfs (iput (Z.to_nat (Proc.cwd me - 1)));;
        kend_op;;
        pset (fun p => p <| Proc.cwd := Z.of_nat ip + 1 |>);;
        mret 0
  end.

(** ** Attributes *)

(** [myproc()->uid != 0 && myproc()->uid != ip->uid] *)
Definition not_owner (me : proc) (i : inode) : bool := negb (uid me =? 0) && negb (uid me =? iuid i).
Definition new_mode (old m : Z) : Z := Z.lor (Z.ldiff old 511) (Z.land m 511).

(** The inode of a path, locked, in a transaction. *)
Definition with_path (n : nat) (missing : Z) (k : nat -> K Z) : K Z :=
  args n (- EINVAL) (fun path =>
    kbegin_op;;
    r ← knamei path;
    match r with
    | None => fail_op missing
    | Some ip => onfs (ilock (Some ip));; k ip
    end).

Definition sys_chmod : K Z :=
  argi 1 (fun mode_arg => with_path 0 (- ENOENT) (fun ip =>
    me ← curproc;
    i ← onfs (iat ip);
    if not_owner me i then onfs (iunlockput (Some ip));; fail_op (- EACCES)
    else
      onfs (imod ip (fun i => i <| mode := i16 (new_mode (mode i) mode_arg) |>);; iupdate ip;; iunlockput (Some ip));;
      kend_op;;
      mret 0)).

(** The reference of namei is not dropped. *)
Definition sys_chown : K Z :=
  argi 1 (fun owner => argi 2 (fun group => with_path 0 (- ENOENT) (fun ip =>
    me ← curproc;
    i ← onfs (iat ip);
    if not_owner me i then onfs (iunlock (Some ip));; fail_op (- EACCES)
    else
      onfs (imod ip (fun i => i <| iuid := u32 owner |> <| igid := u32 group |>);; iupdate ip;; iunlock (Some ip));;
      kend_op;;
      mret 0))).

Definition sys_utime : K Z :=
  with_path 0 (- ENOENT) (fun ip =>
    onfs (
      t ← epoch_mktime;
      imod ip (fun i => i <| ctime := t |> <| lmtime := t |>);;
      iupdate ip;;
      iunlock (Some ip));;
    kend_op;;
    mret 0).

Definition access_bits (me : proc) (i : inode) : Z :=
  let perm := Z.land (mode i) 511 in
  if uid me =? iuid i then Z.shiftr perm 6
  else if gid me =? igid i then Z.shiftr perm 3
  else perm.

Definition sys_access : K Z :=
  argi 1 (fun m => with_path 0 (- EBADF) (fun ip =>
    let want := Z.land m 7 in
    me ← curproc;
    i ← onfs (iat ip);
    onfs (iunlock (Some ip));;
    kend_op;;
    mret (if Z.land (access_bits me i) want =? want then 0 else - EACCES))).

(** fchmod and fchown: [f->ip] in a transaction, locked. *)
Definition with_ip (f : Z) (k : nat -> K Z) : K Z :=
  kbegin_op;;
  x ← fat f;
  onfs (ilock (fip x));;
  match fip x with Some ip => k ip | None => fault "inode pointer" end.

Definition sys_fchmod : K Z :=
  with_fd 0 (fun _ f => argi 1 (fun mode_arg => with_ip f (fun ip =>
    me ← curproc;
    i ← onfs (iat ip);
    if not_owner me i then onfs (iunlock (Some ip));; fail_op (- EACCES)
    else
      onfs (imod ip (fun i => i <| mode := i16 (new_mode (mode i) mode_arg) |>);; iupdate ip;; iunlock (Some ip));;
      kend_op;;
      mret 0))).

Definition sys_fchown : K Z :=
  with_fd 0 (fun _ f => argi 1 (fun owner => argi 2 (fun group => with_ip f (fun ip =>
    me ← curproc;
    i ← onfs (iat ip);
    if not_owner me i then onfs (iunlock (Some ip));; fail_op (- EACCES)
    else
      onfs (imod ip (fun i => i <| iuid := u32 owner |> <| igid := u32 group |>);; iupdate ip;; iunlock (Some ip));;
      kend_op;;
      mret 0)))).

(** ** Reading a directory *)

(** The entry as the process gets it: d_off and d_reclen are set. *)
Definition out_dirent (de : list Z) (off : Z) : list Z := put16 (put16 de 2 (u16 off)) 4 DIRENT.

(** [count - n] is compared as an unsigned number. *)
Fixpoint getdents_loop (fuel : nat) (f : Z) (ip : nat) (dp count n : Z) : K Z :=
  match fuel with
  | O => fault "getdents"
  | S fuel' =>
      x ← fat f;
      d ← onfs (iat ip);
      if foff x <? isize d then
        if u32 (count - n) <? DIRENT then onfs (iunlock (Some ip));; mret n
        else
          r ← onfs (readi devsw ip (foff x) DIRENT);
          if negb (r.1 =? DIRENT) then onfs (iunlock (Some ip));; mret n
          else
            fmod f (fun x => x <| foff := u32 (foff x + DIRENT) |>);;
            if d_ino r.2 =? 0 then getdents_loop fuel' f ip dp count n
            else
              x ← fat f;
              me ← curproc;
              c ← onmm (copyout (pgdir me) (u32 (dp + n)) (out_dirent r.2 (foff x)));
              if c <? 0 then onfs (iunlock (Some ip));; mret (-1)
              else getdents_loop fuel' f ip dp count (i32 (n + DIRENT))
      else onfs (iunlock (Some ip));; mret n
  end.

Definition sys_getdents : K Z :=
  argi 0 (fun fd => argp 1 DIRENT (fun dp => argi 2 (fun count =>
    if (fd <? 0) || (Z.of_nat NOFILE <=? fd) then mret (-1)
    else
      me ← curproc;
      f ← aget "ofile" (ofile me) fd;
      if f =? 0 then mret (-1)
      else
        x ← fat f;
        match fip x with
        | None => mret (-1)
        | Some ip =>
            d ← onfs (iat ip);
            if negb (nz (Z.land (mode d) S_IFDIR)) then mret (-1)
            else
              onfs (ilock (Some ip));;
              d ← onfs (iat ip);
              getdents_loop (Z.to_nat (isize d / DIRENT) + 2) f ip dp count 0
        end))).
End sysdir.
