(* ===== verification/FdThm.v ===== *)
(** * Open files: reference counts

    [counted b s]: the reference count of every open file [f] is the number of
    descriptors that name it, in all processes together, plus [b f], the balance
    of the references that kernel code holds or owes in the middle of a call.
    Every system call on descriptors and paths begins and ends with balance 0. *)
From Stdlib Require Import ZArith Lia.
From stdpp Require Import base numbers list gmap strings relations.
From S2P Require Import Prelude KString Locks Kalloc Vm Pipe Proc Syscall Block Log Fs Signal File SysFd SysDir.
Local Open Scope Z_scope.

(** How often [f] occurs. *)
Definition occ (f : Z) (l : list Z) : Z := Z.of_nat (count_occ Z.eq_dec l f).

Lemma occ_nil f : occ f [] = 0.
Proof. reflexivity. Qed.
Lemma occ_cons f x l : occ f (x :: l) = b2z (x =? f) + occ f l.
Proof. unfold occ. cbn [count_occ]. destruct (Z.eq_dec x f) as [-> | Hne]; [rewrite Z.eqb_refl | rewrite (proj2 (Z.eqb_neq _ _) Hne)]; cbn [b2z]; lia. Qed.
Lemma occ_app f l1 l2 : occ f (l1 ++ l2) = occ f l1 + occ f l2.
Proof. unfold occ. rewrite count_occ_app. lia. Qed.
Lemma occ_range f l : 0 <= occ f l <= Z.of_nat (length l).
Proof. unfold occ. pose proof (count_occ_bound Z.eq_dec f l). lia. Qed.
Lemma occ_perm f l1 l2 : l1 ≡ₚ l2 -> occ f l1 = occ f l2.
Proof. intros Hp. unfold occ. f_equal. apply Permutation_count_occ, Hp. Qed.

(** Replacing one element. *)
Lemma occ_insert f l i x y : l !! i = Some x -> occ f (<[i := y]> l) = occ f l - b2z (x =? f) + b2z (y =? f).
Proof.
  revert i. induction l as [|z l IH]; intros [|i] H; try discriminate.
  - injection H as ->. change (<[0%nat := y]> (x :: l)) with (y :: l). rewrite !occ_cons. lia.
  - change (<[S i := y]> (z :: l)) with (z :: <[i := y]> l). rewrite !occ_cons, (IH i H). lia.
Qed.

Section fd_thm.
Context {C : Type} `{BufCache C}.
#[local] Abbreviation K := (M (ksys C)).
Implicit Types (s : ksys C).

(** The descriptor tables of the processes. *)
Definition tabs (s : ksys C) : list (list Z) := map ofile (Proc.ptable (kps s)).
Definition fds (s : ksys C) : list Z := concat (tabs s).

Definition in_ftable (f : Z) : Prop := 1 <= f <= Z.of_nat NFILE.

Record counted (b : Z -> Z) (s : ksys C) : Prop := Counted {
  c_lock : ftlocked s = false;
  c_len : length (ftable s) = NFILE;
  c_np : length (tabs s) = NPROC;
  c_tab : Forall (fun t => length t = NOFILE) (tabs s);
  c_fd : Forall (fun f => 0 <= f <= Z.of_nat NFILE) (fds s);
  c_small : forall f, b f <= 100;
  c_ref : forall f x, 1 <= f -> ftable s !! Z.to_nat (f - 1) = Some x -> fref x = b f + occ f (fds s)
}.

Lemma counted_ext b b' s : (forall f, 1 <= f -> b' f = b f) -> (forall f, b' f <= 100) -> counted b s -> counted b' s.
Proof. intros Hb Hs [H1 H2 H3 H4 H5 H6 H7]. split; auto. intros f x Hf Hx. rewrite Hb by exact Hf. auto. Qed.

(** ** Code that touches neither the file table nor a descriptor *)

Definition same_fds (s s' : ksys C) : Prop :=
  map fref (ftable s') = map fref (ftable s) /\ ftlocked s' = ftlocked s /\ tabs s' = tabs s /\ cur (kps s') = cur (kps s).
Definition quiet {A} (m : K A) : Prop := forall s a s', m s = Ok a s' -> same_fds s s'.

Lemma counted_same b s s' : same_fds s s' -> counted b s -> counted b s'.
Proof.
  intros (Ef & El & Et & _) [H1 H2 H3 H4 H5 H6 H7].
  assert (fds s' = fds s) as Ed by (unfold fds; rewrite Et; reflexivity).
  split; rewrite ?El, ?Et, ?Ed; auto.
  - rewrite <-(length_map fref), Ef, length_map. exact H2.
  - intros f x Hf Hx. apply (f_equal (fun l => l !! Z.to_nat (f - 1))) in Ef. rewrite !list_lookup_fmap, Hx in Ef.
    cbn in Ef. destruct (ftable s !! Z.to_nat (f - 1)) as [y|] eqn:Ey; [|discriminate]. injection Ef as ->. apply H7; assumption.
Qed.

Lemma same_fds_refl s : same_fds s s.
Proof. split_and!; reflexivity. Qed.
Lemma same_fds_trans s1 s2 s3 : same_fds s1 s2 -> same_fds s2 s3 -> same_fds s1 s3.
Proof. intros (A1 & A2 & A3 & A4) (B1 & B2 & B3 & B4). split_and!; congruence. Qed.

Lemma quiet_bind {A B} (m : K A) (k : A -> K B) : quiet m -> (forall a, quiet (k a)) -> quiet (m ≫= k).
Proof.
  intros Hm Hk s b s' E. apply bind_Ok in E as (a & s1 & E1 & E2). eapply same_fds_trans; [exact (Hm _ _ _ E1) | exact (Hk _ _ _ _ E2)].
Qed.
Lemma quiet_ret {A} (a : A) : quiet (mret a).
Proof. intros s b s' [= _ <-]. apply same_fds_refl. Qed.
Lemma quiet_get : quiet get.
Proof. intros s b s' [= _ <-]. apply same_fds_refl. Qed.
Lemma quiet_panic {A} w : quiet (panic w : K A).
Proof. intros s b s' [=]. Qed.
Lemma quiet_fault {A} w : quiet (fault w : K A).
Proof. intros s b s' [=]. Qed.
Lemma quiet_block {A} ch : quiet (block ch : K A).
Proof. intros s b s' [=]. Qed.
Lemma quiet_aget {A} w (l : list A) i : quiet (aget w l i).
Proof. unfold aget. destruct (i <? 0); [apply quiet_fault|]. destruct (l !! Z.to_nat i); [apply quiet_ret | apply quiet_fault]. Qed.
Lemma quiet_aset {A} w (l : list A) i x : quiet (aset w l i x).
Proof. unfold aset. destruct (_ && _); [apply quiet_ret | apply quiet_fault]. Qed.
Lemma quiet_onmm {A} (m : M kstate A) : quiet (onmm m).
Proof. intros s b s' E. unfold onmm in E. destruct (m (kmm s)); try discriminate. injection E as _ <-. split_and!; reflexivity. Qed.

(** Process operations that leave the descriptor tables alone. *)
Definition fdless {A} (m : M pstate A) : Prop :=
  forall p a p', m p = Ok a p' -> map ofile (Proc.ptable p') = map ofile (Proc.ptable p) /\ cur p' = cur p.
Lemma quiet_onps {A} (m : M pstate A) : fdless m -> quiet (onps m).
Proof.
  intros Hm s b s' E. unfold onps in E. destruct (m (kps s)) as [a p| | |] eqn:Ep; try discriminate. injection E as _ <-.
  destruct (Hm _ _ _ Ep). split_and!; auto.
Qed.
Lemma fdless_bind {A B} (m : M pstate A) (k : A -> M pstate B) : fdless m -> (forall a, fdless (k a)) -> fdless (m ≫= k).
Proof. intros Hm Hk s b s' E. apply bind_Ok in E as (a & s1 & E1 & E2). destruct (Hk _ _ _ _ E2) as [-> ->]. exact (Hm _ _ _ E1). Qed.
Lemma fdless_myproc : fdless myproc.
Proof. intros s a s' E. unfold myproc in E. mstep in E. destruct (cur s) eqn:Ec; [|discriminate]. injection E as _ <-. auto. Qed.
Lemma fdless_pget i : fdless (pget i).
Proof. intros s a s' E. unfold pget in E. mstep in E. destruct (Proc.ptable s !! i); [|discriminate]. injection E as _ <-. auto. Qed.
Lemma fdless_acquire : fdless acquire_pt.
Proof. intros s a s' E. unfold acquire_pt in E. mstep in E. destruct (ptlocked s); [discriminate|]. injection E as _ <-. auto. Qed.
Lemma fdless_release : fdless release_pt.
Proof. intros s a s' E. unfold release_pt in E. mstep in E. destruct (ptlocked s); [|discriminate]. injection E as _ <-. auto. Qed.
Lemma fdless_pmod i f : (forall p, ofile (f p) = ofile p) -> fdless (pmod i f).
Proof.
  intros Hf s a s' [= _ <-]. split; [|reflexivity]. cbn. generalize (Proc.ptable s). intros l. revert i.
  induction l as [|p l IH]; intros [|i]; [reflexivity | reflexivity | cbn; rewrite Hf; reflexivity | cbn; f_equal; apply IH].
Qed.
Lemma fdless_wakeup ch : fdless (wakeup ch).
Proof.
  unfold wakeup. apply fdless_bind; [apply fdless_acquire|]. intros _. apply fdless_bind; [|intros _; apply fdless_release].
  intros s a s' [= _ <-]. split; [|reflexivity]. cbn. rewrite map_map. apply map_ext. intros p. destruct (_ && _); reflexivity.
Qed.

Lemma quiet_curproc : quiet curproc.
Proof. apply quiet_onps, fdless_bind; [apply fdless_myproc | apply fdless_pget]. Qed.
Lemma quiet_pset f : (forall p, ofile (f p) = ofile p) -> quiet (pset f).
Proof. intros Hf. apply quiet_onps, fdless_bind; [apply fdless_myproc | intros i; apply fdless_pmod, Hf]. Qed.
Lemma quiet_onfs {A} (m : M (fsys C) A) : quiet (onfs m).
Proof.
  unfold onfs. apply quiet_bind; [apply quiet_curproc|]. intros p s a s' E. unfold as_proc in E.
  destruct (m _); try discriminate. injection E as _ <-. split_and!; reflexivity.
Qed.
Lemma quiet_fat f : quiet (fat f).
Proof. apply quiet_bind; [apply quiet_get|]. intros s. apply quiet_aget. Qed.
Lemma map_alter_same {A B} (g : A -> B) (h : A -> A) i l : (forall x, g (h x) = g x) -> map g (alter h i l) = map g l.
Proof. intros Hh. revert i. induction l as [|x l IH]; intros [|i]; [reflexivity | reflexivity | cbn; rewrite Hh; reflexivity | cbn; f_equal; apply IH]. Qed.
Lemma quiet_fmod f g : (forall x, fref (g x) = fref x) -> quiet (fmod f g).
Proof. intros Hg s a s' [= _ <-]. split_and!; [apply map_alter_same, Hg | reflexivity ..]. Qed.
Lemma quiet_pipe_at p : quiet (pipe_at (C := C) p).
Proof. apply quiet_bind; [apply quiet_get|]. intros s. destruct (kpipes s !! p); [apply quiet_ret | apply quiet_fault]. Qed.
Lemma quiet_modify (g : ksys C -> ksys C) : (forall s, same_fds s (g s)) -> quiet (modify g).
Proof. intros Hg s a s' [= _ <-]. apply Hg. Qed.
Lemma quiet_pipe_put p x : quiet (pipe_put (C := C) p x).
Proof. apply quiet_modify. intros s. split_and!; reflexivity. Qed.
Lemma quiet_wakeups p l : quiet (wakeups (C := C) p l).
Proof. induction l as [|c l IH]; [apply quiet_ret|]. apply quiet_bind; [apply quiet_onps, fdless_wakeup | intros _; exact IH]. Qed.

(** ** Triples *)

(** From a state whose descriptor tables and running process satisfy [P], with
    balance [b], a normal return of [m] with [a] leaves balance [b' a]. *)
Definition tri {A} (P : list (list Z) -> option nat -> Prop) (b : Z -> Z) (m : K A) (b' : A -> Z -> Z) : Prop :=
  forall s a s', P (tabs s) (cur (kps s)) -> counted b s -> m s = Ok a s' -> counted (b' a) s'.
Definition any : list (list Z) -> option nat -> Prop := fun _ _ => True.
Definition one (g f : Z) : Z := b2z (g =? f).
Definition zero : Z -> Z := fun _ => 0.

(** The running process has the descriptor table [t]. *)
Definition curtab (t : list Z) (T : list (list Z)) (c : option nat) : Prop := exists i, c = Some i /\ T !! i = Some t.
Definition also (P Q : list (list Z) -> option nat -> Prop) : list (list Z) -> option nat -> Prop := fun T c => P T c /\ Q T c.

Lemma tri_quiet {A B} P b (m : K A) (k : A -> K B) b' : quiet m -> (forall a, tri P b (k a) b') -> tri P b (m ≫= k) b'.
Proof.
  intros Hm Hk s a s' HP HC E. apply bind_Ok in E as (x & s1 & E1 & E2). pose proof (Hm _ _ _ E1) as Hs.
  apply (Hk x s1 a s'); [|exact (counted_same _ _ _ Hs HC) | exact E2]. destruct Hs as (_ & _ & -> & ->). exact HP.
Qed.
Lemma tri_bind {A B} P b (m : K A) (k : A -> K B) b1 b2 : tri P b m b1 -> (forall a, tri any (b1 a) (k a) b2) -> tri P b (m ≫= k) b2.
Proof. intros Hm Hk s a s' HP HC E. apply bind_Ok in E as (x & s1 & E1 & E2). exact (Hk x s1 a s' I (Hm _ _ _ HP HC E1) E2). Qed.
Lemma tri_done {A} P b (m : K A) : quiet m -> tri P b m (fun _ => b).
Proof. intros Hm s a s' _ HC E. exact (counted_same _ _ _ (Hm _ _ _ E) HC). Qed.
Lemma tri_ret {A} P b (a : A) (b' : A -> Z -> Z) : (forall f, 1 <= f -> b' a f = b f) -> (forall f, b' a f <= 100) -> tri P b (mret a) b'.
Proof. intros He Hs s x s' _ HC [= <- <-]. exact (counted_ext b (b' a) s He Hs HC). Qed.
Lemma tri_weaken {A} (P P' : list (list Z) -> option nat -> Prop) b (m : K A) b' : (forall T c, P T c -> P' T c) -> tri P' b m b' -> tri P b m b'.
Proof. intros Hi Hm s a s' HP. exact (Hm s a s' (Hi _ _ HP)). Qed.
Lemma tri_post {A} P b (m : K A) b1 b2 :
  tri P b m b1 -> (forall a f, 1 <= f -> b2 a f = b1 a f) -> (forall a f, b2 a f <= 100) -> tri P b m b2.
Proof. intros Hm He Hs s a s' HP HC E. exact (counted_ext _ _ _ (He a) (Hs a) (Hm _ _ _ HP HC E)). Qed.
Lemma tri_pre {A} P b0 b (m : K A) b' : (forall f, 1 <= f -> b f = b0 f) -> (forall f, b f <= 100) -> tri P b m b' -> tri P b0 m b'.
Proof. intros He Hs Hm s a s' HP HC. exact (Hm s a s' HP (counted_ext _ _ _ He Hs HC)). Qed.

(** Reading the running process. *)
Lemma curproc_Ok s p s' : curproc s = Ok p s' -> s' = s /\ curtab (ofile p) (tabs s) (cur (kps s)).
Proof.
  intros E. unfold curproc, onps in E. unfold myproc, pget in E. mstep in E. destruct (cur (kps s)) as [i|] eqn:Ec; [|discriminate].
  destruct (Proc.ptable (kps s) !! i) as [q|] eqn:Eq; [|discriminate]. injection E as <- <-.
  split; [destruct s; reflexivity|]. exists i. split; [reflexivity|]. unfold tabs. rewrite list_lookup_fmap, Eq. reflexivity.
Qed.
Lemma concat_Forall {A} (Q : A -> Prop) (T : list (list A)) : Forall Q (concat T) <-> Forall (Forall Q) T.
Proof. induction T as [|t T IH]; cbn [concat]; [split; constructor|]. rewrite Forall_app, Forall_cons, IH. reflexivity. Qed.

Lemma curtab_files b s t : counted b s -> curtab t (tabs s) (cur (kps s)) -> Forall (fun f => 0 <= f <= Z.of_nat NFILE) t.
Proof.
  intros HC (i & _ & Ht). pose proof (c_fd _ _ HC) as Hfd. unfold fds in Hfd. apply concat_Forall in Hfd.
  rewrite Forall_lookup in Hfd. exact (Hfd i t Ht).
Qed.

Lemma tri_curproc {B} P b (k : proc -> K B) b' :
  (forall p, Forall (fun f => 0 <= f <= Z.of_nat NFILE) (ofile p) -> tri (also P (curtab (ofile p))) b (k p) b') ->
  tri P b (curproc ≫= k) b'.
Proof.
  intros Hk s a s' HP HC E. apply bind_Ok in E as (p & s1 & E1 & E2). apply curproc_Ok in E1 as [-> Ht].
  exact (Hk p (curtab_files _ _ _ HC Ht) s a s' (conj HP Ht) HC E2).
Qed.

Lemma tri_aget {A B} P b w (l : list A) i (k : A -> K B) b' :
  (forall x, 0 <= i -> l !! Z.to_nat i = Some x -> tri P b (k x) b') -> tri P b (aget w l i ≫= k) b'.
Proof.
  intros Hk s a s' HP HC E. apply bind_Ok in E as (x & s1 & E1 & E2). unfold aget in E1. destruct (Z.ltb_spec i 0); [discriminate|].
  destruct (l !! Z.to_nat i) as [y|] eqn:Ey; [|discriminate]. injection E1 as <- <-. exact (Hk y ltac:(lia) eq_refl s a s' HP HC E2).
Qed.

Lemma tri_assoc {A B D} P b (m : K A) (f : A -> K B) (k : B -> K D) b' :
  tri P b (m ≫= (fun x => f x ≫= k)) b' -> tri P b ((m ≫= f) ≫= k) b'.
Proof. intros Hm s a s' HP HC E. rewrite bind_assoc in E. exact (Hm s a s' HP HC E). Qed.
Lemma tri_ret_bind {A B} P b (a : A) (k : A -> K B) b' : tri P b (k a) b' -> tri P b (mret a ≫= k) b'.
Proof. intros Hk. exact Hk. Qed.

(** ** Descriptors *)

Lemma one_zero f : 1 <= f -> one 0 f = 0.
Proof. intros Hf. unfold one. rewrite (proj2 (Z.eqb_neq _ _)) by lia. reflexivity. Qed.
Lemma one_range g f : 0 <= one g f <= 1.
Proof. unfold one. destruct (g =? f); cbn; lia. Qed.

Lemma fds_alter s i t fd g f :
  tabs s !! i = Some t -> t !! fd = Some g ->
  forall x, occ x (concat (<[i := <[fd := f]> t]> (tabs s))) = occ x (fds s) - one g x + one f x.
Proof.
  unfold fds. generalize (tabs s). intros T Hi Hfd x. revert i Hi. induction T as [|u T IH]; intros [|i] Hi; try discriminate.
  - injection Hi as ->. change (<[0%nat := <[fd := f]> t]> (t :: T)) with (<[fd := f]> t :: T). cbn [concat].
    rewrite !occ_app, (occ_insert x t fd g f Hfd). unfold one. lia.
  - change (<[S i := <[fd := f]> t]> (u :: T)) with (u :: <[i := <[fd := f]> t]> T). cbn [concat]. rewrite !occ_app, (IH i Hi). lia.
Qed.

Lemma map_alter_ofile l i t fd f :
  map ofile l !! i = Some t ->
  map ofile (alter (fun p => p <| ofile := <[fd := f]> (ofile p) |>) i l) = <[i := <[fd := f]> t]> (map ofile l).
Proof.
  revert i. induction l as [|p l IH]; intros [|i] Ht; try discriminate.
  - injection Ht as <-. reflexivity.
  - change (ofile p :: map ofile (alter (fun p => p <| ofile := <[fd := f]> (ofile p) |>) i l) = ofile p :: <[i := <[fd := f]> t]> (map ofile l)).
    f_equal. apply IH. exact Ht.
Qed.

(** The running process and its descriptor table after an assignment. *)
Lemma set_fd_Ok s i t fd f a s' :
  cur (kps s) = Some i -> tabs s !! i = Some t -> set_fd fd f s = Ok a s' ->
  tabs s' = <[i := <[Z.to_nat fd := f]> t]> (tabs s) /\ ftable s' = ftable s /\ ftlocked s' = ftlocked s /\ cur (kps s') = cur (kps s).
Proof.
  intros Hc Ht E. unfold set_fd, pset, onps in E. unfold myproc, pmod in E. mstep in E. rewrite Hc in E. injection E as _ <-.
  split_and!; [|reflexivity ..]. exact (map_alter_ofile _ i t _ f Ht).
Qed.

(** [ofile[fd] = f] in slot [i], where [ofile[fd]] was [g]. *)
Lemma counted_set b s s' i t fd g f :
  counted b s -> tabs s !! i = Some t -> t !! fd = Some g -> 0 <= f <= Z.of_nat NFILE -> (forall x, b x <= 50) ->
  tabs s' = <[i := <[fd := f]> t]> (tabs s) -> ftable s' = ftable s -> ftlocked s' = ftlocked s ->
  counted (fun x => b x + one g x - one f x) s'.
Proof.
  intros [H1 H2 H3 H4 H5 H6 H7] Ht Hg Hf Hb Et Ef El. pose proof (fds_alter s i t fd g f Ht Hg) as Ho.
  split; rewrite ?El, ?Ef, ?Et; auto.
  - rewrite length_insert. exact H3.
  - apply Forall_insert; [exact H4|]. rewrite length_insert. rewrite Forall_lookup in H4. exact (H4 i t Ht).
  - unfold fds in *. rewrite Et. apply concat_Forall. apply concat_Forall in H5. apply Forall_insert; [exact H5|].
    apply Forall_insert; [|exact Hf]. rewrite Forall_lookup in H5. exact (H5 i t Ht).
  - intros x. pose proof (one_range g x). pose proof (one_range f x). pose proof (Hb x). lia.
  - intros x y Hx Hy. unfold fds. rewrite Et, Ho, (H7 x y Hx Hy). unfold fds. lia.
Qed.
Lemma tri_set_fd {B} P t fd g f b (k : unit -> K B) b' :
  (forall T c, P T c -> curtab t T c) ->
  t !! Z.to_nat fd = Some g -> 0 <= f <= Z.of_nat NFILE -> (forall x, b x <= 50) ->
  (forall u, tri (curtab (<[Z.to_nat fd := f]> t)) (fun x => b x + one g x - one f x) (k u) b') ->
  tri P b (set_fd fd f ≫= k) b'.
Proof.
  intros HP0 Hg Hf Hb Hk s a s' HP HC E. destruct (HP0 _ _ HP) as (i & Hc & Ht).
  apply bind_Ok in E as (u & s1 & E1 & E2). destruct (set_fd_Ok s i t fd f u s1 Hc Ht E1) as (Et & Ef & El & Ecur).
  apply (Hk u s1 a s'); [|exact (counted_set b s s1 i t _ g f HC Ht Hg Hf Hb Et Ef El) | exact E2].
  exists i. rewrite Ecur, Et. split; [exact Hc | apply list_lookup_insert_eq, (lookup_lt_Some _ _ _ Ht)].
Qed.

Lemma free_fd_spec l : forall fd, 0 <= fd ->
  match free_fd l fd with
  | Some i => fd <= i /\ l !! Z.to_nat (i - fd) = Some 0
  | None => True
  end.
Proof.
  induction l as [|f l IH]; intros fd Hfd; cbn [free_fd]; [exact I|]. destruct (Z.eqb_spec f 0) as [-> | Hne].
  - rewrite Z.sub_diag. split; [lia | reflexivity].
  - specialize (IH (fd + 1) ltac:(lia)). destruct (free_fd l (fd + 1)) as [i|]; [|exact I]. destruct IH as [H1 H2]. split; [lia|].
    replace (Z.to_nat (i - fd)) with (S (Z.to_nat (i - (fd + 1)))) by lia. exact H2.
Qed.


Lemma tri_fdalloc {B} P b f (k : Z -> K B) b' :
  in_ftable f -> (forall x, b x <= 50) ->
  (forall fd t, 0 <= fd -> t !! Z.to_nat fd = Some f -> tri (curtab t) (fun x => b x - one f x) (k fd) b') ->
  tri P b (k (-1)) b' -> tri P b (fdalloc f ≫= k) b'.
Proof.
  intros Hf Hb Hk Hn. unfold fdalloc. apply tri_assoc, tri_curproc. intros p _. pose proof (free_fd_spec (ofile p) 0 ltac:(lia)) as Hs.
  destruct (free_fd (ofile p) 0) as [fd|].
  - destruct Hs as [H0 Hl]. rewrite Z.sub_0_r in Hl. apply tri_assoc.
    apply (tri_set_fd _ (ofile p) fd 0 f b); [intros T c [_ HT]; exact HT | exact Hl | unfold in_ftable in Hf; lia | exact Hb|].
    intros u. apply tri_ret_bind. apply (tri_pre _ _ (fun x => b x - one f x)).
    + intros x Hx. rewrite one_zero by exact Hx. lia.
    + intros x. pose proof (one_range f x). pose proof (Hb x). lia.
    + apply (Hk fd (<[Z.to_nat fd := f]> (ofile p)) H0). apply list_lookup_insert_eq. exact (lookup_lt_Some _ _ _ Hl).
  - apply tri_ret_bind. eapply tri_weaken; [|exact Hn]. intros T c [HT _]. exact HT.
Qed.

(** ** The file table *)

Lemma free_file_spec l : forall i, 0 <= i ->
  free_file l i = 0 \/ (i + 1 <= free_file l i <= i + Z.of_nat (length l)
    /\ exists x, l !! Z.to_nat (free_file l i - 1 - i) = Some x /\ fref x = 0).
Proof.
  induction l as [|x l IH]; intros i Hi; cbn [free_file length]; [left; reflexivity|]. destruct (Z.eqb_spec (fref x) 0) as [E | Hne].
  - right. split; [lia|]. exists x. replace (i + 1 - 1 - i) with 0 by lia. split; [reflexivity | exact E].
  - destruct (IH (i + 1) ltac:(lia)) as [-> | [Hr (y & Hy & E)]]; [left; reflexivity | right]. split; [lia|]. exists y.
    replace (Z.to_nat (free_file l (i + 1) - 1 - i)) with (S (Z.to_nat (free_file l (i + 1) - 1 - (i + 1)))) by lia. auto.
Qed.

(** A new reference count [n] for the file [f]. *)
Lemma counted_fref b s f x s' :
  counted b s -> in_ftable f -> ftable s !! Z.to_nat (f - 1) = Some x ->
  forall x', ftable s' = <[Z.to_nat (f - 1) := x']> (ftable s) -> ftlocked s' = false -> tabs s' = tabs s ->
  (forall y, b y + (fref x' - fref x) * one f y <= 100) ->
  counted (fun y => b y + (fref x' - fref x) * one f y) s'.
Proof.
  intros [H1 H2 H3 H4 H5 H6 H7] Hf Hx x' Ef El Et Hb. assert (fds s' = fds s) as Ed by (unfold fds; rewrite Et; reflexivity).
  unfold in_ftable in Hf. split; rewrite ?El, ?Ef, ?Et, ?Ed; auto.
  - rewrite length_insert. exact H2.
  - intros y z Hy Hz. destruct (Z.eq_dec f y) as [-> | Hne].
    + rewrite list_lookup_insert_eq in Hz by exact (lookup_lt_Some _ _ _ Hx). injection Hz as <-.
      unfold one. rewrite Z.eqb_refl. cbn [b2z]. pose proof (H7 y x Hy Hx). lia.
    + rewrite list_lookup_insert_ne in Hz by lia. unfold one. rewrite (proj2 (Z.eqb_neq _ _) Hne). cbn [b2z]. rewrite (H7 y z Hy Hz). lia.
Qed.

Lemma fmod_Ok s f g x :
  ftable s !! Z.to_nat (f - 1) = Some x -> fmod f g s = Ok tt (s <| ftable := <[Z.to_nat (f - 1) := g x]> (ftable s) |>).
Proof. intros Hx. unfold fmod, modify. rewrite (alter_insert _ _ _ _ Hx). reflexivity. Qed.

Lemma acquire_ft_Ok s : ftlocked s = false -> acquire_ft s = Ok tt (s <| ftlocked := true |>).
Proof. intros E. unfold acquire_ft. mstep. rewrite E. reflexivity. Qed.
Lemma release_ft_Ok s : ftlocked s = true -> release_ft s = Ok tt (s <| ftlocked := false |>).
Proof. intros E. unfold release_ft. mstep. rewrite E. reflexivity. Qed.
Lemma fat_inv s f x s' : fat f s = Ok x s' -> s' = s /\ 1 <= f /\ ftable s !! Z.to_nat (f - 1) = Some x.
Proof.
  intros E. unfold fat, aget in E. mstep in E. destruct (Z.ltb_spec (f - 1) 0); [discriminate|].
  destruct (ftable s !! Z.to_nat (f - 1)) eqn:Ex; [|discriminate]. injection E as <- <-. split_and!; [reflexivity | lia | reflexivity].
Qed.

Lemma length_concat_same {A} n (T : list (list A)) : Forall (fun t => length t = n) T -> length (concat T) = (n * length T)%nat.
Proof.
  induction T as [|t T IH]; intros Ht; [cbn; lia|]. apply Forall_cons in Ht as [E Ht]. cbn [concat length]. rewrite length_app, E, (IH Ht). lia.
Qed.

Lemma small_count b s f x : counted b s -> 1 <= f -> ftable s !! Z.to_nat (f - 1) = Some x -> fref x <= 9000.
Proof.
  intros HC Hf Hx. rewrite (c_ref _ _ HC f x Hf Hx). pose proof (c_small _ _ HC f). pose proof (occ_range f (fds s)) as Ho.
  unfold fds in *. rewrite (length_concat_same NOFILE _ (c_tab _ _ HC)), (c_np _ _ HC) in Ho. unfold NPROC, NOFILE in Ho. lia.
Qed.

Lemma tri_file_alloc {B} P b (k : Z -> K B) b' :
  (forall x, b x <= 50) -> (forall f, in_ftable f -> tri P (fun x => b x + one f x) (k f) b') -> tri P b (k 0) b' ->
  tri P b (file_alloc ≫= k) b'.
Proof.
  intros Hb Hk H0 s a s' HP HC E. apply bind_Ok in E as (f & s1 & E1 & E2). pose proof HC as [H1 H2 H3 H4 H5 H6 H7].
  unfold file_alloc in E1. rewrite (bind_step _ _ _ _ _ (acquire_ft_Ok s H1)) in E1. erewrite bind_step in E1 by reflexivity.
  change (ftable (s <| ftlocked := true |>)) with (ftable s) in E1. cbv zeta in E1.
  destruct (free_file_spec (ftable s) 0 ltac:(lia)) as [E0 | [Hr (x & Hx & Hx0)]].
  - rewrite E0 in E1. change (0 =? 0) with true in E1. cbv iota in E1.
    erewrite bind_step in E1 by (apply release_ft_Ok; reflexivity). injection E1 as <- <-.
    eapply H0; [| |exact E2]; [exact HP | split; auto].
  - set (g := free_file (ftable s) 0) in *. rewrite Z.sub_0_r in Hx. rewrite (proj2 (Z.eqb_neq g 0)) in E1 by lia.
    erewrite bind_step in E1 by (apply (fmod_Ok _ _ _ x); exact Hx).
    erewrite bind_step in E1 by (apply release_ft_Ok; reflexivity). injection E1 as <- <-. assert (in_ftable g) as Hg by (unfold in_ftable; lia).
    set (x1 := x <| fref := 1 |>) in *. match type of E2 with k g ?t = _ => set (s2 := t) in * end.
    apply (Hk g Hg s2 a s'); [exact HP | | exact E2].
    apply (counted_ext (fun y => b y + (fref x1 - fref x) * one g y)); [| |apply (counted_fref b s g x s2 HC Hg Hx x1 eq_refl eq_refl eq_refl)];
      intros y; change (fref x1) with 1; rewrite ?Hx0; pose proof (one_range g y); pose proof (Hb y); lia.
Qed.

Lemma tri_file_dup P b f : (forall x, b x <= 50) -> tri P b (file_dup f) (fun _ x => b x + one f x).
Proof.
  intros Hb s a s' HP HC E. pose proof HC as [H1 H2 H3 H4 H5 H6 H7]. unfold file_dup in E.
  rewrite (bind_step _ _ _ _ _ (acquire_ft_Ok s H1)) in E. apply bind_Ok in E as (x & s1 & Ex & E). apply fat_inv in Ex as (-> & Hf & Hx).
  change (ftable (s <| ftlocked := true |>)) with (ftable s) in Hx. pose proof (small_count b s f x HC Hf Hx) as Hs.
  destruct (Z.ltb_spec (fref x) 1); [discriminate|]. erewrite bind_step in E by (apply (fmod_Ok _ _ _ x); exact Hx).
  erewrite bind_step in E by (apply release_ft_Ok; reflexivity). injection E as <- <-.
  set (x1 := x <| fref := i32 (fref x + 1) |>). assert (fref x1 = fref x + 1) as Ex1 by (apply (swrap_id 32 eq_refl); unfold in_s; change (2 ^ (32 - 1)) with 2147483648; lia).
  assert (in_ftable f) as Hi by (unfold in_ftable; apply lookup_lt_Some in Hx; rewrite H2 in Hx; lia).
  match goal with |- counted _ ?t => set (s2 := t) end.
  apply (counted_ext (fun y => b y + (fref x1 - fref x) * one f y)); [| |apply (counted_fref b s f x s2 HC Hi Hx x1 eq_refl eq_refl eq_refl)];
    intros y; rewrite ?Ex1; pose proof (one_range f y); pose proof (Hb y); lia.
Qed.

Lemma quiet_kpipeclose kend PHYSTOP p w : quiet (kpipeclose (C := C) kend PHYSTOP p w).
Proof.
  unfold kpipeclose. apply quiet_bind; [apply quiet_pipe_at|]. intros x. destruct (pipeclose w x) as [[x' ch] done].
  apply quiet_bind; [apply quiet_pipe_put|]. intros _. apply quiet_bind; [apply quiet_wakeups|]. intros _. destruct done; [|apply quiet_ret].
  apply quiet_bind; [apply quiet_modify; intros s; split_and!; reflexivity | intros _; apply quiet_onmm].
Qed.

(** What file_close does after the last reference is gone. *)
Lemma quiet_close_rest kend PHYSTOP x :
  quiet (match ftype x with
         | FD_PIPE => kpipeclose kend PHYSTOP (fpipe x) (writable x)
         | FD_INODE => kbegin_op;; match fip x with Some ip => onfs (iput ip) | None => fault "iput" end;; kend_op
         | FD_NONE => mret tt
         end : K unit).
Proof.
  destruct (ftype x); [apply quiet_ret | apply quiet_kpipeclose|].
  apply quiet_bind; [apply quiet_onfs|]. intros _. apply quiet_bind; [|intros _; apply quiet_onfs].
  destruct (fip x); [apply quiet_onfs | apply quiet_fault].
Qed.

Lemma file_close_view kend PHYSTOP f b s a s' :
  (forall x, b x <= 50) -> counted b s -> file_close kend PHYSTOP f s = Ok a s' ->
  counted (fun x => b x - one f x) s' /\ tabs s' = tabs s /\ cur (kps s') = cur (kps s).
Proof.
  intros Hb HC E. pose proof HC as [H1 H2 H3 H4 H5 H6 H7]. unfold file_close in E.
  rewrite (bind_step _ _ _ _ _ (acquire_ft_Ok s H1)) in E. apply bind_Ok in E as (x & s1 & Ex & E). apply fat_inv in Ex as (-> & Hf & Hx).
  change (ftable (s <| ftlocked := true |>)) with (ftable s) in Hx. pose proof (small_count b s f x HC Hf Hx) as Hs.
  destruct (Z.ltb_spec (fref x) 1); [discriminate|]. erewrite bind_step in E by (apply (fmod_Ok _ _ _ x); exact Hx).
  set (x1 := x <| fref := i32 (fref x - 1) |>) in *. assert (fref x1 = fref x - 1) as Ex1 by (apply (swrap_id 32 eq_refl); unfold in_s; change (2 ^ (32 - 1)) with 2147483648; lia).
  assert (in_ftable f) as Hi by (unfold in_ftable; apply lookup_lt_Some in Hx; rewrite H2 in Hx; lia).
  pose proof (lookup_lt_Some _ _ _ Hx) as Hlt.
  apply bind_Ok in E as (y & s1 & Ey & E). apply fat_inv in Ey as (-> & _ & Hy).
  change (<[Z.to_nat (f - 1) := x1]> (ftable s) !! Z.to_nat (f - 1) = Some y) in Hy. rewrite list_lookup_insert_eq in Hy by exact Hlt. injection Hy as <-.
  assert (forall x2 s2, fref x2 = fref x - 1 -> ftable s2 = <[Z.to_nat (f - 1) := x2]> (ftable s) -> ftlocked s2 = false -> tabs s2 = tabs s ->
    counted (fun x => b x - one f x) s2) as Hdone.
  { intros x2 s2 E2 Ef El Et. apply (counted_ext (fun y => b y + (fref x2 - fref x) * one f y)); [| |apply (counted_fref b s f x s2 HC Hi Hx x2 Ef El Et)];
      intros y; rewrite ?E2; pose proof (one_range f y); pose proof (Hb y); lia. }
  destruct (Z.ltb_spec 0 (fref x1)).
  - rewrite release_ft_Ok in E by reflexivity. injection E as _ <-. split_and!; [|reflexivity | reflexivity]. apply (Hdone x1); auto.
  - erewrite bind_step in E by (apply (fmod_Ok _ _ _ x1); apply list_lookup_insert_eq, Hlt).
    assert (Z.to_nat (f - 1) < length (<[Z.to_nat (f - 1) := x1]> (ftable s)))%nat as Hlt2 by (rewrite length_insert; exact Hlt).
    erewrite bind_step in E by (eapply fmod_Ok; apply list_lookup_insert_eq; exact Hlt2).
    erewrite bind_step in E by (apply release_ft_Ok; reflexivity).
    match type of E with _ ?t = _ => set (s2 := t) in * end.
    pose proof (quiet_close_rest kend PHYSTOP x1 s2 a s' E) as Hq. split_and!; [|apply Hq | apply Hq].
    apply (counted_same _ s2 s' Hq). apply (Hdone (x1 <| fref := 0 |> <| ftype := FD_NONE |>)); try reflexivity; [cbn; lia|].
    change (ftable s2) with (<[Z.to_nat (f - 1) := x1 <| fref := 0 |> <| ftype := FD_NONE |>]>
      (<[Z.to_nat (f - 1) := x1 <| fref := 0 |>]> (<[Z.to_nat (f - 1) := x1]> (ftable s)))).
    rewrite !list_insert_insert_eq. reflexivity.
Qed.

Lemma tri_file_close {B} kend PHYSTOP P b f (k : unit -> K B) b' :
  (forall x, b x <= 50) -> (forall u, tri P (fun x => b x - one f x) (k u) b') -> tri P b (file_close kend PHYSTOP f ≫= k) b'.
Proof.
  intros Hb Hk s a s' HP HC E. apply bind_Ok in E as (u & s1 & E1 & E2).
  destruct (file_close_view kend PHYSTOP f b s u s1 Hb HC E1) as (HC1 & Et & Ec). apply (Hk u s1 a s'); [|exact HC1 | exact E2].
  rewrite Et, Ec. exact HP.
Qed.

(** ** Whole calls *)

(** A call that begins and ends with every reference accounted for. *)
Definition balanced (m : K Z) : Prop := tri any zero m (fun _ => zero).

Lemma zero_small f : zero f <= 100.
Proof. unfold zero. lia. Qed.
Lemma tri_zero_ret {A} P (a : A) : tri P zero (mret a) (fun _ => zero).
Proof. apply tri_ret; intros f; [reflexivity | apply zero_small]. Qed.
Lemma tri_zero_done {A} P (m : K A) : quiet m -> tri P zero m (fun _ => zero).
Proof. apply tri_done. Qed.

Lemma tri_arg_int P n (k : Z -> K Z) : (forall v, tri P zero (k v) (fun _ => zero)) -> tri P zero (argi n k) (fun _ => zero).
Proof. intros Hk. apply tri_quiet; [apply quiet_curproc|]. intros p. destruct (argint p n); [apply Hk | apply tri_zero_ret]. Qed.
Lemma tri_arg_ptr P n sz (k : Z -> K Z) : (forall v, tri P zero (k v) (fun _ => zero)) -> tri P zero (argp n sz k) (fun _ => zero).
Proof. intros Hk. apply tri_quiet; [apply quiet_curproc|]. intros p. destruct (argptr p n sz); [apply Hk | apply tri_zero_ret]. Qed.
Lemma tri_arg_str P n e (k : list Z -> K Z) : (forall v, tri P zero (k v) (fun _ => zero)) -> tri P zero (args n e k) (fun _ => zero).
Proof.
  intros Hk. apply tri_quiet; [apply quiet_curproc|]. intros p. apply tri_quiet; [apply quiet_get|]. intros s. cbv zeta.
  destruct (argstr p _ n); [apply Hk | apply tri_zero_ret].
Qed.

(** The file of a descriptor is in the table, under that descriptor. *)
Lemma tri_fd P n (k : Z -> Z -> K Z) :
  (forall t fd f, in_ftable f -> t !! Z.to_nat fd = Some f -> tri (also P (curtab t)) zero (k fd f) (fun _ => zero)) ->
  tri P zero (with_fd n k) (fun _ => zero).
Proof.
  intros Hk s a s' HP HC E. unfold with_fd, argfd in E. apply bind_Ok in E as (r & s1 & E1 & E2).
  apply bind_Ok in E1 as (p & s2 & Ep & E1). apply curproc_Ok in Ep as [-> Ht]. destruct Ht as (i & Hc & Ht).
  destruct (argint p n) as [fd|]; [|injection E1 as <- <-; injection E2 as <- <-; exact HC].
  destruct ((fd <? 0) || (Z.of_nat NOFILE <=? fd)); [injection E1 as <- <-; injection E2 as <- <-; exact HC|].
  apply bind_Ok in E1 as (f & s3 & Ef & E1). unfold aget in Ef. destruct (Z.ltb_spec fd 0); [discriminate|].
  destruct (ofile p !! Z.to_nat fd) as [g|] eqn:Eg; [|discriminate]. injection Ef as <- <-.
  destruct (Z.eqb_spec g 0) as [-> | Hg]; [injection E1 as <- <-; injection E2 as <- <-; exact HC|]. injection E1 as <- <-.
  apply (Hk (ofile p) fd g) with (s := s) (a := a); [|exact Eg | split; [exact HP | exists i; auto] | exact HC | exact E2].
  pose proof (c_fd _ _ HC) as Hfd. unfold fds in Hfd. apply concat_Forall in Hfd. rewrite Forall_lookup in Hfd.
  specialize (Hfd i (ofile p) Ht). rewrite Forall_lookup in Hfd. specialize (Hfd (Z.to_nat fd) g Eg). unfold in_ftable. lia.
Qed.
End fd_thm.

Lemma quiet_begin_op {C} `{BufCache C} : quiet (C := C) kbegin_op.
Proof. apply quiet_onfs. Qed.
Lemma quiet_end_op {C} `{BufCache C} : quiet (C := C) kend_op.
Proof. apply quiet_onfs. Qed.

Create HintDb quiet discriminated.
#[export] Hint Resolve quiet_ret quiet_get quiet_panic quiet_fault quiet_block quiet_aget quiet_aset quiet_onmm quiet_curproc
  quiet_onfs quiet_fat quiet_pipe_at quiet_pipe_put quiet_wakeups quiet_begin_op quiet_end_op : quiet.

(** Code that leaves the file table and the descriptors alone. *)
Ltac quiet_tac :=
  repeat first
  [ progress intros
  | solve [auto with quiet]
  | apply quiet_bind
  | apply quiet_fmod; intros; reflexivity
  | apply quiet_pset; intros; reflexivity
  | apply quiet_modify; intros; split_and!; reflexivity
  | match goal with
    | |- quiet (if ?b then _ else _) => destruct b
    | |- quiet (match ?x with _ => _ end) => destruct x
    | |- quiet (let _ := _ in _) => cbv zeta
    end ].
