(* ===== verification/FdRefs.v ===== *)
(** * Open files: every call keeps the reference counts *)
From Stdlib Require Import ZArith Lia.
From stdpp Require Import base numbers list gmap strings relations.
From S2P Require Import Prelude KString Locks Kalloc Vm Pipe Proc Syscall Block Bio BioThm Log Fs Signal File SysFd SysDir FdThm.
Local Open Scope Z_scope.

Section fd_refs.
Context {C : Type} `{BufCache C}.
Context (devsw : Z -> @devops C) (kend PHYSTOP : Z) (name0 de0 : list Z).
#[local] Abbreviation K := (M (ksys C)).

(** ** Calls that only use open files *)

Lemma quiet_file_read f n : quiet (file_read devsw f n).
Proof. unfold file_read, kpiperead. quiet_tac. Qed.

Lemma quiet_write_loop fuel : forall f src n i, quiet (write_loop devsw fuel f src n i).
Proof. induction fuel as [|fuel IH]; intros f src n i; cbn [write_loop]; quiet_tac; apply IH. Qed.

Lemma quiet_file_write f src n : quiet (file_write devsw f src n).
Proof. unfold file_write, kpipewrite. quiet_tac. apply quiet_write_loop. Qed.

Lemma quiet_knamei path : quiet (knamei devsw name0 path).
Proof. apply quiet_onfs. Qed.
Lemma quiet_knameiparent path : quiet (knameiparent devsw name0 path).
Proof. apply quiet_onfs. Qed.
Lemma quiet_fail_op r : quiet (C := C) (fail_op r).
Proof. unfold fail_op. quiet_tac. Qed.
#[local] Hint Resolve quiet_file_read quiet_file_write quiet_knamei quiet_knameiparent quiet_fail_op : quiet.

Lemma quiet_create path t mj mn : quiet (create devsw name0 de0 path t mj mn).
Proof. unfold create. quiet_tac. Qed.
Lemma quiet_open_tty ip : quiet (C := C) (open_tty ip).
Proof. unfold open_tty. quiet_tac. Qed.
Lemma quiet_link_to ip new : quiet (link_to devsw name0 de0 ip new).
Proof. unfold link_to. quiet_tac. Qed.
Lemma quiet_readv k : forall f vec i total, quiet (readv_loop devsw k f vec i total).
Proof. induction k as [|k IH]; intros f vec i total; cbn [readv_loop]; quiet_tac; apply IH. Qed.
Lemma quiet_writev k : forall f vec i total, quiet (writev_loop devsw k f vec i total).
Proof. induction k as [|k IH]; intros f vec i total; cbn [writev_loop]; quiet_tac; apply IH. Qed.
Lemma quiet_getdents fuel : forall f ip dp count n, quiet (getdents_loop devsw fuel f ip dp count n).
Proof. induction fuel as [|fuel IH]; intros f ip dp count n; cbn [getdents_loop]; quiet_tac; apply IH. Qed.
#[local] Hint Resolve quiet_create quiet_open_tty quiet_link_to quiet_readv quiet_writev quiet_getdents : quiet.

(** Arguments, then code that is quiet. *)
Ltac balanced_tac :=
  unfold balanced;
  repeat first
  [ progress intros | apply tri_fd | apply tri_arg_int | apply tri_arg_ptr | apply tri_arg_str ];
  try solve [apply tri_zero_done; quiet_tac].

Lemma balanced_read : balanced (sys_read devsw).
Proof. unfold sys_read. balanced_tac. Qed.
Lemma balanced_write : balanced (sys_write devsw).
Proof. unfold sys_write. balanced_tac. Qed.
Lemma balanced_lseek : balanced (C := C) sys_lseek.
Proof. unfold sys_lseek. balanced_tac. Qed.
Lemma balanced_llseek : balanced (C := C) sys__llseek.
Proof. unfold sys__llseek. balanced_tac. Qed.
Lemma balanced_fstat : balanced (C := C) sys_fstat.
Proof. unfold sys_fstat. balanced_tac. Qed.
Lemma balanced_readv : balanced (sys_readv devsw).
Proof. unfold sys_readv. balanced_tac. Qed.
Lemma balanced_writev : balanced (sys_writev devsw).
Proof. unfold sys_writev. balanced_tac. Qed.
Lemma balanced_getdents : balanced (sys_getdents devsw).
Proof. unfold sys_getdents. balanced_tac. Qed.
Lemma balanced_link : balanced (sys_link devsw name0 de0).
Proof. unfold sys_link. balanced_tac. Qed.
Lemma balanced_linkat : balanced (sys_linkat devsw name0 de0).
Proof. unfold sys_linkat. balanced_tac. Qed.
Lemma balanced_unlink : balanced (sys_unlink devsw name0).
Proof. unfold sys_unlink. balanced_tac. Qed.
Lemma balanced_rmdir : balanced (sys_rmdir devsw name0).
Proof. unfold sys_rmdir. balanced_tac. Qed.
Lemma balanced_mkdir : balanced (sys_mkdir devsw name0 de0).
Proof. unfold sys_mkdir. balanced_tac. Qed.
Lemma balanced_mknod : balanced (sys_mknod devsw name0 de0).
Proof. unfold sys_mknod. balanced_tac. Qed.
Lemma balanced_chdir : balanced (sys_chdir devsw name0).
Proof. unfold sys_chdir. balanced_tac. Qed.
Lemma balanced_chmod : balanced (sys_chmod devsw name0).
Proof. unfold sys_chmod, with_path. balanced_tac. Qed.
Lemma balanced_chown : balanced (sys_chown devsw name0).
Proof. unfold sys_chown, with_path. balanced_tac. Qed.
Lemma balanced_utime : balanced (sys_utime devsw name0).
Proof. unfold sys_utime, with_path. balanced_tac. Qed.
Lemma balanced_access : balanced (sys_access devsw name0).
Proof. unfold sys_access, with_path. balanced_tac. Qed.
Lemma balanced_fchmod : balanced (C := C) sys_fchmod.
Proof. unfold sys_fchmod, with_ip. balanced_tac. Qed.
Lemma balanced_fchown : balanced (C := C) sys_fchown.
Proof. unfold sys_fchown, with_ip. balanced_tac. Qed.

(** ** Calls that move references *)

(** Balances with a few references are small. *)
Ltac small := intros; unfold zero;
  repeat match goal with |- context [one ?g ?x] =>
    lazymatch goal with H : 0 <= one g x <= 1 |- _ => fail | _ => pose proof (one_range g x) end end; lia.
(** The last step: the balance is 0 again. *)
Ltac settle :=
  apply tri_ret; [intros ? ?; rewrite ?one_zero by assumption; unfold zero; lia | intros; apply zero_small].

Lemma balanced_close : balanced (sys_close kend PHYSTOP).
Proof.
  apply tri_fd. intros t fd f Hf Hfd.
  apply (tri_set_fd _ t fd f 0); [intros T c [_ HT]; exact HT | assumption | lia | small|]. intros u.
  apply tri_file_close; [small|]. intros u'. settle.
Qed.

Lemma balanced_dup : balanced (C := C) sys_dup.
Proof.
  apply tri_fd. intros t fd0 f Hf _.
  apply tri_fdalloc; [assumption | small | | apply tri_zero_ret]. intros fd t' Hfd _. rewrite (proj2 (Z.ltb_ge _ _) Hfd).
  eapply tri_bind; [apply tri_file_dup; small|]. intros x. settle.
Qed.

(** The end of dup2 and F_DUPFD: [f] is duplicated into a free entry of the table. *)
Lemma tri_dup_into P t fd f (m : K unit) (r : Z) :
  (forall T c, P T c -> curtab t T c) -> t !! Z.to_nat fd = Some 0 -> in_ftable f -> quiet m ->
  tri P zero (set_fd fd f;; file_dup f;; m;; mret r) (fun _ => zero).
Proof.
  intros HP Hfd Hf Hm. apply (tri_set_fd _ t fd 0 f); [exact HP | exact Hfd | unfold in_ftable in Hf; lia | small|]. intros u.
  eapply tri_bind; [apply tri_file_dup; small|]. intros x. apply tri_quiet; [exact Hm|]. intros u'. settle.
Qed.

Lemma in_table_file l i f : Forall (fun f => 0 <= f <= Z.of_nat NFILE) l -> l !! i = Some f -> f <> 0 -> in_ftable f.
Proof. intros Hl Hi Hf. rewrite Forall_lookup in Hl. specialize (Hl i f Hi). unfold in_ftable. lia. Qed.

Lemma balanced_dup2 : balanced (sys_dup2 kend PHYSTOP).
Proof.
  unfold sys_dup2. apply tri_arg_int. intros oldfd. apply tri_arg_int. intros newfd.
  destruct (_ || _ || _ || _); [apply tri_zero_ret|]. apply tri_curproc. intros p Hp. apply tri_aget. intros f _ Hf.
  destruct (Z.eqb_spec f 0); [apply tri_zero_ret|]. destruct (Z.eqb_spec oldfd newfd); [apply tri_zero_ret|].
  apply tri_aget. intros g Hn Hg. pose proof (in_table_file _ _ _ Hp Hf ltac:(assumption)) as Hif.
  assert (quiet (C := C) (pset (fun p => p <| close_on_exec := Z.ldiff (close_on_exec p) (sigbit newfd) |>))) as Hq by quiet_tac.
  destruct (Z.eqb_spec g 0) as [-> | Hg0].
  - apply tri_ret_bind. apply (tri_dup_into _ (ofile p)); auto. intros T c [_ HT]. exact HT.
  - apply tri_assoc, tri_file_close; [small|]. intros u.
    apply (tri_set_fd _ (ofile p) newfd g 0); [intros T c [_ HT]; exact HT | exact Hg | lia | small|]. intros u'.
    apply (tri_pre _ _ zero); [intros x Hx; rewrite one_zero by exact Hx; unfold zero; lia | small|].
    apply (tri_dup_into _ (<[Z.to_nat newfd := 0]> (ofile p))); auto. apply list_lookup_insert_eq. exact (lookup_lt_Some _ _ _ Hg).
Qed.

Lemma balanced_fcntl : balanced (C := C) sys_fcntl.
Proof.
  unfold sys_fcntl. apply tri_fd. intros t fd f Hf _. apply tri_arg_int. intros cmd. apply tri_arg_int. intros arg. cbv zeta.
  destruct ((cmd =? F_DUPFD) || (cmd =? F_DUPFD_CLOEXEC)); [|apply tri_zero_done; quiet_tac].
  unfold dupfd. apply tri_curproc. intros p Hp. destruct (Z.ltb_spec (i32 (u32 arg)) 0); [apply tri_zero_done; quiet_tac|].
  set (k := i32 (u32 arg)) in *. pose proof (free_fd_spec (drop (Z.to_nat k) (ofile p)) k ltac:(lia)) as Hs.
  destruct (free_fd _ k) as [i|]; [|apply tri_zero_ret]. destruct Hs as [Hi Hl]. rewrite lookup_drop in Hl.
  apply (tri_dup_into _ (ofile p)); [intros T c [_ HT]; exact HT | | exact Hf | quiet_tac].
  replace (Z.to_nat i) with (Z.to_nat k + Z.to_nat (i - k))%nat by lia. exact Hl.
Qed.

(** A reference given back. *)
Lemma tri_close_done P f (m : K Z) : quiet m ->
  tri P (fun x => zero x + one f x) (file_close kend PHYSTOP f;; m) (fun _ => zero).
Proof.
  intros Hm. apply tri_file_close; [small|]. intros u. apply (tri_pre _ _ zero); [small | small|]. apply tri_zero_done, Hm.
Qed.

(** Both files of a pipe, or none. *)
Lemma tri_pipealloc {B} P page (k : option (Z * Z) -> K B) b' :
  (forall f0 f1, in_ftable f0 -> in_ftable f1 -> tri P (fun x => zero x + one f0 x + one f1 x) (k (Some (f0, f1))) b') ->
  tri P zero (k None) b' -> tri P zero (pipealloc kend PHYSTOP page ≫= k) b'.
Proof.
  intros Hk Hn. unfold pipealloc. apply tri_assoc, tri_file_alloc; [small | |].
  - intros f0 H0. rewrite (proj2 (Z.eqb_neq f0 0)) by (unfold in_ftable in H0; lia). apply tri_assoc, tri_file_alloc; [small | |].
    + intros f1 H1. rewrite (proj2 (Z.eqb_neq f1 0)) by (unfold in_ftable in H1; lia). cbn [orb].
      apply tri_assoc, tri_quiet; [apply quiet_onmm|]. intros p. destruct (p =? 0).
      * apply tri_assoc, tri_file_close; [small|]. intros u. apply tri_assoc, tri_file_close; [small|]. intros u'. apply tri_ret_bind.
        apply (tri_pre _ _ zero); [small | small | exact Hn].
      * do 3 (apply tri_assoc, tri_quiet; [quiet_tac|]; intros ?u). apply tri_ret_bind. apply Hk; assumption.
    + cbn [orb]. change (0 =? 0) with true. apply tri_assoc, tri_ret_bind. cbv iota. apply tri_assoc, tri_file_close; [small|]. intros u.
      apply tri_assoc, tri_ret_bind, tri_ret_bind. apply (tri_pre _ _ zero); [small | small | exact Hn].
  - change (0 =? 0) with true. cbv iota. apply tri_assoc, tri_ret_bind, tri_assoc, tri_ret_bind. cbv iota.
    apply tri_assoc, tri_ret_bind, tri_assoc, tri_ret_bind, tri_ret_bind. exact Hn.
Qed.

Lemma balanced_pipe page : balanced (sys_pipe kend PHYSTOP page).
Proof.
  apply tri_arg_ptr. intros fd. apply tri_pipealloc; [|apply tri_zero_ret]. intros f0 f1 H0 H1.
  apply tri_fdalloc; [exact H0 | small | |].
  - intros fd0 t Hfd0 Ht. rewrite (proj2 (Z.ltb_ge _ _) Hfd0). apply tri_fdalloc; [exact H1 | small | |].
    + intros fd1 t' Hfd1 _. rewrite (proj2 (Z.ltb_ge _ _) Hfd1). cbn [orb]. apply (tri_pre _ _ zero); [small | small|]. apply tri_zero_done. quiet_tac.
    + change (-1 <? 0) with true. cbn [orb]. rewrite (proj2 (Z.leb_le _ _) Hfd0).
      apply (tri_set_fd _ t fd0 f0 0); [auto | exact Ht | lia | small|]. intros u.
      apply tri_file_close; [small|]. intros u'. apply tri_file_close; [small|]. intros u''. settle.
  - change (-1 <? 0) with true. apply tri_ret_bind. cbn [orb]. change (0 <=? -1) with false. apply tri_ret_bind.
    apply tri_file_close; [small|]. intros u. apply tri_file_close; [small|]. intros u'. settle.
Qed.

(** open and creat: the file gets its descriptor, or is given back. *)
Lemma tri_new_file P ip err finish :
  (forall f fd, quiet (finish f fd)) -> tri P zero (new_file kend PHYSTOP ip err finish) (fun _ => zero).
Proof.
  intros Hfin. unfold new_file. apply tri_file_alloc; [small | |].
  - intros f Hf. rewrite (proj2 (Z.eqb_neq f 0)) by (unfold in_ftable in Hf; lia). apply tri_fdalloc; [exact Hf | small | |].
    + intros fd t Hfd _. rewrite (proj2 (Z.ltb_ge _ _) Hfd). cbn [orb]. apply (tri_pre _ _ zero); [small | small|]. apply tri_zero_done, Hfin.
    + change (-1 <? 0) with true. cbn [orb]. apply tri_assoc, tri_quiet; [apply quiet_onfs|]. intros u.
      apply tri_file_close; [small|]. intros u'. apply (tri_pre _ _ zero); [small | small|]. apply tri_zero_done. quiet_tac.
  - change (0 =? 0) with true. apply tri_ret_bind. cbn [orb]. apply tri_zero_done. quiet_tac.
Qed.

Lemma balanced_open : balanced (sys_open devsw kend PHYSTOP name0 de0).
Proof.
  apply tri_arg_str. intros path. apply tri_arg_int. intros omode. apply tri_quiet; [apply quiet_curproc|]. intros me. cbv zeta.
  apply tri_quiet; [apply quiet_begin_op|]. intros u. apply tri_quiet; [quiet_tac|]. intros [ip|]; [|apply tri_zero_done; quiet_tac].
  apply tri_quiet; [quiet_tac|]. intros u'. apply tri_quiet; [quiet_tac|]. intros u''. apply tri_new_file. quiet_tac.
Qed.

Lemma balanced_creat : balanced (sys_creat devsw kend PHYSTOP name0 de0).
Proof.
  apply tri_arg_str. intros path. apply tri_arg_int. intros m. apply tri_quiet; [apply quiet_curproc|]. intros me.
  apply tri_quiet; [apply quiet_begin_op|]. intros u. apply tri_quiet; [quiet_tac|]. intros [ip|]; [|apply tri_zero_done; quiet_tac].
  apply tri_quiet; [quiet_tac|]. intros u'. apply tri_new_file. quiet_tac.
Qed.

(** ** Any sequence of calls *)

Inductive fd_call : Type :=
| CRead | CWrite | CClose | CDup | CDup2 | CFcntl | CLseek | CLlseek | CFstat | CPipe (page : list Z) | CReadv | CWritev
| COpen | CCreat | CLink | CLinkat | CUnlink | CRmdir | CMkdir | CMknod | CChdir | CChmod | CChown | CUtime | CAccess
| CFchmod | CFchown | CGetdents.

Definition run_fd (c : fd_call) : K Z :=
  match c with
  | CRead => sys_read devsw | CWrite => sys_write devsw | CClose => sys_close kend PHYSTOP
  | CDup => sys_dup | CDup2 => sys_dup2 kend PHYSTOP | CFcntl => sys_fcntl
  | CLseek => sys_lseek | CLlseek => sys__llseek | CFstat => sys_fstat | CPipe page => sys_pipe kend PHYSTOP page
  | CReadv => sys_readv devsw | CWritev => sys_writev devsw
  | COpen => sys_open devsw kend PHYSTOP name0 de0 | CCreat => sys_creat devsw kend PHYSTOP name0 de0
  | CLink => sys_link devsw name0 de0 | CLinkat => sys_linkat devsw name0 de0 | CUnlink => sys_unlink devsw name0
  | CRmdir => sys_rmdir devsw name0 | CMkdir => sys_mkdir devsw name0 de0 | CMknod => sys_mknod devsw name0 de0
  | CChdir => sys_chdir devsw name0 | CChmod => sys_chmod devsw name0 | CChown => sys_chown devsw name0
  | CUtime => sys_utime devsw name0 | CAccess => sys_access devsw name0
  | CFchmod => sys_fchmod | CFchown => sys_fchown | CGetdents => sys_getdents devsw
  end.

(** Process [i] runs, loads its registers and makes a call. *)
Definition resume (i : nat) (regs : trapframe) (s : ksys C) : ksys C :=
  s <| kps := kps s <| cur := Some i |> <| Proc.ptable := alter (fun p => p <| tf := regs |>) i (Proc.ptable (kps s)) |> |>.
Inductive fd_step : ksys C -> ksys C -> Prop :=
| fd_step_call c i regs s r s' : run_fd c (resume i regs s) = Ok r s' -> fd_step s s'.

Lemma balanced_run c : balanced (run_fd c).
Proof.
  destruct c; cbn [run_fd]; [apply balanced_read | apply balanced_write | apply balanced_close | apply balanced_dup | apply balanced_dup2
  | apply balanced_fcntl | apply balanced_lseek | apply balanced_llseek | apply balanced_fstat | apply balanced_pipe | apply balanced_readv
  | apply balanced_writev | apply balanced_open | apply balanced_creat | apply balanced_link | apply balanced_linkat | apply balanced_unlink
  | apply balanced_rmdir | apply balanced_mkdir | apply balanced_mknod | apply balanced_chdir | apply balanced_chmod | apply balanced_chown
  | apply balanced_utime | apply balanced_access | apply balanced_fchmod | apply balanced_fchown | apply balanced_getdents].
Qed.

Lemma counted_resume i regs s : counted zero s -> counted zero (resume i regs s).
Proof.
  intros HC. assert (tabs (resume i regs s) = tabs s) as Et by (apply (map_alter_same ofile); intros p; reflexivity).
  destruct HC as [H1 H2 H3 H4 H5 H6 H7]. split; unfold fds in *; rewrite ?Et; auto.
Qed.

(** The reference count of every open file is the number of descriptors that
    name it, in all processes, after any sequence of system calls on descriptors
    and paths that return, by any processes with any arguments; no descriptor
    ever names a file outside the table. *)
Theorem descriptor_refcounts s s' : rtc fd_step s s' -> counted zero s -> counted zero s'.
Proof.
  induction 1 as [|s s1 s' [c i regs s0 r s1' E] _ IH]; intros HC; [exact HC|]. apply IH.
  exact (balanced_run c _ r s1' I (counted_resume i regs s0 HC) E).
Qed.
End fd_refs.

(** ** dup *)

Lemma free_fd_first l : forall fd i, free_fd l fd = Some i -> forall j x, fd <= j < i -> l !! Z.to_nat (j - fd) = Some x -> x <> 0.
Proof.
  induction l as [|y l IH]; intros fd i E j x Hj Hx; [discriminate|]. cbn [free_fd] in E. destruct (Z.eqb_spec y 0) as [-> | Hy].
  - injection E as <-. lia.
  - destruct (Z.eq_dec j fd) as [-> | Hne]; [rewrite Z.sub_diag in Hx; injection Hx as <-; exact Hy|].
    apply (IH (fd + 1) i E j x); [lia|]. replace (Z.to_nat (j - fd)) with (S (Z.to_nat (j - (fd + 1)))) in Hx by lia. exact Hx.
Qed.

Lemma curproc_run {C} `{BufCache C} (s : ksys C) i p : cur (kps s) = Some i -> Proc.ptable (kps s) !! i = Some p -> curproc s = Ok p s.
Proof. intros Hc Hp. unfold curproc, onps. unfold myproc, pget. mstep. rewrite Hc, Hp. destruct s. reflexivity. Qed.

(** The file of a descriptor has a reference. *)
Lemma occ_concat (T : list (list Z)) i t fd f : T !! i = Some t -> t !! fd = Some f -> 1 <= occ f (concat T).
Proof.
  intros Hi Hf. unfold occ. enough (count_occ Z.eq_dec (concat T) f > 0)%nat by lia. apply count_occ_In. apply in_concat.
  exists t. split; [apply list_elem_of_In, (list_elem_of_lookup_2 _ _ _ Hi) | apply list_elem_of_In, (list_elem_of_lookup_2 _ _ _ Hf)].
Qed.
Lemma fd_counted {C} `{BufCache C} (s : ksys C) i t fd f x :
  counted zero s -> tabs s !! i = Some t -> t !! fd = Some f -> 1 <= f -> ftable s !! Z.to_nat (f - 1) = Some x -> 1 <= fref x.
Proof. intros HC Hi Hf H1 Hx. rewrite (c_ref _ _ HC f x H1 Hx). pose proof (occ_concat _ _ _ _ _ Hi Hf). unfold zero, fds. lia. Qed.

Lemma fat_Ok {C} `{BufCache C} (s : ksys C) f x : 1 <= f -> ftable s !! Z.to_nat (f - 1) = Some x -> fat f s = Ok x s.
Proof. intros Hf Hx. unfold fat. erewrite bind_step by reflexivity. apply aget_Ok; [lia | exact Hx]. Qed.

(** file_dup of a file with a reference. *)
Lemma file_dup_run {C} `{BufCache C} (s : ksys C) f x :
  ftlocked s = false -> 1 <= f -> ftable s !! Z.to_nat (f - 1) = Some x -> 1 <= fref x < 2 ^ 31 - 1 ->
  exists s', file_dup f s = Ok f s' /\ ftable s' = <[Z.to_nat (f - 1) := x <| fref := fref x + 1 |>]> (ftable s) /\ tabs s' = tabs s.
Proof.
  intros Hl Hf Hx Hr. unfold file_dup. rewrite (bind_step _ _ _ _ _ (acquire_ft_Ok s Hl)).
  erewrite bind_step by (apply fat_Ok; [exact Hf | exact Hx]).
  rewrite (proj2 (Z.ltb_ge _ _)) by lia. erewrite bind_step by (apply (fmod_Ok _ _ _ x); exact Hx).
  erewrite bind_step by (apply release_ft_Ok; reflexivity). eexists. split; [reflexivity|]. split; [|reflexivity].
  rewrite (swrap_id 32 eq_refl (fref x + 1)) by (unfold in_s; change (2 ^ (32 - 1)) with (2 ^ 31); lia). reflexivity.
Qed.

(** dup of an open descriptor returns the lowest free one and makes it name the
    same file, whose count grows by one; with no descriptor free it is -ENOENT,
    and of a closed or bad descriptor -EINVAL, with nothing changed. *)
Theorem sys_dup_correct {C} `{BufCache C} (s : ksys C) i p :
  counted zero s -> cur (kps s) = Some i -> Proc.ptable (kps s) !! i = Some p ->
  let fd := i32 (ebx (tf p)) in
  match (if (fd <? 0) || (Z.of_nat NOFILE <=? fd) then None else ofile p !! Z.to_nat fd) with
  | Some f =>
      if f =? 0 then sys_dup s = Ok (- EINVAL) s
      else match free_fd (ofile p) 0 with
           | None => sys_dup s = Ok (- ENOENT) s
           | Some n =>
               exists s' x, sys_dup s = Ok n s' /\ counted zero s' /\ tabs s' = <[i := <[Z.to_nat n := f]> (ofile p)]> (tabs s)
                 /\ ftable s !! Z.to_nat (f - 1) = Some x
                 /\ ftable s' = <[Z.to_nat (f - 1) := x <| fref := fref x + 1 |>]> (ftable s)
                 /\ (forall j g, 0 <= j < n -> ofile p !! Z.to_nat j = Some g -> g <> 0)
           end
  | None => sys_dup s = Ok (- EINVAL) s
  end.
Proof.
  intros HC Hc Hp fd. pose proof (curproc_run s i p Hc Hp) as Er. pose proof HC as [H1 H2 H3 H4 H5 H6 H7].
  assert (tabs s !! i = Some (ofile p)) as Ht by (unfold tabs; rewrite list_lookup_fmap, Hp; reflexivity).
  assert (length (ofile p) = NOFILE) as Hlen by (rewrite Forall_lookup in H4; exact (H4 i _ Ht)).
  remember (sys_dup s) as o eqn:Eo. pose proof Eo as Er2. unfold sys_dup, with_fd, argfd in Er2.
  rewrite bind_assoc, (bind_step _ _ _ _ _ Er) in Er2. cbn [argint] in Er2. fold fd in Er2.
  destruct ((fd <? 0) || (Z.of_nat NOFILE <=? fd)) eqn:Eb; [exact Er2|]. apply orb_false_iff in Eb as [E1 E2]. apply Z.ltb_ge in E1. apply Z.leb_gt in E2.
  destruct (lookup_lt_is_Some_2 (ofile p) (Z.to_nat fd)) as [f Hf]; [lia|]. rewrite Hf. rewrite bind_assoc, (bind_step _ _ _ _ _ (aget_Ok _ _ fd f s E1 Hf)) in Er2.
  destruct (f =? 0) eqn:Ez; [exact Er2|]. apply Z.eqb_neq in Ez as Hf0. rewrite bind_ret_l in Er2. unfold fdalloc in Er2. rewrite bind_assoc, (bind_step _ _ _ _ _ Er) in Er2.
  pose proof (free_fd_spec (ofile p) 0 ltac:(lia)) as Hs. destruct (free_fd (ofile p) 0) as [n|] eqn:En; [|exact Er2]. destruct Hs as [Hn Hz].
  assert (in_ftable f) as Hif by exact (in_table_file _ _ _ (curtab_files _ _ _ HC (ex_intro _ i (conj Hc Ht))) Hf Hf0). pose proof Hif as [Hf1 Hf2].
  destruct (lookup_lt_is_Some_2 (ftable s) (Z.to_nat (f - 1))) as [x Hx]; [lia|].
  pose proof (fd_counted s i (ofile p) (Z.to_nat fd) f x HC Ht Hf Hf1 Hx) as Hpos. pose proof (small_count _ s f x HC Hf1 Hx) as Hsm.
  destruct (set_fd n f s) as [u s1| | |] eqn:Es; try (unfold set_fd, pset, onps in Es; unfold myproc, pmod in Es; mstep in Es; rewrite Hc in Es; discriminate).
  destruct (set_fd_Ok s i (ofile p) n f u s1 Hc Ht Es) as (Et & Ef & El & _). rewrite bind_assoc, (bind_step _ _ _ _ _ Es), bind_ret_l in Er2.
  rewrite (proj2 (Z.ltb_ge n 0)) in Er2 by exact Hn.
  destruct (file_dup_run s1 f x) as (s2 & E2' & Ef2 & Et2); [congruence | exact Hf1 | congruence | change (2 ^ 31 - 1) with 2147483647; lia|].
  rewrite (bind_step _ _ _ _ _ E2') in Er2. exists s2, x. split_and!; [exact Er2 | | congruence | exact Hx | congruence|].
  - apply (balanced_dup s n s2 I HC). rewrite <-Eo. exact Er2.
  - intros j g Hj Hg. apply (free_fd_first _ 0 n En j g); [lia | rewrite Z.sub_0_r; exact Hg].
Qed.

(** ** A concrete state

    Process 0 has file 1 open as descriptor 0 and asks for a duplicate. *)
Definition fd_proc (i : nat) : proc :=
  Proc 4096 0 0 (if decide (i = 0)%nat then RUNNING else UNUSED) (Z.of_nat i) None zero_tf 0 0
    (if decide (i = 0)%nat then 1 :: replicate 127 0 else replicate 128 0) 1 EmptyString 0 0 0 0 0 0 0 0 0 [] [] 0 0 0 0 0 0 0 0 0 0 [].
Definition fd_sys : ksys bstate :=
  Ksys (Fsys (Log (bfresh (fun _ => [])) false 2 30 0 false 1 0 []) false [] (Superblock 0 0 0 0 0 0 0) 0 0 0)
    (PState (map fd_proc (seq 0 64)) 1 None (Some 0%nat) false 0 []) (KState (fun _ => 0) false 0 (boot_state true)) ∅
    (File FD_INODE 1 true true 0 (Some 0%nat) 0 0 :: replicate 99 null_file) false (replicate 64 0).

(** A boolean test of [counted zero]. *)
Definition counted_test (s : ksys bstate) : bool :=
  forallb (fun k => match ftable s !! k with Some x => fref x =? occ (Z.of_nat k + 1) (fds s) | None => true end) (seq 0 100).

Lemma fd_sys_counted : counted zero fd_sys.
Proof.
  split; try reflexivity.
  - apply Forall_forall. intros t Ht. change (tabs fd_sys) with (map ofile (map fd_proc (seq 0 64))) in Ht. rewrite map_map in Ht.
    apply list_elem_of_In, in_map_iff in Ht as (i & <- & _). cbn. destruct (decide (i = 0%nat)); reflexivity.
  - apply Forall_forall. intros f Hf. enough (forallb (fun f => (0 <=? f) && (f <=? 100)) (fds fd_sys) = true) as Ht.
    + rewrite forallb_forall in Ht. specialize (Ht f (proj1 (list_elem_of_In _ _) Hf)). apply andb_true_iff in Ht as [H1 H2].
      apply Z.leb_le in H1, H2. unfold NFILE. lia.
    + vm_compute. reflexivity.
  - intros f. apply zero_small.
  - intros f x Hf Hx. assert (counted_test fd_sys = true) as Ht by (vm_compute; reflexivity). unfold counted_test in Ht. rewrite forallb_forall in Ht.
    pose proof (lookup_lt_Some _ _ _ Hx) as Hlt. change (length (ftable fd_sys)) with 100%nat in Hlt.
    assert (In (Z.to_nat (f - 1)) (seq 0 100)) as Hin by (apply in_seq; lia). specialize (Ht _ Hin). rewrite Hx in Ht. apply Z.eqb_eq in Ht. rewrite Ht.
    unfold zero. rewrite Z2Nat.id by lia. replace (f - 1 + 1) with f by lia. lia.
Qed.

Lemma sys_dup_correct_witness :
  exists s', sys_dup fd_sys = Ok 1 s' /\ counted zero s' /\ tabs s' = <[0%nat := 1 :: 1 :: replicate 126 0]> (tabs fd_sys).
Proof.
  pose proof (sys_dup_correct fd_sys 0 (fd_proc 0) fd_sys_counted eq_refl eq_refl) as Hd. cbv zeta in Hd.
  change (i32 (ebx (tf (fd_proc 0)))) with 0 in Hd. cbn [Z.ltb Z.compare orb] in Hd.
  change (ofile (fd_proc 0)) with (1 :: replicate 127 0) in Hd. cbn in Hd. destruct Hd as (s' & x & E & HC & Et & _).
  exists s'. split_and!; [exact E | exact HC | exact Et].
Defined.

Lemma descriptor_refcounts_witness :
  exists s', rtc (fd_step (fun _ => Devops None None) 0 0 [] []) fd_sys s' /\ counted zero s'.
Proof.
  destruct (sys_dup (resume 0 zero_tf fd_sys)) as [r s'| | |] eqn:E; [|vm_compute in E; discriminate ..].
  exists s'. assert (rtc (fd_step (fun _ => Devops None None) 0 0 [] []) fd_sys s') as Hr.
  { apply rtc_once. exact (fd_step_call _ _ _ _ _ CDup 0 zero_tf fd_sys r s' E). }
  split; [exact Hr|]. exact (descriptor_refcounts _ _ _ _ _ _ _ Hr fd_sys_counted).
Defined.
