(* ===== verification/Tty.v ===== *)
(** * Terminals (src/drivers/char/tty.c, struct tty of src/include/tty.h)

    The virtual terminals over the state of File.v: the line discipline that the
    keyboard feeds and ttyread empties, the screen with its escape sequences, and
    the switch between terminals.  The process group of terminal [t] is
    [kttys (tk s) !! t], where sys_open keeps it; input_buf with its three
    indices is the record [ring], the type of [input] in console.c too.  A port
    write is recorded in [ports], newest first; what a port read gives is the
    function [inb] of the port and the writes before it.  The address of
    [ttys[t].input_r], the channel readers sleep on, is [input_chan t]. *)
From Stdlib Require Import ZArith Lia.
From stdpp Require Import base numbers list gmap strings.
From S2P Require Import Prelude KString Locks Kalloc Vm Pipe Proc Syscall Block Log Fs Signal File SysFd SysDir.
Local Open Scope Z_scope.

Definition INPUT_BUF : Z := 128.
Definition BACKSPACE : Z := 256.
Definition CRTPORT : Z := 980.
Definition NTTYS : Z := 64.
Definition SCREEN : Z := 2000.
Definition ENOTTY : Z := 25.

(** ** struct termios *)

Definition OPOST : Z := 1.
Definition ONLCR : Z := 4.
Definition OCRNL : Z := 8.
Definition ONOCR : Z := 16.
Definition ISIG : Z := 1.
Definition ICANON : Z := 2.
Definition ECHO : Z := 8.

Record termios := Termios {
  c_iflag : Z; c_oflag : Z; c_cflag : Z; c_lflag : Z; c_line : Z; c_cc : list Z; c_ispeed : Z; c_ospeed : Z
}.
#[export] Instance termios_fields : Fields termios := fun t =>
  Termios (c_iflag t) (c_oflag t) (c_cflag t) (c_lflag t) (c_line t) (c_cc t) (c_ispeed t) (c_ospeed t).

(** ICRNL | IXON; OPOST | ONLCR; CS8 | CREAD | CLOCAL;
    ECHO | ECHOE | ECHOK | ICANON | ISIG | IEXTEN; B38400 *)
Definition default_termios : termios :=
  Termios (Z.lor 256 1024) (Z.lor OPOST ONLCR) (Z.lor 48 (Z.lor 128 2048))
    (Z.lor ECHO (Z.lor 16 (Z.lor 32 (Z.lor ICANON (Z.lor ISIG 32768))))) 0
    ([3; 28; 127; 21; 4; 0; 1; 0; 17; 19; 26; 0; 18; 15; 23; 22; 0] ++ replicate 15 0) 15 15.

(** ** The input ring *)

(** Free-running 32-bit indices: [in_r] read, [in_w] written, [in_e] edited. *)
Record ring := Ring { rbuf : list Z; in_r : Z; in_w : Z; in_e : Z }.
#[export] Instance ring_fields : Fields ring := fun r => Ring (rbuf r) (in_r r) (in_w r) (in_e r).

Definition ring_byte (r : ring) (k : Z) : Z := default 0 (rbuf r !! Z.to_nat (k mod INPUT_BUF)).
(** [input_buf[input_e++ % INPUT_BUF] = c] *)
Definition ring_put (c : Z) (r : ring) : ring :=
  r <| rbuf := <[Z.to_nat (in_e r mod INPUT_BUF) := i8 c]> (rbuf r) |> <| in_e := u32 (in_e r + 1) |>.
Definition ring_unput (r : ring) : ring := r <| in_e := u32 (in_e r - 1) |>.
Definition ring_commit (r : ring) : ring := r <| in_w := in_e r |>.
(** [input_e - input_r] *)
Definition ring_used (r : ring) : Z := u32 (in_e r - in_r r).
(** [input_e == input_r + INPUT_BUF] *)
Definition ring_full (r : ring) : bool := in_e r =? u32 (in_r r + INPUT_BUF).
Definition ring_discard (r : ring) : ring := r <| in_w := in_r r |> <| in_e := in_r r |>.

(** ** struct tty *)

Inductive ansi_states : Type := ANSI_NORMAL | ANSI_ESCAPE | ANSI_BRACKET | ANSI_PARAM.

Record tty := Tty {
  num : Z;
  attached_console : Z;
  tios : termios;
  tlocked : bool;
  screen : list Z;
  tpos : Z;
  ansi_state : ansi_states;
  ansi_params : list Z;
  ansi_param_count : Z;
  ansi_private : Z;
  ansi_sgr : Z;
  input : ring
}.
#[export] Instance tty_fields : Fields tty := fun t =>
  Tty (num t) (attached_console t) (tios t) (tlocked t) (screen t) (tpos t) (ansi_state t) (ansi_params t)
    (ansi_param_count t) (ansi_private t) (ansi_sgr t) (input t).

(** The terminal subsystem: the terminals, the video memory (32 KiB, 16384
    cells), console.c's cursor [pos], its input and lock, the serial port, and
    the keyboard: the modifier keys and what the controller will be found to hold
    (both status readings and the byte). *)
Record tsys (C : Type) := Tsys {
  tk : ksys C;
  ttab : list tty;
  active_tty : Z;
  crt : list Z;
  cpos : Z;
  ports : list (Z * Z);
  cinput : ring;
  conslocked : bool;
  locking : bool;
  uart : bool;
  uart_debug : bool;
  panicked : bool;
  shift : Z;
  kqueue : list (Z * Z * Z)
}.
Arguments Tsys {C}. Arguments tk {C}. Arguments ttab {C}. Arguments active_tty {C}. Arguments crt {C}. Arguments cpos {C}.
Arguments ports {C}. Arguments cinput {C}. Arguments conslocked {C}. Arguments locking {C}.
Arguments uart {C}. Arguments uart_debug {C}. Arguments panicked {C}. Arguments shift {C}. Arguments kqueue {C}.
#[export] Instance tsys_fields C : Fields (tsys C) := fun s =>
  Tsys (tk s) (ttab s) (active_tty s) (crt s) (cpos s) (ports s) (cinput s) (conslocked s) (locking s) (uart s) (uart_debug s)
    (panicked s) (shift s) (kqueue s).

Section tty.
Context {C : Type} `{BufCache C}.
Context (inb : Z -> list (Z * Z) -> Z) (input_chan : Z -> Z).
#[local] Abbreviation T := (M (tsys C)).

(** ** Access *)

Definition onsys {A} (m : M (ksys C) A) : T A := fun s =>
  match m (tk s) with
  | Ok a k => Ok a (s <| tk := k |>)
  | Panic w => Panic w
  | Fault w => Fault w
  | Block ch k => Block ch (s <| tk := k |>)
  end.
Definition tget (t : Z) : T tty := s ← get; aget "ttys" (ttab s) t.
Definition tmod (t : Z) (f : tty -> tty) : T unit :=
  x ← tget t; modify (fun s => s <| ttab := <[Z.to_nat t := f x]> (ttab s) |>).
Definition rmod (t : Z) (f : ring -> ring) : T unit := tmod t (fun x => x <| input := f (input x) |>).
Definition outb (port v : Z) : T unit := modify (fun s => s <| ports := (port, u8 v) :: ports s |>).
Definition wake (ch : Z) : T unit := onsys (onps (wakeup ch)).

(** [tty->screen[i] = v], [crt[i] = v] *)
Definition set_cell (t i v : Z) : T unit :=
  x ← tget t; l ← aset "screen" (screen x) i (u16 v); tmod t (fun x => x <| screen := l |>).
Definition set_crt (i v : Z) : T unit :=
  s ← get; l ← aset "crt" (crt s) i (u16 v); modify (fun s => s <| crt := l |>).
(** [if (tty->attached_console && tty->num == active_tty)] *)
Definition displayed (t : Z) (m : T unit) : T unit :=
  x ← tget t; s ← get; when (nz (attached_console x) && (num x =? active_tty s)) m.
Definition show_cursor (t : Z) : T unit :=
  x ← tget t;
  outb CRTPORT 14;; outb (CRTPORT + 1) (Z.shiftr (tpos x) 8);; outb CRTPORT 15;; outb (CRTPORT + 1) (tpos x).

(** ** Escape sequences *)

Definition set_cursor (t x y : Z) : T unit :=
  let x := if x <? 0 then 0 else x in
  let x := if 79 <? x then 79 else x in
  let y := if y <? 0 then 0 else y in
  let y := if 24 <? y then 24 else y in
  tmod t (fun r => r <| tpos := y * 80 + x |>).

(** The cells from [i], [k] of them, blank. *)
Fixpoint clear_cells (k : nat) (t i : Z) : T unit :=
  match k with
  | O => mret tt
  | S k' =>
      x ← tget t;
      set_cell t i (Z.lor 32 (ansi_sgr x));;
      displayed t (set_crt i (Z.lor 32 (ansi_sgr x)));;
      clear_cells k' t (i + 1)
  end.

Definition handle_ansi_clear (t param : Z) : T unit :=
  x ← tget t;
  if param =? 0 then clear_cells (Z.to_nat (SCREEN - tpos x)) t (tpos x)
  else if param =? 1 then clear_cells (Z.to_nat (tpos x + 1)) t 0
  else if param =? 2 then set_cursor t 0 0;; clear_cells (Z.to_nat SCREEN) t 0
  else mret tt.

(** The colour cases of handle_ansi_sgr: [(ansi_sgr & mask) | colour]. *)
Definition sgr_colours : list (Z * (Z * Z)) :=
  [(30, (0xF8FF, 0x0000)); (31, (0xF8FF, 0x0400)); (32, (0xF8FF, 0x0200)); (33, (0xF8FF, 0x0600));
   (34, (0xF8FF, 0x0100)); (35, (0xF8FF, 0x0500)); (36, (0xF8FF, 0x0300)); (37, (0xF8FF, 0x0700));
   (40, (0x0FFF, 0x0000)); (41, (0x0FFF, 0x4000)); (42, (0x0FFF, 0x2000)); (43, (0x0FFF, 0x6000));
   (44, (0x0FFF, 0x1000)); (45, (0x0FFF, 0x5000)); (46, (0x0FFF, 0x3000)); (47, (0x0FFF, 0x7000));
   (90, (0xF8FF, 0x0800)); (91, (0xF8FF, 0x0C00)); (92, (0xF8FF, 0x0A00)); (93, (0xF8FF, 0x0E00));
   (94, (0xF8FF, 0x0900)); (95, (0xF8FF, 0x0D00)); (96, (0xF8FF, 0x0B00)); (97, (0xF8FF, 0x0F00));
   (100, (0x0FFF, 0x8000)); (101, (0x0FFF, 0xC000)); (102, (0x0FFF, 0xA000)); (103, (0x0FFF, 0xE000));
   (104, (0x0FFF, 0x9000)); (105, (0x0FFF, 0xD000)); (106, (0x0FFF, 0xB000)); (107, (0x0FFF, 0xF000))].
Definition sgr (param old : Z) : Z :=
  if param =? 0 then 0x0700
  else if param =? 1 then Z.lor old 0x0800
  else match List.find (fun e => e.1 =? param) sgr_colours with
       | Some (_, (mask, colour)) => Z.lor (Z.land old mask) colour
       | None => old
       end.
Definition handle_ansi_sgr (t param : Z) : T unit := tmod t (fun x => x <| ansi_sgr := sgr param (ansi_sgr x) |>).
Definition handle_ansi_sgr_sequence (t : Z) (params : list Z) : T unit :=
  foldr (fun p m => handle_ansi_sgr t p;; m) (mret tt) params.

Definition tty_sgr (t c : Z) : T unit := tmod t (fun x => x <| ansi_sgr := Z.lor (Z.ldiff (ansi_sgr x) 0x0F00) c |>).

(** ** Output *)

(** [crt[i] = tty->screen[i]] for the whole screen *)
Definition show_screen (x : tty) : T unit := modify (fun s => s <| crt := screen x ++ drop (Z.to_nat SCREEN) (crt s) |>).

(** [tty->screen[tty->pos++] = v] *)
Definition put_next (t v : Z) : T unit :=
  x ← tget t; set_cell t (tpos x) v;; tmod t (fun x => x <| tpos := i32 (tpos x + 1) |>).

(** The lines move up by one; from the cursor on the screen is zero.  The C code
    clears [25*80 - pos] cells, a huge number when the cursor is past the end. *)
Definition scroll_cells (l : list Z) (p : Z) : list Z :=
  let l := take 1920 (drop 80 l) ++ drop 1920 l in
  take (Z.to_nat p) l ++ replicate (Z.to_nat (SCREEN - p)) 0 ++ drop (Z.to_nat SCREEN) l.
Definition scroll (t : Z) : T unit :=
  tmod t (fun x => x <| tpos := i32 (tpos x - 80) |>);;
  x ← tget t;
  (if (tpos x <? 0) || (SCREEN <? tpos x) then fault "screen" else mret tt);;
  tmod t (fun x => x <| screen := scroll_cells (screen x) (tpos x) |>);;
  displayed t (x ← tget t; show_screen x).

(** The tab tests the console's cursor [pos], not the terminal's. *)
Fixpoint put_spaces (k : nat) (t : Z) : T unit :=
  match k with
  | O => mret tt
  | S k' =>
      x ← tget t;
      put_next t (Z.lor 32 (ansi_sgr x));;
      s ← get;
      when (25 <=? Z.quot (cpos s) 80) (scroll t);;
      put_spaces k' t
  end.

Definition dumb_putc (t c : Z) : T unit :=
  x ← tget t; set_crt (tpos x - 1) (Z.lor (Z.land c 255) (ansi_sgr x)).

(** The switch of tty_putc on the character. *)
Definition tty_char (t c : Z) : T unit :=
  x ← tget t;
  let sgr := ansi_sgr x in
  if c =? 10 then tmod t (fun x => x <| tpos := i32 (tpos x + (80 - Z.rem (tpos x) 80)) |>)
  else if c =? 13 then tmod t (fun x => x <| tpos := i32 (tpos x - Z.rem (tpos x) 80) |>)
  else if c =? BACKSPACE then
    tmod t (fun x => x <| tpos := i32 (tpos x - 1) |>);;
    x ← tget t;
    set_cell t (tpos x) (Z.lor 32 0x0700);;
    displayed t (set_crt (tpos x) (Z.lor 32 0x0700))
  else if (c =? 8) || (c =? 127) then
    when (nz (Z.rem (tpos x) 80)) (tmod t (fun x => x <| tpos := i32 (tpos x - 1) |>))
  else if c =? 9 then put_spaces (Z.to_nat (8 - Z.rem (tpos x) 8)) t
  else if c =? 7 then mret tt
  else if c =? 0 then mret tt
  else if Z.land c 255 <? 32 then
    put_next t (Z.lor 94 sgr);;
    put_next t (Z.lor (Z.land c 255 + 64) sgr);;
    displayed t (x ← tget t;
      set_crt (tpos x - 2) (Z.lor 94 sgr);;
      set_crt (tpos x - 1) (Z.lor (Z.land c 255 + 64) sgr))
  else
    put_next t (Z.lor (Z.land c 255) sgr);;
    displayed t (dumb_putc t c).

Definition tty_putc (t c : Z) : T unit :=
  tty_char t c;;
  x ← tget t;
  when (25 <=? Z.quot (tpos x) 80) (scroll t);;
  displayed t (x ← tget t;
    v ← aget "screen" (screen x) (tpos x);
    set_crt (tpos x) (Z.lor (Z.land v 255) (ansi_sgr x)));;
  displayed t (show_cursor t).

(** ANSI_BRACKET: the character after [ESC \[]. *)
Definition ansi_bracket (t c : Z) : T unit :=
  tmod t (fun x => x <| ansi_param_count := 0 |> <| ansi_params := replicate 8 0 |>);;
  if (48 <=? c) && (c <=? 57) then
    tmod t (fun x => x <| ansi_params := <[0%nat := c - 48]> (ansi_params x) |> <| ansi_param_count := 1 |> <| ansi_state := ANSI_PARAM |>)
  else if c =? 109 then handle_ansi_sgr t 0;; tmod t (fun x => x <| ansi_state := ANSI_NORMAL |>)
  else if c =? 72 then set_cursor t 0 0;; tmod t (fun x => x <| ansi_state := ANSI_NORMAL |>)
  else if c =? 74 then handle_ansi_clear t 0;; tmod t (fun x => x <| ansi_state := ANSI_NORMAL |>)
  else if c =? 63 then
    tmod t (fun x => x <| ansi_private := 1 |> <| ansi_param_count := 1 |> <| ansi_params := <[0%nat := 0]> (ansi_params x) |>
                       <| ansi_state := ANSI_PARAM |>)
  else tmod t (fun x => x <| ansi_state := ANSI_NORMAL |>).

(** [(ansi_param_count > i ? ansi_params[i] : d)] *)
Definition ansi_param (x : tty) (i d : Z) : T Z :=
  if i <? ansi_param_count x then aget "ansi_params" (ansi_params x) i else mret d.

(** Show or hide the cursor. *)
Definition cursor_shape (c : Z) : T unit :=
  if c =? 104 then
    outb 0x3D4 0x0A;;
    s ← get; outb 0x3D5 (Z.lor (Z.land (inb 0x3D5 (ports s)) 0xC0) 0);;
    outb 0x3D4 0x0B;;
    s ← get; outb 0x3D5 (Z.lor (Z.land (inb 0x3D5 (ports s)) 0xE0) 0x0E)
  else outb 0x3D4 0x0A;; outb 0x3D5 0x20.

(** ANSI_PARAM: digits, [;] and the final character. *)
Definition ansi_parameter (t c : Z) : T unit :=
  x ← tget t;
  let normal := tmod t (fun x => x <| ansi_state := ANSI_NORMAL |>) in
  if (48 <=? c) && (c <=? 57) then
    v ← aget "ansi_params" (ansi_params x) (ansi_param_count x - 1);
    l ← aset "ansi_params" (ansi_params x) (ansi_param_count x - 1) (i32 (i32 (v * 10) + (c - 48)));
    tmod t (fun x => x <| ansi_params := l |>)
  else if c =? 59 then
    when (ansi_param_count x <? 4) (tmod t (fun x => x <| ansi_param_count := ansi_param_count x + 1 |>))
  else if c =? 109 then
    (if Z.of_nat (length (ansi_params x)) <? ansi_param_count x then fault "ansi_params"
     else handle_ansi_sgr_sequence t (take (Z.to_nat (ansi_param_count x)) (ansi_params x)));;
    normal
  else if c =? 74 then p ← ansi_param x 0 0; handle_ansi_clear t p;; normal
  else if (c =? 102) || (c =? 72) then
    row ← ansi_param x 0 1;
    col ← ansi_param x 1 1;
    set_cursor t (i32 (col - 1)) (i32 (row - 1));;
    normal
  else if ((c =? 104) || (c =? 108)) && nz (ansi_private x) then
    p ← aget "ansi_params" (ansi_params x) 0;
    when (p =? 25) (cursor_shape c);;
    normal
  else normal.

(** [c] is a char, with its sign. *)
Definition termio_putc (t c : Z) : T unit :=
  x ← tget t;
  let oflag := c_oflag (tios x) in
  if negb (nz (Z.land oflag OPOST)) then tty_putc t c
  else if c =? 10 then
    if nz (Z.land oflag ONLCR) then tty_putc t 13;; tty_putc t 10 else tty_putc t 10
  else if c =? 13 then
    if nz (Z.land oflag OCRNL) then tty_putc t 13;; tty_putc t 10
    else when (negb (nz (Z.land oflag ONOCR))) (tty_putc t 13)
  else match ansi_state x with
       | ANSI_NORMAL =>
           if c =? 27 then tmod t (fun x => x <| ansi_state := ANSI_ESCAPE |> <| ansi_param_count := 0 |>)
           else tty_putc t c
       | ANSI_ESCAPE =>
           tmod t (fun x => x <| ansi_state := if c =? 91 then ANSI_BRACKET else ANSI_NORMAL |>)
       | ANSI_BRACKET => ansi_bracket t c
       | ANSI_PARAM => ansi_parameter t c
       end.

(** ** Input: the line discipline *)

Definition echo (t c : Z) : T unit :=
  x ← tget t; when (nz (Z.land (c_lflag (tios x)) ECHO) && nz (attached_console x)) (tty_putc t c).
Definition rub (t : Z) : T unit := x ← tget t; when (nz (attached_console x)) (tty_putc t BACKSPACE).

(** [tty->input_w = tty->input_e; wakeup(&tty->input_r)] *)
Definition commit_input (t : Z) : T unit := rmod t ring_commit;; wake (input_chan t).

(** The three characters of an arrow key; those that do not fit are dropped. *)
Fixpoint arrow_loop (t : Z) (seq : list Z) : T unit :=
  match seq with
  | [] => mret tt
  | c :: seq' =>
      x ← tget t;
      (if INPUT_BUF <=? ring_used (input x) then mret tt
       else rmod t (ring_put c);; echo t c);;
      arrow_loop t seq'
  end.
Definition arrow_seq (c : Z) : list Z :=
  [27; 91; if c =? 0xE100 then 65 else if c =? 0xE101 then 66 else if c =? 0xE102 then 68 else 67].
Definition key_arrow (t c : Z) : T unit :=
  arrow_loop t (arrow_seq c);;
  x ← tget t;
  when (negb (nz (Z.land (c_lflag (tios x)) ICANON)) || ring_full (input x)) (commit_input t).

(** Kill line: at most [fuel] characters can be rubbed out. *)
Fixpoint kill_loop (fuel : nat) (t : Z) : T unit :=
  match fuel with
  | O => fault "kill line"
  | S fuel' =>
      x ← tget t;
      let r := input x in
      if negb (in_e r =? in_w r) && negb (ring_byte r (u32 (in_e r - 1)) =? 10) then
        rmod t ring_unput;;
        rub t;;
        kill_loop fuel' t
      else mret tt
  end.
Definition key_kill (t : Z) : T unit :=
  x ← tget t; kill_loop (Z.to_nat (u32 (in_e (input x) - in_w (input x))) + 1) t.

Definition key_signal (t c sig : Z) : T unit :=
  x ← tget t;
  when (nz (Z.land (c_lflag (tios x)) ISIG))
    (s ← get;
     g ← aget "ttys" (kttys (tk s)) t;
     when (0 <? g) (onsys (onps (kill_pgrp g sig)));;
     echo t c;;
     rmod t ring_discard).

Definition key_erase (t : Z) : T unit :=
  x ← tget t;
  when (negb (in_e (input x) =? in_w (input x)))
    (rmod t ring_unput;;
     x ← tget t;
     when (nz (Z.land (c_lflag (tios x)) ECHO))
       (when (Z.land (ring_byte (input x) (in_e (input x))) 255 <? 32) (rub t);;
        rub t)).

Fixpoint tab_loop (k : nat) (t : Z) : T unit :=
  match k with
  | O => mret tt
  | S k' => rmod t (ring_put 32);; echo t 32;; tab_loop k' t
  end.
Definition key_tab (t : Z) : T unit :=
  x ← tget t;
  when (ring_used (input x) <? INPUT_BUF - 8)
    (tab_loop 8 t;;
     x ← tget t;
     when (ring_full (input x)) (commit_input t)).

Definition key_normal (t c : Z) : T unit :=
  x ← tget t;
  when (nz c && (ring_used (input x) <? INPUT_BUF))
    (rmod t (ring_put c);;
     echo t c;;
     x ← tget t;
     when (negb (nz (Z.land (c_lflag (tios x)) ICANON)) || (c =? 10) || (c =? 4) || ring_full (input x)) (commit_input t)).

(** One character of the loop of tty_interrupt. *)
Definition tty_key (t c : Z) : T unit :=
  if (0xE100 <=? c) && (c <=? 0xE103) then key_arrow t c
  else if c =? 21 then key_kill t
  else if c =? 3 then key_signal t c SIGINT
  else if c =? 26 then key_signal t c SIGTSTP
  else if c =? 28 then key_signal t c SIGQUIT
  else if (c =? 8) || (c =? 127) then
    x ← tget t;
    if nz (Z.land (c_lflag (tios x)) ICANON) then key_erase t else key_normal t c
  else if c =? 9 then key_tab t
  else key_normal t c.

(** The loop calls getc until it is negative. *)
Fixpoint interrupt_loop (fuel : nat) (getc : T Z) (t : Z) : T unit :=
  match fuel with
  | O => fault "getc"
  | S fuel' => c ← getc; if 0 <=? c then tty_key t c;; interrupt_loop fuel' getc t else mret tt
  end.
Definition tty_interrupt (fuel : nat) (getc : T Z) : T unit :=
  s ← get;
  let t := active_tty s in
  if (t <? 0) || (NTTYS <=? t) then mret tt else interrupt_loop fuel getc t.

(** ** Switching *)

Definition change_tty (n : Z) : T Z :=
  if NTTYS - 1 <? n then mret (- EINVAL)
  else
    s ← get;
    tmod (active_tty s) (fun old => old <| screen := take (Z.to_nat SCREEN) (crt s) |>);;
    modify (fun s => s <| active_tty := n |>);;
    new ← tget n;
    show_screen new;;
    show_cursor n;;
    mret 0.

(** ** The device *)

(** The terminal a minor number names for the running process. *)
Definition tty_target (minor : Z) : T (option Z) :=
  p ← onsys curproc;
  if minor =? 0 then mret (if Proc.tty p <? 0 then None else Some (Proc.tty p))
  else if (1 <=? minor) && (minor <? NTTYS - 1) then mret (Some minor)
  else mret None.

(** The characters up to the first at which a signal is pending. *)
Fixpoint write_chars (t : Z) (src : list Z) : T unit :=
  match src with
  | [] => mret tt
  | c :: src' =>
      p ← onsys curproc;
      if nz (sigpending p) then mret tt else termio_putc t (i8 c);; write_chars t src'
  end.
Definition ttywrite (minor : Z) (ip : nat) (src : list Z) (n : Z) : T Z :=
  o ← tty_target minor;
  match o with
  | None => mret (- ENXIO)
  | Some t =>
      onsys (onfs (iunlock (Some ip)));;
      write_chars t (take (Z.to_nat n) src);;
      onsys (onfs (ilock (Some ip)));;
      mret n
  end.

Definition acquire_tty (t : Z) : T unit :=
  x ← tget t; if tlocked x then panic "acquire" else tmod t (fun x => x <| tlocked := true |>).
Definition release_tty (t : Z) : T unit :=
  x ← tget t; if tlocked x then tmod t (fun x => x <| tlocked := false |>) else panic "release".

(** How a run of ttyread ends: it returns with these bytes in the buffer, or
    sleeps with [n] bytes still wanted. *)
Inductive tread : Type := TDone (r : Z) (bytes : list Z) | TSleep (n : Z) (got : list Z).

(** [input_buf[input_r++ % INPUT_BUF]] *)
Definition ring_take (r : ring) : ring := r <| in_r := u32 (in_r r + 1) |>.

Fixpoint read_chars (fuel : nat) (t target n : Z) (got : list Z) : T tread :=
  match fuel with
  | O => fault "ttyread"
  | S fuel' =>
      if 0 <? n then
        x ← tget t;
        let r := input x in
        if in_r r =? in_w r then
          p ← onsys curproc;
          if nz (killed p) || nz (sigpending p) then release_tty t;; mret (TDone (- EINTR) got)
          else release_tty t;; mret (TSleep n got)
        else
          let c := ring_byte r (in_r r) in
          if c =? 4 then
            when (negb (n <? target)) (rmod t ring_take);;
            release_tty t;;
            mret (TDone (target - n) got)
          else
            rmod t ring_take;;
            if c =? 10 then release_tty t;; mret (TDone (target - (n - 1)) (got ++ [c]))
            else read_chars fuel' t target (n - 1) (got ++ [c])
      else release_tty t;; mret (TDone (target - n) got)
  end.
Definition ttyread (minor n : Z) : T tread :=
  o ← tty_target minor;
  match o with
  | None => mret (TDone (- ENXIO) [])
  | Some t => acquire_tty t;; read_chars (Z.to_nat n + 1) t n n []
  end.
(** Waking up in sleep: the lock is taken again and the loop goes on. *)
Definition resume_ttyread (t target n : Z) (got : list Z) : T tread :=
  acquire_tty t;; read_chars (Z.to_nat n + 1) t target n got.

(** ** Initialisation *)

(** The fields tty_init sets; the rest of struct tty starts as zero. *)
Definition tty_zero (i : Z) : tty :=
  Tty i 1 default_termios false (replicate (Z.to_nat SCREEN) 0x0720) 0 ANSI_NORMAL (replicate 8 0) 0 0 0x0700
    (Ring (replicate (Z.to_nat INPUT_BUF) 0) 0 0 0).
Definition tty_init : T unit :=
  s ← get;
  put (s <| ttab := map (fun i => tty_zero (Z.of_nat i)) (seq 0 (Z.to_nat NTTYS)) |>
         <| tk := tk s <| kttys := replicate (Z.to_nat NTTYS) 0 |> |>);;
  s ← get;
  tmod 1 (fun x => x <| screen := take (Z.to_nat SCREEN) (crt s) |> <| tpos := cpos s |>).
End tty.
