(* ===== verification/TtyRing.v ===== *)
(** * The line discipline as two lists

    The input ring of a terminal holds the bytes readers may take and, behind
    them, the line still being edited.  [ring_ok] ties the free-running indices
    to these two lists; each ring operation of Tty.v is one on the lists.  [lkey]
    and [lread] are the line discipline on lists, without indices or echo. *)
From Stdlib Require Import ZArith Lia.
From stdpp Require Import base numbers list.
From S2P Require Import Prelude Tty.
Local Open Scope Z_scope.

(** [com] from in_r to in_w, [line] from in_w to in_e. *)
Record ring_ok (r : ring) (com line : list Z) : Prop := RingOk {
  ro_len : length (rbuf r) = 128%nat;
  ro_r : in_u 32 (in_r r);
  ro_w : in_w r = u32 (in_r r + Z.of_nat (length com));
  ro_e : in_e r = u32 (in_r r + Z.of_nat (length (com ++ line)));
  ro_room : (length (com ++ line) <= 128)%nat;
  ro_bytes : forall i c, (com ++ line) !! i = Some c -> ring_byte r (in_r r + Z.of_nat i) = c
}.

Ltac wrap := unfold ring_used, uwrap, in_u, INPUT_BUF in *; change (2 ^ 32) with 4294967296 in *; Z.to_euclidean_division_equations; lia.

Lemma mod_u32 z : u32 z mod INPUT_BUF = z mod INPUT_BUF.
Proof. apply Z.mod_mod_divide. exists (2 ^ 25). reflexivity. Qed.
Lemma byte_u32 r z : ring_byte r (u32 z) = ring_byte r z.
Proof. unfold ring_byte. rewrite mod_u32. reflexivity. Qed.

Section ring.
Context (r : ring) (com line : list Z) (Hr : ring_ok r com line).

Lemma ring_used_length : ring_used r = Z.of_nat (length (com ++ line)).
Proof. destruct Hr as [_ H1 _ He H3 _]. rewrite length_app in *. wrap. Qed.
Lemma ring_full_length : ring_full r = true <-> length (com ++ line) = 128%nat.
Proof. destruct Hr as [_ H1 _ He H3 _]. unfold ring_full. rewrite Z.eqb_eq. rewrite length_app in *. wrap. Qed.
Lemma ring_no_line : in_e r = in_w r <-> line = [].
Proof.
  destruct Hr as [_ H1 Hw He H3 _]. rewrite <-length_zero_iff_nil. rewrite length_app in *. wrap.
Qed.
Lemma ring_no_bytes : in_r r = in_w r <-> com = [].
Proof.
  destruct Hr as [_ H1 Hw He H3 _]. rewrite <-length_zero_iff_nil. rewrite length_app in *. wrap.
Qed.
Lemma ring_line_length : u32 (in_e r - in_w r) = Z.of_nat (length line).
Proof. destruct Hr as [_ H1 Hw He H3 _]. rewrite length_app in *. wrap. Qed.

Lemma ring_put_ok c : (length (com ++ line) < 128)%nat -> ring_ok (ring_put c r) com (line ++ [i8 c]).
Proof.
  intros Hlt. destruct Hr as [Hl H1 Hw He H3 Hb]. split; cbn [rbuf in_r in_w in_e ring_put].
  - cbn. len.
  - exact H1.
  - exact Hw.
  - cbn. rewrite He. rewrite !length_app in *. cbn [length]. wrap.
  - rewrite !length_app in *. cbn [length]. lia.
  - intros i b Hi. rewrite app_assoc in Hi. unfold ring_byte. cbn. rewrite He, mod_u32.
    destruct (decide (i = length (com ++ line))) as [->|Hne].
    + rewrite list_lookup_middle in Hi by reflexivity. injection Hi as <-.
      rewrite list_lookup_insert_eq; [reflexivity|]. rewrite Hl. unfold INPUT_BUF. pose proof (Z.mod_pos_bound (in_r r + Z.of_nat (length (com ++ line))) 128). lia.
    + assert (i < length (com ++ line))%nat as Hi' by (apply lookup_lt_Some in Hi; rewrite length_app in Hi; cbn in Hi; lia).
      rewrite lookup_app_l in Hi by exact Hi'. rewrite list_lookup_insert_ne; [exact (Hb i b Hi)|].
      unfold in_u, INPUT_BUF in *. change (2 ^ 32) with 4294967296 in *. Z.to_euclidean_division_equations; lia.
Qed.

Lemma ring_unput_ok l c : line = l ++ [c] -> ring_ok (ring_unput r) com l.
Proof.
  intros ->. destruct Hr as [Hl H1 Hw He H3 Hb]. split; cbn; try assumption.
  - rewrite He. rewrite !length_app in *. cbn [length] in *. wrap.
  - rewrite !length_app in *. cbn [length] in *. lia.
  - intros i b Hi. apply (Hb i b). rewrite app_assoc. apply lookup_app_l_Some. exact Hi.
Qed.

Lemma ring_last_byte l c : line = l ++ [c] -> ring_byte r (u32 (in_e r - 1)) = c /\ ring_byte (ring_unput r) (in_e (ring_unput r)) = c.
Proof.
  intros ->. destruct Hr as [Hl H1 Hw He H3 Hb]. rewrite app_assoc in *.
  assert (ring_byte r (u32 (in_e r - 1)) = c) as E.
  { rewrite byte_u32, He. rewrite <-(Hb (length (com ++ l)) c) by (apply list_lookup_middle; reflexivity).
    unfold ring_byte. do 3 f_equal. rewrite length_app. cbn [length]. unfold uwrap, INPUT_BUF. change (2 ^ 32) with 4294967296.
    Z.to_euclidean_division_equations; lia. }
  split; exact E.
Qed.

Lemma ring_commit_ok : ring_ok (ring_commit r) (com ++ line) [].
Proof. destruct Hr as [Hl H1 Hw He H3 Hb]. split; cbn; rewrite ?app_nil_r; assumption. Qed.

Lemma ring_discard_ok : ring_ok (ring_discard r) [] [].
Proof.
  destruct Hr as [Hl H1 Hw He H3 Hb]. split; cbn; try assumption; try lia; try (intros i c Hi; discriminate).
  all: rewrite Z.add_0_r; symmetry; apply uwrap_id; exact H1.
Qed.

Lemma ring_take_ok c com' : com = c :: com' -> ring_byte r (in_r r) = c /\ ring_ok (ring_take r) com' line.
Proof.
  intros ->. destruct Hr as [Hl H1 Hw He H3 Hb]. split.
  - rewrite <-(Z.add_0_r (in_r r)). exact (Hb 0%nat c eq_refl).
  - cbn [app length] in *. split; cbn [rbuf in_r in_w in_e ring_take].
    + exact Hl.
    + apply uwrap_range. lia.
    + cbn. rewrite Hw. wrap.
    + cbn. rewrite He. rewrite !length_app in *. wrap.
    + lia.
    + intros i b Hi. change (rbuf (ring_take r)) with (rbuf r). pose proof (Hb (S i) b Hi) as E. rewrite <-E.
      change (in_r (ring_take r)) with (u32 (in_r r + 1)). change (ring_byte (ring_take r)) with (ring_byte r).
      rewrite <-(byte_u32 r (u32 (in_r r + 1) + Z.of_nat i)). rewrite uwrap_add_l, byte_u32. f_equal. lia.
Qed.
End ring.

(** ** The line discipline on lists *)

Abbreviation queue := (list Z * list Z)%type.
Definition qused (q : queue) : nat := length (q.1 ++ q.2).

(** Characters that fit are added to the line. *)
Definition ladd (cs : list Z) (q : queue) : queue := (q.1, q.2 ++ take (128 - qused q) (map i8 cs)).
Definition lcommit (q : queue) : queue := (q.1 ++ q.2, []).
(** The line is handed over when the terminal is not canonical, when the key ends
    it, or when the buffer is full. *)
Definition lfinish (now : bool) (q : queue) : queue := if now || (qused q =? 128)%nat then lcommit q else q.

(** The line up to and including its last newline. *)
Fixpoint lkill (rev_line : list Z) : list Z :=
  match rev_line with
  | [] => []
  | c :: l => if c =? 10 then c :: l else lkill l
  end.

Definition lnormal (canon : bool) (c : Z) (q : queue) : queue :=
  if nz c && (qused q <? 128)%nat then lfinish (negb canon || (c =? 10) || (c =? 4)) (ladd [c] q) else q.

Definition lkey (canon isig : bool) (c : Z) (q : queue) : queue :=
  if (0xE100 <=? c) && (c <=? 0xE103) then lfinish (negb canon) (ladd (arrow_seq c) q)
  else if c =? 21 then (q.1, reverse (lkill (reverse q.2)))
  else if (c =? 3) || (c =? 26) || (c =? 28) then if isig then ([], []) else q
  else if (c =? 8) || (c =? 127) then if canon then (q.1, removelast q.2) else lnormal canon c q
  else if c =? 9 then if (qused q <? 120)%nat then ladd (replicate 8 32) q else q
  else lnormal canon c q.

(** What a reader of [n] bytes takes: up to a newline, or up to the end-of-file
    character, which stays for the next read unless it comes first.  The result
    is false when the bytes run out first. *)
Fixpoint lread (first : bool) (n : nat) (com : list Z) : list Z * bool * list Z :=
  match n with
  | O => ([], true, com)
  | S n' =>
      match com with
      | [] => ([], false, [])
      | c :: com' =>
          if c =? 4 then ([], true, if first then com' else com)
          else if c =? 10 then ([c], true, com')
          else let '(bs, done, rest) := lread false n' com' in (c :: bs, done, rest)
      end
  end.
