(* ===== verification/TtyThm.v ===== *)
(** * Terminals: the line discipline and the screen

    [frame t s s'] says that [s'] differs from [s] only in the screen, the cursor,
    the colours and escape state of terminal [t], in video memory and in the
    ports written: what output may do.  The line discipline is proved to be the
    one on lists of TtyRing.v whatever output does, and output is proved to stay
    on the screen. *)
From Stdlib Require Import ZArith Lia.
From stdpp Require Import base numbers list gmap strings.
From S2P Require Import Prelude KString Locks Kalloc Vm Pipe Proc Syscall Block Log Fs Signal File SysFd SysDir Tty TtyRing.
Local Open Scope Z_scope.

(** What output to a terminal leaves alone. *)
Definition core (x : tty) : Z * Z * termios * bool * ring := (num x, attached_console x, tios x, tlocked x, input x).

Section tty_thm.
Context {C : Type} `{BufCache C}.
#[local] Abbreviation T := (M (tsys C)).
Implicit Types (s : tsys C) (x : tty).

(** ** Runs of the primitives *)

Lemma tget_run t x s : 0 <= t -> ttab s !! Z.to_nat t = Some x -> tget t s = Ok x s.
Proof. intros Ht Hx. unfold tget. erewrite bind_step by reflexivity. apply aget_Ok; assumption. Qed.
Lemma tmod_run t f x s :
  0 <= t -> ttab s !! Z.to_nat t = Some x -> tmod t f s = Ok tt (s <| ttab := <[Z.to_nat t := f x]> (ttab s) |>).
Proof. intros Ht Hx. unfold tmod. rewrite (bind_step _ _ _ _ _ (tget_run t x s Ht Hx)). reflexivity. Qed.

(** ** The frame of output *)

Record frame (t : Z) (s s' : tsys C) : Prop := Frame {
  fr_tk : tk s' = tk s;
  fr_active : active_tty s' = active_tty s;
  fr_cpos : cpos s' = cpos s;
  fr_rest : (cinput s', conslocked s', locking s', uart s', uart_debug s', panicked s', shift s', kqueue s')
            = (cinput s, conslocked s, locking s, uart s, uart_debug s, panicked s, shift s, kqueue s);
  fr_len : length (ttab s') = length (ttab s);
  fr_core : forall i x, ttab s !! i = Some x -> exists x', ttab s' !! i = Some x' /\ core x' = core x /\ (i <> Z.to_nat t -> x' = x)
}.

#[global] Instance frame_preorder t : PreOrder (frame t).
Proof.
  split.
  - intros s. split; try reflexivity. intros i x Hx. exists x. auto.
  - intros s1 s2 s3 [A1 A2 A3 A4 A5 A6] [B1 B2 B3 B4 B5 B6]. split; try congruence.
    intros i x Hx. destruct (A6 i x Hx) as (x2 & Hx2 & E2 & F2). destruct (B6 i x2 Hx2) as (x3 & Hx3 & E3 & F3).
    exists x3. split; [exact Hx3|]. split; [congruence|]. intros Hi. rewrite (F3 Hi). auto.
Qed.

Lemma frame_tmod t f x s :
  0 <= t -> ttab s !! Z.to_nat t = Some x -> core (f x) = core x -> frame t s (s <| ttab := <[Z.to_nat t := f x]> (ttab s) |>).
Proof.
  intros Ht Hx Hc. split; try reflexivity; cbn; [len|]. intros i y Hy. destruct (decide (i = Z.to_nat t)) as [->|Hne].
  - exists (f x). assert (y = x) as -> by congruence.
    rewrite list_lookup_insert_eq by (eapply lookup_lt_Some; exact Hx). tauto.
  - exists y. rewrite list_lookup_insert_ne by auto. auto.
Qed.

(** A drawing program: it returns with only the frame changed, or goes wrong on
    an index of the screen, of video memory or of the escape parameters. *)
Definition draws {A} (t : Z) (m : T A) : Prop := forall s,
  0 <= t < Z.of_nat (length (ttab s)) ->
  match m s with
  | Ok _ s' => frame t s s'
  | Fault w => w ∈ ["screen"; "crt"; "ansi_params"]
  | _ => False
  end.

Lemma frame_valid t s s' : frame t s s' -> 0 <= t < Z.of_nat (length (ttab s)) -> 0 <= t < Z.of_nat (length (ttab s')).
Proof. intros [_ _ _ _ E _]. rewrite E. auto. Qed.

Lemma draws_ret {A} t (a : A) : draws t (mret a).
Proof. intros s Ht. change (frame t s s). reflexivity. Qed.
Lemma draws_get t : draws t (@get (tsys C)).
Proof. intros s Ht. change (frame t s s). reflexivity. Qed.
Lemma draws_bind {A B} t (m : T A) (k : A -> T B) : draws t m -> (forall a, draws t (k a)) -> draws t (m ≫= k).
Proof.
  intros Hm Hk s Ht. specialize (Hm s Ht). unfold mbind, M_bind. destruct (m s) as [a s1|w|w|ch s1]; try exact Hm.
  specialize (Hk a s1 (frame_valid _ _ _ Hm Ht)). destruct (k a s1) as [b s2|w|w|ch s2]; try exact Hk. etransitivity; eassumption.
Qed.
Lemma draws_fault {A} t w : w ∈ ["screen"; "crt"; "ansi_params"] -> draws t (@fault (tsys C) A w).
Proof. intros Hw s Ht. exact Hw. Qed.
Lemma draws_when t b (m : T unit) : draws t m -> draws t (when b m).
Proof. intros Hm. destruct b; [exact Hm | apply draws_ret]. Qed.
Lemma draws_tget t : draws t (tget t).
Proof.
  intros s Ht. destruct (lookup_lt_is_Some_2 (ttab s) (Z.to_nat t)) as [x Hx]; [lia|]. rewrite (tget_run t x s) by (auto; lia). change (frame t s s). reflexivity.
Qed.
Lemma draws_tmod t f : (forall x, core (f x) = core x) -> draws t (tmod t f).
Proof.
  intros Hf s Ht. destruct (lookup_lt_is_Some_2 (ttab s) (Z.to_nat t)) as [x Hx]; [lia|]. rewrite (tmod_run t f x s) by (auto; lia).
  apply frame_tmod; auto; lia.
Qed.
Lemma draws_aset {A} t w (l : list A) i v : w ∈ ["screen"; "crt"; "ansi_params"] -> draws t (@aset (tsys C) A w l i v).
Proof. intros Hw s Ht. unfold aset. destruct (_ && _); [change (frame t s s); reflexivity | exact Hw]. Qed.
Lemma draws_aget {A} t w (l : list A) i : w ∈ ["screen"; "crt"; "ansi_params"] -> draws t (@aget (tsys C) A w l i).
Proof. intros Hw s Ht. unfold aget. destruct (_ <? _); [exact Hw|]. destruct (_ !! _); [change (frame t s s); reflexivity | exact Hw]. Qed.
Lemma draws_crt t (f : tsys C -> list Z) : draws t (modify (fun s => s <| crt := f s |>)).
Proof. intros s Ht. split; try reflexivity. intros i x Hx. exists x. auto. Qed.
Lemma draws_outb t p v : draws t (outb p v).
Proof. intros s Ht. split; try reflexivity. intros i x Hx. exists x. auto. Qed.
Lemma draws_displayed t (m : T unit) : draws t m -> draws t (displayed t m).
Proof.
  intros Hm. unfold displayed. apply draws_bind; [apply draws_tget|]. intros x. apply draws_bind; [apply draws_get|]. intros s.
  apply draws_when, Hm.
Qed.
End tty_thm.

Create HintDb draws discriminated.
#[export] Hint Resolve draws_ret draws_get draws_tget draws_outb draws_crt : draws.
#[export] Hint Extern 1 (_ ∈ _) => (rewrite !elem_of_cons; tauto) : draws.
(** Breaks a drawing program into its steps. *)
Ltac draw :=
  repeat (intros;
    match goal with
    | |- draws _ (tmod _ _) => apply draws_tmod; intros; reflexivity
    | |- draws _ (aset _ _ _ _) => apply draws_aset
    | |- draws _ (aget _ _ _) => apply draws_aget
    | |- draws _ (fault _) => apply draws_fault
    | |- draws _ (when _ _) => apply draws_when
    | |- draws _ (displayed _ _) => apply draws_displayed
    | |- draws _ (if ?b then _ else _) => destruct b
    | |- _ => solve [auto with draws nocore]
    | |- draws _ (mbind _ _) => apply draws_bind
    end).

Section draws.
Context {C : Type} `{BufCache C}.
#[local] Abbreviation T := (M (tsys C)).
Implicit Types (s : tsys C) (x : tty).

Lemma draws_set_cell t i v : draws t (@set_cell C t i v).
Proof. unfold set_cell. draw. Qed.
Lemma draws_set_crt t i v : draws t (@set_crt C i v).
Proof. unfold set_crt. draw. Qed.
Lemma draws_show_cursor t : draws t (@show_cursor C t).
Proof. unfold show_cursor. draw. Qed.
#[local] Hint Resolve draws_set_cell draws_set_crt draws_show_cursor : draws.
Lemma draws_put_next t v : draws t (@put_next C t v).
Proof. unfold put_next. draw. Qed.
Lemma draws_scroll t : draws t (@scroll C t).
Proof. unfold scroll, show_screen. draw. Qed.
#[local] Hint Resolve draws_put_next draws_scroll : draws.
Lemma draws_put_spaces k t : draws t (@put_spaces C k t).
Proof. induction k; cbn [put_spaces]; draw. Qed.
Lemma draws_dumb_putc t c : draws t (@dumb_putc C t c).
Proof. unfold dumb_putc. draw. Qed.
#[local] Hint Resolve draws_put_spaces draws_dumb_putc : draws.
Lemma draws_tty_char t c : draws t (@tty_char C t c).
Proof. unfold tty_char. draw. Qed.
#[local] Hint Resolve draws_tty_char : draws.
Lemma draws_tty_putc t c : draws t (@tty_putc C t c).
Proof. unfold tty_putc. draw. Qed.
#[local] Hint Resolve draws_tty_putc : draws.
Lemma draws_echo t c : draws t (@echo C t c).
Proof. unfold echo. draw. Qed.
Lemma draws_rub t : draws t (@rub C t).
Proof. unfold rub. draw. Qed.
End draws.

(** ** Editing *)

(** What a key typed at [t] leaves alone, apart from its own line. *)
Definition settings (x : tty) : Z * Z * termios * bool := (num x, attached_console x, tios x, tlocked x).
Definition calm {C} (s : tsys C) : Prop := ptlocked (kps (tk s)) = false.

Section edits.
Context {C : Type} `{BufCache C}.
#[local] Abbreviation T := (M (tsys C)).
Implicit Types (s : tsys C) (x : tty) (q : queue).

Record kept (t : Z) (s s' : tsys C) : Prop := Kept {
  ke_sys : (kfs (tk s'), kmm (tk s'), kpipes (tk s'), ftable (tk s'), ftlocked (tk s'), kttys (tk s'))
           = (kfs (tk s), kmm (tk s), kpipes (tk s), ftable (tk s), ftlocked (tk s), kttys (tk s));
  ke_cur : (cur (kps (tk s')), ptlocked (kps (tk s'))) = (cur (kps (tk s)), ptlocked (kps (tk s)));
  ke_state : (active_tty s', cpos s', cinput s', conslocked s', locking s', uart s', uart_debug s', panicked s', shift s', kqueue s')
             = (active_tty s, cpos s, cinput s, conslocked s, locking s, uart s, uart_debug s, panicked s, shift s, kqueue s);
  ke_len : length (ttab s') = length (ttab s);
  ke_tty : forall i x, ttab s !! i = Some x -> exists x', ttab s' !! i = Some x' /\ settings x' = settings x /\ (i <> Z.to_nat t -> x' = x)
}.

#[global] Instance kept_preorder t : PreOrder (kept t).
Proof.
  split.
  - intros s. split; try reflexivity. intros i x Hx. exists x. auto.
  - intros s1 s2 s3 [A1 A2 A3 A4 A5] [B1 B2 B3 B4 B5]. split; try congruence.
    intros i x Hx. destruct (A5 i x Hx) as (x2 & Hx2 & E2 & F2). destruct (B5 i x2 Hx2) as (x3 & Hx3 & E3 & F3).
    exists x3. split; [exact Hx3|]. split; [congruence|]. intros Hi. rewrite (F3 Hi). auto.
Qed.

Lemma frame_kept t s s' : frame t s s' -> kept t s s'.
Proof.
  intros [A1 A2 A3 A4 A5 A6]. split; try congruence. intros i x Hx. destruct (A6 i x Hx) as (x' & Hx' & E & F).
  exists x'. split; [exact Hx'|]. split; [|exact F]. injection E as E1 E2 E3 E4 E5. unfold settings. congruence.
Qed.

(** The line discipline's modes. *)
Definition canonical (x : tty) : bool := nz (Z.land (c_lflag (tios x)) ICANON).
Definition signals (x : tty) : bool := nz (Z.land (c_lflag (tios x)) ISIG).

(** The terminal [t] is [x], with this input. *)
Record typed (t : Z) (canon isig : bool) (q : queue) s x : Prop := Typed {
  ty_t : 0 <= t;
  ty_x : ttab s !! Z.to_nat t = Some x;
  ty_grp : is_Some (kttys (tk s) !! Z.to_nat t);
  ty_canon : canonical x = canon;
  ty_sig : signals x = isig;
  ty_ring : ring_ok (input x) q.1 q.2;
  ty_calm : calm s
}.

(** [m] takes the input [q] of terminal [t] to [q'], unless output fails. *)
Definition edits {A} t canon isig (m : T A) q q' : Prop := forall s x,
  typed t canon isig q s x ->
  match m s with
  | Ok _ s' => kept t s s' /\ exists x', typed t canon isig q' s' x'
  | Fault w => w ∈ ["screen"; "crt"; "ansi_params"]
  | _ => False
  end.

Lemma typed_kept t canon isig q q' s s' x x' :
  typed t canon isig q s x -> kept t s s' -> ttab s' !! Z.to_nat t = Some x' -> ring_ok (input x') q'.1 q'.2 ->
  typed t canon isig q' s' x'.
Proof.
  intros [Ht Hx Hg Hc Hs Hr Hk] [K1 K2 K3 K4 K5] Hx' Hr'. destruct (K5 _ _ Hx) as (y & Hy & E & _).
  assert (y = x') as -> by congruence. injection E as E1 E2 E3 E4. injection K1 as K1. injection K2 as K2 K2'.
  split; try assumption; unfold canonical, signals, calm in *; congruence.
Qed.

Context (t : Z) (canon isig : bool).
#[local] Abbreviation E := (edits t canon isig).

Lemma edits_ret {A} (a : A) q : E (mret a) q q.
Proof. intros s x Hx. split; [reflexivity | exists x; exact Hx]. Qed.
Lemma edits_bind {A B} (m : T A) (k : A -> T B) q q1 q2 : E m q q1 -> (forall a, E (k a) q1 q2) -> E (m ≫= k) q q2.
Proof.
  intros Hm Hk s x Hx. specialize (Hm s x Hx). unfold mbind, M_bind. destruct (m s) as [a s1|w|w|ch s1]; try exact Hm.
  destruct Hm as (K1 & x1 & Hx1). specialize (Hk a s1 x1 Hx1). destruct (k a s1) as [b s2|w|w|ch s2]; try exact Hk.
  destruct Hk as (K2 & x2 & Hx2). split; [etransitivity; eassumption | exists x2; exact Hx2].
Qed.
(** Reading struct tty. *)
Lemma edits_tget {B} (k : tty -> T B) q q' :
  (forall x, canonical x = canon -> signals x = isig -> ring_ok (input x) q.1 q.2 -> E (k x) q q') -> E (x ← tget t; k x) q q'.
Proof.
  intros Hk s x Hx. rewrite (bind_step _ _ _ _ _ (tget_run t x s (ty_t _ _ _ _ _ _ Hx) (ty_x _ _ _ _ _ _ Hx))).
  exact (Hk x (ty_canon _ _ _ _ _ _ Hx) (ty_sig _ _ _ _ _ _ Hx) (ty_ring _ _ _ _ _ _ Hx) s x Hx).
Qed.
Lemma edits_draws {A} (m : T A) q : draws t m -> E m q q.
Proof.
  intros Hm s x Hx. pose proof (lookup_lt_Some _ _ _ (ty_x _ _ _ _ _ _ Hx)). pose proof (ty_t _ _ _ _ _ _ Hx).
  specialize (Hm s ltac:(lia)). destruct (m s) as [a s'|w|w|ch s']; try exact Hm.
  split; [exact (frame_kept _ _ _ Hm)|]. destruct (fr_core _ _ _ Hm _ _ (ty_x _ _ _ _ _ _ Hx)) as (x' & Hx' & E & _).
  exists x'. apply (typed_kept _ _ _ q _ s _ x); [exact Hx | exact (frame_kept _ _ _ Hm) | exact Hx'|].
  injection E as E1 E2 E3 E4 E5. rewrite E5. exact (ty_ring _ _ _ _ _ _ Hx).
Qed.
Lemma edits_rmod f q q' : (forall r, ring_ok r q.1 q.2 -> ring_ok (f r) q'.1 q'.2) -> E (rmod t f) q q'.
Proof.
  intros Hf s x Hx. unfold rmod. rewrite (tmod_run t _ x s (ty_t _ _ _ _ _ _ Hx) (ty_x _ _ _ _ _ _ Hx)).
  set (s1 := s <| ttab := _ |>). pose proof (lookup_lt_Some _ _ _ (ty_x _ _ _ _ _ _ Hx)) as Hlt.
  assert (kept t s s1) as K.
  { split; try reflexivity; unfold s1; cbn; [len|]. intros i y Hy. destruct (decide (i = Z.to_nat t)) as [->|Hne].
    - eexists. rewrite list_lookup_insert_eq by exact Hlt. rewrite (ty_x _ _ _ _ _ _ Hx) in Hy. injection Hy as <-. split; [reflexivity|]. split; [reflexivity | tauto].
    - exists y. rewrite list_lookup_insert_ne by auto. auto. }
  split; [exact K|]. eexists. eapply typed_kept; [exact Hx | exact K | apply list_lookup_insert_eq, Hlt|].
  apply Hf, (ty_ring _ _ _ _ _ _ Hx).
Qed.
(** A call that only touches the process table. *)
Lemma edits_procs (m : M pstate unit) q :
  (forall p, ptlocked p = false -> exists p', m p = Ok tt p' /\ ptlocked p' = false /\ cur p' = cur p) -> E (onsys (onps m)) q q.
Proof.
  intros Hm s x Hx. destruct (Hm (kps (tk s)) (ty_calm _ _ _ _ _ _ Hx)) as (p' & Ep & Hl & Hc).
  unfold onsys, onps. rewrite Ep. set (s1 := s <| tk := _ |>).
  assert (kept t s s1) as K.
  { split; try reflexivity; unfold s1; cbn; [|intros i y Hy; exists y; auto]. rewrite Hl, Hc. f_equal. symmetry. exact (ty_calm _ _ _ _ _ _ Hx). }
  split; [exact K|]. exists x. eapply typed_kept; [exact Hx | exact K | exact (ty_x _ _ _ _ _ _ Hx) | exact (ty_ring _ _ _ _ _ _ Hx)].
Qed.
End edits.
