(* ===== verification/TtyLine.v ===== *)
(** * Terminals: keys and readers

    Every key typed at a terminal takes its input queue where [lkey] says, every
    read takes from it what [lread] says, and both leave the other terminals, the
    settings of this one and the rest of the system alone. *)
From Stdlib Require Import ZArith Lia.
From stdpp Require Import base numbers list gmap strings.
From S2P Require Import Prelude KString Locks Kalloc Vm Pipe Proc Syscall Block Log Fs Signal File SysFd SysDir Tty TtyRing TtyThm.
Local Open Scope Z_scope.

(** Boolean forms of the ring facts. *)
Lemma ring_full_bool r com line : ring_ok r com line -> ring_full r = (qused (com, line) =? 128)%nat.
Proof. intros Hr. apply eq_true_iff_eq. rewrite (ring_full_length _ _ _ Hr), Nat.eqb_eq. reflexivity. Qed.
Lemma ring_used_bool r com line k : ring_ok r com line -> (ring_used r <? Z.of_nat k) = (qused (com, line) <? k)%nat.
Proof. intros Hr. rewrite (ring_used_length _ _ _ Hr). apply eq_true_iff_eq. rewrite Z.ltb_lt, Nat.ltb_lt. unfold qused. cbn. lia. Qed.

Lemma ladd_one c q : (qused q < 128)%nat -> ladd [c] q = (q.1, q.2 ++ [i8 c]).
Proof. intros Hq. unfold ladd. cbn [map]. rewrite take_ge; [reflexivity | cbn; lia]. Qed.
Lemma ladd_full cs q : (128 <= qused q)%nat -> ladd cs q = q.
Proof. intros Hq. unfold ladd. replace (128 - qused q)%nat with 0%nat by lia. rewrite take_0, app_nil_r. destruct q; reflexivity. Qed.
Lemma qused_ladd cs q : qused (ladd cs q) = (qused q + Nat.min (128 - qused q) (length cs))%nat.
Proof. unfold ladd, qused. cbn. rewrite !length_app, length_take, length_map. lia. Qed.
Lemma ladd_cons c cs q : ladd (c :: cs) q = ladd cs (ladd [c] q).
Proof.
  destruct (decide (qused q < 128)%nat) as [Hq|Hq]; [|rewrite !ladd_full by (rewrite ?qused_ladd; lia); reflexivity].
  unfold ladd at 1 2. rewrite (qused_ladd [c] q), (ladd_one c q Hq). cbn [length map fst snd].
  replace (128 - qused q)%nat with (S (128 - (qused q + 1)))%nat by lia. rewrite Nat.min_r by lia.
  cbn [take]. rewrite <-app_assoc. reflexivity.
Qed.

Section keys.
Context {C : Type} `{BufCache C}.
Context (input_chan : Z -> Z) (t : Z) (canon isig : bool).
#[local] Abbreviation T := (M (tsys C)).
#[local] Abbreviation E := (@edits C _ t canon isig).
Implicit Types (q : queue).

Lemma edits_wake ch q : E (wake ch) q q.
Proof.
  apply edits_procs. intros p Hp. unfold wakeup, acquire_pt, wakeup1, release_pt. mstep. rewrite Hp. eexists. split; [reflexivity|]. split; reflexivity.
Qed.
Lemma edits_kill_pgrp g sig q : E (onsys (onps (kill_pgrp g sig))) q q.
Proof.
  apply edits_procs. intros p Hp. unfold kill_pgrp, acquire_pt, release_pt. mstep. rewrite Hp. eexists. split; [reflexivity|]. split; reflexivity.
Qed.
Lemma edits_echo c q : E (echo t c) q q.
Proof. apply edits_draws, draws_echo. Qed.
Lemma edits_rub q : E (rub t) q q.
Proof. apply edits_draws, draws_rub. Qed.
Lemma edits_put c q : (qused q < 128)%nat -> E (rmod t (ring_put c)) q (ladd [c] q).
Proof. intros Hq. apply edits_rmod. intros r Hr. rewrite ladd_one by exact Hq. apply ring_put_ok; [exact Hr | exact Hq]. Qed.
Lemma edits_put_echo c q : (qused q < 128)%nat -> E (rmod t (ring_put c);; echo t c) q (ladd [c] q).
Proof. intros Hq. eapply edits_bind; [apply edits_put, Hq | intros []; apply edits_echo]. Qed.
Lemma edits_commit q : E (commit_input input_chan t) q (lcommit q).
Proof.
  eapply edits_bind; [|intros []; apply edits_wake]. apply edits_rmod. intros r Hr. apply ring_commit_ok, Hr.
Qed.
(** The test at the end of a key. *)
Lemma edits_finish (now : tty -> bool) b q :
  (forall x, canonical x = canon -> now x = b) ->
  E (x ← tget t; when (now x || ring_full (input x)) (commit_input input_chan t)) q (lfinish b q).
Proof.
  intros Hn. apply edits_tget. intros x Hc Hs Hr. rewrite (Hn x Hc), (ring_full_bool _ _ _ Hr).
  replace (qused (q.1, q.2)) with (qused q) by (destruct q; reflexivity). unfold lfinish.
  destruct (b || (qused q =? 128)%nat); [apply edits_commit | apply edits_ret].
Qed.

Lemma edits_arrow_loop cs q : E (arrow_loop t cs) q (ladd cs q).
Proof.
  revert q. induction cs as [|c cs IH]; intros q; cbn [arrow_loop].
  - unfold ladd. cbn. rewrite take_nil, app_nil_r. destruct q. apply edits_ret.
  - apply edits_tget. intros x Hc Hs Hr. rewrite ladd_cons. eapply edits_bind; [|intros []; apply IH].
    pose proof (ring_used_bool _ _ _ 128 Hr) as Hu. change (Z.of_nat 128) with INPUT_BUF in Hu.
    destruct (Z.leb_spec INPUT_BUF (ring_used (input x))) as [Hle|Hlt].
    + rewrite (proj2 (Z.ltb_ge _ _) Hle) in Hu. symmetry in Hu. apply Nat.ltb_ge in Hu. rewrite ladd_full by exact Hu. apply edits_ret.
    + apply edits_put_echo. apply Z.ltb_lt in Hlt. rewrite Hlt in Hu. symmetry in Hu. apply Nat.ltb_lt in Hu. exact Hu.
Qed.
Lemma edits_arrow c q : E (key_arrow input_chan t c) q (lfinish (negb canon) (ladd (arrow_seq c) q)).
Proof.
  eapply edits_bind; [apply edits_arrow_loop|]. intros []. apply (edits_finish (fun x => negb (canonical x))). intros x ->. reflexivity.
Qed.

Lemma edits_kill_loop fuel com line : (length line < fuel)%nat -> E (kill_loop fuel t) (com, line) (com, reverse (lkill (reverse line))).
Proof.
  revert line. induction fuel as [|fuel IH]; intros line Hf; [lia|]. cbn [kill_loop]. apply edits_tget. intros x Hc Hs Hr.
  destruct line as [|c l _] using rev_ind.
  - rewrite (proj2 (ring_no_line _ _ _ Hr) eq_refl), Z.eqb_refl. apply edits_ret.
  - destruct (ring_last_byte _ _ _ Hr l c eq_refl) as [Hl _]. rewrite Hl, reverse_snoc. cbn [lkill].
    assert ((in_e (input x) =? in_w (input x)) = false) as ->.
    { apply Z.eqb_neq. intros E. apply (ring_no_line _ _ _ Hr) in E. destruct l; discriminate. }
    destruct (c =? 10); cbn [negb andb].
    + rewrite reverse_cons, reverse_involutive. apply edits_ret.
    + eapply edits_bind; [apply (edits_rmod _ _ _ _ _ (com, l)); intros r Hr'; exact (ring_unput_ok _ _ _ Hr' l c eq_refl)|].
      intros []. eapply edits_bind; [apply edits_rub|]. intros []. apply IH. rewrite length_app in Hf. cbn in Hf. lia.
Qed.
Lemma edits_kill q : E (key_kill t) q (q.1, reverse (lkill (reverse q.2))).
Proof.
  destruct q as [com line]. apply edits_tget. intros x Hc Hs Hr. rewrite (ring_line_length _ _ _ Hr). apply edits_kill_loop. cbn. lia.
Qed.

Lemma edits_signal c sig q : E (key_signal t c sig) q (if isig then ([], []) else q).
Proof.
  apply edits_tget. intros x Hc Hs Hr. change (nz (Z.land (c_lflag (tios x)) ISIG)) with (signals x). rewrite Hs.
  refine (match isig as b return E (when b _) q (if b then _ else q) with true => _ | false => _ end); [|apply edits_ret].
  intros s y Hy. cbn [when]. erewrite bind_step by reflexivity. destruct (ty_grp _ _ _ _ _ _ Hy) as [g Hg].
  rewrite (bind_step _ _ _ _ _ (aget_Ok _ _ t g s (ty_t _ _ _ _ _ _ Hy) Hg)). revert s y Hy Hg. intros s y Hy _. revert s y Hy.
  eapply edits_bind; [|intros []; eapply edits_bind; [apply edits_echo | intros []; apply edits_rmod; intros r Hr'; exact (ring_discard_ok _ _ _ Hr')]].
  destruct (0 <? g); [apply edits_kill_pgrp | apply edits_ret].
Qed.

Lemma edits_erase q : E (key_erase t) q (q.1, removelast q.2).
Proof.
  apply edits_tget. intros x Hc Hs Hr. destruct q as [com line]. cbn [fst snd] in *. destruct line as [|c l _] using rev_ind.
  - rewrite (proj2 (ring_no_line _ _ _ Hr) eq_refl), Z.eqb_refl. apply edits_ret.
  - assert ((in_e (input x) =? in_w (input x)) = false) as ->.
    { apply Z.eqb_neq. intros E. apply (ring_no_line _ _ _ Hr) in E. destruct l; discriminate. }
    rewrite removelast_last. cbn [negb when].
    eapply edits_bind; [apply (edits_rmod _ _ _ _ _ (com, l)); intros r Hr'; exact (ring_unput_ok _ _ _ Hr' l c eq_refl)|].
    intros []. apply edits_tget. intros y _ _ _. destruct (nz _); [|apply edits_ret]. cbn [when].
    eapply edits_bind; [|intros []; apply edits_rub]. destruct (_ <? _); [apply edits_rub | apply edits_ret].
Qed.

Lemma edits_tab_loop k q : (qused q + k <= 128)%nat -> E (tab_loop k t) q (ladd (replicate k 32) q).
Proof.
  revert q. induction k as [|k IH]; intros q Hq; cbn [tab_loop replicate].
  - unfold ladd. cbn. rewrite take_nil, app_nil_r. destruct q. apply edits_ret.
  - rewrite ladd_cons. eapply edits_bind; [apply edits_put; lia|]. intros []. eapply edits_bind; [apply edits_echo|]. intros []. apply IH.
    rewrite qused_ladd. cbn [length]. lia.
Qed.
Lemma edits_tab q : E (key_tab input_chan t) q (if (qused q <? 120)%nat then ladd (replicate 8 32) q else q).
Proof.
  apply edits_tget. intros x Hc Hs Hr. change (INPUT_BUF - 8) with (Z.of_nat 120). rewrite (ring_used_bool _ _ _ 120 Hr). replace (qused (q.1, q.2)) with (qused q) by (destruct q; reflexivity).
  destruct (qused q <? 120)%nat eqn:Eq; [|apply edits_ret]. apply Nat.ltb_lt in Eq. cbn [when].
  eapply edits_bind; [apply edits_tab_loop; lia|]. intros [].
  replace (ladd (replicate 8 32) q) with (lfinish false (ladd (replicate 8 32) q)) at 2.
  - apply (edits_finish (fun _ => false)). reflexivity.
  - unfold lfinish. rewrite qused_ladd, length_replicate. rewrite (proj2 (Nat.eqb_neq _ _)) by lia. reflexivity.
Qed.

Lemma edits_normal c q : E (key_normal input_chan t c) q (lnormal canon c q).
Proof.
  apply edits_tget. intros x Hc Hs Hr. change INPUT_BUF with (Z.of_nat 128). rewrite (ring_used_bool _ _ _ 128 Hr). replace (qused (q.1, q.2)) with (qused q) by (destruct q; reflexivity).
  unfold lnormal. destruct (nz c && (qused q <? 128)%nat) eqn:Eq; [|apply edits_ret]. apply andb_true_iff in Eq as [_ Eq]. apply Nat.ltb_lt in Eq. cbn [when].
  eapply edits_bind; [apply edits_put, Eq|]. intros []. eapply edits_bind; [apply edits_echo|]. intros [].
  apply (edits_finish (fun x => negb (canonical x) || (c =? 10) || (c =? 4))). intros y ->. reflexivity.
Qed.

Lemma edits_key c q : E (tty_key input_chan t c) q (lkey canon isig c q).
Proof.
  unfold tty_key, lkey. destruct (_ && _); [apply edits_arrow|]. destruct (c =? 21); [apply edits_kill|].
  destruct (c =? 3); [apply edits_signal|]. destruct (c =? 26); [apply edits_signal|]. destruct (c =? 28); [apply edits_signal|]. cbn [orb].
  destruct ((c =? 8) || (c =? 127)).
  - apply edits_tget. intros x Hc Hs Hr. change (nz (Z.land (c_lflag (tios x)) ICANON)) with (canonical x). rewrite Hc.
    refine (match canon as b return E (if b then key_erase t else key_normal input_chan t c) q (if b then (q.1, removelast q.2) else lnormal canon c q) with true => _ | false => _ end); [apply edits_erase | apply edits_normal].
  - destruct (c =? 9); [apply edits_tab | apply edits_normal].
Qed.
End keys.

(** ** Readers *)

(** How ttyread ends when the list reader has taken [bs]. *)
Definition read_result (p : proc) (target n : Z) (got bs : list Z) (done : bool) : tread :=
  if done then TDone (target - n + Z.of_nat (length bs)) (got ++ bs)
  else if nz (killed p) || nz (sigpending p) then TDone (- EINTR) (got ++ bs)
  else TSleep (n - Z.of_nat (length bs)) (got ++ bs).

Section readers.
Context {C : Type} `{BufCache C}.
Implicit Types (s : tsys C).

(** Terminal [t] of [s] replaced. *)
Definition with_tty s (t : Z) (x : tty) : tsys C := s <| ttab := <[Z.to_nat t := x]> (ttab s) |>.

Context (s : tsys C) (t : Z) (x : tty) (p : proc).
Context (Ht : 0 <= t) (Hx : ttab s !! Z.to_nat t = Some x) (Hp : curproc (tk s) = Ok p (tk s)).

Lemma with_tty_get y : tget t (with_tty s t y) = Ok y (with_tty s t y).
Proof. apply tget_run; [exact Ht|]. apply list_lookup_insert_eq. eapply lookup_lt_Some. exact Hx. Qed.
Lemma with_tty_mod f y : tmod t f (with_tty s t y) = Ok tt (with_tty s t (f y)).
Proof.
  rewrite (tmod_run t f y _ Ht) by (apply list_lookup_insert_eq; eapply lookup_lt_Some; exact Hx).
  f_equal. unfold with_tty. cbn. rewrite list_insert_insert_eq. reflexivity.
Qed.
Lemma with_tty_cur y : onsys curproc (with_tty s t y) = Ok p (with_tty s t y).
Proof. unfold onsys. change (tk (with_tty s t y)) with (tk s). rewrite Hp. reflexivity. Qed.
(** The end of a read. *)
Lemma with_tty_release {A} (a : A) y : tlocked y = true -> (release_tty t;; mret a) (with_tty s t y) = Ok a (with_tty s t (y <| tlocked := false |>)).
Proof. intros Hy. unfold release_tty. rewrite bind_assoc, (bind_step _ _ _ _ _ (with_tty_get y)), Hy, (bind_step _ _ _ _ _ (with_tty_mod _ y)). reflexivity. Qed.

Lemma read_chars_run fuel target n got r com line :
  ring_ok r com line -> (Z.to_nat n < fuel)%nat -> 0 <= n <= target ->
  let '(bs, done, rest) := lread (negb (n <? target)) (Z.to_nat n) com in
  exists r', ring_ok r' rest line /\
    read_chars fuel t target n got (with_tty s t (x <| input := r |> <| tlocked := true |>))
    = Ok (read_result p target n got bs done) (with_tty s t (x <| input := r' |> <| tlocked := false |>)).
Proof.
  revert n got r com. induction fuel as [|fuel IH]; intros n got r com Hr Hf Hn; [lia|]. cbn [read_chars].
  destruct (Z.ltb_spec 0 n) as [Hpos|Hz].
  2: { replace (Z.to_nat n) with 0%nat by lia. cbn [lread]. exists r. split; [exact Hr|]. rewrite with_tty_release by reflexivity.
       unfold read_result. cbn [length]. rewrite app_nil_r, Z.add_0_r. reflexivity. }
  rewrite (bind_step _ _ _ _ _ (with_tty_get _)). replace (Z.to_nat n) with (S (Z.to_nat (n - 1))) by lia. cbn [lread input].
  change (input (x <| input := r |> <| tlocked := true |>)) with r. destruct com as [|c com].
  - rewrite (proj2 (ring_no_bytes _ _ _ Hr) eq_refl), Z.eqb_refl. exists r. split; [exact Hr|]. rewrite (bind_step _ _ _ _ _ (with_tty_cur _)).
    unfold read_result. cbn [length]. rewrite app_nil_r, Z.sub_0_r. destruct (nz (killed p) || nz (sigpending p)); rewrite with_tty_release by reflexivity; reflexivity.
  - destruct (ring_take_ok _ _ _ Hr c com eq_refl) as [Ec Hr'].
    assert ((in_r r =? in_w r) = false) as ->. { apply Z.eqb_neq. intros E. apply (ring_no_bytes _ _ _ Hr) in E. discriminate. }
    rewrite Ec. destruct (c =? 4).
    + destruct (n <? target); cbn [negb when].
      * exists r. split; [exact Hr|]. erewrite bind_step by reflexivity. rewrite with_tty_release by reflexivity.
        unfold read_result. cbn [length]. rewrite app_nil_r, Z.add_0_r. reflexivity.
      * exists (ring_take r). split; [exact Hr'|]. unfold rmod. rewrite (bind_step _ _ _ _ _ (with_tty_mod _ _)). rewrite with_tty_release by reflexivity.
        unfold read_result. cbn [length]. rewrite app_nil_r, Z.add_0_r. reflexivity.
    + unfold rmod. rewrite (bind_step _ _ _ _ _ (with_tty_mod _ _)). destruct (c =? 10).
      * exists (ring_take r). split; [exact Hr'|]. rewrite with_tty_release by reflexivity. unfold read_result. cbn [length].
        replace (target - (n - 1)) with (target - n + 1) by lia. reflexivity.
      * specialize (IH (n - 1) (got ++ [c]) (ring_take r) com Hr' ltac:(lia) ltac:(lia)).
        rewrite (proj2 (Z.ltb_lt (n - 1) target)) in IH by lia. cbn [negb] in IH. destruct (lread false (Z.to_nat (n - 1)) com) as [[bs done] rest].
        destruct IH as (r' & Hr2 & E). exists r'. split; [exact Hr2|]. etransitivity; [exact E|]. unfold read_result. rewrite <-app_assoc. cbn [app length].
        destruct done; [do 2 f_equal; lia|]. destruct (_ || _); [reflexivity | do 2 f_equal; lia].
Qed.

Lemma acquire_tty_run : tlocked x = false -> acquire_tty t s = Ok tt (with_tty s t (x <| tlocked := true |>)).
Proof.
  intros Hl. unfold acquire_tty. rewrite (bind_step _ _ _ _ _ (tget_run t x s Ht Hx)), Hl. exact (tmod_run t _ x s Ht Hx).
Qed.
End readers.
