(* ===== verification/Console.v ===== *)
(** * The console (src/drivers/char/console.c, src/drivers/char/tty_aux.c,
      src/drivers/serial/uart.c, src/kernel/lib/print.c)

    The dumb console, which owns the screen while [active_tty] is -1, the serial
    line, and the kernel's formatted output, over the state of Tty.v.  The wait
    of uart_putc for the transmitter changes no state and is left out. *)
From Stdlib Require Import ZArith Lia.
From stdpp Require Import base numbers list gmap strings.
From S2P Require Import Prelude KString Locks Kalloc Vm Pipe Proc Syscall Block Log Fs Signal File SysFd SysDir Tty.
Local Open Scope Z_scope.

Definition COM1 : Z := 1016.
Definition current_color : Z := 0x0700.

Section console.
Context {C : Type} `{BufCache C}.
Context (inb : Z -> list (Z * Z) -> Z) (cons_chan : Z).
#[local] Abbreviation T := (M (tsys C)).

Definition inp (port : Z) : T Z := s ← get; mret (inb port (ports s)).
Definition outs (port : Z) (l : list Z) : T unit := foldr (fun v m => outb port v;; m) (mret tt) l.

(** ** The serial line *)

Definition uart_putc (c : Z) : T unit :=
  s ← get;
  if negb (uart s) then mret tt
  else if c =? 0 then mret tt
  else if (c =? 0x100) || (c =? 8) || (c =? 127) then outs COM1 [8; 32; 8]
  else if c =? 10 then outs COM1 [13; 10]
  else if c =? 9 then outs COM1 (replicate 8 32)
  else outb COM1 (Z.land c 255).

Definition uart_getchar : T Z :=
  s ← get;
  if negb (uart s) then mret (-1)
  else
    st ← inp (COM1 + 5);
    if negb (nz (Z.land st 1)) then mret (-1) else inp COM1.

Definition uart_init : T unit :=
  outb (COM1 + 2) 0;;
  outb (COM1 + 3) 0x80;; outb COM1 (115200 / 9600);; outb (COM1 + 1) 0;;
  outb (COM1 + 3) 0x03;; outb (COM1 + 4) 0;; outb (COM1 + 1) 0x01;;
  st ← inp (COM1 + 5);
  if st =? 255 then mret tt else modify (fun s => s <| uart := true |>).

Fixpoint uart_write (src : list Z) : T unit :=
  match src with
  | [] => mret tt
  | c :: src' => uart_putc (i8 c);; uart_write src'
  end.

(** ** The screen of the console *)

(** [crt[pos++] = v] *)
Definition crt_next (v : Z) : T unit :=
  s ← get; set_crt (cpos s) v;; modify (fun s => s <| cpos := i32 (cpos s + 1) |>).
Definition crt_scroll : T unit :=
  modify (fun s => s <| cpos := i32 (cpos s - 80) |>);;
  s ← get;
  if (cpos s <? 0) || (SCREEN <? cpos s) then fault "crt"
  else modify (fun s => s <| crt := scroll_cells (crt s) (cpos s) |>).
Definition crt_scroll_at_end : T unit := s ← get; when (25 <=? Z.quot (cpos s) 80) crt_scroll.
Fixpoint crt_spaces (k : nat) : T unit :=
  match k with
  | O => mret tt
  | S k' => crt_next (Z.lor 32 current_color);; crt_scroll_at_end;; crt_spaces k'
  end.

Definition cgaputc (c : Z) : T unit :=
  outb CRTPORT 14;;
  hi ← inp (CRTPORT + 1);
  outb CRTPORT 15;;
  lo ← inp (CRTPORT + 1);
  modify (fun s => s <| cpos := Z.lor (Z.shiftl hi 8) lo |>);;
  s ← get;
  (if c =? 10 then modify (fun s => s <| cpos := i32 (cpos s + (80 - Z.rem (cpos s) 80)) |>)
   else if c =? 13 then modify (fun s => s <| cpos := i32 (cpos s - Z.rem (cpos s) 80) |>)
   else if c =? BACKSPACE then when (0 <? cpos s) (modify (fun s => s <| cpos := cpos s - 1 |>))
   else if c =? 9 then crt_spaces (Z.to_nat (8 - Z.rem (cpos s) 8))
   else if c =? 0 then mret tt
   else if Z.land c 255 <? 32 then
     crt_next (Z.lor 94 current_color);; crt_next (Z.lor (Z.land c 255 + 64) current_color)
   else crt_next (Z.lor (Z.land c 255) current_color));;
  crt_scroll_at_end;;
  s ← get;
  outb CRTPORT 14;; outb (CRTPORT + 1) (Z.shiftr (cpos s) 8);;
  outb CRTPORT 15;; outb (CRTPORT + 1) (cpos s);;
  when (negb (c =? 13)) (set_crt (cpos s) (Z.lor 32 0x0700)).

(** After a panic the console hangs. *)
Definition console_putc (c : Z) : T unit :=
  s ← get;
  if panicked s then panic "panicked"
  else
    (if c =? 9 then foldr (fun v m => uart_putc v;; m) (mret tt) (replicate 8 32)
     else if c =? BACKSPACE then uart_putc 8;; uart_putc 32;; uart_putc 8
     else uart_putc c);;
    if uart_debug s then mret tt else tty_putc (active_tty s) c.

(** ** Input of the console *)

Definition acquire_cons : T unit :=
  s ← get; if conslocked s then panic "acquire" else put (s <| conslocked := true |>).
Definition release_cons : T unit :=
  s ← get; if conslocked s then put (s <| conslocked := false |>) else panic "release".
Definition cmod (f : ring -> ring) : T unit := modify (fun s => s <| cinput := f (cinput s) |>).
Definition ccommit : T unit := cmod ring_commit;; wake cons_chan.

Fixpoint ckill_loop (fuel : nat) : T unit :=
  match fuel with
  | O => fault "kill line"
  | S fuel' =>
      s ← get;
      let r := cinput s in
      if negb (in_e r =? in_w r) && negb (ring_byte r (u32 (in_e r - 1)) =? 10) then
        cmod ring_unput;; cgaputc BACKSPACE;; ckill_loop fuel'
      else mret tt
  end.
Fixpoint ctab_loop (k : nat) : T unit :=
  match k with O => mret tt | S k' => cmod (ring_put 32);; cgaputc 32;; ctab_loop k' end.

Definition console_key (c : Z) : T unit :=
  s ← get;
  let r := cinput s in
  if c =? 21 then ckill_loop (Z.to_nat (u32 (in_e r - in_w r)) + 1)
  else if (c =? 8) || (c =? 127) then
    when (negb (in_e r =? in_w r))
      (cmod ring_unput;;
       s ← get;
       when (Z.land (ring_byte (cinput s) (in_e (cinput s))) 255 <? 32) (cgaputc BACKSPACE);;
       cgaputc BACKSPACE)
  else if c =? 9 then
    when (ring_used r <? INPUT_BUF - 8)
      (ctab_loop 8;; s ← get; when (ring_full (cinput s)) ccommit)
  else
    when (nz c && (ring_used r <? INPUT_BUF))
      (let c := if c =? 13 then 10 else c in
       cmod (ring_put c);;
       cgaputc c;;
       s ← get;
       when ((c =? 10) || (c =? 4) || ring_full (cinput s)) ccommit).

Fixpoint console_loop (fuel : nat) (getc : T Z) : T unit :=
  match fuel with
  | O => fault "getc"
  | S fuel' => c ← getc; if 0 <=? c then console_key c;; console_loop fuel' getc else mret tt
  end.
Definition console_interrupt (fuel : nat) (getc : T Z) : T unit :=
  acquire_cons;;
  s ← get;
  (if active_tty s =? -1 then console_loop fuel getc else mret tt);;
  release_cons.
Definition uart_interrupt (fuel : nat) : T unit := console_interrupt fuel uart_getchar.

(** ** The device *)

(** With another terminal active the loop of consoleread never ends.  A reader
    that sleeps has the inode unlocked and [n] bytes still to read. *)
Fixpoint cread_loop (fuel : nat) (ip : nat) (target n : Z) (got : list Z) : T tread :=
  match fuel with
  | O => fault "consoleread"
  | S fuel' =>
      let done (r : Z) (bs : list Z) := release_cons;; onsys (onfs (ilock (Some ip)));; mret (TDone r bs) in
      if 0 <? n then
        s ← get;
        if negb (active_tty s =? -1) then fault "consoleread"
        else
          let r := cinput s in
          if in_r r =? in_w r then
            p ← onsys curproc;
            if nz (killed p) then done (-1) got else release_cons;; mret (TSleep n got)
          else
            let c := ring_byte r (in_r r) in
            if c =? 4 then when (negb (u32 n <? u32 target)) (cmod ring_take);; done (target - n) got
            else
              cmod ring_take;;
              if c =? 10 then done (target - (n - 1)) (got ++ [c])
              else cread_loop fuel' ip target (n - 1) (got ++ [c])
      else done (target - n) got
  end.
Definition consoleread (ip : nat) (n : Z) : T tread :=
  onsys (onfs (iunlock (Some ip)));; acquire_cons;; cread_loop (Z.to_nat n + 1) ip n n [].

Fixpoint cwrite_loop (src : list Z) : T unit :=
  match src with
  | [] => mret tt
  | c :: src' => s ← get; when (active_tty s =? -1) (cgaputc (Z.land c 255));; cwrite_loop src'
  end.
Definition consolewrite (ip : nat) (buf : list Z) (n : Z) : T Z :=
  onsys (onfs (iunlock (Some ip)));;
  acquire_cons;;
  cwrite_loop (take (Z.to_nat n) buf);;
  release_cons;;
  onsys (onfs (ilock (Some ip)));;
  mret n.

Definition console_init : T unit :=
  modify (fun s => s <| conslocked := false |> <| locking := true |>);;
  cursor_shape inb 104.

Definition ttyauxwrite (minor : Z) (ip : nat) (src : list Z) (n : Z) : T Z :=
  if minor =? 1 then consolewrite ip src n else mret (- ENXIO).
Definition ttyauxread (minor : Z) (ip : nat) (n : Z) : T tread :=
  if minor =? 1 then consoleread ip n else mret (TDone (- ENXIO) []).

(** ** Formatted output *)

(** An argument: an int, or a string pointer, which may be null. *)
Inductive parg : Type := PInt (z : Z) | PStr (s : option (list Z)).

(** The characters of a string conversion, padded on the left. *)
Definition pad_text (pad0 : bool) (pad : Z) (p : list Z) : list Z :=
  replicate (Z.to_nat (pad - Z.of_nat (length p))) (if pad0 then 48 else 32) ++ map i8 p.

(** What follows a percent sign: the zero flag, the width, the conversion and the
    rest of the format; [None] past the end of the format. *)
Definition directive (f : list Z) : option (bool * Z * Z * list Z) :=
  let '(pad0, f) := match f with 48 :: f' => (true, f') | _ => (false, f) end in
  match f with
  | c :: f' =>
      if (48 <=? c) && (c <=? 57) then
        match f' with c' :: f'' => Some (pad0, c - 48, c', f'') | [] => None end
      else Some (pad0, 0, c, f')
  | [] => None
  end.

(** The text of one conversion; the buffer of itoa ends in a NUL. *)
Definition convert (pad0 : bool) (pad c : Z) (a : parg) : option (list Z) :=
  if (c =? 100) || (c =? 117) || (c =? 120) then
    match a with PInt z => Some (pad_text pad0 pad (removelast (itoa c z))) | PStr _ => None end
  else if c =? 115 then
    match a with PStr s => Some (pad_text pad0 pad (default [40; 110; 117; 108; 108; 41] s)) | PInt _ => None end
  else match a with PInt z => Some [z] | PStr _ => None end.

(** The characters printf prints; [None] when the format or the arguments run
    out, or an argument has the wrong type, which C leaves undefined. *)
Fixpoint format_text (fuel : nat) (fmt : list Z) (args : list parg) : option (list Z) :=
  match fuel with
  | O => None
  | S fuel' =>
      match fmt with
      | [] => Some []
      | c :: f =>
          if negb (c =? 37) then cons (i8 c) <$> format_text fuel' f args
          else
            '(pad0, pad, c, f') ← directive f;
            '(a, args') ← head args ≫= (fun a => Some (a, tail args));
            t ← convert pad0 pad c a;
            app t <$> format_text fuel' f' args'
      end
  end.

(** printf and vprintf differ in how they fetch their arguments only. *)
Definition vprintf (fmt : list Z) (args : list parg) : T unit :=
  match format_text (S (length fmt)) fmt args with
  | Some l => foldr (fun c m => console_putc c;; m) (mret tt) l
  | None => fault "format"
  end.

(** ["[ "], ["%4u.%06u"], ["] "], ["%s: "] *)
Definition stamp_format : list Z := [37; 52; 117; 46; 37; 48; 54; 117].
Definition _printk (us : Z) (func fmt : list Z) (args : list parg) : T unit :=
  s ← get;
  let locking := locking s in
  when locking acquire_cons;;
  tty_sgr (active_tty s) 0x0200;;
  vprintf [91; 32] [];;
  vprintf stamp_format [PInt (us / 1000000); PInt (us mod 1000000)];;
  vprintf [93; 32] [];;
  tty_sgr (active_tty s) 0x0600;;
  vprintf [37; 115; 58; 32] [PStr (Some func)];;
  tty_sgr (active_tty s) 0x0F00;;
  vprintf fmt args;;
  tty_sgr (active_tty s) 0x0700;;
  when locking release_cons.
End console.
