(* ===== verification/Printf.v ===== *)
(** * printf (src/kernel/lib/print.c)

    printf as written: it prints as it reads the format, and its arguments are the
    words above [format] on the stack.  Console.v computes the text of a format first
    (vprintf there); the theorem says the two print the same. *)
From Stdlib Require Import ZArith Lia.
From stdpp Require Import base numbers list gmap strings.
From S2P Require Import Prelude KString Block Tty Console.
Local Open Scope Z_scope.

Section printf.
Context {C : Type}.
#[local] Abbreviation T := (M (tsys C)).

Fixpoint put_chars (l : list Z) : T unit :=
  match l with [] => mret tt | c :: l' => console_putc c;; put_chars l' end.

(** [for (; p2 < p + pad; p2++) console_putc(pad0 ? '0' : ' ');] *)
Fixpoint put_pad (n : nat) (pad0 : bool) : T unit :=
  match n with O => mret tt | S n' => console_putc (if pad0 then 48 else 32);; put_pad n' pad0 end.

(** The code at the label [string]. *)
Definition put_string (pad0 : bool) (pad : Z) (p : list Z) : T unit :=
  put_pad (Z.to_nat (pad - Z.of_nat (length p))) pad0;; put_chars (map i8 p).

Fixpoint printf_loop (fuel : nat) (format : list Z) (arg : list parg) : T unit :=
  match fuel with
  | O => fault "format"
  | S fuel' =>
      match format with
      | [] => mret tt
      | c :: f =>
          if negb (c =? 37) then console_putc (i8 c);; printf_loop fuel' f arg
          else
            match directive f with
            | None => fault "format"
            | Some (pad0, pad, c, f') =>
                match arg with
                | [] => fault "arg"
                | a :: arg' =>
                    (if (c =? 100) || (c =? 117) || (c =? 120) then
                       match a with PInt z => put_string pad0 pad (removelast (itoa c z)) | PStr _ => fault "arg" end
                     else if c =? 115 then
                       match a with
                       | PStr (Some p) => put_string pad0 pad p
                       | PStr None => put_string pad0 pad [40; 110; 117; 108; 108; 41]
                       | PInt _ => fault "arg"
                       end
                     else match a with PInt z => console_putc z | PStr _ => fault "arg" end);;
                    printf_loop fuel' f' arg'
                end
            end
      end
  end.
Definition printf (format : list Z) (arg : list parg) : T unit := printf_loop (S (length format)) format arg.

(** Printing a text, and one text after another. *)
Definition say (l : list Z) : T unit := foldr (fun c m => console_putc c;; m) (mret tt) l.

Lemma bind_ext {A B} (m m' : T A) (k k' : A -> T B) s :
  m s = m' s -> (forall a s', k a s' = k' a s') -> (m ≫= k) s = (m' ≫= k') s.
Proof. intros E Hk. unfold mbind, M_bind. rewrite E. destruct (m' s); try reflexivity. apply Hk. Qed.

Lemma say_app l1 l2 s : say (l1 ++ l2) s = (say l1;; say l2) s.
Proof.
  revert s. induction l1 as [|c l1 IH]; intros s; [reflexivity|]. cbn [app say foldr]. fold (say (l1 ++ l2)) (say l1).
  rewrite bind_assoc. apply bind_ext; [reflexivity | intros [] s'; apply IH].
Qed.

Lemma put_chars_say l s : put_chars l s = say l s.
Proof.
  revert s. induction l as [|c l IH]; intros s; [reflexivity|]. cbn [put_chars say foldr]. fold (say l).
  apply bind_ext; [reflexivity | intros [] s'; apply IH].
Qed.

Lemma put_pad_say n pad0 s : put_pad n pad0 s = say (replicate n (if pad0 then 48 else 32)) s.
Proof.
  revert s. induction n as [|n IH]; intros s; [reflexivity|]. cbn [put_pad replicate say foldr]. fold (say (replicate n (if pad0 then 48 else 32))).
  apply bind_ext; [reflexivity | intros [] s'; apply IH].
Qed.

Lemma put_string_say pad0 pad p s : put_string pad0 pad p s = say (pad_text pad0 pad p) s.
Proof.
  unfold put_string, pad_text. rewrite say_app. apply bind_ext; [apply put_pad_say | intros [] s'; apply put_chars_say].
Qed.

Lemma printf_loop_say fuel : forall format arg l s,
  format_text fuel format arg = Some l -> printf_loop fuel format arg s = say l s.
Proof.
  induction fuel as [|fuel IH]; intros format arg l s E; [discriminate|]. cbn [format_text printf_loop] in *.
  destruct format as [|c f]; [injection E as <-; reflexivity|]. destruct (negb (c =? 37)).
  - apply fmap_Some in E as (t & Et & ->). cbn [say foldr]. fold (say t). apply bind_ext; [reflexivity | intros [] s'; apply IH, Et].
  - destruct (directive f) as [[[[pad0 pad] c'] f']|]; [|discriminate]. cbn [mbind option_bind] in E.
    destruct arg as [|a arg']; [discriminate|]. cbn [head tail mbind option_bind] in E.
    destruct (convert pad0 pad c' a) as [t|] eqn:Hc; [|discriminate]. cbn [mbind option_bind] in E.
    apply fmap_Some in E as (t' & Et & ->). rewrite say_app. apply bind_ext; [|intros [] s'; apply IH, Et].
    unfold convert in Hc. destruct ((c' =? 100) || (c' =? 117) || (c' =? 120)).
    + destruct a; [|discriminate]. injection Hc as <-. apply put_string_say.
    + destruct (c' =? 115).
      * destruct a as [|[p|]]; [discriminate | injection Hc as <-; apply put_string_say..].
      * destruct a; [|discriminate]. injection Hc as <-. symmetry. cbn [say foldr].
        unfold mbind, M_bind. destruct (console_putc z s) as [[] | | |]; reflexivity.
Qed.

(** printf, which prints as it goes, prints what vprintf does, for every format
    whose conversions have arguments of their types. *)
Theorem printf_vprintf format arg l s :
  format_text (S (length format)) format arg = Some l -> printf format arg s = vprintf format arg s.
Proof. intros E. unfold printf, vprintf. rewrite E. apply printf_loop_say, E. Qed.
End printf.
