(* ===== verification/Kbd.v ===== *)
(** * The keyboard (src/drivers/input/keyboard/kbd.c, src/include/kbd.h, ctrl_alt_del
      of src/kernel/sys/sys.c)

    The decoder of scan codes: a state machine on the modifier keys, and the
    interrupt that feeds the characters to the active terminal or the console.
    One reading of the controller is the two readings of its status port and the
    byte of its data port; the readings to come are [kqueue]. *)
From Stdlib Require Import ZArith Lia.
From stdpp Require Import base numbers list gmap strings.
From S2P Require Import Prelude KString Locks Kalloc Vm Pipe Proc Syscall Block Log Fs Signal File SysFd SysDir Tty Console.
Local Open Scope Z_scope.

Definition SHIFT : Z := 1.
Definition CTL : Z := 2.
Definition ALT : Z := 4.
Definition CAPSLOCK : Z := 8.
Definition NUMLOCK : Z := 16.
Definition SCROLLLOCK : Z := 32.
Definition E0ESC : Z := 64.
Definition KBS_DIB : Z := 1.
Definition KEY_UP : Z := 0xE2.
Definition KEY_DN : Z := 0xE3.
Definition KEY_LF : Z := 0xE4.
Definition KEY_RT : Z := 0xE5.

(** A table of 256 entries: the first ones, and designated others; the rest are 0. *)
Definition table (first : list Z) (others : list (Z * Z)) : list Z :=
  foldr (fun e l => <[Z.to_nat e.1 := e.2]> l) (first ++ replicate (256 - length first) 0) others.

Definition shiftcode : list Z := table [] [(0x1D, CTL); (0x2A, SHIFT); (0x36, SHIFT); (0x38, ALT); (0x9D, CTL); (0xB8, ALT)].
Definition togglecode : list Z := table [] [(0x3A, CAPSLOCK); (0x45, NUMLOCK); (0x46, SCROLLLOCK)].

Definition normalmap : list Z := table
  [0; 27; 49; 50; 51; 52; 53; 54; 55; 56; 57; 48; 45; 61; 8; 9;
   113; 119; 101; 114; 116; 121; 117; 105; 111; 112; 91; 93; 10; 0; 97; 115;
   100; 102; 103; 104; 106; 107; 108; 59; 39; 96; 0; 92; 122; 120; 99; 118;
   98; 110; 109; 44; 46; 47; 0; 42; 0; 32; 0; 0; 0; 0; 0; 0;
   0; 0; 0; 0; 0; 0; 0; 55; 56; 57; 45; 52; 53; 54; 43; 49;
   50; 51; 48; 46; 0; 0; 0; 0]
  [(0x9C, 10); (0xB5, 47); (0xC8, 0xE2); (0xD0, 0xE3); (0xC9, 0xE6); (0xD1, 0xE7); (0xCB, 0xE4); (0xCD, 0xE5); (0x97, 0xE0); (0xCF, 0xE1); (0xD2, 0xE8); (0xD3, 0xE9)].
Definition shiftmap : list Z := table
  [0; 27; 33; 64; 35; 36; 37; 94; 38; 42; 40; 41; 95; 43; 8; 9;
   81; 87; 69; 82; 84; 89; 85; 73; 79; 80; 123; 125; 10; 0; 65; 83;
   68; 70; 71; 72; 74; 75; 76; 58; 34; 126; 0; 124; 90; 88; 67; 86;
   66; 78; 77; 60; 62; 63; 0; 42; 0; 32; 0; 0; 0; 0; 0; 0;
   0; 0; 0; 0; 0; 0; 0; 55; 56; 57; 45; 52; 53; 54; 43; 49;
   50; 51; 48; 46; 0; 0; 0; 0]
  [(0x9C, 10); (0xB5, 47); (0xC8, 0xE2); (0xD0, 0xE3); (0xC9, 0xE6); (0xD1, 0xE7); (0xCB, 0xE4); (0xCD, 0xE5); (0x97, 0xE0); (0xCF, 0xE1); (0xD2, 0xE8); (0xD3, 0xE9)].
Definition ctlmap : list Z := table
  [0; 0; 0; 0; 0; 0; 0; 0; 0; 0; 0; 0; 0; 0; 0; 0;
   17; 23; 5; 18; 20; 25; 21; 9; 15; 16; 0; 0; 13; 0; 1; 19;
   4; 6; 7; 8; 10; 11; 12; 0; 0; 0; 0; 28; 26; 24; 3; 22;
   2; 14; 13; 0; 0; 239; 0; 0]
  [(0x9C, 13); (0xB5, 239); (0xC8, 0xE2); (0xD0, 0xE3); (0xC9, 0xE6); (0xD1, 0xE7); (0xCB, 0xE4); (0xCD, 0xE5); (0x97, 0xE0); (0xCF, 0xE1); (0xD2, 0xE8); (0xD3, 0xE9)].

(** The entry of a table at a byte. *)
Definition code (l : list Z) (data : Z) : Z := default 0 (l !! Z.to_nat data).
(** [charcode[shift & (CTL | SHIFT)]] *)
Definition charcode (k : Z) : list Z := if k =? 0 then normalmap else if k =? 1 then shiftmap else ctlmap.

(** A scan code [data] with the modifiers [sh]: the modifiers after it, the value
    keyboard_getc returns, and whether it calls ctrl_alt_del. *)
Definition kbd_step (sh data : Z) : Z * Z * bool :=
  if data =? 0xE0 then (Z.lor sh E0ESC, 0, false)
  else if nz (Z.land data 0x80) then
    let data := if nz (Z.land sh E0ESC) then data else Z.land data 0x7F in
    (Z.ldiff sh (Z.lor (code shiftcode data) E0ESC), 0, false)
  else
    let esc := nz (Z.land sh E0ESC) in
    let data := if esc then Z.lor data 0x80 else data in
    let sh := if esc then Z.ldiff sh E0ESC else sh in
    let sh := Z.lor sh (code shiftcode data) in
    let cad := nz (Z.land sh CTL) && nz (Z.land sh ALT) && (data =? 0xD3) in
    let sh := Z.lxor sh (code togglecode data) in
    let c := code (charcode (Z.land sh (Z.lor CTL SHIFT))) data in
    let c := if nz (Z.land sh CAPSLOCK) then
               if (97 <=? c) && (c <=? 122) then c + (65 - 97)
               else if (65 <=? c) && (c <=? 90) then c + (97 - 65) else c
             else c in
    let r := if c =? KEY_UP then 0xE100 else if c =? KEY_DN then 0xE101
             else if c =? KEY_LF then 0xE102 else if c =? KEY_RT then 0xE103 else c in
    (sh, r, cad).

Section kbd.
Context {C : Type} `{BufCache C}.
Context (inb : Z -> list (Z * Z) -> Z) (input_chan : Z -> Z) (cons_chan : Z) (C_A_D : bool).
#[local] Abbreviation T := (M (tsys C)).

(** Resetting the machine does not return. *)
Definition ctrl_alt_del : T unit :=
  if C_A_D then panic "hard_reset_now" else onsys (pset (fun p => p <| sigpending := SIGINT |>)).

Definition keyboard_getc : T Z :=
  s ← get;
  match kqueue s with
  | [] => mret (-1)
  | (mouse, st, data) :: q =>
      put (s <| kqueue := q |>);;
      if nz (Z.land mouse 0x20) then mret (-1)
      else if Z.land st KBS_DIB =? 0 then mret (-1)
      else
        let '(sh, c, cad) := kbd_step (shift s) (u8 data) in
        when cad ctrl_alt_del;;
        modify (fun s => s <| shift := sh |>);;
        mret c
  end.

(** Each character takes a reading, so the loop ends. *)
Definition kbd_interrupt : T unit :=
  s ← get;
  let fuel := S (length (kqueue s)) in
  if active_tty s <? 0 then console_interrupt inb cons_chan fuel keyboard_getc
  else tty_interrupt input_chan fuel keyboard_getc.
End kbd.
