(* ===== verification/KbdThm.v ===== *)
(** * From the keyboard to the reader

    What a keyboard interrupt does to the input of the active terminal, what a
    read takes from it, and the modifier keys of the decoder. *)
From Stdlib Require Import ZArith Lia.
From stdpp Require Import base numbers list gmap strings.
From S2P Require Import Prelude KString Locks Kalloc Vm Pipe Proc Syscall Block Log Fs Signal File SysFd SysDir Bio BioThm FdThm FdRefs Tty TtyRing TtyThm TtyLine Console Kbd.
Local Open Scope Z_scope.

(** ** The decoder *)

Lemma code_range l data : forallb (fun c => (0 <=? c) && (c <? 256)) l = true -> in_u 8 (code l data).
Proof.
  intros Hl. unfold code. destruct (l !! Z.to_nat data) as [c|] eqn:E; [|split; [reflexivity | reflexivity]].
  rewrite forallb_forall in Hl. specialize (Hl c (proj1 (list_elem_of_In _ _) (list_elem_of_lookup_2 _ _ _ E))).
  apply andb_true_iff in Hl as [H1 H2]. apply Z.leb_le in H1. apply Z.ltb_lt in H2. split; [exact H1 | exact H2].
Qed.
Lemma charcode_range k data : in_u 8 (code (charcode k) data).
Proof. unfold charcode. destruct (k =? 0); [|destruct (k =? 1)]; apply code_range; vm_compute; reflexivity. Qed.
Lemma kbd_step_nonneg sh data : 0 <= (kbd_step sh data).1.2.
Proof.
  unfold kbd_step. destruct (data =? 0xE0); [reflexivity|]. destruct (nz (Z.land data 128)); [reflexivity|]. cbn [fst snd].
  set (sh2 := Z.lxor _ _). set (d := if nz (Z.land sh E0ESC) then _ else _).
  pose proof (charcode_range (Z.land sh2 (Z.lor CTL SHIFT)) d) as [H1 _].
  set (c := code (charcode _) d) in *. clearbody c sh2 d.
  set (c2 := if nz (Z.land sh2 CAPSLOCK) then _ else c). assert (0 <= c2) as H2.
  { unfold c2. destruct (nz _); [|exact H1]. destruct ((97 <=? c) && (c <=? 122)) eqn:E1.
    - apply andb_true_iff in E1 as [E1 _]. apply Z.leb_le in E1. lia.
    - destruct ((65 <=? c) && (c <=? 90)); lia. }
  clearbody c2. repeat (destruct (c2 =? _); [lia|]). exact H2.
Qed.

(** The characters a run of readings gives, up to the first call that finds none,
    with the modifiers after them and the readings left; [None] when Ctrl-Alt-Del
    is among them. *)
Fixpoint kbd_keys (sh : Z) (rd : list (Z * Z * Z)) : option (list Z * Z * list (Z * Z * Z)) :=
  match rd with
  | [] => Some ([], sh, [])
  | (mouse, st, data) :: rd' =>
      if nz (Z.land mouse 0x20) || (Z.land st KBS_DIB =? 0) then Some ([], sh, rd')
      else
        let '(sh', c, cad) := kbd_step sh (u8 data) in
        if cad then None
        else match kbd_keys sh' rd' with Some (cs, sh2, rest) => Some (c :: cs, sh2, rest) | None => None end
  end.

Section kbd_thm.
Context {C : Type} `{BufCache C}.
Context (inb : Z -> list (Z * Z) -> Z) (input_chan : Z -> Z) (cons_chan : Z) (C_A_D : bool).
Implicit Types (s : tsys C).

Lemma typed_keyboard t canon isig q s x sh rd : typed t canon isig q s x -> typed t canon isig q (s <| kqueue := rd |> <| shift := sh |>) x.
Proof. intros [H1 H2 H3 H4 H5 H6 H7]. split; assumption. Qed.

(** What a keyboard interrupt may end in. *)
Definition keys_typed t canon isig q (cs : list Z) sh rest (o : outcome (tsys C) unit) : Prop :=
  match o with
  | Ok _ s' => (exists x', typed t canon isig (foldl (fun q c => lkey canon isig c q) q cs) s' x') /\ shift s' = sh /\ kqueue s' = rest
  | Fault w => w ∈ ["screen"; "crt"; "ansi_params"]
  | _ => False
  end.

Lemma interrupt_loop_keys fuel t canon isig q s x cs sh rest :
  typed t canon isig q s x -> kbd_keys (shift s) (kqueue s) = Some (cs, sh, rest) -> (length (kqueue s) < fuel)%nat ->
  keys_typed t canon isig q cs sh rest (interrupt_loop input_chan fuel (keyboard_getc C_A_D) t s).
Proof.
  revert q s x cs. induction fuel as [|fuel IH]; intros q s x cs Hx Hk Hf; [lia|]. cbn [interrupt_loop]. unfold keyboard_getc at 2.
  rewrite bind_assoc. erewrite bind_step by reflexivity. destruct (kqueue s) as [|[[mouse st] data] rd] eqn:Eq.
  - cbn in Hk. injection Hk as <- <- <-. rewrite bind_ret_l. cbn. split; [exists x; exact Hx | auto].
  - rewrite bind_assoc. erewrite bind_step by reflexivity. cbn [kbd_keys] in Hk.
    destruct (nz (Z.land mouse 32)) eqn:Em; cbn [orb] in Hk.
    { injection Hk as <- <- <-. rewrite bind_ret_l. cbn. split; [exists x; exact (typed_keyboard _ _ _ _ _ _ (shift s) rd Hx) | auto]. }
    destruct (Z.land st KBS_DIB =? 0).
    { injection Hk as <- <- <-. rewrite bind_ret_l. cbn. split; [exists x; exact (typed_keyboard _ _ _ _ _ _ (shift s) rd Hx) | auto]. }
    pose proof (kbd_step_nonneg (shift s) (u8 data)) as Hc. destruct (kbd_step (shift s) (u8 data)) as [[sh' c] cad] eqn:Es. cbn in Hc.
    destruct cad; [discriminate|]. destruct (kbd_keys sh' rd) as [[[cs' sh2] rest']|] eqn:Ek; [|discriminate]. injection Hk as <- <- <-.
    cbn [when]. rewrite bind_assoc. erewrite bind_step by reflexivity. rewrite bind_assoc. erewrite bind_step by reflexivity. rewrite bind_ret_l.
    rewrite (proj2 (Z.leb_le 0 c) Hc). set (s1 := s <| kqueue := rd |> <| shift := sh' |>).
    pose proof (edits_key input_chan t canon isig c q s1 x (typed_keyboard _ _ _ _ _ _ sh' rd Hx)) as He.
    unfold mbind, M_bind. fold s1. destruct (tty_key input_chan t c s1) as [[] s2|w|w|ch s2]; try exact He.
    destruct He as (K & x2 & Hx2). pose proof (ke_state _ _ _ K) as Ke. injection Ke as _ _ _ _ _ _ _ _ Ksh Kq.
    refine (IH (lkey canon isig c q) s2 x2 cs' Hx2 _ _); [rewrite Ksh, Kq; exact Ek | rewrite Kq; cbn in *; lia].
Qed.

(** C19. A keyboard interrupt types the decoded characters, in order, into the input of
    the active terminal as the line discipline on lists does, in either mode and
    whatever the echo, updates the modifier keys, and leaves the readings it has
    not taken; the only other outcome is output running off the screen.  (Without
    Ctrl-Alt-Del among the keys, which resets the machine.) *)
Theorem keyboard_input_correct t canon isig q s x cs sh rest :
  typed t canon isig q s x -> active_tty s = t -> t < NTTYS -> kbd_keys (shift s) (kqueue s) = Some (cs, sh, rest) ->
  keys_typed t canon isig q cs sh rest (kbd_interrupt inb input_chan cons_chan C_A_D s).
Proof.
  intros Hx Ha Ht Hk. pose proof (ty_t _ _ _ _ _ _ Hx) as H0. unfold kbd_interrupt. erewrite bind_step by reflexivity. rewrite Ha.
  rewrite (proj2 (Z.ltb_ge t 0)) by lia. unfold tty_interrupt. erewrite bind_step by reflexivity. rewrite Ha.
  rewrite (proj2 (Z.ltb_ge t 0)), (proj2 (Z.leb_gt NTTYS t)) by lia. cbn [orb].
  exact (interrupt_loop_keys _ _ _ _ _ _ _ _ _ _ Hx Hk (Nat.lt_succ_diag_r _)).
Qed.
End kbd_thm.

Section ttyread_thm.
Context {C : Type} `{BufCache C}.
Implicit Types (s : tsys C).

Lemma tty_target_run s minor t p :
  curproc (tk s) = Ok p (tk s) -> (minor = 0 /\ Proc.tty p = t /\ 0 <= t \/ minor = t /\ 1 <= t < NTTYS - 1) ->
  tty_target minor s = Ok (Some t) s.
Proof.
  intros Hp Hm. unfold tty_target. assert (onsys curproc s = Ok p s) as E by (unfold onsys; rewrite Hp; destruct s; reflexivity).
  rewrite (bind_step _ _ _ _ _ E). destruct Hm as [(-> & <- & H0) | (-> & H0)].
  - rewrite Z.eqb_refl, (proj2 (Z.ltb_ge _ _) H0). reflexivity.
  - rewrite (proj2 (Z.eqb_neq t 0)), (proj2 (Z.leb_le 1 t)), (proj2 (Z.ltb_lt _ _)) by lia. reflexivity.
Qed.

(** C20. A read of a terminal, by its own device or as /dev/tty, takes what the reader
    on lists takes: a line, [n] bytes, or the bytes before an end-of-file
    character; when the input runs out first it sleeps with the bytes it has, or
    returns -EINTR if the process has a signal pending or is killed.  The rest of
    the input and the line being edited stay, and the lock is free again. *)
Theorem ttyread_correct minor n t canon isig com line s x i p :
  typed t canon isig (com, line) s x -> tlocked x = false -> cur (kps (tk s)) = Some i -> Proc.ptable (kps (tk s)) !! i = Some p ->
  (minor = 0 /\ Proc.tty p = t \/ minor = t /\ 1 <= t < NTTYS - 1) -> 0 <= n ->
  let '(bs, done, rest) := lread true (Z.to_nat n) com in
  exists s' x', ttyread minor n s = Ok (read_result p n n [] bs done) s'
    /\ typed t canon isig (rest, line) s' x' /\ tlocked x' = false /\ tk s' = tk s
    /\ (forall j, j <> Z.to_nat t -> ttab s' !! j = ttab s !! j).
Proof.
  intros Hx Hl Hc Hp Hm Hn. pose proof (curproc_run (tk s) i p Hc Hp) as Er. pose proof Hx as [H0 Hxx Hg Hcn Hs Hr Hk].
  unfold ttyread. rewrite (bind_step _ _ _ _ _ (tty_target_run s minor t p Er ltac:(tauto))).
  rewrite (bind_step _ _ _ _ _ (acquire_tty_run s t x H0 Hxx Hl)).
  pose proof (read_chars_run s t x p H0 Hxx Er (Z.to_nat n + 1) n n [] (input x) com line Hr ltac:(lia) ltac:(lia)) as Hrun.
  rewrite Z.ltb_irrefl in Hrun. cbn [negb] in Hrun. destruct (lread true (Z.to_nat n) com) as [[bs done] rest]. destruct Hrun as (r' & Hr' & E).
  set (x2 := x <| input := r' |> <| tlocked := false |>) in *. exists (with_tty s t x2), x2. split.
  { etransitivity; [|exact E]. destruct x. reflexivity. }
  split; [|split; [reflexivity|]; split; [reflexivity|]].
  - split; try assumption. apply list_lookup_insert_eq. eapply lookup_lt_Some. exact Hxx.
  - intros j Hj. apply list_lookup_insert_ne. congruence.
Qed.
End ttyread_thm.

(** ** A concrete run

    Terminal 1 is active with nothing typed; the keys h, i, return are pressed
    and released, and the running process reads ten bytes. *)
Definition tty_proc : proc := fd_proc 0 <| Proc.tty := 1 |>.
Definition tty_sys (rd : list (Z * Z * Z)) : tsys bstate :=
  Tsys (fd_sys <| kps := kps fd_sys <| Proc.ptable := <[0%nat := tty_proc]> (Proc.ptable (kps fd_sys)) |> |>)
    (map (fun i => tty_zero (Z.of_nat i)) (seq 0 64)) 1 (replicate (Z.to_nat 16384) 0x0720) 0 []
    (Ring (replicate 128 0) 0 0 0) false true false false false 0 rd.
Definition hi_codes : list (Z * Z * Z) := map (fun d => (1, 1, d)) [0x23; 0xA3; 0x17; 0x97; 0x1C; 0x9C].

Lemma tty_sys_typed rd : typed 1 true true ([], []) (tty_sys rd) (tty_zero 1).
Proof.
  split; try reflexivity; try (eexists; reflexivity); try lia.
  split; try reflexivity; try (cbn; lia); [split; [reflexivity | reflexivity] | intros i c Hi; discriminate].
Qed.

Lemma keyboard_input_correct_witness :
  keys_typed 1 true true ([], []) [104; 0; 105; 0; 10; 0] 0 [] (kbd_interrupt (fun _ _ => 0) (fun t => t) 0 true (tty_sys hi_codes))
  /\ foldl (fun q c => lkey true true c q) ([], []) [104; 0; 105; 0; 10; 0] = ([104; 105; 10], []).
Proof.
  split; [|reflexivity].
  exact (keyboard_input_correct (fun _ _ => 0) (fun t => t) 0 true 1 true true _ (tty_sys hi_codes) (tty_zero 1) _ _ _ (tty_sys_typed _) eq_refl eq_refl eq_refl).
Defined.

(** The state after those keys. *)
Definition hi_sys : tsys bstate :=
  tty_sys [] <| ttab := <[1%nat := tty_zero 1 <| input := Ring (<[0%nat := 104]> (<[1%nat := 105]> (<[2%nat := 10]> (replicate 128 0)))) 0 3 3 |>]> (ttab (tty_sys [])) |>.

Lemma ttyread_correct_witness :
  exists s', ttyread 0 10 hi_sys = Ok (TDone 3 [104; 105; 10]) s'.
Proof.
  assert (typed 1 true true ([104; 105; 10], []) hi_sys (tty_zero 1 <| input := Ring (<[0%nat := 104]> (<[1%nat := 105]> (<[2%nat := 10]> (replicate 128 0)))) 0 3 3 |>)) as Ht.
  { split; try reflexivity; try (eexists; reflexivity); try lia. split; try reflexivity; try (cbn; lia); [split; reflexivity|].
    intros i c Hi. destruct i as [|[|[|i]]]; try (cbn in Hi; injection Hi as <-; reflexivity). discriminate. }
  destruct (ttyread_correct 0 10 1 true true [104; 105; 10] [] hi_sys _ 0 tty_proc Ht eq_refl eq_refl eq_refl ltac:(left; split; reflexivity) ltac:(lia))
    as (s' & x' & E & _).
  exists s'. exact E.
Defined.
