(* ===== verification/TtyScreen.v ===== *)
(** * Terminals: the screen

    Where output moves the cursor, that it stays on the screen, and the two cases
    in which it does not: the caret form of a control character in the last cell
    and a rub-out at the first one. *)
From Stdlib Require Import ZArith Lia.
From stdpp Require Import base numbers list gmap strings.
From S2P Require Import Prelude KString Locks Kalloc Vm Pipe Proc Syscall Block Log Fs Signal File SysFd SysDir Tty TtyRing TtyThm TtyLine.
Local Open Scope Z_scope.

(** The cursor after the switch of tty_putc, and after scrolling. *)
Definition char_pos (c p : Z) : Z :=
  if c =? 10 then p + (80 - p mod 80)
  else if c =? 13 then p - p mod 80
  else if c =? BACKSPACE then p - 1
  else if (c =? 8) || (c =? 127) then (if p mod 80 =? 0 then p else p - 1)
  else if c =? 9 then p + (8 - p mod 8)
  else if (c =? 7) || (c =? 0) then p
  else if Z.land c 255 <? 32 then p + 2
  else p + 1.
Definition scroll_pos (p : Z) : Z := if 2000 <=? p then p - 80 else p.

(** Control characters that are shown as a caret and a letter. *)
Definition caret (c : Z) : bool :=
  (Z.land c 255 <? 32) && negb ((c =? 10) || (c =? 13) || (c =? BACKSPACE) || (c =? 8) || (c =? 9) || (c =? 7) || (c =? 0)).
(** The two cases that leave the screen. *)
Definition off_screen (c p : Z) : bool := ((c =? BACKSPACE) && (p =? 0)) || (caret c && (p =? 1999)).

Lemma char_pos_range c p : 0 <= p < 2000 -> off_screen c p = false -> 0 <= char_pos c p <= 2000.
Proof.
  intros Hp Ho. unfold off_screen, caret in Ho. unfold char_pos.
  destruct (Z.eqb_spec c 10); [Z.to_euclidean_division_equations; lia|].
  destruct (Z.eqb_spec c 13); [Z.to_euclidean_division_equations; lia|].
  destruct (Z.eqb_spec c BACKSPACE); cbn [andb orb negb] in *; [apply orb_false_iff in Ho as [Ho _]; apply Z.eqb_neq in Ho; lia|].
  destruct (Z.eqb_spec c 8); cbn [andb orb negb] in *; [destruct (Z.eqb_spec (p mod 80) 0); Z.to_euclidean_division_equations; lia|].
  destruct (Z.eqb_spec c 127); cbn [andb orb negb] in *; [destruct (Z.eqb_spec (p mod 80) 0); Z.to_euclidean_division_equations; lia|].
  destruct (Z.eqb_spec c 9); cbn [andb orb negb] in *; [Z.to_euclidean_division_equations; lia|].
  destruct (c =? 7); cbn [andb orb negb] in *; [lia|]. destruct (c =? 0); cbn [andb orb negb] in *; [lia|].
  destruct (Z.land c 255 <? 32); cbn [andb orb negb] in Ho; [apply Z.eqb_neq in Ho; lia | lia].
Qed.

Lemma rem_mod p k : 0 <= p -> 0 < k -> Z.rem p k = p mod k.
Proof. intros. apply Z.rem_mod_nonneg; lia. Qed.
Lemma i32_small p : - 4000 <= p <= 4000 -> i32 p = p.
Proof. intros Hp. apply (swrap_id 32 eq_refl). unfold in_s. change (2 ^ (32 - 1)) with 2147483648. lia. Qed.

Lemma scroll_cells_length l p : (2000 <= length l)%nat -> 0 <= p <= 2000 -> length (scroll_cells l p) = length l.
Proof. intros Hl Hp. unfold scroll_cells, SCREEN. rewrite !length_app, length_take, length_replicate, length_drop, !length_app, length_take, !length_drop. lia. Qed.

Section screen.
Context {C : Type} `{BufCache C}.
#[local] Abbreviation T := (M (tsys C)).
Implicit Types (s : tsys C).

(** The state [s] with terminal [t], video memory and ports replaced. *)
Definition drawn s (t : Z) (x : tty) (l : list Z) (po : list (Z * Z)) : tsys C :=
  s <| ttab := <[Z.to_nat t := x]> (ttab s) |> <| crt := l |> <| ports := po |>.

Context (s : tsys C) (t : Z) (Ht : 0 <= t < Z.of_nat (length (ttab s))).
#[local] Abbreviation D := (drawn s t).

Lemma drawn_lookup x l po : ttab (D x l po) !! Z.to_nat t = Some x.
Proof. apply list_lookup_insert_eq. lia. Qed.
Lemma drawn_get x l po : tget t (D x l po) = Ok x (D x l po).
Proof. apply tget_run; [lia | apply drawn_lookup]. Qed.
Lemma drawn_mod f x l po : tmod t f (D x l po) = Ok tt (D (f x) l po).
Proof.
  rewrite (tmod_run t f x) by (lia || apply drawn_lookup). f_equal. unfold drawn. cbn. rewrite list_insert_insert_eq. reflexivity.
Qed.
Lemma drawn_cell x l po i v : 0 <= i < Z.of_nat (length (screen x)) ->
  set_cell t i v (D x l po) = Ok tt (D (x <| screen := <[Z.to_nat i := u16 v]> (screen x) |>) l po).
Proof.
  intros Hi. unfold set_cell. rewrite (bind_step _ _ _ _ _ (drawn_get x l po)), (bind_step _ _ _ _ _ (aset_Ok _ _ i _ _ Hi)). apply drawn_mod.
Qed.
Lemma drawn_crt x l po i v : 0 <= i < Z.of_nat (length l) -> set_crt i v (D x l po) = Ok tt (D x (<[Z.to_nat i := u16 v]> l) po).
Proof. intros Hi. unfold set_crt. erewrite bind_step by reflexivity. rewrite (bind_step _ _ _ _ _ (aset_Ok _ _ i _ _ Hi)). reflexivity. Qed.

(** [m] leaves the terminal alone but for its display. *)
Definition shows (m : T unit) x : Prop := forall l po,
  length l = Z.to_nat 16384 -> exists l' po', length l' = Z.to_nat 16384 /\ m (D x l po) = Ok tt (D x l' po').
(** [m] moves the cursor of terminal [x] to [p], on its screen. *)
Definition moves (m : T unit) x p : Prop := forall l po,
  length l = Z.to_nat 16384 -> exists scr l' po', length scr = 2000%nat /\ length l' = Z.to_nat 16384
    /\ m (D x l po) = Ok tt (D (x <| screen := scr |> <| tpos := p |>) l' po').

Lemma shows_displayed m x : shows m x -> shows (displayed t m) x.
Proof.
  intros Hm l po Hl. unfold displayed. rewrite (bind_step _ _ _ _ _ (drawn_get x l po)). erewrite bind_step by reflexivity.
  destruct (_ && _); [apply Hm, Hl | exists l, po; split; [exact Hl | reflexivity]].
Qed.
Lemma shows_bind m1 m2 x : shows m1 x -> shows m2 x -> shows (m1;; m2) x.
Proof.
  intros H1 H2 l po Hl. destruct (H1 l po Hl) as (l1 & po1 & Hl1 & E1). destruct (H2 l1 po1 Hl1) as (l2 & po2 & Hl2 & E2).
  exists l2, po2. split; [exact Hl2|]. rewrite (bind_step _ _ _ _ _ E1). exact E2.
Qed.
Lemma shows_tget k x : shows (k x) x -> shows (y ← tget t; k y) x.
Proof. intros Hk l po Hl. rewrite (bind_step _ _ _ _ _ (drawn_get x l po)). apply Hk, Hl. Qed.
Lemma shows_crt x i v : 0 <= i < 16384 -> shows (set_crt i v) x.
Proof. intros Hi l po Hl. exists (<[Z.to_nat i := u16 v]> l), po. split; [rewrite length_insert; exact Hl|]. apply drawn_crt. rewrite Hl. lia. Qed.
Lemma shows_outb x p v : shows (outb p v) x.
Proof. intros l po Hl. exists l, ((p, u8 v) :: po). split; [exact Hl | reflexivity]. Qed.
Lemma shows_cursor x : shows (show_cursor t) x.
Proof. apply shows_tget. repeat (apply shows_bind; [apply shows_outb|]). apply shows_outb. Qed.
Lemma shows_screen x : length (screen x) = 2000%nat -> shows (y ← tget t; show_screen y) x.
Proof.
  intros Hx. apply shows_tget. intros l po Hl. eexists _, po. split; [|reflexivity].
  change (length (screen x ++ drop (Z.to_nat SCREEN) l) = Z.to_nat 16384). rewrite length_app, length_drop, Hx, Hl. reflexivity.
Qed.

Lemma moves_ret x : length (screen x) = 2000%nat -> moves (mret tt) x (tpos x).
Proof. intros Hx l po Hl. exists (screen x), l, po. split; [exact Hx|]. split; [exact Hl|]. destruct x; reflexivity. Qed.
Lemma moves_bind m1 m2 x p1 p2 :
  moves m1 x p1 -> (forall scr, length scr = 2000%nat -> moves m2 (x <| screen := scr |> <| tpos := p1 |>) p2) -> moves (m1;; m2) x p2.
Proof.
  intros H1 H2 l po Hl. destruct (H1 l po Hl) as (scr & l1 & po1 & Hs1 & Hl1 & E1). destruct (H2 scr Hs1 l1 po1 Hl1) as (scr2 & l2 & po2 & Hs2 & Hl2 & E2).
  exists scr2, l2, po2. split; [exact Hs2|]. split; [exact Hl2|]. rewrite (bind_step _ _ _ _ _ E1). exact E2.
Qed.
Lemma moves_shows m x : length (screen x) = 2000%nat -> shows m x -> moves m x (tpos x).
Proof.
  intros Hx Hm l po Hl. destruct (Hm l po Hl) as (l' & po' & Hl' & E). exists (screen x), l', po'. split; [exact Hx|]. split; [exact Hl'|].
  rewrite E. destruct x; reflexivity.
Qed.
Lemma moves_tget k x p : moves (k x) x p -> moves (y ← tget t; k y) x p.
Proof. intros Hk l po Hl. rewrite (bind_step _ _ _ _ _ (drawn_get x l po)). apply Hk, Hl. Qed.
Lemma moves_pos f x p : length (screen x) = 2000%nat -> f x = x <| tpos := p |> -> moves (tmod t f) x p.
Proof.
  intros Hx Hf l po Hl. exists (screen x), l, po. split; [exact Hx|]. split; [exact Hl|]. rewrite drawn_mod, Hf. destruct x; reflexivity.
Qed.
Lemma moves_cell x i v : length (screen x) = 2000%nat -> 0 <= i < 2000 -> moves (set_cell t i v) x (tpos x).
Proof.
  intros Hx Hi l po Hl. exists (<[Z.to_nat i := u16 v]> (screen x)), l, po. split; [rewrite length_insert; exact Hx|]. split; [exact Hl|].
  rewrite drawn_cell by (rewrite Hx; lia). destruct x; reflexivity.
Qed.
Lemma moves_next x v : length (screen x) = 2000%nat -> 0 <= tpos x < 2000 -> moves (put_next t v) x (tpos x + 1).
Proof.
  intros Hx Hp. apply moves_tget. eapply moves_bind; [apply moves_cell; assumption|]. intros scr Hs. apply moves_pos; [exact Hs|].
  cbn. rewrite i32_small by lia. reflexivity.
Qed.
Lemma moves_scroll x : length (screen x) = 2000%nat -> 2000 <= tpos x <= 2079 -> moves (scroll t) x (tpos x - 80).
Proof.
  intros Hx Hp. unfold scroll. eapply moves_bind; [apply (moves_pos _ x (tpos x - 80)); [exact Hx | rewrite i32_small by lia; reflexivity]|].
  intros scr Hs. set (y := x <| screen := scr |> <| tpos := tpos x - 80 |>). apply moves_tget.
  change (tpos y) with (tpos x - 80). rewrite (proj2 (Z.ltb_ge _ _)), (proj2 (Z.ltb_ge SCREEN _)) by (unfold SCREEN; lia). cbn [orb].
  eapply moves_bind; [apply moves_ret; exact Hs|]. intros scr1 Hs1. set (z := y <| screen := scr1 |> <| tpos := tpos y |>).
  intros l po Hl. erewrite bind_step by (apply drawn_mod). set (z' := z <| screen := scroll_cells (screen z) (tpos z) |>).
  assert (length (screen z') = 2000%nat) as Hz.
  { change (length (scroll_cells scr1 (tpos x - 80)) = 2000%nat). rewrite scroll_cells_length by (rewrite ?Hs1; lia). exact Hs1. }
  destruct (shows_displayed _ _ (shows_screen z' Hz) l po Hl) as (l' & po' & Hl' & E). exists (screen z'), l', po'. split; [exact Hz|]. split; [exact Hl'|].
  etransitivity; [exact E|]. destruct x; reflexivity.
Qed.

(** ** Characters *)

Context (Hcp : 0 <= cpos s < 2000).

Lemma moves_no_scroll x : length (screen x) = 2000%nat -> moves (s ← get; when (25 <=? Z.quot (cpos s) 80) (scroll t)) x (tpos x).
Proof.
  intros Hx l po Hl. erewrite bind_step by reflexivity. change (cpos (D x l po)) with (cpos s).
  rewrite (proj2 (Z.leb_gt 25 _)) by (apply Z.quot_lt_upper_bound; lia). exact (moves_ret x Hx l po Hl).
Qed.
Lemma moves_spaces k x : length (screen x) = 2000%nat -> 0 <= tpos x -> tpos x + Z.of_nat k <= 2000 -> moves (put_spaces k t) x (tpos x + Z.of_nat k).
Proof.
  revert x. induction k as [|k IH]; intros x Hx H0 Hk; cbn [put_spaces].
  - rewrite Z.add_0_r. apply moves_ret, Hx.
  - apply moves_tget. eapply moves_bind; [apply moves_next; [exact Hx | lia]|]. intros scr Hs.
    set (y := x <| screen := scr |> <| tpos := tpos x + 1 |>). intros l po Hl.
    destruct (moves_no_scroll y Hs l po Hl) as (scr1 & l1 & po1 & Hs1 & Hl1 & E1). rewrite <-bind_assoc. 
    rewrite (bind_step _ _ _ _ _ E1).
    replace (tpos x + Z.of_nat (S k)) with (tpos y + Z.of_nat k) by (change (tpos y) with (tpos x + 1); lia).
    refine (IH (y <| screen := scr1 |> <| tpos := tpos y |>) Hs1 _ _ l1 po1 Hl1); cbn; lia.
Qed.
Lemma moves_back x : length (screen x) = 2000%nat -> 0 < tpos x < 2000 ->
  moves (tmod t (fun x => x <| tpos := i32 (tpos x - 1) |>);; x ← tget t; set_cell t (tpos x) (Z.lor 32 0x0700);;
         displayed t (set_crt (tpos x) (Z.lor 32 0x0700))) x (tpos x - 1).
Proof.
  intros Hx Hp. eapply moves_bind; [apply (moves_pos _ x (tpos x - 1)); [exact Hx | rewrite i32_small by lia; reflexivity]|].
  intros scr Hs. set (y := x <| screen := scr |> <| tpos := tpos x - 1 |>). apply moves_tget. change (tpos y) with (tpos x - 1).
  eapply moves_bind; [apply moves_cell; [exact Hs | lia]|]. intros scr1 Hs1. apply moves_shows; [exact Hs1|]. apply shows_displayed, shows_crt. lia.
Qed.
Lemma moves_caret c x : length (screen x) = 2000%nat -> 0 <= tpos x < 1999 ->
  moves (put_next t (Z.lor 94 (ansi_sgr x));; put_next t (Z.lor (Z.land c 255 + 64) (ansi_sgr x));;
         displayed t (y ← tget t; set_crt (tpos y - 2) (Z.lor 94 (ansi_sgr x));; set_crt (tpos y - 1) (Z.lor (Z.land c 255 + 64) (ansi_sgr x))))
    x (tpos x + 2).
Proof.
  intros Hx Hp. eapply moves_bind; [apply moves_next; [exact Hx | lia]|]. intros scr Hs.
  set (y := x <| screen := scr |> <| tpos := tpos x + 1 |>). eapply moves_bind; [apply moves_next; [exact Hs | cbn; lia]|].
  intros scr1 Hs1. set (z := y <| screen := scr1 |> <| tpos := tpos y + 1 |>).
  assert (tpos z = tpos x + 2) as Ez by (cbn; lia). rewrite <-Ez.
  apply moves_shows; [exact Hs1|]. apply shows_displayed, shows_tget, shows_bind; apply shows_crt; lia.
Qed.
Lemma moves_plain c x : length (screen x) = 2000%nat -> 0 <= tpos x < 2000 ->
  moves (put_next t (Z.lor (Z.land c 255) (ansi_sgr x));; displayed t (dumb_putc t c)) x (tpos x + 1).
Proof.
  intros Hx Hp. eapply moves_bind; [apply moves_next; [exact Hx | exact Hp]|]. intros scr Hs.
  set (y := x <| screen := scr |> <| tpos := tpos x + 1 |>). change (tpos x + 1) with (tpos y). apply moves_shows; [exact Hs|].
  apply shows_displayed, shows_tget, shows_crt. cbn. lia.
Qed.

Lemma moves_char c x : length (screen x) = 2000%nat -> 0 <= tpos x < 2000 -> off_screen c (tpos x) = false ->
  moves (tty_char t c) x (char_pos c (tpos x)).
Proof.
  intros Hx Hp Ho. unfold tty_char. apply moves_tget. unfold char_pos. rewrite !rem_mod by lia.
  pose proof (Z.mod_pos_bound (tpos x) 80 eq_refl). pose proof (Z.mod_pos_bound (tpos x) 8 eq_refl).
  destruct (Z.eqb_spec c 10); [apply moves_pos; [exact Hx | rewrite rem_mod, i32_small by lia; reflexivity]|].
  destruct (Z.eqb_spec c 13); [apply moves_pos; [exact Hx | rewrite rem_mod, i32_small by lia; reflexivity]|].
  unfold off_screen, caret in Ho. destruct (Z.eqb_spec c BACKSPACE).
  { cbn [andb orb negb] in Ho. apply orb_false_iff in Ho as [Ho _]. apply Z.eqb_neq in Ho. apply moves_back; [exact Hx | lia]. }
  destruct ((c =? 8) || (c =? 127)) eqn:E8.
  { unfold nz. destruct (tpos x mod 80 =? 0); [apply moves_ret, Hx|]. apply moves_pos; [exact Hx | rewrite i32_small by lia; reflexivity]. }
  apply orb_false_iff in E8 as [E8 _]. rewrite E8 in Ho. rewrite (proj2 (Z.eqb_neq c 10)), (proj2 (Z.eqb_neq c 13)) in Ho by assumption.
  destruct (c =? 9).
  { assert (tpos x + (8 - tpos x mod 8) <= 2000) by (Z.to_euclidean_division_equations; lia).
    replace (8 - tpos x mod 8) with (Z.of_nat (Z.to_nat (8 - tpos x mod 8))) at 2 by lia. apply moves_spaces; [exact Hx | lia | lia]. }
  destruct (c =? 7); [apply moves_ret, Hx|]. destruct (c =? 0); [apply moves_ret, Hx|]. cbn [andb orb negb] in Ho.
  destruct (Z.land c 255 <? 32); [|apply moves_plain; assumption]. cbn [andb] in Ho. apply Z.eqb_neq in Ho. apply moves_caret; [exact Hx | lia].
Qed.

Lemma moves_putc c x : length (screen x) = 2000%nat -> 0 <= tpos x < 2000 -> off_screen c (tpos x) = false ->
  moves (tty_putc t c) x (scroll_pos (char_pos c (tpos x))).
Proof.
  intros Hx Hp Ho. pose proof (char_pos_range c _ Hp Ho) as Hr. unfold tty_putc.
  eapply moves_bind; [apply moves_char; assumption|]. intros scr Hs. set (p := char_pos c (tpos x)) in *. set (y := x <| screen := scr |> <| tpos := p |>).
  apply moves_tget. change (tpos y) with p. apply (moves_bind _ _ _ (scroll_pos p)).
  { unfold scroll_pos. destruct (Z.leb_spec 2000 p).
    - rewrite (proj2 (Z.leb_le 25 _)) by (apply Z.quot_le_lower_bound; lia). cbn [when]. apply moves_scroll; [exact Hs | cbn; lia].
    - rewrite (proj2 (Z.leb_gt 25 _)) by (apply Z.quot_lt_upper_bound; lia). apply (moves_ret y), Hs. }
  intros scr1 Hs1. assert (0 <= scroll_pos p < 2000) as Hq by (unfold scroll_pos; destruct (Z.leb_spec 2000 p); lia).
  set (z := y <| screen := scr1 |> <| tpos := scroll_pos p |>). change (scroll_pos p) with (tpos z). apply moves_shows; [exact Hs1|].
  apply shows_bind; apply shows_displayed; [|apply shows_cursor]. apply shows_tget. intros l po Hl.
  destruct (lookup_lt_is_Some_2 (screen z) (Z.to_nat (tpos z))) as [v Hv]; [change (screen z) with scr1; rewrite Hs1; cbn; lia|].
  rewrite (bind_step _ _ _ _ _ (aget_Ok _ _ _ v _ (proj1 Hq) Hv)). apply shows_crt; [cbn; lia | exact Hl].
Qed.

(** The two cases that leave the screen. *)
Lemma putc_off_screen c x l po : length (screen x) = 2000%nat -> 0 <= tpos x < 2000 -> length l = Z.to_nat 16384 -> off_screen c (tpos x) = true ->
  tty_putc t c (D x l po) = Fault "screen".
Proof.
  intros Hx Hp Hl Ho. unfold tty_putc, tty_char. rewrite bind_assoc, (bind_step _ _ _ _ _ (drawn_get x l po)).
  unfold off_screen, caret in Ho. apply orb_true_iff in Ho as [Ho|Ho]; apply andb_true_iff in Ho as [Hc Hz]; apply Z.eqb_eq in Hz.
  - apply Z.eqb_eq in Hc as ->. cbn [Z.eqb Pos.eqb BACKSPACE]. rewrite bind_assoc. rewrite (bind_step _ _ _ _ _ (drawn_mod _ x l po)), bind_assoc.
    rewrite (bind_step _ _ _ _ _ (drawn_get _ l po)). unfold set_cell. rewrite !bind_assoc, (bind_step _ _ _ _ _ (drawn_get _ l po)), bind_assoc.
    set (y := x <| tpos := i32 (tpos x - 1) |>). assert (tpos y = -1) as Ey by (cbn; rewrite Hz; reflexivity).
    unfold mbind at 1, M_bind at 1. rewrite aset_out by (rewrite Ey; left; reflexivity). reflexivity.
  - apply andb_true_iff in Hc as [Hc Hn]. apply negb_true_iff in Hn. rewrite !orb_false_iff in Hn. destruct Hn as [[[[[[-> ->] ->] ->] ->] ->] ->].
    assert ((c =? 127) = false) as ->. { apply Z.eqb_neq. intros ->. discriminate. } cbn [orb]. rewrite Hc, bind_assoc.
    destruct (moves_next x (Z.lor 94 (ansi_sgr x)) Hx Hp l po Hl) as (scr & l1 & po1 & Hs & Hl1 & E1). rewrite (bind_step _ _ _ _ _ E1).
    rewrite bind_assoc. unfold put_next at 1. rewrite bind_assoc, (bind_step _ _ _ _ _ (drawn_get _ l1 po1)), bind_assoc. unfold set_cell at 1.
    rewrite bind_assoc, (bind_step _ _ _ _ _ (drawn_get _ l1 po1)), bind_assoc. unfold mbind at 1, M_bind at 1. rewrite aset_out; [reflexivity|].
    right. change (Z.of_nat (length scr) <= tpos x + 1). rewrite Hs, Hz. reflexivity.
Qed.
End screen.
