(* ===== verification/TtyAnsi.v ===== *)
(** * Terminals: escape sequences and writes

    The escape parser keeps its parameters inside their array, text that has no
    control character shown as a caret never leaves the screen, and the cursor
    addressing sequence moves the cursor where it says. *)
From Stdlib Require Import ZArith Lia.
From stdpp Require Import base numbers list gmap strings.
From S2P Require Import Prelude KString Locks Kalloc Vm Pipe Proc Syscall Block Log Fs Signal File SysFd SysDir Bio BioThm FdThm FdRefs Tty TtyRing TtyThm TtyLine TtyScreen Console Kbd KbdThm.
Local Open Scope Z_scope.

(** A terminal whose cursor is on its screen and whose escape parameters are in
    their array. *)
Record tty_ok (x : tty) : Prop := TtyOk {
  ok_screen : length (screen x) = 2000%nat;
  ok_pos : 0 <= tpos x < 2000;
  ok_params : length (ansi_params x) = 8%nat;
  ok_count : ansi_state x = ANSI_PARAM -> 1 <= ansi_param_count x <= 4
}.

(** A character that can be written anywhere on the screen. *)
Definition writable_char (opost : bool) (c : Z) : bool := negb (caret c) || ((c =? 27) && opost).

Section ansi.
Context {C : Type} `{BufCache C}.
Context (inb : Z -> list (Z * Z) -> Z).
#[local] Abbreviation T := (M (tsys C)).
Context (s : tsys C) (t : Z) (Ht : 0 <= t < Z.of_nat (length (ttab s))) (Hcp : 0 <= cpos s < 2000).
#[local] Abbreviation D := (drawn s t).

(** [m] returns with the terminal in order and its settings unchanged. *)
Definition stays (m : T unit) x : Prop := forall l po,
  length l = Z.to_nat 16384 -> exists x' l' po', m (D x l po) = Ok tt (D x' l' po') /\ length l' = Z.to_nat 16384 /\ tty_ok x' /\ core x' = core x.

Lemma stays_moves m x p : tty_ok x -> moves s t m x p -> 0 <= p < 2000 -> stays m x.
Proof.
  intros [H1 H2 H3 H4] Hm Hp l po Hl. destruct (Hm l po Hl) as (scr & l' & po' & Hs & Hl' & E).
  exists (x <| screen := scr |> <| tpos := p |>), l', po'. split; [exact E|]. split; [exact Hl'|]. split; [split; assumption | reflexivity].
Qed.
Lemma stays_bind m1 m2 x : stays m1 x -> (forall x', tty_ok x' -> core x' = core x -> stays m2 x') -> stays (m1;; m2) x.
Proof.
  intros H1 H2 l po Hl. destruct (H1 l po Hl) as (x1 & l1 & po1 & E1 & Hl1 & Ho1 & Hc1). destruct (H2 x1 Ho1 Hc1 l1 po1 Hl1) as (x2 & l2 & po2 & E2 & Hl2 & Ho2 & Hc2).
  exists x2, l2, po2. split; [rewrite (bind_step _ _ _ _ _ E1); exact E2|]. split; [exact Hl2|]. split; [exact Ho2 | congruence].
Qed.
Lemma stays_tget k x : stays (k x) x -> stays (y ← tget t; k y) x.
Proof. intros Hk l po Hl. rewrite (bind_step _ _ _ _ _ (drawn_get s t Ht x l po)). apply Hk, Hl. Qed.
Lemma stays_tmod f x : tty_ok (f x) -> core (f x) = core x -> stays (tmod t f) x.
Proof. intros Ho Hc l po Hl. exists (f x), l, po. split; [apply (drawn_mod s t Ht)|]. auto. Qed.
Lemma stays_ret x : tty_ok x -> stays (mret tt) x.
Proof. intros Ho l po Hl. exists x, l, po. auto. Qed.
Lemma stays_step {A} (m : T A) k a x : (forall l po, m (D x l po) = Ok a (D x l po)) -> stays (k a) x -> stays (m ≫= k) x.
Proof. intros Hm Hk l po Hl. rewrite (bind_step _ _ _ _ _ (Hm l po)). apply Hk, Hl. Qed.
Lemma stays_shows m x : tty_ok x -> shows s t m x -> stays m x.
Proof. intros Ho Hm. apply (stays_moves m x (tpos x) Ho); [apply moves_shows; [apply (ok_screen _ Ho) | exact Hm] | apply (ok_pos _ Ho)]. Qed.

(** Leaving or changing the escape state. *)
Lemma stays_state f x : tty_ok x -> (forall y, f y = ANSI_NORMAL \/ f y = ANSI_ESCAPE \/ f y = ANSI_BRACKET) -> stays (tmod t (fun x => x <| ansi_state := f x |>)) x.
Proof.
  intros [H1 H2 H3 H4] Hf. apply stays_tmod; [|reflexivity]. split; try assumption. intros E. change (f x = ANSI_PARAM) in E.
  destruct (Hf x) as [E'|[E'|E']]; rewrite E' in E; discriminate.
Qed.
Lemma stays_normal x : tty_ok x -> stays (tmod t (fun x => x <| ansi_state := ANSI_NORMAL |>)) x.
Proof. intros Ho. apply (stays_state (fun _ => ANSI_NORMAL) x Ho). auto. Qed.

Lemma stays_putc c x : tty_ok x -> caret c = false -> c <> BACKSPACE -> stays (tty_putc t c) x.
Proof.
  intros Ho Hc Hb. assert (off_screen c (tpos x) = false) as Hoff by (unfold off_screen; rewrite Hc, (proj2 (Z.eqb_neq _ _) Hb); reflexivity).
  apply (stays_moves _ x (scroll_pos (char_pos c (tpos x))) Ho).
  - apply moves_putc; try assumption; [apply (ok_screen _ Ho) | apply (ok_pos _ Ho)].
  - pose proof (char_pos_range c _ (ok_pos _ Ho) Hoff). unfold scroll_pos. destruct (Z.leb_spec 2000 (char_pos c (tpos x))); lia.
Qed.
Lemma stays_clear_cells k i x : tty_ok x -> 0 <= i -> i + Z.of_nat k <= 2000 -> stays (clear_cells k t i) x.
Proof.
  revert i x. induction k as [|k IH]; intros i x Ho H0 Hk; cbn [clear_cells]; [apply stays_ret, Ho|].
  apply stays_tget. eapply stays_bind.
  - apply (stays_moves _ x (tpos x) Ho); [apply moves_cell; [exact Ht | apply (ok_screen _ Ho) | lia] | apply (ok_pos _ Ho)].
  - intros y Hy Hc. eapply stays_bind; [apply stays_shows; [exact Hy|]; apply shows_displayed; [exact Ht|]; apply shows_crt; lia|].
    intros z Hz Hcz. apply IH; [exact Hz | lia | lia].
Qed.
Lemma clamp_range x y : 0 <= (let y := if y <? 0 then 0 else y in if 24 <? y then 24 else y) * 80 + (let x := if x <? 0 then 0 else x in if 79 <? x then 79 else x) < 2000.
Proof.
  assert (forall b v, 0 <= b -> 0 <= (let v := if v <? 0 then 0 else v in if b <? v then b else v) <= b) as Hb.
  { intros b v H0. cbn zeta. destruct (Z.ltb_spec v 0); [destruct (Z.ltb_spec b 0) | destruct (Z.ltb_spec b v)]; lia. }
  pose proof (Hb 24 y ltac:(lia)). pose proof (Hb 79 x ltac:(lia)). lia.
Qed.
Lemma stays_cursor a b x : tty_ok x -> stays (set_cursor t a b) x.
Proof. intros [H1 H2 H3 H4]. apply stays_tmod; [|reflexivity]. split; try assumption. apply clamp_range. Qed.
Lemma stays_clear p x : tty_ok x -> stays (handle_ansi_clear t p) x.
Proof.
  intros Ho. pose proof (ok_pos _ Ho). apply stays_tget. destruct (p =? 0); [apply stays_clear_cells; [exact Ho | lia | unfold SCREEN; lia]|].
  destruct (p =? 1); [apply stays_clear_cells; [exact Ho | lia | lia]|]. destruct (p =? 2); [|apply stays_ret, Ho].
  eapply stays_bind; [apply stays_cursor, Ho|]. intros y Hy _. apply stays_clear_cells; [exact Hy | lia | unfold SCREEN; lia].
Qed.
Lemma stays_sgr p x : tty_ok x -> stays (handle_ansi_sgr t p) x.
Proof. intros [H1 H2 H3 H4]. apply stays_tmod; [|reflexivity]. split; assumption. Qed.
Lemma stays_sgr_sequence ps x : tty_ok x -> stays (handle_ansi_sgr_sequence t ps) x.
Proof.
  revert x. induction ps as [|p ps IH]; intros x Ho; [apply stays_ret, Ho|]. eapply stays_bind; [apply stays_sgr, Ho|]. intros y Hy _. apply IH, Hy.
Qed.
Lemma stays_outb p v x : tty_ok x -> stays (outb p v) x.
Proof. intros Ho. apply stays_shows; [exact Ho | apply shows_outb]. Qed.
Lemma stays_shape c x : tty_ok x -> stays (cursor_shape inb c) x.
Proof.
  intros Ho. unfold cursor_shape. destruct (c =? 104).
  - eapply stays_bind; [apply stays_outb, Ho|]. intros x1 H1 _. intros l po Hl. erewrite bind_step by reflexivity. revert l po Hl. 
    assert (forall v w, stays (outb 0x3D5 v;; outb 0x3D4 0x0B;; s0 ← get; outb 0x3D5 (w (ports s0))) x1) as Hall.
    { intros v w. eapply stays_bind; [apply stays_outb, H1|]. intros x2 H2 _. eapply stays_bind; [apply stays_outb, H2|]. intros x3 H3 _.
      intros l po Hl. erewrite bind_step by reflexivity. exact (stays_outb _ _ x3 H3 l po Hl). }
    intros l po Hl. exact (Hall _ (fun ps => Z.lor (Z.land (inb 981 ps) 224) 14) l po Hl).
  - eapply stays_bind; [apply stays_outb, Ho|]. intros x1 H1 _. apply stays_outb, H1.
Qed.

(** ** The parser *)

Lemma stays_bracket c x : tty_ok x -> ansi_state x <> ANSI_PARAM -> stays (ansi_bracket t c) x.
Proof.
  intros [H1 H2 H3 H4] Hst. unfold ansi_bracket. eapply stays_bind.
  { apply stays_tmod; [|reflexivity]. split; [exact H1 | exact H2 | reflexivity | intros E; contradiction]. }
  intros y Hy _. pose proof Hy as [Y1 Y2 Y3 Y4].
  destruct (_ && _); [apply stays_tmod; [split; cbn; [exact Y1 | exact Y2 | rewrite length_insert; exact Y3 | lia] | reflexivity]|].
  destruct (c =? 109); [eapply stays_bind; [apply stays_sgr, Hy|]; intros z Hz _; apply stays_normal, Hz|].
  destruct (c =? 72); [eapply stays_bind; [apply stays_cursor, Hy|]; intros z Hz _; apply stays_normal, Hz|].
  destruct (c =? 74); [eapply stays_bind; [apply stays_clear, Hy|]; intros z Hz _; apply stays_normal, Hz|].
  destruct (c =? 63); [|apply stays_normal, Hy].
  apply stays_tmod; [split; cbn; [exact Y1 | exact Y2 | rewrite length_insert; exact Y3 | lia] | reflexivity].
Qed.

Lemma ansi_param_run x i d l po : tty_ok x -> 0 <= i < 8 -> exists v, ansi_param (C := C) x i d (D x l po) = Ok v (D x l po).
Proof.
  intros Ho Hi. unfold ansi_param. destruct (_ <? _); [|exists d; reflexivity].
  destruct (lookup_lt_is_Some_2 (ansi_params x) (Z.to_nat i)) as [v Hv]; [rewrite (ok_params _ Ho); lia|]. exists v. apply aget_Ok; [lia | exact Hv].
Qed.
Lemma stays_param x i d k : tty_ok x -> 0 <= i < 8 -> (forall v, stays (k v) x) -> stays (v ← ansi_param x i d; k v) x.
Proof.
  intros Ho Hi Hk l po Hl. destruct (ansi_param_run x i d l po Ho Hi) as [v E]. rewrite (bind_step _ _ _ _ _ E). apply Hk, Hl.
Qed.

Lemma stays_parameter c x : tty_ok x -> ansi_state x = ANSI_PARAM -> stays (ansi_parameter inb t c) x.
Proof.
  intros Ho Hst. pose proof Ho as [H1 H2 H3 H4]. specialize (H4 Hst). unfold ansi_parameter. apply stays_tget.
  destruct (_ && _).
  { destruct (lookup_lt_is_Some_2 (ansi_params x) (Z.to_nat (ansi_param_count x - 1))) as [v Hv]; [rewrite H3; lia|].
    apply (stays_step _ _ v); [intros l po; apply aget_Ok; [lia | exact Hv]|].
    eapply stays_step; [intros l po; apply aset_Ok; rewrite H3; lia|]. apply stays_tmod; [|reflexivity]. split; cbn; auto. rewrite length_insert. exact H3. }
  destruct (c =? 59).
  { destruct (Z.ltb_spec (ansi_param_count x) 4); [|apply stays_ret, Ho]. apply stays_tmod; [|reflexivity]. split; cbn; auto. lia. }
  destruct (c =? 109).
  { rewrite (proj2 (Z.ltb_ge _ _)) by lia. eapply stays_bind; [apply stays_sgr_sequence, Ho|]. intros y Hy _. apply stays_normal, Hy. }
  destruct (c =? 74).
  { apply stays_param; [exact Ho | lia|]. intros v. eapply stays_bind; [apply stays_clear, Ho|]. intros y Hy _. apply stays_normal, Hy. }
  destruct (_ || _).
  { apply stays_param; [exact Ho | lia|]. intros v. apply stays_param; [exact Ho | lia|]. intros w.
    eapply stays_bind; [apply stays_cursor, Ho|]. intros y Hy _. apply stays_normal, Hy. }
  destruct (_ && _); [|apply stays_normal, Ho].
  destruct (lookup_lt_is_Some_2 (ansi_params x) 0) as [v Hv]; [rewrite H3; lia|].
  apply (stays_step _ _ v); [intros l po; apply aget_Ok; [lia | exact Hv]|].
  eapply stays_bind; [destruct (v =? 25); [apply stays_shape, Ho | apply stays_ret, Ho]|]. intros y Hy _. apply stays_normal, Hy.
Qed.

Lemma stays_termio c x : tty_ok x -> in_s 8 c -> writable_char (nz (Z.land (c_oflag (tios x)) OPOST)) c = true -> stays (termio_putc inb t c) x.
Proof.
  intros Ho Hc Hw. assert (c <> BACKSPACE) as Hb by (unfold in_s, BACKSPACE in *; change (2 ^ (8 - 1)) with 128 in Hc; lia).
  unfold termio_putc. apply stays_tget. unfold writable_char in Hw. destruct (nz (Z.land (c_oflag (tios x)) OPOST)); cbn [negb].
  2: { rewrite andb_false_r, orb_false_r in Hw. apply negb_true_iff in Hw. apply stays_putc; assumption. }
  rewrite andb_true_r in Hw.
  assert (forall y, tty_ok y -> stays (tty_putc t 13;; tty_putc t 10) y) as Hnl.
  { intros y Hy. eapply stays_bind; [apply stays_putc; [exact Hy | reflexivity | discriminate]|]. intros z Hz _. apply stays_putc; [exact Hz | reflexivity | discriminate]. }
  destruct (c =? 10); [destruct (nz _); [apply Hnl, Ho | apply stays_putc; [exact Ho | reflexivity | discriminate]]|].
  destruct (c =? 13).
  { destruct (nz _); [apply Hnl, Ho|]. destruct (nz _); [apply stays_ret, Ho | apply stays_putc; [exact Ho | reflexivity | discriminate]]. }
  pose proof Ho as [H1 H2 H3 H4]. destruct (ansi_state x) eqn:Est.
  - destruct (c =? 27).
    + apply stays_tmod; [|reflexivity]. split; cbn; auto. discriminate.
    + rewrite orb_false_r in Hw. apply negb_true_iff in Hw. apply stays_putc; assumption.
  - apply (stays_state (fun _ => if c =? 91 then ANSI_BRACKET else ANSI_NORMAL)); [exact Ho|]. intros y. destruct (c =? 91); auto.
  - apply stays_bracket; [exact Ho | congruence].
  - apply stays_parameter; assumption.
Qed.

Lemma stays_write_chars p src x :
  curproc (tk s) = Ok p (tk s) -> tty_ok x -> Forall (fun c => writable_char (nz (Z.land (c_oflag (tios x)) OPOST)) (i8 c) = true) src ->
  stays (write_chars inb t src) x.
Proof.
  intros Hp. revert x. induction src as [|c src IH]; intros x Ho Hs; cbn [write_chars]; [apply stays_ret, Ho|].
  apply (stays_step _ _ p); [intros l po; unfold onsys; change (tk (D x l po)) with (tk s); rewrite Hp; reflexivity|].
  destruct (nz (sigpending p)); [apply stays_ret, Ho|]. apply Forall_cons in Hs as [Hc Hs].
  eapply stays_bind; [apply stays_termio; [exact Ho | apply swrap_range; lia | exact Hc]|]. intros y Hy Hcy. apply IH; [exact Hy|].
  injection Hcy as _ _ -> _ _. exact Hs.
Qed.
End ansi.

Lemma drawn_self {C} (s : tsys C) t x : ttab s !! Z.to_nat t = Some x -> drawn s t x (crt s) (ports s) = s.
Proof. intros Hx. unfold drawn. cbn. rewrite list_insert_id by exact Hx. destruct s; reflexivity. Qed.

(** ** Cursor addressing *)

(** The decimal value of digits after [v]. *)
Definition val (v : Z) (ds : list Z) : Z := foldl (fun v c => v * 10 + char_value c) v ds.
Definition digits (ds : list Z) : Prop := Forall (fun c => 48 <= c <= 57) ds.
Definition clamp (b v : Z) : Z := let v := if v <? 0 then 0 else v in if b <? v then b else v.

Lemma val_ge v ds : digits ds -> 0 <= v -> v <= val v ds.
Proof.
  intros Hd. revert v. induction Hd as [|c ds Hc Hd IH]; intros v Hv; cbn; [lia|].
  assert (0 <= char_value c) by (unfold char_value; rewrite (proj2 (Z.ltb_lt c 58)) by lia; lia). specialize (IH (v * 10 + char_value c) ltac:(lia)). unfold val in IH. lia.
Qed.

Section cursor.
Context {C : Type} `{BufCache C}.
Context (inb : Z -> list (Z * Z) -> Z).
Context (s : tsys C) (t : Z) (p : proc) (Ht : 0 <= t < Z.of_nat (length (ttab s))).
Context (Hp : curproc (tk s) = Ok p (tk s)) (Hsig : sigpending p = 0).
#[local] Abbreviation D := (drawn s t).

Definition opost (x : tty) : bool := nz (Z.land (c_oflag (tios x)) OPOST).

(** A character that only changes the terminal. *)
Lemma write_step c src x x' l po :
  0 <= c < 128 -> termio_putc inb t c (D x l po) = Ok tt (D x' l po) -> write_chars inb t (c :: src) (D x l po) = write_chars inb t src (D x' l po).
Proof.
  intros Hc E. cbn [write_chars]. assert (onsys curproc (D x l po) = Ok p (D x l po)) as Er.
  { unfold onsys. change (tk (D x l po)) with (tk s). rewrite Hp. reflexivity. }
  rewrite (bind_step _ _ _ _ _ Er), Hsig. cbn [nz Z.eqb negb].
  rewrite (swrap_id 8 eq_refl c) by (unfold in_s; change (2 ^ (8 - 1)) with 128; lia). rewrite (bind_step _ _ _ _ _ E). reflexivity.
Qed.
Lemma termio_state c x l po :
  opost x = true -> c <> 10 -> c <> 13 ->
  termio_putc inb t c (D x l po) = match ansi_state x with
    | ANSI_NORMAL => if c =? 27 then tmod t (fun x => x <| ansi_state := ANSI_ESCAPE |> <| ansi_param_count := 0 |>) else tty_putc t c
    | ANSI_ESCAPE => tmod t (fun x => x <| ansi_state := if c =? 91 then ANSI_BRACKET else ANSI_NORMAL |>)
    | ANSI_BRACKET => ansi_bracket t c
    | ANSI_PARAM => ansi_parameter inb t c
    end (D x l po).
Proof.
  intros Ho H1 H2. unfold termio_putc. rewrite (bind_step _ _ _ _ _ (drawn_get s t Ht x l po)). unfold opost in Ho. rewrite Ho. cbn [negb].
  rewrite (proj2 (Z.eqb_neq c 10)), (proj2 (Z.eqb_neq c 13)) by assumption. destruct (ansi_state x); reflexivity.
Qed.

Lemma digits_run ds src x v l po :
  digits ds -> opost x = true -> ansi_state x = ANSI_PARAM -> 1 <= ansi_param_count x ->
  ansi_params x !! Z.to_nat (ansi_param_count x - 1) = Some v -> 0 <= v -> val v ds < 2 ^ 31 ->
  write_chars inb t (ds ++ src) (D x l po)
  = write_chars inb t src (D (x <| ansi_params := <[Z.to_nat (ansi_param_count x - 1) := val v ds]> (ansi_params x) |>) l po).
Proof.
  intros Hd. revert x v. induction Hd as [|c ds Hc Hd IH]; intros x v Ho Hs Hn Hv H0 Hb.
  - cbn. rewrite list_insert_id by exact Hv. destruct x; reflexivity.
  - assert (char_value c = c - 48) as Ec by (unfold char_value; rewrite (proj2 (Z.ltb_lt c 58)) by lia; reflexivity).
    change (val v (c :: ds)) with (val (v * 10 + char_value c) ds) in *. pose proof (val_ge (v * 10 + char_value c) ds Hd ltac:(lia)) as Hge.
    set (y := x <| ansi_params := <[Z.to_nat (ansi_param_count x - 1) := v * 10 + char_value c]> (ansi_params x) |>).
    pose proof (lookup_lt_Some _ _ _ Hv) as Hlt. cbn [app]. rewrite (write_step c _ x y); [|lia|].
    + rewrite (IH y (v * 10 + char_value c)); try assumption; try lia; [|apply list_lookup_insert_eq; exact Hlt].
      do 2 f_equal. unfold y. cbn. rewrite list_insert_insert_eq. reflexivity.
    + rewrite termio_state by (assumption || lia). rewrite Hs. unfold ansi_parameter. rewrite (bind_step _ _ _ _ _ (drawn_get s t Ht x l po)).
      rewrite (proj2 (Z.leb_le 48 c)), (proj2 (Z.leb_le c 57)) by lia. cbn [andb].
      erewrite bind_step by (apply aget_Ok; [lia | exact Hv]). erewrite bind_step by (apply aset_Ok; lia). rewrite (drawn_mod s t Ht).
      unfold y. rewrite Ec in *. rewrite (swrap_id 32 eq_refl (v * 10)) by (unfold in_s; change (2 ^ (32 - 1)) with (2 ^ 31); lia).
      rewrite (swrap_id 32 eq_refl) by (unfold in_s; change (2 ^ (32 - 1)) with (2 ^ 31); lia). reflexivity.
Qed.

(** [ESC \[] and the first digit. *)
Lemma introducer_run d src x l po :
  48 <= d <= 57 -> opost x = true -> ansi_state x = ANSI_NORMAL ->
  write_chars inb t ([27; 91; d] ++ src) (D x l po)
  = write_chars inb t src (D (x <| ansi_state := ANSI_PARAM |> <| ansi_param_count := 1 |> <| ansi_params := <[0%nat := d - 48]> (replicate 8 0) |>) l po).
Proof.
  intros Hd Ho Hs. cbn [app]. rewrite (write_step 27 _ x (x <| ansi_state := ANSI_ESCAPE |> <| ansi_param_count := 0 |>)); [|lia|].
  2: { rewrite termio_state by (assumption || lia). rewrite Hs. cbn [Z.eqb Pos.eqb]. rewrite (drawn_mod s t Ht). reflexivity. }
  set (x1 := x <| ansi_state := ANSI_ESCAPE |> <| ansi_param_count := 0 |>).
  rewrite (write_step 91 _ x1 (x1 <| ansi_state := ANSI_BRACKET |>)); [|lia|].
  2: { rewrite termio_state by (assumption || lia). change (ansi_state x1) with ANSI_ESCAPE. cbn [Z.eqb Pos.eqb]. rewrite (drawn_mod s t Ht). reflexivity. }
  set (x2 := x1 <| ansi_state := ANSI_BRACKET |>). apply write_step; [lia|]. rewrite termio_state by (assumption || lia).
  change (ansi_state x2) with ANSI_BRACKET. unfold ansi_bracket. rewrite (bind_step _ _ _ _ _ (drawn_mod s t Ht _ x2 l po)).
  rewrite (proj2 (Z.leb_le 48 d)), (proj2 (Z.leb_le d 57)) by lia. cbn [andb]. rewrite (drawn_mod s t Ht). destruct x; reflexivity.
Qed.
Lemma semicolon_run src x l po :
  opost x = true -> ansi_state x = ANSI_PARAM -> ansi_param_count x = 1 ->
  write_chars inb t (59 :: src) (D x l po) = write_chars inb t src (D (x <| ansi_param_count := 2 |>) l po).
Proof.
  intros Ho Hs Hn. apply write_step; [lia|]. rewrite termio_state by (assumption || lia). rewrite Hs. unfold ansi_parameter.
  rewrite (bind_step _ _ _ _ _ (drawn_get s t Ht x l po)), Hn. cbn -[tmod]. rewrite (drawn_mod s t Ht), Hn. reflexivity.
Qed.
Lemma home_run x l po r c :
  opost x = true -> ansi_state x = ANSI_PARAM -> ansi_param_count x = 2 -> ansi_params x !! 0%nat = Some r -> ansi_params x !! 1%nat = Some c ->
  0 <= r < 2 ^ 31 -> 0 <= c < 2 ^ 31 ->
  write_chars inb t [72] (D x l po) = Ok tt (D (x <| tpos := clamp 24 (r - 1) * 80 + clamp 79 (c - 1) |> <| ansi_state := ANSI_NORMAL |>) l po).
Proof.
  intros Ho Hs Hn Hr Hc Hrr Hcr. erewrite write_step; [reflexivity | lia|]. rewrite termio_state by (assumption || lia). rewrite Hs. unfold ansi_parameter.
  rewrite (bind_step _ _ _ _ _ (drawn_get s t Ht x l po)). cbn [Z.eqb Pos.eqb Z.leb Z.compare Pos.compare Pos.compare_cont andb orb].
  unfold ansi_param. rewrite Hn. cbn [Z.ltb Z.compare Pos.compare Pos.compare_cont].
  erewrite bind_step by (apply aget_Ok; [lia | exact Hr]). erewrite bind_step by (apply aget_Ok; [lia | exact Hc]).
  unfold set_cursor. rewrite !(swrap_id 32 eq_refl) by (unfold in_s; change (2 ^ (32 - 1)) with (2 ^ 31); lia).
  rewrite (bind_step _ _ _ _ _ (drawn_mod s t Ht _ x l po)), (drawn_mod s t Ht). reflexivity.
Qed.

Lemma address_run x d rd cd l po :
  opost x = true -> ansi_state x = ANSI_NORMAL -> digits (d :: rd) -> digits cd -> val 0 (d :: rd) < 2 ^ 31 -> val 0 cd < 2 ^ 31 ->
  exists x', write_chars inb t ([27; 91; d] ++ rd ++ [59] ++ cd ++ [72]) (D x l po) = Ok tt (D x' l po)
    /\ tpos x' = clamp 24 (val 0 (d :: rd) - 1) * 80 + clamp 79 (val 0 cd - 1)
    /\ screen x' = screen x /\ core x' = core x /\ ansi_sgr x' = ansi_sgr x /\ ansi_state x' = ANSI_NORMAL.
Proof.
  intros Ho Hs Hrd Hcd Hr Hcb. apply Forall_cons in Hrd as [Hd Hrd]. rewrite introducer_run by assumption.
  set (x1 := x <| ansi_state := ANSI_PARAM |> <| ansi_param_count := 1 |> <| ansi_params := <[0%nat := d - 48]> (replicate 8 0) |>).
  assert (val 0 (d :: rd) = val (d - 48) rd) as En.
  { unfold val. cbn [foldl]. f_equal. unfold char_value. rewrite (proj2 (Z.ltb_lt d 58)) by lia. lia. }
  rewrite En in *. pose proof (val_ge (d - 48) rd Hrd ltac:(lia)) as Hge. pose proof (val_ge 0 cd Hcd ltac:(lia)) as Hge2.
  rewrite (digits_run rd _ x1 (d - 48)) by (assumption || reflexivity || lia || (cbn; lia)).
  set (x2 := x1 <| ansi_params := _ |>). cbn [app]. rewrite semicolon_run by (assumption || reflexivity).
  set (x3 := x2 <| ansi_param_count := 2 |>). rewrite (digits_run cd _ x3 0) by (assumption || reflexivity || lia || (cbn; lia)).
  set (x4 := x3 <| ansi_params := _ |>). rewrite (home_run x4 _ _ (val (d - 48) rd) (val 0 cd)) by (assumption || reflexivity || lia || (cbn; lia)).
  eexists. split; [reflexivity|]. repeat split.
Qed.
End cursor.

(** The sequence ESC \[ row ; column H, with both numbers in decimal digits, moves
    the cursor of a terminal to that row and column, counted from one and cut to
    the 25 by 80 screen, and changes nothing else of what the terminal shows. *)
Theorem cursor_address_correct {C} `{BufCache C} inb (s : tsys C) t x i p d rd cd :
  0 <= t -> ttab s !! Z.to_nat t = Some x -> cur (kps (tk s)) = Some i -> Proc.ptable (kps (tk s)) !! i = Some p -> sigpending p = 0 ->
  opost x = true -> ansi_state x = ANSI_NORMAL -> digits (d :: rd) -> digits cd ->
  numeral_value 10 (d :: rd) < 2 ^ 31 -> numeral_value 10 cd < 2 ^ 31 ->
  exists x', write_chars inb t ([27; 91; d] ++ rd ++ [59] ++ cd ++ [72]) s = Ok tt (with_tty s t x')
    /\ tpos x' = clamp 24 (numeral_value 10 (d :: rd) - 1) * 80 + clamp 79 (numeral_value 10 cd - 1)
    /\ screen x' = screen x /\ core x' = core x /\ ansi_sgr x' = ansi_sgr x /\ ansi_state x' = ANSI_NORMAL.
Proof.
  intros Ht0 Hx Hc Hp Hsig Ho Hs Hrd Hcd Hr Hcb. pose proof (lookup_lt_Some _ _ _ Hx).
  destruct (address_run inb s t p ltac:(lia) (curproc_run (tk s) i p Hc Hp) Hsig x d rd cd (crt s) (ports s) Ho Hs Hrd Hcd Hr Hcb) as (x' & E & Hrest).
  rewrite (drawn_self s t x Hx) in E. exists x'. split; [|exact Hrest]. rewrite E. destruct s; reflexivity.
Qed.

(** C21. Text without control characters in caret form (and with escape sequences,
    when output processing is on) can be written anywhere: the write returns, with
    the cursor on the screen and the escape parameters in their array, whatever
    the text, and nothing but this terminal's display has changed. *)
Theorem terminal_output_safe {C} `{BufCache C} inb (s : tsys C) t x i p src :
  0 <= t -> ttab s !! Z.to_nat t = Some x -> tty_ok x -> length (crt s) = Z.to_nat 16384 -> 0 <= cpos s < 2000 ->
  cur (kps (tk s)) = Some i -> Proc.ptable (kps (tk s)) !! i = Some p ->
  Forall (fun c => writable_char (opost x) (i8 c) = true) src ->
  exists x' l po, write_chars inb t src s = Ok tt (drawn s t x' l po) /\ tty_ok x' /\ core x' = core x /\ length l = Z.to_nat 16384.
Proof.
  intros Ht0 Hx Ho Hl Hcp Hc Hp Hs. pose proof (lookup_lt_Some _ _ _ Hx).
  destruct (stays_write_chars inb s t ltac:(lia) Hcp p src x (curproc_run (tk s) i p Hc Hp) Ho Hs (crt s) (ports s) Hl) as (x' & l & po & E & Hl' & Ho' & Hc').
  rewrite (drawn_self s t x Hx) in E. exists x', l, po. auto.
Qed.

(** tty_putc on any character: the cursor moves as [char_pos] and scrolling say and
    stays on the screen; in exactly two cases, a rub-out with the cursor at the
    first cell and a control character shown as a caret with the cursor at the
    last, it stores outside the screen. *)
Theorem tty_putc_exact {C} `{BufCache C} (s : tsys C) t x c :
  0 <= t -> ttab s !! Z.to_nat t = Some x -> length (screen x) = 2000%nat -> 0 <= tpos x < 2000 -> length (crt s) = Z.to_nat 16384 -> 0 <= cpos s < 2000 ->
  if off_screen c (tpos x) then tty_putc t c s = Fault "screen"
  else exists scr l po, tty_putc t c s = Ok tt (drawn s t (x <| screen := scr |> <| tpos := scroll_pos (char_pos c (tpos x)) |>) l po)
         /\ length scr = 2000%nat /\ 0 <= scroll_pos (char_pos c (tpos x)) < 2000.
Proof.
  intros Ht0 Hx Hs Hpos Hl Hcp. pose proof (lookup_lt_Some _ _ _ Hx). rewrite <-(drawn_self s t x Hx).
  destruct (off_screen c (tpos x)) eqn:Eo; [apply putc_off_screen; assumption || lia|]. pose proof (char_pos_range c _ Hpos Eo).
  destruct (moves_putc s t ltac:(lia) Hcp c x Hs Hpos Eo (crt s) (ports s) Hl) as (scr & l & po & Hscr & Hl' & E).
  rewrite (drawn_self s t x Hx) in *. exists scr, l, po. split; [exact E|]. split; [exact Hscr|].
  unfold scroll_pos. destruct (Z.leb_spec 2000 (char_pos c (tpos x))); lia.
Qed.

(** ** Concrete terminals *)

Lemma tty_zero_ok i : tty_ok (tty_zero i).
Proof. split; try reflexivity; [cbn; lia | discriminate]. Qed.

Lemma cursor_address_correct_witness :
  exists x', write_chars (fun _ _ => 0) 1 [27; 91; 49; 50; 59; 52; 48; 72] (tty_sys []) = Ok tt (with_tty (tty_sys []) 1 x') /\ tpos x' = 11 * 80 + 39.
Proof.
  destruct (cursor_address_correct (fun _ _ => 0) (tty_sys []) 1 (tty_zero 1) 0 tty_proc 49 [50] [52; 48]) as (x' & E & Hx' & _);
    [lia | reflexivity | reflexivity | reflexivity | reflexivity | reflexivity | reflexivity | | | reflexivity | reflexivity|].
  - repeat constructor; lia.
  - repeat constructor; lia.
  - exists x'. split; [exact E | exact Hx'].
Defined.

Lemma terminal_output_safe_witness :
  exists x' l po, write_chars (fun _ _ => 0) 1 [104; 9; 27; 91; 50; 74; 10; 200] (tty_sys []) = Ok tt (drawn (tty_sys []) 1 x' l po) /\ tty_ok x'.
Proof.
  destruct (terminal_output_safe (fun _ _ => 0) (tty_sys []) 1 (tty_zero 1) 0 tty_proc [104; 9; 27; 91; 50; 74; 10; 200]) as (x' & l & po & E & Ho & _);
    [lia | reflexivity | apply tty_zero_ok | reflexivity | cbn; lia | reflexivity | reflexivity | |].
  - repeat constructor.
  - exists x', l, po. auto.
Defined.

(** A screen-full terminal: the cursor in the last cell. *)
Lemma tty_putc_exact_witness :
  tty_putc 1 1 (tty_sys [] <| ttab := <[1%nat := tty_zero 1 <| tpos := 1999 |>]> (ttab (tty_sys [])) |>) = Fault "screen".
Proof.
  refine (tty_putc_exact (tty_sys [] <| ttab := <[1%nat := tty_zero 1 <| tpos := 1999 |>]> (ttab (tty_sys [])) |>) 1 (tty_zero 1 <| tpos := 1999 |>) 1 _ _ _ _ _ _);
    try reflexivity; cbn; lia.
Defined.

(** ** Switching terminals *)

Section switch.
Context {C : Type} `{BufCache C}.
Implicit Types (s : tsys C).

(** The state after a switch from [a] to [n]; [old] and [new] are the terminals
    before it. *)
Lemma change_tty_run s n old new :
  0 <= n < NTTYS -> 0 <= active_tty s -> n <> active_tty s -> ttab s !! Z.to_nat (active_tty s) = Some old -> ttab s !! Z.to_nat n = Some new ->
  exists po, change_tty n s = Ok 0 (s <| ttab := <[Z.to_nat (active_tty s) := old <| screen := take (Z.to_nat SCREEN) (crt s) |>]> (ttab s) |>
                                      <| active_tty := n |> <| crt := screen new ++ drop (Z.to_nat SCREEN) (crt s) |> <| ports := po |>).
Proof.
  intros Hn Ha Hne Ho Hw. unfold change_tty. rewrite (proj2 (Z.ltb_ge _ _)) by (unfold NTTYS in *; lia). erewrite bind_step by reflexivity.
  erewrite bind_step by (apply (tmod_run _ _ old); [exact Ha | exact Ho]). erewrite bind_step by reflexivity.
  assert (Z.to_nat (active_tty s) <> Z.to_nat n) as Hne' by lia.
  erewrite bind_step by (apply (tget_run n new); [lia | cbn; rewrite list_lookup_insert_ne by exact Hne'; exact Hw]).
  erewrite bind_step by reflexivity. unfold show_cursor. rewrite bind_assoc.
  erewrite bind_step by (apply (tget_run n new); [lia | cbn; rewrite list_lookup_insert_ne by exact Hne'; exact Hw]).
  eexists. destruct s. reflexivity.
Qed.

(** Switching to another terminal shows its screen, and switching back shows
    again exactly what was there; a number above the last terminal is refused, and
    a negative one, which is not, reads before the array. *)
Theorem change_tty_roundtrip s n old new :
  0 <= active_tty s < NTTYS -> 0 <= n < NTTYS -> n <> active_tty s -> ttab s !! Z.to_nat (active_tty s) = Some old ->
  ttab s !! Z.to_nat n = Some new -> length (screen new) = 2000%nat -> length (crt s) = Z.to_nat 16384 ->
  (exists s1 s2, change_tty n s = Ok 0 s1 /\ take (Z.to_nat SCREEN) (crt s1) = screen new /\ active_tty s1 = n
     /\ change_tty (active_tty s) s1 = Ok 0 s2 /\ crt s2 = crt s /\ active_tty s2 = active_tty s)
  /\ (forall m, NTTYS <= m -> change_tty m s = Ok (- EINVAL) s)
  /\ (forall m, m < 0 -> change_tty m s = Fault "ttys").
Proof.
  intros Ha Hn Hne Ho Hw Hs Hl. split_and!.
  2: { intros m Hm. unfold change_tty. rewrite (proj2 (Z.ltb_lt _ _)) by lia. reflexivity. }
  2: { intros m Hm. unfold change_tty. rewrite (proj2 (Z.ltb_ge _ _)) by (unfold NTTYS; lia). erewrite bind_step by reflexivity.
       erewrite bind_step by (apply (tmod_run _ _ old); [lia | exact Ho]). erewrite bind_step by reflexivity. unfold tget, aget.
       rewrite bind_assoc. erewrite bind_step by reflexivity. rewrite (proj2 (Z.ltb_lt m 0) Hm). reflexivity. }
  destruct (change_tty_run s n old new) as [po E]; [lia | lia | exact Hne | exact Ho | exact Hw|].
  set (s1 := s <| ttab := _ |> <| active_tty := n |> <| crt := _ |> <| ports := po |>) in E.
  assert (Z.to_nat (active_tty s) <> Z.to_nat n) as Hne' by lia. pose proof (lookup_lt_Some _ _ _ Ho).
  assert (active_tty s1 = n) as Ha1 by reflexivity. assert (crt s1 = screen new ++ drop (Z.to_nat SCREEN) (crt s)) as Ec1 by reflexivity.
  destruct (change_tty_run s1 (active_tty s) new (old <| screen := take (Z.to_nat SCREEN) (crt s) |>)) as [po2 E2];
    [lia | lia | lia | unfold s1; cbn; rewrite list_lookup_insert_ne by exact Hne'; exact Hw | unfold s1; cbn; apply list_lookup_insert_eq; assumption|].
  exists s1. eexists. split; [exact E|]. split; [|split; [exact Ha1|]; split; [exact E2|]; split; [|reflexivity]].
  - rewrite Ec1. apply take_app_length'. rewrite Hs. reflexivity.
  - change (take (Z.to_nat SCREEN) (crt s) ++ drop (Z.to_nat SCREEN) (crt s1) = crt s).
    rewrite Ec1, drop_app_length' by (rewrite Hs; reflexivity). apply take_drop.
Qed.
End switch.

Lemma change_tty_roundtrip_witness :
  exists s1 s2, change_tty 3 (tty_sys []) = Ok 0 s1 /\ change_tty 1 s1 = Ok 0 s2 /\ crt s2 = crt (tty_sys []).
Proof.
  destruct (change_tty_roundtrip (tty_sys []) 3 (tty_zero 1) (tty_zero 3) ltac:(unfold NTTYS; cbn; lia) ltac:(unfold NTTYS; lia) ltac:(cbn; lia) eq_refl eq_refl eq_refl eq_refl)
    as ((s1 & s2 & E1 & _ & _ & E2 & Ec & _) & _).
  exists s1, s2. auto.
Defined.
