(* ===== verification/Ioctl.v ===== *)
(** * Terminal control (sys_ioctl of src/kernel/sys/sys.c)

    The requests on the controlling terminal of the running process.  struct
    termios is in memory with its four flag words, c_line, c_cc, and the two speeds
    at offsets 52 and 56. *)
From Stdlib Require Import ZArith Lia.
From Stdlib Require Ascii String.
From stdpp Require Import base numbers list gmap strings.
From S2P Require Import Prelude KString Locks Kalloc Vm Pipe Proc Syscall Block Log Fs Signal File SysFd SysDir Tty Console.
Local Open Scope Z_scope.

Definition TCGETS : Z := 0x5401.
Definition TCSETS : Z := 0x5402.
Definition TCSETSW : Z := 0x5403.
Definition TCSETSF : Z := 0x5404.
Definition TIOCGPGRP : Z := 0x540F.
Definition TIOCSPGRP : Z := 0x5410.
Definition TIOCGWINSZ : Z := 0x5413.
Definition VT_ACTIVATE : Z := 0x5606.
Definition VT_WAITACTIVE : Z := 0x5607.

Definition text (s : string) : list Z := map (fun a => Z.of_nat (Ascii.nat_of_ascii a)) (String.list_ascii_of_string s).

Section ioctl.
Context {C : Type} `{BufCache C}.
Context (inb : Z -> list (Z * Z) -> Z) (us : Z).
#[local] Abbreviation T := (M (tsys C)).

Definition ouser {A} (m : Z -> M kstate A) : T A := me ← onsys curproc; onsys (onmm (m (pgdir me))).

Definition tty_get_winsize (ws : Z) : T Z :=
  if ws =? 0 then mret (-1)
  else
    ouser (fun pd => ustores pd ws (concat (map (fun v => take 2 (bytes32 v)) [25; 79; 720; 400])));;
    mret 0.

Definition get_termios (a : Z) : T Z :=
  if a =? 0 then mret (- EINVAL)
  else
    me ← onsys curproc;
    if Proc.tty me <? 0 then mret (- ENOTTY)
    else
      x ← tget (Proc.tty me);
      let t := tios x in
      ouser (fun pd => ustores pd a (bytes32 (c_iflag t) ++ bytes32 (c_oflag t) ++ bytes32 (c_cflag t) ++ bytes32 (c_lflag t)
                                     ++ [c_line t] ++ c_cc t));;
      ouser (fun pd => ustores pd (a + 52) (bytes32 (c_ispeed t) ++ bytes32 (c_ospeed t)));;
      mret 0.

Definition set_termios (a : Z) : T Z :=
  if a =? 0 then mret (- EINVAL)
  else
    me ← onsys curproc;
    if Proc.tty me <? 0 then mret (- ENOTTY)
    else
      iflag ← ouser (fun pd => uword pd a);
      oflag ← ouser (fun pd => uword pd (a + 4));
      cflag ← ouser (fun pd => uword pd (a + 8));
      lflag ← ouser (fun pd => uword pd (a + 12));
      line ← ouser (fun pd => uload pd (a + 16));
      cc ← ouser (fun pd => ureads pd (a + 17) 32);
      ispeed ← ouser (fun pd => uword pd (a + 52));
      ospeed ← ouser (fun pd => uword pd (a + 56));
      tmod (Proc.tty me) (fun x => x <| tios := Termios iflag oflag cflag lflag line cc ispeed ospeed |>);;
      mret 0.

(** [ttys[t].pgrp = v] *)
Definition set_pgrp (t v : Z) : T unit :=
  s ← get; l ← aset "ttys" (kttys (tk s)) t v; modify (fun s => s <| tk := tk s <| kttys := l |> |>).

Definition sys_ioctl : T Z :=
  me ← onsys curproc;
  o ← onsys (argfd 0);
  match o, argint me 1, argptr me 2 4 with
  | inl (_, f), Some req, Some arg =>
      if req =? TCGETS then get_termios arg
      else if (req =? TCSETS) || (req =? TCSETSW) || (req =? TCSETSF) then set_termios arg
      else if req =? TIOCGWINSZ then tty_get_winsize arg
      else if req =? TIOCGPGRP then
        x ← onsys (fat f);
        match fip x with
        | None => fault "inode pointer"
        | Some ip =>
            d ← onsys (onfs (iat ip));
            if (fmt (mode d) =? S_IFCHR) || negb (major d =? 4) then mret (- ENOTTY)
            else
              s ← get;
              g ← aget "ttys" (kttys (tk s)) (minor d);
              ouser (fun pd => ustores pd arg (bytes32 g));;
              mret 0
        end
      else if req =? TIOCSPGRP then
        g ← ouser (fun pd => uword pd arg);
        set_pgrp (Proc.tty me) (i32 g);;
        mret 0
      else if req =? VT_ACTIVATE then change_tty (i32 arg)
      else if req =? VT_WAITACTIVE then mret 0
      else
        _printk us (text "sys_ioctl") (text "%s: bad ioctl request [0x%x]" ++ [10]) [PStr (Some (text (name me))); PInt req];;
        mret (- ENOTTY)
  | _, _, _ => mret (- EINVAL)
  end.
End ioctl.
