(* ===== verification/Exec.v ===== *)
(** * exec (src/kernel/lib/exec.c, loaduvm of src/kernel/mm/vm.c, sys_exec of
      src/kernel/sys/sys.c)

    A program image is built in a new page directory, from the ELF file the path
    names or by the interpreter a script names, and replaces the image of the
    running process only when everything has succeeded.  [buf0] is what the stack
    held where the code reads the first bytes of the file.  switchuvm loads CPU
    registers; its checks are modelled.  Memory exhaustion in allocuvm marks the
    newest process killed. *)
From Stdlib Require Import ZArith Lia.
From Stdlib Require Ascii String.
From stdpp Require Import base numbers list gmap strings.
From S2P Require Import Prelude KString Locks Kalloc Vm Pipe Proc Syscall Block Log Fs Signal File SysFd SysDir.
Local Open Scope Z_scope.

Definition MAXARG : Z := 32.
Definition USERSTACK : Z := 64 * 1024 * 32.
Definition ENOEXEC : Z := 8.
Definition ELF_MAGIC : Z := 0x464C457F.
Definition ELF_PROG_LOAD : Z := 1.
Definition ELFHDR : Z := 52.
Definition PROGHDR : Z := 32.

(** The fields exec uses of struct elfhdr and struct proghdr. *)
Definition elf_magic (e : blk) : Z := get32 e 0.
Definition elf_entry (e : blk) : Z := get32 e 24.
Definition elf_phoff (e : blk) : Z := get32 e 28.
Definition elf_phnum (e : blk) : Z := get16 e 44.
Definition ph_type (p : blk) : Z := get32 p 0.
Definition ph_off (p : blk) : Z := get32 p 4.
Definition ph_vaddr (p : blk) : Z := get32 p 8.
Definition ph_filesz (p : blk) : Z := get32 p 16.
Definition ph_memsz (p : blk) : Z := get32 p 20.

(** The interpreter of a script: from [#!] past blanks, up to a blank, a newline
    or a nul; [None] when the buffer ends first. *)
Fixpoint skip_blanks (l : list Z) : list Z :=
  match l with
  | c :: l' => if (c =? 32) || (c =? 9) then skip_blanks l' else l
  | [] => []
  end.
Fixpoint word (l : list Z) : option (list Z) :=
  match l with
  | [] => None
  | c :: l' => if (c =? 0) || (c =? 32) || (c =? 9) || (c =? 10) then Some [] else cons c <$> word l'
  end.

(** What follows the last slash of the path. *)
Fixpoint last_name (path last : list Z) : list Z :=
  match path with
  | [] => last
  | c :: path' => last_name path' (if c =? 47 then path' else last)
  end.
(** curproc->name after [safestrcpy(curproc->name, last, 16)] *)
Definition proc_name (path : list Z) : string :=
  String.string_of_list_ascii (map (fun c => Ascii.ascii_of_nat (Z.to_nat (u8 c))) (take 15 (last_name path path))).

Section exec.
Context {C : Type} `{BufCache C}.
Context (devsw : Z -> @devops C) (kend PHYSTOP kdata : Z) (name0 buf0 : list Z).
#[local] Abbreviation K := (M (ksys C)).

(** loaduvm from offset [i] of the segment on. *)
Fixpoint load_loop (fuel : nat) (pgdir addr : Z) (ip : nat) (offset sz i : Z) : K Z :=
  match fuel with
  | O => fault "loaduvm"
  | S fuel' =>
      if i <? sz then
        pte ← onmm (walkpgdir pgdir (u32 (addr + i)) false);
        if pte =? 0 then panic "loaduvm: address should exist"
        else
          e ← onmm (load pte);
          let pa := PTE_ADDR e in
          let n := if sz - i <? PGSIZE then sz - i else PGSIZE in
          r ← onfs (readi devsw ip (u32 (offset + i)) n);
          onmm (kpoke (P2V pa) r.2);;
          if negb (u32 r.1 =? n) then mret (-1)
          else load_loop fuel' pgdir addr ip offset sz (u32 (i + PGSIZE))
      else mret 0
  end.
Definition loaduvm (pgdir addr : Z) (ip : nat) (offset sz : Z) : K Z :=
  load_loop (Z.to_nat (sz / PGSIZE) + 2) pgdir addr ip offset sz 0.

(** allocuvm, with the effect of running out of memory on the newest process. *)
Definition grow (pgdir oldsz newsz : Z) : K Z :=
  r ← onmm (allocuvm kend PHYSTOP pgdir oldsz newsz);
  (if (r.2 : bool) then
     s ← get;
     match find_proc (-2) None (kps s) with
     | Some k => onps (pmod k (fun p => p <| killed := 1 |>))
     | None => fault null_deref
     end
   else mret tt);;
  mret r.1.

(** The size after the segments, or [None] on an error; [k] headers are left. *)
Fixpoint load_segments (k : nat) (pgdir : Z) (ip : nat) (off sz : Z) : K (option Z) :=
  match k with
  | O => mret (Some sz)
  | S k' =>
      r ← onfs (readi devsw ip (u32 off) PROGHDR);
      let ph := r.2 in
      if negb (r.1 =? PROGHDR) then mret None
      else if negb (ph_type ph =? ELF_PROG_LOAD) then load_segments k' pgdir ip (i32 (off + PROGHDR)) sz
      else if ph_memsz ph <? ph_filesz ph then mret None
      else if u32 (ph_vaddr ph + ph_memsz ph) <? ph_vaddr ph then mret None
      else
        sz' ← grow pgdir sz (u32 (ph_vaddr ph + ph_memsz ph));
        if sz' =? 0 then mret None
        else if negb (ph_vaddr ph mod PGSIZE =? 0) then mret None
        else
          l ← loaduvm pgdir (ph_vaddr ph) ip (ph_off ph) (ph_filesz ph);
          if l <? 0 then mret None
          else load_segments k' pgdir ip (i32 (off + PROGHDR)) sz'
  end.

(** The argument strings from number [argc] on, below [sp]: the stack pointer and
    the addresses of the strings. *)
Fixpoint push_args (pgdir : Z) (argv : list (list Z)) (argc sp : Z) : K (option (Z * list Z)) :=
  match argv with
  | [] => mret (Some (sp, []))
  | a :: argv' =>
      if MAXARG <=? argc then mret None
      else
        let sp := Z.land (u32 (sp - (Z.of_nat (length a) + 1))) (Z.lnot 3) in
        c ← onmm (copyout pgdir sp (a ++ [0]));
        if c <? 0 then mret None
        else
          r ← push_args pgdir argv' (argc + 1) sp;
          mret (match r with Some (sp', ps) => Some (sp', sp :: ps) | None => None end)
  end.

(** ustack for [ps] below [sp]: a return address, argc, argv, the pointers, 0. *)
Definition ustack (sp : Z) (ps : list Z) : list Z :=
  let argc := Z.of_nat (length ps) in
  [0xffffffff; argc; u32 (sp - (argc + 1) * 4)] ++ ps ++ [0].

Definition switchuvm (p : proc) : K unit :=
  if kstack p =? 0 then panic "switchuvm: no kstack"
  else if pgdir p =? 0 then panic "switchuvm: no pgdir"
  else mret tt.

(** The new image of the running process. *)
Definition image (path : list Z) (pg size entry sp : Z) (p : proc) : proc :=
  p <| name := proc_name path |> <| pgdir := pg |> <| sz := size |> <| tf := tf p <| eip := entry |> <| esp := sp |> |>.
Definition no_handlers (p : proc) : proc := p <| sighandlers := replicate NSIG SIG_DFL |>.

(** From the user stack on, when the file has been closed: an error frees the new
    page directory. *)
Definition exec_stack (path : list Z) (argv : list (list Z)) (pg sz entry : Z) : K Z :=
  let bad := onmm (freevm kend PHYSTOP pg);; mret (- ENOEXEC) in
  let sz := u32 (PGROUNDUP sz) in
  sz' ← grow pg sz (u32 (sz + USERSTACK));
  if sz' =? 0 then bad
  else
    onmm (clearpteu pg (u32 (sz' - USERSTACK)));;
    r ← push_args pg argv 0 sz';
    match r with
    | None => bad
    | Some (sp, ps) =>
        let frame := ustack sp ps in
        let sp := u32 (sp - Z.of_nat (length frame) * 4) in
        c ← onmm (copyout pg sp (concat (map bytes32 frame)));
        if c <? 0 then bad
        else
          old ← curproc;
          pset (image path pg sz' entry sp);;
          me ← curproc;
          switchuvm me;;
          onmm (freevm kend PHYSTOP (pgdir old));;
          pset no_handlers;;
          mret 0
    end.

(** The depth bounds the chain of interpreters, which the code does not: each
    level is a call of exec on the one kernel stack page. *)
Fixpoint exec (depth : nat) (path : list Z) (argv : list (list Z)) : K Z :=
  match depth with
  | O => fault "kernel stack"
  | S depth' =>
      kbegin_op;;
      o ← knamei devsw name0 path;
      match o with
      | None => kend_op;; mret (-1)
      | Some ip =>
          onfs (ilock (Some ip));;
          let bad_file := onfs (iunlockput (Some ip));; kend_op;; mret (- ENOEXEC) in
          r ← onfs (readi devsw ip 0 128);
          let buf := r.2 ++ drop (length r.2) buf0 in
          if r.1 <? 2 then bad_file
          else if (get8 buf 0 =? 35) && (get8 buf 1 =? 33) then
            match word (skip_blanks (drop 2 buf)) with
            | None => fault "buf"
            | Some interp =>
                onfs (iunlockput (Some ip));;
                kend_op;;
                exec depth' interp (interp :: path :: take (Z.to_nat (MAXARG - 3)) (tail argv))
            end
          else
            h ← onfs (readi devsw ip 0 ELFHDR);
            let elf := h.2 in
            if negb (h.1 =? ELFHDR) || negb (elf_magic elf =? ELF_MAGIC) then bad_file
            else
              pg ← onmm (setupkvm kend PHYSTOP kdata);
              if pg =? 0 then bad_file
              else
                o ← load_segments (Z.to_nat (elf_phnum elf)) pg ip (i32 (elf_phoff elf)) 0;
                match o with
                | None => onmm (freevm kend PHYSTOP pg);; bad_file
                | Some sz =>
                    onfs (iunlockput (Some ip));;
                    kend_op;;
                    exec_stack path argv pg sz (elf_entry elf)
                end
      end
  end.

(** ** The system call *)

(** The argument strings of the user's array, up to its null pointer. *)
Fixpoint fetch_argv (k : nat) (p : proc) (umem : mem) (uargv : Z) : list (list Z) + Z :=
  match k with
  | O => inr (- EINVAL)
  | S k' =>
      match fetchint p umem uargv with
      | None => inr (- ENOMEM)
      | Some uarg =>
          if u32 uarg =? 0 then inl []
          else match fetchstr p umem (u32 uarg) with
               | None => inr (- EPERM)
               | Some a =>
                   match fetch_argv k' p umem (u32 (uargv + 4)) with
                   | inl l => inl (ustr umem a :: l)
                   | inr e => inr e
                   end
               end
      end
  end.

(** The x bit that applies to the process. *)
Definition can_exec (p : proc) (d : inode) : bool :=
  let m := u32 (mode d) in
  if uid p =? iuid d then nz (Z.land m 64)
  else if gid p =? igid d then nz (Z.land m 8)
  else nz (Z.land m 1).

Definition sys_exec (depth : nat) : K Z :=
  p ← curproc;
  s ← get;
  let umem := uview (pgdir p) (kmm s) in
  match argstr p umem 0, argint p 1 with
  | Some a, Some uargv =>
      let path := ustr umem a in
      match fetch_argv (Z.to_nat MAXARG) p umem (u32 uargv) with
      | inr e => mret e
      | inl argv =>
          kbegin_op;;
          o ← knamei devsw name0 path;
          match o with
          | None => kend_op;; mret (- ENOENT)
          | Some ip =>
              onfs (ilock (Some ip));;
              d ← onfs (iat ip);
              onfs (iunlockput (Some ip));;
              kend_op;;
              if can_exec p d then exec depth path argv else mret (- EPERM)
          end
      end
  | _, _ => mret (- EINVAL)
  end.
End exec.
