(* ===== verification/ExecThm.v ===== *)
(** * exec: all or nothing

    Until the new image is complete exec does not touch the running process; a
    failure leaves it as it was, and a success replaces its image, with the entry
    point of an ELF header read from the file and the argument frame copied to the
    new stack. *)
From Stdlib Require Import ZArith Lia.
From stdpp Require Import base numbers list gmap strings.
From S2P Require Import Prelude KString Locks Kalloc Vm Pipe Proc Syscall Block Log Fs Signal File SysFd SysDir Bio BioThm FdThm FdRefs Exec.
Local Open Scope Z_scope.

(** A process apart from its killed flag, which memory exhaustion sets. *)
Definition spared (p : proc) : proc := p <| killed := 0 |>.

Section exec_thm.
Context {C : Type} `{BufCache C}.
Context (devsw : Z -> @devops C) (kend PHYSTOP kdata : Z) (name0 buf0 : list Z).
#[local] Abbreviation K := (M (ksys C)).
Implicit Types (s : ksys C).

Record same_procs s s' : Prop := SameProcs {
  sp_tab : map spared (Proc.ptable (kps s')) = map spared (Proc.ptable (kps s));
  sp_rest : (cur (kps s'), nextpid (kps s'), initproc (kps s'), ptlocked (kps s'))
            = (cur (kps s), nextpid (kps s), initproc (kps s), ptlocked (kps s));
  sp_files : (ftable s', ftlocked s', kpipes s', kttys s') = (ftable s, ftlocked s, kpipes s, kttys s)
}.
#[global] Instance same_procs_preorder : PreOrder same_procs.
Proof.
  split.
  - intros s. split; reflexivity.
  - intros s1 s2 s3 [A1 A2 A3] [B1 B2 B3]. split; congruence.
Qed.

(** [m] leaves the processes alone. *)
Definition keeps {A} (m : K A) : Prop := forall s a s', m s = Ok a s' -> same_procs s s'.

Lemma kept_bind {A B} (m : K A) (k : A -> K B) : keeps m -> (forall a, keeps (k a)) -> keeps (m ≫= k).
Proof. intros Hm Hk s b s' E. apply bind_Ok in E as (a & s1 & E1 & E2). etransitivity; [exact (Hm _ _ _ E1) | exact (Hk _ _ _ _ E2)]. Qed.
Lemma kept_ret {A} (a : A) : keeps (mret a).
Proof. intros s b s' [= _ <-]. reflexivity. Qed.
Lemma keeps_get : keeps get.
Proof. intros s b s' [= _ <-]. reflexivity. Qed.
Lemma keeps_panic {A} w : keeps (panic w : K A).
Proof. intros s b s' [=]. Qed.
Lemma kept_fault {A} w : keeps (fault w : K A).
Proof. intros s b s' [=]. Qed.
Lemma keeps_onmm {A} (m : M kstate A) : keeps (onmm m).
Proof. intros s b s' E. unfold onmm in E. destruct (m (kmm s)); try discriminate. injection E as _ <-. split; reflexivity. Qed.
Lemma curproc_inv s p s' : curproc s = Ok p s' -> s' = s /\ exists i, cur (kps s) = Some i /\ Proc.ptable (kps s) !! i = Some p.
Proof.
  unfold curproc, onps. unfold myproc, pget. mstep. destruct (cur (kps s)) as [i|] eqn:Ec; [|discriminate].
  destruct (Proc.ptable (kps s) !! i) as [q|] eqn:Eq; [|discriminate]. intros [= <- <-]. split; [destruct s; reflexivity | eauto].
Qed.
Lemma keeps_curproc : keeps curproc.
Proof. intros s p s' E. apply curproc_inv in E as [-> _]. reflexivity. Qed.
Lemma keeps_onfs {A} (m : M (fsys C) A) : keeps (onfs m).
Proof.
  unfold onfs. apply kept_bind; [apply keeps_curproc|]. intros p s a s' E. unfold as_proc in E.
  destruct (m _); try discriminate. injection E as _ <-. split; reflexivity.
Qed.
Lemma keeps_killed k : keeps (onps (pmod k (fun p => p <| killed := 1 |>))).
Proof.
  intros s a s' [= _ <-]. split; try reflexivity. cbn. generalize (Proc.ptable (kps s)). intros l. revert k.
  induction l as [|q l IH]; intros [|k]; cbn; try reflexivity. f_equal. apply IH.
Qed.

Create HintDb keeps discriminated.
#[local] Hint Resolve kept_ret keeps_get keeps_panic kept_fault keeps_onmm keeps_curproc keeps_onfs keeps_killed : keeps.
Ltac keep :=
  repeat (intros;
    match goal with
    | |- keeps (if ?b then _ else _) => destruct b
    | |- keeps (match ?o with _ => _ end) => destruct o
    | |- _ => solve [auto with keeps nocore]
    | |- keeps (mbind _ _) => apply kept_bind
    end).

Lemma keeps_begin : keeps kbegin_op.
Proof. apply keeps_onfs. Qed.
Lemma keeps_end : keeps kend_op.
Proof. apply keeps_onfs. Qed.
Lemma keeps_namei path : keeps (knamei devsw name0 path).
Proof. apply keeps_onfs. Qed.
Lemma keeps_grow pg o n : keeps (grow kend PHYSTOP pg o n).
Proof. unfold grow. keep. Qed.
#[local] Hint Resolve keeps_begin keeps_end keeps_namei keeps_grow : keeps.
Lemma keeps_load_loop fuel pg addr ip off sz i : keeps (load_loop devsw fuel pg addr ip off sz i).
Proof. revert i. induction fuel as [|fuel IH]; intros i; cbn [load_loop]; keep. Qed.
Lemma keeps_loaduvm pg addr ip off sz : keeps (loaduvm devsw pg addr ip off sz).
Proof. apply keeps_load_loop. Qed.
#[local] Hint Resolve keeps_loaduvm : keeps.
Lemma keeps_load_segments k pg ip off sz : keeps (load_segments devsw kend PHYSTOP k pg ip off sz).
Proof. revert off sz. induction k as [|k IH]; intros off sz; cbn [load_segments]; keep. Qed.
Lemma keeps_push_args pg argv argc sp : keeps (push_args pg argv argc sp).
Proof. revert argc sp. induction argv as [|a argv IH]; intros argc sp; cbn [push_args]; keep. Qed.
#[local] Hint Resolve keeps_load_segments keeps_push_args : keeps.

(** ** The argument frame *)

(** The words at the stack pointer [sp] a program starts with: a return address,
    argc, argv, which is the address of the pointers that follow, and a null. *)
Definition arg_frame (sp : Z) (ps : list Z) : list Z := [0xffffffff; Z.of_nat (length ps); u32 (sp + 12)] ++ ps ++ [0].

Lemma ustack_arg_frame sp ps : ustack sp ps = arg_frame (u32 (sp - Z.of_nat (length (ustack sp ps)) * 4)) ps.
Proof.
  unfold ustack, arg_frame. rewrite uwrap_add_l. cbn [app length]. rewrite length_app. cbn [length]. do 4 f_equal. lia.
Qed.

Lemma push_args_length pg argv argc sp s sp' ps s' : push_args pg argv argc sp s = Ok (Some (sp', ps)) s' -> length ps = length argv.
Proof.
  revert argc sp s sp' ps. induction argv as [|a argv IH]; intros argc sp s sp' ps; cbn [push_args].
  - intros [= _ <- _]. reflexivity.
  - destruct (_ <=? _); [discriminate|]. intros E. apply bind_Ok in E as (c & s1 & E1 & E). destruct (c <? 0); [discriminate|].
    apply bind_Ok in E as (r & s2 & E2 & E). destruct r as [[sp2 ps2]|]; [|discriminate]. injection E as <- <- <-. cbn. f_equal. exact (IH _ _ _ _ _ E2).
Qed.

(** ** Replacing the image *)

Lemma spared_image path pg size entry sp p : spared (no_handlers (image path pg size entry sp p)) = no_handlers (image path pg size entry sp (spared p)).
Proof. reflexivity. Qed.

(** What [pset] does to the running process. *)
Lemma pset_Ok f s u s' i p : pset f s = Ok u s' -> cur (kps s) = Some i -> Proc.ptable (kps s) !! i = Some p ->
  s' = s <| kps := kps s <| Proc.ptable := <[i := f p]> (Proc.ptable (kps s)) |> |>.
Proof.
  unfold pset, onps, myproc, pmod. mstep. intros E Hc Hp. rewrite Hc in E. injection E as _ <-. rewrite (alter_insert _ _ _ _ Hp). reflexivity.
Qed.

(** The running process [i], [p] before, has the image [path] built in [pg], with
    the frame of [argc] arguments copied to its stack. *)
Definition became (i : nat) (p : proc) path argc pg entry s s' : Prop := exists size sp ps c s1 s2,
  same_procs s s1 /\ onmm (copyout pg sp (concat (map bytes32 (arg_frame sp ps)))) s1 = Ok c s2 /\ 0 <= c /\ length ps = argc
  /\ pg <> 0
  /\ map spared (Proc.ptable (kps s')) = <[i := no_handlers (image path pg size entry sp (spared p))]> (map spared (Proc.ptable (kps s))).

Lemma same_procs_cur s s' i p : same_procs s s' -> cur (kps s) = Some i -> Proc.ptable (kps s) !! i = Some p ->
  exists p', cur (kps s') = Some i /\ Proc.ptable (kps s') !! i = Some p' /\ spared p' = spared p.
Proof.
  intros [H1 H2 H3] Hc Hp. apply (f_equal (fun l => l !! i)) in H1. rewrite !list_lookup_fmap, Hp in H1. injection H2 as H2 _ _ _.
  destruct (Proc.ptable (kps s') !! i) as [p'|]; [|discriminate]. exists p'. split_and!; [congruence | reflexivity | exact (Some_inj _ _ H1)].
Qed.

Lemma image_commit path pg size entry sp (r : Z) s s' i p :
  (old ← curproc (C := C); pset (image path pg size entry sp);; me ← curproc; switchuvm me;;
   onmm (freevm kend PHYSTOP (pgdir old));; pset no_handlers;; mret r) s = Ok r s' ->
  cur (kps s) = Some i -> Proc.ptable (kps s) !! i = Some p ->
  pg <> 0 /\ map spared (Proc.ptable (kps s')) = <[i := no_handlers (image path pg size entry sp (spared p))]> (map spared (Proc.ptable (kps s))).
Proof.
  intros E Hc Hp. rewrite (bind_step _ _ _ _ _ (curproc_run s i p Hc Hp)) in E. apply bind_Ok in E as ([] & s1 & E1 & E).
  pose proof (pset_Ok _ _ _ _ _ _ E1 Hc Hp) as ->. pose proof (lookup_lt_Some _ _ _ Hp) as Hlt. set (p1 := image path pg size entry sp p) in *.
  set (s1 := s <| kps := _ |>) in E. assert (cur (kps s1) = Some i) as Hc1 by exact Hc.
  assert (Proc.ptable (kps s1) !! i = Some p1) as Hp1 by (apply list_lookup_insert_eq; exact Hlt).
  rewrite (bind_step _ _ _ _ _ (curproc_run s1 i p1 Hc1 Hp1)) in E. apply bind_Ok in E as ([] & s2 & E2 & E).
  unfold switchuvm in E2. destruct (kstack p1 =? 0); [discriminate|]. destruct (Z.eqb_spec (pgdir p1) 0) as [|Hpg]; [discriminate|]. injection E2 as <-.
  apply bind_Ok in E as ([] & s3 & E3 & E). unfold onmm in E3. destruct (freevm _ _ _ (kmm s1)); try discriminate. injection E3 as _ <-.
  apply bind_Ok in E as ([] & s4 & E4 & E). injection E as <-. set (s3 := s1 <| kmm := _ |>) in E4.
  pose proof (pset_Ok _ _ _ _ i p1 E4 Hc1 Hp1) as ->. split; [exact Hpg|]. cbn. rewrite list_insert_insert_eq, list_fmap_insert. reflexivity.
Qed.

Lemma exec_stack_Ok path argv pg sz entry r s s' i p :
  exec_stack kend PHYSTOP path argv pg sz entry s = Ok r s' -> cur (kps s) = Some i -> Proc.ptable (kps s) !! i = Some p ->
  (r = - ENOEXEC /\ same_procs s s') \/ (r = 0 /\ became i p path (length argv) pg entry s s').
Proof.
  intros E Hc Hp. unfold exec_stack in E. apply bind_Ok in E as (sz' & s1 & E1 & E). pose proof (keeps_grow _ _ _ _ _ _ E1) as K1.
  assert (forall s1, same_procs s s1 -> (onmm (freevm kend PHYSTOP pg);; mret (- ENOEXEC)) s1 = Ok r s' -> r = - ENOEXEC /\ same_procs s s') as Hbad.
  { intros s0 K0 E0. apply bind_Ok in E0 as ([] & s2 & E2 & E0). injection E0 as <- <-. split; [reflexivity|]. etransitivity; [exact K0 | exact (keeps_onmm _ _ _ _ E2)]. }
  destruct (sz' =? 0); [left; exact (Hbad s1 K1 E)|]. apply bind_Ok in E as ([] & s2 & E2 & E). apply bind_Ok in E as (o & s3 & E3 & E).
  assert (same_procs s s3) as K3 by (transitivity s1; [exact K1 | transitivity s2; [exact (keeps_onmm _ _ _ _ E2) | exact (keeps_push_args _ _ _ _ _ _ _ E3)]]).
  destruct o as [[sp ps]|]; [|left; exact (Hbad s3 K3 E)]. apply bind_Ok in E as (c & s4 & E4 & E). pose proof (keeps_onmm _ _ _ _ E4) as K4.
  destruct (Z.ltb_spec c 0) as [Hc0|Hc0]; [left; exact (Hbad s4 ltac:(etransitivity; eassumption) E)|]. right.
  assert (same_procs s s4) as K by (etransitivity; eassumption). destruct (same_procs_cur _ _ _ _ K Hc Hp) as (p' & Hc' & Hp' & Ep).
  assert (r = 0) as ->. { clear -E. repeat (apply bind_Ok in E as (? & ? & _ & E)). injection E as <- _. reflexivity. }
  split; [reflexivity|]. destruct (image_commit _ _ _ _ _ _ _ _ _ _ E Hc' Hp') as [Hpg Et].
  rewrite Ep, (sp_tab _ _ K) in Et. exists sz', (u32 (sp - Z.of_nat (length (ustack sp ps)) * 4)), ps, c, s3, s4.
  split_and!; [exact K3 | rewrite <-(ustack_arg_frame sp ps); exact E4 | exact Hc0 | exact (push_args_length _ _ _ _ _ _ _ _ E3) | exact Hpg | exact Et].
Qed.

Lemma became_from i p p1 path argc pg entry s s1 s' :
  same_procs s s1 -> spared p1 = spared p -> became i p1 path argc pg entry s1 s' -> became i p path argc pg entry s s'.
Proof.
  intros K Ep (size & sp & ps & c & s2 & s3 & H1 & H2 & H3 & H4 & H5 & H6). exists size, sp, ps, c, s2, s3.
  split_and!; try assumption; [etransitivity; eassumption|]. rewrite H6, Ep, (sp_tab _ _ K). reflexivity.
Qed.

(** The entry point is that of an ELF header read from the start of a file. *)
Definition elf_read (elf : blk) : Prop :=
  elf_magic elf = ELF_MAGIC /\ exists ip s1 s2, onfs (readi devsw ip 0 ELFHDR) s1 = Ok (ELFHDR, elf) s2.

(** How exec can return. *)
Definition exec_result (i : nat) (p : proc) s r s' : Prop :=
  (r < 0 /\ same_procs s s') \/ (r = 0 /\ exists path argc pg elf, elf_read elf /\ became i p path argc pg (elf_entry elf) s s').

Lemma exec_result_from i p p1 s s1 r s' : same_procs s s1 -> spared p1 = spared p -> exec_result i p1 s1 r s' -> exec_result i p s r s'.
Proof.
  intros K Ep [[Hr Hs]|(Hr & path & argc & pg & elf & He & Hb)]; [left; split; [exact Hr | etransitivity; eassumption]|].
  right. split; [exact Hr|]. exists path, argc, pg, elf. split; [exact He | exact (became_from _ _ _ _ _ _ _ _ _ _ K Ep Hb)].
Qed.
(** An error path: code that leaves the processes alone, then a negative result. *)
Lemma exec_error {A} (m : K A) e i p s r s' : keeps m -> e < 0 -> (m;; mret e) s = Ok r s' -> exec_result i p s r s'.
Proof. intros Hm He E. apply bind_Ok in E as (a & s1 & E1 & E). injection E as <- <-. left. split; [exact He | exact (Hm _ _ _ E1)]. Qed.
(** A step that leaves the processes alone. *)
Lemma exec_step {A} (m : K A) (k : A -> K Z) i p s r s' :
  keeps m -> cur (kps s) = Some i -> Proc.ptable (kps s) !! i = Some p -> (m ≫= k) s = Ok r s' ->
  (forall a s1 p1, m s = Ok a s1 -> cur (kps s1) = Some i -> Proc.ptable (kps s1) !! i = Some p1 -> k a s1 = Ok r s' -> exec_result i p1 s1 r s') ->
  exec_result i p s r s'.
Proof.
  intros Hm Hc Hp E Hk. apply bind_Ok in E as (a & s1 & E1 & E). pose proof (Hm _ _ _ E1) as K1.
  destruct (same_procs_cur _ _ _ _ K1 Hc Hp) as (p1 & Hc1 & Hp1 & Ep). exact (exec_result_from _ _ _ _ _ _ _ K1 Ep (Hk a s1 p1 E1 Hc1 Hp1 E)).
Qed.

Lemma exec_Ok depth path argv i p s r s' :
  exec devsw kend PHYSTOP kdata name0 buf0 depth path argv s = Ok r s' -> cur (kps s) = Some i -> Proc.ptable (kps s) !! i = Some p ->
  exec_result i p s r s'.
Proof.
  revert path argv s p. induction depth as [|depth IH]; intros path argv s p E Hc Hp; [discriminate|]. cbn [exec] in E.
  refine (exec_step _ _ _ _ _ _ _ keeps_begin Hc Hp E _). clear -IH. intros _ s1 p1 _ Hc Hp E.
  refine (exec_step _ _ _ _ _ _ _ (keeps_namei path) Hc Hp E _). clear -IH. intros [ip|] s p _ Hc Hp E; [|exact (exec_error _ (-1) _ _ _ _ _ keeps_end eq_refl E)].
  refine (exec_step _ _ _ _ _ _ _ (keeps_onfs _) Hc Hp E _). clear -IH. intros _ s1 p1 _ Hc Hp E.
  assert (forall s p r, (onfs (iunlockput (Some ip));; kend_op;; mret (- ENOEXEC)) s = Ok r s' -> exec_result i p s r s') as Hbad.
  { intros s0 p0 r0 E0. rewrite <-bind_assoc in E0. refine (exec_error _ (- ENOEXEC) _ _ _ _ _ _ eq_refl E0). apply kept_bind; [apply keeps_onfs | intros; apply keeps_end]. }
  refine (exec_step _ _ _ _ _ _ _ (keeps_onfs _) Hc Hp E _). clear -IH Hbad. intros a s p _ Hc Hp E.
  destruct (a.1 <? 2); [exact (Hbad _ _ _ E)|]. destruct (_ && _).
  - destruct (word _) as [interp|]; [|discriminate]. refine (exec_step _ _ _ _ _ _ _ (keeps_onfs _) Hc Hp E _). clear -IH. intros _ s1 p1 _ Hc Hp E.
    refine (exec_step _ _ _ _ _ _ _ keeps_end Hc Hp E _). clear -IH. intros _ s p _ Hc Hp E. exact (IH _ _ _ _ E Hc Hp).
  - apply bind_Ok in E as (h & sh & Eh & E). pose proof (keeps_onfs _ _ _ _ Eh) as K1. destruct (same_procs_cur _ _ _ _ K1 Hc Hp) as (ph & Hc1 & Hp1 & Ep).
    apply (exec_result_from i p ph s sh r s' K1 Ep). destruct (negb (h.1 =? ELFHDR) || negb (elf_magic h.2 =? ELF_MAGIC)) eqn:Eb; [exact (Hbad _ _ _ E)|].
    apply orb_false_iff in Eb as [Eb1 Eb2]. apply negb_false_iff, Z.eqb_eq in Eb1, Eb2.
    assert (elf_read h.2) as Helf by (split; [exact Eb2|]; exists ip, s, sh; rewrite Eh; destruct h; cbn in *; congruence).
    clear -IH Hbad Helf E Hc1 Hp1. refine (exec_step _ _ _ _ _ _ _ (keeps_onmm _) Hc1 Hp1 E _). clear -IH Hbad Helf. intros pg s p _ Hc Hp E.
    destruct (pg =? 0); [exact (Hbad _ _ _ E)|]. refine (exec_step _ _ _ _ _ _ _ (keeps_load_segments _ _ _ _ _) Hc Hp E _). clear -IH Hbad Helf.
    intros [sz|] s1 p1 _ Hc Hp E; [|refine (exec_step _ _ _ _ _ _ _ (keeps_onmm _) Hc Hp E _); intros _ s2 p2 _ _ _ E2; exact (Hbad _ _ _ E2)].
    refine (exec_step _ _ _ _ _ _ _ (keeps_onfs _) Hc Hp E _). clear -Helf. intros _ s p _ Hc Hp E.
    refine (exec_step _ _ _ _ _ _ _ keeps_end Hc Hp E _). clear -Helf. intros _ s1 p1 _ Hc Hp E.
    destruct (exec_stack_Ok _ _ _ _ _ _ _ _ _ _ E Hc Hp) as [[-> Hs]|[-> Hb]]; [left; split; [reflexivity | exact Hs] | right; split; [reflexivity|]].
    exists path, (length argv), pg, h.2. split; [exact Helf | exact Hb].
Qed.

End exec_thm.

(** A process of size 0 has no path argument. *)
Definition exec_sys : ksys bstate :=
  fd_sys <| kps := kps fd_sys <| Proc.ptable := <[0%nat := fd_proc 0 <| sz := 0 |>]> (Proc.ptable (kps fd_sys)) |> |>.
