(* ===== verification/SysProc.v ===== *)
(** * Process system calls (src/kernel/sys/sys.c, src/kernel/cpu/proc.c)

    fork, exit, waitpid and grow_proc of Proc.v in the whole kernel, where the
    calls they make on open files, inodes, pages and page tables are the
    operations of File.v, Fs.v, Kalloc.v and Vm.v, and the system calls over
    them.  [exit] of Proc.v records the calls it makes; here the files and the
    directory have been given back when it runs, so that its records are of calls
    already made.  [junk] is what the kernel stack held in the fields of a struct
    that the code does not set. *)
From Stdlib Require Import ZArith Lia.
From stdpp Require Import base numbers list gmap strings.
From S2P Require Import Prelude KString Locks Kalloc Vm Pipe Proc Syscall Cred Block Log Fs Signal File SysFd SysDir Exec.
Local Open Scope Z_scope.

Section sysproc.
Context {C : Type} `{BufCache C}.
Context (devsw : Z -> @devops C) (kend PHYSTOP kdata : Z).
Context (name0 : list Z) (pad : nat -> Z).
#[local] Abbreviation K := (M (ksys C)).

(** ** Code on the running process alone, and on it and its memory *)

Definition oncur {A} (m : M proc A) : K A := fun s =>
  match cur (kps s) with
  | None => Fault null_deref
  | Some i =>
      match Proc.ptable (kps s) !! i with
      | None => Fault "ptable index"
      | Some p =>
          let upd q := s <| kps := kps s <| Proc.ptable := <[i := q]> (Proc.ptable (kps s)) |> |> in
          match m p with
          | Ok a q => Ok a (upd q)
          | Panic w => Panic w
          | Fault w => Fault w
          | Block ch q => Block ch (upd q)
          end
      end
  end.
Definition onsig {A} (m : M sigst A) : K A := fun s =>
  match cur (kps s) with
  | None => Fault null_deref
  | Some i =>
      match Proc.ptable (kps s) !! i with
      | None => Fault "ptable index"
      | Some p =>
          let upd q := s <| kps := kps s <| Proc.ptable := <[i := sproc q]> (Proc.ptable (kps s)) |> |> <| kmm := sk q |> in
          match m (Sigst p (kmm s)) with
          | Ok a q => Ok a (upd q)
          | Panic w => Panic w
          | Fault w => Fault w
          | Block ch q => Block ch (upd q)
          end
      end
  end.

(** ** Memory *)

Definition kgrow_proc (n : Z) : K Z :=
  p ← curproc;
  sz' ← (if 0 <? n then grow kend PHYSTOP (pgdir p) (sz p) (u32 (sz p + n))
         else if n <? 0 then onmm (deallocuvm kend PHYSTOP (pgdir p) (sz p) (u32 (sz p + n)))
         else mret (sz p));
  r ← onps (grow_proc (fun _ _ => sz') n);
  if r <? 0 then mret r
  else me ← curproc; switchuvm me;; mret r.

Definition sys_brk : K Z :=
  argi 0 (fun addr =>
    p ← curproc;
    let old := i32 (sz p) in
    if addr =? 0 then mret old
    else if addr <? 0 then mret (- EINVAL)
    else
      let delta := i32 (addr - old) in
      if delta =? 0 then mret addr
      else r ← kgrow_proc delta; if r <? 0 then mret (- ENOMEM) else mret addr).

Definition sys_sbrk : K Z :=
  argi 0 (fun n =>
    p ← curproc;
    let addr := i32 (sz p) in
    r ← kgrow_proc n; if r <? 0 then mret (- ENOMEM) else mret addr).

(** ** fork *)

(** The descriptors of [c] from [fd] on, given to [np]; [k] are left. *)
Fixpoint dup_fds (k : nat) (c np : nat) (fd : nat) : K unit :=
  match k with
  | O => mret tt
  | S k' =>
      cp ← onps (pget c);
      f ← aget "ofile" (ofile cp) (Z.of_nat fd);
      when (nz f) (g ← file_dup f; onps (pmod np (fun p => p <| ofile := <[fd := g]> (ofile p) |>)));;
      dup_fds k' c np (S fd)
  end.

Definition kfork : K Z :=
  c ← onps myproc;
  s ← get;
  page ← match scan (fun _ p => is_state UNUSED p) (Proc.ptable (kps s)) with Some _ => onmm kalloc | None => mret 0 end;
  onp ← onps (allocproc page);
  match onp with
  | None => mret (- ENOMEM)
  | Some np =>
      cp ← onps (pget c);
      onps (pmod np (inherit cp));;
      pd ← onmm (copyuvm kend PHYSTOP kdata (pgdir cp) (sz cp));
      onps (pmod np (fun p => p <| pgdir := pd |>));;
      if pd =? 0 then
        p ← onps (pget np);
        onmm (kfree kend PHYSTOP (kstack p));;
        onps (pmod np (fun p => p <| kstack := 0 |> <| state := UNUSED |>));;
        mret (- ENOMEM)
      else
        onps (pmod np (fun p => p <| sz := sz cp |> <| parent := Some c |> <| tf := tf cp <| eax := 0 |> |>));;
        dup_fds NOFILE c np 0;;
        onfs (idup (Z.to_nat (Proc.cwd cp - 1)));;
        onps (pmod np (fun p => p <| Proc.cwd := Proc.cwd cp |> <| name := name cp |>));;
        p ← onps (pget np);
        onps acquire_pt;;
        onps (pmod np (fun p => p <| state := RUNNABLE |>));;
        onps release_pt;;
        mret (pid p)
  end.

Definition sys_fork : K Z := kfork.
Definition sys_vfork : K Z := sys_fork.

(** ** exit *)

Fixpoint close_all (k : nat) (fd : Z) : K unit :=
  match k with
  | O => mret tt
  | S k' =>
      p ← curproc;
      f ← aget "ofile" (ofile p) fd;
      when (nz f) (file_close kend PHYSTOP f;; set_fd fd 0);;
      close_all k' (fd + 1)
  end.

(** What exit gives back before it takes the lock of the process table. *)
Definition exit_files : K unit :=
  p ← curproc;
  close_all NOFILE 0;;
  kbegin_op;;
  onfs (iput (Z.to_nat (Proc.cwd p - 1)));;
  kend_op.
Definition kexit (status : Z) : K unit :=
  s ← get;
  (if bool_decide (cur (kps s) = initproc (kps s)) then mret tt else exit_files);;
  onps (exit status).

(** exit does not return. *)
Definition sys_exit : K Z := argi 0 (fun status => kexit status;; mret 0).
Definition sys_exit_group : K Z := argi 0 (fun status => kexit status;; mret 0).

(** ** waitpid *)

Definition kwaitpid (want status options : Z) : K Z :=
  i ← onps myproc;
  onps acquire_pt;;
  s ← get;
  match scan (fun _ p => reapable i want p) (Proc.ptable (kps s)) with
  | Some k =>
      p ← onps (pget k);
      me ← curproc;
      when (nz status) (onmm (ustores (pgdir me) status (bytes32 (wait_status (termsig p)))));;
      onmm (kfree kend PHYSTOP (kstack p));;
      onmm (freevm kend PHYSTOP (pgdir p));;
      r ← onps (waitpid_pass i want (nz status) options);
      mret (match r with Reaped pid _ => pid | _ => -1 end)
  | None =>
      r ← onps (waitpid_pass i want (nz status) options);
      mret (match r with Hang => 0 | _ => -1 end)
  end.

Definition sys_waitpid : K Z := argp 0 4 (fun status => kwaitpid (-1) status 0).
Definition sys_wait4 : K Z :=
  argi 0 (fun pid => argp 1 4 (fun status => argi 2 (fun options => kwaitpid pid status options))).

(** ** Signals *)

(** [find_proc] may give null, whose euid is read all the same. *)
Definition sys_kill : K Z :=
  argi 0 (fun pid_arg => argi 1 (fun signo =>
    me ← curproc;
    s ← get;
    let o := find_proc pid_arg (parent me) (kps s) in
    if (signo <? 1) || (Z.of_nat NSIG <=? signo) then mret (- EINVAL)
    else
      match o with
      | None => fault null_deref
      | Some k =>
          p ← onps (pget k);
          if negb (euid p =? euid me) && nz (euid me) then mret (- EPERM)
          else onps (kill pid_arg signo)
      end)).

Definition sys_pause : K Z := onps pause;; mret 0.

(** The loop of sys_rt_sigsuspend, [ptable.lock] held, up to its end; the mask is
    the address of the user's mask. *)
Definition sigsuspend_pass (old : Z) : K Z :=
  p ← curproc;
  if nz (Z.ldiff (sigpending p) (sigmask p)) then
    onps release_pt;;
    onsig (dosignal pad);;
    pset (fun p => p <| sigmask := old |>);;
    mret (- EINTR)
  else
    i ← onps myproc;
    onps (sleep (proc_chan i) true);;
    mret 0.
Definition sys_rt_sigsuspend : K Z :=
  argp 0 4 (fun mask =>
    p ← curproc;
    let old := sigmask p in
    pset (fun p => p <| sigmask := mask |>);;
    onps acquire_pt;;
    sigsuspend_pass old).
(** Woken up in the loop. *)
Definition resume_sigsuspend (old : Z) : K Z := pset (fun p => p <| chan := 0 |>);; sigsuspend_pass old.

(** ** Reading the process *)

Definition of_parent (g : proc -> Z) : K Z :=
  p ← curproc;
  match parent p with Some q => x ← onps (pget q); mret (g x) | None => fault null_deref end.

Definition sys_getpid : K Z := p ← curproc; mret (pid p).
Definition sys_getppid : K Z := of_parent pid.
Definition sys_getpgrp : K Z := p ← curproc; mret (pgrp p).
Definition sys_getpgid : K Z := of_parent gid.
Definition sys_setpgid : K Z := argi 0 (fun pid_arg => argi 1 (fun pgid_arg => onps (setpgid pid_arg pgid_arg))).
Definition sys_set_tid_address : K Z := argp 0 4 (fun _ => p ← curproc; mret (pid p)).

(** ru_utime.tv_nsec and ru_stime.tv_sec are not set; the pointer is checked for
    the size of a pointer. *)
Definition sys_getrusage (junk : list Z) : K Z :=
  argi 0 (fun pid_arg => argp 1 4 (fun uru =>
    s ← get;
    match find_proc pid_arg (cur (kps s)) (kps s) with
    | None => mret (- ESRCH)
    | Some _ =>
        me ← curproc;
        r ← onmm (copyout (pgdir me) uru (replicate 8 0 ++ take 16 junk ++ replicate 64 0));
        if r <? 0 then mret (- EFAULT) else mret 0
    end)).
End sysproc.
