(* ===== verification/Calm.v ===== *)
(** * Code that leaves descriptors alone

    Frames on the state of the kernel: [tame] code changes at most the descriptors of
    the running process and keeps every slot of the process table in use or not,
    [calm] code changes no descriptor and no reference count either, and [own] and
    [own_sig] are the frames of code on the running process.  Each has its rules and
    a tactic; the system calls on descriptors and paths are tame. *)
From Stdlib Require Import ZArith Lia.
From stdpp Require Import base numbers list gmap strings relations.
From S2P Require Import Prelude KString Locks Kalloc Vm Pipe Proc Syscall Cred Block Bio BioThm Log Fs Signal File SysFd SysDir FdThm FdRefs Exec ExecThm SysProc.
Local Open Scope Z_scope.

(** A slot whose descriptor table is not in use. *)
Definition dead (p : proc) : bool := is_state UNUSED p || is_state ZOMBIE p.

Create HintDb tame discriminated.

Section calm.
Context {C : Type} `{BufCache C}.
Context (devsw : Z -> @devops C) (kend PHYSTOP kdata : Z) (name0 de0 buf0 : list Z) (pad : nat -> Z).
#[local] Abbreviation K := (M (ksys C)).
Implicit Types (s : ksys C).

Definition slots s : list bool := map dead (Proc.ptable (kps s)).

(** ** Code that changes at most the descriptors of the running process *)

Record framed s s' : Prop := Framed {
  fr_slots : slots s' = slots s;
  fr_cur : cur (kps s') = cur (kps s);
  fr_tabs : forall j, Some j <> cur (kps s) -> tabs s' !! j = tabs s !! j
}.
#[global] Instance framed_preorder : PreOrder framed.
Proof.
  split; [intros s; split; auto|]. intros s1 s2 s3 [A1 A2 A3] [B1 B2 B3]. split; [congruence | congruence|].
  intros j Hj. rewrite B3 by congruence. apply A3, Hj.
Qed.
Definition tame {A} (m : K A) : Prop := forall s a s', m s = Ok a s' -> framed s s'.

Lemma tame_bind {A B} (m : K A) (k : A -> K B) : tame m -> (forall a, tame (k a)) -> tame (m ≫= k).
Proof. intros Hm Hk s b s' E. apply bind_Ok in E as (a & s1 & E1 & E2). etransitivity; [exact (Hm _ _ _ E1) | exact (Hk _ _ _ _ E2)]. Qed.
Lemma tame_ret {A} (a : A) : tame (mret a).
Proof. intros s b s' [= _ <-]. reflexivity. Qed.
Lemma tame_get : tame get.
Proof. intros s b s' [= _ <-]. reflexivity. Qed.
Lemma tame_panic {A} w : tame (panic w : K A).
Proof. intros s b s' [=]. Qed.
Lemma tame_fault {A} w : tame (fault w : K A).
Proof. intros s b s' [=]. Qed.
Lemma tame_block {A} ch : tame (block ch : K A).
Proof. intros s b s' [=]. Qed.
Lemma tame_aget {A} w (l : list A) i : tame (aget w l i).
Proof. unfold aget. destruct (i <? 0); [apply tame_fault|]. destruct (l !! Z.to_nat i); [apply tame_ret | apply tame_fault]. Qed.
Lemma tame_aset {A} w (l : list A) i x : tame (aset w l i x).
Proof. unfold aset. destruct (_ && _); [apply tame_ret | apply tame_fault]. Qed.
Lemma tame_onmm {A} (m : M kstate A) : tame (onmm m).
Proof. intros s b s' E. unfold onmm in E. destruct (m (kmm s)); try discriminate. injection E as _ <-. split; reflexivity. Qed.
Lemma tame_modify (g : ksys C -> ksys C) : (forall s, kps (g s) = kps s) -> tame (modify g).
Proof. intros Hg s a s' [= _ <-]. split; unfold slots, tabs; rewrite ?Hg; reflexivity. Qed.

(** Process operations: every slot keeps being in use or not, and only the running
    process may change its descriptors. *)
Definition ptame {A} (m : M pstate A) : Prop := forall p a p', m p = Ok a p' ->
  map dead (Proc.ptable p') = map dead (Proc.ptable p) /\ cur p' = cur p
  /\ forall j, Some j <> cur p -> map ofile (Proc.ptable p') !! j = map ofile (Proc.ptable p) !! j.
Lemma tame_onps {A} (m : M pstate A) : ptame m -> tame (onps m).
Proof.
  intros Hm s b s' E. unfold onps in E. destruct (m (kps s)) as [a p| | |] eqn:Ep; try discriminate. injection E as _ <-.
  destruct (Hm _ _ _ Ep) as (H1 & H2 & H3). split; auto.
Qed.
Lemma ptame_bind {A B} (m : M pstate A) (k : A -> M pstate B) : ptame m -> (forall a, ptame (k a)) -> ptame (m ≫= k).
Proof.
  intros Hm Hk s b s' E. apply bind_Ok in E as (a & s1 & E1 & E2). destruct (Hm _ _ _ E1) as (A1 & A2 & A3), (Hk _ _ _ _ E2) as (B1 & B2 & B3).
  split_and!; [congruence | congruence|]. intros j Hj. rewrite B3 by congruence. apply A3, Hj.
Qed.
Lemma ptame_ret {A} (a : A) : ptame (mret a).
Proof. intros s b s' [= _ <-]. auto. Qed.
Lemma ptame_get : ptame get.
Proof. intros s b s' [= _ <-]. auto. Qed.
Lemma ptame_fault {A} w : ptame (fault w : M pstate A).
Proof. intros s b s' [=]. Qed.
Lemma ptame_panic {A} w : ptame (panic w : M pstate A).
Proof. intros s b s' [=]. Qed.
Lemma ptame_block {A} ch : ptame (block ch : M pstate A).
Proof. intros s b s' [=]. Qed.
Lemma ptame_myproc : ptame myproc.
Proof. intros s a s' E. unfold myproc in E. mstep in E. destruct (cur s) eqn:Ec; [|discriminate]. injection E as _ <-. auto. Qed.
Lemma ptame_pget i : ptame (pget i).
Proof. intros s a s' E. unfold pget in E. mstep in E. destruct (Proc.ptable s !! i); [|discriminate]. injection E as _ <-. auto. Qed.
Lemma ptame_acquire : ptame acquire_pt.
Proof. intros s a s' E. unfold acquire_pt in E. mstep in E. destruct (ptlocked s); [discriminate|]. injection E as _ <-. auto. Qed.
Lemma ptame_release : ptame release_pt.
Proof. intros s a s' E. unfold release_pt in E. mstep in E. destruct (ptlocked s); [|discriminate]. injection E as _ <-. auto. Qed.
Lemma ptame_emit c : ptame (emit c).
Proof. intros s a s' [= _ <-]. auto. Qed.
Lemma ptame_pmod i f : (forall p, dead (f p) = dead p) -> (forall p, ofile (f p) = ofile p) -> ptame (pmod i f).
Proof. intros Hd Hf s a s' [= _ <-]. cbn. rewrite !map_alter_same by assumption. auto. Qed.
Lemma dead_wake p : state p = SLEEPING -> dead (p <| state := RUNNABLE |>) = dead p.
Proof. intros E. unfold dead, is_state. rewrite E. reflexivity. Qed.
Lemma dead_wake_if (b : proc -> bool) p : dead (if is_state SLEEPING p && b p then p <| state := RUNNABLE |> else p) = dead p.
Proof. destruct (is_state SLEEPING p) eqn:E; [|reflexivity]. apply is_state_true in E. destruct (b p); [exact (dead_wake p E) | reflexivity]. Qed.
Lemma ptame_wakeup1 ch : ptame (wakeup1 ch).
Proof.
  intros s a s' [= _ <-]. cbn. rewrite !map_map. split_and!; [|reflexivity|].
  - apply map_ext. intros p. apply (dead_wake_if (fun p => chan p =? ch)).
  - intros j _. f_equal. apply map_ext. intros p. destruct (_ && _); reflexivity.
Qed.
Lemma ptame_wakeup ch : ptame (wakeup ch).
Proof. apply ptame_bind; [apply ptame_acquire|]. intros _. apply ptame_bind; [apply ptame_wakeup1 | intros _; apply ptame_release]. Qed.

Lemma tame_curproc : tame curproc.
Proof. apply tame_onps, ptame_bind; [apply ptame_myproc | apply ptame_pget]. Qed.
(** The running process may change its own descriptors. *)
Lemma tame_pset f : (forall p, dead (f p) = dead p) -> tame (pset f).
Proof.
  intros Hf s a s' E. unfold pset, onps, myproc, pmod in E. mstep in E. destruct (cur (kps s)) as [i|] eqn:Ec; [|discriminate]. injection E as _ <-.
  split; [unfold slots; cbn; apply map_alter_same, Hf | reflexivity|]. intros j Hj. unfold tabs. cbn. rewrite !list_lookup_fmap.
  rewrite list_lookup_alter_ne by congruence. reflexivity.
Qed.
Lemma tame_onfs {A} (m : M (fsys C) A) : tame (onfs m).
Proof.
  unfold onfs. apply tame_bind; [apply tame_curproc|]. intros p s a s' E. unfold as_proc in E.
  destruct (m _); try discriminate. injection E as _ <-. split; reflexivity.
Qed.
Lemma tame_fat f : tame (fat f).
Proof. apply tame_bind; [apply tame_get|]. intros s. apply tame_aget. Qed.
Lemma tame_fmod f g : tame (fmod f g).
Proof. apply tame_modify. reflexivity. Qed.
Lemma tame_pipe_at p : tame (pipe_at (C := C) p).
Proof. apply tame_bind; [apply tame_get|]. intros s. destruct (kpipes s !! p); [apply tame_ret | apply tame_fault]. Qed.
Lemma tame_pipe_put p x : tame (pipe_put (C := C) p x).
Proof. apply tame_modify. reflexivity. Qed.
Lemma tame_wakeups p l : tame (wakeups (C := C) p l).
Proof. induction l as [|c l IH]; [apply tame_ret|]. apply tame_bind; [apply tame_onps, ptame_wakeup | intros _; exact IH]. Qed.
Lemma tame_acquire_ft : tame acquire_ft.
Proof. intros s a s' E. unfold acquire_ft in E. mstep in E. destruct (ftlocked s); [discriminate|]. injection E as _ <-. split; reflexivity. Qed.
Lemma tame_release_ft : tame release_ft.
Proof. intros s a s' E. unfold release_ft in E. mstep in E. destruct (ftlocked s); [|discriminate]. injection E as _ <-. split; reflexivity. Qed.

#[local] Hint Resolve tame_ret tame_get tame_panic tame_fault tame_block tame_aget tame_aset tame_onmm tame_curproc tame_onfs tame_fat
  tame_fmod tame_pipe_at tame_pipe_put tame_wakeups tame_acquire_ft tame_release_ft : tame.
#[local] Hint Resolve ptame_ret ptame_get ptame_fault ptame_panic ptame_block ptame_myproc ptame_pget ptame_acquire ptame_release ptame_emit
  ptame_wakeup1 ptame_wakeup : tame.
Ltac tame_tac :=
  repeat (intros; cbv zeta;
    match goal with
    | |- _ => solve [auto with tame nocore]
    | |- tame (mbind _ _) => apply tame_bind
    | |- tame (when ?b _) => destruct b; cbn [when]
    | |- tame (if ?b then _ else _) => destruct b
    | |- tame (match ?x with _ => _ end) => destruct x
    | |- tame (pset _) => apply tame_pset; reflexivity
    | |- tame (modify _) => apply tame_modify; reflexivity
    | |- tame (onps _) => apply tame_onps
    | |- ptame (mbind _ _) => apply ptame_bind
    | |- ptame (when ?b _) => destruct b; cbn [when]
    | |- ptame (if ?b then _ else _) => destruct b
    | |- ptame (match ?x with _ => _ end) => destruct x
    | |- ptame (pmod _ _) => apply ptame_pmod; [reflexivity | reflexivity]
    end).

(** ** The calls on descriptors and paths *)

Lemma tame_begin : tame kbegin_op.
Proof. apply tame_onfs. Qed.
Lemma tame_end : tame kend_op.
Proof. apply tame_onfs. Qed.
Lemma tame_set_fd fd f : tame (set_fd fd f).
Proof. apply tame_pset. reflexivity. Qed.
Lemma tame_knamei path : tame (knamei devsw name0 path).
Proof. apply tame_onfs. Qed.
Lemma tame_knameiparent path : tame (knameiparent devsw name0 path).
Proof. apply tame_onfs. Qed.
#[local] Hint Resolve tame_begin tame_end tame_set_fd tame_knamei tame_knameiparent : tame.
Lemma tame_file_alloc : tame file_alloc.
Proof. unfold file_alloc. tame_tac. Qed.
Lemma tame_file_dup f : tame (file_dup f).
Proof. unfold file_dup. tame_tac. Qed.
Lemma tame_kpipeclose p w : tame (kpipeclose kend PHYSTOP p w).
Proof. unfold kpipeclose. tame_tac. Qed.
#[local] Hint Resolve tame_file_alloc tame_file_dup tame_kpipeclose : tame.
Lemma tame_file_close f : tame (file_close kend PHYSTOP f).
Proof. unfold file_close. tame_tac. Qed.
Lemma tame_fail_op r : tame (fail_op r).
Proof. unfold fail_op. tame_tac. Qed.
Lemma tame_fdalloc f : tame (fdalloc f).
Proof. unfold fdalloc. tame_tac. Qed.
Lemma tame_file_read f n : tame (file_read devsw f n).
Proof. unfold file_read, kpiperead. tame_tac. Qed.
Lemma tame_write_loop fuel : forall f src n i, tame (write_loop devsw fuel f src n i).
Proof. induction fuel as [|fuel IH]; intros f src n i; cbn [write_loop]; tame_tac. Qed.
#[local] Hint Resolve tame_file_close tame_fail_op tame_fdalloc tame_file_read tame_write_loop : tame.
Lemma tame_file_write f src n : tame (file_write devsw f src n).
Proof. unfold file_write, kpipewrite. tame_tac. Qed.
Lemma tame_pipealloc page : tame (pipealloc kend PHYSTOP page).
Proof. unfold pipealloc. tame_tac. Qed.
Lemma tame_argi n (k : Z -> K Z) : (forall v, tame (k v)) -> tame (argi n k).
Proof. intros Hk. unfold argi. tame_tac; apply Hk. Qed.
Lemma tame_argp n z (k : Z -> K Z) : (forall v, tame (k v)) -> tame (argp n z k).
Proof. intros Hk. unfold argp. tame_tac; apply Hk. Qed.
Lemma tame_args n e (k : list Z -> K Z) : (forall v, tame (k v)) -> tame (args n e k).
Proof. intros Hk. unfold args. tame_tac; apply Hk. Qed.
Lemma tame_argfd n : tame (argfd n).
Proof. unfold argfd. tame_tac. Qed.
#[local] Hint Resolve tame_file_write tame_pipealloc tame_argfd : tame.
Lemma tame_with_fd n (k : Z -> Z -> K Z) : (forall fd f, tame (k fd f)) -> tame (with_fd n k).
Proof. intros Hk. unfold with_fd. tame_tac; apply Hk. Qed.
Lemma tame_create path t mj mn : tame (create devsw name0 de0 path t mj mn).
Proof. unfold create. tame_tac. Qed.
Lemma tame_open_tty ip : tame (open_tty ip).
Proof. unfold open_tty. tame_tac. Qed.
Lemma tame_link_to ip new : tame (link_to devsw name0 de0 ip new).
Proof. unfold link_to. tame_tac. Qed.
Lemma tame_readv k : forall f vec i total, tame (readv_loop devsw k f vec i total).
Proof. induction k as [|k IH]; intros f vec i total; cbn [readv_loop]; tame_tac. Qed.
Lemma tame_writev k : forall f vec i total, tame (writev_loop devsw k f vec i total).
Proof. induction k as [|k IH]; intros f vec i total; cbn [writev_loop]; tame_tac. Qed.
Lemma tame_getdents fuel : forall f ip dp count n, tame (getdents_loop devsw fuel f ip dp count n).
Proof. induction fuel as [|fuel IH]; intros f ip dp count n; cbn [getdents_loop]; tame_tac. Qed.
Lemma tame_dupfd cmd arg f : tame (dupfd cmd arg f).
Proof. unfold dupfd. tame_tac. Qed.
Lemma tame_new_file ip err finish : (forall f fd, tame (finish f fd)) -> tame (new_file kend PHYSTOP ip err finish).
Proof. intros Hf. unfold new_file. tame_tac; apply Hf. Qed.
#[local] Hint Resolve tame_create tame_open_tty tame_link_to tame_readv tame_writev tame_getdents tame_dupfd : tame.

Lemma tame_run_fd c : tame (run_fd devsw kend PHYSTOP name0 de0 c).
Proof.
  destruct c; cbn [run_fd];
  unfold sys_read, sys_write, sys_close, sys_dup, sys_dup2, sys_fcntl, sys_lseek, sys__llseek, sys_fstat, sys_pipe, sys_readv, sys_writev, sys_open, sys_creat,
    sys_link, sys_linkat, sys_unlink, sys_rmdir, sys_mkdir, sys_mknod, sys_chdir, sys_chmod, sys_chown, sys_utime, sys_access, sys_fchmod, sys_fchown, sys_getdents, with_path, with_ip;
  repeat first [progress intros | progress tame_tac | apply tame_with_fd | apply tame_argi | apply tame_argp | apply tame_args | apply tame_new_file].
Qed.

(** exit gives back the descriptors of the running process. *)
Lemma tame_close_all k : forall fd, tame (close_all kend PHYSTOP k fd).
Proof. induction k as [|k IH]; intros fd; cbn [close_all]; tame_tac. Qed.
Lemma tame_exit_files : tame (exit_files kend PHYSTOP).
Proof. unfold exit_files. pose proof tame_close_all. tame_tac; auto. Qed.

(** ** Code that changes no descriptor *)

Definition calm {A} (m : K A) : Prop := quiet m /\ tame m.
Definition pcalm {A} (m : M pstate A) : Prop := fdless m /\ ptame m.
(** Code on the running process that keeps its descriptors and its state. *)
Definition own {A} (m : M proc A) : Prop := forall p a p', m p = Ok a p' -> ofile p' = ofile p /\ state p' = state p.
Definition own_sig {A} (m : M sigst A) : Prop :=
  forall p a p', m p = Ok a p' -> ofile (sproc p') = ofile (sproc p) /\ state (sproc p') = state (sproc p).

Lemma calm_bind {A B} (m : K A) (k : A -> K B) : calm m -> (forall a, calm (k a)) -> calm (m ≫= k).
Proof. intros [Hm1 Hm2] Hk. split; [apply quiet_bind | apply tame_bind]; auto; intros a; apply Hk. Qed.
Lemma calm_ret {A} (a : A) : calm (mret a).
Proof. split; [apply quiet_ret | apply tame_ret]. Qed.
Lemma calm_get : calm get.
Proof. split; [apply quiet_get | apply tame_get]. Qed.
Lemma calm_fault {A} w : calm (fault w : K A).
Proof. split; [apply quiet_fault | apply tame_fault]. Qed.
Lemma calm_panic {A} w : calm (panic w : K A).
Proof. split; [apply quiet_panic | apply tame_panic]. Qed.
Lemma calm_aget {A} w (l : list A) i : calm (aget w l i).
Proof. split; [apply quiet_aget | apply tame_aget]. Qed.
Lemma calm_onmm {A} (m : M kstate A) : calm (onmm m).
Proof. split; [apply quiet_onmm | apply tame_onmm]. Qed.
Lemma calm_curproc : calm curproc.
Proof. split; [apply quiet_curproc | apply tame_curproc]. Qed.
Lemma calm_onfs {A} (m : M (fsys C) A) : calm (onfs m).
Proof. split; [apply quiet_onfs | apply tame_onfs]. Qed.
Lemma calm_pset f : (forall p, dead (f p) = dead p) -> (forall p, ofile (f p) = ofile p) -> calm (pset f).
Proof. intros Hd Ho. split; [apply quiet_pset, Ho | apply tame_pset, Hd]. Qed.
Lemma calm_onps {A} (m : M pstate A) : pcalm m -> calm (onps m).
Proof. intros [H1 H2]. split; [apply quiet_onps, H1 | apply tame_onps, H2]. Qed.
Lemma calm_argi n (k : Z -> K Z) : (forall v, calm (k v)) -> calm (argi n k).
Proof. intros Hk. unfold argi. apply calm_bind; [apply calm_curproc|]. intros p. destruct (argint p n); [apply Hk | apply calm_ret]. Qed.
Lemma calm_argp n z (k : Z -> K Z) : (forall v, calm (k v)) -> calm (argp n z k).
Proof. intros Hk. unfold argp. apply calm_bind; [apply calm_curproc|]. intros p. destruct (argptr p n z); [apply Hk | apply calm_ret]. Qed.

Lemma pcalm_bind {A B} (m : M pstate A) (k : A -> M pstate B) : pcalm m -> (forall a, pcalm (k a)) -> pcalm (m ≫= k).
Proof. intros [Hm1 Hm2] Hk. split; [apply fdless_bind | apply ptame_bind]; auto; intros a; apply Hk. Qed.
Lemma pcalm_ret {A} (a : A) : pcalm (mret a).
Proof. split; [intros s b s' [= _ <-]; auto | apply ptame_ret]. Qed.
Lemma pcalm_get : pcalm get.
Proof. split; [intros s b s' [= _ <-]; auto | apply ptame_get]. Qed.
Lemma pcalm_fault {A} w : pcalm (fault w : M pstate A).
Proof. split; intros s b s' [=]. Qed.
Lemma pcalm_panic {A} w : pcalm (panic w : M pstate A).
Proof. split; intros s b s' [=]. Qed.
Lemma pcalm_block {A} ch : pcalm (block ch : M pstate A).
Proof. split; intros s b s' [=]. Qed.
Lemma pcalm_myproc : pcalm myproc.
Proof. split; [apply fdless_myproc | apply ptame_myproc]. Qed.
Lemma pcalm_pget i : pcalm (pget i).
Proof. split; [apply fdless_pget | apply ptame_pget]. Qed.
Lemma pcalm_acquire : pcalm acquire_pt.
Proof. split; [apply fdless_acquire | apply ptame_acquire]. Qed.
Lemma pcalm_release : pcalm release_pt.
Proof. split; [apply fdless_release | apply ptame_release]. Qed.
Lemma pcalm_pmod i f : (forall p, dead (f p) = dead p) -> (forall p, ofile (f p) = ofile p) -> pcalm (pmod i f).
Proof. intros Hd Ho. split; [apply fdless_pmod, Ho | apply ptame_pmod; assumption]. Qed.

Lemma upd_calm s i p q : cur (kps s) = Some i -> Proc.ptable (kps s) !! i = Some p -> ofile q = ofile p -> state q = state p ->
  forall k, same_fds s (s <| kps := kps s <| Proc.ptable := <[i := q]> (Proc.ptable (kps s)) |> |> <| kmm := k |>)
  /\ framed s (s <| kps := kps s <| Proc.ptable := <[i := q]> (Proc.ptable (kps s)) |> |> <| kmm := k |>).
Proof.
  intros Hc Hp Ho Hs k. assert (map ofile (<[i := q]> (Proc.ptable (kps s))) = map ofile (Proc.ptable (kps s))) as Et.
  { change (map ofile) with (fmap (M := list) ofile). rewrite list_fmap_insert, list_insert_id; [reflexivity|]. rewrite list_lookup_fmap, Hp, Ho. reflexivity. }
  split; [split_and!; try reflexivity; exact Et|]. split; [|reflexivity | intros j _; unfold tabs; cbn; rewrite Et; reflexivity].
  unfold slots. cbn. change (map dead) with (fmap (M := list) dead). rewrite list_fmap_insert, list_insert_id; [reflexivity|].
  rewrite list_lookup_fmap, Hp. cbn. unfold dead, is_state. rewrite Hs. reflexivity.
Qed.
Lemma calm_oncur {A} (m : M proc A) : own m -> calm (oncur m).
Proof.
  intros Hm. enough (forall s a s', oncur m s = Ok a s' -> same_fds s s' /\ framed s s') as He by (split; intros s a s' E; apply (He s a s' E)).
  intros s a s' E. unfold oncur in E. destruct (cur (kps s)) as [i|] eqn:Ec; [|discriminate]. destruct (Proc.ptable (kps s) !! i) as [p|] eqn:Ep; [|discriminate].
  destruct (m p) as [b q| | |] eqn:Em; try discriminate. injection E as _ <-. destruct (Hm _ _ _ Em) as [Ho Hs]. exact (upd_calm s i p q Ec Ep Ho Hs (kmm s)).
Qed.
Lemma calm_onsig {A} (m : M sigst A) : own_sig m -> calm (onsig m).
Proof.
  intros Hm. enough (forall s a s', onsig m s = Ok a s' -> same_fds s s' /\ framed s s') as He by (split; intros s a s' E; apply (He s a s' E)).
  intros s a s' E. unfold onsig in E. destruct (cur (kps s)) as [i|] eqn:Ec; [|discriminate]. destruct (Proc.ptable (kps s) !! i) as [p|] eqn:Ep; [|discriminate].
  destruct (m (Sigst p (kmm s))) as [b q| | |] eqn:Em; try discriminate. injection E as _ <-. destruct (Hm _ _ _ Em) as [Ho Hs].
  exact (upd_calm s i p (sproc q) Ec Ep Ho Hs (sk q)).
Qed.
(** What exec does before it has the new image. *)
Lemma calm_keeps {A} (m : K A) : keeps m -> calm m.
Proof.
  intros Hm. enough (forall s a s', m s = Ok a s' -> same_fds s s' /\ framed s s') as He by (split; intros s a s' E; apply (He s a s' E)).
  intros s a s' E. destruct (Hm _ _ _ E) as [Ht Hr Hf]. injection Hr as Hc _ _ _. injection Hf as Hf Hl _ _.
  assert (forall (T : Type) (g : proc -> T), (forall p, g (spared p) = g p) -> map g (Proc.ptable (kps s')) = map g (Proc.ptable (kps s))) as Hg.
  { intros T g Hg. apply (f_equal (map g)) in Ht. rewrite !map_map in Ht. rewrite <-!(map_ext (fun p => g (spared p)) g Hg). exact Ht. }
  assert (tabs s' = tabs s) as Et by (apply Hg; reflexivity).
  split; [split_and!; congruence|]. split; [apply Hg; reflexivity | exact Hc | intros j _; rewrite Et; reflexivity].
Qed.
Lemma own_bind {A B} (m : M proc A) (k : A -> M proc B) : own m -> (forall a, own (k a)) -> own (m ≫= k).
Proof. intros Hm Hk p b p' E. apply bind_Ok in E as (a & p1 & E1 & E2). destruct (Hm _ _ _ E1), (Hk _ _ _ _ E2). split; congruence. Qed.
Lemma own_ret {A} (a : A) : own (mret a).
Proof. intros p b p' [= _ <-]. auto. Qed.
Lemma own_get : own get.
Proof. intros p b p' [= _ <-]. auto. Qed.
Lemma own_gets {A} (g : proc -> A) : own (gets g).
Proof. intros p b p' [= _ <-]. auto. Qed.
Lemma own_modify g : (forall p, ofile (g p) = ofile p) -> (forall p, state (g p) = state p) -> own (modify g).
Proof. intros H1 H2 p b p' [= _ <-]. auto. Qed.
Lemma own_sig_bind {A B} (m : M sigst A) (k : A -> M sigst B) : own_sig m -> (forall a, own_sig (k a)) -> own_sig (m ≫= k).
Proof. intros Hm Hk p b p' E. apply bind_Ok in E as (a & p1 & E1 & E2). destruct (Hm _ _ _ E1), (Hk _ _ _ _ E2). split; congruence. Qed.
Lemma own_sig_ret {A} (a : A) : own_sig (mret a).
Proof. intros p b p' [= _ <-]. auto. Qed.
Lemma own_sig_fault {A} w : own_sig (fault w : M sigst A).
Proof. intros p b p' [=]. Qed.
Lemma own_sig_gets {A} (g : sigst -> A) : own_sig (gets g).
Proof. intros p b p' [= _ <-]. auto. Qed.
Lemma own_sig_onproc g : (forall p, ofile (g p) = ofile p) -> (forall p, state (g p) = state p) -> own_sig (onproc g).
Proof. intros H1 H2 p b p' [= _ <-]. cbn. auto. Qed.
Lemma own_sig_onk {A} (m : M kstate A) : own_sig (onk m).
Proof. intros p b p' E. unfold onk in E. destruct (m (sk p)); try discriminate. injection E as _ <-. auto. Qed.
End calm.

#[export] Hint Resolve calm_ret calm_get calm_fault calm_panic calm_aget calm_onmm calm_curproc calm_onfs : tame.
#[export] Hint Resolve pcalm_ret pcalm_get pcalm_fault pcalm_panic pcalm_block pcalm_myproc pcalm_pget pcalm_acquire pcalm_release : tame.
Ltac calm_tac :=
  repeat (cbv zeta;
    match goal with
    | |- forall _, _ => intro
    | |- _ => solve [auto with tame nocore]
    | |- calm (mbind _ _) => apply calm_bind
    | |- calm (argi _ _) => apply calm_argi
    | |- calm (argp _ _ _) => apply calm_argp
    | |- calm (when ?b _) => destruct b; cbn [when]
    | |- calm (if ?b then _ else _) => destruct b
    | |- calm (match ?x with _ => _ end) => destruct x
    | |- calm (pset _) => apply calm_pset; [reflexivity | reflexivity]
    | |- calm (onps _) => apply calm_onps
    | |- pcalm (mbind _ _) => apply pcalm_bind
    | |- pcalm (when ?b _) => destruct b; cbn [when]
    | |- pcalm (if ?b then _ else _) => destruct b
    | |- pcalm (match ?x with _ => _ end) => destruct x
    | |- pcalm (pmod _ _) => apply pcalm_pmod; [reflexivity | reflexivity]
    end).

Ltac own_tac :=
  repeat (cbv zeta;
    match goal with
    | |- forall _, _ => intro
    | |- own (mret _) => apply own_ret
    | |- own get => apply own_get
    | |- own (gets _) => apply own_gets
    | |- own (modify _) => apply own_modify; reflexivity
    | |- own (mbind _ _) => apply own_bind
    | |- own (when ?b _) => destruct b; cbn [when]
    | |- own (if ?b then _ else _) => destruct b
    | |- own (match ?x with _ => _ end) => destruct x
    end).
Ltac own_sig_tac :=
  repeat (cbv zeta;
    match goal with
    | |- forall _, _ => intro
    | |- _ => solve [auto with nocore]
    | |- own_sig (mret _) => apply own_sig_ret
    | |- own_sig (fault _) => apply own_sig_fault
    | |- own_sig (gets _) => apply own_sig_gets
    | |- own_sig (onk _) => apply own_sig_onk
    | |- own_sig (onproc _) => apply own_sig_onproc; reflexivity
    | |- own_sig (aget _ _ _) => unfold aget
    | |- own_sig (aset _ _ _ _) => unfold aset
    | |- own_sig (mbind _ _) => apply own_sig_bind
    | |- own_sig (when ?b _) => destruct b; cbn [when]
    | |- own_sig (if ?b then _ else _) => destruct b
    | |- own_sig (match ?x with _ => _ end) => destruct x
    end).
