(* ===== verification/KernelRefs.v ===== *)
(** * Reference counts in the whole kernel

    Descriptors move between processes at fork and exit.  The counts of FdThm.v
    stay right along any run of system calls that includes process creation, exit,
    waiting, exec, memory, credential and signal calls: the one further fact needed
    is that a free slot of the process table and a zombie have no open file. *)
From Stdlib Require Import ZArith Lia.
From stdpp Require Import base numbers list gmap strings relations.
From S2P Require Import Prelude KString Locks Kalloc Vm Pipe Proc Syscall Cred Block Bio BioThm Log Fs Signal File SysFd SysDir FdThm FdRefs Exec ExecThm SysProc Calm.
Local Open Scope Z_scope.

Section kernel_refs.
Context {C : Type} `{BufCache C}.
Context (devsw : Z -> @devops C) (kend PHYSTOP kdata : Z) (name0 de0 buf0 : list Z) (pad : nat -> Z).
#[local] Abbreviation K := (M (ksys C)).
Implicit Types (s : ksys C).

(** *** Credentials and signals *)

Lemma own_cred c : own (run_cred c).
Proof.
  destruct c; cbn [run_cred]; unfold sys_setuid, sys_setgid, sys_setreuid, sys_setregid, sys_setresuid, sys_setresgid, sys_setgroups, sys_setsid, sys_umask,
    sys_iopl, sys_alarm, arg1, arg2, arg3, setreuid, setregid; own_tac.
Qed.

Lemma own_deliver signo h r : own_sig (deliver pad signo h r).
Proof. unfold deliver, push, deliver_failed. own_sig_tac. Qed.
Lemma own_dosignal : own_sig (dosignal pad).
Proof.
  unfold dosignal. generalize (NSIG - 1)%nat 1. intros k. induction k as [|k IH]; intros signo; cbn [dosignal_from]; own_sig_tac; first [apply IH | apply own_deliver].
Qed.
Lemma own_signals stack : own_sig sys_rt_sigreturn /\ own_sig sys_rt_sigprocmask /\ own_sig (sys_rt_sigaction stack) /\ own_sig sys_signal /\ own_sig sys_vhangup.
Proof. unfold sys_rt_sigreturn, sys_rt_sigprocmask, sys_rt_sigaction, sys_signal, sys_vhangup. split_and!; own_sig_tac. Qed.

(** *** exec and memory *)

Lemma calm_exec_stack path argv pg sz entry : calm (C := C) (exec_stack kend PHYSTOP path argv pg sz entry).
Proof.
  unfold exec_stack. apply calm_bind; [apply calm_keeps, keeps_grow|]. intros z. destruct (z =? 0); [calm_tac|].
  apply calm_bind; [apply calm_onmm|]. intros _. apply calm_bind; [apply calm_keeps, keeps_push_args|]. unfold switchuvm. calm_tac.
Qed.
Lemma calm_exec depth : forall path argv, calm (exec devsw kend PHYSTOP kdata name0 buf0 depth path argv).
Proof.
  induction depth as [|depth IH]; intros path argv; cbn [exec]; [apply calm_fault|]. unfold knamei, kbegin_op, kend_op.
  repeat first [progress calm_tac | apply IH | apply calm_exec_stack | apply calm_keeps, keeps_load_segments].
Qed.
Lemma calm_sys_exec depth : calm (sys_exec devsw kend PHYSTOP kdata name0 buf0 depth).
Proof. unfold sys_exec, knamei, kbegin_op, kend_op. calm_tac. apply calm_exec. Qed.

Lemma calm_kgrow n : calm (C := C) (kgrow_proc kend PHYSTOP n).
Proof.
  unfold kgrow_proc. apply calm_bind; [apply calm_curproc|]. intros p. apply calm_bind.
  - destruct (0 <? n); [apply calm_keeps, keeps_grow | calm_tac].
  - unfold grow_proc, switchuvm. calm_tac.
Qed.
Lemma calm_brk : calm (C := C) (sys_brk kend PHYSTOP).
Proof. unfold sys_brk. calm_tac; apply calm_kgrow. Qed.
Lemma calm_sbrk : calm (C := C) (sys_sbrk kend PHYSTOP).
Proof. unfold sys_sbrk. calm_tac. apply calm_kgrow. Qed.

(** *** Signals to other processes *)

(** Two process tables with the same descriptors and the same slots in use. *)
Definition pframed (p p' : pstate) : Prop :=
  map ofile (Proc.ptable p') = map ofile (Proc.ptable p) /\ map dead (Proc.ptable p') = map dead (Proc.ptable p) /\ cur p' = cur p.
#[global] Instance pframed_preorder : PreOrder pframed.
Proof. split; [intros p; split_and!; reflexivity|]. intros p1 p2 p3 (A1 & A2 & A3) (B1 & B2 & B3). split_and!; congruence. Qed.
Lemma pcalm_intro {A} (m : M pstate A) : (forall p a p', m p = Ok a p' -> pframed p p') -> pcalm m.
Proof. intros Hm. split; intros p a p' E; destruct (Hm p a p' E) as (A1 & A2 & A3); split_and!; auto. intros j _. rewrite A1. reflexivity. Qed.
Lemma pcalm_Ok {A} (m : M pstate A) p a p' : pcalm m -> m p = Ok a p' -> pframed p p'.
Proof. intros [H1 H2] E. destruct (H1 _ _ _ E), (H2 _ _ _ E). split_and!; auto. Qed.
(** A change of one slot that depends on what it holds. *)
Lemma pframed_pmod i f p q u p' : Proc.ptable p !! i = Some q -> dead (f q) = dead q -> ofile (f q) = ofile q -> pmod i f p = Ok u p' -> pframed p p'.
Proof.
  intros Hq Hd Ho [= _ <-]. unfold pframed. cbn. rewrite (alter_insert _ _ _ _ Hq). change (@map proc) with (fun B => fmap (M := list) (A := proc) (B := B)). cbn beta.
  rewrite !list_fmap_insert, !list_insert_id; [auto | |]; rewrite list_lookup_fmap, Hq; cbn; congruence.
Qed.
Lemma pget_inv i p q p' : pget i p = Ok q p' -> p' = p /\ Proc.ptable p !! i = Some q.
Proof. unfold pget. mstep. destruct (Proc.ptable p !! i); [|discriminate]. intros [= <- <-]. auto. Qed.

(** Waking a slot that was seen asleep. *)
Lemma pcalm_wake {A} i q (b : bool) (k : M pstate A) p a p' : Proc.ptable p !! i = Some q -> (b = true -> state q = SLEEPING) -> pcalm k ->
  (when b (pmod i (fun q => q <| state := RUNNABLE |>));; k) p = Ok a p' -> pframed p p'.
Proof.
  intros Hq Hs Hk E. destruct b; [|exact (pcalm_Ok _ _ _ _ Hk E)].
  apply bind_Ok in E as (u & p1 & E1 & E). etransitivity; [|exact (pcalm_Ok _ _ _ _ Hk E)].
  exact (pframed_pmod i _ p q u p1 Hq (dead_wake q (Hs eq_refl)) eq_refl E1).
Qed.
(** sched gives the processor away. *)
Lemma sched_no_return ch p u p' : sched ch p <> Ok u p'.
Proof.
  unfold sched. intros E. apply bind_Ok in E as (i & p1 & _ & E). apply bind_Ok in E as (q & p2 & _ & E). apply bind_Ok in E as (t & p3 & _ & E).
  destruct (negb (ptlocked t)), (negb (depth t =? 1)), (is_state RUNNING q); discriminate.
Qed.
Lemma pcalm_sleep ch b : pcalm (sleep ch b).
Proof.
  apply pcalm_intro. intros p u p' E. exfalso. unfold sleep in E. do 4 (apply bind_Ok in E as (? & ? & _ & E)). exact (sched_no_return _ _ _ _ E).
Qed.
#[local] Hint Resolve pcalm_sleep : tame.
Lemma pcalm_kill want status : pcalm (kill want status).
Proof.
  unfold kill. do 2 (apply pcalm_bind; [calm_tac|]; intros ?c). apply pcalm_bind; [calm_tac|]. intros t. destruct (scan _ _) as [k|]; [|calm_tac].
  apply pcalm_bind; [calm_tac|]. intros cp. apply pcalm_intro. intros p a p' E. apply bind_Ok in E as (q & p1 & E1 & E). apply pget_inv in E1 as [-> Hq].
  destruct (_ && _); [revert E; apply pcalm_Ok; calm_tac|]. apply bind_Ok in E as (u & p1 & E1 & E).
  assert (exists q1, Proc.ptable p1 !! k = Some q1 /\ state q1 = state q /\ pframed p p1) as (q1 & Hq1 & Hs & F1).
  { destruct (negb _); [|injection E1 as _ <-; exists q; split_and!; auto; reflexivity]. exists (q <| exitstatus := status |>). split_and!.
    - injection E1 as _ <-. cbn. rewrite list_lookup_alter_eq, Hq. reflexivity.
    - reflexivity.
    - cbn [when] in E1. eapply pframed_pmod; [exact Hq | | | exact E1]; reflexivity. }
  etransitivity; [exact F1|]. refine (pcalm_wake k q1 _ _ p1 a p' Hq1 _ _ E); [intros Es; apply is_state_true in Es; congruence | calm_tac].
Qed.
Lemma pcalm_setpgid a g : pcalm (setpgid a g).
Proof. unfold setpgid. calm_tac. Qed.
Lemma calm_kill : calm (C := C) sys_kill.
Proof. unfold sys_kill. calm_tac. apply pcalm_kill. Qed.
Lemma calm_getrusage junk : calm (C := C) (sys_getrusage junk).
Proof. unfold sys_getrusage. calm_tac. Qed.
Lemma calm_sigsuspend : calm (C := C) (sys_rt_sigsuspend pad).
Proof. unfold sys_rt_sigsuspend, sigsuspend_pass. calm_tac. apply calm_onsig, own_dosignal. Qed.

(** *** waitpid: a zombie becomes a free slot *)

Lemma pcalm_waitpid_pass i want ws o : pcalm (waitpid_pass i want ws o).
Proof.
  apply pcalm_intro. intros p a p' E. unfold waitpid_pass in E. erewrite bind_step in E by reflexivity.
  destruct (scan (fun _ q => reapable i want q) (Proc.ptable p)) as [k|] eqn:Ek.
  2: { revert E. destruct (scan _ _); apply pcalm_Ok; calm_tac. }
  apply scan_Some in Ek as [(z & Hz & Hr) _]. unfold reapable in Hr. rewrite !andb_true_iff in Hr. destruct Hr as [_ Hs]. apply is_state_true in Hs.
  apply bind_Ok in E as (q & p1 & E1 & E). apply pget_inv in E1 as [-> Hq]. rewrite Hz in Hq. injection Hq as <-. cbv zeta in E.
  erewrite bind_step in E by reflexivity. apply bind_Ok in E as (u & p1 & E1 & E). apply (pframed_pmod k _ _ z u p1) in E1 as F1; [|exact Hz | reflexivity | reflexivity].
  injection E1 as _ <-. erewrite bind_step in E by reflexivity. apply bind_Ok in E as (u' & p2 & E2 & E).
  apply (pframed_pmod k _ _ (z <| kstack := 0 |>) u' p2) in E2 as F2; [|cbn; rewrite list_lookup_alter_eq, Hz; reflexivity | unfold dead, is_state; cbn; rewrite Hs; reflexivity | reflexivity].
  transitivity p2; [etransitivity; [|exact F2]; exact F1|]. revert E. apply pcalm_Ok. calm_tac.
Qed.
Lemma calm_kwaitpid want status o : calm (C := C) (kwaitpid kend PHYSTOP want status o).
Proof. unfold kwaitpid. calm_tac; apply pcalm_waitpid_pass. Qed.
Lemma calm_waits : calm (C := C) (sys_waitpid kend PHYSTOP) /\ calm (C := C) (sys_wait4 kend PHYSTOP).
Proof. unfold sys_waitpid, sys_wait4. split; calm_tac; apply calm_kwaitpid. Qed.

(** ** exit *)

(** An entry of a table given back to the kernel: zero it and count. *)
Lemma counted_back s s' i t fd f : counted (fun x => zero x - one f x) s -> tabs s !! i = Some t -> t !! fd = Some f ->
  tabs s' = <[i := <[fd := 0]> t]> (tabs s) -> ftable s' = ftable s -> ftlocked s' = ftlocked s -> counted zero s'.
Proof.
  intros HC Ht Hf Et Ef El. apply (counted_ext (fun x => zero x - one f x + one f x - one 0 x)).
  - intros x Hx. rewrite one_zero by exact Hx. unfold zero. lia.
  - intros x. apply zero_small.
  - apply (counted_set (fun x => zero x - one f x) s s' i t fd f 0 HC Ht Hf); auto; [lia|]. intros x. unfold zero. pose proof (one_range f x). lia.
Qed.

Lemma close_all_spec i k : forall fd t s u s', counted zero s -> cur (kps s) = Some i -> tabs s !! i = Some t ->
  close_all kend PHYSTOP k (Z.of_nat fd) s = Ok u s' ->
  counted zero s' /\ cur (kps s') = Some i /\ tabs s' = <[i := take fd t ++ replicate k 0 ++ drop (fd + k) t]> (tabs s).
Proof.
  induction k as [|k IH]; intros fd t s u s' HC Hc Ht E; cbn [close_all] in E.
  - injection E as _ <-. split_and!; [exact HC | exact Hc|]. rewrite Nat.add_0_r. cbn [replicate app]. rewrite take_drop, list_insert_id by exact Ht. reflexivity.
  - apply bind_Ok in E as (p & s1 & E1 & E). apply curproc_Ok in E1 as [-> (j & Hj & Hp)]. assert (j = i) as -> by congruence. assert (ofile p = t) as Ep by congruence. rewrite Ep in E.
    apply bind_Ok in E as (f & s1 & E1 & E). unfold aget in E1. destruct (Z.ltb_spec (Z.of_nat fd) 0); [discriminate|]. rewrite Nat2Z.id in E1.
    destruct (t !! fd) as [g|] eqn:Eg; [|discriminate]. injection E1 as <- <-. apply bind_Ok in E as (u1 & s1 & E1 & E).
    replace (Z.of_nat fd + 1) with (Z.of_nat (S fd)) in E by lia. pose proof (lookup_lt_Some _ _ _ Eg) as Hlt.
    assert (counted zero s1 /\ cur (kps s1) = Some i /\ tabs s1 = <[i := <[fd := 0]> t]> (tabs s)) as (HC1 & Hc1 & Et1).
    { unfold nz in E1. destruct (Z.eqb_spec g 0) as [-> | Hg]; cbn [negb when] in E1.
      - injection E1 as _ <-. rewrite (list_insert_id t fd 0 Eg), (list_insert_id _ _ _ Ht). auto.
      - apply bind_Ok in E1 as (v & s2 & E2 & E3). destruct (file_close_view kend PHYSTOP g zero s v s2 ltac:(unfold zero; lia) HC E2) as (HC2 & Et2 & Ec2).
        destruct (set_fd_Ok s2 i t (Z.of_nat fd) 0 u1 s1) as (Et & Ef & El & Ec); [congruence | congruence | exact E3|]. rewrite Nat2Z.id in Et.
        split_and!; [|congruence | congruence]. refine (counted_back s2 s1 i t fd g HC2 _ Eg Et Ef El). congruence. }
    destruct (IH (S fd) (<[fd := 0]> t) s1 u s' HC1 Hc1) as (H1 & H2 & H3); [rewrite Et1; apply list_lookup_insert_eq, (lookup_lt_Some _ _ _ Ht) | exact E|].
    split_and!; [exact H1 | exact H2|]. rewrite H3, Et1, list_insert_insert_eq. f_equal.
    rewrite (take_S_r _ _ 0) by (apply list_lookup_insert_eq, Hlt). rewrite take_insert_ge by lia. rewrite drop_insert_lt by lia.
    rewrite <-app_assoc. replace (S fd + k)%nat with (fd + S k)%nat by lia. reflexivity.
Qed.

(** What exit has given back: the process has no descriptor left. *)
Lemma exit_files_spec i t s u s' : counted zero s -> cur (kps s) = Some i -> tabs s !! i = Some t -> exit_files kend PHYSTOP s = Ok u s' ->
  counted zero s' /\ cur (kps s') = Some i /\ tabs s' = <[i := replicate NOFILE 0]> (tabs s).
Proof.
  intros HC Hc Ht E. unfold exit_files in E. apply bind_Ok in E as (p & s1 & E1 & E). apply curproc_Ok in E1 as [-> _].
  apply bind_Ok in E as (v & s1 & E1 & E). destruct (close_all_spec i NOFILE 0 t s v s1 HC Hc Ht E1) as (HC1 & Hc1 & Et1).
  assert (quiet (C := C) (kbegin_op;; onfs (iput (Z.to_nat (Proc.cwd p - 1)));; kend_op)) as Hq by quiet_tac.
  pose proof (Hq _ _ _ E) as Hs. split; [exact (counted_same _ _ _ Hs HC1)|]. destruct Hs as (_ & _ & Et & Ec). split; [congruence|].
  rewrite Et, Et1. f_equal. rewrite take_0. cbn [app Nat.add]. assert (length t = NOFILE) as Hl by (pose proof (c_tab _ _ HC) as Hf; rewrite Forall_lookup in Hf; exact (Hf i t Ht)).
  rewrite drop_ge by lia. apply app_nil_r.
Qed.

(** Code without a sleep. *)
Definition awake {A} (m : M pstate A) : Prop := forall p ch p', m p <> Block ch p'.
Lemma awake_bind {A B} (m : M pstate A) (k : A -> M pstate B) : awake m -> (forall a, awake (k a)) -> awake (m ≫= k).
Proof. intros Hm Hk p ch p' E. unfold mbind, M_bind in E. destruct (m p) as [a p1| | |ch1 p1] eqn:Em; try discriminate; [exact (Hk a p1 ch p' E) | exact (Hm p ch1 p1 Em)]. Qed.
Ltac awake_tac :=
  repeat (cbv zeta;
    match goal with
    | |- forall _, _ => intro
    | |- awake (mbind _ _) => apply awake_bind
    | |- awake (when ?b _) => destruct b; cbn [when]
    | |- awake (if ?b then _ else _) => destruct b
    | |- awake (match ?x with _ => _ end) => destruct x
    end); try (intros ? ? ?; discriminate).
Lemma awake_step {A B} (m : M pstate A) (k : A -> M pstate B) p ch p' : awake m -> pcalm m -> (m ≫= k) p = Block ch p' ->
  exists a p1, m p = Ok a p1 /\ pframed p p1 /\ k a p1 = Block ch p'.
Proof.
  intros Ha Hm E. unfold mbind, M_bind in E. destruct (m p) as [a p1| | |c1 p1] eqn:Em; try discriminate; [|destruct (Ha p c1 p1 Em)].
  exists a, p1. split_and!; [reflexivity | exact (pcalm_Ok _ _ _ _ Hm Em) | exact E].
Qed.

Lemma awake_myproc : awake myproc.
Proof. unfold myproc. awake_tac. Qed.
Lemma awake_pget i : awake (pget i).
Proof. unfold pget. awake_tac. Qed.
Lemma awake_acquire : awake acquire_pt.
Proof. unfold acquire_pt. awake_tac. Qed.
Lemma calm_emit c : awake (emit c) /\ pcalm (emit c).
Proof. split; [awake_tac|]. apply pcalm_intro. intros p u p' [= _ <-]. split_and!; reflexivity. Qed.
Lemma calm_close_files l : awake (close_files l) /\ pcalm (close_files l).
Proof.
  induction l as [|f l [IH1 IH2]]; cbn [close_files]; [split; [awake_tac | apply pcalm_ret]|]. destruct (calm_emit (CFileClose f)) as [E1 E2].
  destruct (nz f); cbn [when]; split; [apply awake_bind; auto | apply pcalm_bind; auto | apply awake_bind; [awake_tac | auto] | apply pcalm_bind; [apply pcalm_ret | auto]].
Qed.
Lemma calm_wakeup1 ch : awake (wakeup1 ch) /\ pcalm (wakeup1 ch).
Proof.
  split; [awake_tac|]. apply pcalm_intro. intros p u p' E. pose proof (ptame_wakeup1 ch _ _ _ E) as (H1 & H2 & _). injection E as _ <-.
  split_and!; [|exact H1 | reflexivity]. cbn. rewrite map_map. apply map_ext. intros q. destruct (_ && _); reflexivity.
Qed.
Lemma calm_reparent i init n : forall k, awake (reparent i init n k) /\ pcalm (reparent i init n k).
Proof.
  induction n as [|n IH]; intros k; cbn [reparent]; [split; [awake_tac | apply pcalm_ret]|]. destruct (IH (S k)) as [IH1 IH2].
  destruct (calm_wakeup1 (match init with Some j => proc_chan j | None => 0 end)) as [W1 W2]. pose proof (awake_pget k) as Hg. split.
  - apply awake_bind; [exact Hg|]. intros p. apply awake_bind; [|auto]. awake_tac; auto.
  - calm_tac; auto.
Qed.

Lemma pcalm_wake_self i : pcalm (pmod i (fun q => if is_state SLEEPING q then q <| state := RUNNABLE |> else q)).
Proof.
  apply pcalm_pmod; intros q; destruct (is_state SLEEPING q) eqn:E; try reflexivity. apply is_state_true in E. exact (dead_wake q E).
Qed.
#[local] Hint Resolve pcalm_wake_self : tame.
#[local] Hint Extern 1 (awake (emit _)) => apply (proj1 (calm_emit _)) : tame.
#[local] Hint Extern 1 (pcalm (emit _)) => apply (proj2 (calm_emit _)) : tame.
#[local] Hint Extern 1 (awake (wakeup1 _)) => apply (proj1 (calm_wakeup1 _)) : tame.
#[local] Hint Extern 1 (pcalm (wakeup1 _)) => apply (proj2 (calm_wakeup1 _)) : tame.
#[local] Hint Extern 1 (awake (reparent _ _ _ _)) => apply (proj1 (calm_reparent _ _ _ _)) : tame.
#[local] Hint Extern 1 (pcalm (reparent _ _ _ _)) => apply (proj2 (calm_reparent _ _ _ _)) : tame.
#[local] Hint Resolve awake_pget awake_acquire : tame.
(** One step of code that goes to sleep later, with its frame. *)
Ltac bstep E :=
  let a := fresh "a" in let p := fresh "p" in let F := fresh "F" in let E' := fresh "E" in
  apply awake_step in E as (a & p & _ & F & E'); [|solve [awake_tac; auto with tame] | solve [calm_tac; auto with tame]]; rename E' into E.

Lemma awake_release_sched : awake (release_pt;; sched 0).
Proof.
  intros p ch p' E. unfold release_pt, sched, myproc, pget in E. mstep in E. destruct (ptlocked p); cbn [negb] in E; [|discriminate]. cbn in E.
  destruct (cur p) as [i|]; [|discriminate]. cbn in E. destruct (Proc.ptable p !! i); discriminate.
Qed.
Lemma sched_Block ch p ch' p' : sched ch p = Block ch' p' -> p' = p.
Proof.
  unfold sched, myproc, pget. mstep. destruct (cur p) as [i|]; [|discriminate]. destruct (Proc.ptable p !! i); [|discriminate].
  destruct (negb _); [discriminate|]. destruct (negb _); [discriminate|]. destruct (is_state _ _); [discriminate|]. intros [= _ <-]. reflexivity.
Qed.

(** The process leaves the processor as a zombie; nothing else about descriptors
    has changed when it had none. *)
Lemma exit_Block i q status p ch p' : cur p = Some i -> Proc.ptable p !! i = Some q -> ofile q = replicate NOFILE 0 -> exit status p = Block ch p' ->
  exists p1, pframed p p1 /\ Proc.ptable p' = alter (fun z => z <| state := ZOMBIE |>) i (Proc.ptable p1) /\ cur p' = cur p1.
Proof.
  intros Hc Hq Ho E. unfold exit in E. rewrite (bind_step _ _ _ _ _ (myproc_Ok i p Hc)), (bind_step _ _ _ _ _ (pget_Ok i q p Hq)) in E. cbv zeta in E.
  erewrite bind_step in E by reflexivity. destruct (bool_decide _); [destruct (String.eqb _ _); discriminate|].
  destruct (calm_close_files (ofile q)) as [A1 A2]. destruct (awake_step _ _ _ _ _ A1 A2 E) as (u1 & p1 & E1 & F1 & E'). clear E. rename E' into E.
  assert (exists q1, Proc.ptable p1 !! i = Some q1 /\ ofile q1 = replicate NOFILE 0) as (q1 & Hq1 & Ho1).
  { destruct F1 as (Ft & _ & _). apply (f_equal (fun l => l !! i)) in Ft. rewrite !list_lookup_fmap, Hq in Ft. cbn in Ft.
    destruct (Proc.ptable p1 !! i) as [q1|]; [|discriminate]. injection Ft as Ft. exists q1. split; congruence. }
  erewrite bind_step in E by reflexivity. match type of E with _ ?t = _ => set (p2 := t) in * end.
  assert (pframed p1 p2) as F2 by (eapply pframed_pmod; [exact Hq1 | | |reflexivity]; [reflexivity | symmetry; exact Ho1]).
  do 7 bstep E. match type of E with (if ?b then _ else _) _ = _ => destruct b end.
  { do 2 (erewrite bind_step in E by reflexivity). destruct (awake_release_sched _ _ _ E). }
  do 2 bstep E. erewrite bind_step in E by reflexivity. bstep E. erewrite bind_step in E by reflexivity. apply sched_Block in E.
  match type of E with p' = ?t <| ptable := _ |> => exists t end. rewrite E. split; [|split; reflexivity].
  repeat (etransitivity; [eassumption|]). reflexivity.
Qed.

(** ** fork *)

Lemma file_dup_kps f s g s' : file_dup f s = Ok g s' -> g = f /\ kps s' = kps s.
Proof.
  intros E. unfold file_dup in E. apply bind_Ok in E as (u & s1 & E1 & E). unfold acquire_ft in E1. mstep in E1. destruct (ftlocked s); [discriminate|].
  injection E1 as _ <-. apply bind_Ok in E as (x & s1 & E1 & E). apply fat_inv in E1 as (-> & _ & _). destruct (fref x <? 1); [discriminate|].
  erewrite bind_step in E by reflexivity. apply bind_Ok in E as (v & s1 & E1 & E). unfold release_ft in E1. mstep in E1. injection E1 as _ <-.
  injection E as <- <-. auto.
Qed.

(** The child gets the descriptors of its parent. *)
Lemma dup_fds_spec c np k : forall fd t t' s u s', counted zero s -> c <> np -> tabs s !! c = Some t -> tabs s !! np = Some t' ->
  length t = (fd + k)%nat -> length t' = length t -> drop fd t' = replicate k 0 -> dup_fds k c np fd s = Ok u s' ->
  counted zero s' /\ cur (kps s') = cur (kps s) /\ slots s' = slots s /\ tabs s' = <[np := take fd t' ++ drop fd t]> (tabs s).
Proof.
  induction k as [|k IH]; intros fd t t' s u s' HC Hne Ht Ht' Hl Hl' Hz E; cbn [dup_fds] in E.
  - injection E as _ <-. split_and!; [exact HC | reflexivity | reflexivity|]. rewrite (drop_ge t), take_ge, app_nil_r by lia. rewrite list_insert_id by exact Ht'. reflexivity.
  - apply bind_Ok in E as (cp & s1 & E1 & E).
    assert (s1 = s /\ ofile cp = t) as [-> Ecp].
    { unfold onps in E1. destruct (pget c (kps s)) as [q p1| | |] eqn:Eg; try discriminate. apply pget_inv in Eg as [-> Hq]. injection E1 as <- <-.
      split; [destruct s; reflexivity|]. unfold tabs in Ht. rewrite list_lookup_fmap, Hq in Ht. injection Ht as ->. reflexivity. }
    rewrite Ecp in E. clear E1. apply bind_Ok in E as (f & s1 & E1 & E). unfold aget in E1. destruct (Z.ltb_spec (Z.of_nat fd) 0); [discriminate|]. rewrite Nat2Z.id in E1.
    destruct (t !! fd) as [g|] eqn:Eg; [|discriminate]. injection E1 as <- <-. apply bind_Ok in E as (v & s1 & E1 & E).
    assert (t' !! fd = Some 0) as Hz0 by (rewrite <-(Nat.add_0_r fd), <-lookup_drop, Hz; reflexivity). pose proof (lookup_lt_Some _ _ _ Hz0) as Hlt.
    assert (counted zero s1 /\ cur (kps s1) = cur (kps s) /\ slots s1 = slots s /\ tabs s1 = <[np := <[fd := g]> t']> (tabs s)) as (HC1 & Hc1 & Hs1 & Et1).
    { unfold nz in E1. destruct (Z.eqb_spec g 0) as [-> | Hg]; cbn [negb when] in E1.
      - injection E1 as _ <-. rewrite (list_insert_id t' fd 0 Hz0), (list_insert_id _ _ _ Ht'). auto.
      - apply bind_Ok in E1 as (g' & s2 & E2 & E3). destruct (file_dup_kps _ _ _ _ E2) as [-> Hk].
        pose proof (tri_file_dup any zero g ltac:(unfold zero; lia) s g s2 I HC E2) as HC2. injection E3 as _ <-.
        assert (tabs s2 = tabs s) as Et2 by (unfold tabs; rewrite Hk; reflexivity).
        match goal with |- counted zero ?t /\ _ => set (s3 := t) end.
        assert (tabs s3 = <[np := <[fd := g]> t']> (tabs s)) as Et3 by (rewrite <-Et2; apply (map_alter_ofile _ np t' fd g); unfold tabs in Et2; rewrite Et2; exact Ht').
        split_and!; [|cbn; congruence | unfold slots; cbn; rewrite map_alter_same, Hk by reflexivity; reflexivity | exact Et3].
        apply (counted_ext (fun x => zero x + one g x + one 0 x - one g x)); [intros x Hx; rewrite one_zero by exact Hx; unfold zero; lia | apply zero_small|].
        rewrite <-Et2 in Et3. apply (counted_set _ s2 s3 np t' fd 0 g HC2); auto; [congruence | | intros x; unfold zero; pose proof (one_range g x); lia].
        pose proof (c_fd _ _ HC) as Hfd. unfold fds in Hfd. apply concat_Forall in Hfd. rewrite Forall_lookup in Hfd. specialize (Hfd c t Ht).
        rewrite Forall_lookup in Hfd. exact (Hfd fd g Eg). }
    pose proof (lookup_lt_Some _ _ _ Ht') as Hnp.
    destruct (IH (S fd) t (<[fd := g]> t') s1 u s' HC1 Hne) as (H1 & H2 & H3 & H4); [rewrite Et1, list_lookup_insert_ne by congruence; exact Ht |
      rewrite Et1; apply list_lookup_insert_eq, Hnp | lia | rewrite length_insert; exact Hl' | | exact E|].
    { rewrite drop_insert_lt by lia. change (S fd) with (1 + fd)%nat. rewrite Nat.add_comm, <-drop_drop, Hz. reflexivity. }
    split_and!; [exact H1 | congruence | congruence|]. rewrite H4, Et1, list_insert_insert_eq. f_equal.
    rewrite (take_S_r _ _ g) by (apply list_lookup_insert_eq, Hlt). rewrite take_insert_ge by lia. rewrite (drop_S t g fd Eg), <-app_assoc. reflexivity.
Qed.

(** Two states with the same descriptors and counts, and the slots in use given. *)
Definition taken s s' (l : list bool) : Prop := same_fds s s' /\ slots s' = l.
Lemma taken_calm {A} (m : K A) s s1 l a s' : taken s s1 l -> m s1 = Ok a s' -> calm m -> taken s s' l.
Proof. intros [T1 T2] E [H1 H2]. split; [eapply same_fds_trans; [exact T1 | exact (H1 _ _ _ E)] | rewrite <-T2; apply (H2 _ _ _ E)]. Qed.
(** The state of a slot is set. *)
Lemma taken_state s s1 l i (f : proc -> proc) b u s' : taken s s1 l -> (forall p, ofile (f p) = ofile p) -> (forall p, dead (f p) = b) ->
  onps (pmod i f) s1 = Ok u s' -> taken s s' (<[i := b]> l).
Proof.
  intros [T1 T2] Ho Hb E. split.
  - eapply same_fds_trans; [exact T1|]. revert E. apply quiet_onps, fdless_pmod, Ho.
  - rewrite <-T2. injection E as _ <-. unfold slots. cbn. generalize (Proc.ptable (kps s1)). intros t. clear -Hb. revert i.
    induction t as [|p t IH]; intros [|i]; try reflexivity; cbn; [rewrite Hb; reflexivity | f_equal; apply IH].
Qed.

Lemma allocproc_slots page s o s' : onps (allocproc page) s = Ok o s' ->
  match o with
  | None => taken s s' (slots s)
  | Some np => slots s !! np = Some true /\ taken s s' (<[np := false]> (slots s))
  end.
Proof.
  intros E. unfold onps in E. destruct (allocproc page (kps s)) as [o1 p1| | |] eqn:Ea; try discriminate. injection E as <- <-.
  unfold allocproc in Ea. apply bind_Ok in Ea as (u & q & E1 & Ea). unfold acquire_pt in E1. mstep in E1. destruct (ptlocked (kps s)) eqn:El; [discriminate|].
  injection E1 as _ <-. erewrite bind_step in Ea by reflexivity. cbn [Proc.ptable] in Ea.
  match type of Ea with context [scan ?f ?l] => change l with (Proc.ptable (kps s)) in Ea end.
  destruct (scan _ (Proc.ptable (kps s))) as [i|] eqn:Es.
  - apply scan_Some in Es as [(z & Hz & Hu) _]. assert (slots s !! i = Some true) as Hs by (unfold slots; rewrite list_lookup_fmap, Hz; cbn; unfold dead; rewrite Hu; reflexivity).
    assert (forall (g : proc -> proc) p', (forall p, ofile (g p) = ofile p) -> Proc.ptable p' = alter g i (Proc.ptable (kps s)) -> cur p' = cur (kps s) ->
      forall b, dead (g z) = b -> taken s (s <| kps := p' |>) (<[i := b]> (slots s))) as Hg.
    { intros g p' Ho Ep Ec b <-. split.
      - split_and!; try reflexivity; [unfold tabs; cbn; rewrite Ep; apply map_alter_same, Ho | exact Ec].
      - unfold slots. cbn. rewrite Ep, (alter_insert _ _ _ _ Hz). change (map dead) with (fmap (M := list) dead). apply list_fmap_insert. }
    do 3 (erewrite bind_step in Ea by reflexivity). destruct (page =? 0).
    + erewrite bind_step in Ea by reflexivity. injection Ea as <- <-. rewrite <-(list_insert_id _ _ _ Hs).
      apply (Hg (fun p => fresh_proc (nextpid (kps s)) p <| kstack := page |> <| state := UNUSED |>)); [reflexivity | | reflexivity | reflexivity].
      cbn. rewrite !alter_alter. reflexivity.
    + injection Ea as <- <-. split; [exact Hs|]. apply (Hg (fun p => fresh_proc (nextpid (kps s)) p <| kstack := page |>)); [reflexivity | | reflexivity | reflexivity].
      cbn. rewrite !alter_alter. reflexivity.
  - erewrite bind_step in Ea by reflexivity. injection Ea as <- <-. split; [split_and!; reflexivity | reflexivity].
Qed.

(** Between calls: the counts are right, and slots not in use have no descriptor. *)
Record kinv s : Prop := Kinv {
  k_counted : counted zero s;
  k_dead : forall i t, slots s !! i = Some true -> tabs s !! i = Some t -> t = replicate NOFILE 0
}.

(** A calm step of [E], from the frame [T]. *)
Ltac tstep T E :=
  let x := fresh "x" in let t := fresh "s" in let T' := fresh "T" in
  apply bind_Ok in E as (x & t & T' & E); apply (taken_calm _ _ _ _ _ _ T) in T'; [|solve [calm_tac]]; clear T; rename T' into T.
Lemma kfork_result c s r s' : kinv s -> cur (kps s) = Some c -> slots s !! c = Some false -> kfork kend PHYSTOP kdata s = Ok r s' ->
  (r = - ENOMEM /\ taken s s' (slots s))
  \/ exists np t, slots s !! np = Some true /\ tabs s !! c = Some t
       /\ counted zero s' /\ cur (kps s') = Some c /\ slots s' = <[np := false]> (slots s) /\ tabs s' = <[np := t]> (tabs s).
Proof.
  intros [HC HD] Hc Hl E. unfold kfork in E. apply bind_Ok in E as (c0 & s0 & E0 & E).
  assert (c0 = c /\ s0 = s) as [-> ->] by (unfold onps in E0; rewrite (myproc_Ok c _ Hc) in E0; injection E0 as <- <-; split; [reflexivity | destruct s; reflexivity]).
  assert (taken s s (slots s)) as T by (split; [apply same_fds_refl | reflexivity]).
  erewrite bind_step in E by reflexivity. tstep T E. apply bind_Ok in E as (o & s2 & E2 & E). pose proof (allocproc_slots _ _ _ _ E2) as T2.
  destruct T as [F1 S1]. rewrite S1 in T2.
  destruct o as [np|]; [|injection E as <- <-; left; split; [reflexivity|]; destruct T2 as [F2 S2]; split; [exact (same_fds_trans _ _ _ F1 F2) | exact S2]].
  destruct T2 as [Hnp [F2 S2]]. assert (taken s s2 (<[np := false]> (slots s))) as T by (split; [exact (same_fds_trans _ _ _ F1 F2) | exact S2]).
  clear E0 E2 F1 S1 F2 S2. pose proof (lookup_lt_Some _ _ _ Hnp) as Hlt. do 4 tstep T E. match type of E with (if ?b then _ else _) _ = _ => destruct b end.
  - left. do 2 tstep T E. apply bind_Ok in E as (u4 & t3 & E3 & E). apply (taken_state _ _ _ _ _ true _ _ T) in E3; [|reflexivity | reflexivity].
    injection E as <- <-. split; [reflexivity|]. rewrite list_insert_insert_eq, list_insert_id in E3 by exact Hnp. exact E3.
  - right. tstep T E. destruct T as [F1 S1]. pose proof F1 as (_ & _ & Ft1 & Fc1). apply bind_Ok in E as (u4 & t2 & E2 & E).
    assert (length (tabs s) = length (slots s)) as Hsl by (unfold tabs, slots; rewrite !length_map; reflexivity).
    destruct (lookup_lt_is_Some_2 (tabs s) c) as [t Ht]; [rewrite Hsl; exact (lookup_lt_Some _ _ _ Hl)|].
    destruct (lookup_lt_is_Some_2 (tabs s) np) as [t' Ht']; [rewrite Hsl; exact Hlt|]. pose proof (HD np t' Hnp Ht') as Hz.
    assert (length t = NOFILE) as Hlt1 by (pose proof (c_tab _ _ HC) as Hf; rewrite Forall_lookup in Hf; exact (Hf c t Ht)).
    apply (dup_fds_spec c np NOFILE 0 t t') in E2 as (HC2 & Hc2 & Hs2 & Ht2); [|exact (counted_same _ _ _ F1 HC) | congruence | congruence | congruence |
      exact Hlt1 | rewrite Hz, Hlt1; reflexivity | rewrite Hz; reflexivity].
    assert (taken t2 t2 (slots t2)) as T by (split; [apply same_fds_refl | reflexivity]). rewrite Hs2, S1 in T. do 4 tstep T E.
    apply bind_Ok in E as (u7 & t3 & E3 & E). apply (taken_state _ _ _ _ _ false _ _ T) in E3; [|reflexivity | reflexivity]. clear T. rename E3 into T.
    tstep T E. injection E as _ <-. rename T into E4.
    destruct E4 as [F4 S4]. pose proof F4 as (_ & _ & Ft4 & Fc4). exists np, t. split_and!; [exact Hnp | exact Ht | exact (counted_same _ _ _ F4 HC2) | congruence | | ].
    + rewrite S4, list_insert_insert_eq. reflexivity.
    + rewrite Ft4, Ht2, Ft1. f_equal.
Qed.

(** ** Any sequence of calls *)

Inductive kcall : Type :=
| KFd (c : fd_call) | KExec (depth : nat) | KBrk | KSbrk | KFork | KWaitpid | KWait4 | KKill | KSetpgid | KCred (c : cred_call)
| KSigreturn | KSigprocmask | KSigaction (stack : Z * Z) | KSignal | KVhangup | KSigsuspend | KGetrusage (junk : list Z).

Definition run_k (c : kcall) : K Z :=
  match c with
  | KFd c => run_fd devsw kend PHYSTOP name0 de0 c
  | KExec depth => sys_exec devsw kend PHYSTOP kdata name0 buf0 depth
  | KBrk => sys_brk kend PHYSTOP | KSbrk => sys_sbrk kend PHYSTOP
  | KFork => sys_fork kend PHYSTOP kdata | KWaitpid => sys_waitpid kend PHYSTOP | KWait4 => sys_wait4 kend PHYSTOP
  | KKill => sys_kill | KSetpgid => sys_setpgid | KCred c => oncur (run_cred c)
  | KSigreturn => onsig sys_rt_sigreturn | KSigprocmask => onsig sys_rt_sigprocmask | KSigaction st => onsig (sys_rt_sigaction st)
  | KSignal => onsig sys_signal | KVhangup => onsig sys_vhangup | KSigsuspend => sys_rt_sigsuspend pad
  | KGetrusage junk => sys_getrusage junk
  end.

(** Process [i], in use, makes a call that returns; or it exits, and the scheduler
    gets the processor. *)
Inductive kstep : ksys C -> ksys C -> Prop :=
| kstep_call c i regs s r s' : slots s !! i = Some false -> run_k c (resume i regs s) = Ok r s' -> kstep s s'
| kstep_exit i regs status s u s1 ch s2 : slots s !! i = Some false ->
    exit_files kend PHYSTOP (resume i regs s) = Ok u s1 -> onps (exit status) s1 = Block ch s2 ->
    kstep s (s2 <| kps := to_scheduler (kps s2) |>).

Lemma kinv_resume i regs s : kinv s -> kinv (resume i regs s) /\ slots (resume i regs s) = slots s /\ cur (kps (resume i regs s)) = Some i.
Proof.
  intros [HC HD]. assert (slots (resume i regs s) = slots s) as Es by (apply (map_alter_same dead); intros p; reflexivity).
  assert (tabs (resume i regs s) = tabs s) as Et by (apply (map_alter_same ofile); intros p; reflexivity).
  split; [|split; [exact Es | reflexivity]]. split; [apply counted_resume, HC|]. rewrite Es, Et. exact HD.
Qed.
(** A call by a process in use that keeps the counts and every other table. *)
Lemma kinv_tame (m : K Z) i s r s' : tame m -> balanced m -> kinv s -> cur (kps s) = Some i -> slots s !! i = Some false -> m s = Ok r s' -> kinv s'.
Proof.
  intros Ht Hb [HC HD] Hc Hi E. destruct (Ht _ _ _ E) as [Fs Fc Ft]. split; [exact (Hb s r s' I HC E)|]. intros j t Hj Hjt. rewrite Fs in Hj.
  apply (HD j t Hj). rewrite <-Ft; [exact Hjt|]. congruence.
Qed.
Lemma kinv_taken s s' : kinv s -> taken s s' (slots s) -> kinv s'.
Proof. intros [HC HD] [F S]. split; [exact (counted_same _ _ _ F HC)|]. destruct F as (_ & _ & Et & _). rewrite S, Et. exact HD. Qed.
Lemma kinv_calm (m : K Z) s r s' : calm m -> kinv s -> m s = Ok r s' -> kinv s'.
Proof. intros Hm HK E. apply (kinv_taken s s' HK). apply (taken_calm m s s (slots s) r s'); [split; [apply same_fds_refl | reflexivity] | exact E | exact Hm]. Qed.

Lemma kinv_fork c s r s' : kinv s -> cur (kps s) = Some c -> slots s !! c = Some false -> kfork kend PHYSTOP kdata s = Ok r s' -> kinv s'.
Proof.
  intros HK Hc Hi E. destruct (kfork_result c s r s' HK Hc Hi E) as [[_ HT] | (np & t & Hn & _ & HC & _ & Hs & Ht)]; [exact (kinv_taken s s' HK HT)|].
  split; [exact HC|]. intros j x Hj Hx. rewrite Hs in Hj. rewrite Ht in Hx. destruct (decide (j = np)) as [-> | Hne].
  - rewrite list_lookup_insert_eq in Hj by exact (lookup_lt_Some _ _ _ Hn). discriminate.
  - rewrite list_lookup_insert_ne in Hj by congruence. rewrite list_lookup_insert_ne in Hx by congruence. exact (k_dead _ HK j x Hj Hx).
Qed.

Lemma kinv_exit i status s u s1 ch s2 : kinv s -> cur (kps s) = Some i -> slots s !! i = Some false ->
  exit_files kend PHYSTOP s = Ok u s1 -> onps (exit status) s1 = Block ch s2 -> kinv (s2 <| kps := to_scheduler (kps s2) |>).
Proof.
  intros [HC HD] Hc Hi E1 E2. destruct (lookup_lt_is_Some_2 (tabs s) i) as [t Ht].
  { apply lookup_lt_Some in Hi. unfold slots in Hi. unfold tabs. rewrite length_map in Hi |- *. exact Hi. }
  destruct (exit_files_spec i t s u s1 HC Hc Ht E1) as (HC1 & Hc1 & Et1). destruct (tame_exit_files _ _ _ _ _ E1) as [Fs _ _].
  unfold onps in E2. destruct (exit status (kps s1)) as [| | |ch' p'] eqn:Ex; try discriminate. injection E2 as _ <-.
  assert (tabs s1 !! i = Some (replicate NOFILE 0)) as Hz by (rewrite Et1; apply list_lookup_insert_eq, (lookup_lt_Some _ _ _ Ht)).
  pose proof Hz as Hq. unfold tabs in Hq. rewrite list_lookup_fmap in Hq. destruct (Proc.ptable (kps s1) !! i) as [q|] eqn:Eq; [|discriminate]. injection Hq as Hq.
  destruct (exit_Block i q status (kps s1) ch' p' Hc1 Eq Hq Ex) as (p1 & (F1 & F2 & F3) & Ep & _). set (s3 := _ <| kps := _ |>).
  assert (tabs s3 = tabs s1) as Et3 by (unfold tabs; cbn; rewrite Ep, map_alter_same by reflexivity; exact F1).
  assert (slots s3 = <[i := true]> (slots s)) as Es3.
  { rewrite <-Fs. unfold slots. cbn. rewrite Ep, <-F2. generalize (Proc.ptable p1). intros l. clear. revert i. induction l as [|z l IH]; intros [|i]; try reflexivity. cbn. f_equal. apply IH. }
  split; [destruct HC1; split; unfold fds in *; rewrite ?Et3; auto|]. intros j x Hj Hx. rewrite Et3 in Hx. destruct (decide (j = i)) as [-> | Hne]; [congruence|].
  rewrite Es3, list_lookup_insert_ne in Hj by congruence. rewrite Et1, list_lookup_insert_ne in Hx by congruence. exact (HD j x Hj Hx).
Qed.

Lemma calm_run_k c : match c with KFd _ | KFork => True | _ => calm (run_k c) end.
Proof.
  destruct (own_signals (match c with KSigaction st => st | _ => (0, 0) end)) as (O1 & O2 & O3 & O4 & O5).
  destruct c; cbn [run_k]; auto using calm_sys_exec, calm_brk, calm_sbrk, calm_kill, calm_sigsuspend, calm_getrusage, calm_onsig.
  - apply calm_waits.
  - apply calm_waits.
  - unfold sys_setpgid. calm_tac; apply pcalm_setpgid.
  - apply calm_oncur, own_cred.
Qed.

(** C17. The reference count of every open file is the number of descriptors that name
    it, in all processes together, and free slots and zombies have no descriptor,
    after any sequence of system calls that return, by any processes in use, with
    any arguments, and of exits: fork gives the child a counted copy of each
    descriptor, exit gives each one back, and exec, waiting, memory, credential and
    signal calls leave them alone. *)
Theorem kernel_refcounts s s' : rtc kstep s s' -> kinv s -> kinv s'.
Proof.
  induction 1 as [|s s1 s' Hs _ IH]; intros HK; [exact HK|]. apply IH. destruct Hs as [c i regs s r s1 Hi E | i regs status s u s1 ch s2 Hi E1 E2];
    destruct (kinv_resume i regs s HK) as (HK1 & Es & Ec); rewrite <-Es in Hi.
  - pose proof (calm_run_k c) as Hc. destruct c; try exact (kinv_calm _ _ _ _ Hc HK1 E).
    + exact (kinv_tame _ i _ _ _ (tame_run_fd _ _ _ _ _ _) (balanced_run _ _ _ _ _ _) HK1 Ec Hi E).
    + exact (kinv_fork i _ _ _ HK1 Ec Hi E).
  - exact (kinv_exit i status _ u s1 ch s2 HK1 Ec Hi E1 E2).
Qed.
End kernel_refs.

(** The state of FdRefs.v: one process with one open file. *)
Lemma fd_sys_kinv : kinv fd_sys.
Proof.
  split; [exact fd_sys_counted|]. intros i t Hd Ht. unfold slots, tabs in *. change (Proc.ptable (kps fd_sys)) with (map fd_proc (seq 0 64)) in *.
  rewrite !list_lookup_fmap in Hd. rewrite !list_lookup_fmap in Ht. destruct (seq 0 64 !! i) as [j|] eqn:Ej; [|discriminate]. injection Hd as Hd. injection Ht as <-.
  destruct (decide (j = 0%nat)) as [-> | Hne]; [discriminate|]. destruct j; [congruence | reflexivity].
Qed.
Lemma kernel_refcounts_witness :
  exists s', rtc (kstep (fun _ => Devops None None) 0 0 0 [] [] [] (fun _ => 0)) fd_sys s' /\ kinv s'.
Proof.
  destruct (sys_dup (resume 0 zero_tf fd_sys)) as [r s'| | |] eqn:E; [|vm_compute in E; discriminate ..].
  exists s'. assert (rtc (kstep (fun _ => Devops None None) 0 0 0 [] [] [] (fun _ => 0)) fd_sys s') as Hr.
  { apply rtc_once. exact (kstep_call _ _ _ _ _ _ _ _ (KFd CDup) 0 zero_tf fd_sys r s' eq_refl E). }
  split; [exact Hr|]. exact (kernel_refcounts _ _ _ _ _ _ _ _ _ _ Hr fd_sys_kinv).
Defined.
