(* ===== verification/SysMisc.v ===== *)
(** * Clock, names and the remaining system calls (src/kernel/sys/sys.c)

    The state [msys] is the whole kernel: terminals and everything below them
    (Tty.v), the clock variables of time.c and tsc.c, the host and domain names,
    C_A_D and the tick counter.  [rdtsc] is what the time-stamp counter reads
    during the call.  [junk] stands for bytes of the kernel stack that the code
    reads without having set them. *)
From Stdlib Require Import ZArith Lia.
From Stdlib Require Ascii String.
From stdpp Require Import base numbers list gmap strings.
From S2P Require Import Prelude KString Type64 Time Locks Kalloc Vm Pipe Proc Syscall Cred Block Log Fs Signal File SysFd SysDir Tty Console Ioctl SysProc.
Local Open Scope Z_scope.

Definition CLOCK_REALTIME : Z := 0.
Definition CLOCK_MONOTONIC : Z := 1.
Definition NSEC : Z := 1000000000.
Definition S_IFLNK : Z := 40960.

Record msys (C : Type) := Msys {
  mt : tsys C;
  mclk : Time.clock;
  tsc_realtime : Z;
  sys_nodename : list Z;
  sys_domainname : list Z;
  C_A_D : bool;
  ticks : Z
}.
Arguments Msys {C}. Arguments mt {C}. Arguments mclk {C}. Arguments tsc_realtime {C}. Arguments sys_nodename {C}. Arguments sys_domainname {C}.
Arguments C_A_D {C}. Arguments ticks {C}.
#[export] Instance msys_fields C : Fields (msys C) := fun s =>
  Msys (mt s) (mclk s) (tsc_realtime s) (sys_nodename s) (sys_domainname s) (C_A_D s) (ticks s).

(** ** The clock *)

(** Nanoseconds since the counter was calibrated, as sys_clock_gettime computes
    them: the operands mix int64_t and uint64_t. *)
Definition clock_ns (c : Time.clock) (rdtsc : Z) : Z :=
  let delta := u64 (rdtsc - tsc_offset c) in
  let seconds := i64 (udivdi3 delta (tsc_freq_hz c)) in
  let remainder := i64 (udivmoddi4 delta (tsc_freq_hz c)).2 in
  i64 (u64 (i64 (seconds * NSEC)) + udivdi3 (u64 (i64 (remainder * NSEC))) (tsc_freq_hz c)).

(** The timespec of a clock; [None] for a clock there is not. *)
Definition clock_time (c : Time.clock) (realtime clkid rdtsc : Z) : option (Z * Z) :=
  let ns := clock_ns c rdtsc in
  let at_ns ns := Some (i64 (system_time c + Z.quot ns NSEC), u64 (Z.rem ns NSEC)) in
  if clkid =? CLOCK_MONOTONIC then at_ns ns
  else if clkid =? CLOCK_REALTIME then at_ns (i64 (ns + realtime))
  else None.

(** [system_time = utp->tv_sec - (rdtsc() - tsc_offset) / tsc_freq_hz] *)
Definition clock_set (c : Time.clock) (tv_sec rdtsc : Z) : Time.clock :=
  Clock (tsc_freq_hz c) (tsc_offset c) (i64 (tv_sec - udivdi3 (u64 (rdtsc - tsc_offset c)) (tsc_freq_hz c))).

Definition bytes64 (v : Z) : list Z := bytes32 v ++ bytes32 (Z.shiftr v 32).

(** ** Strings *)

(** A C string: the bytes before the first nul. *)
Fixpoint cstr (l : list Z) : list Z :=
  match l with
  | [] => []
  | c :: l' => if c =? 0 then [] else c :: cstr l'
  end.
(** strncpy of the string [src] over the start of [dst]. *)
Definition strncpy_over (dst src : list Z) (n : Z) : list Z :=
  take (Z.to_nat n) (src ++ replicate (Z.to_nat n) 0) ++ drop (Z.to_nat n) dst.
(** What safestrcpy of [src] stores in an array of 65. *)
Definition safestr65 (src : list Z) : list Z := take 64 (cstr src) ++ [0].

Section sysmisc.
Context {C : Type} `{BufCache C}.
Context (rdtsc : Z).
#[local] Abbreviation W := (M (msys C)).

Definition onT {A} (m : M (tsys C) A) : W A := fun s =>
  match m (mt s) with
  | Ok a t => Ok a (s <| mt := t |>)
  | Panic w => Panic w
  | Fault w => Fault w
  | Block ch t => Block ch (s <| mt := t |>)
  end.
Definition onK {A} (m : M (ksys C) A) : W A := onT (onsys m).

(** The arguments of a call, [err] when one is refused. *)
Definition wargi (n : nat) (k : Z -> W Z) : W Z :=
  p ← onK curproc; match argint p n with Some v => k v | None => mret (- EINVAL) end.
Definition wargp (n : nat) (size : Z) (k : Z -> W Z) : W Z :=
  p ← onK curproc; match argptr p n size with Some v => k v | None => mret (- EINVAL) end.
Definition wargs (n : nat) (k : list Z -> W Z) : W Z :=
  p ← onK curproc;
  s ← get;
  let umem := uview (pgdir p) (kmm (tk (mt s))) in
  match argstr p umem n with Some a => k (ustr umem a) | None => mret (- EINVAL) end.
Definition wuser {A} (m : Z -> M kstate A) : W A := onT (ouser m).
Definition root (k : W Z) : W Z := p ← onK curproc; if suser p then k else mret (- EPERM).

(** *** Time *)

Definition sys_time : W Z := wargi 0 (fun _ => s ← get; mret (i32 (Time.epoch_mktime (mclk s) rdtsc))).

(** argint sets four of the eight bytes of [epoch]. *)
Definition sys_stime (junk : Z) : W Z :=
  wargi 0 (fun lo => root (
    modify (fun s => s <| tsc_realtime := u64 ((u32 lo + Z.shiftl (u32 junk) 32) * NSEC) |>);;
    mret 0)).

Definition sys_clock_settime32 : W Z :=
  root (wargi 0 (fun clkid => wargp 1 16 (fun utp =>
    if negb (clkid =? CLOCK_REALTIME) then mret (- EPERM)
    else
      lo ← wuser (fun pd => uword pd utp);
      hi ← wuser (fun pd => uword pd (utp + 4));
      modify (fun s => s <| mclk := clock_set (mclk s) (i64 (lo + Z.shiftl hi 32)) rdtsc |>);;
      mret 0))).
Definition sys_clock_settime64 : W Z := sys_clock_settime32.

Definition sys_clock_gettime : W Z :=
  wargi 0 (fun clkid => wargp 1 16 (fun utp =>
    s ← get;
    match clock_time (mclk s) (tsc_realtime s) clkid rdtsc with
    | None => mret (- EPERM)
    | Some (sec, nsec) =>
        r ← wuser (fun pd => copyout pd utp (bytes64 sec ++ bytes64 nsec));
        if r <? 0 then mret (- EINVAL) else mret 0
    end)).
Definition sys_clock_gettime64 : W Z := sys_clock_gettime.

(** *** Names: the length is not checked against the arrays of 65 bytes *)

Definition set_name (old src : list Z) (len : Z) : option (list Z) :=
  if 64 <? len then None else Some (<[Z.to_nat len := 0]> (strncpy_over old src len)).
Definition sys_sethostname : W Z :=
  root (wargs 0 (fun host => wargi 1 (fun len =>
    s ← get;
    match set_name (sys_nodename s) host (u32 len) with
    | None => fault "sys_nodename"
    | Some l => put (s <| sys_nodename := l |>);; mret 0
    end))).
Definition sys_setdomainname : W Z :=
  root (wargs 0 (fun dom => wargi 1 (fun len =>
    s ← get;
    match set_name (sys_domainname s) dom (u32 len) with
    | None => fault "sys_domainname"
    | Some l => put (s <| sys_domainname := l |>);; mret 0
    end))).

(** The fields of struct utsname, by their offsets. *)
Definition uts_fields (s : msys C) : list (Z * list Z) :=
  [ (0, safestr65 (text "Trinix")); (65, safestr65 (sys_nodename s)); (130, safestr65 (text "0.03a"));
    (195, safestr65 (text "Trinix version 0.03a")); (260, safestr65 (text "i386")); (325, safestr65 (sys_domainname s)) ].
Definition sys_uname : W Z :=
  wargp 0 390 (fun u =>
    s ← get;
    foldr (fun f m => wuser (fun pd => ustores pd (u + f.1) f.2);; m) (mret 0) (uts_fields s)).

(** *** The machine *)

(** Resetting the machine does not return. *)
Definition sys_reboot : W Z :=
  root (wargi 0 (fun magic => wargi 1 (fun magic_too => wargi 2 (fun flag =>
    if negb (u32 magic =? 0xfee1dead) || negb (magic_too =? 672274793) then mret (- EINVAL)
    else if flag =? 0x01234567 then panic "hard_reset_now"
    else if u32 flag =? 0x89ABCDEF then modify (fun s => s <| C_A_D := true |>);; mret 0
    else if flag =? 0 then modify (fun s => s <| C_A_D := false |>);; mret 0
    else mret (- EINVAL))))).

(** Waits for an interrupt. *)
Definition sys_idle : W Z := mret 0.

(** A call that is not implemented says so on the console. *)
Definition notim : W unit :=
  p ← onK curproc;
  s ← get;
  onT (_printk (u32 (tsc_to_us (mclk s) rdtsc)) (text "notim") (text "syscall %d: Not Implemented." ++ [10]) [PInt (i32 (eax (tf p)))]).
Definition unimplemented : W Z := notim;; mret (-1).
Definition nosys : W Z := mret (- ENOSYS).

Definition sys_syscall : W Z := notim;; mret (- ENOSYS).
Definition sys_break : W Z := unimplemented.
Definition sys_stat : W Z := unimplemented.
Definition sys_mount : W Z := unimplemented.
Definition sys_umount : W Z := unimplemented.
Definition sys_ptrace : W Z := unimplemented.
Definition sys_nice : W Z := unimplemented.
Definition sys_ftime : W Z := unimplemented.
Definition sys_rename : W Z := unimplemented.
Definition sys_times : W Z := unimplemented.
Definition sys_prof : W Z := unimplemented.
Definition sys_acct : W Z := unimplemented.
Definition sys_phys : W Z := unimplemented.
Definition sys_lock : W Z := unimplemented.
Definition sys_mpx : W Z := unimplemented.
Definition sys_ulimit : W Z := unimplemented.
Definition sys_chroot : W Z := unimplemented.
Definition sys_ustat : W Z := unimplemented.
Definition sys_sigaction : W Z := unimplemented.
Definition sys_stty : W Z := nosys.
Definition sys_gtty : W Z := nosys.
Definition sys_sgetmask : W Z := nosys.
Definition sys_ssetmask : W Z := nosys.
Definition sys_oldlstat : W Z := nosys.
Definition sys_nanosleep : W Z := nosys.
End sysmisc.
