(* ===== verification/SysMiscThm.v ===== *)
(** * Properties of the clock and the names

    Setting the real-time clock and reading it later agree, with the processor's
    64-bit mixed signed arithmetic; the host name set is the host name read. *)
From Stdlib Require Import ZArith Lia.
From Stdlib Require Ascii String.
From stdpp Require Import base numbers list gmap strings.
From S2P Require Import Prelude KString Type64 Time Locks Kalloc Vm Pipe Proc Syscall Cred Block Bio BioThm Log Fs Signal File SysFd SysDir FdThm FdRefs Tty Console Ioctl SysProc SysMisc.
Local Open Scope Z_scope.

(** A clock of at most 9 GHz that has run for less than 290 years. *)
Record clock_ok (c : Time.clock) (d : Z) : Prop := ClockOk {
  ck_freq : 0 < tsc_freq_hz c < 9000000000;
  ck_offset : in_u 64 (tsc_offset c);
  ck_run : 0 <= d < 2 ^ 64 /\ d / tsc_freq_hz c < 9000000000
}.

Section clock.
Context (c : Time.clock) (d : Z) (Hc : clock_ok c d).
#[local] Abbreviation f := (tsc_freq_hz c).

Lemma ticks_bound : 0 <= d / f < 9000000000 /\ 0 <= d mod f < f /\ in_u 64 d /\ in_u 64 f.
Proof.
  destruct Hc as [Hf _ [Hd Hr]]. pose proof (Z.div_pos d f ltac:(lia) ltac:(lia)). pose proof (Z.mod_pos_bound d f ltac:(lia)).
  unfold in_u. split_and!; lia.
Qed.
(** The counter [d] ticks after the calibration. *)
Lemma delta_ticks : u64 (u64 (tsc_offset c + d) - tsc_offset c) = d.
Proof. rewrite uwrap_sub_l. replace (tsc_offset c + d - tsc_offset c) with d by lia. apply uwrap_id, ticks_bound. Qed.
Lemma divmod_ticks x : in_u 64 x -> udivdi3 x f = x / f /\ (udivmoddi4 x f).2 = x mod f.
Proof.
  intros Hx. destruct ticks_bound as (_ & _ & _ & Hf). destruct Hc as [Hf0 _ _]. rewrite (udivmoddi4_spec x f Hx Hf). rewrite (proj2 (Z.eqb_neq f 0)) by lia.
  split; [|reflexivity]. unfold udivdi3. rewrite udiv_loop_spec; [reflexivity | exact Hx | lia].
Qed.
Lemma subsecond : 0 <= (d mod f) * NSEC / f < NSEC.
Proof.
  destruct ticks_bound as (_ & Hm & _). split; [apply Z.div_pos; unfold NSEC; lia|]. apply Z.div_lt_upper_bound; unfold NSEC; lia.
Qed.

Lemma clock_ns_spec : clock_ns c (u64 (tsc_offset c + d)) = d / f * NSEC + (d mod f) * NSEC / f.
Proof.
  destruct ticks_bound as (Hq & Hm & Hd & _). destruct Hc as [Hf _ _]. pose proof subsecond as Hs. unfold clock_ns. cbv zeta. rewrite delta_ticks.
  destruct (divmod_ticks d Hd) as [-> ->]. unfold NSEC in *. change (2 ^ 64) with 18446744073709551616 in *.
  rewrite (swrap_id 64 eq_refl (d / f)), (swrap_id 64 eq_refl (d mod f)) by (unfold in_s; change (2 ^ (64 - 1)) with 9223372036854775808; lia).
  rewrite (swrap_id 64 eq_refl (d mod f * 1000000000)) by (unfold in_s; change (2 ^ (64 - 1)) with 9223372036854775808; nia).
  rewrite (swrap_id 64 eq_refl (d / f * 1000000000)) by (unfold in_s; change (2 ^ (64 - 1)) with 9223372036854775808; lia).
  rewrite (uwrap_id 64 (d / f * 1000000000)), (uwrap_id 64 (d mod f * 1000000000)) by (unfold in_u; change (2 ^ 64) with 18446744073709551616; nia).
  rewrite (proj1 (divmod_ticks (d mod f * 1000000000) ltac:(unfold in_u; change (2 ^ 64) with 18446744073709551616; nia))).
  apply (swrap_id 64 eq_refl). unfold in_s. change (2 ^ (64 - 1)) with 9223372036854775808. lia.
Qed.
End clock.

Lemma in_s64 z : - 2 ^ 63 <= z < 2 ^ 63 -> in_s 64 z.
Proof. intros Hz. exact Hz. Qed.

(** What the clocks show [d] ticks after the calibration, when stime has set
    [k] seconds. *)
Lemma clock_time_spec c d k clkid : clock_ok c d -> Z.abs (system_time c) <= 2 ^ 62 -> 0 <= k <= 200000000 ->
  clkid = CLOCK_MONOTONIC \/ clkid = CLOCK_REALTIME ->
  clock_time c (k * NSEC) clkid (u64 (tsc_offset c + d))
  = Some (system_time c + (if clkid =? CLOCK_REALTIME then k else 0) + d / tsc_freq_hz c, (d mod tsc_freq_hz c) * NSEC / tsc_freq_hz c).
Proof.
  intros Hc Hs Hk Hid. pose proof (clock_ns_spec c d Hc) as Hn. pose proof (subsecond c d Hc) as Hb. destruct (ticks_bound c d Hc) as (Hq & _).
  set (n := clock_ns c _) in *. set (q := d / tsc_freq_hz c) in *. set (r := (d mod tsc_freq_hz c) * NSEC / tsc_freq_hz c) in *.
  change (2 ^ 62) with 4611686018427387904 in Hs. unfold NSEC in *.
  assert (forall j, 0 <= j <= 200000000 -> Some (i64 (system_time c + Z.quot (i64 (n + j * 1000000000)) 1000000000), u64 (Z.rem (i64 (n + j * 1000000000)) 1000000000))
    = Some (system_time c + j + q, r)) as Hj.
  { intros j Hj. rewrite (swrap_id 64 eq_refl (n + j * 1000000000)) by (apply in_s64; change (2 ^ 63) with 9223372036854775808; lia).
    assert (n + j * 1000000000 = r + (q + j) * 1000000000) as -> by lia. rewrite Z.quot_div_nonneg, Z.rem_mod_nonneg by lia.
    rewrite Z.div_add, Z.mod_add, Z.div_small, Z.mod_small by lia.
    rewrite (swrap_id 64 eq_refl) by (apply in_s64; change (2 ^ 63) with 9223372036854775808; lia).
    rewrite uwrap_id by (unfold in_u; change (2 ^ 64) with 18446744073709551616; lia). do 2 f_equal. lia. }
  unfold clock_time. fold n. unfold NSEC. destruct Hid as [-> | ->].
  - change (CLOCK_MONOTONIC =? CLOCK_MONOTONIC) with true. change (CLOCK_MONOTONIC =? CLOCK_REALTIME) with false. cbv iota. rewrite <-(Hj 0) by lia.
    rewrite Z.mul_0_l, Z.add_0_r, (swrap_id 64 eq_refl n) by (apply in_s64; change (2 ^ 63) with 9223372036854775808; lia). reflexivity.
  - change (CLOCK_REALTIME =? CLOCK_MONOTONIC) with false. change (CLOCK_REALTIME =? CLOCK_REALTIME) with true. cbv iota. exact (Hj k Hk).
Qed.

(** stime stores its argument where CLOCK_REALTIME is added to system_time, which
    already holds the time of day: the clock then shows the sum, and time does not
    change. *)
Lemma stime_adds_to_system_time c d T : clock_ok c d -> Z.abs (system_time c) <= 2 ^ 62 -> 0 <= T <= 200000000 ->
  exists ns, clock_time c (T * NSEC) CLOCK_REALTIME (u64 (tsc_offset c + d)) = Some (system_time c + T + d / tsc_freq_hz c, ns).
Proof. intros Hc Hs HT. eexists. exact (clock_time_spec c d T CLOCK_REALTIME Hc Hs HT (or_intror eq_refl)). Qed.

Section settime.
Context {C : Type} `{BufCache C}.
Implicit Types (s : msys C).

(** The superuser sets CLOCK_REALTIME when the counter has run [d0] ticks, to the
    seconds [T] at the address [utp]: the call succeeds and changes system_time
    only, and [d1] ticks after the calibration clock_gettime of both clocks shows
    [T] plus the seconds that have passed, and a fraction below one second; so does
    time.  No 64-bit operation overflows for a processor of up to 9 GHz that has
    been up less than 280 years. *)
Theorem clock_settime_gettime s p utp lo hi d0 :
  let T := i64 (lo + Z.shiftl hi 32) in
  let c := mclk s in
  let secs d := d / tsc_freq_hz c in
  onK curproc s = Ok p s -> suser p = true -> argint p 0 = Some CLOCK_REALTIME -> argptr p 1 16 = Some utp ->
  wuser (fun pd => uword pd utp) s = Ok lo s -> wuser (fun pd => uword pd (utp + 4)) s = Ok hi s ->
  Z.abs T <= 2 ^ 61 -> clock_ok c d0 -> tsc_realtime s = 0 ->
  exists s', sys_clock_settime32 (u64 (tsc_offset c + d0)) s = Ok 0 s' /\ s' = s <| mclk := mclk s' |>
    /\ forall d1 clkid, d0 <= d1 -> clock_ok c d1 -> clkid = CLOCK_MONOTONIC \/ clkid = CLOCK_REALTIME ->
         let now := T + secs d1 - secs d0 in let tsc := u64 (tsc_offset c + d1) in
         (exists nsec, clock_time (mclk s') (tsc_realtime s') clkid tsc = Some (now, nsec) /\ 0 <= nsec < NSEC)
         /\ T <= now /\ Time.epoch_mktime (mclk s') tsc = now.
Proof.
  intros T c secs Hp Hsu H0 H1 Hlo Hhi HT Hc0 Hrt. unfold sys_clock_settime32, root, wargi, wargp.
  do 2 (rewrite (bind_step _ _ _ _ _ Hp), ?Hsu, ?H0, ?H1; cbv iota). rewrite (bind_step _ _ _ _ _ Hp), H1. change (negb (CLOCK_REALTIME =? CLOCK_REALTIME)) with false. cbv iota.
  rewrite (bind_step _ _ _ _ _ Hlo), (bind_step _ _ _ _ _ Hhi). eexists. split; [reflexivity|]. split; [destruct s; reflexivity|].
  intros d1 clkid Hd Hc1 Hid. cbv zeta. change (2 ^ 61) with 2305843009213693952 in HT.
  destruct (ticks_bound c d0 Hc0) as (Hq0 & _ & Hin0 & _), (ticks_bound c d1 Hc1) as (Hq1 & _ & Hin1 & _).
  assert (secs d0 <= secs d1) as Hm by (apply Z.div_le_mono; [destruct Hc0; lia | exact Hd]). fold (secs d0) in Hq0. fold (secs d1) in Hq1.
  set (c' := clock_set _ _ _).
  assert (c' = Clock (tsc_freq_hz c) (tsc_offset c) (T - secs d0)) as Ec.
  { unfold c', clock_set. fold c. fold T. rewrite (delta_ticks c d0 Hc0), (proj1 (divmod_ticks c d0 Hc0 d0 Hin0)). fold (secs d0).
    rewrite (swrap_id 64 eq_refl) by (apply in_s64; change (2 ^ 63) with 9223372036854775808; lia). reflexivity. }
  match goal with |- context [clock_time (mclk ?t) _ _ _] => change (mclk t) with c'; change (tsc_realtime t) with (tsc_realtime s) end. rewrite Ec, Hrt.
  assert (clock_ok (Clock (tsc_freq_hz c) (tsc_offset c) (T - secs d0)) d1) as Hc' by (destruct Hc1; split; assumption).
  split_and!; [|lia|].
  - exists ((d1 mod tsc_freq_hz c) * NSEC / tsc_freq_hz c). split; [|exact (subsecond c d1 Hc1)].
    etransitivity; [exact (clock_time_spec _ d1 0 clkid Hc' ltac:(cbn; change (2 ^ 62) with 4611686018427387904; lia) ltac:(lia) Hid)|]. cbn. do 2 f_equal. unfold secs.
    destruct (clkid =? CLOCK_REALTIME); lia.
  - unfold Time.epoch_mktime. cbn. rewrite (delta_ticks c d1 Hc1), (proj1 (divmod_ticks c d1 Hc1 d1 Hin1)). fold (secs d1).
    rewrite uwrap_add_l, swrap_uwrap. rewrite (swrap_id 64 eq_refl) by (apply in_s64; change (2 ^ 63) with 9223372036854775808; lia). lia.
Qed.
End settime.

(** ** Names *)

Lemma cstr_stop l r : Forall (fun c => c <> 0) l -> cstr (l ++ 0 :: r) = l.
Proof. induction 1 as [|c l Hc _ IH]; [reflexivity|]. cbn. rewrite (proj2 (Z.eqb_neq c 0) Hc), IH. reflexivity. Qed.

Lemma strncpy_over_length dst src n : 0 <= n -> (Z.to_nat n <= length dst)%nat -> length (strncpy_over dst src n) = length dst.
Proof. intros Hn Hl. unfold strncpy_over. rewrite length_app, length_take, length_app, length_replicate, length_drop. lia. Qed.
(** The array after the copy and the nul: the source up to [n] characters, a nul,
    and the rest. *)
Lemma set_name_text old src n l : length old = 65%nat -> 0 <= n -> set_name old src n = Some l ->
  length l = 65%nat /\ exists r, l = take (Z.to_nat n) src ++ 0 :: r.
Proof.
  unfold set_name. intros Ho Hn. destruct (Z.ltb_spec 64 n); [discriminate|]. intros [= <-].
  split; [rewrite length_insert, strncpy_over_length; lia|]. unfold strncpy_over. rewrite take_app. set (k := Z.to_nat n).
  destruct (decide (k <= length src)%nat) as [Hk | Hk].
  - replace (k - length src)%nat with 0%nat by lia. rewrite take_0, app_nil_r. rewrite insert_app_r_alt by (rewrite length_take; lia).
    rewrite length_take, Nat.min_l by lia. rewrite Nat.sub_diag. destruct (drop k old) as [|x r] eqn:Ed; [|exists r; reflexivity].
    apply (f_equal length) in Ed. rewrite length_drop in Ed. cbn in Ed. lia.
  - rewrite take_ge by lia. rewrite take_replicate, Nat.min_l by lia. destruct (k - length src)%nat as [|j] eqn:Ej; [lia|]. cbn [replicate app].
    eexists. rewrite <-app_assoc, insert_app_r_alt by lia. rewrite Ej. reflexivity.
Qed.

Lemma nul_at_before umem k : forall a e, nul_at umem a k = Some e -> forall j, a <= j < e -> umem j <> 0.
Proof.
  induction k as [|k IH]; intros a e; cbn [nul_at]; [discriminate|]. destruct (Z.eqb_spec (umem a) 0) as [E | Hne].
  - intros [= <-] j Hj. lia.
  - intros He j Hj. destruct (Z.eq_dec j a) as [-> |]; [exact Hne|]. apply (IH (a + 1) e He). lia.
Qed.
Lemma argstr_no_nul p umem n a : argstr p umem n = Some a -> Forall (fun c => c <> 0) (ustr umem a).
Proof.
  unfold argstr, fetchstr. destruct (argint p n) as [v|]; [|discriminate]. destruct (sz p <=? u32 v); [discriminate|].
  destruct (nul_at _ _ _) as [e|] eqn:E; [|discriminate]. intros [= <-]. unfold ustr. apply Forall_forall. intros c Hc.
  apply list_elem_of_In, in_map_iff in Hc as (i & <- & Hi). apply in_seq in Hi. cbn in *. apply (nul_at_before _ _ _ _ E). lia.
Qed.

Section names.
Context {C : Type} `{BufCache C}.
Implicit Types (s : msys C).

(** The host name the superuser sets is the one uname reports: the string passed,
    cut to the length given, in its 65-byte array and with its nul.  A length
    above 64 is not refused: the store runs past the array. *)
Theorem hostname_roundtrip s p a len :
  let umem := uview (pgdir p) (kmm (tk (mt s))) in
  onK curproc s = Ok p s -> suser p = true -> argstr p umem 0 = Some a -> argint p 1 = Some len -> length (sys_nodename s) = 65%nat ->
  let name := take (Z.to_nat (u32 len)) (ustr umem a) in
  if 64 <? u32 len then sys_sethostname s = Fault "sys_nodename"
  else exists s', sys_sethostname s = Ok 0 s' /\ s' = s <| sys_nodename := sys_nodename s' |> /\ length (sys_nodename s') = 65%nat
         /\ cstr (sys_nodename s') = name /\ uts_fields s' !! 1%nat = Some (65, name ++ [0]).
Proof.
  intros umem Hp Hsu Ha Hl Hlen name. unfold sys_sethostname, root, wargs, wargi. rewrite (bind_step _ _ _ _ _ Hp), Hsu. rewrite (bind_step _ _ _ _ _ Hp).
  erewrite bind_step by reflexivity. cbv zeta. fold umem. rewrite Ha, (bind_step _ _ _ _ _ Hp), Hl. erewrite bind_step by reflexivity.
  assert (0 <= u32 len) as H0 by (apply uwrap_range; reflexivity).
  destruct (set_name (sys_nodename s) (ustr umem a) (u32 len)) as [l|] eqn:E; unfold set_name in E; destruct (Z.ltb_spec 64 (u32 len)); try discriminate; [|reflexivity].
  destruct (set_name_text (sys_nodename s) (ustr umem a) (u32 len) l Hlen H0) as (Hl65 & r & Er); [unfold set_name; rewrite (proj2 (Z.ltb_ge 64 _)) by lia; exact E|].
  assert (cstr l = name) as Ec by (rewrite Er; apply cstr_stop, Forall_take, (argstr_no_nul _ _ _ _ Ha)).
  eexists. split; [reflexivity|]. split_and!; [reflexivity | exact Hl65 | exact Ec|]. cbn. unfold safestr65. rewrite Ec. rewrite take_ge; [reflexivity|].
  unfold name. rewrite length_take. lia.
Qed.
End names.

(** ** A concrete machine

    One process of the superuser, whose page directory, page table and page are at
    the second, third and fourth page of memory; its page holds the number 100 at
    offset 256 and the text abc at offset 16. *)
Definition misc_mem : mem := fun a =>
  let o := a - KERNBASE in
  if o <? 0x2000 then nth (Z.to_nat (o mod 4)) [7; 0x20; 0; 0] 0
  else if o <? 0x3000 then nth (Z.to_nat (o mod 4)) [7; 0x30; 0; 0] 0
  else if o =? 0x3000 + 256 then 100
  else nth (Z.to_nat (o - 0x3010)) [97; 98; 99] 0.
Definition misc_proc (ebx_arg ecx_arg : Z) : proc :=
  fd_proc 0 <| pgdir := KERNBASE + 0x1000 |> <| tf := zero_tf <| ebx := ebx_arg |> <| ecx := ecx_arg |> |>.
Definition misc_sys (ebx_arg ecx_arg : Z) : msys bstate :=
  Msys (Tsys (fd_sys <| kps := kps fd_sys <| Proc.ptable := <[0%nat := misc_proc ebx_arg ecx_arg]> (Proc.ptable (kps fd_sys)) |> |>
                     <| kmm := KState misc_mem false 0 (boot_state true) |>)
          [] 0 [] 0 [] (Ring [] 0 0 0) false false false false false 0 [])
    (Clock 3000000000 12345 0) 0 (text "localhost" ++ replicate 56 0) (text "domainname" ++ replicate 55 0) true 0.

Lemma onsys_same {A} (m : M (ksys bstate) A) (t : tsys bstate) a : m (tk t) = Ok a (tk t) -> onsys m t = Ok a t.
Proof. intros E. unfold onsys. rewrite E. destruct t. reflexivity. Qed.
Lemma onT_same {A} (m : M (tsys bstate) A) (s : msys bstate) a : m (mt s) = Ok a (mt s) -> onT m s = Ok a s.
Proof. intros E. unfold onT. rewrite E. destruct s. reflexivity. Qed.
Lemma misc_curproc b c : onK curproc (misc_sys b c) = Ok (misc_proc b c) (misc_sys b c).
Proof. apply onT_same, onsys_same. reflexivity. Qed.
Lemma misc_user {A} (m : Z -> M kstate A) b c a :
  m (KERNBASE + 0x1000) (KState misc_mem false 0 (boot_state true)) = Ok a (KState misc_mem false 0 (boot_state true)) ->
  wuser m (misc_sys b c) = Ok a (misc_sys b c).
Proof.
  intros E. apply onT_same. unfold ouser. erewrite bind_step by (apply onsys_same; reflexivity). apply onsys_same. unfold onmm.
  change (kmm (tk (mt (misc_sys b c)))) with (KState misc_mem false 0 (boot_state true)). change (pgdir _) with (KERNBASE + 0x1000). rewrite E. reflexivity.
Qed.
Lemma clock_settime_gettime_witness :
  exists s' ns, sys_clock_settime32 (12345 + 6000000000) (misc_sys 0 256) = Ok 0 s'
    /\ clock_time (mclk s') (tsc_realtime s') CLOCK_MONOTONIC (12345 + 15000000000) = Some (103, ns) /\ 0 <= ns < NSEC.
Proof.
  assert (clock_ok (mclk (misc_sys 0 256)) 6000000000) as H0 by (split; vm_compute; intuition congruence).
  assert (clock_ok (mclk (misc_sys 0 256)) 15000000000) as H1 by (split; vm_compute; intuition congruence).
  destruct (clock_settime_gettime (misc_sys 0 256) (misc_proc 0 256) 256 100 0 6000000000) as (s' & E & Es & Hr);
    [apply misc_curproc | reflexivity | reflexivity | reflexivity | apply misc_user; reflexivity | apply misc_user; reflexivity |
     vm_compute; congruence | exact H0 | reflexivity|].
  exists s'. destruct (Hr 15000000000 CLOCK_MONOTONIC ltac:(lia) H1 (or_introl eq_refl)) as ((ns & En & Hn) & _).
  exists ns. split_and!; [exact E | exact En | apply Hn | apply Hn].
Defined.
Lemma hostname_roundtrip_witness :
  exists s', sys_sethostname (misc_sys 16 3) = Ok 0 s' /\ cstr (sys_nodename s') = [97; 98; 99].
Proof.
  pose proof (hostname_roundtrip (misc_sys 16 3) (misc_proc 16 3) (16, 3) 3 (misc_curproc 16 3) eq_refl eq_refl eq_refl eq_refl) as Hh.
  destruct Hh as (s' & E & _ & _ & Ec & _). exists s'. split; [exact E | exact Ec].
Defined.
