(* ===== verification/SysStat.v ===== *)
(** * statx, readlink and getcwd (src/kernel/sys/sys.c)

    The calls that report on an inode or on the current directory.  [junk] are the
    bytes of the kernel stack next to or in an array the code has not filled:
    readlink takes the address of its argument for a path, and getcwd copies 128
    bytes from an array of 20. *)
From Stdlib Require Import ZArith Lia.
From stdpp Require Import base numbers list gmap strings.
From S2P Require Import Prelude KString Type64 Time Locks Kalloc Vm Pipe Proc Syscall Block Log Fs Signal File SysFd SysDir Tty Console Ioctl SysProc SysMisc.
Local Open Scope Z_scope.

(** struct statx_timestamp *)
Definition statx_time (sec : Z) : list Z := bytes64 sec ++ replicate 8 0.
(** struct statx, 256 bytes *)
Definition statx_bytes (mask : Z) (st : stat) : list Z :=
  bytes32 mask ++ bytes32 BSIZE ++ replicate 8 0 ++ bytes32 (st_nlink st) ++ bytes32 (st_uid st) ++ bytes32 (st_gid st)
  ++ take 2 (bytes32 (st_mode st)) ++ [0; 0] ++ bytes64 (st_ino st) ++ bytes64 (st_size st) ++ bytes64 (u32 (st_size st + BSIZE - 1) / BSIZE) ++ replicate 8 0
  ++ statx_time (st_lmtime st) ++ statx_time (st_ctime st) ++ statx_time (st_ctime st) ++ statx_time (st_lmtime st)
  ++ replicate 8 0 ++ bytes32 (st_dev st) ++ replicate 4 0 ++ replicate 112 0.

Section sysstat.
Context {C : Type} `{BufCache C}.
Context (devsw : Z -> @devops C) (name0 : list Z).
#[local] Abbreviation K := (M (ksys C)).

Definition sys_statx : K Z :=
  argi 0 (fun _ => args 1 (- EINVAL) (fun path => argi 2 (fun _ => argi 3 (fun mask => argp 4 256 (fun ubuf =>
    o ← knamei devsw name0 path;
    match o with
    | None => mret (- ENOENT)
    | Some ip =>
        onfs (ilock (Some ip));;
        st ← onfs (stati ip);
        onfs (iunlockput (Some ip));;
        me ← curproc;
        r ← onmm (copyout (pgdir me) ubuf (statx_bytes (u32 mask) st));
        if r <? 0 then mret (- EINVAL) else mret 0
    end))))).

(** argstr stores the address in the first bytes of [path], which is then the name. *)
Definition sys_readlink (junk : list Z) : K Z :=
  p ← curproc;
  s ← get;
  match argstr p (uview (pgdir p) (kmm s)) 0 with
  | None => mret (- EINVAL)
  | Some a =>
      argi 2 (fun bufsiz => argp 1 bufsiz (fun buf =>
        kbegin_op;;
        let path := bytes32 a.1 ++ take 16 junk in
        if bool_decide (0 ∉ path) then fault "path"
        else
          o ← knamei devsw name0 (cstr path);
          match o with
          | None => kend_op;; mret (- ENOENT)
          | Some ip =>
              onfs (ilock (Some ip));;
              d ← onfs (iat ip);
              if negb (fmt (mode d) =? S_IFLNK) then onfs (iunlockput (Some ip));; kend_op;; mret (- EINVAL)
              else
                r ← onfs (readi devsw ip 0 (u32 bufsiz));
                me ← curproc;
                onmm (ustores (pgdir me) buf r.2);;
                onfs (iunlockput (Some ip));;
                kend_op;;
                mret (if r.1 <? 0 then - EIO else r.1)
          end))
  end.

(** The name under which directory [dp] lists inode [inum], from offset [off] on;
    [de] is the entry read before. *)
Fixpoint entry_of (fuel : nat) (dp : nat) (inum_ off : Z) (de : list Z) : M (fsys C) (option (list Z) * list Z) :=
  match fuel with
  | O => fault "getcwd"
  | S fuel' =>
      d ← iat dp;
      if off <? isize d then
        r ← readi devsw dp off DIRENT;
        let de := r.2 ++ drop (length r.2) de in
        if d_ino de =? inum_ then
          if bool_decide (0 ∉ drop 7 de) then fault "d_name" else mret (Some (cstr (drop 7 de)), de)
        else entry_of fuel' dp inum_ (u32 (off + DIRENT)) de
      else mret (None, de)
  end.

(** The way up to the root: [pos] and the array [path]. *)
Fixpoint climb (fuel : nat) (cwd root : nat) (pos : Z) (path de : list Z) : K (nat * Z * list Z) :=
  match fuel with
  | O => fault "getcwd"
  | S fuel' =>
      c ← onfs (iat cwd);
      r ← onfs (iat root);
      if inum c =? inum r then mret (cwd, pos, path)
      else
        o ← onfs (dirlookup devsw cwd dotdot);
        match o with
        | None => mret (cwd, pos, path)
        | Some (parent, _) =>
            onfs (ilock (Some parent));;
            d ← onfs (iat parent);
            e ← onfs (entry_of (Z.to_nat (isize d / DIRENT) + 2) parent (inum c) 0 de);
            let '(o, de) := e in
            pp ← match o with
                 | None => mret (pos, path)
                 | Some nm =>
                     let pos := pos - (Z.of_nat (length nm) + 1) in
                     if pos <? 0 then fault "path"
                     else mret (pos, take (Z.to_nat pos) path ++ [47] ++ nm ++ drop (Z.to_nat pos + 1 + length nm) path)
                 end;
            onfs (iunlock (Some cwd));;
            climb fuel' parent root pp.1 pp.2 de
        end
  end.

(** [size] is not used; the copy takes 128 bytes from the start of the array.  The
    references dirlookup takes on the way are not given back. *)
Definition sys_getcwd (depth : nat) (path0 de0 junk : list Z) : K Z :=
  argp 0 1 (fun buf => argi 1 (fun _ =>
    p ← curproc;
    let cwd := Z.to_nat (Proc.cwd p - 1) in
    onfs (ilock (Some cwd));;
    o ← knamei devsw name0 [47];
    match o with
    | None => fault "inode pointer"
    | Some root =>
        x ← climb depth cwd root (DIRSIZ - 1) (take 19 path0 ++ [0]) de0;
        let '(last, pos, path) := x in
        onfs (iunlock (Some last));;
        onfs (iput root);;
        c ← aget "path" path pos;
        let pos' := if c =? 0 then pos - 1 else pos in
        if pos' <? 0 then fault "path"
        else
          let path := if c =? 0 then <[Z.to_nat pos' := 47]> path else path in
          me ← curproc;
          onmm (ustores (pgdir me) buf (take (Z.to_nat (128 - pos')) (drop (Z.to_nat pos') path ++ junk)));;
          mret (i32 buf)
    end)).
End sysstat.
