(* ===== verification/Trap.v ===== *)
(** * Traps and the table of system calls (src/kernel/cpu/trap.c, the table of
      src/kernel/sys/syscall.c)

    The handlers of all components on the state of the whole kernel, with bio.c
    under the file system, and the trap entry: system calls, the interrupts of the
    clock, the disk, the keyboard and the serial line, and faults.  A trap from
    user mode pushes its frame where [p->tf] points, at the top of the kernel
    stack.  The file system reads the time of day of this clock.  tickslock is held
    over the increment of [ticks] only and is left out, as are the messages of [debug];
    the end-of-interrupt command is in Irq.v. *)
From Stdlib Require Import ZArith Lia.
From stdpp Require Import base numbers list gmap strings.
From S2P Require Import Prelude KString Type64 Time Locks Kalloc Vm Pipe Proc Syscall Cred Block Bio BioThm Log Fs Signal File SysFd SysDir Tty Console Kbd Ioctl Exec SysProc SysMisc SysStat.
Local Open Scope Z_scope.

Definition T_SYSCALL : Z := 128.
Definition T_IRQ0 : Z := 32.
Definition IRQ_TIMER : Z := 0.
Definition IRQ_KBD : Z := 1.
Definition IRQ_COM1 : Z := 4.
Definition IRQ_IDE : Z := 14.
Definition IRQ_SPURIOUS : Z := 31.

(** What the kernel finds and does not compute: the devices, the layout of memory,
    bytes of its stack it has not set, the counter, the ports, the sleep channels,
    and the depth of script interpreters and directories that are followed. *)
Record kenv := Kenv {
  e_devsw : Z -> devops (C := bstate);
  e_kend : Z; e_PHYSTOP : Z; e_kdata : Z;
  e_name0 : list Z; e_de0 : list Z; e_buf0 : list Z; e_junk : list Z; e_stack : Z * Z; e_page : list Z;
  e_pad : nat -> Z;
  e_depth : nat;
  e_rdtsc : Z;
  e_inb : Z -> list (Z * Z) -> Z;
  e_input_chan : Z -> Z; e_cons_chan : Z; e_ticks_chan : Z
}.

(** The names of the faults. *)
Definition exceptions : list string :=
  [ "Division Error"; "Debug"; "Non-maskable Interrupt"; "Breakpoint";
    "Overflow"; "Bound Range Exceeded"; "Invalid Opcode"; "Device Not Available";
    "Double Fault"; "Coprocessor Segment Overrun"; "Invalid TSS"; "Segment Not Present";
    "Stack-Segment Fault"; "General Protection Fault"; "Page Fault"; "Reserved";
    "x87 Floating-Point Exception"; "Alignment Check"; "Machine Check"; "SIMD Floating-Point Exception";
    "Virtualization Exception"; "Control Protection Exception"; "Reserved"; "Reserved";
    "Reserved"; "Reserved"; "Reserved"; "Reserved";
    "Hypervisor Injection Exception"; "VMM Communication Exception"; "Security Exception"; "Reserved" ]%string.

Section trap.
Context (e : kenv).
#[local] Abbreviation W := (M (msys bstate)).
#[local] Abbreviation devsw := (e_devsw e).
#[local] Abbreviation kend := (e_kend e).
#[local] Abbreviation PHYSTOP := (e_PHYSTOP e).
#[local] Abbreviation kdata := (e_kdata e).
#[local] Abbreviation name0 := (e_name0 e).
#[local] Abbreviation de0 := (e_de0 e).
#[local] Abbreviation buf0 := (e_buf0 e).
#[local] Abbreviation junk := (e_junk e).
#[local] Abbreviation stack := (e_stack e).
#[local] Abbreviation page := (e_page e).
#[local] Abbreviation pad := (e_pad e).
#[local] Abbreviation depth := (e_depth e).
#[local] Abbreviation rdtsc := (e_rdtsc e).

(** ** Handlers that need the state of several components *)

(** bio.c and ide.c, whatever process runs. *)
Definition onbio {A} (m : M bstate A) : M (ksys bstate) A := fun s =>
  let upd b := s <| kfs := kfs s <| lg := lg (kfs s) <| bc := b |> |> |> in
  match m (bc (lg (kfs s))) with
  | Ok a b => Ok a (upd b)
  | Panic w => Panic w
  | Fault w => Fault w
  | Block ch b => Block ch (upd b)
  end.
Definition sys_sync : W Z := onK (onbio sync);; mret 0.
Definition setgroups : W Z :=
  p ← onK curproc;
  s ← get;
  onK (oncur (sys_setgroups (uview (pgdir p) (kmm (tk (mt s)))))).
Definition ioctl : W Z := s ← get; onT (sys_ioctl (u32 (tsc_to_us (mclk s) rdtsc))).

(** The calls that are another call under a second number. *)
Definition sys_symlink : W Z := onK (sys_link devsw name0 de0).
Definition sys_sigreturn : W Z := onK (onsig sys_rt_sigreturn).
Definition sys_getuid32 : W Z := onK (oncur sys_getuid).
Definition sys_getgid32 : W Z := onK (oncur sys_getgid).
Definition sys_geteuid32 : W Z := onK (oncur sys_geteuid).
Definition sys_getegid32 : W Z := onK (oncur sys_getegid).
Definition sys_setgroups32 : W Z := setgroups.
Definition sys_setresuid32 : W Z := onK (oncur sys_setresuid).
Definition sys_setresgid32 : W Z := onK (oncur sys_setresgid).
Definition sys_setuid32 : W Z := onK (oncur sys_setuid).
Definition sys_setgid32 : W Z := onK (oncur sys_setgid).
Definition sys_getdents64 : W Z := onK (sys_getdents devsw).
Definition sys_fcntl64 : W Z := onK sys_fcntl.

(** ** The table *)

Definition syscall_list : list (Z * W Z) :=
  [ (0, sys_syscall rdtsc)
  ; (1, onK (sys_exit kend PHYSTOP))
  ; (2, onK (sys_fork kend PHYSTOP kdata))
  ; (3, onK (sys_read devsw))
  ; (4, onK (sys_write devsw))
  ; (5, onK (sys_open devsw kend PHYSTOP name0 de0))
  ; (6, onK (sys_close kend PHYSTOP))
  ; (7, onK (sys_waitpid kend PHYSTOP))
  ; (8, onK (sys_creat devsw kend PHYSTOP name0 de0))
  ; (9, onK (sys_link devsw name0 de0))
  ; (10, onK (sys_unlink devsw name0))
  ; (11, onK (sys_exec devsw kend PHYSTOP kdata name0 buf0 depth))
  ; (12, onK (sys_chdir devsw name0))
  ; (13, sys_time rdtsc)
  ; (14, onK (sys_mknod devsw name0 de0))
  ; (15, onK (sys_chmod devsw name0))
  ; (16, onK (sys_chown devsw name0))
  ; (17, sys_break rdtsc)
  ; (18, sys_stat rdtsc)
  ; (19, onK sys_lseek)
  ; (20, onK sys_getpid)
  ; (21, sys_mount rdtsc)
  ; (22, sys_umount rdtsc)
  ; (23, onK (oncur sys_setuid))
  ; (24, onK (oncur sys_getuid))
  ; (25, sys_stime (fst stack))
  ; (26, sys_ptrace rdtsc)
  ; (27, onK (oncur sys_alarm))
  ; (28, onK sys_fstat)
  ; (29, onK sys_pause)
  ; (30, onK (sys_utime devsw name0))
  ; (31, sys_stty)
  ; (32, sys_gtty)
  ; (33, onK (sys_access devsw name0))
  ; (34, sys_nice rdtsc)
  ; (35, sys_ftime rdtsc)
  ; (36, sys_sync)
  ; (37, onK sys_kill)
  ; (38, sys_rename rdtsc)
  ; (39, onK (sys_mkdir devsw name0 de0))
  ; (40, onK (sys_rmdir devsw name0))
  ; (41, onK sys_dup)
  ; (42, onK (sys_pipe kend PHYSTOP page))
  ; (43, sys_times rdtsc)
  ; (44, sys_prof rdtsc)
  ; (45, onK (sys_brk kend PHYSTOP))
  ; (46, onK (oncur sys_setgid))
  ; (47, onK (oncur sys_getgid))
  ; (48, onK (onsig sys_signal))
  ; (49, onK (oncur sys_geteuid))
  ; (50, onK (oncur sys_getegid))
  ; (51, sys_acct rdtsc)
  ; (52, sys_phys rdtsc)
  ; (53, sys_lock rdtsc)
  ; (54, ioctl)
  ; (55, onK sys_fcntl)
  ; (56, sys_mpx rdtsc)
  ; (57, onK sys_setpgid)
  ; (58, sys_ulimit rdtsc)
  ; (59, onK (sys_sbrk kend PHYSTOP))
  ; (74, sys_sethostname)
  ; (60, onK (oncur sys_umask))
  ; (61, sys_chroot rdtsc)
  ; (62, sys_ustat rdtsc)
  ; (63, onK (sys_dup2 kend PHYSTOP))
  ; (64, onK sys_getppid)
  ; (65, onK sys_getpgrp)
  ; (66, onK (oncur sys_setsid))
  ; (67, sys_sigaction rdtsc)
  ; (68, sys_sgetmask)
  ; (69, sys_ssetmask)
  ; (70, onK (oncur sys_setreuid))
  ; (71, onK (oncur sys_setregid))
  ; (77, onK (sys_getrusage junk))
  ; (81, setgroups)
  ; (83, sys_symlink)
  ; (84, sys_oldlstat)
  ; (85, onK (sys_readlink devsw name0 junk))
  ; (88, sys_reboot)
  ; (95, onK sys_fchmod)
  ; (96, onK sys_fchown)
  ; (110, onK (oncur sys_iopl))
  ; (111, onK (onsig sys_vhangup))
  ; (112, sys_idle)
  ; (114, onK (sys_wait4 kend PHYSTOP))
  ; (119, sys_sigreturn)
  ; (121, sys_setdomainname)
  ; (122, sys_uname)
  ; (132, onK sys_getpgid)
  ; (140, onK sys__llseek)
  ; (141, onK (sys_getdents devsw))
  ; (145, onK (sys_readv devsw))
  ; (146, onK (sys_writev devsw))
  ; (162, sys_nanosleep)
  ; (164, onK (oncur sys_setresuid))
  ; (170, onK (oncur sys_setresgid))
  ; (173, onK (onsig sys_rt_sigreturn))
  ; (175, onK (onsig sys_rt_sigprocmask))
  ; (174, onK (onsig (sys_rt_sigaction stack)))
  ; (179, onK (sys_rt_sigsuspend pad))
  ; (183, onK (sys_getcwd devsw name0 depth junk de0 junk))
  ; (190, onK (sys_vfork kend PHYSTOP kdata))
  ; (199, sys_getuid32)
  ; (200, sys_getgid32)
  ; (201, sys_geteuid32)
  ; (202, sys_getegid32)
  ; (206, sys_setgroups32)
  ; (208, sys_setresuid32)
  ; (210, sys_setresgid32)
  ; (213, sys_setuid32)
  ; (214, sys_setgid32)
  ; (220, sys_getdents64)
  ; (221, sys_fcntl64)
  ; (252, onK (sys_exit_group kend PHYSTOP))
  ; (258, onK sys_set_tid_address)
  ; (264, sys_clock_settime32 rdtsc)
  ; (265, sys_clock_gettime rdtsc)
  ; (303, onK (sys_linkat devsw name0 de0))
  ; (383, onK (sys_statx devsw name0))
  ; (403, sys_clock_gettime64 rdtsc)
  ; (404, sys_clock_settime64 rdtsc) ].

Definition syscalls : list (option (W Z)) :=
  map (fun n => y ← list_find (fun x => x.1 = Z.of_nat n) syscall_list; Some y.2.2) (seq 0 405).

(** The time of day the file system stamps inodes with. *)
Definition stamp : W unit :=
  modify (fun s => s <| mt := mt s <| tk := tk (mt s) <| kfs := kfs (tk (mt s)) <| Fs.clock := Time.epoch_mktime (mclk s) rdtsc |> |> |> |>).

Definition ksyscall : W unit :=
  p ← onK curproc;
  let num := i32 (eax (tf p)) in
  stamp;;
  r ← (if 0 <=? num then
         match syscalls !! Z.to_nat num with
         | Some (Some f) => f
         | _ => mret (- ENOSYS)
         end
       else mret (- ENOSYS));
  onK (pset (fun p => p <| tf := tf p <| eax := u32 r |> |>)).

(** ** trap *)

Definition user_mode (f : trapframe) : bool := Z.land (cs f) 3 =? 3.
Definition running : W bool := s ← get; mret (bool_decide (is_Some (cur (kps (tk (mt s)))))).

(** [if (myproc()->killed) exit(0);] *)
Definition exit_if_killed : W unit :=
  p ← onK curproc; when (nz (killed p)) (onK (kexit kend PHYSTOP 0)).

Definition trap_syscall (f : trapframe) : W unit :=
  exit_if_killed;;
  onK (pset (fun p => p <| tf := f |>));;
  ksyscall;;
  exit_if_killed;;
  onK (onsig (dosignal pad)).

Definition timer (f : trapframe) : W unit :=
  modify (fun s => s <| ticks := u32 (ticks s + 1) |>);;
  onK (onps (wakeup (e_ticks_chan e)));;
  b ← running;
  when (b && user_mode f) (onK (onsig alarm_tick)).

Definition fault_trap (f : trapframe) : W unit :=
  b ← running;
  if negb b || (Z.land (cs f) 3 =? 0) then
    match (if trapno f <? 0 then None else exceptions !! Z.to_nat (trapno f)) with
    | Some what => panic what
    | None => fault "exceptions"
    end
  else
    p ← onK curproc;
    when (u32 (eip f) =? 4294967295) (onK (kexit kend PHYSTOP (exitstatus p)));;
    onK (pset (fun p => p <| sigpending := Z.lor (sigpending p) (sigbit SIGSEGV) |>));;
    onK (onsig (dosignal pad)).

(** What a trap other than a system call does before it looks at the process; the
    [fuel] bounds the characters taken from the serial line. *)
Definition trap_device (fuel : nat) (f : trapframe) : W unit :=
  let irq := trapno f - T_IRQ0 in
  s ← get;
  if irq =? IRQ_TIMER then timer f
  else if irq =? IRQ_IDE then onK (onbio ide_interrupt)
  else if irq =? IRQ_IDE + 1 then mret tt
  else if irq =? IRQ_KBD then onT (kbd_interrupt (e_inb e) (e_input_chan e) (e_cons_chan e) (C_A_D s))
  else if irq =? IRQ_COM1 then onT (uart_interrupt (e_inb e) (e_cons_chan e) fuel)
  else if (irq =? 7) || (irq =? IRQ_SPURIOUS) then
    onT (_printk (u32 (tsc_to_us (mclk s) rdtsc)) (text "trap") (text "warning: spurious interrupt at 0x%x:0x%x" ++ [10]) [PInt (cs f); PInt (eip f)])
  else fault_trap f.

(** [if (myproc() && myproc()->killed && (tf->cs&3) == DPL_USER) exit(0);] *)
Definition exit_user (f : trapframe) : W unit :=
  b ← running; if b && user_mode f then exit_if_killed else mret tt.
Definition trap_tail (f : trapframe) : W unit :=
  exit_user f;;
  b ← running;
  (if (b : bool) then p ← onK curproc; when (is_state RUNNING p) (onK (onps yield)) else mret tt);;
  exit_user f.
(** After the yield: the end of trap. *)
Definition resume_trap (f : trapframe) : W unit := onK (onps resume_release);; exit_user f.

Definition trap (fuel : nat) (f : trapframe) : W unit :=
  if trapno f =? T_SYSCALL then trap_syscall f
  else
    b ← running;
    when (b && user_mode f) (onK (pset (fun p => p <| tf := f |>)));;
    trap_device fuel f;;
    trap_tail f.
End trap.
