(* ===== verification/Mkfs.v ===== *)
(** * The file system image (src/kernel/mkfs/mkfs.c)

    mkfs writes an empty file system to a file and copies a directory tree of the
    host into it.  The state is the image, by blocks, and the two counters
    freeinode and freeblock.  A dinode is its 80 bytes.  The host is a tree of what
    stat, opendir/readdir and open/read of each path give; paths are taken to be
    shorter than the buffer of 1024 bytes.  lseek and write succeed; a read of a
    block that is not in the file is the exit(1) of rsect.  [now] is time(). *)
From Stdlib Require Import ZArith Lia.
From stdpp Require Import base numbers list list_numbers gmap strings.
From S2P Require Import Prelude Block Log Fs SysDir.
Local Open Scope Z_scope.

Definition NINODES : Z := 200.
Definition nbitmap : Z := FSSIZE / (BSIZE * 8) + 1.
Definition ninodeblocks : Z := NINODES / IPB + 1.
Definition nlog : Z := LOGSIZE.
Definition nmeta : Z := 2 + nlog + ninodeblocks + nbitmap.
Definition nblocks : Z := FSSIZE - nmeta.

(** The superblock main sets. *)
Definition sb : superblock := Superblock FSSIZE nblocks NINODES nlog 2 (2 + nlog) (2 + nlog + ninodeblocks).
Definition zeroes : blk := replicate (Z.to_nat BSIZE) 0.
Definition sb_bytes : blk :=
  put_blocks zeroes 0 [sb_size sb; sb_nblocks sb; sb_ninodes sb; sb_nlog sb; sb_logstart sb; sb_inodestart sb; sb_bmapstart sb].

(** What the host gives for a path: its st_mode ([None] when stat fails), the bytes
    of the file ([None] when open fails) and the entries of the directory ([None]
    when opendir fails). *)
#[warnings="-register-all"]
Inductive host := Host (st_mode : option Z) (contents : option (list Z)) (entries : option (list (list Z * host))).

Record mk := Mk { img : gmap Z blk; freeinode : Z; freeblock : Z }.
#[export] Instance mk_fields : Fields mk := fun s => Mk (img s) (freeinode s) (freeblock s).

Section mkfs.
Context (now : Z).

(** ** Blocks: the offset sec * BSIZE is an unsigned int *)

Definition sect (sec : Z) : Z := u32 (sec * BSIZE) / BSIZE.
Definition wsect (sec : Z) (buf : blk) : M mk unit := modify (fun s => s <| img := <[sect sec := buf]> (img s) |>).
Definition rsect (sec : Z) : M mk blk :=
  s ← get; match img s !! sect sec with Some d => mret d | None => panic "read" end.

(** ** Inodes *)

Definition winode (inum : Z) (ip : list Z) : M mk unit :=
  let bn := IBLOCK inum sb in
  buf ← rsect bn;
  wsect bn (splice buf (dip inum) ip).
Definition rinode (inum : Z) : M mk (list Z) :=
  buf ← rsect (IBLOCK inum sb);
  mret (take (Z.to_nat DINODE) (drop (Z.to_nat (dip inum)) buf)).

Definition new_dinode (type : Z) : list Z :=
  let din := replicate (Z.to_nat DINODE) 0 in
  let din := put16 din 0 type in
  let din := put16 din 16 1 in
  let din := put32 din 20 0 in
  let din := put32 din 8 now in
  put32 din 4 now.
Definition ialloc (type : Z) : M mk Z :=
  s ← get;
  let inum := freeinode s in
  put (s <| freeinode := u32 (freeinode s + 1) |>);;
  winode inum (new_dinode type);;
  mret inum.

(** ** Appending to a file *)

Definition addr (din : list Z) (k : Z) : Z := get32 din (24 + 4 * k).
Definition set_addr (din : list Z) (k a : Z) : list Z := put32 din (24 + 4 * k) a.
(** [freeblock++] *)
Definition take_block : M mk Z :=
  s ← get; put (s <| freeblock := u32 (freeblock s + 1) |>);; mret (freeblock s).

(** The block [fbn] of the file, with what becomes of din. *)
Definition file_block (din : list Z) (fbn : Z) : M mk (list Z * Z) :=
  if fbn <? Z.of_nat NDIRECT then
    din ← (if addr din fbn =? 0 then b ← take_block; mret (set_addr din fbn b) else mret din);
    mret (din, addr din fbn)
  else
    din ← (if addr din (Z.of_nat NDIRECT) =? 0 then b ← take_block; mret (set_addr din (Z.of_nat NDIRECT) b) else mret din);
    indirect ← rsect (addr din (Z.of_nat NDIRECT));
    let o := 4 * (fbn - Z.of_nat NDIRECT) in
    if get32 indirect o =? 0 then
      b ← take_block;
      let indirect := put32 indirect o b in
      wsect (addr din (Z.of_nat NDIRECT)) indirect;;
      mret (din, get32 indirect o)
    else mret (din, get32 indirect o).

Fixpoint append_loop (fuel : nat) (din : list Z) (off : Z) (p : list Z) : M mk (list Z * Z) :=
  match fuel with
  | O => mret (din, off)
  | S fuel =>
      if Z.of_nat (length p) <=? 0 then mret (din, off)
      else
        let fbn := off / BSIZE in
        if MAXFILE <=? fbn then panic "fbn < MAXFILE"
        else
          '(din, x) ← file_block din fbn;
          let n1 := Z.min (Z.of_nat (length p)) ((fbn + 1) * BSIZE - off) in
          buf ← rsect x;
          wsect x (splice buf (off - fbn * BSIZE) (take (Z.to_nat n1) p));;
          append_loop fuel din (u32 (off + n1)) (drop (Z.to_nat n1) p)
  end.
(** Every round takes at least one byte. *)
Definition iappend (inum : Z) (p : list Z) : M mk unit :=
  din ← rinode inum;
  '(din, off) ← append_loop (length p) din (get32 din 20) p;
  winode inum (put32 din 20 off).

(** ** Directories *)

(** strncpy of the name, and the nul in the last byte of d_name. *)
Definition name_field (name : list Z) : list Z :=
  <[Z.to_nat (DIRSIZ - 1) := 0]> (take (Z.to_nat DIRSIZ) (name ++ replicate (Z.to_nat DIRSIZ) 0)).
Definition new_dirent (ino : Z) (name : list Z) : list Z :=
  splice (put16 (replicate (Z.to_nat DIRENT) 0) 0 ino) D_NAME (name_field name).

Definition dot : list Z := [46].
Definition dotdot : list Z := [46; 46].
Definition add_dot_entries (dir_ino parent_ino : Z) : M mk unit :=
  iappend dir_ino (new_dirent dir_ino dot);;
  iappend dir_ino (new_dirent parent_ino dotdot).

Definition create_directory (parent_ino mode : Z) : M mk Z :=
  new_ino ← ialloc mode;
  if new_ino =? 0 then mret 0 else add_dot_entries new_ino parent_ino;; mret new_ino.

(** ** The host tree *)

Definition S_ISDIR (m : Z) : bool := Z.land m S_IFMT =? S_IFDIR.
Definition S_ISREG (m : Z) : bool := Z.land m S_IFMT =? S_IFREG.

(** The permission bits that are kept, in octal 400, 200, 100, 40, 10, 4 and 1. *)
Definition mode_bits : list Z := [256; 128; 64; 32; 8; 4; 1].
Definition convert_mode (host_mode : Z) : Z :=
  foldl (fun m b => if nz (Z.land host_mode b) then Z.lor m b else m)
    (if S_ISDIR host_mode then S_IFDIR else if S_ISREG host_mode then S_IFREG else 0) mode_bits.

(** read(fd, buf, BSIZE) until it gives nothing: [fuel] is at least the length. *)
Fixpoint append_file (fuel : nat) (ino : Z) (bytes : list Z) : M mk unit :=
  match fuel, bytes with
  | S fuel, _ :: _ =>
      iappend ino (take (Z.to_nat BSIZE) bytes);;
      append_file fuel ino (drop (Z.to_nat BSIZE) bytes)
  | _, _ => mret tt
  end.

Definition is_dots (name : list Z) : bool := bool_decide (name = dot) || bool_decide (name = dotdot).

(** The entries of one directory; [scan_sub] is the recursive call. *)
Definition scan_entries (scan_sub : host -> Z -> M mk Z) (xv6_ino : Z) : list (list Z * host) -> M mk Z :=
  fix scan l :=
    match l with
    | [] => mret 0
    | (name, e) :: l =>
        if is_dots name then scan l
        else
          match e with
          | Host None _ _ => scan l
          | Host (Some m) bytes _ =>
              if S_ISDIR m then
                new_ino ← create_directory xv6_ino (convert_mode m);
                if new_ino =? 0 then scan l
                else
                  iappend xv6_ino (new_dirent new_ino name);;
                  r ← scan_sub e new_ino;
                  if r <? 0 then mret (-1) else scan l
              else if S_ISREG m then
                new_ino ← ialloc (convert_mode m);
                iappend xv6_ino (new_dirent new_ino name);;
                match bytes with
                | None => scan l
                | Some bs => append_file (length bs) new_ino bs;; scan l
                end
              else scan l
          end
    end.
Fixpoint scan_directory (h : host) (xv6_ino : Z) : M mk Z :=
  match h with
  | Host _ _ None => mret (-1)
  | Host _ _ (Some l) => scan_entries scan_directory xv6_ino l
  end.

(** ** The bitmap *)

Fixpoint mark_used (used : nat) (buf : blk) : blk :=
  match used with O => buf | S i => set_bit (mark_used i buf) (Z.of_nat i) end.
Definition balloc (used : Z) : M mk unit :=
  if BSIZE * 8 <=? used then panic "used < BSIZE*8"
  else wsect (sb_bmapstart sb) (mark_used (Z.to_nat used) zeroes).

(** ** main, once the output file is open *)

Fixpoint wipe (n : nat) : M mk unit :=
  match n with O => mret tt | S i => wipe i;; wsect (Z.of_nat i) zeroes end.
Definition ROOTMODE : Z := 16877.
Definition fix_root_size (rootino : Z) : M mk unit :=
  din ← rinode rootino;
  let off := get32 din 20 in
  winode rootino (put32 din 20 (u32 ((off / BSIZE + 1) * BSIZE))).
Definition main (root : host) : M mk unit :=
  modify (fun s => s <| freeblock := nmeta |>);;
  wipe (Z.to_nat FSSIZE);;
  wsect 1 sb_bytes;;
  rootino ← ialloc ROOTMODE;
  if negb (rootino =? ROOTINO) then panic "rootino == ROOTINO"
  else
    add_dot_entries rootino rootino;;
    r ← scan_directory root rootino;
    if r <? 0 then panic "error scanning directory tree"
    else
      fix_root_size rootino;;
      s ← get;
      balloc (i32 (freeblock s)).
End mkfs.

(** The file has just been created. *)
Definition mk0 : mk := Mk ∅ 1 0.
