(* ===== verification/MkfsBlocks.v ===== *)
(** * Blocks of the files mkfs writes

    The files of an image under construction own their blocks: each block is a data
    block or the indirect block of at most one file, and the blocks from freeblock
    on are zero.  The two changes mkfs makes, claiming the next block and filling a
    block of a file, keep this. *)
From Stdlib Require Import ZArith Lia.
From stdpp Require Import base numbers list list_numbers gmap strings.
From S2P Require Import Prelude Block Log Fs SysDir FsRw Mkfs.
Local Open Scope Z_scope.

(** A file: its dinode, the number of data blocks, whether it has an indirect
    block, and its bytes. *)
Record fent := Fent { din : list Z; fn : Z; fx : bool; fd : list Z }.

(** The block in slot [k] of a file; slot MAXFILE is the indirect block. *)
Definition slot (c : Z -> blk) (d : list Z) (k : Z) : Z :=
  if k =? MAXFILE then addr d 11
  else if k <? 11 then addr d k
  else if addr d 11 =? 0 then 0 else get32 (c (addr d 11)) (4 * (k - 11)).
Definition uses (e : fent) (k : Z) : bool := if k =? MAXFILE then fx e else k <? fn e.
Definition weight (e : fent) : Z := fn e + b2z (fx e).
Definition zsum {A} (f : A -> Z) (l : list A) : Z := foldr (fun x n => f x + n) 0 l.

Record ent_ok (c : Z -> blk) (fb : Z) (e : fent) : Prop := EntOk {
  e_len : length (din e) = 80%nat;
  e_n : 0 <= fn e <= MAXFILE;
  e_x : 11 < fn e -> fx e = true;
  e_used : forall k, 0 <= k <= MAXFILE -> uses e k = true -> nmeta <= slot c (din e) k < fb;
  e_free : forall k, 0 <= k <= MAXFILE -> uses e k = false -> slot c (din e) k = 0;
  e_size : Z.of_nat (length (fd e)) <= fn e * BSIZE;
  e_bytes : forall j x, fd e !! j = Some x ->
    get8 (c (slot c (din e) (Z.of_nat j / BSIZE))) (Z.of_nat j mod BSIZE) = x
}.

Record tab_ok (c : Z -> blk) (fb : Z) (T : list fent) : Prop := TabOk {
  t_ent : forall i e, T !! i = Some e -> ent_ok c fb e;
  t_inj : forall i i' e e' k k', T !! i = Some e -> T !! i' = Some e' -> 0 <= k <= MAXFILE -> 0 <= k' <= MAXFILE ->
    uses e k = true -> uses e' k' = true -> slot c (din e) k = slot c (din e') k' -> i = i' /\ k = k';
  t_len : forall b, Z.of_nat (length (c b)) = BSIZE;
  t_zero : forall b, fb <= b < FSSIZE -> c b = zeroes;
  t_fb : fb = nmeta + zsum weight T
}.

Lemma zsum_insert {A} (f : A -> Z) l i x y : l !! i = Some x -> zsum f (<[i := y]> l) = zsum f l - f x + f y.
Proof.
  revert i. induction l as [|z l IH]; intros [|i] E; try discriminate.
  - injection E as ->. cbn. lia.
  - change (f z + zsum f (<[i := y]> l) = f z + zsum f l - f x + f y). rewrite (IH i E). lia.
Qed.
Lemma zsum_app {A} (f : A -> Z) l k : zsum f (l ++ k) = zsum f l + zsum f k.
Proof.
  induction l as [|x l IH]; [reflexivity|]. change (f x + zsum f (l ++ k) = f x + zsum f l + zsum f k). lia.
Qed.
Lemma zsum_nonneg {A} (f : A -> Z) l : (forall i x, l !! i = Some x -> 0 <= f x) -> 0 <= zsum f l.
Proof.
  induction l as [|x l IH]; intros H; [reflexivity|]. change (0 <= f x + zsum f l).
  pose proof (H 0%nat x eq_refl). pose proof (IH (fun i => H (S i))). lia.
Qed.

(** Changing a block that is not the indirect block of a file moves none of its
    blocks. *)
Lemma slot_upd c d b v k : addr d 11 = 0 \/ addr d 11 <> b -> slot (bupd c b v) d k = slot c d k.
Proof.
  intros H. unfold slot. destruct (k =? MAXFILE), (k <? 11); try reflexivity.
  destruct (Z.eqb_spec (addr d 11) 0); [reflexivity|]. rewrite bupd_ne by (destruct H; congruence). reflexivity.
Qed.
Lemma slot_ind c d : slot c d MAXFILE = addr d 11.
Proof. unfold slot. rewrite Z.eqb_refl. reflexivity. Qed.
Lemma uses_ind e : uses e MAXFILE = fx e.
Proof. unfold uses. rewrite Z.eqb_refl. reflexivity. Qed.
Lemma uses_lt e k : 0 <= k < MAXFILE -> uses e k = (k <? fn e).
Proof. intros H. unfold uses. rewrite (proj2 (Z.eqb_neq _ _)) by lia. reflexivity. Qed.

Lemma maxfile_pos : MAXFILE = 523.
Proof. reflexivity. Qed.
Lemma byte_slot c fb e j x : ent_ok c fb e -> fd e !! j = Some x -> 0 <= Z.of_nat j / BSIZE < MAXFILE /\ uses e (Z.of_nat j / BSIZE) = true.
Proof.
  intros E Hj. apply lookup_lt_Some in Hj. pose proof (e_size _ _ _ E). pose proof (e_n _ _ _ E). rewrite maxfile_pos in *.
  assert (0 <= Z.of_nat j / BSIZE < fn e) by (unfold BSIZE in *; Z.to_euclidean_division_equations; lia).
  split; [lia|]. rewrite uses_lt by (rewrite maxfile_pos; lia). apply Z.ltb_lt. lia.
Qed.

Lemma fb_low c fb T : tab_ok c fb T -> nmeta <= fb.
Proof.
  intros HT. rewrite (t_fb _ _ _ HT). pose proof (zsum_nonneg weight T) as Hz. enough (0 <= zsum weight T) by lia. apply Hz.
  intros i2 e2 H2. pose proof (e_n _ _ _ (t_ent _ _ _ HT i2 e2 H2)). unfold weight, b2z. destruct (fx e2); lia.
Qed.
Lemma insert_cases {A} (l : list A) i x : (i < length l)%nat ->
  forall j y, <[i := x]> l !! j = Some y -> j = i /\ y = x \/ j <> i /\ l !! j = Some y.
Proof.
  intros Hi j y Hj. destruct (decide (j = i)) as [-> | Hne].
  - rewrite list_lookup_insert_eq in Hj by exact Hi. left. split; congruence.
  - rewrite list_lookup_insert_ne in Hj by congruence. right. split; assumption.
Qed.

Section step.
Context (c : Z -> blk) (fb : Z) (T : list fent) (HT : tab_ok c fb T).
Context (i : nat) (e : fent) (Hi : T !! i = Some e).

(** The indirect block of another file is none of the blocks of this one. *)
Lemma other_ind i2 e2 k : T !! i2 = Some e2 -> 0 <= k <= MAXFILE -> uses e k = true -> i2 <> i \/ k <> MAXFILE ->
  addr (din e2) 11 = 0 \/ addr (din e2) 11 <> slot c (din e) k.
Proof using HT Hi.
  intros H2 Hk Hu Hne. pose proof maxfile_pos. destruct (fx e2) eqn:Hx.
  - right. intros E. destruct (t_inj _ _ _ HT i2 i e2 e MAXFILE k) as [-> <-]; try assumption; [lia | tauto].
  - left. rewrite <-(slot_ind c). apply (e_free _ _ _ (t_ent _ _ _ HT i2 e2 H2)); [lia | rewrite uses_ind; exact Hx].
Qed.

(** Claiming the block at freeblock for slot [k0]. *)
Lemma tab_claim c' e' k0 :
  0 <= k0 <= MAXFILE -> uses e k0 = false -> fb < FSSIZE ->
  (forall k, 0 <= k <= MAXFILE -> uses e' k = uses e k || (k =? k0)) ->
  fd e' = fd e -> length (din e') = 80%nat -> fn e <= fn e' <= MAXFILE -> (11 < fn e' -> fx e' = true) -> weight e' = weight e + 1 ->
  slot c' (din e') k0 = fb -> (forall k, 0 <= k <= MAXFILE -> k <> k0 -> slot c' (din e') k = slot c (din e) k) ->
  c' = c \/ (exists v, fx e = true /\ c' = bupd c (addr (din e) 11) v /\ Z.of_nat (length v) = BSIZE) ->
  tab_ok c' (fb + 1) (<[i := e']> T).
Proof using HT Hi.
  intros Hk0 Hu0 Hfb Hu Hd Hl Hn Hx Hw Hs0 Hs Hc. pose proof (t_ent _ _ _ HT i e Hi) as He. pose proof maxfile_pos as HM.
  assert (forall i2 e2 k, T !! i2 = Some e2 -> i2 <> i -> slot c' (din e2) k = slot c (din e2) k) as Hother.
  { intros i2 e2 k H2 Hne. destruct Hc as [-> | (v & Hfx & -> & _)]; [reflexivity|]. apply slot_upd.
    rewrite <-(slot_ind c (din e)). apply (other_ind i2 e2 MAXFILE H2); [lia | rewrite uses_ind; exact Hfx | left; exact Hne]. }
  assert (forall i2 e2 k, T !! i2 = Some e2 -> 0 <= k < MAXFILE -> uses e2 k = true -> c' (slot c (din e2) k) = c (slot c (din e2) k)) as Hdata.
  { intros i2 e2 k H2 Hk Hu2. destruct Hc as [-> | (v & Hfx & -> & _)]; [reflexivity|]. apply bupd_ne. intros E.
    destruct (t_inj _ _ _ HT i2 i e2 e k MAXFILE) as [_ ->]; try assumption; lia. }
  assert (forall k, 0 <= k <= MAXFILE -> uses e' k = true -> slot c' (din e') k = fb /\ k = k0 \/ slot c' (din e') k = slot c (din e) k /\ uses e k = true) as Hmine.
  { intros k Hk Huk. rewrite Hu in Huk by exact Hk. destruct (Z.eqb_spec k k0) as [-> | Hne]; [left; split; [exact Hs0 | reflexivity]|].
    right. split; [apply Hs; assumption | rewrite orb_false_r in Huk; exact Huk]. }
  assert (forall i2 e2, T !! i2 = Some e2 -> forall k, 0 <= k <= MAXFILE -> uses e2 k = true -> nmeta <= slot c (din e2) k < fb) as Hlow
    by (intros i2 e2 H2 k; apply (e_used _ _ _ (t_ent _ _ _ HT i2 e2 H2))).
  pose proof (insert_cases T i e' (lookup_lt_Some _ _ _ Hi)) as Hlk.
  pose proof (e_size _ _ _ He). pose proof (e_n _ _ _ He).
  pose proof (fb_low c fb T HT) as Hnm.
  split.
  - intros i2 e2 [[-> ->] | [Hne H2]]%Hlk; [split; try assumption; [lia | | | rewrite Hd; unfold BSIZE in *; lia |]|].
    + intros k Hk Huk. destruct (Hmine k Hk Huk) as [[-> _] | [-> Hue]]; [lia|]. pose proof (Hlow i e Hi k Hk Hue). lia.
    + intros k Hk Huk. rewrite Hu in Huk by exact Hk. apply orb_false_iff in Huk as [Hue Hne%Z.eqb_neq].
      rewrite Hs by assumption. apply (e_free _ _ _ He k Hk Hue).
    + rewrite Hd. intros j x Hj. destruct (byte_slot c fb e j x He Hj) as [Hr Huj].
      rewrite Hs; [| lia | intros Heq; rewrite Heq in Huj; congruence]. rewrite (Hdata i e) by assumption. apply (e_bytes _ _ _ He j x Hj).
    + destruct (t_ent _ _ _ HT i2 e2 H2) as [E1 E2 E3 E4 E5 E6 E7]. split; try assumption.
      * intros k Hk Huk. rewrite (Hother i2 e2) by assumption. specialize (E4 k Hk Huk). lia.
      * intros k Hk Huk. rewrite (Hother i2 e2) by assumption. apply E5; assumption.
      * intros j x Hj. destruct (byte_slot c fb e2 j x (t_ent _ _ _ HT i2 e2 H2) Hj) as [Hr Huj].
        rewrite (Hother i2 e2), (Hdata i2 e2) by assumption. apply E7, Hj.
  - intros i1 i2 e1 e2 k k' [[-> ->] | [Hne1 H1]]%Hlk [[-> ->] | [Hne2 H2]]%Hlk Hk Hk' Hu1 Hu2 HE.
    + split; [reflexivity|]. destruct (Hmine k Hk Hu1) as [[E ->] | [E Hue]], (Hmine k' Hk' Hu2) as [[E' ->] | [E' Hue']]; [reflexivity | | |].
      * pose proof (Hlow i e Hi k' Hk' Hue'). lia.
      * pose proof (Hlow i e Hi k Hk Hue). lia.
      * rewrite E, E' in HE. apply (t_inj _ _ _ HT i i e e k k'); assumption.
    + exfalso. rewrite (Hother i2 e2) in HE by assumption. destruct (Hmine k Hk Hu1) as [[E ->] | [E Hue]].
      * pose proof (Hlow i2 e2 H2 k' Hk' Hu2). lia.
      * rewrite E in HE. destruct (t_inj _ _ _ HT i i2 e e2 k k') as [-> _]; try assumption. congruence.
    + exfalso. rewrite (Hother i1 e1) in HE by assumption. destruct (Hmine k' Hk' Hu2) as [[E ->] | [E Hue]].
      * pose proof (Hlow i1 e1 H1 k Hk Hu1). lia.
      * rewrite E in HE. destruct (t_inj _ _ _ HT i1 i e1 e k k') as [-> _]; try assumption. congruence.
    + rewrite (Hother i1 e1), (Hother i2 e2) in HE by assumption. apply (t_inj _ _ _ HT i1 i2 e1 e2 k k'); assumption.
  - intros b. destruct Hc as [-> | (v & _ & -> & Hv)]; [apply (t_len _ _ _ HT b)|].
    unfold bupd. destruct (b =? addr (din e) 11); [exact Hv | apply (t_len _ _ _ HT b)].
  - intros b Hb. destruct Hc as [-> | (v & Hfx & -> & Hv)]; [apply (t_zero _ _ _ HT); lia|]. rewrite bupd_ne; [apply (t_zero _ _ _ HT); lia|].
    assert (uses e MAXFILE = true) as Hui by (rewrite uses_ind; exact Hfx).
    pose proof (Hlow i e Hi MAXFILE ltac:(lia) Hui) as Hlo. rewrite slot_ind in Hlo. lia.
  - rewrite (zsum_insert _ _ _ e) by exact Hi. rewrite (t_fb _ _ _ HT). lia.
Qed.

(** Filling the data block in slot [k]. *)
Lemma tab_fill k v data :
  0 <= k < fn e -> Z.of_nat (length v) = BSIZE -> Z.of_nat (length data) <= fn e * BSIZE ->
  (forall j x, data !! j = Some x -> if Z.of_nat j / BSIZE =? k then get8 v (Z.of_nat j mod BSIZE) = x else fd e !! j = Some x) ->
  tab_ok (bupd c (slot c (din e) k) v) fb (<[i := Fent (din e) (fn e) (fx e) data]> T).
Proof using HT Hi.
  intros Hk Hv Hl Hd. pose proof (t_ent _ _ _ HT i e Hi) as He. pose proof maxfile_pos as HM. pose proof (e_n _ _ _ He) as Hn.
  set (e' := Fent (din e) (fn e) (fx e) data). set (b := slot c (din e) k).
  assert (uses e k = true) as Huk by (rewrite uses_lt by lia; apply Z.ltb_lt; lia).
  assert (forall i2 e2 k2, T !! i2 = Some e2 -> slot (bupd c b v) (din e2) k2 = slot c (din e2) k2) as Hs.
  { intros i2 e2 k2 H2. apply slot_upd, (other_ind i2 e2 k H2); [lia | exact Huk | right; lia]. }
  assert (forall i2 e2, <[i := e']> T !! i2 = Some e2 -> exists e0, T !! i2 = Some e0 /\ din e2 = din e0 /\ fn e2 = fn e0 /\ fx e2 = fx e0
    /\ (i2 <> i -> e2 = e0) /\ (i2 = i -> e2 = e')) as Hlk.
  { intros i2 e2 H2. destruct (decide (i2 = i)) as [-> | Hne].
    - rewrite list_lookup_insert_eq in H2 by (apply (lookup_lt_Some _ _ _ Hi)). injection H2 as <-. exists e. split_and!; try reflexivity; [exact Hi | congruence].
    - rewrite list_lookup_insert_ne in H2 by congruence. exists e2. split_and!; try reflexivity; [exact H2 | congruence]. }
  split.
  - intros i2 e2 (e0 & H0 & E1 & E2 & E3 & Hsame & Hnew)%Hlk. destruct (t_ent _ _ _ HT i2 e0 H0) as [F1 F2 F3 F4 F5 F6 F7].
    assert (forall k2, uses e2 k2 = uses e0 k2) as Hu by (intros; unfold uses; rewrite E2, E3; reflexivity).
    split; rewrite ?E1, ?E2, ?E3; try assumption.
    + intros k2 Hk2. rewrite Hu, (Hs i2 e0) by exact H0. apply F4, Hk2.
    + intros k2 Hk2. rewrite Hu, (Hs i2 e0) by exact H0. apply F5, Hk2.
    + destruct (decide (i2 = i)) as [Heq | Hne]; [|rewrite (Hsame Hne); exact F6]. rewrite (Hnew Heq), <-E2, (Hnew Heq). exact Hl.
    + intros j x Hj. rewrite (Hs i2 e0) by exact H0. destruct (decide (i2 = i)) as [-> | Hne].
      * rewrite (Hnew eq_refl) in Hj. assert (e0 = e) as -> by congruence. specialize (Hd j x Hj). unfold b, bupd.
        destruct (Z.eqb_spec (Z.of_nat j / BSIZE) k) as [-> | Hjk]; [rewrite Z.eqb_refl; exact Hd|].
        destruct (byte_slot c fb e j x He Hd) as [Hr Huj]. rewrite (proj2 (Z.eqb_neq _ _)); [apply F7, Hd|]. intros Eb.
        destruct (t_inj _ _ _ HT i i e e (Z.of_nat j / BSIZE) k); try assumption; lia.
      * rewrite (Hsame Hne) in Hj. destruct (byte_slot c fb e0 j x (t_ent _ _ _ HT i2 e0 H0) Hj) as [Hr Huj].
        rewrite bupd_ne; [apply F7, Hj|]. intros Eb. destruct (t_inj _ _ _ HT i2 i e0 e (Z.of_nat j / BSIZE) k) as [-> _]; try assumption; [lia | lia | congruence].
  - intros i1 i2 e1 e2 k1 k2 (f1 & H1 & A1 & A2 & A3 & _)%Hlk (f2 & H2 & B1 & B2 & B3 & _)%Hlk Hk1 Hk2.
    unfold uses. rewrite A1, A2, A3, B1, B2, B3, (Hs i1 f1), (Hs i2 f2) by assumption. apply (t_inj _ _ _ HT); assumption.
  - intros b2. unfold bupd. destruct (b2 =? b); [exact Hv | apply (t_len _ _ _ HT b2)].
  - intros b2 Hb2. rewrite bupd_ne; [apply (t_zero _ _ _ HT b2 Hb2)|]. pose proof (e_used _ _ _ He k ltac:(lia) Huk). unfold b. lia.
  - rewrite (zsum_insert _ _ _ e) by exact Hi. unfold weight, e'. cbn [fn fx]. rewrite (t_fb _ _ _ HT). unfold weight. lia.
Qed.
End step.

(** ** The three ways a block is claimed *)

Lemma addr_set d k a k' : length d = 80%nat -> 0 <= k <= 11 -> 0 <= k' <= 11 -> in_u 32 a ->
  addr (set_addr d k a) k' = if k' =? k then a else addr d k'.
Proof.
  intros Hl Hk Hk' Ha. unfold addr, set_addr. destruct (Z.eqb_spec k' k) as [-> | Hne].
  - rewrite get32_put32 by lia. apply uwrap_id, Ha.
  - apply get32_put32_ne; lia.
Qed.
Lemma length_set_addr d k a : length (set_addr d k a) = length d.
Proof. apply length_put32. Qed.
Lemma get32_zero_block o : get32 zeroes o = 0.
Proof.
  assert (forall o, get8 zeroes o = 0) as H8; [|unfold get32, get16; rewrite !H8; reflexivity].
  intros o'. unfold get8, zeroes. destruct (replicate _ _ !! _) eqn:E; [|reflexivity]. apply lookup_replicate in E as [-> _]. reflexivity.
Qed.

Section claims.
Context (c : Z -> blk) (fb : Z) (T : list fent) (HT : tab_ok c fb T).
Context (i : nat) (e : fent) (Hi : T !! i = Some e) (Hfb : fb < FSSIZE).

Lemma fb_u32 : in_u 32 fb.
Proof using HT Hfb. pose proof (fb_low c fb T HT). unfold in_u, nmeta, FSSIZE in *. assert (0 <= nlog + ninodeblocks + nbitmap) by (vm_compute; discriminate). lia. Qed.

Lemma claim_direct : fn e < 11 ->
  tab_ok c (fb + 1) (<[i := Fent (set_addr (din e) (fn e) fb) (fn e + 1) (fx e) (fd e)]> T).
Proof using HT Hi Hfb.
  intros Hn. destruct (t_ent _ _ _ HT i e Hi) as [E1 E2 E3 E4 E5 E6 E7]. pose proof fb_u32 as Hu. rewrite maxfile_pos in *.
  apply (tab_claim c fb T HT i e Hi c _ (fn e)); cbn [din fn fx fd]; rewrite ?maxfile_pos, ?length_set_addr; try assumption; try lia.
  - rewrite uses_lt by (rewrite maxfile_pos; lia). apply Z.ltb_irrefl.
  - intros k Hk. unfold uses. cbn [fn fx]. rewrite maxfile_pos.
    destruct (Z.eqb_spec k 523), (Z.eqb_spec k (fn e)), (Z.ltb_spec k (fn e + 1)), (Z.ltb_spec k (fn e)); try lia; rewrite ?orb_false_r; reflexivity.
  - reflexivity.
  - unfold weight. cbn [fn fx]. lia.
  - unfold slot. rewrite maxfile_pos, (proj2 (Z.eqb_neq _ _)), (proj2 (Z.ltb_lt _ _)) by lia. rewrite addr_set by (assumption || lia). rewrite Z.eqb_refl. reflexivity.
  - intros k Hk Hne. unfold slot. rewrite !(addr_set _ _ _ 11) by (assumption || lia). rewrite (proj2 (Z.eqb_neq 11 (fn e))) by lia.
    destruct (k =? MAXFILE); [reflexivity|]. destruct (Z.ltb_spec k 11); [|reflexivity].
    rewrite addr_set by (assumption || lia). rewrite (proj2 (Z.eqb_neq _ _)) by lia. reflexivity.
  - left. reflexivity.
Qed.

Lemma claim_ind : fx e = false -> tab_ok c (fb + 1) (<[i := Fent (set_addr (din e) 11 fb) (fn e) true (fd e)]> T).
Proof using HT Hi Hfb.
  intros Hx. destruct (t_ent _ _ _ HT i e Hi) as [E1 E2 E3 E4 E5 E6 E7]. pose proof fb_u32 as Hu. pose proof (fb_low c fb T HT) as Hlow.
  assert (fb <> 0) as Hfb0 by (intros ->; revert Hlow; vm_compute; congruence).
  assert (addr (din e) 11 = 0) as Ha by (rewrite <-(slot_ind c); apply E5; [vm_compute; split; discriminate | rewrite uses_ind; exact Hx]).
  apply (tab_claim c fb T HT i e Hi c _ MAXFILE); cbn [din fn fx fd]; rewrite ?length_set_addr; try assumption; try (rewrite maxfile_pos; lia).
  - intros k Hk. unfold uses. cbn [fn fx]. destruct (k =? MAXFILE); rewrite ?orb_true_r, ?orb_false_r; reflexivity.
  - reflexivity.
  - lia.
  - intros _. reflexivity.
  - unfold weight. cbn [fn fx]. rewrite Hx. cbn. lia.
  - rewrite slot_ind, addr_set by (assumption || lia). reflexivity.
  - intros k Hk Hne. unfold slot. rewrite (proj2 (Z.eqb_neq _ _)) by exact Hne. rewrite (addr_set _ _ _ 11), Ha by (assumption || lia).
    rewrite Z.eqb_refl, (proj2 (Z.eqb_neq fb 0)) by exact Hfb0. destruct (Z.ltb_spec k 11).
    + rewrite addr_set by (assumption || lia). rewrite (proj2 (Z.eqb_neq _ _)) by lia. reflexivity.
    + rewrite (t_zero _ _ _ HT fb) by lia. apply get32_zero_block.
  - left. reflexivity.
Qed.

Lemma claim_entry : 11 <= fn e < MAXFILE -> fx e = true ->
  tab_ok (bupd c (addr (din e) 11) (put32 (c (addr (din e) 11)) (4 * (fn e - 11)) fb)) (fb + 1) (<[i := Fent (din e) (fn e + 1) true (fd e)]> T).
Proof using HT Hi Hfb.
  intros Hn Hx. destruct (t_ent _ _ _ HT i e Hi) as [E1 E2 E3 E4 E5 E6 E7]. pose proof fb_u32 as Hu.
  pose proof (E4 MAXFILE ltac:(rewrite maxfile_pos; lia) ltac:(rewrite uses_ind; exact Hx)) as Ha. rewrite slot_ind in Ha.
  assert (0 < nmeta) by (vm_compute; reflexivity). rewrite maxfile_pos in *.
  pose proof (t_len _ _ _ HT (addr (din e) 11)) as Hlen.
  apply (tab_claim c fb T HT i e Hi _ _ (fn e)); cbn [din fn fx fd]; rewrite ?maxfile_pos; try assumption; try lia.
  - rewrite uses_lt by (rewrite maxfile_pos; lia). apply Z.ltb_irrefl.
  - intros k Hk. unfold uses. cbn [fn fx]. rewrite Hx, maxfile_pos.
    destruct (Z.eqb_spec k 523), (Z.eqb_spec k (fn e)), (Z.ltb_spec k (fn e + 1)), (Z.ltb_spec k (fn e)); try lia; reflexivity.
  - reflexivity.
  - unfold weight. cbn [fn fx]. rewrite Hx. lia.
  - unfold slot. rewrite maxfile_pos, (proj2 (Z.eqb_neq _ 523)), (proj2 (Z.ltb_ge _ _)), (proj2 (Z.eqb_neq _ 0)) by lia.
    rewrite bupd_eq, get32_put32 by (unfold BSIZE in Hlen; lia). apply uwrap_id, Hu.
  - intros k Hk Hne. unfold slot. rewrite maxfile_pos. destruct (Z.eqb_spec k 523), (Z.ltb_spec k 11); try reflexivity.
    rewrite (proj2 (Z.eqb_neq _ _)), bupd_eq by lia. rewrite get32_put32_ne by lia. reflexivity.
  - right. eexists. split; [exact Hx|]. split; [reflexivity|]. rewrite length_put32. exact Hlen.
Qed.
End claims.

(** ** Changes outside the data blocks *)

(** The same files, with dinodes that have the same addresses. *)
Definition same_files (T T' : list fent) : Prop :=
  forall i e', T' !! i = Some e' -> exists e, T !! i = Some e /\ fn e' = fn e /\ fx e' = fx e /\ fd e' = fd e
    /\ length (din e') = 80%nat /\ forall k, 0 <= k <= 11 -> addr (din e') k = addr (din e) k.

Lemma same_files_refl c fb T : tab_ok c fb T -> same_files T T.
Proof. intros HT i e Hi. exists e. split_and!; try reflexivity; [exact Hi | apply (e_len _ _ _ (t_ent _ _ _ HT i e Hi))]. Qed.
Lemma tab_ext c c' fb T T' :
  tab_ok c fb T -> length T' = length T -> same_files T T' -> (forall b, nmeta <= b -> c' b = c b) ->
  (forall b, Z.of_nat (length (c' b)) = BSIZE) -> tab_ok c' fb T'.
Proof.
  intros HT Hl Hsame Hc Hlen. pose proof maxfile_pos as HM.
  assert (forall i e e' k, T !! i = Some e -> (forall k, 0 <= k <= 11 -> addr (din e') k = addr (din e) k) -> 0 <= k <= MAXFILE ->
    slot c' (din e') k = slot c (din e) k) as Hslot.
  { intros i e e' k Hi Ha Hk. unfold slot. rewrite (Ha 11) by lia. destruct (k =? MAXFILE); [reflexivity|].
    destruct (Z.ltb_spec k 11); [apply Ha; lia|]. destruct (Z.eqb_spec (addr (din e) 11) 0) as [|H0]; [reflexivity|].
    rewrite Hc; [reflexivity|]. pose proof (t_ent _ _ _ HT i e Hi) as He. rewrite <-(slot_ind c). destruct (fx e) eqn:Hx.
    - apply (e_used _ _ _ He); [lia | rewrite uses_ind; exact Hx].
    - exfalso. apply H0. rewrite <-(slot_ind c). apply (e_free _ _ _ He); [lia | rewrite uses_ind; exact Hx]. }
  assert (forall e e' k, fn e' = fn e -> fx e' = fx e -> uses e' k = uses e k) as Huses by (intros e e' k E1 E2; unfold uses; rewrite E1, E2; reflexivity).
  split.
  - intros i e' Hi'. destruct (Hsame i e' Hi') as (e & Hi & E1 & E2 & E3 & E4 & E5). destruct (t_ent _ _ _ HT i e Hi) as [F1 F2 F3 F4 F5 F6 F7].
    split; rewrite ?E1, ?E2, ?E3; try assumption.
    + intros k Hk. rewrite (Huses e e'), (Hslot i e e') by assumption. apply F4, Hk.
    + intros k Hk. rewrite (Huses e e'), (Hslot i e e') by assumption. apply F5, Hk.
    + intros j x Hj. destruct (byte_slot c fb e j x (t_ent _ _ _ HT i e Hi) Hj) as [Hr Hu]. rewrite (Hslot i e e') by (assumption || lia).
      rewrite Hc by (apply F4; [lia | exact Hu]). apply F7, Hj.
  - intros i1 i2 e1' e2' k1 k2 H1 H2 Hk1 Hk2. destruct (Hsame i1 e1' H1) as (e1 & H1' & A1 & A2 & _ & _ & A5).
    destruct (Hsame i2 e2' H2) as (e2 & H2' & B1 & B2 & _ & _ & B5).
    rewrite (Huses e1 e1'), (Huses e2 e2'), (Hslot i1 e1 e1'), (Hslot i2 e2 e2') by assumption. apply (t_inj _ _ _ HT); assumption.
  - exact Hlen.
  - intros b Hb. rewrite Hc; [apply (t_zero _ _ _ HT b Hb)|]. pose proof (fb_low _ _ _ HT). lia.
  - rewrite (t_fb _ _ _ HT). f_equal. clear - Hl Hsame. revert T' Hl Hsame. induction T as [|e T IH]; intros [|e' T'] Hl Hsame; try discriminate; [reflexivity|].
    change (weight e + zsum weight T = weight e' + zsum weight T'). destruct (Hsame 0%nat e' eq_refl) as (e0 & E0 & E1 & E2 & _). injection E0 as <-.
    rewrite (IH T'); [unfold weight; rewrite E1, E2; reflexivity | cbn in Hl; lia | exact (fun i => Hsame (S i))].
Qed.

(** A new file has no blocks. *)
Lemma tab_new c fb T d :
  tab_ok c fb T -> length d = 80%nat -> (forall k, 0 <= k <= 11 -> addr d k = 0) -> tab_ok c fb (T ++ [Fent d 0 false []]).
Proof.
  intros HT Hl Ha. pose proof maxfile_pos as HM.
  assert (forall k, 0 <= k <= MAXFILE -> uses (Fent d 0 false []) k = false) as Hu.
  { intros k Hk. unfold uses. cbn [fx fn]. destruct (k =? MAXFILE); [reflexivity | apply Z.ltb_ge; lia]. }
  assert (forall i e, (T ++ [Fent d 0 false []]) !! i = Some e -> T !! i = Some e \/ e = Fent d 0 false []) as Hlk.
  { intros i e [Hi | [_ Hi]]%lookup_app_Some; [left; exact Hi | right]. apply list_lookup_singleton_Some in Hi as [_ <-]. reflexivity. }
  split.
  - intros i e [Hi | ->]%Hlk; [apply (t_ent _ _ _ HT i e Hi)|]. split; cbn [din fn fx fd]; try assumption; try lia.
    + intros k Hk Huk. rewrite Hu in Huk by exact Hk. discriminate.
    + intros k Hk _. unfold slot. destruct (k =? MAXFILE), (Z.ltb_spec k 11); rewrite ?(Ha 11) by lia; try reflexivity; apply Ha; lia.
    + cbn. lia.
    + intros j x Hj. discriminate.
  - intros i1 i2 e1 e2 k1 k2 [H1 | ->]%Hlk [H2 | ->]%Hlk Hk1 Hk2 Hu1 Hu2; try (rewrite Hu in * by assumption; discriminate).
    apply (t_inj _ _ _ HT); assumption.
  - apply (t_len _ _ _ HT).
  - apply (t_zero _ _ _ HT).
  - rewrite zsum_app. change (zsum weight [Fent d 0 false []]) with 0. pose proof (t_fb _ _ _ HT). lia.
Qed.
