(* ===== verification/MkfsThm.v ===== *)
(** * The image mkfs writes

    iappend appends its bytes to one file and touches no other; ialloc adds an empty
    file; hence main lays a host directory out as the preorder of its tree, in an
    image that has the shape the kernel expects. *)
From Stdlib Require Import ZArith Lia.
From stdpp Require Import base numbers list list_numbers gmap strings.
From S2P Require Import Prelude Block Log Locks Fs SysDir FsThm FsFile FsRw Mkfs MkfsBlocks.
Local Open Scope Z_scope.

(** Blocks a file of [n] bytes needs, with and without the indirect block. *)
Definition nblk (n : Z) : Z := (n + BSIZE - 1) / BSIZE.
Definition wt (n : Z) : Z := nblk n + b2z (11 <? nblk n).

Lemma nblk_mono n m : n <= m -> nblk n <= nblk m.
Proof. intros. unfold nblk, BSIZE. Z.to_euclidean_division_equations; lia. Qed.
Lemma wt_mono n m : n <= m -> wt n <= wt m.
Proof.
  intros H%nblk_mono. unfold wt, b2z. destruct (Z.ltb_spec 11 (nblk n)), (Z.ltb_spec 11 (nblk m)); lia.
Qed.
Lemma nblk_nonneg n : 0 <= n -> 0 <= nblk n.
Proof. intros. unfold nblk, BSIZE. Z.to_euclidean_division_equations; lia. Qed.
Lemma nblk_max n : n <= MAXFILE * BSIZE -> nblk n <= MAXFILE.
Proof. rewrite maxfile_pos. unfold nblk, BSIZE. intros. Z.to_euclidean_division_equations; lia. Qed.
Lemma nblk_next n m : 0 <= n -> 0 < m <= (n / BSIZE + 1) * BSIZE - n -> nblk (n + m) = n / BSIZE + 1 /\ n / BSIZE <= nblk n <= n / BSIZE + 1.
Proof. unfold nblk, BSIZE. intros. Z.to_euclidean_division_equations; lia. Qed.

(** The state of mkfs by the contents of its blocks and its counters. *)
Definition disk (s : mk) : Z -> blk := fun b => default zeroes (img s !! b).
Record shows (s : mk) (c : Z -> blk) (fi fb : Z) : Prop := Shows {
  is_img : forall b, 0 <= b < FSSIZE -> img s !! b = Some (c b);
  is_disk : forall b, disk s b = c b;
  is_fi : freeinode s = fi;
  is_fb : freeblock s = fb
}.

Lemma sect_id b : 0 <= b < FSSIZE -> sect b = b.
Proof.
  intros H. unfold sect. rewrite uwrap_id by (unfold in_u, BSIZE, FSSIZE in *; lia). apply Z.div_mul. unfold BSIZE. lia.
Qed.
Lemma rsect_Ok s c fi fb b : shows s c fi fb -> 0 <= b < FSSIZE -> rsect b s = Ok (c b) s.
Proof. intros H Hb. unfold rsect. mstep. rewrite sect_id, (is_img _ _ _ _ H) by exact Hb. reflexivity. Qed.
Lemma wsect_runs s c fi fb b d (Q : unit -> mk -> Prop) :
  shows s c fi fb -> 0 <= b < FSSIZE -> (forall s', shows s' (bupd c b d) fi fb -> Q tt s') -> runs (wsect b d) s Q.
Proof.
  intros H Hb HQ. eexists _, _. split; [reflexivity|]. apply HQ. destruct H as [H1 H2 H3 H4].
  split; [| |exact H3 | exact H4]; intros b'; unfold disk; cbn; rewrite sect_id by exact Hb; unfold bupd; destruct (Z.eqb_spec b' b) as [-> | Hne].
  - intros _. apply lookup_insert_eq.
  - rewrite lookup_insert_ne by congruence. apply H1.
  - rewrite lookup_insert_eq. reflexivity.
  - rewrite lookup_insert_ne by congruence. apply H2.
Qed.
Lemma take_block_runs s c fi fb (Q : Z -> mk -> Prop) :
  shows s c fi fb -> 0 <= fb < FSSIZE -> (forall s', shows s' c fi (fb + 1) -> Q fb s') -> runs take_block s Q.
Proof.
  intros H Hb HQ. destruct H as [H1 H2 H3 <-]. eexists _, _. split; [reflexivity|]. apply HQ. split; [exact H1 | exact H2 | exact H3|].
  cbn. apply uwrap_id. unfold in_u, FSSIZE in *. lia.
Qed.

(** ** The block of a file at its end *)

(** What iappend leaves alone. *)
Definition same_fields (d d' : list Z) : Prop := forall j, 0 <= j < 24 \/ 72 <= j -> get8 d' j = get8 d j.
Definition same_meta (c c' : Z -> blk) : Prop := forall b, b < nmeta -> c' b = c b.

Lemma same_fields_set d k a : 0 <= k <= 11 -> same_fields d (set_addr d k a).
Proof. intros Hk j Hj. unfold set_addr. apply get8_put32_ne; lia. Qed.
Lemma same_meta_upd c b v : nmeta <= b -> same_meta c (bupd c b v).
Proof. intros Hb b' Hb'. apply bupd_ne. lia. Qed.

(** The result of growing the file [i] to [n] blocks. *)
Record grown (c : Z -> blk) (T : list fent) (i : nat) (e : fent) (fi n : Z) (d : list Z) (x : Z) (s' : mk) (c' : Z -> blk) (fb' : Z) (e' : fent) : Prop := Grown {
  g_is : shows s' c' fi fb';
  g_tab : tab_ok c' fb' (<[i := e']> T);
  g_din : d = din e'; g_x : x = slot c' (din e') (n - 1);
  g_fd : fd e' = fd e; g_n : fn e' = n; g_ind : fx e' = (11 <? n);
  g_meta : same_meta c c'; g_fields : same_fields (din e) (din e')
}.

Section grow.
Context (c : Z -> blk) (fb : Z) (T : list fent) (HT : tab_ok c fb T).
Context (i : nat) (e : fent) (Hi : T !! i = Some e).
Context (s : mk) (fi : Z) (Hs : shows s c fi fb).
Context (Hx : fx e = (11 <? fn e)) (Hfb : fb <= FSSIZE).

Lemma old_block : 0 < fn e -> runs (file_block (din e) (fn e - 1)) s (fun '(d, x) s' => exists c' fb' e', grown c T i e fi (fn e) d x s' c' fb' e').
Proof using HT Hi Hs Hx Hfb.
  intros Hn. destruct (t_ent _ _ _ HT i e Hi) as [E1 E2 E3 E4 E5 E6 E7]. pose proof (fb_low _ _ _ HT).
  assert (0 < nmeta) by (vm_compute; reflexivity). rewrite maxfile_pos in *.
  assert (uses e (fn e - 1) = true) as Hu by (rewrite uses_lt by (rewrite maxfile_pos; lia); apply Z.ltb_lt; lia).
  pose proof (E4 (fn e - 1) ltac:(lia) Hu) as Hsl.
  assert (forall x, x = slot c (din e) (fn e - 1) -> exists c' fb' e', grown c T i e fi (fn e) (din e) x s c' fb' e') as Hres.
  { intros x ->. exists c, fb, e. split; try reflexivity; try assumption.
    - rewrite list_insert_id by exact Hi. exact HT.
    - intros b _. reflexivity.
    - intros j _. reflexivity. }
  unfold slot in Hsl, Hres. rewrite maxfile_pos, (proj2 (Z.eqb_neq (fn e - 1) 523)) in Hsl, Hres by lia.
  unfold file_block. change (Z.of_nat NDIRECT) with 11. destruct (Z.ltb_spec (fn e - 1) 11).
  - rewrite (proj2 (Z.eqb_neq _ _)) by lia. apply runs_bind, runs_ret, runs_ret, Hres. reflexivity.
  - rewrite (proj2 (Z.ltb_lt _ _)) in Hx by lia. pose proof (E4 523 ltac:(lia) Hx) as Hind. rewrite <-maxfile_pos, slot_ind in Hind.
    rewrite (proj2 (Z.eqb_neq (addr (din e) 11) 0)) in * by lia. apply runs_bind, runs_ret. apply (runs_step _ _ _ _ _ _ (rsect_Ok _ _ _ _ (addr (din e) 11) Hs ltac:(lia))).
    rewrite (proj2 (Z.eqb_neq _ 0)) by lia. apply runs_ret, Hres. reflexivity.
Qed.

(** Claiming the block after the last one, with the indirect block before the
    twelfth. *)
Lemma new_direct : fn e < 11 -> fb < FSSIZE ->
  runs (file_block (din e) (fn e)) s (fun '(d, x) s' => exists c' fb' e', grown c T i e fi (fn e + 1) d x s' c' fb' e' /\ fb' = fb + 1).
Proof using HT Hi Hs Hx.
  intros Hn Hroom. destruct (t_ent _ _ _ HT i e Hi) as [E1 E2 E3 E4 E5 E6 E7]. pose proof (fb_low _ _ _ HT).
  assert (0 < nmeta) by (vm_compute; reflexivity). rewrite maxfile_pos in *.
  assert (addr (din e) (fn e) = 0) as Ha.
  { pose proof (E5 (fn e) ltac:(lia)) as Hf. rewrite uses_lt, Z.ltb_irrefl in Hf by (rewrite maxfile_pos; lia). specialize (Hf eq_refl).
    unfold slot in Hf. rewrite maxfile_pos, (proj2 (Z.eqb_neq _ 523)), (proj2 (Z.ltb_lt _ 11)) in Hf by lia. exact Hf. }
  unfold file_block. change (Z.of_nat NDIRECT) with 11. rewrite (proj2 (Z.ltb_lt _ 11)) by exact Hn. rewrite Ha, Z.eqb_refl.
  apply runs_bind, runs_bind, (take_block_runs s c fi fb); [exact Hs | lia|]. intros s' Hs'. apply runs_ret, runs_ret.
  pose proof (fb_u32 c fb T HT Hroom) as Hu.
  exists c, (fb + 1), (Fent (set_addr (din e) (fn e) fb) (fn e + 1) (fx e) (fd e)). split; [split; cbn [din fn fx fd]|]; try reflexivity.
  - exact Hs'.
  - exact (claim_direct c fb T HT i e Hi Hroom Hn).
  - unfold slot. rewrite Z.add_simpl_r, maxfile_pos, (proj2 (Z.eqb_neq _ 523)), (proj2 (Z.ltb_lt _ 11)) by lia. reflexivity.
  - rewrite Hx. destruct (Z.ltb_spec 11 (fn e)), (Z.ltb_spec 11 (fn e + 1)); lia || reflexivity.
  - intros b _. reflexivity.
  - apply same_fields_set. lia.
Qed.

Lemma new_entry (Hxt : fx e = true) : 11 <= fn e < MAXFILE -> fb < FSSIZE ->
  runs (indirect ← rsect (addr (din e) 11);
        let o := 4 * (fn e - 11) in
        if get32 indirect o =? 0 then
          b ← take_block; let indirect := put32 indirect o b in wsect (addr (din e) 11) indirect;; mret (din e, get32 indirect o)
        else mret (din e, get32 indirect o)) s
    (fun '(d, x) s' => exists c' fb' e', grown c T i e fi (fn e + 1) d x s' c' fb' e' /\ fb' = fb + 1).
Proof using HT Hi Hs Hfb.
  intros Hn Hroom. destruct (t_ent _ _ _ HT i e Hi) as [E1 E2 E3 E4 E5 E6 E7]. pose proof (fb_low _ _ _ HT).
  assert (0 < nmeta) by (vm_compute; reflexivity). rewrite maxfile_pos in *.
  pose proof (E4 523 ltac:(lia) Hxt) as Hind. rewrite <-maxfile_pos, slot_ind in Hind.
  pose proof (E5 (fn e) ltac:(lia)) as Hf. rewrite uses_lt, Z.ltb_irrefl in Hf by (rewrite maxfile_pos; lia). specialize (Hf eq_refl).
  unfold slot in Hf. rewrite maxfile_pos, (proj2 (Z.eqb_neq _ 523)), (proj2 (Z.ltb_ge _ 11)), (proj2 (Z.eqb_neq _ 0)) in Hf by lia.
  apply (runs_step _ _ _ _ _ _ (rsect_Ok _ _ _ _ (addr (din e) 11) Hs ltac:(lia))). cbv zeta. rewrite Hf, Z.eqb_refl.
  apply runs_bind, (take_block_runs s c fi fb); [exact Hs | lia|]. intros s' Hs'.
  apply runs_bind, (wsect_runs s' c fi (fb + 1)); [exact Hs' | lia|]. intros s2 Hs2. apply runs_ret.
  eexists _, (fb + 1), (Fent (din e) (fn e + 1) true (fd e)). split; [split; cbn [din fn fx fd]|]; try reflexivity.
  - exact Hs2.
  - apply (claim_entry c fb T HT i e Hi Hroom); [rewrite maxfile_pos; lia | exact Hxt].
  - unfold slot. rewrite Z.add_simpl_r, maxfile_pos, (proj2 (Z.eqb_neq _ 523)), (proj2 (Z.ltb_ge _ 11)), (proj2 (Z.eqb_neq _ 0)), bupd_eq by lia. reflexivity.
  - symmetry. apply Z.ltb_lt. lia.
  - apply same_meta_upd. lia.
  - intros j _. reflexivity.
Qed.
End grow.

Section append.
Context (c : Z -> blk) (fb : Z) (T : list fent) (HT : tab_ok c fb T).
Context (i : nat) (e : fent) (Hi : T !! i = Some e).
Context (s : mk) (fi : Z) (Hs : shows s c fi fb).
Context (Hx : fx e = (11 <? fn e)).

Lemma claimed_block : fn e < MAXFILE -> fb + (fn e + 1 + b2z (11 <? fn e + 1)) - weight e <= FSSIZE ->
  runs (file_block (din e) (fn e)) s (fun '(d, x) s' => exists c' fb' e', grown c T i e fi (fn e + 1) d x s' c' fb' e').
Proof using HT Hi Hs Hx.
  intros Hn Hroom. destruct (t_ent _ _ _ HT i e Hi) as [E1 E2 E3 E4 E5 E6 E7]. unfold weight in Hroom. rewrite Hx in Hroom.
  destruct (Z.ltb_spec (fn e) 11) as [Hlt | Hge].
  - rewrite !(proj2 (Z.ltb_ge 11 _)) in Hroom by lia. cbn [b2z] in Hroom.
    eapply runs_wand; [apply (new_direct c fb T HT i e Hi s fi Hs Hx); lia|]. intros [d x] s' (c' & fb' & e' & Hg & _). eauto.
  - unfold file_block. change (Z.of_nat NDIRECT) with 11. rewrite (proj2 (Z.ltb_ge _ 11)) by lia.
    rewrite (proj2 (Z.ltb_lt 11 (fn e + 1))) in Hroom by lia. cbn [b2z] in Hroom. destruct (Z.ltb_spec 11 (fn e)) as [H11 | H11]; cbn [b2z] in Hroom.
    + pose proof (E4 MAXFILE ltac:(rewrite maxfile_pos; lia) Hx) as Hind. rewrite slot_ind in Hind.
      assert (0 < nmeta) by (vm_compute; reflexivity). rewrite (proj2 (Z.eqb_neq _ 0)) by lia. apply runs_bind, runs_ret.
      eapply runs_wand; [apply (new_entry c fb T HT i e Hi s fi Hs ltac:(lia) Hx); lia|]. intros [d x] s' (c' & fb' & e' & Hg & _). eauto.
    + assert (addr (din e) 11 = 0) as Ha by (rewrite <-(slot_ind c); apply E5; [rewrite maxfile_pos; lia | exact Hx]). rewrite Ha, Z.eqb_refl.
      pose proof (fb_low _ _ _ HT). assert (0 < nmeta) by (vm_compute; reflexivity).
      apply runs_bind, runs_bind, (take_block_runs s c fi fb); [exact Hs | lia|]. intros s1 Hs1. apply runs_ret.
      pose proof (claim_ind c fb T HT i e Hi ltac:(lia) Hx) as HT1. set (e1 := Fent (set_addr (din e) 11 fb) (fn e) true (fd e)) in *.
      eapply runs_wand; [apply (new_entry c (fb + 1) _ HT1 i e1 (list_lookup_insert_eq _ _ _ (lookup_lt_Some _ _ _ Hi)) s1 fi Hs1 ltac:(lia) eq_refl); cbn [fn e1]; lia|].
      intros [d x] s' (c' & fb' & e' & [G1 G2 G3 G4 G5 G6 G7 G8 G9] & _). exists c', fb', e'.
      rewrite list_insert_insert_eq in G2. split; try assumption.
      intros j Hj. rewrite (G9 j Hj). apply same_fields_set; [lia | exact Hj].
Qed.

Lemma end_block : fn e = nblk (Z.of_nat (length (fd e))) -> Z.of_nat (length (fd e)) < MAXFILE * BSIZE ->
  let fbn := Z.of_nat (length (fd e)) / BSIZE in
  fb + (fbn + 1 + b2z (11 <? fbn + 1)) - weight e <= FSSIZE ->
  runs (file_block (din e) fbn) s (fun '(d, x) s' => exists c' fb' e', grown c T i e fi (fbn + 1) d x s' c' fb' e').
Proof using HT Hi Hs Hx.
  intros Hn Hmax fbn Hroom.
  assert (fn e = fbn \/ fn e = fbn + 1) as [E | E]
    by (unfold fbn; rewrite Hn; unfold nblk, BSIZE; Z.to_euclidean_division_equations; lia).
  - rewrite <-E in *. apply claimed_block; [|exact Hroom]. rewrite E. unfold fbn. rewrite maxfile_pos in *. unfold BSIZE in *. Z.to_euclidean_division_equations; lia.
  - replace fbn with (fn e - 1) at 1 by lia. rewrite <-E. rewrite <-E in Hroom. unfold weight in Hroom. rewrite Hx in Hroom.
    apply (old_block c fb T HT i e Hi s fi Hs Hx); [lia|]. unfold fbn, BSIZE in E. Z.to_euclidean_division_equations; lia.
Qed.

(** Bytes at the end of the file, in its last block. *)
Lemma fill_end part :
  fb <= FSSIZE ->
  let off := Z.of_nat (length (fd e)) in
  fn e = off / BSIZE + 1 -> Z.of_nat (length part) <= (off / BSIZE + 1) * BSIZE - off ->
  let x := slot c (din e) (fn e - 1) in
  tab_ok (bupd c x (splice (c x) (off - off / BSIZE * BSIZE) part)) fb (<[i := Fent (din e) (fn e) (fx e) (fd e ++ part)]> T) /\ nmeta <= x < fb.
Proof using HT Hi.
  intros Hfb off Hn Hp x. pose proof (t_ent _ _ _ HT i e Hi) as He. pose proof (e_n _ _ _ He) as HM.
  assert (0 <= off / BSIZE) by (unfold off, BSIZE; Z.to_euclidean_division_equations; lia).
  assert (uses e (fn e - 1) = true) as Hu by (rewrite uses_lt by lia; apply Z.ltb_lt; lia).
  pose proof (e_used _ _ _ He (fn e - 1) ltac:(lia) Hu) as Hr. fold x in Hr. split; [|exact Hr].
  pose proof (t_len _ _ _ HT x) as Hlen.
  assert (0 <= off - off / BSIZE * BSIZE < BSIZE) as Ho by (unfold off, BSIZE; Z.to_euclidean_division_equations; lia).
  apply (tab_fill c fb T HT i e Hi); [lia | rewrite length_splice by lia; exact Hlen | rewrite length_app; lia|].
  intros j y Hj. destruct (decide (j < length (fd e))%nat) as [Hlt | Hge].
  - rewrite lookup_app_l in Hj by exact Hlt. destruct (Z.eqb_spec (Z.of_nat j / BSIZE) (fn e - 1)) as [Ej | Ej]; [|exact Hj].
    assert (Z.of_nat j mod BSIZE < off - off / BSIZE * BSIZE) by (unfold off, BSIZE in *; Z.to_euclidean_division_equations; lia).
    rewrite get8_splice by (try lia; apply Z.mod_pos_bound; unfold BSIZE; lia). rewrite (proj2 (Z.leb_gt _ _)) by lia. cbn [andb].
    unfold x. rewrite <-Ej. apply (e_bytes _ _ _ He j y Hj).
  - pose proof (lookup_lt_Some _ _ _ Hj) as Hjl. rewrite length_app in Hjl. rewrite lookup_app_r in Hj by lia.
    assert (Z.of_nat j / BSIZE = off / BSIZE /\ Z.of_nat j mod BSIZE = off - off / BSIZE * BSIZE + Z.of_nat (j - length (fd e))) as [Ej Em]
      by (unfold off, BSIZE in *; Z.to_euclidean_division_equations; lia).
    rewrite Ej, (proj2 (Z.eqb_eq _ (fn e - 1))) by lia. rewrite Em, get8_splice by lia.
    rewrite (proj2 (Z.leb_le _ _)), (proj2 (Z.ltb_lt _ _)) by lia. cbn [andb].
    replace (Z.to_nat _) with (j - length (fd e))%nat by lia. rewrite Hj. reflexivity.
Qed.
End append.

(** ** iappend *)

Definition tidy (e : fent) : Prop := fn e = nblk (Z.of_nat (length (fd e))) /\ fx e = (11 <? fn e).

Record appended (c : Z -> blk) (T : list fent) (i : nat) (e : fent) (fi : Z) (p d : list Z) (off : Z) (s' : mk) (c' : Z -> blk) (fb' : Z) (e' : fent) : Prop := Appended {
  a_shows : shows s' c' fi fb';
  a_tab : tab_ok c' fb' (<[i := e']> T);
  a_din : d = din e'; a_off : off = Z.of_nat (length (fd e'));
  a_fd : fd e' = fd e ++ p; a_tidy : tidy e';
  a_meta : same_meta c c'; a_fields : same_fields (din e) (din e')
}.

Lemma fb_insert c fb c' fb' T i e e' : tab_ok c fb T -> T !! i = Some e -> tab_ok c' fb' (<[i := e']> T) -> fb' = fb - weight e + weight e'.
Proof.
  intros H Hi H'. rewrite (t_fb _ _ _ H'), (t_fb _ _ _ H), (zsum_insert _ _ _ e) by exact Hi. lia.
Qed.
Lemma weight_tidy e : tidy e -> weight e = wt (Z.of_nat (length (fd e))).
Proof. intros [E1 E2]. unfold weight, wt. rewrite E2, E1. reflexivity. Qed.

Lemma appended_nil c fb T i e s fi : tab_ok c fb T -> T !! i = Some e -> shows s c fi fb -> tidy e ->
  exists c' fb' e', appended c T i e fi [] (din e) (Z.of_nat (length (fd e))) s c' fb' e'.
Proof.
  intros HT Hi Hs Ht. exists c, fb, e. split; try reflexivity; try assumption.
  - rewrite list_insert_id by exact Hi. exact HT.
  - rewrite app_nil_r. reflexivity.
  - intros b _. reflexivity.
  - intros j _. reflexivity.
Qed.

Lemma append_loop_runs fuel : forall p c fb T i e s fi,
  tab_ok c fb T -> T !! i = Some e -> shows s c fi fb -> tidy e -> (length p <= fuel)%nat ->
  Z.of_nat (length (fd e ++ p)) <= MAXFILE * BSIZE -> fb + wt (Z.of_nat (length (fd e ++ p))) - weight e <= FSSIZE ->
  runs (append_loop fuel (din e) (Z.of_nat (length (fd e))) p) s (fun '(d, off) s' => exists c' fb' e', appended c T i e fi p d off s' c' fb' e').
Proof.
  induction fuel as [|fuel IH]; intros p c fb T i e s fi HT Hi Hs Ht Hp Hmax Hroom; cbn [append_loop].
  { destruct p; [|cbn in Hp; lia]. apply runs_ret, (appended_nil c fb); assumption. }
  destruct (Z.leb_spec (Z.of_nat (length p)) 0) as [H0 | H0].
  { destruct p; [|cbn in H0; lia]. apply runs_ret, (appended_nil c fb); assumption. }
  rewrite length_app in Hmax, Hroom. set (off := Z.of_nat (length (fd e))) in *.
  assert (off / BSIZE < MAXFILE) as Hfbn by (rewrite maxfile_pos in *; unfold BSIZE in *; Z.to_euclidean_division_equations; lia).
  rewrite (proj2 (Z.leb_gt _ _)) by exact Hfbn.
  set (n1 := Z.min (Z.of_nat (length p)) ((off / BSIZE + 1) * BSIZE - off)).
  assert (0 < n1) as Hn1 by (unfold n1, off, BSIZE in *; Z.to_euclidean_division_equations; lia).
  destruct (nblk_next off n1) as [Enb _]; [lia | unfold n1 in *; lia|].
  assert (wt (off + n1) <= wt (off + Z.of_nat (length p))) as Hwt by (apply wt_mono; unfold n1; lia).
  assert (wt (off + n1) = off / BSIZE + 1 + b2z (11 <? off / BSIZE + 1)) as Ewt by (unfold wt; rewrite Enb; reflexivity).
  replace (Z.of_nat (length (fd e) + length p)) with (off + Z.of_nat (length p)) in * by lia.
  apply runs_bind. eapply runs_wand; [apply (end_block c fb T HT i e Hi s fi Hs (proj2 Ht) (proj1 Ht)); fold off; lia|]. fold off.
  intros [d x] s1 (c1 & fb1 & e1 & [G1 G2 -> -> G5 G6 G7 G8 G9]).
  pose proof (list_lookup_insert_eq T i e1 (lookup_lt_Some _ _ _ Hi)) as Hi1.
  pose proof (fb_insert _ _ _ _ _ _ _ _ HT Hi G2) as Efb. unfold weight at 2 in Efb. rewrite G6, G7 in Efb.
  destruct (fill_end c1 fb1 _ G2 i e1 Hi1 (take (Z.to_nat n1) p)) as [HT2 Hx2]; rewrite ?G5; fold off; [lia | exact G6 | rewrite length_take; lia|].
  rewrite G5, G6 in HT2. rewrite G6 in Hx2. fold off in HT2. rewrite list_insert_insert_eq in HT2.
  assert (0 < nmeta) by (vm_compute; reflexivity).
  apply (runs_step _ _ _ _ _ _ (rsect_Ok _ _ _ _ (slot c1 (din e1) (off / BSIZE + 1 - 1)) G1 ltac:(lia))). apply runs_bind, (wsect_runs s1 c1 fi fb1); [exact G1 | lia|]. intros s2 Hs2.
  set (e2 := Fent (din e1) (off / BSIZE + 1) (fx e1) (fd e ++ take (Z.to_nat n1) p)) in *.
  pose proof (list_lookup_insert_eq T i e2 (lookup_lt_Some _ _ _ Hi)) as Hi2.
  assert (Z.of_nat (length (fd e2)) = off + n1) as El2 by (cbn [fd e2]; rewrite length_app, length_take; unfold n1, off in *; lia).
  assert (tidy e2) as Ht2 by (split; [rewrite El2, Enb; reflexivity | cbn [fx fn e2]; exact G7]).
  assert (fd e2 ++ drop (Z.to_nat n1) p = fd e ++ p) as Efd by (cbn [fd e2]; rewrite <-app_assoc, take_drop; reflexivity).
  replace (u32 (off + n1)) with (Z.of_nat (length (fd e2))) by (rewrite El2; symmetry; apply uwrap_id; unfold in_u; change (MAXFILE * BSIZE) with 1071104 in *; lia).
  change (din e1) with (din e2).
  eapply runs_wand; [apply (IH (drop (Z.to_nat n1) p) _ fb1 _ i e2 s2 fi HT2 Hi2 Hs2 Ht2)|].
  - rewrite length_drop. lia.
  - rewrite Efd, length_app. lia.
  - rewrite Efd, length_app, (weight_tidy e2 Ht2), El2. replace (Z.of_nat (length (fd e) + length p)) with (off + Z.of_nat (length p)) by lia. lia.
  - intros [d' off'] s' (c' & fb' & e' & [A1 A2 A3 A4 A5 A6 A7 A8]). exists c', fb', e'. rewrite list_insert_insert_eq in A2.
    split; try assumption; [congruence | |].
    + intros b Hb. rewrite (A7 b Hb), bupd_ne by lia. apply G8, Hb.
    + intros j Hj. rewrite (A8 j Hj). apply G9, Hj.
Qed.
