(* ===== verification/MkfsFiles.v ===== *)
(** * The files of an image

    [rep s F]: the image holds exactly the files [F], inode [i + 1] the file at [i].
    ialloc and iappend implement adding an empty file and appending to a file. *)
From Stdlib Require Import ZArith Lia.
From stdpp Require Import base numbers list list_numbers gmap strings.
From S2P Require Import Prelude Block Log Locks Fs SysDir FsThm FsFile FsRw Mkfs MkfsBlocks MkfsThm.
Local Open Scope Z_scope.

(** A file by its mode and its bytes. *)
Abbreviation ofile := (Z * list Z)%type.
Definition flen (f : ofile) : Z := Z.of_nat (length (snd f)).
(** The inodes that lie in the inode blocks. *)
Definition INODES : Z := ninodeblocks * IPB.

Definition dslice (c : Z -> blk) (inum : Z) : list Z := take (Z.to_nat DINODE) (drop (Z.to_nat (dip inum)) (c (IBLOCK inum sb))).

(** ** Dinodes in their block *)

Lemma get8_slice d o n j : 0 <= o -> 0 <= j < n -> get8 (take (Z.to_nat n) (drop (Z.to_nat o) d)) j = get8 d (o + j).
Proof.
  intros Ho Hj. unfold get8. rewrite lookup_take_lt, lookup_drop by lia. f_equal. f_equal. lia.
Qed.
Lemma list_eq_get8 (l k : list Z) n : length l = n -> length k = n -> (forall j, 0 <= j < Z.of_nat n -> get8 l j = get8 k j) -> l = k.
Proof.
  intros Hl Hk H. apply list_eq. intros j. destruct (decide (j < n)%nat) as [Hj | Hj]; [|rewrite !lookup_ge_None_2 by lia; reflexivity].
  specialize (H (Z.of_nat j) ltac:(lia)). unfold get8 in H. rewrite Nat2Z.id in H.
  destruct (lookup_lt_is_Some_2 l j) as [x Hx]; [lia|]. destruct (lookup_lt_is_Some_2 k j) as [y Hy]; [lia|]. rewrite Hx, Hy in *. cbn in H. congruence.
Qed.

Lemma iblock_range inum : 0 <= inum < INODES -> sb_inodestart sb <= IBLOCK inum sb < sb_bmapstart sb.
Proof.
  intros H. unfold IBLOCK. change (sb_inodestart sb) with 32. change (sb_bmapstart sb) with 41. change INODES with 225 in H. change IPB with 25.
  Z.to_euclidean_division_equations; lia.
Qed.
Lemma length_dslice c inum : 0 <= inum -> Z.of_nat (length (c (IBLOCK inum sb))) = BSIZE -> length (dslice c inum) = 80%nat.
Proof. intros H Hl. destruct (dip_range inum H). unfold dslice. rewrite length_take, length_drop. unfold DINODE, BSIZE in *. lia. Qed.

Lemma dslice_write c inum inum' d : 0 <= inum -> 0 <= inum' -> length d = 80%nat ->
  Z.of_nat (length (c (IBLOCK inum sb))) = BSIZE -> Z.of_nat (length (c (IBLOCK inum' sb))) = BSIZE ->
  dslice (bupd c (IBLOCK inum sb) (splice (c (IBLOCK inum sb)) (dip inum) d)) inum' = if inum' =? inum then d else dslice c inum'.
Proof.
  intros H0 H0' Hd Hl Hl'. destruct (dip_range inum H0), (dip_range inum' H0'). unfold DINODE in *.
  set (v := splice (c (IBLOCK inum sb)) (dip inum) d).
  assert (length v = length (c (IBLOCK inum sb))) as Hv by (apply length_splice; lia).
  assert (Z.of_nat (length (bupd c (IBLOCK inum sb) v (IBLOCK inum' sb))) = BSIZE) as Hlv by (unfold bupd; destruct (_ =? _); [lia | exact Hl']).
  apply (list_eq_get8 _ _ 80).
  - apply length_dslice; assumption.
  - destruct (_ =? _); [exact Hd | apply length_dslice; assumption].
  - intros j Hj. unfold dslice at 1. rewrite get8_slice by (unfold DINODE; lia). unfold bupd. destruct (Z.eqb_spec inum' inum) as [-> | Hne].
    + rewrite Z.eqb_refl. unfold v. rewrite get8_splice by lia. rewrite (proj2 (Z.leb_le _ _)), (proj2 (Z.ltb_lt _ _)) by lia. cbn [andb].
      unfold get8. f_equal. f_equal. lia.
    + unfold dslice. rewrite get8_slice by (unfold DINODE; lia). destruct (Z.eqb_spec (IBLOCK inum' sb) (IBLOCK inum sb)) as [E | E]; [|reflexivity].
      unfold v. rewrite get8_splice by lia. rewrite E.
      assert (~ (dip inum <= dip inum' + j < dip inum + 80)) as Hout.
      { unfold dip, DINODE, IBLOCK in *. change IPB with 25 in *. Z.to_euclidean_division_equations; lia. }
      destruct (Z.leb_spec (dip inum) (dip inum' + j)), (Z.ltb_spec (dip inum' + j) (dip inum + Z.of_nat (length d))); cbn [andb]; try reflexivity; lia.
Qed.

(** ** The image and its files *)

Section rep.
Context (now : Z).

(** The fields of a dinode besides its addresses. *)
Record head_ok (m n : Z) (d : list Z) : Prop := HeadOk {
  h_mode : get16 d 0 = u16 m; h_lmtime : get32 d 4 = u32 now; h_ctime : get32 d 8 = u32 now;
  h_dev : get16 d 12 = 0 /\ get16 d 14 = 0; h_nlink : get16 d 16 = 1; h_size : get32 d 20 = n;
  h_ids : get32 d 72 = 0 /\ get32 d 76 = 0
}.

(** The file [e] is the [i]-th of [F]; [sz] says what its dinode has for a size. *)
Definition holds (sz : nat -> ofile -> Z) (c : Z -> blk) (F : list ofile) (i : nat) (e : fent) : Prop :=
  exists f, F !! i = Some f /\ fd e = snd f /\ tidy e /\ dslice c (Z.of_nat i + 1) = din e /\ head_ok (fst f) (sz i f) (din e).
Definition plain (_ : nat) (f : ofile) : Z := flen f.
(** The blocks outside the inode blocks that mkfs does not touch before balloc. *)
Definition meta_ok (c : Z -> blk) : Prop := forall b, 0 <= b < nmeta -> b < sb_inodestart sb \/ sb_bmapstart sb <= b -> c b = if b =? 1 then sb_bytes else zeroes.

Record repc (sz : nat -> ofile -> Z) (c : Z -> blk) (fb : Z) (T : list fent) (F : list ofile) : Prop := Repc {
  r_tab : tab_ok c fb T;
  r_len : length T = length F;
  r_files : forall i e, T !! i = Some e -> holds sz c F i e;
  r_meta : meta_ok c;
  r_inodes : Z.of_nat (length F) < INODES
}.
Definition rep (s : mk) (F : list ofile) : Prop :=
  exists c fb T, shows s c (Z.of_nat (length F) + 1) fb /\ repc plain c fb T F.

Definition cost (F : list ofile) : Z := zsum (fun f => wt (flen f)) F.
Definition fits (F : list ofile) : Prop :=
  Z.of_nat (length F) < INODES /\ Forall (fun f => flen f <= MAXFILE * BSIZE) F /\ nmeta + cost F <= FSSIZE.

Lemma repc_cost sz c fb T F : repc sz c fb T F -> fb = nmeta + cost F.
Proof.
  intros [HT Hl Hf _ _]. rewrite (t_fb _ _ _ HT). f_equal. clear HT. unfold cost.
  assert (forall i e, T !! i = Some e -> exists f, F !! i = Some f /\ weight e = wt (flen f)) as Hw.
  { intros i e Hi. destruct (Hf i e Hi) as (f & Ef & Efd & Ht & _). exists f. split; [exact Ef|]. rewrite (weight_tidy e Ht), Efd. reflexivity. }
  clear Hf. revert F Hl Hw. induction T as [|e T IH]; intros [|f F] Hl Hw; try discriminate; [reflexivity|].
  change (weight e + zsum weight T = wt (flen f) + zsum (fun f => wt (flen f)) F).
  destruct (Hw 0%nat e eq_refl) as (f0 & E0 & ->). injection E0 as <-. rewrite (IH F); [reflexivity | cbn in Hl; lia | exact (fun i => Hw (S i))].
Qed.

Lemma get16_fields d d' o : same_fields d d' -> 0 <= o /\ o + 2 <= 24 \/ 72 <= o -> get16 d' o = get16 d o.
Proof. intros H Ho. unfold get16. rewrite !H by lia. reflexivity. Qed.
Lemma get32_fields d d' o : same_fields d d' -> 0 <= o /\ o + 4 <= 24 \/ 72 <= o -> get32 d' o = get32 d o.
Proof. intros H Ho. unfold get32. rewrite !(get16_fields d d') by (assumption || lia). reflexivity. Qed.
Lemma head_resize m n d d' n' : head_ok m n d -> same_fields d d' -> length d' = 80%nat -> in_u 32 n' -> head_ok m n' (put32 d' 20 n').
Proof.
  intros [H1 H2 H3 [H4 H5] H6 H7 [H8 H9]] Hs Hl Hn.
  split; rewrite ?get16_put32_ne, ?get32_put32_ne by lia; rewrite ?(get16_fields d d'), ?(get32_fields d d') by (assumption || lia); try assumption; try tauto.
  rewrite get32_put32 by lia. apply uwrap_id, Hn.
Qed.

(** Writing one dinode, with the blocks of its file as they are. *)
Lemma winode_rep sz s c fb T F i e f d fi :
  shows s c fi fb -> tab_ok c fb T -> length T = length F -> T !! i = Some e -> F !! i = Some f -> Z.of_nat (length F) < INODES -> meta_ok c ->
  (forall j ej, T !! j = Some ej -> j <> i -> holds sz c F j ej) ->
  fd e = snd f -> tidy e -> head_ok (fst f) (sz i f) d -> length d = 80%nat -> (forall k, 0 <= k <= 11 -> addr d k = addr (din e) k) ->
  runs (winode (Z.of_nat i + 1) d) s (fun _ s' => exists c' T', shows s' c' fi fb /\ repc sz c' fb T' F).
Proof.
  intros Hs HT Hl Hi Hf HI Hm Hrest Hfd Ht Hh Hld Ha. pose proof (lookup_lt_Some _ _ _ Hf) as Hlt.
  assert (Z.of_nat i + 1 < INODES) as Hin by lia.
  destruct (iblock_range (Z.of_nat i + 1) ltac:(lia)) as [B1 B2]. set (inum := Z.of_nat i + 1) in *.
  assert (0 <= sb_inodestart sb) by (vm_compute; discriminate). assert (sb_bmapstart sb < nmeta) by (vm_compute; reflexivity). assert (nmeta < FSSIZE) by (vm_compute; reflexivity).
  pose proof (t_len _ _ _ HT (IBLOCK inum sb)) as Hlen. destruct (dip_range inum ltac:(lia)) as [D1 D2]. unfold DINODE in D2.
  unfold winode. apply (runs_step _ _ _ _ _ _ (rsect_Ok _ _ _ _ (IBLOCK inum sb) Hs ltac:(lia))).
  apply (wsect_runs s c fi fb); [exact Hs | lia|]. intros s' Hs'.
  set (v := splice (c (IBLOCK inum sb)) (dip inum) d) in *.
  assert (Z.of_nat (length v) = BSIZE) as Hv by (unfold v; rewrite length_splice by lia; exact Hlen).
  exists (bupd c (IBLOCK inum sb) v), (<[i := Fent d (fn e) (fx e) (fd e)]> T). split; [exact Hs'|].
  assert (forall b, Z.of_nat (length (bupd c (IBLOCK inum sb) v b)) = BSIZE) as Hlens
    by (intros b; unfold bupd; destruct (_ =? _); [exact Hv | apply (t_len _ _ _ HT b)]).
  split.
  - apply (tab_ext c _ fb T); [exact HT | rewrite length_insert; reflexivity | | intros b Hb; apply bupd_ne; lia | exact Hlens].
    intros j e' Hj. destruct (decide (j = i)) as [-> | Hne].
    + rewrite list_lookup_insert_eq in Hj by lia. injection Hj as <-. exists e. split_and!; try reflexivity; assumption.
    + rewrite list_lookup_insert_ne in Hj by congruence. exists e'. split_and!; try reflexivity; [exact Hj | apply (e_len _ _ _ (t_ent _ _ _ HT j e' Hj))].
  - rewrite length_insert. exact Hl.
  - intros j e' Hj. destruct (decide (j = i)) as [-> | Hne].
    + rewrite list_lookup_insert_eq in Hj by lia. injection Hj as <-. exists f. split_and!; try assumption.
      unfold v. fold inum. rewrite dslice_write by (assumption || lia). rewrite Z.eqb_refl. reflexivity.
    + rewrite list_lookup_insert_ne in Hj by congruence. destruct (Hrest j e' Hj Hne) as (f' & F1 & F2 & F3 & F4 & F5).
      pose proof (lookup_lt_Some _ _ _ F1) as Hjl. destruct (iblock_range (Z.of_nat j + 1) ltac:(lia)) as [J1 J2].
      exists f'. split_and!; try assumption. unfold v. rewrite dslice_write; try assumption; try lia; [|apply (t_len _ _ _ HT)].
      rewrite (proj2 (Z.eqb_neq _ _)) by (unfold inum; lia). exact F4.
  - intros b Hb Hout. rewrite bupd_ne by lia. apply Hm; assumption.
  - exact HI.
Qed.

(** ** iappend and ialloc *)

Lemma rinode_Ok s c fi fb inum : shows s c fi fb -> 0 <= inum < INODES -> rinode inum s = Ok (dslice c inum) s.
Proof.
  intros Hs Hi. destruct (iblock_range inum Hi). unfold rinode.
  assert (0 <= sb_inodestart sb) by (vm_compute; discriminate). assert (sb_bmapstart sb < FSSIZE) by (vm_compute; reflexivity).
  rewrite (bind_step _ _ _ _ _ (rsect_Ok _ _ _ _ (IBLOCK inum sb) Hs ltac:(lia))). reflexivity.
Qed.

Lemma holds_meta sz c c' F i e : same_meta c c' -> Z.of_nat (length F) < INODES -> holds sz c F i e -> holds sz c' F i e.
Proof.
  intros Hc HI (f & H1 & H2 & H3 & H4 & H5). exists f. split_and!; try assumption. rewrite <-H4. unfold dslice. f_equal. f_equal. apply Hc.
  pose proof (lookup_lt_Some _ _ _ H1). destruct (iblock_range (Z.of_nat i + 1) ltac:(lia)). assert (sb_bmapstart sb < nmeta) by (vm_compute; reflexivity). lia.
Qed.
Lemma holds_other sz c F i j e f : j <> i -> holds sz c F j e -> holds sz c (<[i := f]> F) j e.
Proof. intros Hne (f' & H1 & H). exists f'. rewrite list_lookup_insert_ne by congruence. split; [exact H1 | exact H]. Qed.

Lemma iappend_rep s F i m d p :
  rep s F -> F !! i = Some (m, d) -> fits (<[i := (m, d ++ p)]> F) ->
  runs (iappend (Z.of_nat i + 1) p) s (fun _ s' => rep s' (<[i := (m, d ++ p)]> F)).
Proof.
  intros (c & fb & T & Hs & HR) Hi (HI & Hmax & Hroom). destruct HR as [HT Hl Hf Hm HI'] eqn:EHR. pose proof (repc_cost plain c fb T F HR) as Hcost. clear HR EHR.
  rewrite length_insert in HI. pose proof (lookup_lt_Some _ _ _ Hi) as Hlt.
  destruct (lookup_lt_is_Some_2 T i) as [e He]; [lia|]. destruct (Hf i e He) as (f & E1 & E2 & E3 & E4 & E5).
  assert (f = (m, d)) as -> by congruence. cbn [fst snd] in *.
  rewrite Forall_lookup in Hmax. specialize (Hmax i (m, d ++ p) ltac:(apply list_lookup_insert_eq; lia)). unfold flen in Hmax. cbn [snd] in Hmax.
  unfold cost in *. rewrite (zsum_insert _ _ _ (m, d)) in Hroom by exact Hi. unfold flen at 2 3 in Hroom. cbn [snd] in Hroom.
  unfold iappend. apply (runs_step _ _ _ _ _ _ (rinode_Ok _ _ _ _ (Z.of_nat i + 1) Hs ltac:(lia))). rewrite E4, (h_size _ _ _ E5). unfold plain, flen. cbn [snd]. rewrite <-E2 in *.
  apply runs_bind. eapply runs_wand.
  { apply (append_loop_runs (length p) p c fb T i e s _ HT He Hs E3); [lia | exact Hmax|]. rewrite (weight_tidy e E3). lia. }
  intros [d' off'] s1 (c1 & fb1 & e1 & [A1 A2 -> -> A5 A6 A7 A8]).
  pose proof (list_lookup_insert_eq T i e1 (lookup_lt_Some _ _ _ He)) as He1.
  assert (in_u 32 (Z.of_nat (length (fd e1)))) as Hu by (rewrite A5; unfold in_u; change (MAXFILE * BSIZE) with 1071104 in Hmax; lia).
  eapply runs_wand.
  { apply (winode_rep plain s1 c1 fb1 (<[i := e1]> T) (<[i := (m, fd e1)]> F) i e1 (m, fd e1)); try eassumption; rewrite ?length_insert; try assumption; try reflexivity.
    - apply list_lookup_insert_eq. lia.
    - intros b Hb Hout. rewrite A7 by lia. apply Hm; assumption.
    - intros j ej Hj Hne. rewrite list_lookup_insert_ne in Hj by congruence. apply holds_other; [exact Hne|]. apply (holds_meta plain c); [exact A7 | exact HI|]. apply Hf, Hj.
    - apply (head_resize m (flen (m, fd e)) (din e)); [exact E5 | exact A8 | apply (e_len _ _ _ (t_ent _ _ _ A2 i e1 He1)) | exact Hu].
    - rewrite length_put32. apply (e_len _ _ _ (t_ent _ _ _ A2 i e1 He1)).
    - intros k Hk. unfold addr. apply get32_put32_ne; lia. }
  intros _ s' (c' & T' & Hs' & HR'). exists c', fb1, T'. rewrite A5 in HR'. split; [|exact HR']. rewrite length_insert. exact Hs'.
Qed.

Lemma new_dinode_ok type : head_ok type 0 (new_dinode now type) /\ length (new_dinode now type) = 80%nat /\ forall k, 0 <= k <= 11 -> addr (new_dinode now type) k = 0.
Proof.
  set (z := replicate (Z.to_nat DINODE) 0). assert (length z = 80%nat) as Hz by reflexivity.
  assert (forall o, get8 z o = 0) as H8 by (intros o; unfold get8, z; destruct (replicate _ _ !! _) eqn:E; [apply lookup_replicate in E as [-> _]|]; reflexivity).
  assert (forall o, get16 z o = 0) as H16 by (intros o; unfold get16; rewrite !H8; reflexivity).
  assert (forall o, get32 z o = 0) as H32 by (intros o; unfold get32; rewrite !H16; reflexivity).
  unfold new_dinode. fold z. split; [|split].
  - split; try split; repeat first [ rewrite get32_put32 by (autorewrite with blk; lia) | rewrite get16_put16 by (autorewrite with blk; lia)
      | rewrite get32_put32_ne by lia | rewrite get16_put32_ne by lia | rewrite get16_put16_ne by lia | rewrite get32_put16_ne by lia ]; rewrite ?H16, ?H32; reflexivity.
  - autorewrite with blk. exact Hz.
  - intros k Hk. unfold addr. rewrite !get32_put32_ne, !get32_put16_ne by lia. apply H32.
Qed.

Lemma ialloc_rep s F type :
  rep s F -> Z.of_nat (length F) + 1 < INODES ->
  runs (ialloc now type) s (fun inum s' => inum = Z.of_nat (length F) + 1 /\ rep s' (F ++ [(type, [])])).
Proof.
  intros (c & fb & T & Hs & [HT Hl Hf Hm HI]) HI1. destruct (new_dinode_ok type) as (Hh & Hd & Ha). unfold ialloc.
  apply runs_bind. eexists _, _. split; [reflexivity|]. apply runs_bind. eexists _, _. split; [reflexivity|]. apply runs_bind.
  rewrite (is_fi _ _ _ _ Hs). set (F' := F ++ [(type, [])]). assert (length F' = S (length F)) as Hl' by (unfold F'; rewrite length_app; cbn; lia).
  eapply runs_wand.
  - apply (winode_rep plain _ c fb (T ++ [Fent (new_dinode now type) 0 false []]) F' (length F) (Fent (new_dinode now type) 0 false []) (type, []) _ (Z.of_nat (length F') + 1)); try reflexivity; try assumption.
    + destruct Hs as [S1 S2 S3 S4]. split; [exact S1 | exact S2 | | exact S4]. cbn. rewrite Hl'. rewrite uwrap_id; [lia|]. unfold in_u. change INODES with 225 in HI1. lia.
    + apply tab_new; assumption.
    + rewrite !length_app. cbn. lia.
    + rewrite <-Hl. apply list_lookup_middle. reflexivity.
    + apply list_lookup_middle. reflexivity.
    + rewrite Hl'. lia.
    + intros j ej Hj Hne. apply lookup_app_Some in Hj as [Hj | [Hge Hj]].
      * destruct (Hf j ej Hj) as (f & F1 & Frest). exists f. split; [|exact Frest]. unfold F'. rewrite lookup_app_l by (apply (lookup_lt_Some _ _ _ F1)). exact F1.
      * apply list_lookup_singleton_Some in Hj as [Hj _]. lia.
    + split; reflexivity.
  - intros _ s' (c' & T' & Hs' & HR'). apply runs_ret. split; [reflexivity|]. exists c', fb, T'. split; assumption.
Qed.
End rep.
