(* ===== verification/MkfsTree.v ===== *)
(** * From the host tree to the image

    The files mkfs makes of a directory, numbered from [n]: the directory first,
    with its dots and one entry per file or directory in it, then the files of each
    entry in turn.  scan_directory builds exactly these, and main an image of
    them. *)
From Stdlib Require Import ZArith Lia.
From stdpp Require Import base numbers list list_numbers gmap strings.
From S2P Require Import Prelude Block Log Locks Fs SysDir FsThm FsFile FsRw Mkfs MkfsBlocks MkfsThm MkfsFiles.
Local Open Scope Z_scope.

(** The entries of a directory and the files below it, the first with number [k];
    [files e k] are the files of [e] numbered from [k]. *)
Definition lay (files : host -> Z -> list ofile) : list (list Z * host) -> Z -> list Z * list ofile :=
  fix lay l k :=
    match l with
    | [] => ([], [])
    | (name, e) :: l =>
        if is_dots name then lay l k
        else
          match files e k with
          | [] => lay l k
          | fs => let '(es, ks) := lay l (k + Z.of_nat (length fs)) in (new_dirent k name ++ es, fs ++ ks)
          end
    end.
Definition dots (n parent : Z) : list Z := new_dirent n dot ++ new_dirent parent dotdot.
Definition entries (h : host) : list (list Z * host) := match h with Host _ _ ents => default [] ents end.

Fixpoint files_of (h : host) (n parent : Z) : list ofile :=
  match h with
  | Host None _ _ => []
  | Host (Some m) bytes ents =>
      if S_ISDIR m then
        let '(es, ks) := match ents with Some l => lay (fun e k => files_of e k n) l (n + 1) | None => ([], []) end in
        (convert_mode m, dots n parent ++ es) :: ks
      else if S_ISREG m then [(convert_mode m, default [] bytes)]
      else []
  end.
(** The whole image: the root directory has a mode of its own. *)
Definition image_files (root : host) : list ofile :=
  let '(es, ks) := lay (fun e k => files_of e k ROOTINO) (entries root) (ROOTINO + 1) in (ROOTMODE, dots ROOTINO ROOTINO ++ es) :: ks.

(** Every directory that is visited can be opened. *)
Fixpoint opens (h : host) : bool :=
  match h with
  | Host _ _ None => false
  | Host _ _ (Some l) =>
      forallb (fun x => is_dots (fst x) || match snd x with Host (Some m) _ _ => negb (S_ISDIR m) || opens (snd x) | _ => true end) l
  end.

Lemma host_nested_ind (P : host -> Prop) :
  (forall m b ents, (forall l, ents = Some l -> forall name e, (name, e) ∈ l -> P e) -> P (Host m b ents)) -> forall h, P h.
Proof.
  intros H. fix IH 1. intros [m b ents]. apply H. destruct ents as [l|]; [|discriminate]. intros l' [= <-].
  induction l as [|[nm e] l IHl]; intros name e' Hin; [inversion Hin|].
  apply elem_of_cons in Hin. destruct Hin as [E | Hin]; [injection E as _ ->; apply IH | exact (IHl name e' Hin)].
Qed.

(** ** Smaller files take less room *)

Definition sub (F G : list ofile) : Prop := exists G1 G2, G = G1 ++ G2 /\ Forall2 (fun f g => flen f <= flen g) F G1.

Lemma cost_nonneg F : 0 <= cost F.
Proof. apply zsum_nonneg. intros i f _. unfold wt, b2z, flen. pose proof (nblk_nonneg (Z.of_nat (length f.2)) ltac:(lia)). destruct (_ <? _); lia. Qed.
Lemma fits_sub F G : sub F G -> fits G -> fits F.
Proof.
  intros (G1 & G2 & -> & H2) (HI & Hm & Hc). pose proof (Forall2_length _ _ _ H2) as El. rewrite length_app in HI.
  apply Forall_app in Hm as [Hm _]. unfold cost in Hc. rewrite zsum_app in Hc. pose proof (cost_nonneg G2) as H0. unfold cost in H0.
  split; [lia|]. assert (Forall (fun f => flen f <= MAXFILE * BSIZE) F /\ cost F <= zsum (fun f => wt (flen f)) G1) as [HF HC].
  - clear - H2 Hm. induction H2 as [|f g F G1 Hfg H2 IH]; [split; [constructor | reflexivity]|]. inversion Hm as [|? ? Hg Hm']; subst. destruct (IH Hm') as [IH1 IH2].
    split; [constructor; [lia | exact IH1]|]. change (wt (flen f) + cost F <= wt (flen g) + zsum (fun f => wt (flen f)) G1). pose proof (wt_mono _ _ Hfg). lia.
  - split; [exact HF | lia].
Qed.
Lemma sub_refl F : sub F F.
Proof. exists F, []. rewrite app_nil_r. split; [reflexivity|]. apply Forall_Forall2_diag, Forall_true. lia. Qed.
Lemma sub_app F K : sub F (F ++ K).
Proof. exists F, K. split; [reflexivity|]. apply Forall_Forall2_diag, Forall_true. lia. Qed.
Lemma sub_trans F G H : sub F G -> sub G H -> sub F H.
Proof.
  intros (G1 & G2 & -> & HF) (H1 & H2 & -> & HG). apply Forall2_app_inv_l in HG as (Ha & Hb & Ea & Eb & ->). exists Ha, (Hb ++ H2).
  rewrite <-app_assoc. split; [reflexivity|]. refine (Forall2_trans _ _ _ _ _ _ _ HF Ea). intros f g h ? ?. lia.
Qed.
Lemma sub_snoc F G K K' : length F = length G -> sub F G -> sub K K' -> sub (F ++ K) (G ++ K').
Proof.
  intros El (G1 & G2 & -> & HF) (K1 & K2 & -> & HK). pose proof (Forall2_length _ _ _ HF) as E. rewrite length_app in El.
  destruct G2; [|cbn in El; lia]. rewrite app_nil_r. exists (G1 ++ K1), K2. rewrite app_assoc. split; [reflexivity|]. apply Forall2_app; assumption.
Qed.
Lemma sub_insert F i m d p : F !! i = Some (m, d) -> sub F (<[i := (m, d ++ p)]> F).
Proof.
  intros Hi. exists (<[i := (m, d ++ p)]> F), []. rewrite app_nil_r. split; [reflexivity|].
  rewrite <-(list_insert_id F i (m, d) Hi) at 1. apply Forall2_insert; [apply Forall_Forall2_diag, Forall_true; lia|]. unfold flen. cbn [snd]. rewrite length_app. lia.
Qed.
Lemma sub_more m d p K : sub [(m, d)] ((m, d ++ p) :: K).
Proof. exists [(m, d ++ p)], K. split; [reflexivity|]. constructor; [|constructor]. unfold flen. cbn [snd]. rewrite length_app. lia. Qed.
Lemma fits_last F m d p : fits (F ++ [(m, d ++ p)]) -> fits (F ++ [(m, d)]).
Proof. apply fits_sub, sub_snoc; [reflexivity | apply sub_refl | apply sub_more]. Qed.
Create HintDb sub discriminated.
#[export] Hint Resolve sub_refl sub_app sub_insert sub_more : sub.

Section tree.
Context (now : Z).
#[local] Abbreviation rep := (rep now).

(** Appending to the last file. *)
Lemma iappend_last s F m d p : rep s (F ++ [(m, d)]) -> fits (F ++ [(m, d ++ p)]) ->
  runs (iappend (Z.of_nat (length F) + 1) p) s (fun _ s' => rep s' (F ++ [(m, d ++ p)])).
Proof.
  intros Hr Hf. assert (<[length F := (m, d ++ p)]> (F ++ [(m, d)]) = F ++ [(m, d ++ p)]) as E by (rewrite insert_app_r_alt, Nat.sub_diag by lia; reflexivity).
  rewrite <-E in Hf |- *. apply (iappend_rep now s (F ++ [(m, d)]) (length F) m d p); [exact Hr | apply list_lookup_middle; reflexivity | exact Hf].
Qed.
Lemma append_file_last fuel : forall bs s F m d, (length bs <= fuel)%nat -> rep s (F ++ [(m, d)]) -> fits (F ++ [(m, d ++ bs)]) ->
  runs (append_file fuel (Z.of_nat (length F) + 1) bs) s (fun _ s' => rep s' (F ++ [(m, d ++ bs)])).
Proof.
  induction fuel as [|fuel IH]; intros bs s F m d Hl Hr Hf; (destruct bs as [|b bs]; [rewrite app_nil_r; apply runs_ret, Hr|]); [cbn in Hl; lia|].
  cbn [append_file]. set (l := b :: bs) in *. apply runs_bind.
  assert (d ++ l = (d ++ take (Z.to_nat BSIZE) l) ++ drop (Z.to_nat BSIZE) l) as E by (rewrite <-app_assoc, take_drop; reflexivity). rewrite E in Hf |- *.
  eapply runs_wand; [apply (iappend_last s F m d); [exact Hr|]|].
  - apply fits_last in Hf. exact Hf.
  - intros [] s1 Hr1. apply IH; [rewrite length_drop; unfold BSIZE; unfold l in *; cbn [length] in *; lia | exact Hr1 | exact Hf].
Qed.
Lemma create_directory_rep s F parent m :
  rep s F -> fits (F ++ [(m, dots (Z.of_nat (length F) + 1) parent)]) ->
  runs (create_directory now parent m) s (fun r s' => r = Z.of_nat (length F) + 1 /\ rep s' (F ++ [(m, dots (Z.of_nat (length F) + 1) parent)])).
Proof.
  intros Hr Hf. unfold create_directory. apply runs_bind. eapply runs_wand.
  { apply (ialloc_rep now s F m Hr). destruct Hf as [HI _]. rewrite length_app in HI. cbn in HI. lia. }
  intros r s1 [-> Hr1]. rewrite (proj2 (Z.eqb_neq _ 0)) by lia. unfold add_dot_entries. apply runs_bind, runs_bind.
  eapply runs_wand; [apply (iappend_last s1 F m [] _ Hr1)|].
  { apply fits_last in Hf. exact Hf. }
  intros [] s2 Hr2. eapply runs_wand; [apply (iappend_last s2 F m _ _ Hr2), Hf|]. intros [] s3 Hr3. apply runs_ret. split; [reflexivity | exact Hr3].
Qed.

(** Appending to a file that is not the last. *)
Lemma iappend_first s F K i m d p : rep s (F ++ K) -> F !! i = Some (m, d) -> fits (<[i := (m, d ++ p)]> F ++ K) ->
  runs (iappend (Z.of_nat i + 1) p) s (fun _ s' => rep s' (<[i := (m, d ++ p)]> F ++ K)).
Proof.
  intros Hr Hi Hf. pose proof (lookup_lt_Some _ _ _ Hi). rewrite <-insert_app_l in Hf |- * by assumption.
  apply (iappend_rep now); [exact Hr | rewrite lookup_app_l by assumption; exact Hi | exact Hf].
Qed.

Definition scan_ok (h : host) : Prop := forall s F i m d es ks,
  rep s F -> F !! i = Some (m, d) -> opens h = true ->
  lay (fun e k => files_of e k (Z.of_nat i + 1)) (entries h) (Z.of_nat (length F) + 1) = (es, ks) ->
  fits (<[i := (m, d ++ es)]> F ++ ks) ->
  runs (scan_directory now h (Z.of_nat i + 1)) s (fun r s' => r = 0 /\ rep s' (<[i := (m, d ++ es)]> F ++ ks)).

(** A directory: its own inode, its entry, and what is below it. *)
Lemma scan_dir e s F i m d mode name es ks :
  scan_ok e -> rep s F -> F !! i = Some (m, d) -> opens e = true ->
  let n := Z.of_nat (length F) + 1 in
  lay (fun e k => files_of e k n) (entries e) (n + 1) = (es, ks) ->
  fits (<[i := (m, d ++ new_dirent n name)]> F ++ (mode, dots n (Z.of_nat i + 1) ++ es) :: ks) ->
  runs (create_directory now (Z.of_nat i + 1) mode) s (fun r s' => r = n /\
    runs (iappend (Z.of_nat i + 1) (new_dirent n name);; scan_directory now e n) s' (fun r s' => r = 0 /\
      rep s' (<[i := (m, d ++ new_dirent n name)]> F ++ (mode, dots n (Z.of_nat i + 1) ++ es) :: ks))).
Proof.
  intros IH Hr Hi Ho n Hlay Hf. set (F' := <[i := (m, d ++ new_dirent n name)]> F) in *. pose proof (lookup_lt_Some _ _ _ Hi) as Hlt.
  assert (length F' = length F) as El by (unfold F'; apply length_insert).
  assert (sub F F') as HFF by (apply sub_insert, Hi).
  assert (fits (F' ++ [(mode, dots n (Z.of_nat i + 1))])) as Hf1.
  { refine (fits_sub _ _ _ Hf). apply sub_snoc; [reflexivity | apply sub_refl | apply sub_more]. }
  eapply runs_wand.
  { apply (create_directory_rep s F (Z.of_nat i + 1) mode Hr). refine (fits_sub _ _ _ Hf1). apply sub_snoc; [lia | exact HFF | apply sub_refl]. }
  intros r s1 [-> Hr1]. split; [reflexivity|]. apply runs_bind. fold n in Hr1. eapply runs_wand; [apply (iappend_first s1 F _ i m d _ Hr1 Hi), Hf1|].
  intros [] s2 Hr2. fold F' in Hr2. replace n with (Z.of_nat (length F') + 1) at 1 by (unfold n; lia).
  assert (forall q, <[length F' := q]> (F' ++ [(mode, dots n (Z.of_nat i + 1))]) ++ ks = F' ++ q :: ks) as Eq.
  { intros q. rewrite insert_app_r_alt, Nat.sub_diag by lia. cbn. rewrite <-app_assoc. reflexivity. }
  eapply runs_wand.
  { apply (IH s2 _ (length F') mode (dots n (Z.of_nat i + 1)) es ks Hr2); [apply list_lookup_middle; reflexivity | exact Ho | | rewrite Eq; exact Hf].
    rewrite length_app, El. cbn [length]. unfold n in Hlay. rewrite <-Hlay. f_equal. lia. }
  intros r s3 [-> Hr3]. rewrite Eq in Hr3. split; [reflexivity | exact Hr3].
Qed.

(** A regular file. *)
Lemma scan_file bytes s F i m d mode name :
  rep s F -> F !! i = Some (m, d) ->
  let n := Z.of_nat (length F) + 1 in
  fits (<[i := (m, d ++ new_dirent n name)]> F ++ [(mode, bytes)]) ->
  runs (ialloc now mode) s (fun r s' => r = n /\
    runs (iappend (Z.of_nat i + 1) (new_dirent n name)) s' (fun _ s' => rep s' (<[i := (m, d ++ new_dirent n name)]> F ++ [(mode, [])])
      /\ runs (append_file (length bytes) n bytes) s' (fun _ s' => rep s' (<[i := (m, d ++ new_dirent n name)]> F ++ [(mode, bytes)])))).
Proof.
  intros Hr Hi n Hf. set (F' := <[i := (m, d ++ new_dirent n name)]> F) in *. assert (length F' = length F) as El by (unfold F'; apply length_insert).
  eapply runs_wand.
  { apply (ialloc_rep now s F mode Hr). destruct Hf as [HI _]. rewrite length_app, El in HI. cbn in HI. lia. }
  intros r s1 [-> Hr1]. split; [reflexivity|]. eapply runs_wand.
  { apply (iappend_first s1 F _ i m d _ Hr1 Hi). apply (fits_last F' mode [] bytes), Hf. }
  intros [] s2 Hr2. fold F' in Hr2. split; [exact Hr2|]. unfold n. rewrite <-El.
  apply (append_file_last (length bytes) bytes s2 F' mode []); [lia | exact Hr2 | exact Hf].
Qed.

Lemma reinsert {A} (F fs ks : list A) i p q : (i < length F)%nat -> <[i := q]> (<[i := p]> F ++ fs) ++ ks = <[i := q]> F ++ fs ++ ks.
Proof. intros Hi. rewrite insert_app_l by (rewrite length_insert; exact Hi). rewrite list_insert_insert_eq, <-app_assoc. reflexivity. Qed.

(** One entry that is copied as the files [fs], and the rest of the directory. *)
Definition entry_ok (ino : Z) (l : list (list Z * host)) : Prop := forall s F i m d es ks,
  ino = Z.of_nat i + 1 -> rep s F -> F !! i = Some (m, d) ->
  lay (fun e k => files_of e k ino) l (Z.of_nat (length F) + 1) = (es, ks) -> fits (<[i := (m, d ++ es)]> F ++ ks) ->
  runs (scan_entries now (scan_directory now) ino l) s (fun r s' => r = 0 /\ rep s' (<[i := (m, d ++ es)]> F ++ ks)).

Lemma scan_rest ino l s F i m d de fs es ks :
  entry_ok ino l -> ino = Z.of_nat i + 1 -> F !! i = Some (m, d) -> rep s (<[i := (m, d ++ de)]> F ++ fs) ->
  lay (fun e k => files_of e k ino) l (Z.of_nat (length F) + 1 + Z.of_nat (length fs)) = (es, ks) ->
  fits (<[i := (m, d ++ de ++ es)]> F ++ fs ++ ks) ->
  runs (scan_entries now (scan_directory now) ino l) s (fun r s' => r = 0 /\ rep s' (<[i := (m, d ++ de ++ es)]> F ++ fs ++ ks)).
Proof.
  intros IH -> Hi Hr Hlay Hf. pose proof (lookup_lt_Some _ _ _ Hi) as Hlt. rewrite <-(reinsert F fs ks i (m, d ++ de)) in Hf |- * by exact Hlt.
  rewrite app_assoc in Hf |- *. apply IH; [reflexivity | exact Hr | | | exact Hf].
  - rewrite lookup_app_l by (rewrite length_insert; exact Hlt). apply list_lookup_insert_eq, Hlt.
  - rewrite <-Hlay. f_equal. rewrite length_app, length_insert. lia.
Qed.

Lemma fits_entry F i (m : Z) d de es fs ks : F !! i = Some (m, d) -> fits (<[i := (m, d ++ de ++ es)]> F ++ fs ++ ks) -> fits (<[i := (m, d ++ de)]> F ++ fs).
Proof.
  intros Hi. pose proof (lookup_lt_Some _ _ _ Hi) as Hlt. apply fits_sub, sub_snoc; [rewrite !length_insert; reflexivity | | apply sub_app].
  rewrite app_assoc. rewrite <-(list_insert_insert_eq F i (m, (d ++ de) ++ es) (m, d ++ de)). apply sub_insert, list_lookup_insert_eq, Hlt.
Qed.

Definition visit_ok (x : list Z * host) : bool :=
  is_dots (fst x) || match snd x with Host (Some m) _ _ => negb (S_ISDIR m) || opens (snd x) | _ => true end.

Lemma scan_entries_ok ino l : (forall name e, (name, e) ∈ l -> scan_ok e) -> forallb visit_ok l = true -> entry_ok ino l.
Proof.
  induction l as [|[name e] l IH]; intros Hsub Ho s F i m d es ks Eino Hr Hi Hlay Hf.
  { injection Hlay as <- <-. rewrite app_nil_r, app_nil_r, list_insert_id by exact Hi. apply runs_ret. split; [reflexivity | exact Hr]. }
  cbn [forallb] in Ho. apply andb_prop in Ho as [Hv Ho]. specialize (IH (fun n x H => Hsub n x (list_elem_of_further _ _ _ H)) Ho).
  pose proof (Hsub name e (list_elem_of_here _ _)) as He. clear Hsub. cbn [scan_entries]. cbn [lay] in Hlay. unfold visit_ok in Hv. cbn [fst snd] in Hv.
  destruct (is_dots name); [exact (IH s F i m d es ks Eino Hr Hi Hlay Hf)|]. destruct e as [[mode|] bytes ents]; [|exact (IH s F i m d es ks Eino Hr Hi Hlay Hf)].
  cbn [files_of] in Hlay. set (n := Z.of_nat (length F) + 1) in *. destruct (S_ISDIR mode) eqn:Hdir.
  - cbn in Hv. destruct ents as [sub|]; [|discriminate]. destruct (lay (fun e k => files_of e k n) sub (n + 1)) as [es1 ks1] eqn:Hl1.
    destruct (lay _ l _) as [es2 ks2] eqn:Hl2 in Hlay. apply pair_equal_spec in Hlay as [<- <-].
    apply runs_bind. eapply runs_wand.
    { rewrite Eino. apply (scan_dir (Host (Some mode) bytes (Some sub)) s F i m d (convert_mode mode) name es1 ks1 He Hr Hi Hv Hl1).
      fold n. rewrite <-Eino. apply (fits_entry F i m d _ es2 _ ks2 Hi). exact Hf. }
    fold n. intros r s1 (-> & Hrun). rewrite (proj2 (Z.eqb_neq n 0)) by (unfold n; lia). rewrite <-Eino in Hrun.
    destruct Hrun as (r & s2 & E2 & -> & Hr2). apply bind_Ok in E2 as (u & s3 & E3 & E4). apply (runs_step _ _ _ _ _ _ E3), (runs_step _ _ _ _ _ _ E4).
    change (0 <? 0) with false. cbv iota.
    apply (scan_rest ino l s2 F i m d _ ((convert_mode mode, dots n ino ++ es1) :: ks1)); assumption.
  - destruct (S_ISREG mode); [|exact (IH s F i m d es ks Eino Hr Hi Hlay Hf)].
    destruct (lay _ l _) as [es2 ks2] eqn:Hl2 in Hlay. apply pair_equal_spec in Hlay as [<- <-]. apply runs_bind. eapply runs_wand.
    { rewrite Eino. apply (scan_file (default [] bytes) s F i m d (convert_mode mode) name Hr Hi). fold n. apply (fits_entry F i m d _ es2 _ ks2 Hi). exact Hf. }
    fold n. intros r s1 (-> & Hrun). rewrite <-Eino in Hrun. apply runs_bind. eapply runs_wand; [exact Hrun|]. intros [] s2 [Hr2 Hrun2].
    destruct bytes as [bs|]; cbn [default from_option id] in *; [apply runs_bind; eapply runs_wand; [exact Hrun2|]; intros [] s3 Hr3|].
    + apply (scan_rest ino l s3 F i m d _ [(convert_mode mode, bs)]); assumption.
    + apply (scan_rest ino l s2 F i m d _ [(convert_mode mode, [])]); assumption.
Qed.

Lemma scan_directory_ok h : scan_ok h.
Proof.
  induction h as [mm b ents IH] using host_nested_ind. intros s F i m d es ks Hr Hi Ho Hlay Hf. destruct ents as [l|]; [|discriminate].
  exact (scan_entries_ok _ l (IH l eq_refl) Ho s F i m d es ks eq_refl Hr Hi Hlay Hf).
Qed.
End tree.
