(* ===== verification/MkfsImage.v ===== *)
(** * mkfs makes the image the kernel expects

    The image of a host directory has the layout, the bitmap and the well-formed
    files that the theorems about the kernel's file system ask for, and readi of
    such a file gives the bytes of the host file. *)
From Stdlib Require Import ZArith Lia.
From stdpp Require Import base numbers list list_numbers gmap strings.
From S2P Require Import Prelude Block Log Locks Fs SysDir FsThm FsFile FsRw Mkfs MkfsBlocks MkfsThm MkfsFiles MkfsTree.
Local Open Scope Z_scope.

(** ** The kernel's view of a file *)

Section view.
Context (c : Z -> blk) (fb : Z) (T : list fent) (HT : tab_ok c fb T) (Hfb : fb <= FSSIZE).
Context (i : nat) (e : fent) (Hi : T !! i = Some e) (Hd : dslice c (Z.of_nat i + 1) = din e).
Context (ip0 : inode).
#[local] Abbreviation ip := (load_inode (c (IBLOCK (Z.of_nat i + 1) sb)) (dip (Z.of_nat i + 1)) ip0).

Lemma get16_din o : 0 <= o -> o + 2 <= DINODE -> get16 (c (IBLOCK (Z.of_nat i + 1) sb)) (dip (Z.of_nat i + 1) + o) = get16 (din e) o.
Proof using Hd.
  intros Ho Hl. destruct (dip_range (Z.of_nat i + 1) ltac:(lia)) as [D _]. rewrite <-Hd. unfold get16, dslice. rewrite !get8_slice by lia. rewrite Z.add_assoc. reflexivity.
Qed.
Lemma get32_din o : 0 <= o -> o + 4 <= DINODE -> get32 (c (IBLOCK (Z.of_nat i + 1) sb)) (dip (Z.of_nat i + 1) + o) = get32 (din e) o.
Proof using Hd. intros Ho Hl. unfold get32. rewrite <-Z.add_assoc, !get16_din by lia. reflexivity. Qed.

Lemma loaded_addr k : 0 <= k <= 11 -> default 0 (addrs ip !! Z.to_nat k) = addr (din e) k.
Proof using Hd.
  intros Hk. cbn [load_inode addrs assign]. change (addrs ip) with (d_addrs (c (IBLOCK (Z.of_nat i + 1) sb)) (dip (Z.of_nat i + 1))). unfold d_addrs.
  rewrite list_lookup_fmap, lookup_seq_lt by (unfold NDIRECT; lia). cbn [fmap option_fmap option_map default from_option id].
  rewrite <-Z.add_assoc, get32_din by (unfold DINODE; lia). unfold addr. f_equal. lia.
Qed.
Lemma loaded_ind : ind ip = addr (din e) 11.
Proof using Hd. apply (loaded_addr 11). lia. Qed.
Lemma loaded_block bn : 0 <= bn < MAXFILE -> fblock c ip bn = slot c (din e) bn.
Proof using Hd.
  intros Hbn. unfold fblock, slot. rewrite loaded_ind, (proj2 (Z.eqb_neq bn MAXFILE)) by lia. change (Z.of_nat NDIRECT) with 11.
  destruct (Z.ltb_spec bn 11); [apply loaded_addr; lia | reflexivity].
Qed.

Lemma loaded_file_ok : (forall b, nmeta <= b < fb -> used sb c b = true) -> file_ok sb c ip.
Proof using HT Hfb Hi Hd.
  intros Hused. destruct (t_ent _ _ _ HT i e Hi) as [E1 E2 E3 E4 E5 E6 E7]. pose proof maxfile_pos as HM.
  assert (forall k, 0 <= k <= MAXFILE -> slot c (din e) k = 0 \/ uses e k = true /\ is_data sb (slot c (din e) k) /\ used sb c (slot c (din e) k) = true) as Hs.
  { intros k Hk. destruct (uses e k) eqn:Hu; [right | left; apply E5; assumption]. specialize (E4 k Hk Hu). split; [reflexivity|]. split; [|apply Hused, E4].
    unfold is_data. change (datastart sb) with nmeta. change (sb_size sb) with FSSIZE. lia. }
  split.
  - reflexivity.
  - rewrite loaded_ind, <-(slot_ind c). destruct (Hs MAXFILE ltac:(lia)) as [-> | (_ & H1 & H2)]; [left; reflexivity | right; split; assumption].
  - intros bn Hbn. rewrite loaded_block by exact Hbn. destruct (Hs bn ltac:(lia)) as [-> | (Hu & H1 & H2)]; [left; reflexivity | right]. split_and!; [exact H1 | exact H2|].
    rewrite loaded_ind. intros E. destruct (fx e) eqn:Hx.
    + destruct (t_inj _ _ _ HT i i e e bn MAXFILE) as [_ ->]; try assumption; lia.
    + pose proof (E5 MAXFILE ltac:(lia) ltac:(rewrite uses_ind; exact Hx)) as E0. rewrite slot_ind in E0. specialize (E4 bn ltac:(lia) Hu).
      assert (0 < nmeta) by (vm_compute; reflexivity). lia.
  - intros bn bn' Hbn Hbn'. rewrite !loaded_block by assumption. intros E Hne.
    destruct (Hs bn ltac:(lia)) as [| (Hu & _)]; [contradiction|]. destruct (Hs bn' ltac:(lia)) as [| (Hu' & _)]; [congruence|].
    apply (t_inj _ _ _ HT i i e e bn bn'); try assumption; lia.
Qed.

Lemma loaded_bytes : frange c ip 0 (Z.of_nat (length (fd e))) = fd e.
Proof using HT Hi Hd.
  pose proof (t_ent _ _ _ HT i e Hi) as He. apply list_eq. intros j. unfold frange. rewrite list_lookup_fmap.
  destruct (decide (j < length (fd e))%nat) as [Hj | Hj]; [|rewrite lookup_seqZ_ge, lookup_ge_None_2 by lia; reflexivity].
  rewrite lookup_seqZ_lt by lia. destruct (lookup_lt_is_Some_2 (fd e) j Hj) as [x Hx]. rewrite Hx. cbn [fmap option_fmap option_map]. f_equal.
  destruct (byte_slot c fb e j x He Hx) as [Hr _]. unfold fbyte. rewrite Z.add_0_l, loaded_block by exact Hr. apply (e_bytes _ _ _ He j x Hx).
Qed.

Lemma loaded_mapped : isize ip <= fn e * BSIZE -> mapped c ip.
Proof using HT Hi Hd.
  intros Hsz. destruct (t_ent _ _ _ HT i e Hi) as [E1 E2 E3 E4 E5 E6 E7]. assert (0 < nmeta) by (vm_compute; reflexivity). split; [unfold BSIZE in *; lia|].
  intros bn H0 Hlt. assert (bn < fn e) by (unfold BSIZE in *; lia). rewrite loaded_block by lia.
  assert (uses e bn = true) as Hu by (rewrite uses_lt by lia; apply Z.ltb_lt; lia). specialize (E4 bn ltac:(lia) Hu). lia.
Qed.
End view.

(** ** The bitmap *)

Lemma length_mark_used n d : length (mark_used n d) = length d.
Proof. induction n as [|n IH]; [reflexivity|]. cbn [mark_used]. unfold set_bit. rewrite length_put8. exact IH. Qed.
Lemma mark_used_bit n j : Z.of_nat n <= BPB -> 0 <= j < BPB -> bit_set (mark_used n zeroes) j = (j <? Z.of_nat n).
Proof.
  intros Hn Hj. induction n as [|n IH]; cbn [mark_used].
  - rewrite (proj2 (Z.ltb_ge _ _)) by lia. rewrite bit_set_testbit. unfold get8, zeroes.
    destruct (replicate _ _ !! _) eqn:E; [apply lookup_replicate in E as [-> _]|]; apply Z.testbit_0_l.
  - rewrite bit_set_set; [|lia | lia | rewrite length_mark_used; reflexivity]. rewrite IH by lia.
    destruct (Z.eqb_spec (Z.of_nat n) j), (Z.ltb_spec j (Z.of_nat n)), (Z.ltb_spec j (Z.of_nat (S n))); cbn [orb]; lia || reflexivity.
Qed.

(** ** main *)

(** The size of the root directory, which main rounds up. *)
Definition final_size (i : nat) (f : ofile) : Z := if decide (i = 0%nat) then (flen f / BSIZE + 1) * BSIZE else flen f.

Lemma final_size_ge i f : flen f <= final_size i f.
Proof. unfold final_size, flen, BSIZE. destruct (decide _); Z.to_euclidean_division_equations; lia. Qed.

Record kernel_file (now : Z) (cur : Z -> blk) (i : nat) (f : ofile) (ip : inode) : Prop := KernelFile {
  kf_ok : file_ok sb cur ip;
  kf_mapped : i <> 0%nat \/ flen f mod BSIZE <> 0 -> mapped cur ip;
  kf_end : forall bn, nblk (flen f) <= bn < MAXFILE -> fblock cur ip bn = 0;
  kf_bytes : frange cur ip 0 (flen f) = snd f;
  kf_size : isize ip = final_size i f;
  kf_mode : mode ip = i16 (fst f);
  kf_fields : nlink ip = 1 /\ iuid ip = 0 /\ igid ip = 0 /\ major ip = 0 /\ minor ip = 0 /\ lmtime ip = u32 now /\ ctime ip = u32 now
}.
Record kernel_image (now : Z) (cur : Z -> blk) (F : list ofile) : Prop := KernelImage {
  ki_sb : decode_sb (cur 1) = sb;
  ki_layout : layout sb (sb_logstart sb);
  ki_log : cur (sb_logstart sb) = zeroes;
  ki_len : forall b, Z.of_nat (length (cur b)) = BSIZE;
  ki_used : forall b, 0 <= b < FSSIZE -> used sb cur b = (b <? nmeta + cost F);
  ki_files : forall i f ip0, F !! i = Some f ->
    kernel_file now cur i f (load_inode (cur (IBLOCK (Z.of_nat i + 1) sb)) (dip (Z.of_nat i + 1)) ip0)
}.

Section main.
Context (now : Z).

(** A file of the image, loaded by the kernel. *)
Lemma file_view c fb T i e f ip0 :
  tab_ok c fb T -> fb <= FSSIZE -> T !! i = Some e -> fd e = snd f -> tidy e -> dslice c (Z.of_nat i + 1) = din e ->
  head_ok now (fst f) (final_size i f) (din e) -> (forall b, nmeta <= b < fb -> used sb c b = true) ->
  kernel_file now c i f (load_inode (c (IBLOCK (Z.of_nat i + 1) sb)) (dip (Z.of_nat i + 1)) ip0).
Proof.
  intros HT Hfb Hi Hfd [Hn _] Hd [H1 H2 H3 [H4 H5] H6 H7 [H8 H9]] Hused. pose proof (e_size _ _ _ (t_ent _ _ _ HT i e Hi)) as Hsz.
  set (ip := load_inode _ _ ip0).
  assert (isize ip = final_size i f) as Esz by (rewrite <-H7; apply (get32_din c i e Hd); unfold DINODE; lia).
  assert (forall o, 0 <= o -> o + 2 <= DINODE -> get16 (c (IBLOCK (Z.of_nat i + 1) sb)) (dip (Z.of_nat i + 1) + o) = get16 (din e) o) as H16 by (apply get16_din, Hd).
  assert (forall o, 0 <= o -> o + 4 <= DINODE -> get32 (c (IBLOCK (Z.of_nat i + 1) sb)) (dip (Z.of_nat i + 1) + o) = get32 (din e) o) as H32 by (apply get32_din, Hd).
  unfold DINODE in H16, H32. split.
  - apply (loaded_file_ok c fb T HT Hfb i e Hi Hd ip0 Hused).
  - intros Hcase. apply (loaded_mapped c fb T HT i e Hi Hd ip0). fold ip. rewrite Esz. unfold final_size, flen in *. rewrite <-Hfd in *.
    destruct (decide (i = 0%nat)); [|exact Hsz]. destruct Hcase as [|Hmod]; [contradiction|]. rewrite Hn. unfold nblk, BSIZE in *. Z.to_euclidean_division_equations; lia.
  - intros bn Hbn. assert (0 <= bn) by (pose proof (nblk_nonneg (flen f) ltac:(unfold flen; lia)); lia). unfold ip. rewrite (loaded_block c i e Hd ip0) by lia.
    apply (e_free _ _ _ (t_ent _ _ _ HT i e Hi)); [lia|]. rewrite uses_lt, Hn, Hfd by lia. apply Z.ltb_ge. unfold flen in Hbn. lia.
  - unfold flen. rewrite <-Hfd. apply (loaded_bytes c fb T HT i e Hi Hd ip0).
  - exact Esz.
  - change (mode ip) with (i16 (get16 (c (IBLOCK (Z.of_nat i + 1) sb)) (dip (Z.of_nat i + 1)))). specialize (H16 0). rewrite Z.add_0_r in H16. rewrite H16, H1 by lia. apply swrap_uwrap.
  - cbn [ip load_inode nlink iuid igid major minor lmtime ctime assign]. unfold d_nlink, d_uid, d_gid, d_major, d_minor, d_lmtime, d_ctime.
    rewrite !H16, !H32 by lia. rewrite H2, H3, H4, H5, H6, H8, H9. split_and!; reflexivity.
Qed.

Lemma wipe_runs n s : Z.of_nat n <= FSSIZE -> runs (wipe n) s (fun _ s' =>
  (forall b, 0 <= b < Z.of_nat n -> img s' !! b = Some zeroes) /\ (forall b, disk s b = zeroes -> disk s' b = zeroes) /\ freeinode s' = freeinode s /\ freeblock s' = freeblock s).
Proof.
  induction n as [|n IH]; intros Hn; cbn [wipe]; [apply runs_ret; split_and!; [lia | auto | reflexivity | reflexivity]|].
  apply runs_bind. eapply runs_wand; [apply IH; lia|]. intros [] s1 (H1 & H2 & H3 & H4). eexists _, _. split; [reflexivity|].
  unfold disk in *. cbn. rewrite sect_id by lia. split_and!; [| |exact H3 | exact H4].
  - intros b Hb. destruct (decide (b = Z.of_nat n)) as [-> | Hne]; [apply lookup_insert_eq|]. rewrite lookup_insert_ne by congruence. apply H1. lia.
  - intros b Hb. destruct (decide (b = Z.of_nat n)) as [-> | Hne]; [rewrite lookup_insert_eq; reflexivity|]. rewrite lookup_insert_ne by congruence. apply H2, Hb.
Qed.

(** An image without files. *)
Lemma empty_rep s : shows s (bupd (fun _ => zeroes) 1 sb_bytes) 1 nmeta -> rep now s [].
Proof.
  intros Hs. exists (bupd (fun _ => zeroes) 1 sb_bytes), nmeta, []. split; [exact Hs|].
  assert (forall b, Z.of_nat (length (bupd (fun _ => zeroes) 1 sb_bytes b)) = BSIZE) as Hl by (intros b; unfold bupd; destruct (b =? 1); reflexivity).
  split; try discriminate; try reflexivity.
  - split; try discriminate; [intros; apply Hl | | reflexivity]. intros b Hb. rewrite bupd_ne; [reflexivity|]. intros ->. destruct Hb as [Hb _]. revert Hb. vm_compute. congruence.
  - intros b Hb _. unfold bupd. reflexivity.
Qed.

Lemma fix_root_rep s F m d : rep now s ((m, d) :: F) -> flen (m, d) <= MAXFILE * BSIZE ->
  runs (fix_root_size ROOTINO) s (fun _ s' => exists c fb T, shows s' c (Z.of_nat (length ((m, d) :: F)) + 1) fb /\ repc now final_size c fb T ((m, d) :: F)).
Proof.
  intros (c & fb & T & Hs & [HT Hl Hf Hm HI]) Hmax. destruct T as [|e T]; [discriminate|]. destruct (Hf 0%nat e eq_refl) as (f & E1 & E2 & E3 & E4 & E5).
  injection E1 as <-. unfold fix_root_size. change ROOTINO with (Z.of_nat 0 + 1). apply (runs_step _ _ _ _ _ _ (rinode_Ok _ _ _ _ (Z.of_nat 0 + 1) Hs ltac:(vm_compute; split; [discriminate | reflexivity]))).
  cbv zeta. rewrite E4, (h_size _ _ _ _ E5). unfold plain.
  change (MAXFILE * BSIZE) with 1071104 in Hmax. assert (in_u 32 ((flen (m, d) / BSIZE + 1) * BSIZE)) as Hu.
  { unfold in_u, flen, BSIZE in *. Z.to_euclidean_division_equations; lia. }
  rewrite (uwrap_id _ _ Hu). pose proof (e_len _ _ _ (t_ent _ _ _ HT 0%nat e eq_refl)) as Hld.
  eapply runs_wand.
  { apply (winode_rep now final_size s c fb (e :: T) ((m, d) :: F) 0 e (m, d)); try eassumption; try reflexivity.
    - intros j ej Hj Hne. destruct (Hf j ej Hj) as (f & A1 & A2 & A3 & A4 & A5). exists f. split_and!; try assumption.
      unfold final_size. destruct (decide (j = 0%nat)); [congruence | exact A5].
    - apply (head_resize now m (flen (m, d)) (din e)); [exact E5 | intros j _; reflexivity | exact Hld | exact Hu].
    - rewrite length_put32. exact Hld.
    - intros k Hk. unfold addr. apply get32_put32_ne; lia. }
  intros [] s' (c' & T' & Hs' & HR). exists c', fb, T'. split; assumption.
Qed.

(** The bitmap is the last thing written. *)
Lemma balloc_image s c fb T F : shows s c (Z.of_nat (length F) + 1) fb -> repc now final_size c fb T F -> fb < BPB ->
  runs (balloc (i32 fb)) s (fun _ s' => kernel_image now (disk s') F).
Proof.
  intros Hs HR Hfb. pose proof (repc_cost _ _ _ _ _ _ HR) as Hcost. destruct HR as [HT Hl Hf Hm HI]. pose proof (fb_low _ _ _ HT) as Hlow.
  change BPB with 16384 in *. assert (nmeta = 45) as En by reflexivity. rewrite swrap_id by (unfold in_s; lia). unfold balloc. change (BSIZE * 8) with 16384.
  rewrite (proj2 (Z.leb_gt _ _)) by lia. change (sb_bmapstart sb) with 41.
  apply (wsect_runs s c (Z.of_nat (length F) + 1) fb); [exact Hs | unfold FSSIZE; lia|]. intros s' Hs'. set (v := mark_used (Z.to_nat fb) zeroes) in *. set (c' := bupd c 41 v) in *.
  assert (Z.of_nat (length v) = BSIZE) as Hv by (unfold v; rewrite length_mark_used; reflexivity).
  assert (forall b, disk s' b = c' b) as Hdisk by (apply (is_disk _ _ _ _ Hs')).
  assert (forall b, Z.of_nat (length (disk s' b)) = BSIZE) as Hlen
    by (intros b; rewrite Hdisk; unfold c', bupd; destruct (b =? 41); [exact Hv | apply (t_len _ _ _ HT b)]).
  assert (tab_ok (disk s') fb T) as HT'.
  { apply (tab_ext c _ fb T T HT eq_refl); [apply (same_files_refl c fb T HT) | | exact Hlen]. intros b Hb. rewrite Hdisk. apply bupd_ne. lia. }
  assert (forall b, 0 <= b < FSSIZE -> used sb (disk s') b = (b <? fb)) as Hused.
  { intros b Hb. unfold used, BBLOCK. change (sb_bmapstart sb) with 41. change BPB with 16384. unfold FSSIZE in Hb. rewrite Hdisk. unfold c', bupd.
    destruct (Z.eqb_spec (b / 16384 + 41) 41) as [E | E].
    - assert (b mod 16384 = b) as -> by (Z.to_euclidean_division_equations; lia). unfold v. rewrite mark_used_bit by (change BPB with 16384; Z.to_euclidean_division_equations; lia). f_equal. lia.
    - rewrite Hm by (change (sb_bmapstart sb) with 41; Z.to_euclidean_division_equations; lia).
      rewrite (proj2 (Z.eqb_neq _ 1)) by (Z.to_euclidean_division_equations; lia). change zeroes with (mark_used 0 zeroes).
      rewrite mark_used_bit by (change BPB with 16384; cbn; Z.to_euclidean_division_equations; lia).
      rewrite !(proj2 (Z.ltb_ge _ _)) by (cbn; Z.to_euclidean_division_equations; lia). reflexivity. }
  split; [| | | exact Hlen | rewrite <-Hcost; exact Hused |].
  - rewrite Hdisk. unfold c'. rewrite bupd_ne, Hm by (vm_compute; intuition congruence). vm_compute. reflexivity.
  - split; vm_compute; intuition congruence.
  - rewrite Hdisk. unfold c'. rewrite bupd_ne, Hm by (vm_compute; intuition congruence). reflexivity.
  - intros i f ip0 Hi. pose proof (lookup_lt_Some _ _ _ Hi) as Hlt. destruct (lookup_lt_is_Some_2 T i) as [e He]; [lia|].
    destruct (Hf i e He) as (f' & E1 & E2 & E3 & E4 & E5). assert (f' = f) as -> by congruence.
    apply (file_view (disk s') fb T i e f ip0); try assumption; [unfold FSSIZE; lia | | intros b Hb; rewrite Hused by (unfold FSSIZE; lia); apply Z.ltb_lt; lia].
    rewrite <-E4. unfold dslice. rewrite Hdisk. unfold c'. rewrite bupd_ne; [reflexivity|]. destruct (iblock_range (Z.of_nat i + 1) ltac:(lia)) as [_ Hr]. change (sb_bmapstart sb) with 41 in Hr. lia.
Qed.
End main.

(** A root directory that fills its blocks ends in a block that is not there. *)
Lemma root_hole now cur f ip : kernel_file now cur 0 f ip -> flen f mod BSIZE = 0 -> flen f < MAXFILE * BSIZE -> ~ mapped cur ip.
Proof.
  intros HK Hm Hmax [_ HM]. assert (0 <= flen f) by (unfold flen; lia). pose proof (kf_size _ _ _ _ _ HK) as Hsz. unfold final_size in Hsz. destruct (decide _); [|congruence].
  apply (HM (flen f / BSIZE)); [apply Z.div_pos; unfold BSIZE; lia | rewrite Hsz; unfold BSIZE; lia|].
  apply (kf_end _ _ _ _ _ HK). rewrite maxfile_pos in *. unfold nblk, BSIZE in *. Z.to_euclidean_division_equations; lia.
Qed.

Lemma mkfs_main now root :
  opens root = true -> fits (image_files root) -> nmeta + cost (image_files root) < BPB ->
  runs (main now root) mk0 (fun _ s => kernel_image now (disk s) (image_files root)).
Proof.
  intros Ho Hf Hb. unfold image_files in *. destruct (lay _ (entries root) _) as [es ks] eqn:Hlay.
  unfold main. apply runs_bind. eexists _, _. split; [reflexivity|]. apply runs_bind. eapply runs_wand; [apply wipe_runs; vm_compute; discriminate|].
  intros [] s1 (W1 & W2 & W3 & W4). cbn in W3, W4. apply runs_bind. apply (wsect_runs s1 (fun _ => zeroes) 1 nmeta).
  { split; [|intros b; apply W2; reflexivity | exact W3 | exact W4]. intros b Hb'. apply W1. exact Hb'. }
  { unfold FSSIZE. lia. }
  intros s2 Hs2. pose proof (empty_rep now s2 Hs2) as Hr2. apply runs_bind.
  eapply runs_wand; [apply (ialloc_rep now s2 [] ROOTMODE Hr2); vm_compute; reflexivity|]. intros r s3 [-> Hr3].
  cbn [length Z.of_nat app] in *. change (0 + 1) with 1. change (negb (1 =? ROOTINO)) with false. cbv iota.
  unfold add_dot_entries. apply runs_bind, runs_bind. change 1 with (Z.of_nat (length (@nil ofile)) + 1) at 1.
  assert (fits [(ROOTMODE, dots ROOTINO ROOTINO)]) as Hfd by (refine (fits_sub _ _ _ Hf); apply sub_more).
  eapply runs_wand; [apply (iappend_last now s3 [] ROOTMODE [] _ Hr3); apply (fits_last [] ROOTMODE _ (new_dirent ROOTINO dotdot)), Hfd|].
  intros [] s4 Hr4. change 1 with (Z.of_nat (length (@nil ofile)) + 1) at 1. eapply runs_wand; [apply (iappend_last now s4 [] ROOTMODE _ _ Hr4), Hfd|].
  intros [] s5 Hr5. apply runs_bind. change 1 with (Z.of_nat 0 + 1). eapply runs_wand.
  { apply (scan_directory_ok now root s5 _ 0%nat ROOTMODE (dots ROOTINO ROOTINO) es ks Hr5 eq_refl Ho Hlay Hf). }
  intros r s6 [-> Hr6]. change (0 <? 0) with false. cbv iota. cbn [list_insert insert app] in Hr6. apply runs_bind.
  assert (flen (ROOTMODE, dots ROOTINO ROOTINO ++ es) <= MAXFILE * BSIZE) as Hmax by (destruct Hf as (_ & Hm & _); inversion Hm; assumption).
  eapply runs_wand; [apply (fix_root_rep now s6 ks ROOTMODE _ Hr6 Hmax)|]. intros [] s7 (c & fb & T & Hs7 & HR).
  apply runs_bind. eexists _, _. split; [reflexivity|]. rewrite (is_fb _ _ _ _ Hs7). apply (balloc_image now s7 c fb T); [exact Hs7 | exact HR|].
  rewrite (repc_cost _ _ _ _ _ _ HR). exact Hb.
Qed.
