(* ===== verification/MkfsBoot.v ===== *)
(** * From mkfs to the running kernel

    The kernel boots on an image mkfs wrote: recovery finds no transaction, and
    reading a file of the image gives the bytes of the host file. *)
From Stdlib Require Import ZArith Lia.
From stdpp Require Import base numbers list list_numbers gmap strings.
From S2P Require Import Prelude Locks Block Bio BioThm Log LogThm LogBio Fs FsView FsThm FsFile FsRw FsRun SysDir Mkfs MkfsBlocks MkfsThm MkfsFiles MkfsTree MkfsImage.
Local Open Scope Z_scope.

(** The modes mkfs gives are never those of a device. *)
Lemma convert_mode_file m : Z.land (convert_mode m) S_IFCHR = 0.
Proof.
  assert (forall l x, Z.testbit x 13 = false -> Forall (fun b => Z.testbit b 13 = false) l ->
    Z.testbit (foldl (fun a b => if nz (Z.land m b) then Z.lor a b else a) x l) 13 = false) as Hl.
  { induction l as [|b l IH]; intros x Hx Hall; [exact Hx|]. inversion Hall; subst. cbn [foldl]. apply IH; [|assumption].
    destruct (nz _); [rewrite Z.lor_spec, Hx; assumption | exact Hx]. }
  assert (Z.testbit (convert_mode m) 13 = false) as H13.
  { apply Hl; [destruct (S_ISDIR m), (S_ISREG m); reflexivity | repeat constructor]. }
  apply Z.bits_inj'. intros j Hj. rewrite Z.land_spec, Z.bits_0. destruct (decide (j = 13)) as [-> | Hne]; [rewrite H13; reflexivity|].
  change S_IFCHR with (2 ^ 13). rewrite Z.pow2_bits_false by lia. apply andb_false_r.
Qed.

Lemma files_of_file h : forall n p f, f ∈ files_of h n p -> Z.land (fst f) S_IFCHR = 0.
Proof.
  induction h as [m b ents IH] using host_nested_ind. intros n p f. destruct m as [m|]; [|intros H; inversion H]. cbn [files_of].
  destruct (S_ISDIR m).
  - assert (forall l k es ks, (forall name e, (name, e) ∈ l -> forall n p f, f ∈ files_of e n p -> Z.land (fst f) S_IFCHR = 0) ->
      lay (fun e k => files_of e k n) l k = (es, ks) -> forall f, f ∈ ks -> Z.land (fst f) S_IFCHR = 0) as Hlay.
    { clear. induction l as [|[name e] l IHl]; intros k es ks Hs E f Hf; cbn [lay] in E; [injection E as _ <-; inversion Hf|].
      assert (forall nm e, (nm, e) ∈ l -> forall n p f, f ∈ files_of e n p -> Z.land (fst f) S_IFCHR = 0) as Hs' by (intros nm x Hx; apply (Hs nm x); right; exact Hx).
      destruct (is_dots name); [exact (IHl _ _ _ Hs' E f Hf)|]. destruct (files_of e k n) as [|g fs] eqn:Ef; [exact (IHl _ _ _ Hs' E f Hf)|].
      destruct (lay _ l _) as [es2 ks2] eqn:E2 in E. apply pair_equal_spec in E as [_ <-]. apply elem_of_app in Hf as [Hf | Hf].
      - apply (Hs name e (list_elem_of_here _ _) k n f). rewrite Ef. exact Hf.
      - exact (IHl _ _ _ Hs' E2 f Hf). }
    destruct ents as [l|]; [destruct (lay _ l _) as [es ks] eqn:E|]; intros [-> | Hf]%elem_of_cons; try apply convert_mode_file.
    + exact (Hlay l _ es ks (IH l eq_refl) E f Hf).
    + inversion Hf.
  - destruct (S_ISREG m); [intros ->%list_elem_of_singleton; apply convert_mode_file | intros H; inversion H].
Qed.

Lemma i16_file m : Z.land m S_IFCHR = 0 -> Z.land (i16 m) S_IFCHR = 0.
Proof.
  intros H. assert (Z.testbit m 13 = false) as H13.
  { assert (Z.testbit (Z.land m S_IFCHR) 13 = false) as E by (rewrite H; reflexivity). rewrite Z.land_spec in E. apply andb_false_iff in E as [E | E]; [exact E | discriminate]. }
  apply Z.bits_inj'. intros j Hj. rewrite Z.land_spec, Z.bits_0. destruct (decide (j = 13)) as [-> | Hne].
  - assert (Z.testbit (u16 (i16 m)) 13 = Z.testbit (u16 m) 13) as E by (rewrite uwrap_swrap; reflexivity).
    rewrite !uwrap_testbit in E by lia. change (13 <? 16) with true in E. cbn [andb] in E. rewrite E, H13. reflexivity.
  - change S_IFCHR with (2 ^ 13). rewrite Z.pow2_bits_false by lia. apply andb_false_r.
Qed.

Lemma image_file root f : f ∈ image_files root -> Z.land (fst f) S_IFCHR = 0.
Proof.
  unfold image_files. intros Hf. destruct (lay _ (entries root) _) as [es ks] eqn:E. apply elem_of_cons in Hf as [-> | Hf]; [reflexivity|].
  assert (f ∈ files_of (Host (Some 16384) None (Some (entries root))) ROOTINO ROOTINO) as Hin.
  { cbn [files_of]. change (S_ISDIR 16384) with true. cbv iota. rewrite E. right. exact Hf. }
  exact (files_of_file _ _ _ _ Hin).
Qed.

(** What the kernel sees of a file does not depend on the blocks of the log. *)
Lemma kernel_file_home now cur cur' i f ip :
  (forall b, home (sb_logstart sb) b -> cur' b = cur b) -> kernel_file now cur i f ip -> (i <> 0%nat \/ flen f mod BSIZE <> 0) ->
  file_ok sb cur' ip /\ mapped cur' ip /\ frange cur' ip 0 (flen f) = snd f.
Proof.
  intros Hc [HF HM _ HB HS _ _] Hcase. specialize (HM Hcase).
  assert (forall b, nmeta - 4 <= b -> cur' b = cur b) as Hhigh by (intros b Hb; apply Hc; unfold home; change (sb_logstart sb) with 2; change nmeta with 45 in Hb; unfold LOGSIZE, MAXOPBLOCKS; lia).
  assert (forall b, is_data sb b -> cur' b = cur b) as Hdata by (intros b [Hb _]; apply Hhigh; change (datastart sb) with 45 in Hb; change nmeta with 45; lia).
  assert (forall b, 0 <= b -> used sb cur' b = used sb cur b) as Hused.
  { intros b Hb. unfold used, BBLOCK. rewrite Hhigh; [reflexivity|]. change nmeta with 45. change (sb_bmapstart sb) with 41. change BPB with 16384. Z.to_euclidean_division_equations; lia. }
  assert (forall bn, fblock cur' ip bn = fblock cur ip bn) as Hfb.
  { intros bn. apply fblock_ext; [reflexivity|]. intros Hne. apply Hdata. destruct (fo_ind _ _ _ HF) as [E | [E _]]; [contradiction | exact E]. }
  assert (forall b, is_data sb b -> 0 <= b) as Hpos by (intros b [Hb _]; change (datastart sb) with 45 in Hb; lia).
  split; [|split].
  - destruct HF as [F1 F2 F3 F4]. split; [exact F1 | | |].
    + destruct F2 as [E | [E1 E2]]; [left; exact E | right; split; [exact E1 | rewrite Hused by (apply Hpos, E1); exact E2]].
    + intros bn Hbn. rewrite Hfb. destruct (F3 bn Hbn) as [E | (E1 & E2 & E3)]; [left; exact E | right]. rewrite Hused by (apply Hpos, E1). split_and!; assumption.
    + intros bn bn' Hbn Hbn'. rewrite !Hfb. apply F4; assumption.
  - destruct HM as [M1 M2]. split; [exact M1|]. intros bn H0 Hlt. rewrite Hfb. apply M2; assumption.
  - rewrite <-HB. apply list_fmap_ext. intros j o Ho. apply lookup_seqZ in Ho as [-> Ho]. unfold fbyte. rewrite Hfb.
    assert (flen f <= isize ip) as Hle by (rewrite HS; apply final_size_ge).
    destruct (block_bound (0 + Z.of_nat j) (isize ip)) as [Hr Hm]; [lia | lia | apply HM|].
    rewrite Hdata; [reflexivity|]. destruct (fo_blocks _ _ _ HF _ Hr) as [E | (E & _)]; [exfalso; exact (proj2 HM _ (proj1 Hr) Hm E) | exact E].
Qed.

Section boot.
Context {C : Type} `{HBC : BufCache C} {HL : BufCacheLaws C} (devsw : Z -> devops (C := C)).

(** The state after the boot and begin_op, with what the log shows of the disk. *)
Lemma boot_sees now cur F : kernel_image now cur F ->
  exists (l : log C) cur', (init_log ROOTDEV;; begin_op) (boot_log cur) = Ok tt l
    /\ sees (sb_logstart sb) l cur' ∅ ∅ /\ forall b, home (sb_logstart sb) b -> cur' b = cur b.
Proof.
  intros [K1 K2 K3 K4 K5 K6]. destruct (begin_txn (C := C) (sb_logstart sb) 30 cur) as (l & c & E & HT & Hi & Hc & H1 & H2 & H3 & _).
  { exact K4. } { rewrite K3. vm_compute. reflexivity. } { vm_compute. intuition congruence. } { vm_compute. discriminate. }
  { unfold says. rewrite K1. split; reflexivity. }
  assert (cpin c = ∅) as Hp by (apply set_eq; intros b; rewrite (tx_pin _ _ _ HT); set_solver).
  exists l, (ccur c). split; [exact E|]. split; [|intros b Hb; apply Hc, Hb]. split.
  - exists c, []. split_and!; [exact HT | reflexivity | exact Hi | exact Hp|]. intros b _. right.
    apply (crep_clean (bc l)); [exact (tx_rep _ _ _ HT) | apply idle_held, Hi | rewrite Hp; set_solver].
  - cbn. rewrite size_empty. lia.
  - lia.
  - exact H2.
  - exact H1.
Qed.

(** C10. End to end: an image that mkfs made of a directory tree boots, and readi of
    the whole of any file of the tree (and of the root directory, unless its size is
    a multiple of the block size) returns exactly the bytes of the host file; for a
    directory, its entries. *)
Theorem mkfs_boot_read now root CK PID CWD :
  opens root = true -> fits (image_files root) -> nmeta + cost (image_files root) < BPB ->
  exists s l, main now root mk0 = Ok tt s /\ (init_log ROOTDEV;; begin_op) (boot_log (disk s)) = Ok tt l
    /\ forall i f ip0 ins n, image_files root !! i = Some f -> i <> 0%nat \/ flen f mod BSIZE <> 0 -> idev ip0 = ROOTDEV ->
       ins !! n = Some (load_inode (disk s (IBLOCK (Z.of_nat i + 1) sb)) (dip (Z.of_nat i + 1)) ip0) ->
       exists l', readi devsw n 0 (flen f) (F sb CK PID CWD l ins) = Ok (flen f, snd f) (F sb CK PID CWD l' ins).
Proof.
  intros Ho Hf Hb. destruct (mkfs_main now root Ho Hf Hb) as ([] & s & E & HK).
  destruct (boot_sees now (disk s) _ HK) as (l & cur & El & HS & Hc). exists s, l. split; [exact E|]. split; [exact El|].
  intros i f ip0 ins n Hi Hcase Hdev Hn. pose proof (ki_files _ _ _ HK i f ip0 Hi) as Hk. set (ip := load_inode _ _ ip0) in *.
  destruct (kernel_file_home now (disk s) cur i f ip Hc Hk Hcase) as (HF & HM & HB).
  assert (flen f <= isize ip) as Hle by (rewrite (kf_size _ _ _ _ _ Hk); apply final_size_ge).
  destruct HM as [M1 M2]. change (MAXFILE * BSIZE) with 1071104 in M1. assert (0 <= flen f) by (unfold flen; lia).
  assert (is_file ip) as Hfile by (unfold is_file; rewrite (kf_mode _ _ _ _ _ Hk); apply i16_file, (image_file root), (list_elem_of_lookup_2 _ _ _ Hi)).
  assert (idev ip = ROOTDEV) as Hdev' by exact Hdev.
  destruct (readi_runs sb (sb_logstart sb) CK PID CWD (ki_layout _ _ _ HK) devsw n ip cur ins ∅ l 0 (flen f) HF (conj M1 M2) Hdev' Hfile Hn HS)
    as (r & s' & E' & -> & l' & -> & _); [lia | lia | lia|].
  exists l'. rewrite Z.sub_0_r, Z.min_l in E' by lia. rewrite E', HB. reflexivity.
Qed.
End boot.

(** C9. mkfs on a directory tree whose files fit (at most 224 inodes, each file within
    the reach of the indirect block, all blocks in the first bitmap block) succeeds.
    The image has the superblock, the layout and the empty log the kernel expects;
    the bitmap marks exactly the blocks in use; and for each file of the tree, in
    preorder, the inode is well formed, has the mode and the bytes of the host file,
    and shares no block with another.  The size of the root is rounded up, beyond its
    last block when it was a multiple of the block size. *)
Theorem mkfs_correct now root :
  opens root = true -> fits (image_files root) -> nmeta + cost (image_files root) < BPB ->
  exists s, main now root mk0 = Ok tt s /\ kernel_image now (disk s) (image_files root).
Proof. intros Ho Hf Hb. destruct (mkfs_main now root Ho Hf Hb) as ([] & s & E & HK). exists s. split; assumption. Qed.

(** ** A tree *)

(** A file, a directory with a program of two blocks, and a device that is skipped. *)
Definition tree0 : host :=
  Host (Some 16877) None (Some
    [ (dot, Host None None None);
      ([109; 111; 116; 100], Host (Some 33188) (Some hello) None);
      ([98; 105; 110], Host (Some 16877) None (Some [([115; 104], Host (Some 33261) (Some (replicate 3000 7)) None)]));
      ([116; 116; 121], Host (Some 8630) None None) ]).

Lemma tree0_ok : opens tree0 = true /\ fits (image_files tree0) /\ nmeta + cost (image_files tree0) < BPB.
Proof.
  split; [reflexivity|]. split; [|vm_compute; reflexivity]. split; [vm_compute; reflexivity|].
  split; [|vm_compute; discriminate]. apply Forall_forall. intros f Hf. vm_compute in Hf.
  repeat (apply elem_of_cons in Hf as [-> | Hf]; [vm_compute; discriminate|]). inversion Hf.
Qed.

Lemma mkfs_correct_witness : exists s, main 7 tree0 mk0 = Ok tt s
  /\ used sb (disk s) 49 = true /\ used sb (disk s) 50 = false /\ image_files tree0 !! 1%nat = Some (33188, hello).
Proof.
  destruct tree0_ok as (Ho & Hf & Hb). destruct (mkfs_correct 7 tree0 Ho Hf Hb) as (s & E & HK). exists s. split; [exact E|].
  rewrite !(ki_used _ _ _ HK) by (unfold FSSIZE; lia). split_and!; vm_compute; reflexivity.
Defined.

Lemma mkfs_boot_read_witness : exists s (l l' : log bstate), main 7 tree0 mk0 = Ok tt s
  /\ readi no_devices 0 0 5 (F sb 0 1 0 l [load_inode (disk s (IBLOCK 2 sb)) (dip 2) file0]) = Ok (5, hello) (F sb 0 1 0 l' [load_inode (disk s (IBLOCK 2 sb)) (dip 2) file0]).
Proof.
  destruct tree0_ok as (Ho & Hf & Hb). destruct (mkfs_boot_read no_devices 7 tree0 0 1 0 Ho Hf Hb) as (s & l & E & _ & Hread).
  destruct (Hread 1%nat (33188, hello) file0 [load_inode (disk s (IBLOCK 2 sb)) (dip 2) file0] 0%nat) as (l' & E'); [vm_compute; reflexivity | left; discriminate | reflexivity | reflexivity|].
  exists s, l, l'. split; [exact E | exact E'].
Defined.
