(* ===== verification/TrapThm.v ===== *)
(** * Every trap keeps the descriptor tables

    The reference counts of KernelRefs.v, for the kernel as a whole: whatever trap
    the running process takes, a system call of any number and arguments or an
    interrupt, the counts are right when the trap returns.  Terminals, console,
    keyboard and clock leave the tables alone; the table of system calls is checked
    entry by entry. *)
From Stdlib Require Import ZArith Lia.
From stdpp Require Import base numbers list gmap strings.
From S2P Require Import Prelude KString Type64 Time Locks Kalloc Vm Pipe Proc Syscall Cred Block Bio BioThm Log Fs Signal File SysFd SysDir FdThm FdRefs Tty Console Kbd Ioctl Exec ExecThm SysProc Calm KernelRefs SysMisc SysStat Trap.
Local Open Scope Z_scope.

#[local] Abbreviation C := bstate.
#[local] Abbreviation K := (M (ksys C)).
#[local] Abbreviation T := (M (tsys C)).
#[local] Abbreviation W := (M (msys C)).

(** ** Code of the terminals *)

Definition untouched (s s' : ksys C) : Prop := same_fds s s' /\ framed s s'.
Lemma untouched_refl s : untouched s s.
Proof. split; [apply same_fds_refl | reflexivity]. Qed.
Lemma untouched_trans s1 s2 s3 : untouched s1 s2 -> untouched s2 s3 -> untouched s1 s3.
Proof. intros [A1 A2] [B1 B2]. split; [exact (same_fds_trans _ _ _ A1 B1) | etransitivity; eassumption]. Qed.
Lemma calm_untouched {A} (m : K A) s a s' : calm m -> m s = Ok a s' -> untouched s s'.
Proof. intros [H1 H2] E. split; [exact (H1 _ _ _ E) | exact (H2 _ _ _ E)]. Qed.

Definition tmild {A} (m : T A) : Prop := forall s a s', m s = Ok a s' -> untouched (tk s) (tk s').
(** Code of the interrupts: it does not sleep either. *)
Definition sleepless {S A} (m : M S A) : Prop := forall s ch s', m s <> Block ch s'.
Definition tcalm {A} (m : T A) : Prop := tmild m /\ sleepless m.

Create HintDb tcalm discriminated.

Lemma sleepless_bind {S A B} (m : M S A) (k : A -> M S B) : sleepless m -> (forall a, sleepless (k a)) -> sleepless (m ≫= k).
Proof. intros Hm Hk s ch s' E. unfold mbind, M_bind in E. destruct (m s) as [a s1| | |ch1 s1] eqn:Em; try discriminate; [exact (Hk a s1 ch s' E) | exact (Hm s ch1 s1 Em)]. Qed.
Ltac sleepless_tac :=
  repeat (cbv zeta;
    match goal with
    | |- forall _, _ => intro
    | |- sleepless (mbind _ _) => apply sleepless_bind
    | |- sleepless (when ?b _) => destruct b; cbn [when]
    | |- sleepless (if ?b then _ else _) => destruct b
    | |- sleepless (match ?x with _ => _ end) => destruct x
    | |- sleepless _ => first [assumption | solve [auto with nocore] | discriminate]
    end).
Lemma tmild_bind {A B} (m : T A) (k : A -> T B) : tmild m -> (forall a, tmild (k a)) -> tmild (m ≫= k).
Proof. intros Hm Hk s b s' E. apply bind_Ok in E as (a & s1 & E1 & E2). exact (untouched_trans _ _ _ (Hm _ _ _ E1) (Hk _ _ _ _ E2)). Qed.
Lemma tmild_onsys {A} (m : K A) : calm m -> tmild (onsys m).
Proof.
  intros Hm s a s' E. unfold onsys in E. destruct (m (tk s)) as [b k| | |] eqn:Em; try discriminate. injection E as _ <-. exact (calm_untouched m _ _ _ Hm Em).
Qed.
Lemma tcalm_bind {A B} (m : T A) (k : A -> T B) : tcalm m -> (forall a, tcalm (k a)) -> tcalm (m ≫= k).
Proof. intros [H1 H2] Hk. split; [apply tmild_bind | apply sleepless_bind]; auto; intros a; apply Hk. Qed.
Lemma tcalm_same {A} (m : T A) : (forall s, match m s with Ok _ s' => tk s' = tk s | Block _ _ => False | _ => True end) -> tcalm m.
Proof.
  intros H. split; [intros s a s' E; specialize (H s); rewrite E in H; rewrite H; apply untouched_refl | intros s ch s' E; specialize (H s); rewrite E in H; exact H].
Qed.
Lemma tcalm_ret {A} (a : A) : tcalm (mret a).
Proof. apply tcalm_same. reflexivity. Qed.
Lemma tcalm_get : tcalm get.
Proof. apply tcalm_same. reflexivity. Qed.
Lemma tcalm_panic {A} w : tcalm (panic w : T A).
Proof. apply tcalm_same. exact (fun _ => I). Qed.
Lemma tcalm_fault {A} w : tcalm (fault w : T A).
Proof. apply tcalm_same. exact (fun _ => I). Qed.
Lemma tcalm_aget {A} w (l : list A) i : tcalm (aget w l i).
Proof. unfold aget. destruct (i <? 0); [apply tcalm_fault|]. destruct (l !! _); [apply tcalm_ret | apply tcalm_fault]. Qed.
Lemma tcalm_aset {A} w (l : list A) i x : tcalm (aset w l i x).
Proof. unfold aset. destruct (_ && _); [apply tcalm_ret | apply tcalm_fault]. Qed.
Lemma tcalm_modify (g : tsys C -> tsys C) : (forall s, tk (g s) = tk s) -> tcalm (modify g).
Proof. intros H. apply tcalm_same. exact H. Qed.
Lemma tcalm_onsys {A} (m : K A) : calm m -> sleepless m -> tcalm (onsys m).
Proof.
  intros Hm Hs. split; [exact (tmild_onsys m Hm)|]. intros s ch s' E. unfold onsys in E. destruct (m (tk s)) as [| | |ch1 k] eqn:Em; try discriminate. exact (Hs _ _ _ Em).
Qed.
Lemma sleepless_onps {A} (m : M pstate A) : sleepless m -> sleepless (onps (C := C) m).
Proof. intros Hm s ch s' E. unfold onps in E. destruct (m (kps s)) as [| | |ch1 k] eqn:Em; try discriminate. exact (Hm _ _ _ Em). Qed.
#[export] Hint Resolve tcalm_ret tcalm_get tcalm_panic tcalm_fault tcalm_aget tcalm_aset : tcalm.

(** Structure: binds, branches, and the primitives above. *)
Ltac tcalm_tac :=
  repeat (cbv zeta;
    match goal with
    | |- forall _, _ => intro
    | |- _ => solve [auto with tcalm nocore]
    | |- tcalm (mbind _ _) => apply tcalm_bind
    | |- tcalm (when ?b _) => destruct b; cbn [when]
    | |- tcalm (if ?b then _ else _) => destruct b
    | |- tcalm (match ?x with _ => _ end) => destruct x
    | |- tcalm (modify _) => apply tcalm_modify; reflexivity
    end).

Lemma tcalm_foldr {A} (f : A -> T unit) (l : list A) : (forall x, tcalm (f x)) -> tcalm (foldr (fun x m => f x;; m) (mret tt) l).
Proof. intros Hf. induction l as [|x l IH]; [apply tcalm_ret | cbn [foldr]; apply tcalm_bind; auto]. Qed.

(** *** Signals from the keyboard *)

Lemma pcalm_kill_pgrp g sig : pcalm (kill_pgrp g sig).
Proof.
  unfold kill_pgrp. apply pcalm_bind; [apply pcalm_acquire|]. intros _. apply pcalm_intro. intros p a p' E. rewrite (bind_step get _ p p p eq_refl) in E. cbv zeta in E.
  apply bind_Ok in E as (u & q & E1 & E2). refine (transitivity (R := pframed) (y := q) _ (pcalm_Ok _ _ _ _ pcalm_release E2)). injection E1 as _ <-. unfold pframed. cbn. rewrite !map_map.
  split_and!; [apply map_ext; intros x | apply map_ext; intros x | reflexivity]; destruct (_ && negb (is_state UNUSED x)); [| reflexivity | |reflexivity];
    destruct (_ && _ && _); [reflexivity | | reflexivity |]; destruct (is_state SLEEPING _) eqn:Es; try reflexivity.
  apply is_state_true in Es. exact (dead_wake _ Es).
Qed.
Lemma pcalm_wakeup ch : pcalm (wakeup ch).
Proof. split; [apply fdless_wakeup | apply ptame_wakeup]. Qed.
Lemma sleepless_locks : sleepless acquire_pt /\ sleepless release_pt.
Proof. unfold acquire_pt, release_pt. split; intros s ch s' E; mstep in E; destruct (ptlocked s); discriminate. Qed.
Lemma sleepless_kill_pgrp g sig : sleepless (kill_pgrp g sig).
Proof. destruct sleepless_locks. unfold kill_pgrp. sleepless_tac. Qed.
Lemma sleepless_wakeup ch : sleepless (wakeup ch).
Proof. destruct sleepless_locks. unfold wakeup, wakeup1. sleepless_tac. Qed.
Lemma sleepless_myproc : sleepless myproc.
Proof. unfold myproc. sleepless_tac. Qed.
Lemma tcalm_wake ch : tcalm (wake ch).
Proof.
  apply tcalm_onsys; [apply calm_onps, pcalm_wakeup | apply sleepless_onps, sleepless_wakeup].
Qed.
#[export] Hint Resolve tcalm_wake : tcalm.

(** *** The terminal *)

Section devices.
Context (inb : Z -> list (Z * Z) -> Z) (input_chan : Z -> Z) (cons_chan us : Z).

Lemma tcalm_tget t : tcalm (tget t).
Proof. unfold tget. tcalm_tac. Qed.
#[local] Hint Resolve tcalm_tget : tcalm.
Lemma tcalm_tmod t f : tcalm (tmod t f).
Proof. unfold tmod. tcalm_tac. Qed.
Lemma tcalm_outb p v : tcalm (outb p v).
Proof. unfold outb. tcalm_tac. Qed.
#[local] Hint Resolve tcalm_tmod tcalm_outb : tcalm.
Lemma tcalm_rmod t f : tcalm (rmod t f).
Proof. apply tcalm_tmod. Qed.
Lemma tcalm_set_cell t i v : tcalm (set_cell t i v).
Proof. unfold set_cell. tcalm_tac. Qed.
Lemma tcalm_set_crt i v : tcalm (set_crt i v).
Proof. unfold set_crt. tcalm_tac. Qed.
Lemma tcalm_displayed t m : tcalm m -> tcalm (displayed t m).
Proof. intros Hm. unfold displayed. tcalm_tac. Qed.
Lemma tcalm_show_cursor t : tcalm (show_cursor t).
Proof. unfold show_cursor. tcalm_tac. Qed.
Lemma tcalm_show_screen x : tcalm (show_screen x).
Proof. unfold show_screen. tcalm_tac. Qed.
#[local] Hint Resolve tcalm_rmod tcalm_set_cell tcalm_set_crt tcalm_show_cursor tcalm_show_screen : tcalm.
#[local] Hint Extern 1 (tcalm (displayed _ _)) => apply tcalm_displayed; tcalm_tac : tcalm.
Lemma tcalm_put_next t v : tcalm (put_next t v).
Proof. unfold put_next. tcalm_tac. Qed.
Lemma tcalm_scroll t : tcalm (scroll t).
Proof. unfold scroll. tcalm_tac. Qed.
#[local] Hint Resolve tcalm_put_next tcalm_scroll : tcalm.
Lemma tcalm_put_spaces k t : tcalm (put_spaces k t).
Proof. induction k as [|k IH]; cbn [put_spaces]; tcalm_tac. Qed.
#[local] Hint Resolve tcalm_put_spaces : tcalm.
Lemma tcalm_tty_putc t c : tcalm (tty_putc t c).
Proof. unfold tty_putc, tty_char, dumb_putc. tcalm_tac. Qed.
#[local] Hint Resolve tcalm_tty_putc : tcalm.

(** *** The line discipline *)

Lemma tcalm_echo t c : tcalm (echo t c).
Proof. unfold echo. tcalm_tac. Qed.
Lemma tcalm_rub t : tcalm (rub t).
Proof. unfold rub. tcalm_tac. Qed.
Lemma tcalm_commit t : tcalm (commit_input input_chan t).
Proof. unfold commit_input. tcalm_tac. Qed.
#[local] Hint Resolve tcalm_echo tcalm_rub tcalm_commit : tcalm.
Lemma tcalm_arrow t l : tcalm (arrow_loop t l).
Proof. induction l as [|c l IH]; cbn [arrow_loop]; tcalm_tac. Qed.
Lemma tcalm_kill_loop k t : tcalm (kill_loop k t).
Proof. induction k as [|k IH]; cbn [kill_loop]; tcalm_tac. Qed.
Lemma tcalm_tab k t : tcalm (tab_loop k t).
Proof. induction k as [|k IH]; cbn [tab_loop]; tcalm_tac. Qed.
Lemma tcalm_kill_pgrp g sig : tcalm (onsys (onps (kill_pgrp g sig))).
Proof. apply tcalm_onsys; [apply calm_onps, pcalm_kill_pgrp | apply sleepless_onps, sleepless_kill_pgrp]. Qed.
#[local] Hint Resolve tcalm_arrow tcalm_kill_loop tcalm_tab tcalm_kill_pgrp : tcalm.
Lemma tcalm_tty_key t c : tcalm (tty_key input_chan t c).
Proof. unfold tty_key, key_arrow, key_kill, key_signal, key_erase, key_tab, key_normal. tcalm_tac. Qed.
#[local] Hint Resolve tcalm_tty_key : tcalm.
Lemma tcalm_tty_interrupt fuel getc : tcalm getc -> tcalm (tty_interrupt input_chan fuel getc).
Proof.
  intros Hg. assert (forall t, tcalm (interrupt_loop input_chan fuel getc t)) as Hl by (intros t; induction fuel as [|fuel IH]; cbn [interrupt_loop]; tcalm_tac).
  unfold tty_interrupt. tcalm_tac.
Qed.
Lemma tcalm_change_tty n : tcalm (change_tty n).
Proof. unfold change_tty. tcalm_tac. Qed.

(** *** The console, the serial line and the keyboard *)

Lemma tcalm_acquire_cons : tcalm acquire_cons.
Proof. apply tcalm_same. intros s. unfold acquire_cons. mstep. destruct (conslocked s); [exact I | reflexivity]. Qed.
Lemma tcalm_release_cons : tcalm release_cons.
Proof. apply tcalm_same. intros s. unfold release_cons. mstep. destruct (conslocked s); [reflexivity | exact I]. Qed.
Lemma tcalm_outs p l : tcalm (outs p l).
Proof. apply tcalm_foldr. intros x. apply tcalm_outb. Qed.
Lemma tcalm_inp p : tcalm (inp inb p).
Proof. unfold inp. tcalm_tac. Qed.
Lemma tcalm_cmod f : tcalm (cmod f).
Proof. unfold cmod. tcalm_tac. Qed.
#[local] Hint Resolve tcalm_acquire_cons tcalm_release_cons tcalm_outs tcalm_inp tcalm_cmod : tcalm.
Lemma tcalm_uart_putc c : tcalm (uart_putc c).
Proof. unfold uart_putc. tcalm_tac. Qed.
Lemma tcalm_uart_getchar : tcalm (uart_getchar inb).
Proof. unfold uart_getchar. tcalm_tac. Qed.
Lemma tcalm_crt_next v : tcalm (crt_next v).
Proof. unfold crt_next. tcalm_tac. Qed.
Lemma tcalm_crt_scroll : tcalm crt_scroll_at_end.
Proof. unfold crt_scroll_at_end, crt_scroll. tcalm_tac. Qed.
#[local] Hint Resolve tcalm_uart_putc tcalm_uart_getchar tcalm_crt_next tcalm_crt_scroll : tcalm.
Lemma tcalm_crt_spaces k : tcalm (crt_spaces k).
Proof. induction k as [|k IH]; cbn [crt_spaces]; tcalm_tac. Qed.
#[local] Hint Resolve tcalm_crt_spaces : tcalm.
Lemma tcalm_cgaputc c : tcalm (cgaputc inb c).
Proof. unfold cgaputc. tcalm_tac. Qed.
Lemma tcalm_console_putc c : tcalm (console_putc c).
Proof. unfold console_putc. pose proof (tcalm_foldr uart_putc (replicate 8 32) tcalm_uart_putc). tcalm_tac. Qed.
#[local] Hint Resolve tcalm_cgaputc tcalm_console_putc : tcalm.
Lemma tcalm_ckill k : tcalm (ckill_loop inb k).
Proof. induction k as [|k IH]; cbn [ckill_loop]; tcalm_tac. Qed.
Lemma tcalm_ctab k : tcalm (ctab_loop inb k).
Proof. induction k as [|k IH]; cbn [ctab_loop]; tcalm_tac. Qed.
#[local] Hint Resolve tcalm_ckill tcalm_ctab : tcalm.
Lemma tcalm_console_key c : tcalm (console_key inb cons_chan c).
Proof. unfold console_key, ccommit. tcalm_tac. Qed.
#[local] Hint Resolve tcalm_console_key : tcalm.
Lemma tcalm_console_interrupt fuel getc : tcalm getc -> tcalm (console_interrupt inb cons_chan fuel getc).
Proof.
  intros Hg. assert (tcalm (console_loop inb cons_chan fuel getc)) as Hl by (induction fuel as [|fuel IH]; cbn [console_loop]; tcalm_tac).
  unfold console_interrupt. tcalm_tac.
Qed.
Lemma tcalm_uart_interrupt fuel : tcalm (uart_interrupt inb cons_chan fuel).
Proof. apply tcalm_console_interrupt, tcalm_uart_getchar. Qed.
Lemma tcalm_ctrl_alt_del cad : tcalm (ctrl_alt_del cad).
Proof.
  unfold ctrl_alt_del. destruct cad; [apply tcalm_panic|]. apply tcalm_onsys; [apply calm_pset; reflexivity|]. apply sleepless_onps, sleepless_bind; [apply sleepless_myproc | discriminate].
Qed.
#[local] Hint Resolve tcalm_ctrl_alt_del : tcalm.
(** Code that goes on from another state with the same kernel. *)
Lemma tcalm_from {A} (m : T A) : (forall s, exists s0 m', m s = m' s0 /\ tk s0 = tk s /\ tcalm m') -> tcalm m.
Proof.
  intros H. split.
  - intros s a s' E. destruct (H s) as (s0 & m' & Em & Ek & Hm & _). rewrite <-Ek. rewrite Em in E. exact (Hm _ _ _ E).
  - intros s ch s' E. destruct (H s) as (s0 & m' & Em & _ & _ & Hm). rewrite Em in E. exact (Hm _ _ _ E).
Qed.
Lemma tcalm_keyboard_getc cad : tcalm (keyboard_getc cad).
Proof.
  apply tcalm_from. intros s. unfold keyboard_getc. rewrite (bind_step get _ s s s eq_refl). destruct (kqueue s) as [|[[mouse st] data] q].
  - exists s. eexists. split_and!; [reflexivity | reflexivity | apply tcalm_ret].
  - exists (s <| kqueue := q |>). eexists. split_and!; [erewrite bind_step by reflexivity; reflexivity | reflexivity|]. destruct (kbd_step _ _) as [[sh c] k]. tcalm_tac.
Qed.
Lemma tcalm_kbd_interrupt cad : tcalm (kbd_interrupt inb input_chan cons_chan cad).
Proof. unfold kbd_interrupt. pose proof (tcalm_tty_interrupt). pose proof tcalm_console_interrupt. pose proof tcalm_keyboard_getc. tcalm_tac; auto. Qed.

(** *** Messages and terminal control *)

Lemma tcalm_vprintf f l : tcalm (vprintf f l).
Proof. unfold vprintf. destruct (format_text _ _ _); [apply tcalm_foldr, tcalm_console_putc | apply tcalm_fault]. Qed.
Lemma tcalm_tty_sgr t c : tcalm (tty_sgr t c).
Proof. apply tcalm_tmod. Qed.
#[local] Hint Resolve tcalm_vprintf tcalm_tty_sgr : tcalm.
Lemma tcalm_printk func f l : tcalm (_printk us func f l).
Proof. unfold _printk. tcalm_tac. Qed.
Lemma calm_fat f : calm (C := C) (fat f).
Proof. unfold fat. calm_tac. Qed.
Lemma calm_argfd n : calm (C := C) (argfd n).
Proof. unfold argfd. calm_tac. Qed.
Lemma tmild_ouser {A} (m : Z -> M kstate A) : tmild (ouser m).
Proof. unfold ouser. apply tmild_bind; [apply tmild_onsys, calm_curproc|]. intros p. apply tmild_onsys, calm_onmm. Qed.
Lemma tmild_set_pgrp t v : tmild (set_pgrp t v).
Proof. unfold set_pgrp. apply tmild_bind; [apply tcalm_get|]. intros s0. apply tmild_bind; [apply tcalm_aset|]. intros l s u s' [= _ <-]. split; [repeat split | split; reflexivity]. Qed.
Lemma tmild_ioctl : tmild (sys_ioctl us).
Proof.
  unfold sys_ioctl, get_termios, set_termios, tty_get_winsize.
  repeat (cbv zeta; match goal with
    | |- forall _, _ => intro
    | |- tmild (ouser _) => apply tmild_ouser
    | |- tmild (set_pgrp _ _) => apply tmild_set_pgrp
    | |- tmild (onsys _) => apply tmild_onsys
    | |- calm (argfd _) => apply calm_argfd
    | |- calm (fat _) => apply calm_fat
    | |- calm _ => solve [auto with tame]
    | |- tmild (change_tty _) => apply tcalm_change_tty
    | |- tmild (_printk _ _ _ _) => apply tcalm_printk
    | |- tmild (mbind _ _) => apply tmild_bind
    | |- tmild (if ?b then _ else _) => destruct b
    | |- tmild (match ?x with _ => _ end) => destruct x
    | |- tmild _ => refine (proj1 (_ : tcalm _)); solve [auto with tcalm]
    end).
Qed.
End devices.

(** ** The whole kernel *)

(** The kernel of [s]. *)
Abbreviation kern s := (tk (mt s)).
Definition wcalm {A} (m : W A) : Prop := forall s a s', m s = Ok a s' -> untouched (kern s) (kern s').
Lemma wcalm_bind {A B} (m : W A) (k : A -> W B) : wcalm m -> (forall a, wcalm (k a)) -> wcalm (m ≫= k).
Proof. intros Hm Hk s b s' E. apply bind_Ok in E as (a & s1 & E1 & E2). exact (untouched_trans _ _ _ (Hm _ _ _ E1) (Hk _ _ _ _ E2)). Qed.
Lemma wcalm_same {A} (m : W A) : (forall s a s', m s = Ok a s' -> mt s' = mt s) -> wcalm m.
Proof. intros H s a s' E. rewrite (H _ _ _ E). apply untouched_refl. Qed.
Lemma wcalm_ret {A} (a : A) : wcalm (mret a).
Proof. apply wcalm_same. intros s b s' [= _ <-]. reflexivity. Qed.
Lemma wcalm_get : wcalm get.
Proof. apply wcalm_same. intros s b s' [= _ <-]. reflexivity. Qed.
Lemma wcalm_panic {A} w : wcalm (panic w : W A).
Proof. intros s b s' [=]. Qed.
Lemma wcalm_fault {A} w : wcalm (fault w : W A).
Proof. intros s b s' [=]. Qed.
Lemma wcalm_modify (g : msys C -> msys C) : (forall s, mt (g s) = mt s) -> wcalm (modify g).
Proof. intros H. apply wcalm_same. intros s b s' [= _ <-]. apply H. Qed.
Lemma wcalm_onT {A} (m : T A) : tmild m -> wcalm (onT m).
Proof. intros Hm s a s' E. unfold onT in E. destruct (m (mt s)) as [b k| | |] eqn:Em; try discriminate. injection E as _ <-. exact (Hm _ _ _ Em). Qed.
Lemma wcalm_onK {A} (m : K A) : calm m -> wcalm (onK m).
Proof. intros Hm. apply wcalm_onT, tmild_onsys, Hm. Qed.
Lemma wcalm_curproc : wcalm (onK curproc).
Proof. apply wcalm_onK, calm_curproc. Qed.
Lemma wcalm_user {A} (m : Z -> M kstate A) : wcalm (wuser m).
Proof. apply wcalm_onT, tmild_ouser. Qed.
Create HintDb wcalm discriminated.
#[export] Hint Resolve wcalm_ret wcalm_get wcalm_panic wcalm_fault wcalm_curproc wcalm_user : wcalm.
Ltac wcalm_tac :=
  repeat (cbv zeta;
    match goal with
    | |- forall _, _ => intro
    | |- _ => solve [auto with wcalm nocore]
    | |- wcalm (mbind _ _) => apply wcalm_bind
    | |- wcalm (when ?b _) => destruct b; cbn [when]
    | |- wcalm (if ?b then _ else _) => destruct b
    | |- wcalm (match ?x with _ => _ end) => destruct x
    | |- wcalm (modify _) => apply wcalm_modify; reflexivity
    end).

(** *** The calls of SysMisc.v *)

Lemma wcalm_argi n k : (forall v, wcalm (k v)) -> wcalm (wargi n k).
Proof. intros Hk. unfold wargi. wcalm_tac; apply Hk. Qed.
Lemma wcalm_argp n z k : (forall v, wcalm (k v)) -> wcalm (wargp n z k).
Proof. intros Hk. unfold wargp. wcalm_tac; apply Hk. Qed.
Lemma wcalm_args n k : (forall v, wcalm (k v)) -> wcalm (wargs n k).
Proof. intros Hk. unfold wargs. wcalm_tac; apply Hk. Qed.
Lemma wcalm_root k : wcalm k -> wcalm (root k).
Proof. intros Hk. unfold root. wcalm_tac. Qed.
Lemma wcalm_notim r : wcalm (notim r).
Proof. unfold notim. wcalm_tac. apply wcalm_onT, (proj1 (tcalm_printk _ _ _ _)). Qed.
(** The last step stores the state read before it. *)
Lemma wcalm_put_name (g : msys C -> option (list Z)) (f : list Z -> msys C -> msys C) what : (forall l s, mt (f l s) = mt s) ->
  wcalm (s ← get; match g s with None => fault what | Some l => put (f l s);; mret 0 end).
Proof. intros Hf. apply wcalm_same. intros s a s' E. rewrite (bind_step get _ s s s eq_refl) in E. destruct (g s); [|discriminate]. injection E as _ <-. apply Hf. Qed.
Lemma wcalm_names : wcalm sys_sethostname /\ wcalm sys_setdomainname.
Proof.
  split; apply wcalm_root, wcalm_args; intros v; apply wcalm_argi; intros n.
  - apply (wcalm_put_name (fun s => set_name (sys_nodename s) v (u32 n)) (fun l s => s <| sys_nodename := l |>)). reflexivity.
  - apply (wcalm_put_name (fun s => set_name (sys_domainname s) v (u32 n)) (fun l s => s <| sys_domainname := l |>)). reflexivity.
Qed.
Lemma wcalm_misc r j : wcalm (sys_time r) /\ wcalm (sys_stime j) /\ wcalm (sys_clock_settime32 r) /\ wcalm (sys_clock_gettime r)
  /\ wcalm sys_uname /\ wcalm sys_reboot /\ wcalm (unimplemented r) /\ wcalm (sys_syscall r).
Proof.
  unfold sys_time, sys_stime, sys_clock_settime32, sys_clock_gettime, sys_uname, sys_reboot, unimplemented, sys_syscall.
  pose proof wcalm_notim. split_and!;
    repeat first [apply wcalm_root | apply wcalm_argi; intros ? | apply wcalm_argp; intros ? | apply wcalm_args; intros ? | progress wcalm_tac].
  cbn [uts_fields foldr]. wcalm_tac.
Qed.

(** *** Calls on the running process and its directory *)

Lemma calm_args n err (k : list Z -> K Z) : (forall v, calm (k v)) -> calm (args n err k).
Proof. intros Hk. unfold args. calm_tac; apply Hk. Qed.
Lemma calm_entry_of devsw fuel dp n off de : calm (onfs (entry_of (C := C) devsw fuel dp n off de)).
Proof. apply calm_onfs. Qed.
Lemma calm_climb devsw fuel : forall cwd root pos path de, calm (climb devsw fuel cwd root pos path de).
Proof. induction fuel as [|fuel IH]; intros cwd root pos path de; cbn [climb]; calm_tac; apply IH. Qed.
Lemma calm_stat devsw name0 depth j1 j2 j3 : calm (sys_statx devsw name0) /\ calm (sys_readlink devsw name0 j1) /\ calm (sys_getcwd devsw name0 depth j1 j2 j3).
Proof.
  unfold sys_statx, sys_readlink, sys_getcwd, knamei, kbegin_op, kend_op. pose proof (calm_climb devsw).
  split_and!; repeat first [apply calm_args; intros ? | progress calm_tac]; auto.
Qed.
Lemma calm_getters : calm (C := C) sys_getpid /\ calm (C := C) sys_getppid /\ calm (C := C) sys_getpgrp /\ calm (C := C) sys_getpgid /\ calm (C := C) sys_set_tid_address
  /\ calm (C := C) sys_pause /\ calm (C := C) sys_setpgid.
Proof.
  unfold sys_getpid, sys_getppid, sys_getpgrp, sys_getpgid, sys_set_tid_address, sys_pause, sys_setpgid, of_parent, pause. pose proof pcalm_sleep. pose proof pcalm_setpgid.
  split_and!; calm_tac; auto.
Qed.
Lemma own_getters : own sys_getuid /\ own sys_getgid /\ own sys_geteuid /\ own sys_getegid.
Proof. unfold sys_getuid, sys_getgid, sys_geteuid, sys_getegid. split_and!; own_tac. Qed.
Lemma wcalm_setgroups : wcalm setgroups.
Proof. unfold setgroups. wcalm_tac. apply wcalm_onK, calm_oncur, (own_cred (CSetgroups _)). Qed.
Lemma calm_onbio {A} (m : M bstate A) : calm (onbio m).
Proof. split; intros s a s' E; unfold onbio in E; destruct (m _); try discriminate; injection E as _ <-; repeat split. Qed.

(** ** The table *)

(** Process [i] runs, and the counts are right. *)
Record served (i : nat) (k : ksys C) : Prop := Served {
  sv_inv : kinv k;
  sv_cur : cur (kps k) = Some i;
  sv_slot : slots k !! i = Some false
}.
(** A handler, whatever the process and its arguments, keeps it so. *)
Definition serves {A} (m : W A) : Prop := forall i s r s', served i (kern s) -> m s = Ok r s' -> served i (kern s').

Lemma serves_bind {A B} (m : W A) (k : A -> W B) : serves m -> (forall a, serves (k a)) -> serves (m ≫= k).
Proof. intros Hm Hk i s b s' HS E. apply bind_Ok in E as (a & s1 & E1 & E2). exact (Hk a i s1 b s' (Hm i s a s1 HS E1) E2). Qed.
Lemma served_untouched i k k' : untouched k k' -> served i k -> served i k'.
Proof.
  intros [HF [Fs Fc _]] [HK Hc Hi]. split; [|congruence | congruence]. apply (kinv_taken k k' HK). split; assumption.
Qed.
Lemma serves_wcalm {A} (m : W A) : wcalm m -> serves m.
Proof. intros Hm i s r s' HS E. exact (served_untouched _ _ _ (Hm _ _ _ E) HS). Qed.
Lemma onK_Ok {A} (m : K A) s r s' : onK m s = Ok r s' -> m (kern s) = Ok r (kern s').
Proof. unfold onK, onT, onsys. destruct (m (kern s)); intros E; try discriminate. injection E as <- <-. reflexivity. Qed.
Lemma serves_calm {A} (m : K A) : calm m -> serves (onK m).
Proof. intros Hm. apply serves_wcalm, wcalm_onK, Hm. Qed.
Lemma serves_fd devsw kend PHYSTOP name0 de0 c : serves (onK (run_fd devsw kend PHYSTOP name0 de0 c)).
Proof.
  intros i s r s' [HK Hc Hi] E%onK_Ok. destruct (tame_run_fd devsw kend PHYSTOP name0 de0 c _ _ _ E) as [Fs Fc _].
  split; [|congruence | congruence]. exact (kinv_tame _ i _ _ _ (tame_run_fd _ _ _ _ _ _) (balanced_run _ _ _ _ _ _) HK Hc Hi E).
Qed.
Lemma serves_fork kend PHYSTOP kdata : serves (onK (sys_fork kend PHYSTOP kdata)).
Proof.
  intros i s r s' [HK Hc Hi] E%onK_Ok. pose proof (kinv_fork _ _ _ i _ _ _ HK Hc Hi E) as HK'. split; [exact HK'| |];
    destruct (kfork_result _ _ _ i _ _ _ HK Hc Hi E) as [[_ [(_ & _ & _ & Fc) Fs]] | (np & t & Hn & _ & _ & Fc & Fs & _)]; try congruence.
  rewrite Fs, list_lookup_insert_ne by congruence. exact Hi.
Qed.
(** exit does not return. *)
Definition leaves {S A} (m : M S A) : Prop := forall s a s', m s <> Ok a s'.
Lemma leaves_bind {S A B} (m : M S A) (k : A -> M S B) : (forall a, leaves (k a)) -> leaves (m ≫= k).
Proof. intros Hk s a s' E. apply bind_Ok in E as (b & s1 & _ & E). exact (Hk b s1 a s' E). Qed.
Lemma leaves_first {S A B} (m : M S A) (k : A -> M S B) : leaves m -> leaves (m ≫= k).
Proof. intros Hm s a s' E. apply bind_Ok in E as (b & s1 & E & _). exact (Hm s b s1 E). Qed.
Lemma leaves_panic {S A} w : leaves (panic w : M S A).
Proof. intros s a s' [=]. Qed.
Lemma leaves_exit status : leaves (exit status).
Proof.
  unfold exit. do 3 (apply leaves_bind; intros ?). destruct (bool_decide _); [destruct (String.eqb _ _); apply leaves_panic|].
  do 9 (apply leaves_bind; intros ?). match goal with |- leaves (if ?b then _ else _) => destruct b end;
    repeat first [exact (sched_no_return 0) | apply leaves_bind; intros ?].
Qed.
Lemma leaves_kexit kend PHYSTOP status : leaves (kexit (C := C) kend PHYSTOP status).
Proof.
  do 2 (apply leaves_bind; intros ?). intros s u s' E. unfold onps in E. destruct (exit status (kps s)) as [v q| | |] eqn:Ee; try discriminate.
  exact (leaves_exit status _ _ _ Ee).
Qed.
Lemma leaves_onK {A} (m : K A) : leaves m -> leaves (onK m).
Proof. intros Hm s r s' E%onK_Ok. exact (Hm _ _ _ E). Qed.
Lemma serves_leaves {A} (m : W A) : leaves m -> serves m.
Proof. intros Hm i s r s' _ E. destruct (Hm _ _ _ E). Qed.
Lemma serves_exit kend PHYSTOP status : serves (onK (kexit kend PHYSTOP status)).
Proof. apply serves_leaves, leaves_onK, leaves_kexit. Qed.
Lemma serves_sys_exit kend PHYSTOP : serves (onK (sys_exit kend PHYSTOP)).
Proof.
  intros i s r s' HS E%onK_Ok. unfold sys_exit, argi in E. apply bind_Ok in E as (p & k & E1 & E). destruct (argint p 0).
  - apply bind_Ok in E as (u & k1 & E & _). destruct (leaves_kexit _ _ _ _ _ _ E).
  - injection E as _ <-. exact (served_untouched _ _ _ (calm_untouched _ _ _ _ calm_curproc E1) HS).
Qed.

Section table.
Context (e : kenv).

Lemma wcalm_sync : wcalm sys_sync.
Proof. unfold sys_sync. wcalm_tac. apply wcalm_onK, calm_onbio. Qed.
Lemma wcalm_ioctl : wcalm (ioctl e).
Proof. unfold ioctl. wcalm_tac. apply wcalm_onT, tmild_ioctl. Qed.

(** The entries, in the order of the table. *)
(** The call of FdRefs.v that an entry is. *)
Ltac fd_entry F :=
  lazymatch goal with
  | |- serves (onK (sys_read _)) => exact (F CRead)
  | |- serves (onK (sys_write _)) => exact (F CWrite)
  | |- serves (onK (sys_close _ _)) => exact (F CClose)
  | |- serves (onK sys_dup) => exact (F CDup)
  | |- serves (onK (sys_dup2 _ _)) => exact (F CDup2)
  | |- serves (onK sys_fcntl) => exact (F CFcntl)
  | |- serves (onK sys_lseek) => exact (F CLseek)
  | |- serves (onK sys__llseek) => exact (F CLlseek)
  | |- serves (onK sys_fstat) => exact (F CFstat)
  | |- serves (onK (sys_readv _)) => exact (F CReadv)
  | |- serves (onK (sys_writev _)) => exact (F CWritev)
  | |- serves (onK (sys_open _ _ _ _ _)) => exact (F COpen)
  | |- serves (onK (sys_creat _ _ _ _ _)) => exact (F CCreat)
  | |- serves (onK (sys_link _ _ _)) => exact (F CLink)
  | |- serves (onK (sys_linkat _ _ _)) => exact (F CLinkat)
  | |- serves (onK (sys_unlink _ _)) => exact (F CUnlink)
  | |- serves (onK (sys_rmdir _ _)) => exact (F CRmdir)
  | |- serves (onK (sys_mkdir _ _ _)) => exact (F CMkdir)
  | |- serves (onK (sys_mknod _ _ _)) => exact (F CMknod)
  | |- serves (onK (sys_chdir _ _)) => exact (F CChdir)
  | |- serves (onK (sys_chmod _ _)) => exact (F CChmod)
  | |- serves (onK (sys_chown _ _)) => exact (F CChown)
  | |- serves (onK (sys_utime _ _)) => exact (F CUtime)
  | |- serves (onK (sys_access _ _)) => exact (F CAccess)
  | |- serves (onK sys_fchmod) => exact (F CFchmod)
  | |- serves (onK sys_fchown) => exact (F CFchown)
  | |- serves (onK (sys_getdents _)) => exact (F CGetdents)
  | |- serves (onK (sys_pipe _ _ ?page)) => exact (F (CPipe page))
  end.
(** An entry that leaves descriptors alone. *)
Ltac calm_entry :=
  lazymatch goal with
  | |- calm sys_kill => apply calm_kill
  | |- calm (sys_waitpid _ _) => apply calm_waits
  | |- calm (sys_wait4 _ _) => apply calm_waits
  | |- calm (sys_brk _ _) => apply calm_brk
  | |- calm (sys_sbrk _ _) => apply calm_sbrk
  | |- calm (sys_exec _ _ _ _ _ _ _) => apply calm_sys_exec
  | |- calm (sys_getrusage _) => apply calm_getrusage
  | |- calm (sys_rt_sigsuspend _) => apply calm_sigsuspend
  | |- calm (sys_statx _ _) => apply (calm_stat _ _ 0 [] [] [])
  | |- calm (sys_readlink _ _ _) => apply (calm_stat _ _ 0 _ [] [])
  | |- calm (sys_getcwd _ _ _ _ _ _) => apply calm_stat
  | |- calm (onsig (sys_rt_sigaction _)) => apply calm_onsig, own_signals
  | |- calm (onsig _) => apply calm_onsig, (own_signals (0, 0))
  | |- calm (oncur sys_getuid) => apply calm_oncur, own_getters
  | |- calm (oncur sys_getgid) => apply calm_oncur, own_getters
  | |- calm (oncur sys_geteuid) => apply calm_oncur, own_getters
  | |- calm (oncur sys_getegid) => apply calm_oncur, own_getters
  | |- calm (oncur sys_setuid) => apply calm_oncur, (own_cred CSetuid)
  | |- calm (oncur sys_setgid) => apply calm_oncur, (own_cred CSetgid)
  | |- calm (oncur sys_setreuid) => apply calm_oncur, (own_cred CSetreuid)
  | |- calm (oncur sys_setregid) => apply calm_oncur, (own_cred CSetregid)
  | |- calm (oncur sys_setresuid) => apply calm_oncur, (own_cred CSetresuid)
  | |- calm (oncur sys_setresgid) => apply calm_oncur, (own_cred CSetresgid)
  | |- calm (oncur sys_setsid) => apply calm_oncur, (own_cred CSetsid)
  | |- calm (oncur sys_umask) => apply calm_oncur, (own_cred CUmask)
  | |- calm (oncur sys_iopl) => apply calm_oncur, (own_cred CIopl)
  | |- calm (oncur sys_alarm) => apply calm_oncur, (own_cred CAlarm)
  | |- _ => apply calm_getters
  end.
Ltac wcalm_entry :=
  lazymatch goal with
  | |- wcalm (sys_time _) => apply (wcalm_misc _ 0)
  | |- wcalm (sys_stime _) => apply (wcalm_misc 0)
  | |- wcalm (sys_clock_settime32 _) => apply (wcalm_misc _ 0)
  | |- wcalm (sys_clock_gettime _) => apply (wcalm_misc _ 0)
  | |- wcalm (sys_clock_settime64 _) => apply (wcalm_misc _ 0)
  | |- wcalm (sys_clock_gettime64 _) => apply (wcalm_misc _ 0)
  | |- wcalm sys_sethostname => apply wcalm_names
  | |- wcalm sys_setdomainname => apply wcalm_names
  | |- wcalm sys_uname => apply (wcalm_misc 0 0)
  | |- wcalm sys_reboot => apply (wcalm_misc 0 0)
  | |- wcalm (sys_syscall _) => apply (wcalm_misc _ 0)
  | |- wcalm (unimplemented _) => apply (wcalm_misc _ 0)
  | |- wcalm setgroups => apply wcalm_setgroups
  | |- wcalm sys_setgroups32 => apply wcalm_setgroups
  | |- wcalm sys_sync => apply wcalm_sync
  | |- wcalm (ioctl _) => apply wcalm_ioctl
  | |- wcalm sys_idle => apply wcalm_ret
  | |- wcalm nosys => apply wcalm_ret
  | |- wcalm (onK _) => apply wcalm_onK; calm_entry
  end.
(** The calls that are not implemented, and those under a second number. *)
Ltac unfold_entry :=
  unfold sys_break, sys_stat, sys_mount, sys_umount, sys_ptrace, sys_nice, sys_ftime, sys_rename, sys_times, sys_prof, sys_acct, sys_phys, sys_lock, sys_mpx, sys_ulimit,
    sys_chroot, sys_ustat, sys_sigaction, sys_stty, sys_gtty, sys_sgetmask, sys_ssetmask, sys_oldlstat, sys_nanosleep, sys_symlink, sys_sigreturn, sys_getuid32, sys_getgid32,
    sys_geteuid32, sys_getegid32, sys_setresuid32, sys_setresgid32, sys_setuid32, sys_setgid32, sys_getdents64, sys_fcntl64, sys_vfork.
Ltac entry F :=
  lazymatch goal with
  | |- serves (onK (sys_fork _ _ _)) => apply serves_fork
  | |- serves (onK (sys_exit _ _)) => apply serves_sys_exit
  | |- serves (onK (sys_exit_group _ _)) => apply serves_sys_exit
  | |- _ => first [fd_entry F | apply serves_wcalm; wcalm_entry]
  end.
Lemma serves_table : Forall (fun x => serves x.2) (syscall_list e).
Proof.
  pose proof (serves_fd (e_devsw e) (e_kend e) (e_PHYSTOP e) (e_name0 e) (e_de0 e)) as F.
  unfold syscall_list. repeat (apply List.Forall_cons; [|]); [.. | apply List.Forall_nil]; cbn [snd]; unfold_entry; entry F.
Qed.
Lemma serves_syscall n : serves (match syscalls e !! n with Some (Some h) => h | _ => mret (- ENOSYS) end).
Proof.
  unfold syscalls. rewrite list_lookup_fmap. destruct (seq 0 405 !! n) as [k|]; [|apply serves_wcalm, wcalm_ret]. cbn [fmap option_fmap option_map].
  destruct (list_find _ _) as [[j [x h]]|] eqn:Ef; [|apply serves_wcalm, wcalm_ret]. apply list_find_Some in Ef as (Hj & _ & _).
  exact (Forall_lookup_1 _ _ _ _ serves_table Hj).
Qed.
Lemma serves_ksyscall : serves (ksyscall e).
Proof.
  unfold ksyscall. apply serves_bind; [apply serves_wcalm, wcalm_curproc|]. intros p. cbv zeta. apply serves_bind.
  { intros i s u s' HS [= _ <-]. revert HS. apply served_untouched. split; [repeat split | split; reflexivity]. }
  intros _. apply serves_bind; [|intros r; apply serves_calm, calm_pset; reflexivity].
  destruct (0 <=? _); [apply serves_syscall | apply serves_wcalm, wcalm_ret].
Qed.
Lemma serves_if_killed : serves (exit_if_killed e).
Proof.
  unfold exit_if_killed. apply serves_bind; [apply serves_wcalm, wcalm_curproc|]. intros p. destruct (nz (killed p)); [apply serves_exit | apply serves_wcalm, wcalm_ret].
Qed.
Lemma serves_dosignal : serves (onK (onsig (dosignal (e_pad e)))).
Proof. apply serves_calm, calm_onsig, own_dosignal. Qed.
Lemma serves_trap_syscall f : serves (trap_syscall e f).
Proof.
  unfold trap_syscall. apply serves_bind; [apply serves_if_killed|]. intros _. apply serves_bind; [apply serves_calm, calm_pset; reflexivity|]. intros _.
  apply serves_bind; [apply serves_ksyscall|]. intros _. apply serves_bind; [apply serves_if_killed|]. intros _. apply serves_dosignal.
Qed.

(** *** Interrupts and faults *)

(** How a trap of process [i] ends: it returns; the process gives the processor
    away; or it is in exit. *)
Definition ended (i : nat) (o : outcome (msys C) unit) : Prop :=
  match o with
  | Ok _ s => served i (kern s)
  | Block ch s => kinv (kern s) \/ exists status s1, served i (kern s1) /\ onK (kexit (e_kend e) (e_PHYSTOP e) status) s1 = Block ch s
  | _ => True
  end.
Definition ends (m : W unit) : Prop := forall i s, served i (kern s) -> ended i (m s).
Lemma ends_bind {A} (m : W A) (k : A -> W unit) : wcalm m -> sleepless m -> (forall a, ends (k a)) -> ends (m ≫= k).
Proof.
  intros Hm Hs Hk i s HS. unfold mbind, M_bind. destruct (m s) as [a s1| | |ch s1] eqn:Em; try exact I; [|destruct (Hs _ _ _ Em)].
  apply Hk, (served_untouched _ _ _ (Hm _ _ _ Em) HS).
Qed.
Lemma ends_seq (m k : W unit) : ends m -> ends k -> ends (m;; k).
Proof.
  intros Hm Hk i s HS. specialize (Hm i s HS). unfold mbind, M_bind. destruct (m s) as [a s1| | |ch s1] eqn:Em; try exact I; [apply Hk, Hm | exact Hm].
Qed.
Lemma ends_calm (m : W unit) : wcalm m -> sleepless m -> ends m.
Proof.
  intros Hm Hs i s HS. destruct (m s) as [a s1| | |ch s1] eqn:Em; try exact I; [|destruct (Hs _ _ _ Em)]. exact (served_untouched _ _ _ (Hm _ _ _ Em) HS).
Qed.
Lemma ends_exit status : ends (onK (kexit (e_kend e) (e_PHYSTOP e) status)).
Proof.
  intros i s HS. destruct (onK _ s) as [a s1| | |ch s1] eqn:Em; try exact I; [destruct (leaves_onK _ (leaves_kexit _ _ _) _ _ _ Em)|].
  right. exists status, s. split; assumption.
Qed.
Lemma sleepless_onK {A} (m : K A) : sleepless m -> sleepless (onK m).
Proof. intros Hm s ch s' E. unfold onK, onT, onsys in E. destruct (m (kern s)) as [| | |ch1 k] eqn:Em; try discriminate. exact (Hm _ _ _ Em). Qed.
Lemma sleepless_onT {A} (m : T A) : sleepless m -> sleepless (onT m).
Proof. intros Hm s ch s' E. unfold onT in E. destruct (m (mt s)) as [| | |ch1 k] eqn:Em; try discriminate. exact (Hm _ _ _ Em). Qed.
Lemma sleepless_onsig {A} (m : M sigst A) : sleepless m -> sleepless (onsig (C := C) m).
Proof.
  intros Hm s ch s' E. unfold onsig in E. destruct (cur (kps s)); [|discriminate]. destruct (_ !! _); [|discriminate].
  destruct (m _) as [| | |ch1 k] eqn:Em; try discriminate. exact (Hm _ _ _ Em).
Qed.
Lemma sleepless_onk {A} (m : M kstate A) : sleepless m -> sleepless (onk m).
Proof. intros Hm s ch s' E. unfold onk in E. destruct (m (sk s)) as [| | |ch1 k] eqn:Em; try discriminate. exact (Hm _ _ _ Em). Qed.
Lemma sleepless_pget i : sleepless (pget i).
Proof. unfold pget. sleepless_tac. Qed.
Lemma sleepless_curproc : sleepless (onK (C := C) curproc).
Proof. apply sleepless_onK, sleepless_onps, sleepless_bind; [apply sleepless_myproc | apply sleepless_pget]. Qed.
Lemma sleepless_pset g : sleepless (onK (C := C) (pset g)).
Proof. apply sleepless_onK, sleepless_onps, sleepless_bind; [apply sleepless_myproc | discriminate]. Qed.
Lemma sleepless_copyout pd va l : sleepless (copyout pd va l).
Proof.
  unfold copyout. generalize (Z.to_nat (Z.of_nat (length l) / PGSIZE) + 3)%nat. intros k. revert va l. induction k as [|k IH]; intros va l; cbn [copyout_loop]; sleepless_tac.
  all: unfold uva2ka, walkpgdir, load, kpoke, set_mem; cbn [negb]; sleepless_tac.
Qed.
Lemma sleepless_dosignal : sleepless (dosignal (e_pad e)).
Proof.
  pose proof (fun pd va l => sleepless_onk _ (sleepless_copyout pd va l)). assert (forall A w (l : list A) n, sleepless (S := sigst) (aget w l n)) by (intros; unfold aget; sleepless_tac).
  unfold dosignal. generalize (NSIG - 1)%nat 1. intros k. induction k as [|k IH]; intros n; cbn [dosignal_from]; unfold deliver, push, deliver_failed; sleepless_tac.
Qed.
Lemma sleepless_ide : sleepless ide_interrupt.
Proof. assert (forall i, sleepless (bget i)) by (intros i; unfold bget; sleepless_tac). unfold ide_interrupt, ide_start, bmod. sleepless_tac. Qed.
Lemma sleepless_running : sleepless running.
Proof. unfold running. sleepless_tac. Qed.
Lemma wcalm_running : wcalm running.
Proof. unfold running. wcalm_tac. Qed.
Lemma ends_skip : ends (mret tt).
Proof. apply ends_calm; [apply wcalm_ret | discriminate]. Qed.
Lemma ends_if_killed : ends (exit_if_killed e).
Proof. apply ends_bind; [apply wcalm_curproc | apply sleepless_curproc|]. intros p. destruct (nz (killed p)); [apply ends_exit | apply ends_skip]. Qed.
Lemma ends_exit_user f : ends (exit_user e f).
Proof. apply ends_bind; [apply wcalm_running | apply sleepless_running|]. intros b. destruct (_ && _); [apply ends_if_killed | apply ends_skip]. Qed.
Lemma ends_dosignal : ends (onK (onsig (dosignal (e_pad e)))).
Proof. apply ends_calm; [apply wcalm_onK, calm_onsig, own_dosignal | apply sleepless_onK, sleepless_onsig, sleepless_dosignal]. Qed.
Lemma ends_pset g : (forall p, dead (g p) = dead p) -> (forall p, ofile (g p) = ofile p) -> ends (onK (pset g)).
Proof. intros Hd Ho. apply ends_calm; [apply wcalm_onK, calm_pset; assumption | apply sleepless_pset]. Qed.
Lemma ends_fault f : ends (fault_trap e f).
Proof.
  apply ends_bind; [apply wcalm_running | apply sleepless_running|]. intros b. destruct (_ || _).
  - destruct (if trapno f <? 0 then _ else _); intros ? ? ?; exact I.
  - apply ends_bind; [apply wcalm_curproc | apply sleepless_curproc|]. intros p. apply ends_seq; [destruct (_ =? _); [apply ends_exit | apply ends_skip]|].
    apply ends_seq; [apply ends_pset; reflexivity | apply ends_dosignal].
Qed.
Lemma ends_timer f : ends (timer e f).
Proof.
  apply ends_seq; [apply ends_calm; [apply wcalm_modify; reflexivity | discriminate]|].
  apply ends_seq; [apply ends_calm; [apply wcalm_onK, calm_onps, pcalm_wakeup | apply sleepless_onK, sleepless_onps, sleepless_wakeup]|].
  apply ends_bind; [apply wcalm_running | apply sleepless_running|]. intros b. destruct (_ && _); [|apply ends_skip].
  apply ends_calm; [apply wcalm_onK, calm_onsig | apply sleepless_onK, sleepless_onsig]; unfold alarm_tick; [own_sig_tac | sleepless_tac].
Qed.
Lemma ends_tcalm (m : T unit) : tcalm m -> ends (onT m).
Proof. intros [H1 H2]. apply ends_calm; [apply wcalm_onT, H1 | apply sleepless_onT, H2]. Qed.
Lemma ends_device fuel f : ends (trap_device e fuel f).
Proof.
  unfold trap_device. apply ends_bind; [apply wcalm_get | discriminate|]. intros s. destruct (_ =? IRQ_TIMER); [apply ends_timer|].
  destruct (_ =? IRQ_IDE); [apply ends_calm; [apply wcalm_onK, calm_onbio | apply sleepless_onK; intros k ch k' E; unfold onbio in E; destruct (ide_interrupt _) as [| | |c b] eqn:Em; try discriminate; exact (sleepless_ide _ _ _ Em)]|].
  destruct (_ =? IRQ_IDE + 1); [apply ends_skip|]. destruct (_ =? IRQ_KBD); [apply ends_tcalm, tcalm_kbd_interrupt|].
  destruct (_ =? IRQ_COM1); [apply ends_tcalm, tcalm_uart_interrupt|]. destruct (_ || _); [apply ends_tcalm, tcalm_printk | apply ends_fault].
Qed.
(** yield gives the processor away with the tables as they are. *)
Lemma yield_Block i q p ch p' : cur p = Some i -> Proc.ptable p !! i = Some q -> state q = RUNNING -> yield p = Block ch p' -> pframed p p'.
Proof.
  intros Hc Hq Hs E. unfold yield in E. apply awake_step in E as (u & p1 & E1 & F1 & E); [|apply sleepless_locks | apply pcalm_acquire].
  unfold acquire_pt in E1. mstep in E1. destruct (ptlocked p); [discriminate|]. injection E1 as _ <-. set (p1 := p <| ptlocked := true |> <| depth := depth p + 1 |>) in *. transitivity p1; [exact F1|]. clear F1.
  apply awake_step in E as (j & p2 & E2 & _ & E); [|apply sleepless_myproc | apply pcalm_myproc]. unfold myproc in E2. mstep in E2.
  change (cur p1) with (cur p) in E2. rewrite Hc in E2. injection E2 as <- <-.
  unfold mbind, M_bind in E. destruct (pmod i _ p1) as [v p3| | |] eqn:E3; try discriminate. apply sched_Block in E as ->.
  refine (pframed_pmod i _ p1 q v p3 Hq _ _ E3); [unfold dead, is_state; rewrite Hs|]; reflexivity.
Qed.
Lemma kinv_pframed (k : ksys C) p' : pframed (kps k) p' -> kinv k -> kinv (k <| kps := p' |>).
Proof. intros (F1 & F2 & F3) HK. apply (kinv_taken k _ HK). split; [|exact F2]. split_and!; auto. Qed.
Lemma set_kps_id (k : ksys C) : k <| kps := kps k |> = k.
Proof. destruct k. reflexivity. Qed.
Lemma ends_yield : ends (p ← onK curproc; when (is_state RUNNING p) (onK (onps yield))).
Proof.
  intros i s [HK Hc Hi]. unfold mbind, M_bind. destruct (onK curproc s) as [p s1| | |ch s1] eqn:E1; try exact I; [|destruct (sleepless_curproc _ _ _ E1)].
  apply onK_Ok in E1. unfold curproc, onps, myproc, pget in E1. mstep in E1. rewrite Hc in E1.
  destruct (Proc.ptable (kps (kern s)) !! i) as [q|] eqn:Eq; [|discriminate]. injection E1 as <- Ek. rewrite set_kps_id in Ek.
  destruct (is_state RUNNING q) eqn:Es; cbn [when]; [|cbn; rewrite <-Ek; split; assumption]. apply is_state_true in Es.
  unfold onK, onT, onsys, onps. rewrite <-Ek. destruct (yield (kps (kern s))) as [u p1| | |ch p1] eqn:Ey; try exact I.
  - exfalso. unfold yield in Ey. do 3 (apply bind_Ok in Ey as (? & ? & _ & Ey)). exact (sched_no_return _ _ _ _ Ey).
  - left. exact (kinv_pframed _ _ (yield_Block i q _ _ _ Hc Eq Es Ey) HK).
Qed.
Lemma ends_trap fuel f : trapno f <> T_SYSCALL -> ends (trap e fuel f).
Proof.
  intros Hf. unfold trap. destruct (Z.eqb_spec (trapno f) T_SYSCALL); [contradiction|]. apply ends_bind; [apply wcalm_running | apply sleepless_running|]. intros b.
  apply ends_seq; [destruct (_ && _); [apply ends_pset; reflexivity | apply ends_skip]|]. apply ends_seq; [apply ends_device|].
  unfold trap_tail. apply ends_seq; [apply ends_exit_user|]. apply ends_bind; [apply wcalm_running | apply sleepless_running|]. intros b'.
  apply ends_seq; [destruct b'; [apply ends_yield | apply ends_skip] | apply ends_exit_user].
Qed.
End table.


(** The state of FdRefs.v with terminals and clock around it: process 0 calls dup. *)
Definition trap_env : kenv := Kenv (fun _ => Devops None None) 0 0 0 [] [] [] [] (0, 0) [] (fun _ => 0) 0 0 (fun _ _ => 0) (fun _ => 0) 0 0.
Definition trap_sys : msys C :=
  Msys (Tsys (resume 0 zero_tf fd_sys) [] 0 [] 0 [] (Ring [] 0 0 0) false false false false false 0 []) (Time.Clock 1 0 0) 0 [] [] false 0.
Definition dup_frame : trapframe := zero_tf <| eax := 41 |> <| trapno := T_SYSCALL |>.
