(* ===== verification/Malloc.v ===== *)
(** * The user-space allocator (src/muslpatch/xv6malloc/malloc.c)

    The allocator that replaces the one of the C library, on the memory of a user
    process.  A header is two words, [ptr] and [size], the size in units of eight
    bytes; [base] is the address of the static header and [freep] the static
    pointer.  The process reaches the bytes up to its size rounded up to pages;
    [brk] is its size, which the system call 59 changes as sys_sbrk of sys.c does,
    and [room] says whether the kernel finds the memory.  [fuel] bounds the steps
    around the ring of free blocks. *)
From Stdlib Require Import ZArith Lia.
From stdpp Require Import base numbers list strings.
From S2P Require Import Prelude KString Kalloc Locks Proc.
Local Open Scope Z_scope.

Definition HEADER : Z := 8.

Record heap := Heap { hmem : mem; freep : Z; brk : Z }.
#[export] Instance heap_fields : Fields heap := fun h => Heap (hmem h) (freep h) (brk h).

Section malloc.
Context (base : Z) (room : Z -> Z -> bool) (fuel : nat).
#[local] Abbreviation U := (M heap).

(** ** Memory of the process *)

Definition reach (h : heap) (a n : Z) : bool := (0 <? a) && (a + n <=? PGROUNDUP (brk h)).
Definition hload (a : Z) : U Z :=
  h ← get; if reach h a 4 then mret (load32 (hmem h) a) else fault "segmentation fault".
Definition hstore (a v : Z) : U unit :=
  h ← get; if reach h a 4 then put (h <| hmem := store32 (hmem h) a v |>) else fault "segmentation fault".

(** [p->s.ptr], [p->s.size] *)
Definition ptr (p : Z) : U Z := hload p.
Definition size (p : Z) : U Z := hload (p + 4).
Definition set_ptr (p v : Z) : U unit := hstore p v.
Definition set_size (p v : Z) : U unit := hstore (p + 4) v.
(** [p + n] for a header pointer *)
Definition hplus (p n : Z) : Z := u32 (p + HEADER * n).

(** The size grow_proc gives the process: allocuvm for a positive [n], deallocuvm
    for a negative one. *)
Definition grown (sz n : Z) : Z :=
  let new := u32 (sz + n) in
  if 0 <? n then if new <? sz then sz else if room sz n then new else 0
  else if n <? 0 then if sz <=? new then sz else new
  else sz.
(** [__syscall(59, n)]: the old size of the process, or -ENOMEM. *)
Definition sbrk (n : Z) : U Z :=
  h ← get;
  let sz := grown (brk h) n in
  if negb (n =? 0) && (sz =? 0) then mret (u32 (- ENOMEM))
  else put (h <| brk := sz |>);; mret (brk h).

(** ** free *)

Fixpoint free_find (k : nat) (bp p : Z) : U Z :=
  match k with
  | O => fault "free"
  | S k' =>
      n ← ptr p;
      if (p <? bp) && (bp <? n) then mret p
      else if (n <=? p) && ((p <? bp) || (bp <? n)) then mret p
      else free_find k' bp n
  end.

(** The block after [bp] is joined to it. *)
Definition join_next (bp p : Z) : U unit :=
  sz ← size bp;
  n ← ptr p;
  if hplus bp sz =? n then
    nsz ← size n;
    set_size bp (u32 (sz + nsz));;
    nn ← ptr n;
    set_ptr bp nn
  else set_ptr bp n.
(** It is joined to the block before it, or linked. *)
Definition join_prev (bp p : Z) : U unit :=
  psz ← size p;
  if hplus p psz =? bp then
    sz ← size bp;
    set_size p (u32 (psz + sz));;
    n ← ptr bp;
    set_ptr p n
  else set_ptr p bp.

Definition free (ap : Z) : U unit :=
  let bp := u32 (ap - HEADER) in
  h ← get;
  p ← free_find fuel bp (freep h);
  join_next bp p;;
  join_prev bp p;;
  modify (fun h => h <| freep := p |>).

(** ** malloc *)

Definition morecore (nu : Z) : U Z :=
  let nu := if nu <? 4096 then 4096 else nu in
  p ← sbrk (i32 (u32 (nu * HEADER)));
  if p =? u32 (-1) then mret 0
  else
    set_size p nu;;
    free (hplus p 1);;
    h ← get;
    mret (freep h).

(** [nunits] of the block [p], of size [sz], whose predecessor is [prevp]. *)
Definition take_block (nunits prevp p sz : Z) : U Z :=
  q ← (if sz =? nunits then
         n ← ptr p; set_ptr prevp n;; mret p
       else
         set_size p (u32 (sz - nunits));;
         sz' ← size p;
         let q := hplus p sz' in
         set_size q nunits;;
         mret q);
  modify (fun h => h <| freep := prevp |>);;
  mret (hplus q 1).

Fixpoint malloc_loop (k : nat) (nunits prevp p : Z) : U Z :=
  match k with
  | O => fault "malloc"
  | S k' =>
      sz ← size p;
      if nunits <=? sz then take_block nunits prevp p sz
      else
        h ← get;
        if p =? freep h then
          p' ← morecore nunits;
          if p' =? 0 then mret 0 else n ← ptr p'; malloc_loop k' nunits p' n
        else n ← ptr p; malloc_loop k' nunits p n
  end.

(** [(nbytes + sizeof(Header) - 1)/sizeof(Header) + 1] *)
Definition units (nbytes : Z) : Z := u32 (u32 (u32 (nbytes + HEADER) - 1) / HEADER + 1).

Definition malloc (nbytes : Z) : U Z :=
  let nunits := units nbytes in
  h ← get;
  (if freep h =? 0 then
     modify (fun h => h <| freep := base |>);; set_ptr base base;; set_size base 0
   else mret tt);;
  h ← get;
  n ← ptr (freep h);
  malloc_loop (2 * fuel) nunits (freep h) n.

(** ** realloc *)

(** The copy goes byte by byte from the start. *)
Definition copy_block (dst src n : Z) : U unit :=
  h ← get;
  if (n =? 0) || (reach h dst n && reach h src n) then put (h <| hmem := copy_up (hmem h) dst src (Z.to_nat n) |>)
  else fault "segmentation fault".
Definition realloc (ap nbytes : Z) : U Z :=
  if ap =? 0 then malloc nbytes
  else if nbytes =? 0 then free ap;; mret 0
  else
    let nunits := units nbytes in
    let bp := u32 (ap - HEADER) in
    oldsize ← size bp;
    if nunits <=? oldsize then mret ap
    else
      newp ← malloc nbytes;
      if newp =? 0 then mret 0
      else
        copy_block newp ap (u32 (u32 (oldsize - 1) * HEADER));;
        free ap;;
        mret newp.
End malloc.
