(* ===== verification/MallocThm.v ===== *)
(** * The user-space allocator: correctness

    The free blocks, in the order of their addresses and after [base], form the ring
    of the code, no two of them adjacent.  Free blocks and blocks in use are counted
    byte by byte ([cov]): each byte of the heap belongs to at most one block, and
    malloc, free and realloc move bytes between the two sides without losing one. *)
From Stdlib Require Import ZArith Lia.
From stdpp Require Import base numbers list strings.
From S2P Require Import Prelude KString Kalloc Locks Proc Malloc.
Local Open Scope Z_scope.

(** ** Blocks *)

(** The address of a header and the size in units, the header included. *)
Abbreviation block := (Z * Z)%type.
Definition covers (b : block) (x : Z) : bool := (b.1 <=? x) && (x <? b.1 + 8 * b.2).
Fixpoint cov (l : list block) (x : Z) : Z :=
  match l with [] => 0 | b :: l' => b2z (covers b x) + cov l' x end.

Lemma b2z_range c : 0 <= b2z c <= 1.
Proof. destruct c; cbn; lia. Qed.
Lemma cov_nonneg l x : 0 <= cov l x.
Proof. induction l as [|b l IH]; cbn [cov]; [lia|]. pose proof (b2z_range (covers b x)). lia. Qed.
Lemma cov_app l k x : cov (l ++ k) x = cov l x + cov k x.
Proof. induction l as [|b l IH]; cbn [cov app]; lia. Qed.
Lemma cov_perm l k x : l ≡ₚ k -> cov l x = cov k x.
Proof. induction 1; cbn [cov]; lia. Qed.
Lemma covers_true b x : b.1 <= x < b.1 + 8 * b.2 -> covers b x = true.
Proof. intros H. unfold covers. apply andb_true_iff. split; [apply Z.leb_le | apply Z.ltb_lt]; lia. Qed.
Lemma covers_false b x : ~ (b.1 <= x < b.1 + 8 * b.2) -> covers b x = false.
Proof. intros H. unfold covers. apply andb_false_iff. destruct (Z.leb_spec b.1 x); [right; apply Z.ltb_ge | left; reflexivity]; lia. Qed.
Lemma covers_inv b x : covers b x = true -> b.1 <= x < b.1 + 8 * b.2.
Proof. unfold covers. rewrite andb_true_iff, Z.leb_le, Z.ltb_lt. lia. Qed.
Lemma cov_in l b x : b ∈ l -> covers b x = true -> 1 <= cov l x.
Proof.
  intros Hb Hx. induction Hb as [b l | b c l _ IH]; cbn [cov].
  - rewrite Hx. pose proof (cov_nonneg l x). cbn. lia.
  - specialize (IH Hx). pose proof (b2z_range (covers c x)). lia.
Qed.
Lemma cov_zero l x : (forall b, b ∈ l -> ~ (b.1 <= x < b.1 + 8 * b.2)) -> cov l x = 0.
Proof.
  induction l as [|b l IH]; intros H; cbn [cov]; [reflexivity|]. rewrite covers_false by (apply H; left). rewrite IH; [reflexivity|]. intros c Hc. apply H. right. exact Hc.
Qed.
(** A block cut in two. *)
Lemma cov_split a s n x : 0 <= n <= s -> b2z (covers (a, s) x) = b2z (covers (a, n) x) + b2z (covers (a + 8 * n, s - n) x).
Proof.
  intros Hn. unfold covers. cbn [fst snd]. destruct (Z.leb_spec a x), (Z.ltb_spec x (a + 8 * s)), (Z.ltb_spec x (a + 8 * n)), (Z.leb_spec (a + 8 * n) x), (Z.ltb_spec x (a + 8 * n + 8 * (s - n)));
    cbn; lia.
Qed.

(** ** Lists of blocks in memory *)

Definition hd_addr (l : list block) (z : Z) : Z := match l with [] => z | b :: _ => b.1 end.
(** Each block points to the next, the last one to [z]. *)
Fixpoint lseg (m : mem) (l : list block) (z : Z) : Prop :=
  match l with
  | [] => True
  | b :: l' => load32 m b.1 = hd_addr l' z /\ load32 m (b.1 + 4) = b.2 /\ lseg m l' z
  end.
Lemma hd_addr_app l k z : hd_addr (l ++ k) z = hd_addr l (hd_addr k z).
Proof. destruct l; reflexivity. Qed.
Lemma lseg_app m l k z : lseg m (l ++ k) z <-> lseg m l (hd_addr k z) /\ lseg m k z.
Proof. induction l as [|b l IH]; cbn [lseg app]; [tauto|]. rewrite hd_addr_app, IH. tauto. Qed.
(** Memory that is the same in the headers. *)
Lemma lseg_frame m m' l z : (forall b x, b ∈ l -> b.1 <= x < b.1 + 8 -> m' x = m x) -> lseg m l z -> lseg m' l z.
Proof.
  induction l as [|b l IH]; intros H; cbn [lseg]; [auto|]. intros (H1 & H2 & H3). split_and!.
  - rewrite <-H1. apply load32_frame. intros x Hx. apply (H b); [left | lia].
  - rewrite <-H2. apply load32_frame. intros x Hx. apply (H b); [left | lia].
  - apply IH; [|exact H3]. intros c x Hc. apply H. right. exact Hc.
Qed.

(** The end of a block; the header [base], of size 0, counts as a header. *)
Definition bend (b : block) : Z := Z.max (b.1 + 8 * b.2) (b.1 + 7).
(** Blocks in the order of addresses, from [e] on, with gaps between them. *)
Fixpoint apart (e : Z) (l : list block) : Prop :=
  match l with
  | [] => True
  | b :: l' => e < b.1 /\ 0 <= b.2 /\ apart (bend b) l'
  end.
Definition lend (e : Z) (l : list block) : Z := match last l with Some b => bend b | None => e end.
Lemma lend_cons e b l : lend e (b :: l) = lend (bend b) l.
Proof. unfold lend. destruct l as [|c l]; [reflexivity|]. change (last (b :: c :: l)) with (last (c :: l)). destruct (last (c :: l)) eqn:E; [reflexivity|]. apply last_None in E. discriminate. Qed.
Lemma apart_app e l k : apart e (l ++ k) <-> apart e l /\ apart (lend e l) k.
Proof.
  revert e. induction l as [|b l IH]; intros e; cbn [app apart]; [unfold lend; cbn; tauto|]. rewrite IH, lend_cons. tauto.
Qed.
Lemma lend_app e l k : lend e (l ++ k) = lend (lend e l) k.
Proof. revert e. induction l as [|b l IH]; intros e; [unfold lend at 2; reflexivity|]. cbn [app]. rewrite !lend_cons. apply IH. Qed.
Lemma apart_weaken e e' l : e' <= e -> apart e l -> apart e' l.
Proof. destruct l; cbn [apart]; [auto|]. intros H (H1 & H2 & H3). split_and!; auto; lia. Qed.
Lemma apart_after e l b : apart e l -> b ∈ l -> e < b.1 /\ 0 <= b.2.
Proof.
  revert e. induction l as [|c l IH]; intros e Ha Hb; [inversion Hb|]. destruct Ha as (H1 & H2 & H3). apply elem_of_cons in Hb as [-> | Hb]; [lia|].
  destruct (IH _ H3 Hb). unfold bend in *. lia.
Qed.
Lemma apart_lend e l : apart e l -> e <= lend e l /\ forall b, b ∈ l -> bend b <= lend e l.
Proof.
  revert e. induction l as [|c l IH]; intros e Ha; [split; [reflexivity | intros b Hb; inversion Hb]|]. destruct Ha as (H1 & H2 & H3). destruct (IH _ H3) as [I1 I2].
  rewrite lend_cons. split; [unfold bend in *; lia|]. intros b Hb. apply elem_of_cons in Hb as [-> | Hb]; auto.
Qed.

(** ** Steps of the code *)

Definition LIMIT : Z := 2 ^ 31.
Lemma reach_ok m f br a n : 0 < a -> 0 <= n -> a + n <= br -> br <= LIMIT -> reach (Heap m f br) a n = true.
Proof.
  intros Ha Hn Han Hb. unfold reach. cbn [brk]. rewrite PGROUNDUP_spec by (unfold PGSIZE, LIMIT in *; lia). apply andb_true_iff. split; [apply Z.ltb_lt; lia|]. apply Z.leb_le.
  unfold PGSIZE. pose proof (Z.mod_pos_bound (br + 4096 - 1) 4096 ltac:(lia)). pose proof (Z.div_mod (br + 4096 - 1) 4096 ltac:(lia)). lia.
Qed.
(** The header at [a] is in the process. *)
Definition at_ok (br a : Z) : Prop := 0 < a /\ a + 8 <= br /\ br <= LIMIT.
Lemma at_reach m f br a d : at_ok br a -> d = 0 \/ d = 4 -> reach (Heap m f br) (a + d) 4 = true.
Proof. intros (H1 & H2 & H3) Hd. apply reach_ok; lia. Qed.

Section steps.
Context {B : Type} (m : mem) (f br a : Z) (Ha : at_ok br a).
Lemma ptr_step (k : Z -> M heap B) : (ptr a ≫= k) (Heap m f br) = k (load32 m a) (Heap m f br).
Proof. unfold ptr, hload. mstep. pose proof (at_reach m f br a 0 Ha ltac:(auto)) as Hr. rewrite Z.add_0_r in Hr. rewrite Hr. reflexivity. Qed.
Lemma size_step (k : Z -> M heap B) : (size a ≫= k) (Heap m f br) = k (load32 m (a + 4)) (Heap m f br).
Proof. unfold size, hload. mstep. rewrite at_reach by auto. reflexivity. Qed.
Lemma set_ptr_step v (k : unit -> M heap B) : (set_ptr a v ≫= k) (Heap m f br) = k tt (Heap (store32 m a v) f br).
Proof. unfold set_ptr, hstore. mstep. pose proof (at_reach m f br a 0 Ha ltac:(auto)) as Hr. rewrite Z.add_0_r in Hr. rewrite Hr. reflexivity. Qed.
Lemma set_size_step v (k : unit -> M heap B) : (set_size a v ≫= k) (Heap m f br) = k tt (Heap (store32 m (a + 4) v) f br).
Proof. unfold set_size, hstore. mstep. rewrite at_reach by auto. reflexivity. Qed.
End steps.
Lemma set_ptr_last m f br a v : at_ok br a -> set_ptr a v (Heap m f br) = Ok tt (Heap (store32 m a v) f br).
Proof. intros Ha. pose proof (set_ptr_step m f br a Ha v mret) as E. rewrite bind_ret_r in E. exact E. Qed.

(** Stores and the words of a header. *)
Lemma load32_store_ne m a v x : x + 4 <= a \/ a + 4 <= x -> load32 (store32 m a v) x = load32 m x.
Proof. intros H. apply load32_frame. intros y Hy. apply store32_ne. lia. Qed.
Lemma hplus_small p n br : 0 <= p -> 0 <= n -> p + 8 * n <= br -> br <= LIMIT -> hplus p n = p + 8 * n.
Proof. intros Hp Hn H Hb. unfold hplus, HEADER. apply uwrap_id. unfold in_u, LIMIT in *. lia. Qed.
Lemma u32_small z : 0 <= z <= LIMIT -> u32 z = z.
Proof. intros H. apply uwrap_id. unfold in_u, LIMIT in *. lia. Qed.

(** ** The place of a block in the ring *)

Section ring.
Context (base : Z).

Definition node_ok (br : Z) (l : list block) : Prop := Forall (fun b : block => at_ok br b.1) l.

(** Blocks below [bp] are passed, up to the one at [z]. *)
Lemma find_low m f br bp z e l k : apart e l -> lend e l < z < bp -> lseg m l z -> node_ok br l ->
  free_find (length l + k) bp (hd_addr l z) (Heap m f br) = free_find k bp z (Heap m f br).
Proof.
  revert e. induction l as [|b l IH]; intros e Ha Hz Hl Hn; [reflexivity|]. destruct Ha as (H1 & H2 & H3), Hl as (L1 & L2 & L3). inversion Hn as [|? ? Hb Hn']; subst.
  rewrite lend_cons in Hz. cbn [length Nat.add free_find hd_addr]. rewrite (ptr_step _ _ _ _ Hb), L1.
  assert (b.1 < hd_addr l z < bp) as Hh.
  { destruct l as [|c l]; [unfold lend, bend in *; cbn in *; lia|]. cbn [hd_addr]. destruct (apart_lend _ _ H3) as [_ He]. specialize (He c ltac:(left)).
    destruct H3 as (H3 & _ & _). unfold bend in *. lia. }
  rewrite (proj2 (Z.ltb_lt b.1 bp)), (proj2 (Z.ltb_ge bp (hd_addr l z))), (proj2 (Z.leb_gt (hd_addr l z) b.1)) by lia. exact (IH _ H3 Hz L3 Hn').
Qed.
(** Blocks above it are passed, on to [base]. *)
Lemma find_high m f br bp e l k : apart e l -> bp <= e -> base < bp -> lseg m l base -> node_ok br l ->
  free_find (length l + k) bp (hd_addr l base) (Heap m f br) = free_find k bp base (Heap m f br).
Proof.
  revert e. induction l as [|b l IH]; intros e Ha He Hb Hl Hn; [reflexivity|]. destruct Ha as (H1 & H2 & H3), Hl as (L1 & L2 & L3). inversion Hn as [|? ? Hok Hn']; subst.
  cbn [length Nat.add free_find hd_addr]. rewrite (ptr_step _ _ _ _ Hok), L1. rewrite (proj2 (Z.ltb_ge b.1 bp)) by lia. cbn [andb orb].
  assert ((hd_addr l base <=? b.1) && (bp <? hd_addr l base) = false) as ->.
  { destruct l as [|c l]; cbn [hd_addr]; [rewrite andb_false_iff; right; apply Z.ltb_ge; lia|]. destruct H3 as (H3 & _ & _). rewrite andb_false_iff. left. apply Z.leb_gt. unfold bend in *. lia. }
  refine (IH (bend b) H3 _ Hb L3 Hn'). unfold bend. lia.
Qed.
(** The last block below [bp]. *)
Lemma split_below e l b bp : apart e (b :: l) -> b.1 < bp -> (forall c, c ∈ l -> c.1 <> bp) ->
  exists l1 p l2, b :: l = l1 ++ p :: l2 /\ p.1 < bp /\ bp < hd_addr l2 (bp + 1).
Proof.
  revert e b. induction l as [|c l IH]; intros e b Ha Hb Hne.
  - exists [], b, []. cbn. split_and!; auto; lia.
  - destruct Ha as (_ & _ & Ha). pose proof (Hne c ltac:(left)) as Hc. destruct (Z.ltb_spec c.1 bp).
    + destruct (IH _ c Ha ltac:(lia)) as (l1 & p & l2 & E & H1 & H2); [intros d Hd; apply Hne; right; exact Hd|]. exists (b :: l1), p, l2. rewrite E. auto.
    + exists [], b, (c :: l). cbn [hd_addr]. split_and!; auto; lia.
Qed.
Lemma find_ok m f br bp l1 p l2 k : let l := l1 ++ p :: l2 in
  apart (base - 1) l -> hd_addr l 0 = base -> lseg m l base -> node_ok br l -> f ∈ map fst l -> p.1 < bp -> bp < hd_addr l2 (bp + 1) -> (length l <= k)%nat ->
  free_find k bp f (Heap m f br) = Ok p.1 (Heap m f br).
Proof.
  intros l Ha Hh Hl Hn Hf Hp H2 Hk. subst l. pose proof (proj1 (apart_app _ _ _) Ha) as [Ha1 (Hlp & Hp0 & Ha2)]. apply lseg_app in Hl as [Hl1 (Lp1 & Lp2 & Hl2)].
  apply Forall_app in Hn as [Hn1 Hn2]. apply Forall_cons in Hn2 as [Hnp Hn2].
  assert (apart bp l2) as Ha2' by (destruct l2 as [|c l2]; [exact I|]; cbn [hd_addr] in H2; destruct Ha2 as (_ & B & C); split_and!; auto).
  assert (base <= p.1) as Hbp by (destruct l1 as [|c l1]; cbn in Hh; [lia|]; destruct Ha1 as (A & _ & C); pose proof (apart_lend _ _ C) as [D _]; rewrite lend_cons in Hlp; unfold bend in *; lia).
  assert (forall j, free_find (S j) bp p.1 (Heap m f br) = Ok p.1 (Heap m f br)) as Hstop.
  { intros j. cbn [free_find]. rewrite (ptr_step _ _ _ _ Hnp), Lp1. rewrite (proj2 (Z.ltb_lt p.1 bp)) by lia. cbn [andb orb].
    destruct l2 as [|c l2]; cbn [hd_addr] in *; [|rewrite (proj2 (Z.ltb_lt bp c.1)) by lia; reflexivity].
    rewrite (proj2 (Z.ltb_ge bp base)) by lia. rewrite (proj2 (Z.leb_le base p.1)) by lia. reflexivity. }
  assert (forall j, (length l1 < j)%nat -> free_find j bp base (Heap m f br) = Ok p.1 (Heap m f br)) as Hlow.
  { intros j Hj. replace base with (hd_addr l1 p.1) by (destruct l1; cbn in Hh |- *; congruence). replace j with (length l1 + S (j - length l1 - 1))%nat by lia.
    rewrite (find_low m f br bp p.1 (base - 1) l1 _ Ha1) by (auto; lia). apply Hstop. }
  rewrite length_app in Hk. cbn [length] in Hk. rewrite map_app, elem_of_app in Hf. destruct Hf as [Hf | Hf].
  - apply list_elem_of_fmap in Hf as (c & -> & Hc). apply list_elem_of_split in Hc as (x & y & ->). rewrite length_app in Hk. cbn [length] in Hk.
    apply apart_app in Ha1 as [Hax Hay]. rewrite lend_app in Hlp. apply lseg_app in Hl1 as [_ Hly]. apply Forall_app in Hn1 as [_ Hny].
    change c.1 with (hd_addr (c :: y) p.1) at 1. replace k with (length (c :: y) + S (k - length (c :: y) - 1))%nat by (cbn [length]; lia).
    rewrite (find_low _ _ _ _ _ _ _ _ Hay) by (auto; lia). apply Hstop.
  - cbn [map] in Hf. apply elem_of_cons in Hf as [-> | Hf]; [replace k with (S (k - 1)) by lia; apply Hstop|].
    apply list_elem_of_fmap in Hf as (c & -> & Hc). apply list_elem_of_split in Hc as (x & y & ->). rewrite length_app in Hk. cbn [length] in Hk.
    apply apart_app in Ha2' as [Hax Hay]. apply lseg_app in Hl2 as [_ Hly]. apply Forall_app in Hn2 as [_ Hny].
    change c.1 with (hd_addr (c :: y) base) at 1. replace k with (length (c :: y) + (k - length (c :: y)))%nat by (cbn [length]; lia).
    rewrite (find_high _ _ _ _ _ _ _ Hay) by (auto; pose proof (apart_lend _ _ Hax); lia). apply Hlow. cbn [length]. lia.
Qed.

(** ** free *)

(** What a step changes: headers only. *)
Definition changes (m m' : mem) (P : Z -> Prop) : Prop := forall x, ~ P x -> m' x = m x.
Lemma lseg_changes m m' P l z : changes m m' P -> (forall b x, b ∈ l -> b.1 <= x < b.1 + 8 -> ~ P x) -> lseg m l z -> lseg m' l z.
Proof. intros Hc Hd. apply lseg_frame. intros b x Hb Hx. apply Hc, (Hd b x Hb Hx). Qed.
Lemma load32_changes m m' P a : changes m m' P -> (forall x, a <= x < a + 4 -> ~ P x) -> load32 m' a = load32 m a.
Proof. intros Hc Hd. apply load32_frame. intros x Hx. apply Hc, Hd, Hx. Qed.

(** The blocks end in the process. *)
Definition ends_ok (br : Z) (l : list block) : Prop := Forall (fun b : block => b.1 + 8 * b.2 <= br) l.

Lemma join_next_ok m f br bp s p l2 :
  at_ok br bp -> at_ok br p -> 0 < s -> bp + 8 * s <= br -> 0 < base < bp -> load32 m (bp + 4) = s -> load32 m p = hd_addr l2 base ->
  lseg m l2 base -> node_ok br l2 -> ends_ok br l2 -> apart (bp + 8 * s - 1) l2 ->
  exists m' s' pre l2', join_next bp p (Heap m f br) = Ok tt (Heap m' f br) /\ changes m m' (fun x => bp <= x < bp + 8)
    /\ l2 = pre ++ l2' /\ s <= s' /\ bp + 8 * s' <= br /\ load32 m' bp = hd_addr l2' base /\ load32 m' (bp + 4) = s' /\ apart (bp + 8 * s') l2'
    /\ forall x, b2z (covers (bp, s') x) + cov l2' x = b2z (covers (bp, s) x) + cov l2 x.
Proof.
  intros Hb Hp Hs He Hbb Ls Lp Hl Hn Hen Ha. pose proof Hb as (Hb1 & Hb2 & Hb3). unfold join_next. rewrite (size_step _ _ _ _ Hb), Ls, (ptr_step _ _ _ _ Hp), Lp.
  rewrite (hplus_small bp s br) by lia. destruct (Z.eqb_spec (bp + 8 * s) (hd_addr l2 base)) as [Eq | Ne].
  - destruct l2 as [|c l2]; [cbn in Eq; lia|]. cbn [hd_addr] in Eq |- *. apply Forall_cons in Hn as [Hc Hn]. apply Forall_cons in Hen as [Hce Hen]. destruct Hl as (L1 & L2 & L3), Ha as (A1 & A2 & A3).
    rewrite (size_step _ _ _ _ Hc), L2, (set_size_step _ _ _ _ Hb). rewrite (ptr_step _ _ _ _ Hc), (load32_store_ne _ _ _ c.1), L1 by lia.
    rewrite (u32_small (s + c.2)) by (unfold LIMIT in *; lia).
    exists (store32 (store32 m (bp + 4) (s + c.2)) bp (hd_addr l2 base)), (s + c.2), [c], l2. split_and!; [apply set_ptr_last, Hb| | reflexivity | lia | lia | | | |].
    + intros x Hx. rewrite !store32_ne by lia. reflexivity.
    + rewrite load_store32; [reflexivity|]. unfold in_u, LIMIT in *. destruct l2 as [|d l2]; cbn [hd_addr]; [lia|]. apply Forall_cons in Hn as [(Hd1 & Hd2 & Hd3) _]. lia.
    + rewrite load32_store_ne by lia. apply load_store32. unfold in_u, LIMIT in *. lia.
    + revert A3. apply apart_weaken. unfold bend. lia.
    + intros x. cbn [cov]. rewrite (cov_split bp (s + c.2) s x) by lia. replace (s + c.2 - s) with c.2 by lia. rewrite Eq. destruct c. cbn [fst snd]. lia.
  - exists (store32 m bp (hd_addr l2 base)), s, [], l2. split_and!; [apply set_ptr_last, Hb| | reflexivity | lia | lia | | | | reflexivity].
    + intros x Hx. rewrite store32_ne by lia. reflexivity.
    + apply load_store32. unfold in_u, LIMIT in *. destruct l2 as [|d l2]; cbn [hd_addr]; [lia|]. apply Forall_cons in Hn as [(Hd1 & Hd2 & Hd3) _]. lia.
    + rewrite load32_store_ne by lia. exact Ls.
    + destruct l2 as [|d l2]; [exact I|]. cbn [hd_addr] in Ne. destruct Ha as (A1 & A2 & A3). split_and!; auto. lia.
Qed.

(** [mid] are the blocks that are there now: [p] and the block freed, or both in one. *)
Lemma join_prev_ok m f br bp s p n e :
  at_ok br bp -> at_ok br p.1 -> 0 < s -> bp + 8 * s <= br -> load32 m (bp + 4) = s -> load32 m bp = n -> 0 <= n <= LIMIT ->
  load32 m (p.1 + 4) = p.2 -> 0 <= p.2 -> bend p <= bp -> p.1 + 7 < bp -> e < p.1 ->
  exists m' mid, join_prev bp p.1 (Heap m f br) = Ok tt (Heap m' f br) /\ changes m m' (fun x => p.1 <= x < p.1 + 8)
    /\ lseg m' mid n /\ apart e mid /\ lend e mid = bp + 8 * s /\ hd_addr mid 0 = p.1 /\ node_ok br mid /\ ends_ok br mid
    /\ (exists c, c ∈ mid /\ s <= c.2) /\ (length mid <= 2)%nat /\ (p.2 = 0 -> exists r, mid = p :: r /\ Forall (fun b : block => 0 < b.2) r)
    /\ (0 < p.2 -> Forall (fun b : block => 0 < b.2) mid)
    /\ forall x, cov mid x = b2z (covers p x) + b2z (covers (bp, s) x).
Proof.
  intros Hb Hp Hs He Ls Ln Hn Lp Hp0 Hbe Hbp Hee. pose proof Hb as (Hb1 & Hb2 & Hb3). pose proof Hp as (Hp1 & Hp2 & Hp3). destruct p as [p ps]. cbn [fst snd] in *. unfold bend in Hbe. cbn [fst snd] in Hbe.
  unfold join_prev. rewrite (size_step _ _ _ _ Hp), Lp. rewrite (hplus_small p ps br) by lia.
  destruct (Z.eqb_spec (p + 8 * ps) bp) as [Eq | Ne].
  - rewrite (size_step _ _ _ _ Hb), Ls, (set_size_step _ _ _ _ Hp), (ptr_step _ _ _ _ Hb), (load32_store_ne _ _ _ bp), Ln by lia. rewrite (u32_small (ps + s)) by (unfold LIMIT in *; lia).
    exists (store32 (store32 m (p + 4) (ps + s)) p n), [(p, ps + s)]. split_and!; [apply set_ptr_last, Hp | | | | | reflexivity | | | | cbn; lia | lia | | ].
    + intros x Hx. rewrite !store32_ne by lia. reflexivity.
    + cbn [lseg hd_addr fst snd]. split_and!; [apply load_store32 | rewrite load32_store_ne by lia; apply load_store32 | exact I]; unfold in_u, LIMIT in *; lia.
    + cbn [apart fst snd]. split_and!; auto; lia.
    + unfold lend, bend. cbn. lia.
    + repeat constructor; cbn; lia.
    + repeat constructor; cbn; lia.
    + exists (p, ps + s). split; [left | cbn; lia].
    + intros _. repeat constructor. cbn. lia.
    + intros x. cbn [cov]. rewrite (cov_split p (ps + s) ps x) by lia. replace (ps + s - ps) with s by lia. rewrite Eq. lia.
  - exists (store32 m p bp), [(p, ps); (bp, s)]. split_and!; [apply set_ptr_last, Hp | | | | | reflexivity | | | | cbn; lia | | | ].
    + intros x Hx. rewrite !store32_ne by lia. reflexivity.
    + cbn [lseg hd_addr fst snd]. rewrite (load32_store_ne m p bp (p + 4)), (load32_store_ne m p bp bp), (load32_store_ne m p bp (bp + 4)) by lia. split_and!; auto. apply load_store32. unfold in_u, LIMIT in *. lia.
    + cbn [apart fst snd]. unfold bend. cbn. split_and!; auto; lia.
    + unfold lend, bend. cbn. lia.
    + repeat constructor; cbn; lia.
    + repeat constructor; cbn; lia.
    + exists (bp, s). split; [right; left | cbn; lia].
    + intros _. exists [(bp, s)]. split; [reflexivity | repeat constructor; cbn; lia].
    + intros Hps. repeat constructor; cbn; lia.
    + intros x. cbn [cov]. lia.
Qed.

(** ** The invariant *)

(** [L] are the free blocks, [A] the blocks in use. *)
Record ring_ok (h : heap) (L A : list block) : Prop := RingOk {
  r_base : 0 < base /\ base + 8 <= brk h /\ brk h <= LIMIT;
  r_apart : apart (base - 1) ((base, 0) :: L);
  r_pos : Forall (fun b : block => 0 < b.2) L;
  r_ends : ends_ok (brk h) L;
  r_ring : lseg (hmem h) ((base, 0) :: L) base;
  r_freep : freep h ∈ map fst ((base, 0) :: L);
  r_used : Forall (fun b : block => base + 8 <= b.1 /\ 0 < b.2 /\ b.1 + 8 * b.2 <= brk h /\ load32 (hmem h) (b.1 + 4) = b.2) A;
  r_cov : forall x, cov L x + cov A x <= 1
}.

Lemma ring_perm h L A A' : A ≡ₚ A' -> ring_ok h L A -> ring_ok h L A'.
Proof. intros HA [H1 H2 H3 H4 H5 H6 H7 H8]. split; auto; [rewrite <-HA; exact H7|]. intros x. rewrite <-(cov_perm A A') by exact HA. apply H8. Qed.
Lemma ring_nodes h L A : ring_ok h L A -> node_ok (brk h) ((base, 0) :: L).
Proof.
  intros [(B1 & B2 & B3) HA HP HE _ _ _ _]. unfold node_ok. apply Forall_cons. split; [split_and!; cbn; lia|]. apply Forall_forall. intros b Hb.
  destruct HA as (_ & _ & HA). destruct (apart_after _ _ _ HA Hb) as [H1 _]. unfold bend in H1. cbn in H1. unfold ends_ok in HE. rewrite Forall_forall in HP, HE. specialize (HP b Hb). specialize (HE b Hb). split_and!; lia.
Qed.
(** Two blocks of which one is in use do not overlap. *)
Lemma ring_apart h L A b c : ring_ok h L (b :: A) -> c ∈ L -> c.1 + 8 * c.2 <= b.1 \/ b.1 + 8 * b.2 <= c.1.
Proof.
  intros [_ HA HP _ _ _ HU HC] Hc. apply Forall_cons in HU as [(_ & Hb & _) _]. rewrite Forall_forall in HP. specialize (HP c Hc).
  destruct (Z.le_gt_cases (c.1 + 8 * c.2) b.1); [auto|]. destruct (Z.le_gt_cases (b.1 + 8 * b.2) c.1); [auto|]. exfalso.
  set (x := Z.max b.1 c.1). specialize (HC x). cbn [cov] in HC. rewrite (covers_true b x) in HC by lia.
  pose proof (cov_in L c x Hc (covers_true c x ltac:(lia))). pose proof (cov_nonneg A x). cbn [b2z] in HC. lia.
Qed.

(** The step of free on a block that is in use: where it lies in the ring. *)
Lemma ring_place h L A b : ring_ok h L (b :: A) ->
  exists l1 p l2, (base, 0) :: L = l1 ++ p :: l2 /\ p.1 + 7 < b.1 /\ bend p <= b.1 /\ apart (b.1 + 8 * b.2 - 1) l2 /\ b.1 < hd_addr l2 (b.1 + 1)
    /\ (p.2 = 0 <-> l1 = []) /\ 0 <= p.2.
Proof.
  intros HR. pose proof HR as [(B1 & B2 & B3) HA HP HE HL HF HU HC]. pose proof (Forall_inv HU) as (U1 & U2 & U3 & U4).
  destruct (split_below (base - 1) L (base, 0) b.1 HA ltac:(cbn; lia)) as (l1 & p & l2 & E & Hp & H2).
  { intros c Hc. destruct (ring_apart _ _ _ _ _ HR Hc); rewrite Forall_forall in HP; specialize (HP c Hc); lia. }
  exists l1, p, l2. assert (forall c, c ∈ l2 -> c ∈ L) as H2L by (intros c Hc; destruct l1 as [|d l1]; injection E as _ ->; [exact Hc | apply elem_of_app; right; right; exact Hc]).
  rewrite E in HA. apply apart_app in HA as [HA1 (HA2 & HA3 & HA4)].
  assert (p.2 = 0 <-> l1 = []) as Hz.
  { destruct l1 as [|d l1]; injection E as E1 E2; [rewrite <-E1; cbn; tauto|]. split; [|discriminate]. intros Hz. exfalso.
    rewrite Forall_forall in HP. specialize (HP p ltac:(rewrite E2; apply elem_of_app; right; left)). lia. }
  assert (bend p <= b.1 /\ p.1 + 7 < b.1) as [Hpe Hp7].
  { destruct l1 as [|d l1]; injection E as E1 E2; [rewrite <-E1; unfold bend; cbn; lia|]. destruct (ring_apart _ _ _ _ p HR) as [Ho | Ho]; [rewrite E2; apply elem_of_app; right; left| |lia].
    rewrite Forall_forall in HP. specialize (HP p ltac:(rewrite E2; apply elem_of_app; right; left)). unfold bend. lia. }
  split_and!; auto; try tauto. destruct l2 as [|c l2]; [exact I|]. destruct HA4 as (C1 & C2 & C3). cbn [hd_addr] in H2. split_and!; auto.
  destruct (ring_apart _ _ _ _ c HR) as [Ho | Ho]; [apply H2L; left | lia | lia].
Qed.

Lemma cov_base L x : cov ((base, 0) :: L) x = cov L x.
Proof. cbn [cov]. rewrite covers_false by (cbn; lia). reflexivity. Qed.
(** A byte of a header of the ring is covered, or of [base]. *)
Lemma header_covered L c x : c ∈ (base, 0) :: L -> Forall (fun b : block => 0 < b.2) L -> base + 8 <= x -> cov L x = 0 -> ~ (c.1 <= x < c.1 + 8).
Proof.
  intros Hc HP Hx H0 Hin. apply elem_of_cons in Hc as [-> | Hc]; [cbn in Hin; lia|]. rewrite Forall_forall in HP. specialize (HP c Hc).
  pose proof (cov_in L c x Hc (covers_true c x ltac:(lia))). lia.
Qed.
(** Blocks in use are as they were after a change of free memory. *)
Lemma used_frame m m' L A b br : Forall (fun c : block => base + 8 <= c.1 /\ 0 < c.2 /\ c.1 + 8 * c.2 <= br /\ load32 m (c.1 + 4) = c.2) A ->
  (forall x, cov L x + cov (b :: A) x <= 1) -> (forall x, base + 8 <= x -> cov L x = 0 -> covers b x = false -> m' x = m x) ->
  Forall (fun c : block => base + 8 <= c.1 /\ 0 < c.2 /\ c.1 + 8 * c.2 <= br /\ load32 m' (c.1 + 4) = c.2) A.
Proof.
  intros HU HC HF. rewrite !Forall_forall in HU |- *. intros c Hc. destruct (HU c Hc) as (U1 & U2 & U3 & U4). split_and!; auto. rewrite <-U4. apply load32_frame. intros x Hx.
  specialize (HC x). cbn [cov] in HC. pose proof (cov_in A c x Hc (covers_true c x ltac:(lia))). pose proof (cov_nonneg L x).
  destruct (covers b x) eqn:Eb; cbn [b2z] in HC; [lia|]. apply HF; auto; lia.
Qed.

(** The ring with [mid] in place of [p]: the header [base] stays the first. *)
Lemma new_ring L l1 (p : block) l2 mid pre l2' : (base, 0) :: L = l1 ++ p :: l2 -> l2 = pre ++ l2' -> Forall (fun b : block => 0 < b.2) L -> (p.2 = 0 <-> l1 = []) ->
  0 <= p.2 -> (p.2 = 0 -> exists r, mid = p :: r /\ Forall (fun b : block => 0 < b.2) r) -> (0 < p.2 -> Forall (fun b : block => 0 < b.2) mid) ->
  exists L', (base, 0) :: L' = l1 ++ mid ++ l2' /\ Forall (fun b : block => 0 < b.2) L'.
Proof.
  intros E -> HP Hz H0 Hm0 Hm1. destruct l1 as [|d l1]; injection E as E1 E2; subst.
  - destruct (Hm0 eq_refl) as (r & -> & Hr). exists (r ++ l2'). split; [reflexivity|]. apply Forall_app. split; [exact Hr|]. apply Forall_app in HP as [_ HP]. exact HP.
  - assert (0 < p.2) as Hp by (destruct (Z.eq_dec p.2 0) as [e|]; [apply Hz in e; discriminate | lia]). exists (l1 ++ mid ++ l2'). split; [reflexivity|].
    apply Forall_app in HP as [HP1 HP2]. apply Forall_cons in HP2 as [_ HP2]. apply Forall_app in HP2 as [_ HP2]. rewrite !Forall_app. auto.
Qed.
(** Its links, when only headers of [p] and of the block have changed. *)
Lemma new_links m m1 m2 e l1 (p : block) bp s mid l2' : lseg m l1 p.1 -> lseg m l2' base -> lseg m2 mid (hd_addr l2' base) -> hd_addr mid 0 = p.1 -> mid <> [] ->
  changes m m1 (fun x => bp <= x < bp + 8) -> changes m1 m2 (fun x => p.1 <= x < p.1 + 8) -> apart e l1 -> lend e l1 < p.1 -> p.1 + 7 < bp -> 0 < s -> apart (bp + 8 * s) l2' ->
  lseg m2 (l1 ++ mid ++ l2') base.
Proof.
  intros L1 L2 Lm Hm Hne C1 C2 A1 Hl Hp Hs A2. rewrite !lseg_app. split_and!; auto.
  - replace (hd_addr (mid ++ l2') base) with p.1 by (destruct mid; cbn in *; congruence). destruct (apart_lend _ _ A1) as [_ He].
    apply (lseg_changes m1 m2 _ _ _ C2); [intros b x Hb Hx; specialize (He b Hb); unfold bend in He; lia|].
    apply (lseg_changes m m1 _ _ _ C1); [intros b x Hb Hx; specialize (He b Hb); unfold bend in He; lia | exact L1].
  - apply (lseg_changes m1 m2 _ _ _ C2); [intros b x Hb Hx; destruct (apart_after _ _ b A2 Hb); lia|].
    apply (lseg_changes m m1 _ _ _ C1); [intros b x Hb Hx; destruct (apart_after _ _ b A2 Hb); lia | exact L2].
Qed.

Lemma free_ok fuel h L A b : ring_ok h L (b :: A) -> (length L + 1 <= fuel)%nat ->
  exists h' L', free fuel (b.1 + 8) h = Ok tt h' /\ ring_ok h' L' A /\ brk h' = brk h /\ (length L' <= length L + 1)%nat
    /\ (exists c, c ∈ L' /\ b.2 <= c.2) /\ (forall x, cov L' x = cov L x + b2z (covers b x))
    /\ (forall x, base + 8 <= x -> cov L x = 0 -> covers b x = false -> hmem h' x = hmem h x).
Proof.
  intros HR Hk. destruct (ring_place _ _ _ _ HR) as (l1 & p & l2 & E & Hp7 & Hpe & Ha2 & H2 & Hpz & Hp0). pose proof (ring_nodes _ _ _ HR) as HN.
  pose proof HR as [(B1 & B2 & B3) HA HP HE HL HF HU HC]. apply Forall_cons in HU as [(U1 & U2 & U3 & U4) HU]. destruct h as [m f br]. destruct b as [bp s]. cbn [hmem freep brk fst snd] in *.
  pose proof (cov_base L) as HcL. rewrite E in HN, HL, HF, HA. rewrite E in HcL.
  assert (at_ok br bp) as Hbp by (split_and!; lia). pose proof HN as HN'. apply Forall_app in HN' as [HN1 HN2]. apply Forall_cons in HN2 as [HNp HN2].
  pose proof HL as HL'. apply lseg_app in HL' as [HL1 (Lp1 & Lp2 & HL2)]. cbn [hd_addr] in HL1. pose proof HA as HA'. apply apart_app in HA' as [HA1 (HA2 & HA3 & HA4)].
  assert (ends_ok br ((base, 0) :: L)) as HE' by (apply Forall_cons; split; [cbn; lia | exact HE]). rewrite E in HE'. apply Forall_app in HE' as [HE1 HE2]. apply Forall_cons in HE2 as [HEp HE2].
  unfold free. replace (u32 (bp + 8 - HEADER)) with bp by (unfold HEADER; rewrite u32_small by (unfold LIMIT in *; lia); lia).
  rewrite (bind_step get _ _ _ _ eq_refl). cbn [freep].
  assert (length (l1 ++ p :: l2) = S (length L)) as Hlen by (rewrite <-E; reflexivity).
  rewrite (bind_step _ _ _ _ _ (find_ok m f br bp l1 p l2 fuel HA ltac:(rewrite <-E; reflexivity) HL HN HF ltac:(lia) H2 ltac:(lia))).
  destruct (join_next_ok m f br bp s p.1 l2 Hbp HNp U2 U3 ltac:(lia) U4 Lp1 HL2 HN2 HE2 Ha2) as (m1 & s' & pre & l2' & E1 & C1 & El2 & Hs' & Hs'e & Lb1 & Lb2 & Ha' & Hcov1).
  rewrite (bind_step _ _ _ _ _ E1). subst l2. apply Forall_app in HN2 as [_ HN2]. apply Forall_app in HE2 as [_ HE2]. apply lseg_app in HL2 as [_ HL2].
  destruct (join_prev_ok m1 f br bp s' p (hd_addr l2' base) (lend (base - 1) l1)) as (m2 & mid & E2 & C2 & Lm & Am & Em & Hm & Nm & EEm & (c & Hc & Hcs) & Hml & Hmz & Hmp & Hcov2); auto; try lia.
  { destruct l2' as [|d l2']; cbn [hd_addr]; [unfold LIMIT in *; lia|]. apply Forall_cons in HN2 as [(D1 & D2 & D3) _]. lia. }
  { rewrite <-Lp2. apply (load32_changes m m1 _ _ C1). lia. }
  rewrite (bind_step _ _ _ _ _ E2). destruct (new_ring L l1 p (pre ++ l2') mid pre l2' E eq_refl HP Hpz Hp0 Hmz Hmp) as (L' & EL & HP').
  assert (forall x, cov L' x = cov L x + b2z (covers (bp, s) x)) as Hcov.
  { intros x. rewrite <-(cov_base L' x), EL, <-(HcL x), !cov_app. cbn [cov]. rewrite cov_app, Hcov2. specialize (Hcov1 x). rewrite cov_app in Hcov1. lia. }
  assert (forall x, base + 8 <= x -> cov L x = 0 -> covers (bp, s) x = false -> m2 x = m x) as Hmem.
  { intros x Hx H0 Hb. rewrite C2, C1; [reflexivity | intros Hin; rewrite covers_true in Hb by (cbn; lia); discriminate|].
    apply (header_covered L p x); auto. rewrite E. apply elem_of_app. right. left. }
  assert (mid <> []) as Hmne by (intros ->; inversion Hc).
  exists (Heap m2 p.1 br), L'. cbn [hmem brk]. split_and!; auto; [|apply (f_equal length) in EL; rewrite !length_app in *; cbn [length] in *; rewrite length_app in *; lia|].
  2: { exists c. split; [|cbn; lia]. assert (c ∈ (base, 0) :: L') as Hin by (rewrite EL; apply elem_of_app; right; apply elem_of_app; left; exact Hc).
       apply elem_of_cons in Hin as [-> | Hin]; [cbn in Hcs; lia | exact Hin]. }
  split; cbn [hmem brk freep].
  - auto.
  - rewrite EL, apart_app. split; [exact HA1|]. apply apart_app. rewrite Em. auto.
  - exact HP'.
  - assert (ends_ok br ((base, 0) :: L')) as He by (rewrite EL; unfold ends_ok; rewrite !Forall_app; auto). apply Forall_cons in He as [_ He]. exact He.
  - rewrite EL. apply (new_links m m1 m2 (base - 1) l1 p bp s' mid l2'); auto; lia.
  - rewrite EL, !map_app, !elem_of_app. right. left. destruct mid as [|d mid]; [congruence|]. cbn in Hm. rewrite <-Hm. left.
  - apply (used_frame m m2 L A (bp, s)); auto.
  - intros x. rewrite Hcov. specialize (HC x). cbn [cov] in HC. lia.
Qed.

(** ** The search of malloc *)

Definition last_addr (q : Z) (l : list block) : Z := match last l with Some b => b.1 | None => q end.
Lemma last_addr_cons q b l : last_addr q (b :: l) = last_addr b.1 l.
Proof. unfold last_addr. destruct l as [|c l]; [reflexivity|]. change (last (b :: c :: l)) with (last (c :: l)). destruct (last (c :: l)) eqn:E; [reflexivity|]. apply last_None in E. discriminate. Qed.
Lemma last_addr_snoc q l b : last_addr q (l ++ [b]) = b.1.
Proof. unfold last_addr. rewrite last_snoc. reflexivity. Qed.
Lemma first_big nu (l : list block) : Forall (fun b : block => b.2 < nu) l \/ exists x p y, l = x ++ p :: y /\ Forall (fun b : block => b.2 < nu) x /\ nu <= p.2.
Proof.
  induction l as [|b l [IH | (x & p & y & -> & H1 & H2)]]; [left; constructor | |].
  - destruct (Z.ltb_spec b.2 nu); [left; constructor; auto | right; exists [], b, l; auto].
  - destruct (Z.ltb_spec b.2 nu); [right; exists (b :: x), p, y | right; exists [], b, (x ++ p :: y)]; split_and!; auto.
Qed.
(** No address twice. *)
Lemma apart_nodup e l l1 b l2 : apart e l -> l = l1 ++ b :: l2 -> (b.1 ∉ map fst l1) /\ (b.1 ∉ map fst l2).
Proof.
  intros Ha ->. apply apart_app in Ha as [A1 (A2 & A3 & A4)]. split; intros Hin; apply list_elem_of_fmap in Hin as (c & Ec & Hc).
  - destruct (apart_lend _ _ A1) as [_ He]. specialize (He c Hc). unfold bend in *. lia.
  - destruct (apart_after _ _ _ A4 Hc). unfold bend in *. lia.
Qed.

Section search.
Context (room : Z -> Z -> bool) (fuel : nat) (m : mem) (f br nu : Z).
#[local] Abbreviation loop := (malloc_loop room fuel).

Lemma loop_hit k q (p : block) z : at_ok br p.1 -> lseg m [p] z -> nu <= p.2 -> loop (S k) nu q p.1 (Heap m f br) = take_block nu q p.1 p.2 (Heap m f br).
Proof. intros Hp (_ & L2 & _) Hn. cbn [malloc_loop]. rewrite (size_step _ _ _ _ Hp), L2, (proj2 (Z.leb_le nu p.2)) by lia. reflexivity. Qed.
(** What malloc does when the ring has no block large enough. *)
Definition more (k : nat) : M heap Z :=
  p' ← morecore room fuel nu; if p' =? 0 then mret 0 else n ← ptr p'; loop k nu p' n.
Lemma loop_more k q (p : block) z : at_ok br p.1 -> lseg m [p] z -> p.2 < nu -> p.1 = f -> loop (S k) nu q p.1 (Heap m f br) = more k (Heap m f br).
Proof. intros Hp (_ & L2 & _) Hn Hf. cbn [malloc_loop]. rewrite (size_step _ _ _ _ Hp), L2, (proj2 (Z.leb_gt nu p.2)) by lia. rewrite (bind_step get _ _ _ _ eq_refl). cbn [freep]. rewrite Hf, Z.eqb_refl. reflexivity. Qed.
Lemma loop_pass k l z : forall q, lseg m l z -> node_ok br l -> Forall (fun b : block => b.2 < nu) l -> f ∉ map fst l ->
  loop (length l + k) nu q (hd_addr l z) (Heap m f br) = loop k nu (last_addr q l) z (Heap m f br).
Proof.
  induction l as [|b l IH]; intros q Hl Hn Hs Hf; [reflexivity|]. destruct Hl as (L1 & L2 & L3). apply Forall_cons in Hn as [Hb Hn]. apply Forall_cons in Hs as [Hbs Hs].
  cbn [map] in Hf. apply not_elem_of_cons in Hf as [Hf1 Hf2]. cbn [length Nat.add malloc_loop hd_addr]. rewrite (size_step _ _ _ _ Hb), L2, (proj2 (Z.leb_gt nu b.2)) by lia.
  rewrite (bind_step get _ _ _ _ eq_refl). cbn [freep]. rewrite (proj2 (Z.eqb_neq b.1 f)) by congruence. rewrite (ptr_step _ _ _ _ Hb), L1, last_addr_cons. apply IH; auto.
Qed.

(** The first block large enough after [b0], with the block before it. *)
Lemma seg_hit b0 x p y z k : lseg m (x ++ p :: y) z -> node_ok br (x ++ p :: y) -> Forall (fun b : block => b.2 < nu) x -> nu <= p.2 -> f ∉ map fst x -> (length x < k)%nat ->
  exists x' q, b0 :: x = x' ++ [q] /\ loop k nu b0.1 (hd_addr (x ++ p :: y) z) (Heap m f br) = take_block nu q.1 p.1 p.2 (Heap m f br).
Proof.
  intros HL HN Hx Hp Hf Hk. destruct (exists_last (l := b0 :: x) ltac:(discriminate)) as (x' & q & Ex). exists x', q. split; [exact Ex|].
  apply lseg_app in HL as [HLx HLp]. apply Forall_app in HN as [HNx HNp]. replace k with (length x + S (k - length x - 1))%nat by lia.
  rewrite hd_addr_app, loop_pass by auto. cbn [hd_addr].
  rewrite (loop_hit _ _ p (hd_addr y z)); [| exact (Forall_inv HNp) | destruct HLp as (P1 & P2 & _); split_and!; auto; exact I | exact Hp].
  rewrite <-(last_addr_cons 0 b0 x), Ex, last_addr_snoc. reflexivity.
Qed.
(** How the search ends: at a block with its predecessor, or with more memory. *)
Definition found (L : list block) (k : nat) (o : outcome heap Z) : Prop :=
  (exists l1 q p l2, (base, 0) :: L = l1 ++ q :: p :: l2 /\ nu <= p.2 /\ o = take_block nu q.1 p.1 p.2 (Heap m f br))
  \/ (Forall (fun b : block => b.2 < nu) L /\ o = more k (Heap m f br)).

(** The second part: from [base] to the block at [f]. *)
Lemma scan_low L n1 fb n2 q k : 0 < nu -> (base, 0) :: L = n1 ++ fb :: n2 -> lseg m (n1 ++ fb :: n2) base -> node_ok br (n1 ++ fb :: n2) -> f = fb.1 -> f ∉ map fst n1 ->
  Forall (fun b : block => b.2 < nu) n2 -> found L k (loop (length n1 + 1 + k) nu q base (Heap m f br)).
Proof.
  intros Hnu E HL HN Ef Hf1 Hs2. pose proof HL as HL'. apply lseg_app in HL' as [HL1 (Lf1 & Lf2 & _)]. cbn [hd_addr] in HL1. pose proof HN as HN'. apply Forall_app in HN' as [HN1 HN2]. pose proof (Forall_inv HN2) as HNf.
  destruct n1 as [|b0 n1]; injection E as E1 E2.
  - right. subst fb n2. split; [exact Hs2|]. cbn [length Nat.add]. apply (loop_more k q (base, 0) (hd_addr L base)); [exact HNf | split_and!; auto; exact I | cbn; lia | symmetry; exact Ef].
  - subst b0. cbn [map] in Hf1. apply not_elem_of_cons in Hf1 as [Hfb Hf1]. cbn [length]. replace (S (length n1) + 1 + k)%nat with (1 + (length n1 + 1 + k))%nat by lia.
    change base with (hd_addr [(base, 0)] (hd_addr (n1 ++ [fb]) (hd_addr n2 base))) at 1. destruct HL1 as (Lb1 & Lb2 & HL1). apply Forall_cons in HN1 as [HNb HN1].
    assert (hd_addr (n1 ++ [fb]) (hd_addr n2 base) = hd_addr n1 fb.1) as Eh by (rewrite hd_addr_app; reflexivity).
    rewrite (loop_pass _ [(base, 0)]); [| rewrite Eh; split_and!; auto; exact I | repeat constructor; apply HNb | repeat constructor; exact Hnu | cbn [map]; rewrite list_elem_of_singleton; exact Hfb].
    change (last_addr q [(base, 0)]) with (base, 0).1. 
    assert (lseg m (n1 ++ [fb]) (hd_addr n2 base)) as HLf by (apply lseg_app; split; [exact HL1 | split_and!; auto; exact I]).
    assert (node_ok br (n1 ++ [fb])) as HNn by (apply Forall_app; split; [exact HN1 | repeat constructor; apply HNf]).
    destruct (first_big nu (n1 ++ [fb])) as [Hs | (x & p & y & Exy & Hx & Hp)].
    + right. apply Forall_app in Hs as [Hs1 Hsf]. split; [rewrite E2; apply Forall_app; split; [exact Hs1 | constructor; [exact (Forall_inv Hsf) | exact Hs2]]|].
      rewrite hd_addr_app. replace (length n1 + 1 + k)%nat with (length n1 + S k)%nat by lia. rewrite loop_pass by auto. apply (loop_more k _ fb (hd_addr n2 base)); auto; [split_and!; auto; exact I | exact (Forall_inv Hsf)].
    + left. assert ((f ∉ map fst x) /\ (length x <= length n1)%nat) as [Hfx Hlx].
      { destruct y as [|y0 y _] using rev_ind; [apply app_inj_tail in Exy as [<- _]; auto|]. rewrite app_comm_cons, app_assoc in Exy. apply app_inj_tail in Exy as [-> _].
        rewrite map_app, not_elem_of_app in Hf1. rewrite length_app. split; [tauto | lia]. }
      rewrite Exy in HLf, HNn |- *. destruct (seg_hit (base, 0) x p y (hd_addr n2 base) (length n1 + 1 + k) HLf HNn Hx Hp Hfx ltac:(lia)) as (x' & q' & Ex & ->).
      exists x', q', p, (y ++ n2). split_and!; auto. rewrite E2. change (fb :: n2) with ([fb] ++ n2). rewrite app_assoc, Exy, <-app_assoc. cbn [app].
      change ((base, 0) :: x ++ p :: y ++ n2) with (((base, 0) :: x) ++ p :: y ++ n2). rewrite Ex, <-app_assoc. reflexivity.
Qed.
(** The ring from the block at [f] on, once around. *)
Lemma scan_ok L k : 0 < nu -> apart (base - 1) ((base, 0) :: L) -> lseg m ((base, 0) :: L) base -> node_ok br ((base, 0) :: L) -> f ∈ map fst ((base, 0) :: L) ->
  found L k (loop (length L + 1 + k) nu f (load32 m f) (Heap m f br)).
Proof.
  intros Hnu HA HL HN Hf. apply list_elem_of_fmap in Hf as (fb & Ef & Hf). apply list_elem_of_split in Hf as (n1 & n2 & E).
  destruct (apart_nodup _ _ n1 fb n2 HA E) as [Hf1 Hf2]. rewrite <-Ef in Hf1, Hf2. assert ((length L = length n1 + length n2)%nat) as Hlen by (apply (f_equal length) in E; rewrite length_app in E; cbn [length] in E; lia).
  rewrite E in HL, HN. pose proof HL as HL'. apply lseg_app in HL' as [_ (Lf1 & _ & HL2)]. pose proof HN as HN'. apply Forall_app in HN' as [_ HN2]. apply Forall_cons in HN2 as [_ HN2].
  rewrite <-Ef in Lf1. rewrite Lf1, Hlen. destruct (first_big nu n2) as [Hs2 | (x & p & y & -> & Hx & Hp)].
  - replace (length n1 + length n2 + 1 + k)%nat with (length n2 + (length n1 + 1 + k))%nat by lia. rewrite loop_pass by auto. apply (scan_low L n1 fb n2); auto.
  - left. rewrite map_app, not_elem_of_app in Hf2. rewrite length_app.
    destruct (seg_hit fb x p y base (length n1 + (length x + length (p :: y)) + 1 + k) HL2 HN2 Hx Hp ltac:(tauto) ltac:(lia)) as (x' & q & Ex & Eh). rewrite <-Ef in Eh. rewrite Eh.
    exists (n1 ++ x'), q, p, y. split_and!; auto. rewrite E, <-app_assoc. f_equal. change (fb :: x ++ p :: y) with ((fb :: x) ++ p :: y). rewrite Ex, <-app_assoc. reflexivity.
Qed.
End search.

(** *** Taking a block *)

(** The ring with another tail after [q]. *)
Lemma new_tail L l1 (q : block) k k' : (base, 0) :: L = l1 ++ q :: k ->
  exists L', (base, 0) :: L' = l1 ++ q :: k' /\ forall P : block -> Prop, Forall P L -> Forall P k' -> Forall P L'.
Proof.
  intros E. destruct l1 as [|d l1]; injection E as E1 E2; subst; [exists k'; auto|]. exists (l1 ++ q :: k'). split; [reflexivity|]. intros P HP Hk.
  rewrite Forall_app, Forall_cons in *. tauto.
Qed.
Lemma ring_freep L l1 (q : block) k : (base, 0) :: L = l1 ++ q :: k -> q.1 ∈ map fst ((base, 0) :: L).
Proof. intros ->. rewrite map_app, elem_of_app. right. left. Qed.

Section take.
Context (m : mem) (f br nu : Z) (L A l1 l2 : list block) (q p : block).
Context (HR : ring_ok (Heap m f br) L A) (HE : (base, 0) :: L = l1 ++ q :: p :: l2) (Hnu : 0 < nu <= p.2).

Lemma take_facts : at_ok br q.1 /\ at_ok br p.1 /\ p.1 + 8 * p.2 <= br /\ lend (base - 1) l1 < q.1 /\ bend q < p.1 /\ apart (base - 1) l1 /\ 0 <= q.2 /\ apart (bend p) l2
  /\ lseg m l1 q.1 /\ load32 m (q.1 + 4) = q.2 /\ load32 m q.1 = p.1 /\ load32 m p.1 = hd_addr l2 base /\ load32 m (p.1 + 4) = p.2 /\ lseg m l2 base /\ 0 < base
  /\ 0 <= hd_addr l2 base <= LIMIT.
Proof.
  pose proof (ring_nodes _ _ _ HR) as HN. pose proof HR as [(B1 & B2 & B3) HA HP HEn HL HF HU HC]. cbn [hmem brk] in *. assert (ends_ok br ((base, 0) :: L)) as HE' by (apply Forall_cons; split; [cbn; lia | exact HEn]).
  rewrite HE in HN, HL, HA, HE'. apply Forall_app in HN as [_ HN]. apply Forall_cons in HN as [Hq HN]. apply Forall_cons in HN as [Hp HN]. apply Forall_app in HE' as [_ HE']. apply Forall_cons in HE' as [_ HE'].
  apply Forall_cons in HE' as [Hpe _]. apply lseg_app in HL as [HL1 (Lq1 & Lq2 & Lp1 & Lp2 & HL2)]. apply apart_app in HA as [HA1 (HA2 & HA3 & HA4 & HA5 & HA6)]. cbn [hd_addr] in *.
  split_and!; auto; (destruct l2 as [|d l2']; cbn [hd_addr]; [unfold LIMIT in *; lia | apply Forall_inv in HN as (D1 & D2 & D3); lia]).
Qed.
Lemma take_cov x : cov L x = cov l1 x + b2z (covers q x) + b2z (covers p x) + cov l2 x.
Proof. rewrite <-(cov_base L x), HE, cov_app. cbn [cov]. lia. Qed.
(** Free memory and [base] only. *)
Lemma take_frame m' : (forall x, ~ (q.1 <= x < q.1 + 8) -> ~ (p.1 <= x < p.1 + 8 * p.2) -> m' x = m x) -> forall x, base + 8 <= x -> cov L x = 0 -> m' x = m x.
Proof.
  intros Hm x Hx H0. pose proof HR as [_ _ HP _ _ _ _ _]. apply Hm; [apply (header_covered L q x); auto; rewrite HE, elem_of_app; right; left|].
  intros Hin. pose proof (take_cov x). rewrite (covers_true p x Hin) in *. pose proof (cov_nonneg l1 x). pose proof (cov_nonneg l2 x). pose proof (b2z_range (covers q x)). cbn [b2z] in *. lia.
Qed.
(** The ring after the block [(r, nu)] has left it. *)
Lemma take_ring m' r k' : (forall x, ~ (q.1 <= x < q.1 + 8) -> ~ (p.1 <= x < p.1 + 8 * p.2) -> m' x = m x) ->
  lseg m' (l1 ++ q :: k') base -> apart (bend q) k' -> ends_ok br k' -> Forall (fun b : block => 0 < b.2) k' -> (length k' <= S (length l2))%nat ->
  (forall x, cov k' x + b2z (covers (r, nu) x) = b2z (covers p x) + cov l2 x) -> p.1 <= r -> r + 8 * nu <= br -> load32 m' (r + 4) = nu ->
  exists L', ring_ok (Heap m' q.1 br) L' ((r, nu) :: A) /\ (length L' <= length L)%nat
    /\ (forall x, cov L' x + b2z (covers (r, nu) x) = cov L x) /\ (forall x, base + 8 <= x -> cov L x = 0 -> m' x = m x).
Proof.
  intros Hm HL' HA' HE' HP' Hlen Hcov Hr Hre Hrs. destruct take_facts as (Fq & Fp & Fpe & Flq & Fqp & FA1 & Fq0 & FA2 & FL1 & Fqs & Fqn & Fpn & Fps & FL2 & Fb & Fh).
  pose proof HR as [(B1 & B2 & B3) HA HP HEn HL HF HU HC]. cbn [hmem brk] in *. destruct (new_tail L l1 q (p :: l2) k' HE) as (L' & EL & HT). pose proof (take_frame m' Hm) as Hfr.
  assert (forall x, cov L' x + b2z (covers (r, nu) x) = cov L x) as Hc by (intros x; rewrite <-(cov_base L' x), EL, (take_cov x), cov_app; cbn [cov]; specialize (Hcov x); lia).
  assert (base <= q.1) as Hbq by (destruct l1 as [|d l1']; injection HE as E1 E2; [rewrite <-E1; cbn; lia|]; destruct FA1 as (G1 & _ & G2); destruct (apart_lend _ _ G2) as [G3 _]; rewrite lend_cons in Flq; unfold bend in *; lia).
  exists L'. split_and!; auto; [|apply (f_equal length) in HE, EL; rewrite !length_app in *; cbn [length] in *; lia].
  split; cbn [hmem brk freep]; auto.
  - rewrite EL. apply apart_app. split; [exact FA1|]. split_and!; auto.
  - apply HT; auto.
  - rewrite EL. exact HL'.
  - exact (ring_freep L' l1 q k' EL).
  - constructor; [cbn; unfold bend in *; split_and!; auto; lia|]. apply (used_frame m m' L A (0, 0)); [exact HU | | intros x Hx H0 _; apply Hfr; auto].
    intros x. cbn [cov]. rewrite (covers_false (0, 0)) by (cbn; lia). specialize (HC x). cbn. lia.
  - intros x. cbn [cov]. specialize (HC x). specialize (Hc x). lia.
Qed.

(** What malloc promises for the block at [r]. *)
Definition granted (h' : heap) (r : Z) : Prop :=
  exists L', ring_ok h' L' ((r, nu) :: A) /\ brk h' = br /\ (length L' <= length L)%nat
    /\ (forall x, cov L' x + b2z (covers (r, nu) x) = cov L x) /\ (forall x, base + 8 <= x -> cov L x = 0 -> hmem h' x = m x).

(** The blocks after [p]. *)
Lemma take_rest : Forall (fun b : block => 0 < b.2) l2 /\ ends_ok br l2.
Proof.
  pose proof HR as [_ _ HP HEn _ _ _ _]. cbn [hmem brk] in *. destruct l1; injection HE as E1 E2; subst; unfold ends_ok in *; rewrite ?Forall_app, ?Forall_cons in *; tauto.
Qed.
(** The whole block leaves the ring. *)
Lemma take_whole : p.2 = nu -> exists r h', take_block nu q.1 p.1 p.2 (Heap m f br) = Ok (r + 8) h' /\ granted h' r.
Proof.
  intros Eq. destruct take_rest as [HP2 HE2].
  destruct take_facts as (Fq & Fp & Fpe & Flq & Fqp & FA1 & Fq0 & FA2 & FL1 & Fqs & Fqn & Fpn & Fps & FL2 & Fb & Fh). pose proof Fp as (Fp1 & Fp2 & Fp3). pose proof Fq as (Fq1 & Fq2 & Fq3).
  pose proof HR as [(B1 & B2 & B3) _ _ _ _ _ _ _]. cbn [hmem brk] in *.
  unfold bend in Fqp. destruct (apart_lend _ _ FA1) as [_ Hl1]. unfold take_block. rewrite (proj2 (Z.eqb_eq p.2 nu) Eq).
  rewrite bind_assoc, (ptr_step _ _ _ _ Fp), bind_assoc, (set_ptr_step _ _ _ _ Fq), bind_ret_l, Fpn. exists p.1. eexists. split; [unfold modify; erewrite bind_step by reflexivity; rewrite (hplus_small p.1 1 br) by lia; reflexivity|].
  destruct (take_ring (store32 m q.1 (hd_addr l2 base)) p.1 l2) as (L' & H1 & H2 & H3 & H4); auto; try lia.
  - intros x Hx _. apply store32_ne. lia.
  - apply lseg_app. cbn [lseg]. split_and!.
    + refine (lseg_frame m _ _ _ _ FL1). intros c x Hc Hx. apply store32_ne. specialize (Hl1 c Hc). unfold bend in Hl1. lia.
    + apply load_store32. unfold in_u, LIMIT in *. lia.
    + rewrite load32_store_ne by lia. exact Fqs.
    + refine (lseg_frame m _ _ _ _ FL2). intros c x Hc Hx. apply store32_ne. destruct (apart_after _ _ _ FA2 Hc). unfold bend in *. lia.
  - revert FA2. apply apart_weaken. unfold bend. lia.
  - intros x. rewrite <-Eq. destruct p. cbn [fst snd]. lia.
  - rewrite load32_store_ne by lia. congruence.
  - exists L'. auto.
Qed.
(** The end of the block leaves it. *)
Lemma take_part : p.2 <> nu -> exists r h', take_block nu q.1 p.1 p.2 (Heap m f br) = Ok (r + 8) h' /\ granted h' r.
Proof.
  intros Ne. destruct take_rest as [HP2 HE2].
  destruct take_facts as (Fq & Fp & Fpe & Flq & Fqp & FA1 & Fq0 & FA2 & FL1 & Fqs & Fqn & Fpn & Fps & FL2 & Fb & Fh). pose proof Fp as (Fp1 & Fp2 & Fp3). pose proof Fq as (Fq1 & Fq2 & Fq3).
  pose proof HR as [(B1 & B2 & B3) _ _ _ _ _ _ _]. cbn [hmem brk] in *.
  unfold bend in Fqp. destruct (apart_lend _ _ FA1) as [_ Hl1]. unfold take_block. rewrite (proj2 (Z.eqb_neq p.2 nu) Ne).
  rewrite bind_assoc, (set_size_step _ _ _ _ Fp), bind_assoc, (size_step _ _ _ _ Fp). rewrite (u32_small (p.2 - nu)) by (unfold LIMIT in *; lia). rewrite load_store32 by (unfold in_u, LIMIT in *; lia). cbv zeta.
  rewrite (hplus_small p.1 (p.2 - nu) br) by lia. set (r := p.1 + 8 * (p.2 - nu)). assert (at_ok br r) as Fr by (subst r; split_and!; lia).
  rewrite bind_assoc, (set_size_step _ _ _ _ Fr), bind_ret_l. exists r. eexists. split; [unfold modify; erewrite bind_step by reflexivity; rewrite (hplus_small r 1 br) by (subst r; lia); reflexivity|].
  set (m' := store32 (store32 m (p.1 + 4) (p.2 - nu)) (r + 4) nu). assert (forall x, ~ (p.1 <= x < p.1 + 8 * p.2) -> m' x = m x) as Hm by (intros x Hx; subst m' r; rewrite !store32_ne by lia; reflexivity).
  destruct (take_ring m' r ((p.1, p.2 - nu) :: l2)) as (L' & H1 & H2 & H3 & H4); auto; try (subst r; lia).
  - apply lseg_app. cbn [lseg fst snd hd_addr]. split_and!.
    + refine (lseg_frame m _ _ _ _ FL1). intros c x Hc Hx. apply Hm. specialize (Hl1 c Hc). unfold bend in Hl1. lia.
    + rewrite <-Fqn. apply load32_frame. intros x Hx. apply Hm. lia.
    + rewrite <-Fqs. apply load32_frame. intros x Hx. apply Hm. lia.
    + rewrite <-Fpn. subst m' r. rewrite !load32_store_ne by lia. reflexivity.
    + subst m' r. rewrite load32_store_ne by lia. apply load_store32. unfold in_u, LIMIT in *. lia.
    + refine (lseg_frame m _ _ _ _ FL2). intros c x Hc Hx. apply Hm. destruct (apart_after _ _ _ FA2 Hc). unfold bend in *. lia.
  - cbn [apart fst snd]. unfold bend in *. cbn. split_and!; [lia | lia|]. revert FA2. apply apart_weaken. lia.
  - constructor; [cbn; lia | exact HE2].
  - constructor; [cbn; lia | exact HP2].
  - intros x. cbn [cov]. destruct p as [pa ps]. cbn [fst snd] in *. rewrite (cov_split pa ps (ps - nu) x) by lia. replace (ps - (ps - nu)) with nu by lia. subst r. lia.
  - subst m'. apply load_store32. unfold in_u, LIMIT in *. lia.
  - exists L'. auto.
Qed.
Lemma take_block_ok : exists r h', take_block nu q.1 p.1 p.2 (Heap m f br) = Ok (r + 8) h' /\ granted h' r.
Proof. destruct (Z.eq_dec p.2 nu); [apply take_whole | apply take_part]; assumption. Qed.
End take.

(** ** More memory *)

(** A block the process has just been given. *)
Lemma new_block m f br n L A : ring_ok (Heap m f br) L A -> 0 < n -> br + 8 * n <= LIMIT ->
  ring_ok (Heap (store32 m (br + 4) n) f (br + 8 * n)) L ((br, n) :: A).
Proof.
  intros HR Hn Hb. pose proof (ring_nodes _ _ _ HR) as HN. destruct HR as [(B1 & B2 & B3) HA HP HE HL HF HU HC]. cbn [hmem brk freep] in *.
  assert (forall x, x < br -> store32 m (br + 4) n x = m x) as Hm by (intros x Hx; apply store32_ne; lia). split; cbn [hmem brk freep]; auto.
  - split_and!; lia.
  - unfold ends_ok in *. eapply Forall_impl; [exact HE|]. cbn. intros b Hb'. lia.
  - refine (lseg_frame m _ _ _ _ HL). intros b x Hbl Hx. apply Hm. unfold node_ok in HN. rewrite Forall_forall in HN. destruct (HN b Hbl) as (N1 & N2 & N3). lia.
  - constructor; [cbn; split_and!; auto; [lia.. | apply load_store32; unfold in_u, LIMIT in *; lia]|]. eapply Forall_impl; [exact HU|]. cbn. intros b (U1 & U2 & U3 & U4). split_and!; auto; [lia|].
    rewrite <-U4. apply load32_frame. intros x Hx. apply Hm. lia.
  - intros x. cbn [cov]. specialize (HC x). destruct (covers (br, n) x) eqn:Ec; cbn [b2z]; [|lia]. apply covers_inv in Ec. cbn in Ec.
    assert (cov L x = 0) as -> by (apply cov_zero; unfold ends_ok in HE; rewrite Forall_forall in HE; intros b Hb'; specialize (HE b Hb'); lia).
    assert (cov A x = 0) as -> by (apply cov_zero; rewrite Forall_forall in HU; intros b Hb'; specialize (HU b Hb'); lia). lia.
Qed.
(** The units morecore asks for. *)
Definition core_units (nu : Z) : Z := if nu <? 4096 then 4096 else nu.
Section core.
Context (room : Z -> Z -> bool) (fuel : nat).
(** The kernel keeps a process in the lower half of the address space. *)
Context (Hroom : forall b n, room b n = true -> b + n <= LIMIT).

Lemma morecore_ok m f br nu L A : ring_ok (Heap m f br) L A -> 0 < nu -> room br (8 * core_units nu) = true -> (length L + 1 <= fuel)%nat ->
  exists h' L', morecore room fuel nu (Heap m f br) = Ok (freep h') h' /\ ring_ok h' L' A /\ brk h' = br + 8 * core_units nu /\ (length L' <= length L + 1)%nat
    /\ (exists c, c ∈ L' /\ nu <= c.2) /\ (forall x, cov L' x = cov L x + b2z (covers (br, core_units nu) x))
    /\ (forall x, base + 8 <= x < br -> cov L x = 0 -> hmem h' x = m x).
Proof.
  intros HR Hnu Hr Hf. pose proof (Hroom _ _ Hr) as Hle. pose proof HR as [(B1 & B2 & B3) _ _ _ _ _ _ _]. cbn [brk] in *. unfold morecore. cbv zeta. fold (core_units nu).
  assert (nu <= core_units nu /\ 4096 <= core_units nu) as [Hn1 Hn2] by (unfold core_units; destruct (Z.ltb_spec nu 4096); lia). set (n := core_units nu) in *.
  assert (i32 (u32 (n * HEADER)) = 8 * n) as ->.
  { unfold HEADER. rewrite u32_small by (unfold LIMIT in *; lia). rewrite swrap_id; [lia | lia|]. unfold in_s, LIMIT in *. lia. }
  assert (sbrk room (8 * n) (Heap m f br) = Ok br (Heap m f (br + 8 * n))) as Es.
  { unfold sbrk. mstep. unfold grown. cbn [brk]. rewrite (proj2 (Z.ltb_lt 0 (8 * n))) by lia. rewrite u32_small by lia. rewrite (proj2 (Z.ltb_ge (br + 8 * n) br)) by lia. rewrite Hr.
    rewrite (proj2 (Z.eqb_neq (br + 8 * n) 0)) by lia. rewrite andb_false_r. reflexivity. }
  rewrite (bind_step _ _ _ _ _ Es). assert ((br =? u32 (-1)) = false) as -> by (apply Z.eqb_neq; change (u32 (-1)) with 4294967295; unfold LIMIT in *; lia).
  assert (at_ok (br + 8 * n) br) as Hat by (split_and!; lia). rewrite (set_size_step _ _ _ _ Hat). rewrite (hplus_small br 1 (br + 8 * n)) by lia.
  pose proof (new_block m f br n L A HR ltac:(lia) Hle) as HR'. destruct (free_ok fuel _ L A (br, n) HR' Hf) as (h' & L' & E & R' & Hb & Hl & (c & Hc & Hcn) & Hcov & Hfr).
  change (br + 8 * 1) with ((br, n).1 + 8). rewrite (bind_step _ _ _ _ _ E). exists h', L'. split_and!; auto.
  - exists c. cbn in Hcn. split; [exact Hc | lia].
  - intros x Hx H0. rewrite Hfr; [apply store32_ne; lia | lia | exact H0 | apply covers_false; cbn; lia].
Qed.

(** *** The loop *)

(** The bytes the process got between [b] and [b']. *)
Definition gained (b b' x : Z) : Z := b2z ((b <=? x) && (x <? b')).
Lemma gained_core b n x : gained b (b + 8 * n) x = b2z (covers (b, n) x).
Proof. reflexivity. Qed.
Lemma gained_none b x : gained b b x = 0.
Proof. unfold gained. destruct (Z.leb_spec b x), (Z.ltb_spec x b); cbn; lia. Qed.

(** A block of [nu] units at [r], from the heap [h] with free blocks [L] and used blocks [A]. *)
Definition allocated (h : heap) (L A : list block) (nu r : Z) (h' : heap) : Prop :=
  exists L', ring_ok h' L' ((r, nu) :: A) /\ (brk h <= brk h' /\ (length L' <= length L + 1)%nat)
    /\ (forall x, cov L' x + cov ((r, nu) :: A) x = cov L x + cov A x + gained (brk h) (brk h') x)
    /\ (forall x, base + 8 <= x < brk h -> cov L x = 0 -> hmem h' x = hmem h x).

Lemma hit_ok m f br nu L A l1 q p l2 : ring_ok (Heap m f br) L A -> (base, 0) :: L = l1 ++ q :: p :: l2 -> 0 < nu <= p.2 ->
  exists r h', take_block nu q.1 p.1 p.2 (Heap m f br) = Ok (r + 8) h' /\ allocated (Heap m f br) L A nu r h'.
Proof.
  intros HR HE Hn. destruct (take_block_ok m f br nu L A l1 l2 q p HR HE Hn) as (r & h' & E & L' & H1 & H2 & H3 & H4 & H5). exists r, h'. split; [exact E|].
  exists L'. cbn [brk hmem]. rewrite H2. split_and!; auto; [lia | lia | |].
  - intros x. cbn [cov]. rewrite gained_none. specialize (H4 x). lia.
  - intros x [Hx _]. apply H5. exact Hx.
Qed.
Lemma loop_ok m f br nu L A : ring_ok (Heap m f br) L A -> 0 < nu -> (exists c, c ∈ L /\ nu <= c.2) \/ room br (8 * core_units nu) = true -> (length L + 2 <= fuel)%nat ->
  exists r h', malloc_loop room fuel (2 * fuel) nu f (load32 m f) (Heap m f br) = Ok (r + 8) h' /\ allocated (Heap m f br) L A nu r h'.
Proof.
  intros HR Hnu Hen Hf. pose proof (ring_nodes _ _ _ HR) as HN. pose proof HR as [(B1 & B2 & B3) HA HP HE HL HF HU HC]. cbn [hmem brk freep] in *.
  replace (2 * fuel)%nat with (length L + 1 + (2 * fuel - length L - 1))%nat by lia.
  destruct (scan_ok room fuel m f br nu L (2 * fuel - length L - 1) Hnu HA HL HN HF) as [(l1 & q & p & l2 & El & Hp & ->) | [Hs ->]]; [exact (hit_ok m f br nu L A l1 q p l2 HR El ltac:(lia))|].
  destruct Hen as [(c & Hc & Hcn) | Hr]; [rewrite Forall_forall in Hs; specialize (Hs c Hc); cbn in Hs; lia|].
  destruct (morecore_ok m f br nu L A HR Hnu Hr ltac:(lia)) as ([m1 f1 br1] & L1 & E1 & HR1 & Hb1 & Hl1 & (c & Hc & Hcn) & Hcov1 & Hfr1). cbn [brk freep hmem] in *.
  unfold more. rewrite (bind_step _ _ _ _ _ E1). pose proof (ring_nodes _ _ _ HR1) as HN1. pose proof HR1 as [_ HA1 _ _ HL1 HF1 _ _]. cbn [brk freep hmem] in *.
  assert (at_ok br1 f1) as Hat by (apply list_elem_of_fmap in HF1 as (d & -> & Hd); unfold node_ok in HN1; rewrite Forall_forall in HN1; exact (HN1 d Hd)).
  rewrite (proj2 (Z.eqb_neq f1 0)) by (destruct Hat; lia). rewrite (ptr_step _ _ _ _ Hat).
  replace (2 * fuel - length L - 1)%nat with (length L1 + 1 + (2 * fuel - length L - 1 - length L1 - 1))%nat by lia.
  destruct (scan_ok room fuel m1 f1 br1 nu L1 (2 * fuel - length L - 1 - length L1 - 1) Hnu HA1 HL1 HN1 HF1) as [(l1 & q & p & l2 & El & Hp & ->) | [Hs1 _]].
  2: { rewrite Forall_forall in Hs1. specialize (Hs1 c Hc). cbn in Hs1. lia. }
  destruct (take_block_ok m1 f1 br1 nu L1 A l1 l2 q p HR1 El ltac:(lia)) as (r & h' & E & L2 & H1 & Hb & H2 & H3 & H4). exists r, h'. split; [exact E|]. exists L2. cbn [brk hmem]. rewrite Hb.
  assert (br < br1) by (rewrite Hb1; unfold core_units; destruct (Z.ltb_spec nu 4096); lia). split_and!; auto; try lia.
  - intros x. cbn [cov]. rewrite Hb1, gained_core. specialize (H3 x). rewrite Hcov1 in H3. lia.
  - intros x Hx H0. rewrite H4; [apply Hfr1; auto | lia|]. rewrite Hcov1, H0, covers_false by (cbn; lia). reflexivity.
Qed.

(** ** malloc *)

(** The heap of a process, before its first call of malloc and after. *)
Definition heap_ok (h : heap) (L A : list block) : Prop :=
  ring_ok h L A \/ (freep h = 0 /\ 0 < base /\ base + 8 <= brk h /\ brk h <= LIMIT /\ L = [] /\ A = []).
Lemma units_spec n : 0 <= n <= LIMIT -> 0 < units n /\ n <= 8 * (units n - 1) < n + 8.
Proof.
  intros Hn. unfold units, HEADER, LIMIT in *. rewrite (uwrap_id 32 (n + 8)) by (unfold in_u; lia). rewrite (uwrap_id 32 (n + 8 - 1)) by (unfold in_u; lia).
  pose proof (Z.div_mod (n + 8 - 1) 8 ltac:(lia)). pose proof (Z.mod_pos_bound (n + 8 - 1) 8 ltac:(lia)). rewrite uwrap_id by (unfold in_u; lia). lia.
Qed.
(** The first call makes a ring of [base] alone. *)
Lemma init_ok m br : 0 < base -> base + 8 <= br -> br <= LIMIT -> ring_ok (Heap (store32 (store32 m base base) (base + 4) 0) base br) [] [].
Proof.
  intros H1 H2 H3. split; cbn [hmem brk freep]; auto.
  - cbn. split_and!; auto; lia.
  - constructor.
  - cbn [lseg hd_addr fst snd]. split_and!; [rewrite load32_store_ne by lia|..| exact I]; apply load_store32; unfold in_u, LIMIT in *; lia.
  - left.
  - intros x. cbn. lia.
Qed.
(** Up to the loop, with the heap as it was but for [base]. *)
Lemma malloc_enter h L A n : heap_ok h L A -> exists m f, ring_ok (Heap m f (brk h)) L A
  /\ malloc base room fuel n h = malloc_loop room fuel (2 * fuel) (units n) f (load32 m f) (Heap m f (brk h)) /\ forall x, base + 8 <= x -> m x = hmem h x.
Proof.
  intros HH. destruct h as [m f br]. cbn [brk hmem] in *. unfold malloc. cbv zeta. rewrite (bind_step get _ _ _ _ eq_refl). cbn [freep]. destruct HH as [HR | (Ef & B1 & B2 & B3 & -> & ->)].
  - pose proof (ring_nodes _ _ _ HR) as HN. pose proof HR as [(B1 & _) _ _ _ _ HF _ _]. cbn [brk freep] in *.
    assert (at_ok br f) as Hat by (apply list_elem_of_fmap in HF as (d & -> & Hd); unfold node_ok in HN; rewrite Forall_forall in HN; exact (HN d Hd)).
    rewrite (proj2 (Z.eqb_neq f 0)) by (destruct Hat; lia). rewrite (bind_step (mret tt) _ _ _ _ eq_refl), (bind_step get _ _ _ _ eq_refl). cbn [freep]. rewrite (ptr_step _ _ _ _ Hat).
    exists m, f. auto.
  - cbn [freep brk] in *. subst f. cbn [Z.eqb]. assert (at_ok br base) as Hat by (split_and!; lia).
    assert ((modify (fun h => h <| freep := base |>);; set_ptr base base;; set_size base 0) (Heap m 0 br) = Ok tt (Heap (store32 (store32 m base base) (base + 4) 0) base br)) as Ei.
    { rewrite (bind_step (modify _) _ _ _ _ eq_refl). change (Heap m 0 br <| freep := base |>) with (Heap m base br). rewrite (set_ptr_step _ _ _ _ Hat).
      rewrite <-(bind_ret_r (set_size base 0)), (set_size_step _ _ _ _ Hat). reflexivity. }
    rewrite (bind_step _ _ _ _ _ Ei), (bind_step get _ _ _ _ eq_refl). cbn [freep]. rewrite (ptr_step _ _ _ _ Hat). eexists _, base. split_and!; [exact (init_ok m br B1 B2 B3) | reflexivity|].
    intros x Hx. rewrite !store32_ne by lia. reflexivity.
Qed.
Lemma malloc_ok h L A n : heap_ok h L A -> 0 <= n <= LIMIT -> (exists c, c ∈ L /\ units n <= c.2) \/ room (brk h) (8 * core_units (units n)) = true -> (length L + 2 <= fuel)%nat ->
  exists r h', malloc base room fuel n h = Ok (r + 8) h' /\ allocated h L A (units n) r h'.
Proof.
  intros HH Hn Hen Hf. destruct (units_spec n Hn) as [Hu _]. destruct (malloc_enter h L A n HH) as (m & f & HR & -> & Hm).
  destruct (loop_ok m f (brk h) (units n) L A HR Hu Hen Hf) as (r & h' & E & L' & H1 & H2 & H3 & H4). exists r, h'. split; [exact E|]. exists L'. cbn [brk hmem] in *. split; [exact H1|]. split; [exact H2|]. split; [exact H3|].
  intros x Hx H0. rewrite H4 by auto. apply Hm. lia.
Qed.
(** Without memory the error number of the kernel is taken for a block. *)
Lemma malloc_fault h L A n : heap_ok h L A -> 0 <= n <= LIMIT - 16 -> Forall (fun c : block => c.2 < units n) L -> room (brk h) (8 * core_units (units n)) = false -> (length L + 2 <= fuel)%nat ->
  malloc base room fuel n h = Fault "segmentation fault".
Proof.
  intros HH Hn Hs Hr Hf. destruct (units_spec n ltac:(lia)) as [Hu Hub]. destruct (malloc_enter h L A n HH) as (m & f & HR & -> & _). set (br := brk h) in *.
  pose proof (ring_nodes _ _ _ HR) as HN. pose proof HR as [(B1 & B2 & B3) HA HP HE HL HF HU HC]. cbn [hmem brk freep] in *.
  replace (2 * fuel)%nat with (length L + 1 + (2 * fuel - length L - 1))%nat by lia.
  destruct (scan_ok room fuel m f br (units n) L (2 * fuel - length L - 1) Hu HA HL HN HF) as [(l1 & q & p & l2 & El & Hp & _) | [_ ->]].
  { exfalso. assert (p ∈ L) as Hpl by (destruct l1; injection El as _ ->; [left | apply elem_of_app; right; right; left]). rewrite Forall_forall in Hs. specialize (Hs p Hpl). cbn in Hs. lia. }
  unfold more, morecore. cbv zeta. fold (core_units (units n)). set (c := core_units (units n)) in *.
  assert (4096 <= c /\ 8 * c < 2 ^ 31) as [Hc1 Hc2] by (subst c; unfold core_units, LIMIT in *; destruct (Z.ltb_spec (units n) 4096); lia).
  assert (i32 (u32 (c * HEADER)) = 8 * c) as -> by (unfold HEADER; rewrite u32_small by (unfold LIMIT; lia); rewrite swrap_id; [lia | lia | unfold in_s; lia]).
  unfold sbrk, grown. mstep. cbn [brk]. rewrite (proj2 (Z.ltb_lt 0 (8 * c))) by lia. rewrite (uwrap_id 32 (br + 8 * c)) by (unfold in_u, LIMIT in *; lia).
  rewrite (proj2 (Z.ltb_ge (br + 8 * c) br)), Hr, (proj2 (Z.eqb_neq (8 * c) 0)) by lia. cbn [Z.eqb andb negb].
  change (u32 (- ENOMEM)) with 4294967284. change (u32 (-1)) with 4294967295. cbn [Z.eqb Pos.eqb]. unfold set_size, hstore. mstep. unfold reach. cbn [brk].
  rewrite PGROUNDUP_spec by (unfold PGSIZE, LIMIT in *; lia). rewrite (proj2 (Z.leb_gt (4294967284 + 4 + 4) _)); [reflexivity|].
  unfold PGSIZE, LIMIT in *. pose proof (Z.div_mod (br + 4096 - 1) 4096 ltac:(lia)). pose proof (Z.mod_pos_bound (br + 4096 - 1) 4096 ltac:(lia)). lia.
Qed.
End core.
End ring.
