(* ===== verification/MallocHeap.v ===== *)
(** * The user-space allocator: what malloc, free and realloc promise *)
From Stdlib Require Import ZArith Lia.
From stdpp Require Import base numbers list strings.
From S2P Require Import Prelude KString Kalloc Locks Proc Malloc MallocThm.
Local Open Scope Z_scope.

Section heap.
Context (base : Z) (room : Z -> Z -> bool) (fuel : nat).
#[local] Abbreviation ring := (ring_ok base).
#[local] Abbreviation heap_ok := (heap_ok base).

(** ** Bytes of blocks in use *)

(** A byte of a block in use is in the heap and not free. *)
Lemma used_byte h L A x : ring h L A -> 1 <= cov A x -> base + 8 <= x < brk h /\ cov L x = 0.
Proof.
  intros [_ _ _ _ _ _ HU HC] Hx. specialize (HC x). pose proof (cov_nonneg L x). split; [|lia].
  assert (exists b, b ∈ A /\ b.1 <= x < b.1 + 8 * b.2) as (b & Hb & Hin).
  { clear -Hx. induction A as [|b A IH]; cbn [cov] in Hx; [lia|]. destruct (covers b x) eqn:E; [exists b; split; [left | exact (covers_inv _ _ E)]|].
    destruct IH as (c & Hc & Hin); [cbn in Hx; lia|]. exists c. split; [right; exact Hc | exact Hin]. }
  rewrite Forall_forall in HU. destruct (HU b Hb) as (U1 & U2 & U3 & _). lia.
Qed.
Lemma heap_used_byte h L A x : heap_ok h L A -> 1 <= cov A x -> base + 8 <= x < brk h /\ cov L x = 0.
Proof. intros [HR | (_ & _ & _ & _ & _ & ->)] Hx; [exact (used_byte h L A x HR Hx) | cbn in Hx; lia]. Qed.
(** The program may write what it likes after the header of a block it holds. *)
Lemma ring_write h L A b m' : ring h L A -> b ∈ A -> (forall x, ~ (b.1 + 8 <= x < b.1 + 8 * b.2) -> m' x = hmem h x) -> ring (Heap m' (freep h) (brk h)) L A.
Proof.
  intros HR Hb Hm. pose proof (ring_nodes _ _ _ _ HR) as HN. pose proof HR as [HB HA HP HE HL HF HU HC]. split; cbn [hmem brk freep]; auto.
  - refine (lseg_frame (hmem h) _ _ _ _ HL). intros c x Hc Hx. apply Hm. intros Hin. pose proof (cov_in A b x Hb (covers_true b x ltac:(lia))) as Hcov.
    destruct (used_byte h L A x HR Hcov) as [Hbx H0]. revert Hx. apply (header_covered base L c x); auto. lia.
  - rewrite Forall_forall in HU |- *. intros c Hc. destruct (HU c Hc) as (U1 & U2 & U3 & U4). split_and!; auto. rewrite <-U4. apply load32_frame. intros x Hx. apply Hm. intros Hin.
    destruct (decide (c = b)) as [-> | Hne]; [lia|]. apply list_elem_of_split in Hb as (A1 & A2 & ->). assert (c ∈ A1 ++ A2) as Hc' by (apply elem_of_app in Hc as [Hc | Hc]; [apply elem_of_app; auto|];
      apply elem_of_cons in Hc as [-> | Hc]; [congruence | apply elem_of_app; auto]).
    pose proof (cov_in (A1 ++ A2) c x Hc' (covers_true c x ltac:(lia))) as H1. specialize (HC x). rewrite cov_app in HC. cbn [cov] in HC. rewrite cov_app in H1. rewrite (covers_true b x) in HC by lia.
    pose proof (cov_nonneg L x). cbn [b2z] in HC. lia.
Qed.

(** ** free *)

(** free of a block in use: it returns within one round of the ring, the block
    leaves the used blocks and every byte of it becomes free, in a ring that is in
    the order of addresses with neighbours joined; the bytes of all other blocks in
    use stay as they are. *)
Theorem free_correct h L A A' b : ring h L A -> A ≡ₚ b :: A' -> (length L + 1 <= fuel)%nat ->
  exists h' L', free fuel (b.1 + 8) h = Ok tt h' /\ ring h' L' A' /\ brk h' = brk h
    /\ (forall x, cov L' x + cov A' x = cov L x + cov A x) /\ (forall x, 1 <= cov A' x -> hmem h' x = hmem h x).
Proof.
  intros HR HP Hf. apply (ring_perm base h L A (b :: A') HP) in HR. destruct (free_ok base fuel h L A' b HR Hf) as (h' & L' & E & R' & Hb & _ & _ & Hcov & Hfr).
  exists h', L'. split_and!; auto.
  - intros x. rewrite (cov_perm A _ x HP), Hcov. cbn [cov]. lia.
  - intros x Hx. pose proof HR as [_ _ _ _ _ _ _ HC]. specialize (HC x). cbn [cov] in HC. pose proof (cov_nonneg L x). destruct (used_byte h L (b :: A') x HR) as [Hbx H0]; [cbn [cov]; pose proof (b2z_range (covers b x)); lia|].
    apply Hfr; [lia | exact H0|]. destruct (covers b x); [cbn [b2z] in HC; lia | reflexivity].
Qed.

(** ** malloc *)

Section grow.
Context (Hroom : forall b n, room b n = true -> b + n <= LIMIT).

(** C22. malloc: with a free block large enough, or memory from the kernel, it returns
    the address of a block of at least [n] bytes, disjoint from every block in use,
    whose bytes stay as they are; no byte of the heap is lost.  Without either it
    takes the error number of sbrk for an address and faults. *)
Theorem malloc_correct h L A n : heap_ok h L A -> 0 <= n <= LIMIT - 16 -> (length L + 2 <= fuel)%nat ->
  ((exists c, c ∈ L /\ units n <= c.2) \/ room (brk h) (8 * core_units (units n)) = true ->
   exists r h' L', malloc base room fuel n h = Ok (r + 8) h' /\ ring h' L' ((r, units n) :: A) /\ n <= 8 * (units n - 1)
     /\ (forall x, cov L' x + cov ((r, units n) :: A) x = cov L x + cov A x + gained (brk h) (brk h') x)
     /\ (forall x, 1 <= cov A x -> hmem h' x = hmem h x))
  /\ (Forall (fun c : block => c.2 < units n) L -> room (brk h) (8 * core_units (units n)) = false -> malloc base room fuel n h = Fault "segmentation fault").
Proof.
  intros HH Hn Hf. split; [|intros Hs Hr; exact (malloc_fault base room fuel h L A n HH Hn Hs Hr Hf)]. intros Hen.
  destruct (malloc_ok base room fuel Hroom h L A n HH ltac:(lia) Hen Hf) as (r & h' & E & L' & H1 & H2 & H3 & H4). exists r, h', L'. split_and!; auto.
  - apply units_spec. lia.
  - intros x Hx. destruct (heap_used_byte h L A x HH Hx) as [Hb H0]. exact (H4 x Hb H0).
Qed.

(** ** realloc *)

(** The copy: into a new block, from one that does not overlap it. *)
Lemma copy_ok m f br L A r nu (b : block) : ring (Heap m f br) L ((r, nu) :: b :: A) -> b.2 < nu ->
  exists m', copy_block (r + 8) (b.1 + 8) (8 * (b.2 - 1)) (Heap m f br) = Ok tt (Heap m' f br) /\ ring (Heap m' f br) L ((r, nu) :: b :: A)
    /\ (forall i, 0 <= i < 8 * (b.2 - 1) -> m' (r + 8 + i) = m (b.1 + 8 + i)) /\ (forall x, ~ (r + 8 <= x < r + 8 * nu) -> m' x = m x).
Proof.
  intros HR Hs. pose proof HR as [(B1 & B2 & B3) _ _ _ _ _ HU HC]. cbn [hmem brk] in *. apply Forall_cons in HU as [(R1 & R2 & R3 & _) HU]. apply Forall_cons in HU as [(U1 & U2 & U3 & _) _]. cbn [fst snd] in *.
  assert (r + 8 * nu <= b.1 \/ b.1 + 8 * b.2 <= r) as Hd.
  { destruct (Z.le_gt_cases (r + 8 * nu) b.1); [auto|]. destruct (Z.le_gt_cases (b.1 + 8 * b.2) r); [auto|]. exfalso. specialize (HC (Z.max r b.1)). cbn [cov] in HC.
    rewrite (covers_true (r, nu)), (covers_true b) in HC by (cbn; lia). pose proof (cov_nonneg L (Z.max r b.1)). pose proof (cov_nonneg A (Z.max r b.1)). cbn [b2z] in HC. lia. }
  assert (forall x, copy_up m (r + 8) (b.1 + 8) (Z.to_nat (8 * (b.2 - 1))) x = if inside (r + 8) (8 * (b.2 - 1)) x then m (b.1 + 8 + (x - (r + 8))) else m x) as Hcp.
  { intros x. rewrite copy_up_spec by lia. rewrite Z2Nat.id by lia. reflexivity. }
  set (m' := copy_up m (r + 8) (b.1 + 8) (Z.to_nat (8 * (b.2 - 1)))) in *. exists m'. assert (forall x, ~ (r + 8 <= x < r + 8 * nu) -> m' x = m x) as Hout.
  { intros x Hx. rewrite Hcp. unfold inside. destruct (Z.leb_spec (r + 8) x), (Z.ltb_spec x (r + 8 + 8 * (b.2 - 1))); cbn [andb]; try reflexivity. lia. }
  split_and!; auto.
  - unfold copy_block. rewrite (bind_step get _ _ _ _ eq_refl). rewrite !reach_ok by lia. rewrite orb_true_r. reflexivity.
  - apply (ring_write (Heap m f br) L _ (r, nu) m' HR); [left | exact Hout].
  - intros i Hi. rewrite Hcp. unfold inside. rewrite (proj2 (Z.leb_le (r + 8) (r + 8 + i))), (proj2 (Z.ltb_lt (r + 8 + i) (r + 8 + 8 * (b.2 - 1)))) by lia. cbn [andb]. f_equal. lia.
Qed.

Lemma realloc_ok h L A b n : ring h L (b :: A) -> b.2 < units n -> 0 < n <= LIMIT - 16 -> (length L + 2 <= fuel)%nat ->
  (exists c, c ∈ L /\ units n <= c.2) \/ room (brk h) (8 * core_units (units n)) = true ->
  exists r h' L', realloc base room fuel (b.1 + 8) n h = Ok (r + 8) h' /\ ring h' L' ((r, units n) :: A)
    /\ (forall i, 0 <= i < 8 * (b.2 - 1) -> hmem h' (r + 8 + i) = hmem h (b.1 + 8 + i)) /\ (forall x, 1 <= cov A x -> hmem h' x = hmem h x).
Proof.
  intros HR Hs Hn Hf Hen. destruct (malloc_ok base room fuel Hroom h L (b :: A) n (or_introl HR) ltac:(lia) Hen Hf) as (r & [m1 f1 br1] & E1 & L1 & R1 & (_ & Hl1) & _ & Hm1). cbn [hmem brk] in *.
  pose proof HR as [(B1 & B2 & B3) _ _ _ _ _ HU _]. apply Forall_cons in HU as [(U1 & U2 & U3 & U4) _]. pose proof R1 as [_ _ _ _ _ _ HU1 HC1]. pose proof (Forall_inv HU1) as (V1 & V2 & V3 & _). cbn [fst snd brk hmem] in *.
  destruct (copy_ok m1 f1 br1 L1 A r (units n) b R1 Hs) as (m2 & E2 & R2 & Hcp & Hout).
  apply (ring_perm base _ _ _ (b :: (r, units n) :: A)) in R2; [|apply perm_swap]. destruct (free_ok base fuel _ L1 _ b R2 ltac:(lia)) as (h3 & L3 & E3 & R3 & _ & _ & _ & _ & Hfr). cbn [hmem] in Hfr.
  assert (forall x, 1 <= cov (b :: A) x -> m1 x = hmem h x) as Hm by (intros x Hx; destruct (used_byte h L (b :: A) x HR Hx) as [Hb H0]; apply Hm1; auto).
  assert (forall x, 1 <= cov ((r, units n) :: A) x -> hmem h3 x = m2 x) as H3.
  { intros x Hx. destruct (used_byte _ _ _ x R2) as [Hb H0]; [cbn [cov] in *; pose proof (b2z_range (covers b x)); lia|]. apply Hfr; [lia | exact H0|]. pose proof R2 as [_ _ _ _ _ _ _ HC2]. specialize (HC2 x). cbn [cov] in *.
    pose proof (cov_nonneg L1 x). destruct (covers b x); [cbn [b2z] in HC2; lia | reflexivity]. }
  exists r, h3, L3. split_and!; auto.
  - unfold realloc. rewrite (proj2 (Z.eqb_neq (b.1 + 8) 0)), (proj2 (Z.eqb_neq n 0)) by lia. cbv zeta. unfold HEADER. replace (u32 (b.1 + 8 - 8)) with b.1 by (rewrite u32_small by lia; lia).
    destruct h as [m f br]. cbn [hmem brk] in *. assert (at_ok br b.1) as Hat by (split_and!; lia). rewrite (size_step _ _ _ _ Hat), U4. rewrite (proj2 (Z.leb_gt (units n) b.2)) by lia.
    rewrite (bind_step _ _ _ _ _ E1), (proj2 (Z.eqb_neq (r + 8) 0)) by lia. rewrite (u32_small (b.2 - 1)) by (unfold LIMIT in *; lia). rewrite u32_small by (unfold LIMIT in *; lia).
    replace ((b.2 - 1) * 8) with (8 * (b.2 - 1)) by lia. rewrite (bind_step _ _ _ _ _ E2), (bind_step _ _ _ _ _ E3). reflexivity.
  - intros i Hi. rewrite H3; [|cbn [cov]; rewrite covers_true by (cbn; lia); pose proof (cov_nonneg A (r + 8 + i)); cbn [b2z]; lia]. rewrite Hcp by lia. apply Hm.
    cbn [cov]. rewrite covers_true by (cbn; lia). pose proof (cov_nonneg A (b.1 + 8 + i)). cbn [b2z]. lia.
  - intros x Hx. rewrite H3 by (cbn [cov]; pose proof (b2z_range (covers (r, units n) x)); lia). rewrite Hout; [apply Hm; cbn [cov]; pose proof (b2z_range (covers b x)); lia|].
    intros Hin. specialize (HC1 x). cbn [cov] in HC1. rewrite (covers_true (r, units n)) in HC1 by (cbn; lia). pose proof (cov_nonneg L1 x). pose proof (b2z_range (covers b x)). cbn [b2z] in *. lia.
Qed.

(** realloc of a block in use to [n] bytes: when the block is large enough it stays;
    otherwise, with memory for the new one, another block is returned with the bytes
    of the old one, which is free again, and every other block in use keeps its
    bytes. *)
Theorem realloc_correct h L A A' b n : ring h L A -> A ≡ₚ b :: A' -> 0 < n <= LIMIT - 16 -> (length L + 2 <= fuel)%nat ->
  (units n <= b.2 -> realloc base room fuel (b.1 + 8) n h = Ok (b.1 + 8) h)
  /\ (b.2 < units n -> (exists c, c ∈ L /\ units n <= c.2) \/ room (brk h) (8 * core_units (units n)) = true ->
      exists r h' L', realloc base room fuel (b.1 + 8) n h = Ok (r + 8) h' /\ ring h' L' ((r, units n) :: A')
        /\ (forall i, 0 <= i < 8 * (b.2 - 1) -> hmem h' (r + 8 + i) = hmem h (b.1 + 8 + i)) /\ (forall x, 1 <= cov A' x -> hmem h' x = hmem h x)).
Proof.
  intros HR HP Hn Hf. apply (ring_perm base h L A (b :: A') HP) in HR. split; [|intros Hs Hen; exact (realloc_ok h L A' b n HR Hs Hn Hf Hen)]. intros Hs.
  pose proof HR as [(B1 & B2 & B3) _ _ _ _ _ HU _]. apply Forall_inv in HU as (U1 & U2 & U3 & U4). destruct h as [m f br]. cbn [brk hmem] in *.
  unfold realloc. rewrite (proj2 (Z.eqb_neq (b.1 + 8) 0)), (proj2 (Z.eqb_neq n 0)) by lia. cbv zeta. unfold HEADER. replace (u32 (b.1 + 8 - 8)) with b.1 by (rewrite u32_small by lia; lia).
  assert (at_ok br b.1) as Hat by (split_and!; lia). rewrite (size_step _ _ _ _ Hat), U4. rewrite (proj2 (Z.leb_le (units n) b.2)) by lia. reflexivity.
Qed.
End grow.
End heap.

(** ** A process of two pages that may grow to a megabyte *)

Definition room_1M (b n : Z) : bool := b + n <=? 1048576.
Definition heap_0 : heap := Heap (fun _ => 0) 0 8192.
Lemma room_1M_bound b n : room_1M b n = true -> b + n <= LIMIT.
Proof. unfold room_1M, LIMIT. intros H. apply Z.leb_le in H. lia. Qed.
Lemma heap_0_ok : heap_ok 4096 heap_0 [] [].
Proof. right. unfold LIMIT. cbn. split_and!; auto; lia. Qed.
(** After malloc(100). *)
Lemma heap_1_ok : exists r h L, malloc 4096 room_1M 10 100 heap_0 = Ok (r + 8) h /\ ring_ok 4096 h L [(r, 14)] /\ brk h = 40960 /\ (length L <= 1)%nat.
Proof.
  destruct (malloc_ok 4096 room_1M 10 room_1M_bound heap_0 [] [] 100 heap_0_ok ltac:(unfold LIMIT; lia) (or_intror eq_refl) ltac:(cbn; lia)) as (r & h & E & L & HR & (_ & Hl) & _).
  exists r, h, L. split_and!; [exact E | exact HR | | exact Hl]. pose proof (f_equal (fun o => match o with Ok _ h' => brk h' | _ => 0 end) E) as Hb. cbn beta iota in Hb. rewrite <-Hb. vm_compute. reflexivity.
Qed.
Lemma malloc_correct_witness : exists r h' L', malloc 4096 room_1M 10 100 heap_0 = Ok (r + 8) h' /\ ring_ok 4096 h' L' [(r, 14)].
Proof.
  destruct (malloc_correct 4096 room_1M 10 room_1M_bound heap_0 [] [] 100 heap_0_ok ltac:(unfold LIMIT; lia) ltac:(cbn; lia)) as [H _].
  destruct (H (or_intror eq_refl)) as (r & h' & L' & E & HR & _). exists r, h', L'. split; [exact E | exact HR].
Defined.
Lemma free_correct_witness : exists r h h' L', malloc 4096 room_1M 10 100 heap_0 = Ok (r + 8) h /\ free 10 (r + 8) h = Ok tt h' /\ ring_ok 4096 h' L' [].
Proof.
  destruct heap_1_ok as (r & h & L & E & HR & _ & Hl). destruct (free_correct 4096 10 h L [(r, 14)] [] (r, 14) HR (reflexivity _) ltac:(lia)) as (h' & L' & E' & R' & _).
  exists r, h, h', L'. split_and!; [exact E | exact E' | exact R'].
Defined.
Lemma realloc_correct_witness : exists r r' h h' L', malloc 4096 room_1M 10 100 heap_0 = Ok (r + 8) h /\ realloc 4096 room_1M 10 (r + 8) 1000 h = Ok (r' + 8) h' /\ ring_ok 4096 h' L' [(r', 126)]
  /\ forall i, 0 <= i < 104 -> hmem h' (r' + 8 + i) = hmem h (r + 8 + i).
Proof.
  destruct heap_1_ok as (r & h & L & E & HR & Hb & Hl).
  destruct (realloc_correct 4096 room_1M 10 room_1M_bound h L [(r, 14)] [] (r, 14) 1000 HR (reflexivity _) ltac:(unfold LIMIT; lia) ltac:(lia)) as [_ H].
  assert (room_1M (brk h) (8 * core_units (units 1000)) = true) as Hroom by (rewrite Hb; reflexivity).
  destruct (H ltac:(vm_compute; reflexivity) (or_intror Hroom)) as (r' & h' & L' & E' & R' & Hc & _).
  exists r, r', h, h', L'. split_and!; [exact E | exact E' | exact R' | exact Hc].
Defined.
(** A request whose size in units wraps gets a block of one unit. *)
Lemma malloc_wraps : units 4294967295 = 1.
Proof. vm_compute. reflexivity. Qed.
