(* ===== verification/Segments.v ===== *)
(** * Segments, gates and the task state (src/include/mmu.h, src/include/x86.h,
      segment_init and switchuvm of src/kernel/mm/vm.c, trap_init of
      src/kernel/cpu/trap.c)

    The descriptors the kernel writes are structs of bit fields, laid out from the
    low bit up; what the processor takes from the 64 bits of a descriptor is
    defined beside them ([cpu_base] and the others, as its manual gives them).
    The addresses of the entry points are [vectors], of the task state [ts_addr]. *)
From Stdlib Require Import ZArith Lia.
From stdpp Require Import base numbers list strings.
From S2P Require Import Prelude Kalloc Locks Vm Proc.
Local Open Scope Z_scope.

Definition SEG_KCODE : Z := 2.
Definition SEG_KDATA : Z := 3.
Definition SEG_UCODE : Z := 4.
Definition SEG_UDATA : Z := 5.
Definition SEG_TSS : Z := 6.
Definition NSEGS : nat := 7.
Definition DPL_USER : Z := 3.
Definition STA_X : Z := 8.
Definition STA_W : Z := 2.
Definition STA_R : Z := 2.
Definition STS_T32A : Z := 9.
Definition STS_IG32 : Z := 14.
Definition STS_TG32 : Z := 15.
Definition TRAP_SYSCALL : nat := 128.

(** ** Bit fields *)

(** The fields of a struct, width and value, from the low bit up. *)
Fixpoint pack (l : list (Z * Z)) : Z :=
  match l with
  | [] => 0
  | (w, v) :: l' => uwrap w v + 2 ^ w * pack l'
  end.

Record segdesc := Segdesc {
  lim_15_0 : Z; base_15_0 : Z; base_23_16 : Z; sd_type : Z; sd_s : Z; sd_dpl : Z; sd_p : Z;
  lim_19_16 : Z; sd_avl : Z; sd_rsv1 : Z; sd_db : Z; sd_g : Z; base_31_24 : Z
}.
#[export] Instance segdesc_fields : Fields segdesc := fun d =>
  Segdesc (lim_15_0 d) (base_15_0 d) (base_23_16 d) (sd_type d) (sd_s d) (sd_dpl d) (sd_p d) (lim_19_16 d) (sd_avl d) (sd_rsv1 d) (sd_db d) (sd_g d) (base_31_24 d).
Definition seg_bits (d : segdesc) : Z :=
  pack [(16, lim_15_0 d); (16, base_15_0 d); (8, base_23_16 d); (4, sd_type d); (1, sd_s d); (2, sd_dpl d); (1, sd_p d);
        (4, lim_19_16 d); (1, sd_avl d); (1, sd_rsv1 d); (1, sd_db d); (1, sd_g d); (8, base_31_24 d)].

Definition SEG (type base lim dpl : Z) : segdesc :=
  Segdesc (Z.land (Z.shiftr lim 12) 0xffff) (Z.land (u32 base) 0xffff) (Z.land (Z.shiftr (u32 base) 16) 0xff) type 1 dpl 1
    (Z.shiftr (u32 lim) 28) 0 0 1 1 (Z.shiftr (u32 base) 24).
Definition SEG16 (type base lim dpl : Z) : segdesc :=
  Segdesc (Z.land lim 0xffff) (Z.land (u32 base) 0xffff) (Z.land (Z.shiftr (u32 base) 16) 0xff) type 1 dpl 1
    (Z.shiftr (u32 lim) 16) 0 0 1 0 (Z.shiftr (u32 base) 24).

Record gatedesc := Gatedesc {
  off_15_0 : Z; gd_cs : Z; gd_args : Z; gd_rsv1 : Z; gd_type : Z; gd_s : Z; gd_dpl : Z; gd_p : Z; off_31_16 : Z
}.
Definition gate_bits (g : gatedesc) : Z :=
  pack [(16, off_15_0 g); (16, gd_cs g); (5, gd_args g); (3, gd_rsv1 g); (4, gd_type g); (1, gd_s g); (2, gd_dpl g); (1, gd_p g); (16, off_31_16 g)].
Definition SETGATE (istrap : bool) (sel off d : Z) : gatedesc :=
  Gatedesc (Z.land (u32 off) 0xffff) sel 0 0 (if istrap then STS_TG32 else STS_IG32) 0 d 1 (Z.shiftr (u32 off) 16).

(** ** The processor *)

Record taskstate := Taskstate {
  ts_link : Z; ts_esp0 : Z; ts_ss0 : Z; ts_esp1 : Z; ts_ss1 : Z; ts_esp2 : Z; ts_ss2 : Z; ts_cr3 : Z; ts_eip : Z; ts_eflags : Z;
  ts_eax : Z; ts_ecx : Z; ts_edx : Z; ts_ebx : Z; ts_esp : Z; ts_ebp : Z; ts_esi : Z; ts_edi : Z;
  ts_es : Z; ts_cs : Z; ts_ss : Z; ts_ds : Z; ts_fs : Z; ts_gs : Z; ts_ldt : Z; ts_t : Z; ts_iomb : Z
}.
#[export] Instance taskstate_fields : Fields taskstate := fun t =>
  Taskstate (ts_link t) (ts_esp0 t) (ts_ss0 t) (ts_esp1 t) (ts_ss1 t) (ts_esp2 t) (ts_ss2 t) (ts_cr3 t) (ts_eip t) (ts_eflags t)
    (ts_eax t) (ts_ecx t) (ts_edx t) (ts_ebx t) (ts_esp t) (ts_ebp t) (ts_esi t) (ts_edi t)
    (ts_es t) (ts_cs t) (ts_ss t) (ts_ds t) (ts_fs t) (ts_gs t) (ts_ldt t) (ts_t t) (ts_iomb t).
Definition sizeof_taskstate : Z := 104.

(** The tables and registers of the processor the code loads. *)
Record machine := Machine {
  gdt : list segdesc; ts : taskstate; idt : list gatedesc;
  gdtr : list Z; idtr : list Z; tr : Z; cr3 : Z
}.
#[export] Instance machine_fields : Fields machine := fun m => Machine (gdt m) (ts m) (idt m) (gdtr m) (idtr m) (tr m) (cr3 m).

(** The pseudo-descriptor of lgdt and lidt: three 16-bit words. *)
Definition pseudo_desc (p size : Z) : list Z := [u16 (size - 1); u16 (u32 p); u16 (Z.shiftr (u32 p) 16)].
Definition lgdt (p size : Z) (m : machine) : machine := m <| gdtr := pseudo_desc p size |>.
Definition lidt (p size : Z) (m : machine) : machine := m <| idtr := pseudo_desc p size |>.
Definition ltr (sel : Z) (m : machine) : machine := m <| tr := u16 sel |>.
Definition lcr3 (v : Z) (m : machine) : machine := m <| cr3 := u32 v |>.

Definition set_gdt (i : Z) (d : segdesc) (m : machine) : machine := m <| gdt := <[Z.to_nat i := d]> (gdt m) |>.
Definition segment_init (gdt_addr : Z) (m : machine) : machine :=
  let m := set_gdt SEG_KCODE (SEG (Z.lor STA_X STA_R) 0 0xffffffff 0) m in
  let m := set_gdt SEG_KDATA (SEG STA_W 0 0xffffffff 0) m in
  let m := set_gdt SEG_UCODE (SEG (Z.lor STA_X STA_R) 0 0xffffffff DPL_USER) m in
  let m := set_gdt SEG_UDATA (SEG STA_W 0 0xffffffff DPL_USER) m in
  lgdt gdt_addr (8 * Z.of_nat NSEGS) m.

(** The loop of trap_init over the vectors, [k] more from [i] on. *)
Fixpoint gates_from (k i : nat) (vectors : list Z) (l : list gatedesc) : list gatedesc :=
  match k with
  | O => l
  | S k' => gates_from k' (S i) vectors (<[i := SETGATE false (Z.shiftl SEG_KCODE 3) (nth i vectors 0) 0]> l)
  end.
Definition trap_init (vectors : list Z) (m : machine) : machine :=
  let l := gates_from 256 0 vectors (idt m) in
  m <| idt := <[TRAP_SYSCALL := SETGATE true (Z.shiftl SEG_KCODE 3) (nth TRAP_SYSCALL vectors 0) DPL_USER]> l |>.
Definition idt_init (idt_addr : Z) (m : machine) : machine := lidt idt_addr (8 * 256) m.

(** What switchuvm and switchkvm load; the checks of switchuvm are in Exec.v. *)
Definition load_task (ts_addr : Z) (kstack pgdir : Z) (m : machine) : machine :=
  let m := set_gdt SEG_TSS (SEG16 STS_T32A ts_addr (sizeof_taskstate - 1) 0 <| sd_s := 0 |>) m in
  let m := m <| ts := ts m <| ts_ss0 := u16 (Z.shiftl SEG_KDATA 3) |> |> in
  let m := m <| ts := ts m <| ts_esp0 := u32 (u32 kstack + KSTACKSIZE) |> |> in
  let m := m <| ts := ts m <| ts_iomb := 0xFFFF |> |> in
  lcr3 (V2P pgdir) (ltr (Z.shiftl SEG_TSS 3) m).
Definition switchkvm (kpgdir : Z) (m : machine) : machine := lcr3 (V2P kpgdir) m.

(** ** What the processor reads *)

Definition bits (d o w : Z) : Z := d / 2 ^ o mod 2 ^ w.
Definition cpu_base (d : Z) : Z := bits d 16 16 + 2 ^ 16 * bits d 32 8 + 2 ^ 24 * bits d 56 8.
(** The last byte of the segment: with the granularity bit the limit counts pages. *)
Definition cpu_limit (d : Z) : Z :=
  let raw := bits d 0 16 + 2 ^ 16 * bits d 48 4 in
  if bits d 55 1 =? 1 then raw * 4096 + 4095 else raw.
Definition cpu_type (d : Z) : Z := bits d 40 4.
Definition cpu_system (d : Z) : bool := bits d 44 1 =? 0.
Definition cpu_dpl (d : Z) : Z := bits d 45 2.
Definition cpu_present (d : Z) : bool := bits d 47 1 =? 1.
Definition gate_offset (d : Z) : Z := bits d 0 16 + 2 ^ 16 * bits d 48 16.
Definition gate_selector (d : Z) : Z := bits d 16 16.
(** A program at privilege [cpl] may use the gate by an int instruction. *)
Definition int_allowed (d cpl : Z) : bool := cpu_present d && (cpl <=? cpu_dpl d).
(** Entry through the gate leaves interrupts enabled. *)
Definition keeps_interrupts (d : Z) : bool := cpu_type d =? STS_TG32.
(** The table a register of three words names: address and last byte. *)
Definition table_base (r : list Z) : Z := nth 1 r 0 + 2 ^ 16 * nth 2 r 0.
Definition table_limit (r : list Z) : Z := nth 0 r 0.

(** ** Reading what was written *)

Definition total (l : list (Z * Z)) : Z := foldr (fun f n => f.1 + n) 0 l.
Lemma total_nonneg l : Forall (fun f : Z * Z => 0 < f.1) l -> 0 <= total l.
Proof. induction 1; cbn [total foldr] in *; unfold total in *; lia. Qed.
Lemma bits_skip w v l o k : 0 < w -> 0 <= o -> bits (pack ((w, v) :: l)) (w + o) k = bits (pack l) o k.
Proof.
  intros Hw Ho. unfold bits. cbn [pack]. rewrite Z.pow_add_r, <-Z.div_div by (try apply Z.pow_nonzero; try apply Z.pow_pos_nonneg; lia).
  f_equal. f_equal. rewrite Z.mul_comm, Z.div_add by (apply Z.pow_nonzero; lia). pose proof (uwrap_range w Hw v) as Hr. unfold in_u in Hr. rewrite Z.div_small by exact Hr. lia.
Qed.
(** A field is read back, cut to its width. *)
Lemma bits_pack l1 w v l2 : Forall (fun f : Z * Z => 0 < f.1) l1 -> 0 < w -> bits (pack (l1 ++ (w, v) :: l2)) (total l1) w = uwrap w v.
Proof.
  intros Hl Hw. induction Hl as [|[w1 v1] l1 H1 Hl IH].
  - unfold bits, total. cbn [pack app foldr]. change (2 ^ 0) with 1. rewrite Z.div_1_r. rewrite Z.mul_comm, Z.mod_add by (apply Z.pow_nonzero; lia). apply Z.mod_small, (uwrap_range w Hw v).
  - cbn [app total foldr fst]. fold (total l1). rewrite bits_skip by (auto using total_nonneg). exact IH.
Qed.
(** The field after [k] others, at the bit where they end. *)
Lemma bits_field l k w v o : l !! k = Some (w, v) -> Forall (fun f : Z * Z => 0 < f.1) l -> o = total (take k l) -> bits (pack l) o w = uwrap w v.
Proof.
  intros Hk Hl ->. pose proof (proj1 (Forall_lookup _ _) Hl k _ Hk) as Hw. rewrite <-(take_drop_middle l k (w, v) Hk) at 1.
  apply bits_pack; [apply Forall_take, Hl | exact Hw].
Qed.
Ltac field k := apply (bits_field _ k); [reflexivity | repeat constructor | reflexivity].

Lemma gate_read g : bits (gate_bits g) 0 16 = u16 (off_15_0 g) /\ bits (gate_bits g) 16 16 = u16 (gd_cs g) /\ bits (gate_bits g) 40 4 = uwrap 4 (gd_type g)
  /\ bits (gate_bits g) 44 1 = uwrap 1 (gd_s g) /\ bits (gate_bits g) 45 2 = uwrap 2 (gd_dpl g) /\ bits (gate_bits g) 47 1 = uwrap 1 (gd_p g) /\ bits (gate_bits g) 48 16 = u16 (off_31_16 g).
Proof. unfold gate_bits. split_and!; [field 0%nat | field 1%nat | field 4%nat | field 5%nat | field 6%nat | field 7%nat | field 8%nat]. Qed.
Lemma seg_read d : bits (seg_bits d) 0 16 = u16 (lim_15_0 d) /\ bits (seg_bits d) 16 16 = u16 (base_15_0 d) /\ bits (seg_bits d) 32 8 = u8 (base_23_16 d)
  /\ bits (seg_bits d) 40 4 = uwrap 4 (sd_type d) /\ bits (seg_bits d) 44 1 = uwrap 1 (sd_s d) /\ bits (seg_bits d) 45 2 = uwrap 2 (sd_dpl d) /\ bits (seg_bits d) 47 1 = uwrap 1 (sd_p d)
  /\ bits (seg_bits d) 48 4 = uwrap 4 (lim_19_16 d) /\ bits (seg_bits d) 55 1 = uwrap 1 (sd_g d) /\ bits (seg_bits d) 56 8 = u8 (base_31_24 d).
Proof. unfold seg_bits. split_and!; [field 0%nat | field 1%nat | field 2%nat | field 3%nat | field 4%nat | field 5%nat | field 6%nat | field 7%nat | field 11%nat | field 12%nat]. Qed.

(** Pieces of a word, put together again. *)
Lemma land_mod z k : 0 <= k -> Z.land z (Z.ones k) = z mod 2 ^ k.
Proof. intros Hk. apply Z.land_ones, Hk. Qed.
Lemma halves z : in_u 32 z -> u16 (Z.land z 0xffff) + 2 ^ 16 * u16 (Z.shiftr z 16) = z.
Proof.
  intros Hz. change 0xffff with (Z.ones 16). rewrite land_mod by lia. unfold uwrap, in_u in *. rewrite Z.shiftr_div_pow2 by lia. change (2 ^ 16) with 65536. change (2 ^ 32) with 4294967296 in Hz.
  Z.div_mod_to_equations. lia.
Qed.
Lemma thirds z : in_u 32 z -> u16 (Z.land z 0xffff) + 2 ^ 16 * u8 (Z.land (Z.shiftr z 16) 0xff) + 2 ^ 24 * u8 (Z.shiftr z 24) = z.
Proof.
  intros Hz. change 0xffff with (Z.ones 16). change 0xff with (Z.ones 8). rewrite !land_mod by lia. unfold uwrap, in_u in *. rewrite !Z.shiftr_div_pow2 by lia.
  change (2 ^ 16) with 65536. change (2 ^ 8) with 256. change (2 ^ 24) with 16777216. change (2 ^ 32) with 4294967296 in Hz. Z.div_mod_to_equations. lia.
Qed.

(** A segment of SEG: the processor sees the base, and every byte up to the limit. *)
Lemma SEG_read type base lim dpl : in_u 4 type -> in_u 32 base -> in_u 32 lim -> 0 <= dpl <= 3 -> let d := seg_bits (SEG type base lim dpl) in
  cpu_base d = base /\ cpu_limit d = lim / 4096 * 4096 + 4095 /\ cpu_type d = type /\ cpu_system d = false /\ cpu_dpl d = dpl /\ cpu_present d = true.
Proof.
  intros Ht Hb Hl Hd d. destruct (seg_read (SEG type base lim dpl)) as (R1 & R2 & R3 & R4 & R5 & R6 & R7 & R8 & R9 & R10). fold d in R1, R2, R3, R4, R5, R6, R7, R8, R9, R10.
  cbn [SEG lim_15_0 base_15_0 base_23_16 sd_type sd_s sd_dpl sd_p lim_19_16 sd_g base_31_24] in *. rewrite (uwrap_id 32) in * by assumption.
  unfold cpu_base, cpu_limit, cpu_type, cpu_system, cpu_dpl, cpu_present. rewrite R1, R2, R3, R4, R5, R6, R7, R8, R9, R10. split_and!; try reflexivity; [apply thirds, Hb | | apply uwrap_id, Ht | apply uwrap_id; unfold in_u; lia].
  change (uwrap 1 1 =? 1) with true. cbv iota. f_equal. f_equal. change 0xffff with (Z.ones 16). rewrite land_mod by lia. rewrite !Z.shiftr_div_pow2 by lia. unfold uwrap, in_u in *.
  change (2 ^ 12) with 4096. change (2 ^ 16) with 65536. change (2 ^ 28) with 268435456. change (2 ^ 4) with 16. change (2 ^ 32) with 4294967296 in Hl. Z.div_mod_to_equations. lia.
Qed.
Lemma SETGATE_read istrap sel off d : in_u 16 sel -> in_u 32 off -> 0 <= d <= 3 -> let g := gate_bits (SETGATE istrap sel off d) in
  gate_offset g = off /\ gate_selector g = sel /\ keeps_interrupts g = istrap /\ cpu_system g = true /\ cpu_dpl g = d /\ cpu_present g = true.
Proof.
  intros Hs Ho Hd g. destruct (gate_read (SETGATE istrap sel off d)) as (R1 & R2 & R3 & R4 & R5 & R6 & R7). fold g in R1, R2, R3, R4, R5, R6, R7.
  cbn [SETGATE off_15_0 gd_cs gd_type gd_s gd_dpl gd_p off_31_16] in *. rewrite (uwrap_id 32) in * by assumption.
  unfold gate_offset, gate_selector, keeps_interrupts, cpu_type, cpu_system, cpu_dpl, cpu_present. rewrite R1, R2, R3, R4, R5, R6, R7.
  split_and!; try reflexivity; [apply halves, Ho | apply uwrap_id, Hs | destruct istrap; reflexivity | apply uwrap_id; unfold in_u; lia].
Qed.

(** A 16-bit segment of SEG16, as used for the task state. *)
Lemma SEG16_read type base lim dpl s : in_u 4 type -> in_u 32 base -> in_u 20 lim -> 0 <= dpl <= 3 -> 0 <= s <= 1 -> let d := seg_bits (SEG16 type base lim dpl <| sd_s := s |>) in
  cpu_base d = base /\ cpu_limit d = lim /\ cpu_type d = type /\ cpu_system d = (s =? 0) /\ cpu_dpl d = dpl /\ cpu_present d = true.
Proof.
  intros Ht Hb Hl Hd Hs d. destruct (seg_read (SEG16 type base lim dpl <| sd_s := s |>)) as (R1 & R2 & R3 & R4 & R5 & R6 & R7 & R8 & R9 & R10). fold d in R1, R2, R3, R4, R5, R6, R7, R8, R9, R10.
  assert (in_u 32 lim) as Hl' by (unfold in_u in *; lia).
  cbn -[uwrap Z.land Z.shiftr bits seg_bits] in R1, R2, R3, R4, R5, R6, R7, R8, R9, R10. rewrite (uwrap_id 32) in * by assumption.
  unfold cpu_base, cpu_limit, cpu_type, cpu_system, cpu_dpl, cpu_present. rewrite R1, R2, R3, R4, R5, R6, R7, R8, R9, R10.
  split_and!; try reflexivity; [apply thirds, Hb | | apply uwrap_id, Ht | f_equal; apply uwrap_id; unfold in_u; lia | apply uwrap_id; unfold in_u; lia].
  change (uwrap 1 0 =? 1) with false. cbv iota. change 0xffff with (Z.ones 16). rewrite land_mod by lia. rewrite Z.shiftr_div_pow2 by lia. unfold uwrap, in_u in *.
  change (2 ^ 16) with 65536. change (2 ^ 4) with 16. change (2 ^ 20) with 1048576 in Hl. Z.div_mod_to_equations. lia.
Qed.
Lemma pseudo_read p size : in_u 32 p -> 0 < size <= 65536 -> table_base (pseudo_desc p size) = p /\ table_limit (pseudo_desc p size) = size - 1.
Proof.
  intros Hp Hs. unfold table_base, table_limit, pseudo_desc. cbn [nth]. rewrite (uwrap_id 32) by exact Hp. split; [|apply uwrap_id; unfold in_u; lia].
  rewrite <-(halves p Hp) at 3. f_equal. change 0xffff with (Z.ones 16). rewrite land_mod by lia. symmetry. apply uwrap_idemp. lia.
Qed.

(** The loop sets every gate. *)
Lemma gates_from_lookup k : forall i vectors l j, (i + k <= length l)%nat ->
  gates_from k i vectors l !! j = if decide (i <= j < i + k)%nat then Some (SETGATE false (Z.shiftl SEG_KCODE 3) (nth j vectors 0) 0) else l !! j.
Proof.
  induction k as [|k IH]; intros i vectors l j Hl; cbn [gates_from]; [destruct (decide _); [lia | reflexivity]|].
  rewrite IH by (rewrite length_insert; lia). destruct (decide (S i <= j < S i + k)%nat), (decide (i <= j < i + S k)%nat); try reflexivity; try lia.
  - replace j with i by lia. apply list_lookup_insert_eq. lia.
  - apply list_lookup_insert_ne. lia.
Qed.
Lemma gates_from_length k : forall i vectors l, length (gates_from k i vectors l) = length l.
Proof. induction k as [|k IH]; intros i vectors l; cbn [gates_from]; [reflexivity|]. rewrite IH, length_insert. reflexivity. Qed.

(** The gate of vector [i] after trap_init. *)
Lemma trap_init_gate vectors m i : length (idt m) = 256%nat -> (i < 256)%nat -> Forall (in_u 32) vectors ->
  exists g, idt (trap_init vectors m) !! i = Some g /\ gate_offset (gate_bits g) = nth i vectors 0 /\ gate_selector (gate_bits g) = 8 * SEG_KCODE
    /\ int_allowed (gate_bits g) 3 = bool_decide (i = TRAP_SYSCALL) /\ keeps_interrupts (gate_bits g) = bool_decide (i = TRAP_SYSCALL) /\ cpu_present (gate_bits g) = true.
Proof.
  intros Hl Hi Hv. assert (in_u 32 (nth i vectors 0)) as Ho.
  { destruct (nth_in_or_default i vectors 0) as [Hin | ->]; [|unfold in_u; lia]. apply list_elem_of_In in Hin. rewrite Forall_forall in Hv. exact (Hv _ Hin). }
  assert (in_u 16 (Z.shiftl SEG_KCODE 3)) as Hs by (unfold in_u; change (Z.shiftl SEG_KCODE 3) with 16; lia).
  unfold trap_init. cbn [idt]. set (b := bool_decide (i = TRAP_SYSCALL)). exists (SETGATE b (Z.shiftl SEG_KCODE 3) (nth i vectors 0) (if b then DPL_USER else 0)).
  destruct (SETGATE_read b (Z.shiftl SEG_KCODE 3) (nth i vectors 0) (if b then DPL_USER else 0) Hs Ho ltac:(unfold DPL_USER; destruct b; lia)) as (R1 & R2 & R3 & R4 & R5 & R6).
  split_and!; auto; [|unfold int_allowed; rewrite R5, R6; destruct b; reflexivity].
  change (idt (m <| idt := ?l |>)) with l. subst b. case_bool_decide as Eb; [subst i; apply list_lookup_insert_eq; rewrite gates_from_length, Hl; unfold TRAP_SYSCALL; lia|].
  etransitivity; [apply list_lookup_insert_ne; congruence|]. rewrite gates_from_lookup by lia. destruct (decide _); [reflexivity | lia].
Qed.

(** ** The machine after the boot sequence *)

(** segment_init, trap_init and idt_init of kmain, then the switch to a process. *)
Definition setup (gdt_addr idt_addr ts_addr kstack pgdir : Z) (vectors : list Z) (m : machine) : machine :=
  load_task ts_addr kstack pgdir (idt_init idt_addr (trap_init vectors (segment_init gdt_addr m))).

(** The descriptor a selector names. *)
Definition selected (m : machine) (sel : Z) : option Z := seg_bits <$> gdt m !! Z.to_nat (Z.shiftr sel 3).

(** A flat segment of 4 GiB at privilege [dpl]. *)
Definition flat (d type dpl : Z) : Prop :=
  cpu_base d = 0 /\ cpu_limit d = 2 ^ 32 - 1 /\ cpu_type d = type /\ cpu_system d = false /\ cpu_dpl d = dpl /\ cpu_present d = true.
Lemma SEG_flat type dpl : in_u 4 type -> 0 <= dpl <= 3 -> flat (seg_bits (SEG type 0 0xffffffff dpl)) type dpl.
Proof. intros Ht Hd. destruct (SEG_read type 0 0xffffffff dpl Ht ltac:(unfold in_u; lia) ltac:(unfold in_u; lia) Hd) as (R1 & R2 & R3 & R4 & R5 & R6). split_and!; auto. Qed.

(** What keeps a user program out of the kernel. *)
Record guarded (m : machine) (gdt_addr idt_addr ts_addr kstack pgdir : Z) (vectors : list Z) : Prop := Guarded {
  (** Every trap enters the kernel at its entry point, and int 0x80 is the only one a
      user program can raise itself, and the only one that leaves interrupts on. *)
  gu_gates : forall i, (i < 256)%nat -> exists g, idt m !! i = Some g /\ gate_offset (gate_bits g) = nth i vectors 0
    /\ int_allowed (gate_bits g) 3 = bool_decide (i = TRAP_SYSCALL) /\ keeps_interrupts (gate_bits g) = bool_decide (i = TRAP_SYSCALL)
    /\ exists d, selected m (gate_selector (gate_bits g)) = Some d /\ flat d (Z.lor STA_X STA_R) 0;
  gu_idt : table_base (idtr m) = idt_addr /\ table_limit (idtr m) = 256 * 8 - 1;
  gu_gdt : table_base (gdtr m) = gdt_addr /\ table_limit (gdtr m) = 7 * 8 - 1;
  gu_user : exists c d, selected m (8 * SEG_UCODE) = Some c /\ flat c (Z.lor STA_X STA_R) 3 /\ selected m (8 * SEG_UDATA) = Some d /\ flat d STA_W 3;
  (** The task register names the task state, which gives the stack of the kernel
      and, its I/O map lying beyond the limit, no port to user programs. *)
  gu_task : exists d k, selected m (tr m) = Some d /\ cpu_base d = ts_addr /\ cpu_limit d < ts_iomb (ts m) /\ cpu_system d = true /\ cpu_type d = STS_T32A /\ cpu_present d = true
    /\ ts_esp0 (ts m) = kstack + KSTACKSIZE /\ selected m (ts_ss0 (ts m)) = Some k /\ flat k STA_W 0;
  gu_space : cr3 m = V2P pgdir
}.

Lemma setup_gdt gdt_addr idt_addr ts_addr kstack pgdir vectors m : length (gdt m) = NSEGS ->
  let g := gdt (setup gdt_addr idt_addr ts_addr kstack pgdir vectors m) in
  g !! 2%nat = Some (SEG (Z.lor STA_X STA_R) 0 0xffffffff 0) /\ g !! 3%nat = Some (SEG STA_W 0 0xffffffff 0) /\ g !! 4%nat = Some (SEG (Z.lor STA_X STA_R) 0 0xffffffff DPL_USER)
  /\ g !! 5%nat = Some (SEG STA_W 0 0xffffffff DPL_USER) /\ g !! 6%nat = Some (SEG16 STS_T32A ts_addr (sizeof_taskstate - 1) 0 <| sd_s := 0 |>).
Proof.
  intros Hl. destruct m as [l t i g r x c]. cbn [gdt] in Hl. do 8 (destruct l as [|? l]; [discriminate || idtac|]); try discriminate. split_and!; reflexivity.
Qed.

Lemma setup_ok gdt_addr idt_addr ts_addr kstack pgdir vectors m :
  length (gdt m) = NSEGS -> length (idt m) = 256%nat -> Forall (in_u 32) vectors -> in_u 32 gdt_addr -> in_u 32 idt_addr -> in_u 32 ts_addr -> 0 <= kstack -> kstack + KSTACKSIZE < 2 ^ 32 ->
  guarded (setup gdt_addr idt_addr ts_addr kstack pgdir vectors m) gdt_addr idt_addr ts_addr kstack pgdir vectors.
Proof.
  intros Hg Hi Hv Ha1 Ha2 Ha3 Hk0 Hk. destruct (setup_gdt gdt_addr idt_addr ts_addr kstack pgdir vectors m Hg) as (G2 & G3 & G4 & G5 & G6). set (m' := setup _ _ _ _ _ _ _) in *.
  assert (forall sel n, Z.to_nat (Z.shiftr sel 3) = n -> selected m' sel = seg_bits <$> gdt m' !! n) as Hsel by (intros sel n <-; reflexivity).
  split.
  - intros i Hi'. destruct (trap_init_gate vectors (segment_init gdt_addr m) i) as (g & E & R1 & R2 & R3 & R4 & R5); [exact Hi | exact Hi' | exact Hv|]. exists g. split_and!; auto.
    eexists. split; [rewrite R2, (Hsel (8 * SEG_KCODE) 2%nat eq_refl), G2; reflexivity|]. apply SEG_flat; [unfold in_u; change (Z.lor STA_X STA_R) with 10; lia | lia].
  - exact (pseudo_read idt_addr (8 * 256) Ha2 ltac:(lia)).
  - exact (pseudo_read gdt_addr (8 * 7) Ha1 ltac:(lia)).
  - eexists _, _. split_and!; [rewrite (Hsel (8 * SEG_UCODE) 4%nat eq_refl), G4; reflexivity | apply SEG_flat; [unfold in_u; change (Z.lor STA_X STA_R) with 10; lia | unfold DPL_USER; lia] | rewrite (Hsel (8 * SEG_UDATA) 5%nat eq_refl), G5; reflexivity | apply SEG_flat; [unfold in_u, STA_W; lia | unfold DPL_USER; lia]].
  - destruct (SEG16_read STS_T32A ts_addr (sizeof_taskstate - 1) 0 0 ltac:(unfold in_u, STS_T32A; lia) Ha3 ltac:(unfold in_u, sizeof_taskstate; lia) ltac:(lia) ltac:(lia)) as (R1 & R2 & R3 & R4 & R5 & R6).
    eexists _, _. split_and!; [rewrite (Hsel (tr m') 6%nat eq_refl), G6; reflexivity | exact R1 | rewrite R2; reflexivity | exact R4 | exact R3 | exact R6 | | rewrite (Hsel (ts_ss0 (ts m')) 3%nat eq_refl), G3; reflexivity | apply SEG_flat; [unfold in_u, STA_W; lia | lia]].
    change (ts_esp0 (ts m')) with (u32 (u32 kstack + KSTACKSIZE)). rewrite !uwrap_id by (unfold in_u, KSTACKSIZE in *; rewrite ?uwrap_id; unfold in_u; lia). reflexivity.
  - change (cr3 m') with (u32 (V2P pgdir)). unfold V2P. apply uwrap_idemp. lia.
Qed.


Definition machine_0 : machine :=
  Machine (replicate NSEGS (Segdesc 0 0 0 0 0 0 0 0 0 0 0 0 0)) (Taskstate 0 0 0 0 0 0 0 0 0 0 0 0 0 0 0 0 0 0 0 0 0 0 0 0 0 0 0)
    (replicate 256 (Gatedesc 0 0 0 0 0 0 0 0 0)) [] [] 0 0.
