(* ===== verification/Boot.v ===== *)
(** * Memory at boot (kmain of src/kernel/main.c, kvm_alloc of src/kernel/mm/vm.c,
      keyboard_init and kgetchar of src/drivers/input/keyboard/kbd.c)

    The slice of kmain that sets up memory: the boot information gives PHYSTOP, kinit1
    frees the pages the boot page directory maps, kvm_alloc builds the kernel's page
    table out of them and switches to it, kinit2 frees the rest.  The other calls of
    kmain between them allocate nothing: the interrupt controllers and the timer are in
    Irq.v, the descriptor tables in Segments.v, the first process in SysProc.v.  The
    two loops that read the keyboard controller by polling are at the end. *)
From Stdlib Require Import ZArith Lia.
From stdpp Require Import base numbers list gmap sets strings.
From S2P Require Import Prelude KString Locks Kalloc Vm VmThm VmSpace VmLife Multiboot Irq Kbd Segments.
Local Open Scope Z_scope.

Definition PTE_PS : Z := 0x80.
Definition PDXSHIFT : Z := 22.

(** The page directory the processor runs on until kvm_alloc: two 4 MB pages. *)
Definition entrypgdir : list Z :=
  <[Z.to_nat (Z.shiftr KERNBASE PDXSHIFT) := Z.lor (Z.lor (Z.lor 0 PTE_P) PTE_W) PTE_PS]>
    (<[O := Z.lor (Z.lor (Z.lor 0 PTE_P) PTE_W) PTE_PS]> (replicate NPDENTRIES 0)).

(** The globals of this slice: the memory allocator's, the boot information's, [kpgdir]
    and the processor's registers. *)
Record kernel := Kernel { alloc : kstate; binfo : boot; kpgdir : Z; hw : machine }.
#[export] Instance kernel_fields : Fields kernel := fun k => Kernel (alloc k) (binfo k) (kpgdir k) (hw k).

Definition in_alloc {A} (f : M kstate A) : M kernel A := fun k =>
  match f (alloc k) with
  | Ok a s => Ok a (k <| alloc := s |>)
  | Panic w => Panic w
  | Fault w => Fault w
  | Block ch s => Block ch (k <| alloc := s |>)
  end.
Definition in_boot {A} (f : mem -> M boot A) : M kernel A := fun k =>
  match f (kmem_mem (alloc k)) (binfo k) with
  | Ok a b => Ok a (k <| binfo := b |>)
  | Panic w => Panic w
  | Fault w => Fault w
  | Block ch b => Block ch (k <| binfo := b |>)
  end.

Section boot.
Context (kend kdata : Z).       (* the linker's [end] and [data] *)

Definition kvm_alloc : M kernel unit :=
  k ← get;
  d ← in_alloc (setupkvm kend (PHYSTOP (binfo k)) kdata);
  modify (fun k => k <| kpgdir := d |>);;
  modify (fun k => k <| hw := switchkvm (kpgdir k) (hw k) |>).

Definition kmain_memory (addr : Z) : M kernel unit :=
  in_boot (fun m => multiboot_init m addr);;
  k ← get;
  in_alloc (kinit1 kend (PHYSTOP (binfo k)) kend (P2V (4 * 1024 * 1024)));;
  kvm_alloc;;
  k ← get;
  in_alloc (kinit2 kend (PHYSTOP (binfo k)) (P2V (4 * 1024 * 1024)) (P2V (PHYSTOP (binfo k)))).
End boot.

(** ** What the boot page directory maps *)

(** The address a 4 MB page of directory [dir] gives [va], and whether it may be written. *)
Definition big_page (dir : list Z) (va : Z) : option Z :=
  e ← dir !! Z.to_nat (PDX va);
  if nz (Z.land e PTE_P) && nz (Z.land e PTE_W) && nz (Z.land e PTE_PS) then Some (e / 2 ^ 22 * 2 ^ 22 + va mod 2 ^ 22) else None.

Lemma entrypgdir_kernel va : KERNBASE <= va < KERNBASE + 2 ^ 22 -> big_page entrypgdir va = Some (V2P va).
Proof.
  intros H. unfold big_page. assert (PDX va = 768) as ->.
  { rewrite PDX_div by (unfold KERNBASE in *; lia). unfold KERNBASE in *. Z.div_mod_to_equations. lia. }
  change (entrypgdir !! Z.to_nat 768) with (Some 131). cbn [mbind option_bind].
  change (nz (Z.land 131 PTE_P) && nz (Z.land 131 PTE_W) && nz (Z.land 131 PTE_PS)) with true. cbv iota.
  f_equal. unfold V2P. rewrite uwrap_id by (unfold in_u, KERNBASE in *; lia). unfold KERNBASE in *. Z.div_mod_to_equations. lia.
Qed.

(** ** The pages of the system *)

(** The pages between the end of the kernel and the end of memory. *)
Definition pool (kend P p : Z) : Prop := p mod PGSIZE = 0 /\ kend <= p /\ p + PGSIZE <= KERNBASE + P.

(** The numbers kmain relies on: the kernel ends in the first 4 MB with 258 pages to
    spare, its data before [end], and memory reaches past 4 MB. *)
Record boot_layout (kend P kdata : Z) : Prop := BootLayout {
  bl_kernel : kernel_layout P kdata;
  bl_data : kdata <= kend;
  bl_room : kend + 259 * PGSIZE <= KERNBASE + 4 * 1024 * 1024;
  bl_memory : 4 * 1024 * 1024 <= P
}.

Section pages.
Context (kend P kdata : Z) (HB : boot_layout kend P kdata).
#[local] Abbreviation split := (KERNBASE + 4 * 1024 * 1024).

Lemma layout_bounds : KERNBASE < kend /\ P2V (4 * 1024 * 1024) = split /\ P2V P = KERNBASE + P /\ KERNBASE + P < 2 ^ 32 /\ split <= KERNBASE + P.
Proof.
  destruct HB as [[Hd Ha Ht Hdev] Hdk Hr Hm]. unfold P2V, KERNLINK, EXTMEM, DEVSPACE, KERNBASE, PGSIZE in *.
  rewrite !uwrap_id by (unfold in_u; lia). lia.
Qed.

Lemma kinit1_step s :
  kinv kend P s [] ->
  exists s' L, kinit1 kend P kend split s = Ok tt s' /\ kinv kend P s' L /\ (257 < length L)%nat
    /\ (forall p, p ∈ L <-> pool kend P p /\ p < split).
Proof.
  intros HI. destruct layout_bounds as (Hk & _ & _ & Htop & Hmid). pose proof (bl_room _ _ _ HB) as Hroom.
  assert (PGROUNDUP kend = (kend + PGSIZE - 1) / PGSIZE * PGSIZE) as Hr by (apply PGROUNDUP_spec; unfold PGSIZE, KERNBASE in *; lia).
  set (p := PGROUNDUP kend) in *. assert (p mod PGSIZE = 0) as Ha by (rewrite Hr; apply Z.mod_mul; unfold PGSIZE; lia).
  assert (kend <= p < kend + PGSIZE) as Hb by (rewrite Hr; unfold PGSIZE in *; Z.div_mod_to_equations; lia).
  set (s0 := KState (kmem_mem s) false (freelist s) (klocks s)). assert (kinv kend P s0 []) as HI0 by (destruct HI; split; assumption).
  destruct (freerange_loop_spec kend P (Z.to_nat ((split - p) / PGSIZE)) s0 [] p split HI0) as (s' & E & HI' & _ & _).
  - lia.
  - apply range_pages_ok; unfold KERNBASE in *; lia.
  - intros v _. apply not_elem_of_nil.
  - exists s', (rev (range_pages p split)). rewrite app_nil_r in HI'. split_and!; [exact E | exact HI' | |].
    + rewrite length_rev. unfold range_pages. rewrite length_map, length_seq. unfold PGSIZE in *. Z.div_mod_to_equations. lia.
    + intros v. rewrite list_elem_of_In, <-in_rev, <-list_elem_of_In, range_pages_elem by exact Ha. unfold pool.
      unfold PGSIZE, KERNBASE in *. Z.div_mod_to_equations. lia.
Qed.

Lemma kinit2_step s L pgdir T :
  space kend P s L pgdir T ∅ -> (forall p, p ∈ L \/ owns pgdir T ∅ p -> p < split) ->
  exists s' L', kinit2 kend P split (KERNBASE + P) s = Ok tt s' /\ space kend P s' L' pgdir T ∅ /\ use_lock s' = true
    /\ (forall p, p ∈ L' <-> p ∈ L \/ (pool kend P p /\ split <= p))
    /\ forall x, in_tables pgdir T x -> kmem_mem s' x = kmem_mem s x.
Proof.
  intros HS Hlow. destruct layout_bounds as (Hk & _ & _ & Htop & Hmid). pose proof (bl_room _ _ _ HB) as Hroom.
  assert (split mod PGSIZE = 0) as Ha by reflexivity. unfold kinit2, freerange. change (PGROUNDUP split) with split.
  assert (forall v, v ∈ range_pages split (KERNBASE + P) <-> pool kend P v /\ split <= v) as Hr.
  { intros v. rewrite range_pages_elem by exact Ha. unfold pool, PGSIZE in *. lia. }
  destruct (freerange_loop_spec kend P (Z.to_nat ((KERNBASE + P - split) / PGSIZE)) s L split (KERNBASE + P) (sp_kinv _ _ _ _ _ _ _ HS))
    as (s' & E & HI' & _ & Hm); [lia | apply range_pages_ok; unfold PGSIZE, KERNBASE in *; lia | |].
  { intros v Hv Hin. apply Hr in Hv as [_ Hv]. specialize (Hlow v (or_introl Hin)). lia. }
  assert (forall x, in_tables pgdir T x -> kmem_mem s' x = kmem_mem s x) as Hframe.
  { intros x Hx. apply Hm. intros v Hv Hin. apply Hr in Hv as [(Hal & _) Hv].
    destruct (tables_owned pgdir T ∅ x Hx) as (p & Hp & Hpx). pose proof (Hlow p (or_intror Hp)) as Hlt.
    destruct (space_owns_ok kend P s L pgdir T ∅ p HS Hp) as [(Hpa & _) _].
    unfold in_page, PGSIZE, KERNBASE in *. Z.div_mod_to_equations. lia. }
  rewrite (bind_step _ _ _ _ _ E). exists (KState (kmem_mem s') true (freelist s') (klocks s')), (rev (range_pages split (KERNBASE + P)) ++ L).
  assert (kinv kend P (KState (kmem_mem s') true (freelist s') (klocks s')) (rev (range_pages split (KERNBASE + P)) ++ L)) as HI2
    by (destruct HI'; split; assumption).
  assert (forall p, p ∈ rev (range_pages split (KERNBASE + P)) ++ L <-> p ∈ L \/ (pool kend P p /\ split <= p)) as HL'.
  { intros p. rewrite elem_of_app, (list_elem_of_In (rev _)), <-in_rev, <-list_elem_of_In, Hr. tauto. }
  split_and!; [reflexivity | | reflexivity | exact HL' | exact Hframe].
  apply (space_frame kend P s L pgdir T ∅ _ _ HS HI2); [|exact Hframe].
  intros p Hp Ho. apply HL' in Hp as [Hp | [_ Hp]]; [exact (proj2 (space_owns_ok _ _ _ _ _ _ _ p HS Ho) Hp)|].
  specialize (Hlow p (or_intror Ho)). lia.
Qed.

(** kvm_alloc has the pages it needs. *)
Lemma kvm_alloc_step k L :
  kinv kend P (alloc k) L -> (257 < length L)%nat -> PHYSTOP (binfo k) = P ->
  exists k' L' T, kvm_alloc kend kdata k = Ok tt k' /\ binfo k' = binfo k /\ kpgdir k' <> 0
    /\ cr3 (hw k') = u32 (V2P (kpgdir k')) /\ space kend P (alloc k') L' (kpgdir k') T ∅
    /\ conserved L (fun _ => False) L' (owns (kpgdir k') T ∅)
    /\ forall va, 0 <= va < 2 ^ 32 -> pte (kmem_mem (alloc k')) T va = kernel_pte P kdata va.
Proof.
  intros HI Hlen HP. destruct layout_bounds as (Hk & _).
  destruct (setupkvm_spec kend P kdata Hk (alloc k) L (bl_kernel _ _ _ HB) HI) as (d & s' & L' & E & _ & HR).
  destruct HR as [(Hd & T & HS & HC & Hp) | (_ & _ & _ & Hl)]; [|lia].
  exists (k <| alloc := s' |> <| kpgdir := d |> <| hw := switchkvm d (hw k) |>), L', T. split_and!; auto.
  unfold kvm_alloc. mstep. unfold in_alloc. rewrite HP, E. reflexivity.
Qed.

Lemma kmain_memory_spec addr k b :
  kinv kend P (alloc k) [] -> multiboot_init (kmem_mem (alloc k)) addr (binfo k) = Ok tt b -> PHYSTOP b = P ->
  exists k' L T, kmain_memory kend kdata addr k = Ok tt k' /\ kpgdir k' <> 0 /\ cr3 (hw k') = V2P (kpgdir k')
    /\ space kend P (alloc k') L (kpgdir k') T ∅ /\ use_lock (alloc k') = true
    /\ (forall p, (p ∈ L \/ owns (kpgdir k') T ∅ p) <-> pool kend P p)
    /\ (forall p, owns (kpgdir k') T ∅ p -> big_page entrypgdir p = Some (V2P p))
    /\ forall va, 0 <= va < 2 ^ 32 -> pte (kmem_mem (alloc k')) T va = kernel_pte P kdata va.
Proof.
  intros HI Eb HP. destruct layout_bounds as (Hk & E4 & Etop & Htop & Hmid).
  destruct (kinit1_step (alloc k) HI) as (s1 & L1 & E1 & HI1 & Hlen & HL1).
  set (k1 := k <| binfo := b |> <| alloc := s1 |>).
  destruct (kvm_alloc_step k1 L1 HI1 Hlen HP)
    as (k2 & L2 & T & E2 & Eb2 & Hd & Hcr3 & HS & HC & Hpte). change (binfo k1) with b in Eb2.
  assert (forall p, p ∈ L2 \/ owns (kpgdir k2) T ∅ p -> pool kend P p /\ p < split) as Hlow.
  { intros p Hp. apply HL1. destruct (proj2 (HC p) Hp) as [H | []]. exact H. }
  destruct (kinit2_step (alloc k2) L2 (kpgdir k2) T HS) as (s3 & L3 & E3 & HS3 & Hu & HL3 & Hm); [intros p Hp; apply (Hlow p Hp)|].
  exists (k2 <| alloc := s3 |>), L3, T. split_and!; auto.
  - unfold kmain_memory. mstep. unfold in_boot at 1. rewrite Eb. cbn [binfo alloc]. unfold in_alloc at 1. cbn [binfo alloc].
    rewrite E4. change (binfo (k <| binfo := b |>)) with b. change (alloc (k <| binfo := b |>)) with (alloc k).
    rewrite HP, E1. change (k <| binfo := b |> <| alloc := s1 |>) with k1. rewrite E2. unfold in_alloc. rewrite Eb2, HP, Etop, E3. reflexivity.
  - change (cr3 (hw k2) = V2P (kpgdir k2)). rewrite Hcr3. unfold V2P. apply uwrap_idemp. lia.
  - intros p. change (kpgdir (k2 <| alloc := s3 |>)) with (kpgdir k2). rewrite HL3. specialize (Hlow p). specialize (HC p). rewrite (HL1 p) in HC.
    destruct (Z.ltb_spec p split); tauto || (split; [intros [[? | ?] | ?]; tauto | intros Hp; left; right; split; auto]).
  - intros p Hp. apply entrypgdir_kernel. destruct (Hlow p (or_intror Hp)) as ((_ & H1 & _) & H2).
    unfold KERNBASE in *. lia.
  - intros va Hva. rewrite <-Hpte by exact Hva. apply pte_frame. intros i p x Hi Hx. apply Hm. right. eauto.
Qed.
End pages.

(** C35. The memory of a running system.  On a machine whose memory map gives PHYSTOP,
    kmain returns from its memory setup with the kernel's page directory loaded and
    every address of the kernel's half mapped as the layout says; the free pages and
    the pages of that table are exactly the whole pages from the end of the kernel to
    the end of memory, none of them lost or in both; the pages of the table, which were
    written before it was loaded, are mapped by the boot page directory; and the
    allocator locks from then on. *)
Theorem kmain_memory_pool kend P kdata addr k b :
  boot_layout kend P kdata -> kinv kend P (alloc k) [] ->
  multiboot_init (kmem_mem (alloc k)) addr (binfo k) = Ok tt b -> PHYSTOP b = P ->
  exists k' L T, kmain_memory kend kdata addr k = Ok tt k' /\ kpgdir k' <> 0 /\ cr3 (hw k') = V2P (kpgdir k')
    /\ space kend P (alloc k') L (kpgdir k') T ∅ /\ use_lock (alloc k') = true
    /\ (forall p, (p ∈ L \/ owns (kpgdir k') T ∅ p) <-> pool kend P p)
    /\ (forall p, owns (kpgdir k') T ∅ p -> big_page entrypgdir p = Some (V2P p))
    /\ forall va, 0 <= va < 2 ^ 32 -> pte (kmem_mem (alloc k')) T va = kernel_pte P kdata va.
Proof. intros HB HI Eb HP. exact (kmain_memory_spec kend P kdata HB addr k b HI Eb HP). Qed.

(** The machine of Multiboot.v with a kernel of 1.5 MB. *)
Definition pc_kernel : kernel :=
  Kernel (KState pc_mem false 0 (boot_state false)) (Boot 0 0 0 0) 0 machine_0.

Lemma kmain_memory_pool_witness :
  exists k' L, kmain_memory (KERNBASE + 0x280000) (KERNBASE + 0x200000) 0x9500 pc_kernel = Ok tt k'
    /\ kpgdir k' <> 0 /\ KERNBASE + 0x1000000 ∈ L /\ kinv (KERNBASE + 0x280000) 0x3FF0000 (alloc k') L.
Proof.
  destruct (kmain_memory_pool (KERNBASE + 0x280000) 0x3FF0000 (KERNBASE + 0x200000) 0x9500 pc_kernel
    (Boot (P2V 0x9500) 144 (P2V 0x9510) 0x3FF0000)) as (k' & L & T & E & Hd & _ & HS & _ & Hall & Hbig & _).
  - split; [split|..]; vm_compute; split_and?; congruence || reflexivity.
  - destruct (empty_kstate_inv (KERNBASE + 0x280000) 0x3FF0000). split; assumption.
  - vm_compute. reflexivity.
  - reflexivity.
  - exists k', L. split_and!; [exact E | exact Hd | | apply HS].
    destruct (proj2 (Hall (KERNBASE + 0x1000000))) as [H | H]; [split_and!; vm_compute; congruence | exact H |].
    specialize (Hbig _ H). vm_compute in Hbig. discriminate.
Defined.

(** ** The keyboard controller, polled

    The readings to come of the status port and the data port, in pairs; the loops do
    not end while none is what they wait for. *)

Fixpoint kgetchar (readings : list (Z * Z)) : option (Z * list (Z * Z)) :=
  match readings with
  | [] => None
  | (stat, data) :: q =>
      if nz (Z.land stat 1) then
        if (Z.land data 0x80 =? 0) && (data <? 0x80) then
          let c := i8 (code normalmap data) in
          if nz c then Some (c, q) else kgetchar q
        else kgetchar q
      else kgetchar q
  end.

(** One reading per status: the data port is read when the status says so. *)
Fixpoint drain (readings : list (Z * Z)) : option (list (Z * Z)) :=
  match readings with
  | [] => None
  | (stat, _) :: q => if nz (Z.land stat 1) then drain q else Some q
  end.
Definition keyboard_init (readings : list (Z * Z)) : M irqs (list (Z * Z)) :=
  match drain readings with
  | None => fault "keyboard controller"
  | Some q => pic_enable IRQ_KBD;; mret q
  end.

(** kgetchar returns the first key press that has a character, past releases, modifiers
    and readings with nothing in the controller. *)
Lemma kgetchar_spec l stat data q :
  Forall (fun r => nz (Z.land r.1 1) = false \/ 0x80 <= r.2 \/ code normalmap r.2 = 0) l ->
  nz (Z.land stat 1) = true -> 0 <= data < 0x80 -> code normalmap data <> 0 ->
  kgetchar (l ++ (stat, data) :: q) = Some (code normalmap data, q).
Proof.
  intros Hl Hs Hd Hc. assert (forall d, 0 <= d < 0x80 -> i8 (code normalmap d) = code normalmap d) as Hi8.
  { intros d H. assert (forallb (fun d => i8 (code normalmap d) =? code normalmap d) (seqZ 0 0x80) = true) as HF by (vm_compute; reflexivity).
    rewrite forallb_forall in HF. apply Z.eqb_eq, HF, list_elem_of_In, elem_of_seqZ. lia. }
  induction Hl as [|[st d] l [H | [H | H]] _ IH]; cbn [kgetchar app fst snd] in *.
  - assert (Z.land data 0x80 = 0) as ->.
    { apply Z.bits_inj'. intros i Hi. rewrite Z.land_spec, Z.bits_0. change 0x80 with (2 ^ 7). destruct (Z.eqb_spec i 7) as [-> |].
      - rewrite (in_u_testbit 7 data 7) by (unfold in_u; lia). reflexivity.
      - rewrite Z.pow2_bits_false by lia. apply andb_false_r. }
    rewrite Hs, (proj2 (Z.ltb_lt _ _)) by lia. cbn [Z.eqb andb]. rewrite Hi8 by exact Hd. rewrite (proj2 (nz_true _) Hc). reflexivity.
  - rewrite H. exact IH.
  - rewrite (proj2 (Z.ltb_ge _ _)) by exact H. rewrite andb_false_r. destruct (nz (Z.land st 1)); exact IH.
  - rewrite H. change (nz (i8 0)) with false. destruct (nz (Z.land st 1)), ((Z.land d 128 =? 0) && (d <? 128)); exact IH.
Qed.

(** keyboard_init takes every byte waiting in the controller and lets its interrupt in. *)
Lemma keyboard_init_spec l stat data q s :
  Forall (fun r => nz (Z.land r.1 1) = true) l -> nz (Z.land stat 1) = false ->
  exists s', keyboard_init (l ++ (stat, data) :: q) s = Ok q s' /\ irqmask s' = u16 (Z.land (irqmask s) (Z.lnot 2)).
Proof.
  intros Hl Hs. assert (drain (l ++ (stat, data) :: q) = Some q) as E.
  { induction Hl as [|[st d] l H _ IH]; cbn [drain app fst] in *; [rewrite Hs; reflexivity | rewrite H; exact IH]. }
  unfold keyboard_init. rewrite E. eexists. split; reflexivity.
Qed.
