(* ===== verification/ForkThm.v ===== *)
(** * fork and waitpid in the whole kernel

    The theorems about fork in Proc.v take what kalloc and copyuvm return as given.
    Here the fork of SysProc.v runs on the page allocator, the page tables, the table of
    open files and the inode cache at once: the child it leaves has a stack of its own
    and a copy of its parent's memory, and when a page is missing anywhere nothing is
    lost. *)
From Stdlib Require Import ZArith Lia.
From stdpp Require Import base numbers list gmap sets strings relations.
From S2P Require Import Prelude KString Locks Kalloc Vm VmThm VmSpace VmLife Pipe Proc ProcThm Syscall Cred Block Bio BioThm Log Fs Signal File SysFd SysDir FdThm FdRefs Exec SysProc Calm KernelRefs.
Local Open Scope Z_scope.

Section fork_thm.
Context {C : Type} `{BufCache C}.
Context (kend PHYSTOP kdata : Z) (Hk : KERNBASE < kend).
#[local] Abbreviation K := (M (ksys C)).
#[local] Abbreviation space := (space kend PHYSTOP).
Implicit Types (s : ksys C).

(** ** Steps of the run *)

Lemma onps_run {A} (m : M pstate A) s a p : m (kps s) = Ok a p -> onps m s = Ok a (s <| kps := p |>).
Proof. intros E. unfold onps. rewrite E. reflexivity. Qed.
Lemma onmm_run {A} (m : M kstate A) s a k : m (kmm s) = Ok a k -> onmm m s = Ok a (s <| kmm := k |>).
Proof. intros E. unfold onmm. rewrite E. reflexivity. Qed.

(** file_dup on a file with a reference changes its count alone. *)
Lemma file_dup_exact s f x :
  ftlocked s = false -> 1 <= f -> ftable s !! Z.to_nat (f - 1) = Some x -> 1 <= fref x < 2 ^ 31 - 1 ->
  file_dup f s = Ok f (s <| ftable := <[Z.to_nat (f - 1) := x <| fref := fref x + 1 |>]> (ftable s) |>).
Proof.
  intros Hl Hf Hx Hr. unfold file_dup. rewrite (bind_step _ _ _ _ _ (acquire_ft_Ok s Hl)).
  erewrite bind_step by (unfold fat; mstep; apply aget_Ok; [lia | exact Hx]).
  rewrite (proj2 (Z.ltb_ge _ _)) by lia. erewrite bind_step by reflexivity. erewrite bind_step by (apply release_ft_Ok; reflexivity).
  destruct s as [fs ps mm pi ft fl kt]. cbn in Hl, Hx |- *. subst fl. unfold mret, M_ret. do 2 f_equal.
  unfold fmod. rewrite (alter_insert _ _ _ x) by exact Hx. rewrite swrap_id by (unfold in_s; lia). reflexivity.
Qed.

(** The files the descriptors [l] name can be duplicated [k] times. *)
Definition dupable (k : nat) (ft : list file) (l : list Z) : Prop :=
  forall f, f ∈ l -> f <> 0 -> 1 <= f /\ exists x, ft !! Z.to_nat (f - 1) = Some x /\ 1 <= fref x /\ fref x + Z.of_nat k <= 2 ^ 31 - 1.

Lemma dupable_step k ft f l x :
  dupable (S k) ft (f :: l) -> f <> 0 -> ft !! Z.to_nat (f - 1) = Some x ->
  dupable k (<[Z.to_nat (f - 1) := x <| fref := fref x + 1 |>]> ft) l.
Proof.
  intros HD Hf Hx g Hg Hg0. destruct (HD g) as (H1 & y & Hy & Hy1 & Hy2); [right; exact Hg | exact Hg0|]. split; [exact H1|].
  pose proof (lookup_lt_Some _ _ _ Hx) as Hlt. destruct (decide (Z.to_nat (g - 1) = Z.to_nat (f - 1))) as [E | Hne].
  - rewrite E in *. assert (y = x) as -> by congruence. exists (x <| fref := fref x + 1 |>). rewrite list_lookup_insert_eq by exact Hlt.
    change (fref (x <| fref := fref x + 1 |>)) with (fref x + 1). split_and!; [reflexivity | lia | lia].
  - exists y. rewrite list_lookup_insert_ne by congruence. split_and!; [exact Hy | lia | lia].
Qed.

Lemma dupable_tail k ft f l : dupable (S k) ft (f :: l) -> dupable k ft l.
Proof.
  intros HD g Hg Hg0. destruct (HD g) as (H1 & y & Hy & Hy1 & Hy2); [right; exact Hg | exact Hg0|]. split; [exact H1|]. exists y. split_and!; auto. lia.
Qed.

(** The copy of the descriptors, from [fd] on. *)
Lemma dup_fds_run c np cp k : forall fd s p,
  c <> np -> Proc.ptable (kps s) !! c = Some cp -> Proc.ptable (kps s) !! np = Some p -> ftlocked s = false ->
  length (ofile cp) = (fd + k)%nat -> drop fd (ofile p) = replicate k 0 -> dupable k (ftable s) (drop fd (ofile cp)) ->
  exists ft, dup_fds k c np fd s
    = Ok tt (s <| kps := kps s <| Proc.ptable := <[np := p <| ofile := take fd (ofile p) ++ drop fd (ofile cp) |>]> (Proc.ptable (kps s)) |> |> <| ftable := ft |>).
Proof.
  induction k as [|k IH]; intros fd s p Hne Hc Hp Hl Hlen Hz HD; cbn [dup_fds].
  - exists (ftable s). assert (take fd (ofile p) ++ drop fd (ofile cp) = ofile p) as ->.
    { rewrite (drop_ge (ofile cp)), app_nil_r by lia. rewrite <-(take_drop fd (ofile p)) at 2. rewrite Hz. cbn. rewrite app_nil_r. reflexivity. }
    rewrite list_insert_id by (rewrite Hp; f_equal; destruct p; reflexivity). destruct s as [fs [] mm pi ft fl kt]. reflexivity.
  - destruct (lookup_lt_is_Some_2 (ofile cp) fd) as [f Hf]; [lia|]. pose proof (drop_S _ _ _ Hf) as Ed. rewrite Ed in HD.
    assert (ofile p !! fd = Some 0 /\ drop (S fd) (ofile p) = replicate k 0) as [Hp0 Hz'].
    { assert (ofile p !! fd = Some 0) as E0 by (rewrite <-(Nat.add_0_r fd), <-lookup_drop, Hz; reflexivity).
      split; [exact E0|]. rewrite (drop_S _ _ _ E0) in Hz. injection Hz as Hz. exact Hz. }
    erewrite bind_step by (apply onps_run, pget_Ok, Hc). assert (s <| kps := kps s |> = s) as -> by (destruct s; reflexivity).
    rewrite (bind_step _ _ _ _ _ (aget_Ok _ _ (Z.of_nat fd) f s ltac:(lia) ltac:(rewrite Nat2Z.id; exact Hf))).
    pose proof (lookup_lt_Some _ _ _ Hp0) as Hltp. pose proof (lookup_lt_Some _ _ _ Hp) as Hltn.
    destruct (nz f) eqn:Ef; cbn [when].
    + apply nz_true in Ef. destruct (HD f ltac:(left) Ef) as (Hf1 & x & Hx & Hx1 & Hx2).
      rewrite bind_assoc. erewrite bind_step by (apply (file_dup_exact s f x Hl Hf1 Hx); lia).
      erewrite bind_step by reflexivity. set (s1 := s <| ftable := _ |>).
      set (p1 := p <| ofile := <[fd := f]> (ofile p) |>).
      set (s2 := s1 <| kps := _ |>). assert (Proc.ptable (kps s2) = <[np := p1]> (Proc.ptable (kps s))) as Et2 by exact (alter_insert _ np _ p Hp).
      destruct (IH (S fd) s2 p1) as (ft & E).
      * exact Hne.
      * rewrite Et2, list_lookup_insert_ne by congruence. exact Hc.
      * rewrite Et2, list_lookup_insert_eq by exact Hltn. reflexivity.
      * exact Hl.
      * lia.
      * change (ofile p1) with (<[fd := f]> (ofile p)). rewrite drop_insert_lt by lia. exact Hz'.
      * apply (dupable_step k _ f); assumption.
      * exists ft. rewrite E. f_equal. rewrite Et2. change (ofile p1) with (<[fd := f]> (ofile p)).
        rewrite list_insert_insert_eq, Ed. rewrite (take_S_r _ _ f) by (apply list_lookup_insert_eq; exact Hltp).
        rewrite take_insert_ge by lia. rewrite <-app_assoc. destruct s as [fs [] mm pi ft0 fl kt]. reflexivity.
    + apply nz_false in Ef as ->. erewrite bind_step by reflexivity.
      destruct (IH (S fd) s p Hne Hc Hp Hl ltac:(lia) Hz' (dupable_tail _ _ _ _ HD)) as (ft & E).
      exists ft. rewrite E, Ed, (take_S_r _ _ 0) by exact Hp0. rewrite <-app_assoc. reflexivity.
Qed.

(** The state with slot [i] of the table filled by [p]. *)
#[local] Abbreviation at_slot i p tab np ip c lk dp cl fs mm pi ft fl kt :=
  (Ksys fs (PState (<[i := p]> tab) np ip (Some c) lk dp cl) mm pi ft fl kt).

Lemma pmod_step i (f : proc -> proc) p tab np ip c lk dp cl (fs : fsys C) mm pi ft fl kt :
  (i < length tab)%nat ->
  onps (pmod i f) (at_slot i p tab np ip c lk dp cl fs mm pi ft fl kt) = Ok tt (at_slot i (f p) tab np ip c lk dp cl fs mm pi ft fl kt).
Proof.
  intros Hi. unfold onps, pmod. mstep. do 2 f_equal. cbn [kps Proc.ptable].
  rewrite (alter_insert _ _ _ p) by (apply list_lookup_insert_eq, Hi). rewrite list_insert_insert_eq. reflexivity.
Qed.

Lemma pget_step j q p i tab np ip c lk dp cl (fs : fsys C) mm pi ft fl kt :
  (<[i := p]> tab : list proc) !! j = Some q ->
  onps (pget j) (at_slot i p tab np ip c lk dp cl fs mm pi ft fl kt) = Ok q (at_slot i p tab np ip c lk dp cl fs mm pi ft fl kt).
Proof. intros Hj. rewrite (onps_run _ _ q (PState (<[i := p]> tab) np ip (Some c) lk dp cl)) by (apply pget_Ok, Hj). reflexivity. Qed.

Lemma acquire_step i p tab np ip c dp cl (fs : fsys C) mm pi ft fl kt :
  onps acquire_pt (at_slot i p tab np ip c false dp cl fs mm pi ft fl kt) = Ok tt (at_slot i p tab np ip c true (dp + 1) cl fs mm pi ft fl kt).
Proof. reflexivity. Qed.
Lemma release_step i p tab np ip c dp cl (fs : fsys C) mm pi ft fl kt :
  onps release_pt (at_slot i p tab np ip c true (dp + 1) cl fs mm pi ft fl kt) = Ok tt (at_slot i p tab np ip c false dp cl fs mm pi ft fl kt).
Proof. replace dp with (dp + 1 - 1) at 2 by lia. reflexivity. Qed.

(** idup of the directory of the running process. *)
Definition more_ref (i : inode) : inode := i <| Fs.ref := i32 (Fs.ref i + 1) |>.
Lemma idup_step s c cp ip :
  cur (kps s) = Some c -> Proc.ptable (kps s) !! c = Some cp -> iclocked (kfs s) = false ->
  exists fs, onfs (idup ip) s = Ok ip (s <| kfs := fs |>) /\ inodes fs = alter more_ref ip (inodes (kfs s)) /\ iclocked fs = false.
Proof.
  intros Hc Hp Hi. eexists. split.
  - unfold onfs. rewrite (bind_step _ _ _ _ _ (curproc_run s c cp Hc Hp)). unfold as_proc, idup, acquire_ic, release_ic, imod. mstep.
    cbn [assign iclocked kfs]. rewrite Hi. cbn [assign iclocked]. reflexivity.
  - split; reflexivity.
Qed.

(** ** What fork needs and what it does *)

Record fork_ready s (c : nat) (cp : proc) (L : list Z) (T : gmap Z Z) (U : VmSpace.frames) : Prop := ForkReady {
  fr_refs : KernelRefs.kinv s;
  fr_cur : cur (kps s) = Some c;
  fr_proc : Proc.ptable (kps s) !! c = Some cp;
  fr_running : state cp = RUNNING;
  fr_ptlock : ptlocked (kps s) = false;
  fr_iclock : iclocked (kfs s) = false;
  fr_space : space (kmm s) L (pgdir cp) T U;
  fr_size : 0 <= sz cp <= KERNBASE;
  fr_pages : forall i, 0 <= i < (sz cp + 4095) / 4096 -> is_Some (U !! i)
}.

(** The child: in the first free slot, with a stack and an address space made of pages
    that were free, a copy of the memory of its parent, and the directory counted. *)
Definition child_made s s' (c : nat) (cp : proc) (L : list Z) (T : gmap Z Z) (U : VmSpace.frames) : Prop :=
  exists i child L' Td Ud,
    scan (fun _ p => is_state UNUSED p) (Proc.ptable (kps s)) = Some i /\ Proc.ptable (kps s') !! i = Some child
    /\ child_of c cp child /\ state child = RUNNABLE /\ pid child = nextpid (kps s)
    /\ (forall j, j <> i -> Proc.ptable (kps s') !! j = Proc.ptable (kps s) !! j)
    /\ kstack child ∈ L /\ (kstack child ∉ L') /\ ~ owns (pgdir child) Td Ud (kstack child)
    /\ two_spaces kend PHYSTOP (kmm s') L' (pgdir cp) T U (pgdir child) Td Ud
    /\ copied (kmem_mem (kmm s')) U Ud ((sz cp + 4095) / 4096)
    /\ (forall va, KERNBASE <= va < 2 ^ 32 -> pte (kmem_mem (kmm s')) Td va = kernel_pte PHYSTOP kdata va)
    /\ conserved L (fun _ => False) L' (fun p => p = kstack child \/ owns (pgdir child) Td Ud p)
    /\ inodes (kfs s') = alter more_ref (Z.to_nat (Proc.cwd cp - 1)) (inodes (kfs s)).

(** No child: every page is back and no slot was taken. *)
Definition fork_undone s s' (cp : proc) (L : list Z) (T : gmap Z Z) (U : VmSpace.frames) : Prop :=
  kfs s' = kfs s /\ ftable s' = ftable s
  /\ (exists L', space (kmm s') L' (pgdir cp) T U /\ L' ≡ₚ L)
  /\ forall j q', Proc.ptable (kps s') !! j = Some q' ->
       exists q, Proc.ptable (kps s) !! j = Some q /\ (q' = q \/ (state q = UNUSED /\ state q' = UNUSED)).

Lemma ready_dupable s c cp L T U : fork_ready s c cp L T U -> dupable NOFILE (ftable s) (ofile cp).
Proof.
  intros [[HC _] Hc Hp _ _ _ _ _ _] f Hin Hf. apply list_elem_of_lookup_1 in Hin as [fd Hfd].
  assert (tabs s !! c = Some (ofile cp)) as Ht by (unfold tabs; rewrite list_lookup_fmap, Hp; reflexivity).
  assert (in_ftable f) as [Hf1 Hf2] by exact (in_table_file _ _ _ (curtab_files _ _ _ HC (ex_intro _ c (conj Hc Ht))) Hfd Hf).
  split; [exact Hf1|]. destruct (lookup_lt_is_Some_2 (ftable s) (Z.to_nat (f - 1))) as [x Hx]; [rewrite (c_len _ _ HC); lia|].
  exists x. split_and!; [exact Hx | exact (fd_counted s c (ofile cp) fd f x HC Ht Hfd Hf1 Hx)|].
  pose proof (small_count _ s f x HC Hf1 Hx). unfold NOFILE. change (2 ^ 31 - 1) with 2147483647. lia.
Qed.

(** The slot fork takes: it is not the parent's, and has no descriptor. *)
Lemma ready_slot s c cp L T U i :
  fork_ready s c cp L T U -> scan (fun _ p => is_state UNUSED p) (Proc.ptable (kps s)) = Some i ->
  i <> c /\ length (ofile cp) = NOFILE /\ exists p, Proc.ptable (kps s) !! i = Some p /\ state p = UNUSED /\ ofile p = replicate NOFILE 0.
Proof.
  intros [[HC HD] Hc Hcp Hr _ _ _ _ _] Hsc. destruct (scan_Some _ _ _ Hsc) as ((p & Hp & Hu) & _). apply is_state_true in Hu.
  assert (tabs s !! c = Some (ofile cp)) as Ht by (unfold tabs; rewrite list_lookup_fmap, Hcp; reflexivity).
  split_and!; [congruence | pose proof (c_tab _ _ HC) as HF; rewrite Forall_lookup in HF; exact (HF c _ Ht)|]. exists p. split_and!; auto.
  apply (HD i); [unfold slots | unfold tabs]; rewrite list_lookup_fmap, Hp; [|reflexivity].
  cbn. f_equal. unfold dead, is_state. rewrite Hu. reflexivity.
Qed.

(** fork from the copy of the memory on: [p] is the child as far as it is made. *)
Lemma finish_fork c cp i p q tab np ip dp cl (fs : fsys C) mm pi ft kt :
  i <> c -> tab !! i = Some q -> tab !! c = Some cp -> length (ofile cp) = NOFILE -> ofile p = replicate NOFILE 0 ->
  dupable NOFILE ft (ofile cp) -> iclocked fs = false ->
  let p' := p <| ofile := ofile cp |> <| Proc.cwd := Proc.cwd cp |> <| name := name cp |> <| state := RUNNABLE |> in
  exists fs' ft',
    (dup_fds NOFILE c i 0;; onfs (idup (Z.to_nat (Proc.cwd cp - 1)));;
     onps (pmod i (fun p => p <| Proc.cwd := Proc.cwd cp |> <| name := name cp |>));;
     p ← onps (pget i);
     onps acquire_pt;; onps (pmod i (fun p => p <| state := RUNNABLE |>));; onps release_pt;; mret (pid p)) (at_slot i p tab np ip c false dp cl fs mm pi ft false kt)
    = Ok (pid p) (at_slot i p' tab np ip c false dp cl fs' mm pi ft' false kt)
    /\ inodes fs' = alter more_ref (Z.to_nat (Proc.cwd cp - 1)) (inodes fs).
Proof.
  intros Hne Hq Hcp Hlen Hz HD Hic p'. pose proof (lookup_lt_Some _ _ _ Hq) as Hi.
  assert ((<[i := p]> tab : list proc) !! c = Some cp) as Hc by (rewrite list_lookup_insert_ne by congruence; exact Hcp).
  destruct (dup_fds_run c i cp NOFILE 0 (at_slot i p tab np ip c false dp cl fs mm pi ft false kt) p) as (ft' & E1);
    [congruence | exact Hc | apply list_lookup_insert_eq, Hi | reflexivity | exact Hlen | exact Hz | exact HD|].
  set (p1 := p <| ofile := ofile cp |>). set (s1 := at_slot i p1 tab np ip c false dp cl fs mm pi ft' false kt).
  match type of E1 with _ = Ok _ ?t => assert (t = s1) as Et by (unfold s1; rewrite <-(list_insert_insert_eq tab i p1 p); reflexivity) end.
  rewrite Et in E1. rewrite (bind_step _ _ _ _ _ E1).
  destruct (idup_step s1 c cp (Z.to_nat (Proc.cwd cp - 1))) as (fs' & E2 & Ei & Hic');
    [reflexivity | change ((<[i := p1]> tab : list proc) !! c = Some cp); rewrite list_lookup_insert_ne by congruence; exact Hcp | exact Hic|].
  rewrite (bind_step _ _ _ _ _ E2). exists fs', ft'. split; [|exact Ei].
  change (s1 <| kfs := fs' |>) with (at_slot i p1 tab np ip c false dp cl fs' mm pi ft' false kt).
  rewrite (bind_step _ _ _ _ _ (pmod_step i _ p1 tab np ip c false dp cl fs' mm pi ft' false kt Hi)).
  erewrite bind_step by (apply pget_step, list_lookup_insert_eq, Hi).
  erewrite bind_step by apply acquire_step. rewrite (bind_step _ _ _ _ _ (pmod_step i _ _ tab np ip c true (dp + 1) cl fs' mm pi ft' false kt Hi)).
  erewrite bind_step by apply release_step. reflexivity.
Qed.

(** A free page taken or given back leaves an address space as it was. *)
Lemma space_less (m m' : kstate) g L pgdir T U : space m (g :: L) pgdir T U -> Kalloc.kinv kend PHYSTOP m' L -> kmem_mem m' = kmem_mem m -> space m' L pgdir T U.
Proof.
  intros HS HI Hm. apply (space_frame kend PHYSTOP m (g :: L) pgdir T U m' L HS HI); [|intros x _; rewrite Hm; reflexivity].
  intros p Hp Ho. apply (space_owns_ok _ _ _ _ _ _ _ p HS Ho). right. exact Hp.
Qed.

Lemma space_free_page (m : kstate) L pgdir T U v :
  space m L pgdir T U -> page_ok kend PHYSTOP v -> v ∉ L -> ~ owns pgdir T U v ->
  exists m', kfree kend PHYSTOP v m = Ok tt m' /\ space m' (v :: L) pgdir T U /\ own_bytes pgdir T U (kmem_mem m) (kmem_mem m').
Proof.
  intros HS Hv HvL Hvo. destruct (kfree_spec kend PHYSTOP m L v (sp_kinv _ _ _ _ _ _ _ HS) Hv HvL) as (m' & E & HI & _ & Hm).
  exists m'. split; [exact E|]. apply (space_other kend PHYSTOP m L pgdir T U m' (v :: L) (fun p => p = v) HS HI).
  - intros p Hp Ho. apply elem_of_cons in Hp as [-> | Hp]; [exact (Hvo Ho) | exact (proj2 (space_owns_ok _ _ _ _ _ _ _ p HS Ho) Hp)].
  - intros p ->. auto.
  - intros x Hx. rewrite Hm. apply freed_mem_frame. exact (Hx v eq_refl).
Qed.

(** fork once it has a slot and a stack page; [p] is what allocproc made of the slot. *)
Lemma fork_with_stack (fs : fsys C) tab np np' ip c dp cl mm mm1 pi ft kt cp L stack T U i q p :
  fork_ready (Ksys fs (PState tab np ip (Some c) false dp cl) mm pi ft false kt) c cp (stack :: L) T U -> kernel_layout PHYSTOP kdata ->
  scan (fun _ p => is_state UNUSED p) tab = Some i -> tab !! i = Some q -> state q = UNUSED -> ofile q = replicate NOFILE 0 ->
  p = fresh_proc np q <| kstack := stack |> -> Kalloc.kinv kend PHYSTOP mm1 L -> kmem_mem mm1 = kmem_mem mm ->
  let s := Ksys fs (PState tab np ip (Some c) false dp cl) mm pi ft false kt in
  exists r s',
    (cp ← onps (pget c);
     onps (pmod i (inherit cp));;
     pd ← onmm (copyuvm kend PHYSTOP kdata (pgdir cp) (sz cp));
     onps (pmod i (fun p => p <| pgdir := pd |>));;
     if pd =? 0 then
       p ← onps (pget i); onmm (kfree kend PHYSTOP (kstack p));;
       onps (pmod i (fun p => p <| kstack := 0 |> <| state := UNUSED |>));; mret (- ENOMEM)
     else
       onps (pmod i (fun p => p <| sz := sz cp |> <| parent := Some c |> <| tf := tf cp <| eax := 0 |> |>));;
       dup_fds NOFILE c i 0;; onfs (idup (Z.to_nat (Proc.cwd cp - 1)));;
       onps (pmod i (fun p => p <| Proc.cwd := Proc.cwd cp |> <| name := name cp |>));;
       p ← onps (pget i);
       onps acquire_pt;; onps (pmod i (fun p => p <| state := RUNNABLE |>));; onps release_pt;; mret (pid p))
      (at_slot i p tab np' ip c false dp cl fs mm1 pi ft false kt) = Ok r s'
    /\ own_bytes (pgdir cp) T U (kmem_mem mm) (kmem_mem (kmm s'))
    /\ ((r = np /\ child_made s s' c cp (stack :: L) T U) \/ (r = - ENOMEM /\ fork_undone s s' cp (stack :: L) T U)).
Proof.
  intros HR HL Hsc Hq Hqu Hqf Ep HI1 Em1 s. pose proof HR as [HX _ Hcp Hrun _ Hic HS Hsz Hpg]. cbn [kps Proc.ptable kfs kmm] in *.
  pose proof (lookup_lt_Some _ _ _ Hq) as Hi. assert (i <> c) as Hne by congruence.
  assert (forall p : proc, (<[i := p]> tab : list proc) !! c = Some cp) as Hc by (intros p'; rewrite list_lookup_insert_ne by congruence; exact Hcp).
  pose proof (space_less _ _ _ _ _ _ _ HS HI1 Em1) as HS1. pose proof (sp_kinv _ _ _ _ _ _ _ HS) as HI0.
  pose proof (k_nodup _ _ _ _ HI0) as Hnd. apply NoDup_cons in Hnd as [HstL Hnd].
  pose proof (k_pages _ _ _ _ HI0) as Hpages. apply Forall_cons in Hpages as [Hst _].
  assert (~ owns (pgdir cp) T U stack) as Hsto by (intros Ho; apply (space_owns_ok _ _ _ _ _ _ _ stack HS Ho); left).
  destruct (copyuvm_spec kend PHYSTOP kdata Hk mm1 L (pgdir cp) T U (sz cp) HL HS1 Hsz Hpg) as (d & mm2 & L2 & E2 & HO2 & HD).
  rewrite Em1 in HO2. erewrite bind_step by (apply pget_step, Hc).
  rewrite (bind_step _ _ _ _ _ (pmod_step i (inherit cp) p tab np' ip c false dp cl fs mm1 pi ft false kt Hi)).
  erewrite bind_step by (apply onmm_run; exact E2).
  change (_ <| kmm := mm2 |>) with (at_slot i (inherit cp p) tab np' ip c false dp cl fs mm2 pi ft false kt).
  rewrite (bind_step _ _ _ _ _ (pmod_step i _ (inherit cp p) tab np' ip c false dp cl fs mm2 pi ft false kt Hi)).
  destruct HD as [(Hd & Td & Ud & HTS & HCp & Hker & Hcons) | (-> & HS2 & HP2)].
  - rewrite (proj2 (Z.eqb_neq _ _) Hd). rewrite (bind_step _ _ _ _ _ (pmod_step i _ _ tab np' ip c false dp cl fs mm2 pi ft false kt Hi)).
    set (p1 := _ <| sz := _ |> <| parent := _ |> <| tf := _ |>).
    destruct (ready_slot _ _ _ _ _ _ i HR Hsc) as (_ & Hlen & _).
    destruct (finish_fork c cp i p1 q tab np' ip dp cl fs mm2 pi ft kt Hne Hq Hcp Hlen) as (fs' & ft' & E3 & Ei);
      [subst p1 p; exact Hqf | exact (ready_dupable _ _ _ _ _ _ HR) | exact Hic|].
    rewrite E3. eexists _, _. split; [reflexivity|]. split; [exact HO2|]. left. subst p p1. split; [reflexivity|].
    eexists i, _, L2, Td, Ud. cbn [kps Proc.ptable kfs kmm]. split_and!.
    + exact Hsc.
    + apply list_lookup_insert_eq, Hi.
    + split; try reflexivity; split_and!; reflexivity.
    + reflexivity.
    + reflexivity.
    + intros j Hj. apply list_lookup_insert_ne. congruence.
    + left.
    + intros Hin. apply HstL. destruct (proj2 (Hcons stack) (or_introl Hin)) as [H' | []]. exact H'.
    + intros Ho. apply HstL. destruct (proj2 (Hcons stack) (or_intror Ho)) as [H' | []]. exact H'.
    + exact HTS.
    + exact HCp.
    + exact Hker.
    + intros x. specialize (Hcons x). rewrite elem_of_cons. cbn. tauto.
    + exact Ei.
  - change (0 =? 0) with true. cbv iota. erewrite bind_step by (apply pget_step, list_lookup_insert_eq, Hi).
    assert (stack ∉ L2) as HstL2 by (rewrite HP2; exact HstL).
    destruct (space_free_page mm2 L2 (pgdir cp) T U stack HS2 Hst HstL2 Hsto) as (mm3 & E3 & HS3 & HO3).
    set (p1 := inherit cp p <| pgdir := 0 |>). assert (kstack p1 = stack) as Ek by (subst p1 p; reflexivity). rewrite Ek.
    erewrite bind_step by (apply onmm_run; exact E3).
    change (_ <| kmm := mm3 |>) with (at_slot i p1 tab np' ip c false dp cl fs mm3 pi ft false kt).
    rewrite (bind_step _ _ _ _ _ (pmod_step i _ p1 tab np' ip c false dp cl fs mm3 pi ft false kt Hi)).
    eexists _, _. split; [reflexivity|]. split; [intros y x Hy Hx; cbn [kmm]; rewrite (HO3 y x Hy Hx); exact (HO2 y x Hy Hx)|].
    right. split; [reflexivity|]. split_and!; [reflexivity | reflexivity | exists (stack :: L2); split; [exact HS3 | rewrite HP2; reflexivity]|].
    intros j q' Hj. cbn [kps Proc.ptable] in Hj |- *. destruct (decide (j = i)) as [-> | Hji].
    + rewrite list_lookup_insert_eq in Hj by exact Hi. injection Hj as <-. exists q. auto.
    + rewrite list_lookup_insert_ne in Hj by congruence. eauto.
Qed.

(** A fork that finds no slot or no page for the stack. *)
Lemma undone_early s s' cp L T U :
  kfs s' = kfs s -> ftable s' = ftable s -> space (kmm s') L (pgdir cp) T U -> kmem_mem (kmm s') = kmem_mem (kmm s) ->
  (forall j q', Proc.ptable (kps s') !! j = Some q' ->
     exists q, Proc.ptable (kps s) !! j = Some q /\ (q' = q \/ (state q = UNUSED /\ state q' = UNUSED))) ->
  own_bytes (pgdir cp) T U (kmem_mem (kmm s)) (kmem_mem (kmm s')) /\ fork_undone s s' cp L T U.
Proof.
  intros E1 E2 HS Hm Ht. split; [intros p x _ _; rewrite Hm; reflexivity|]. split_and!; auto. exists L. auto.
Qed.

Lemma kfork_run s c cp L T U :
  kernel_layout PHYSTOP kdata -> fork_ready s c cp L T U ->
  exists r s', kfork kend PHYSTOP kdata s = Ok r s' /\ own_bytes (pgdir cp) T U (kmem_mem (kmm s)) (kmem_mem (kmm s'))
    /\ ((r = nextpid (kps s) /\ child_made s s' c cp L T U) \/ (r = - ENOMEM /\ fork_undone s s' cp L T U)).
Proof.
  intros HL HR. pose proof HR as [HX Hcur Hcp _ Hlk _ HS _ _]. pose proof (c_lock _ _ (k_counted _ HX)) as Hft.
  destruct s as [fs [tab np ip cu lk dp cl] mm pi ft fl kt]. cbn [kps cur ptlocked ftlocked kmm] in Hcur, Hlk, Hft, HS. subst cu lk fl.
  unfold kfork. erewrite bind_step by (apply onps_run; reflexivity). set (s0 := Ksys fs _ mm pi ft false kt) in *.
  change (s0 <| kps := _ |>) with s0. erewrite bind_step by reflexivity. change (Proc.ptable (kps s0)) with tab.
  destruct (scan (fun _ p => is_state UNUSED p) tab) as [i|] eqn:Hsc.
  2:{ cbv iota. erewrite bind_step by reflexivity. erewrite bind_step by (apply onps_run, allocproc_full; [reflexivity | exact Hsc]).
      eexists _, _. split; [reflexivity|]. edestruct undone_early as [H1 H2]; [..|split; [exact H1 | right; split; [reflexivity | exact H2]]]; eauto. }
  destruct (ready_slot _ _ _ _ _ _ i HR Hsc) as (Hne & Hlen & q & Hq & Hqu & Hqf). change (tab !! i = Some q) in Hq. pose proof (lookup_lt_Some _ _ _ Hq) as Hi.
  destruct (kalloc_spec kend PHYSTOP mm L (sp_kinv _ _ _ _ _ _ _ HS)) as (mm1 & E1 & HI1 & _ & Em1).
  erewrite bind_step by (apply onmm_run; exact E1).
  erewrite bind_step by (apply onps_run, allocproc_free; [reflexivity | exact Hsc]). destruct L as [|stack L]; cbn [hd tail] in *.
  - change (0 =? 0) with true. cbv iota. eexists _, _. split; [reflexivity|].
    edestruct undone_early as [H1 H2]; [..|split; [exact H1 | right; split; [reflexivity | exact H2]]]; try reflexivity; [|exact Em1|].
    + apply (space_frame kend PHYSTOP mm [] (pgdir cp) T U mm1 [] HS HI1); [intros p Hp; inversion Hp | intros x _; rewrite Em1; reflexivity].
    + intros j q' Hj. change (alter (fun p => fresh_proc np p <| kstack := 0 |> <| state := UNUSED |>) i tab !! j = Some q') in Hj.
      destruct (decide (j = i)) as [-> | Hji].
      * rewrite (lookup_alter_same _ i tab q Hq) in Hj. injection Hj as <-. exists q. auto.
      * rewrite list_lookup_alter_ne in Hj by congruence. eauto.
  - pose proof (k_pages _ _ _ _ (sp_kinv _ _ _ _ _ _ _ HS)) as Hpages. apply Forall_cons in Hpages as [(_ & Hst & _) _].
    rewrite (proj2 (Z.eqb_neq stack 0)) by lia. cbv iota.
    destruct (fork_with_stack fs tab np (i32 (np + 1)) ip c dp cl mm mm1 pi ft kt cp L stack T U i q _ HR HL Hsc Hq Hqu Hqf eq_refl HI1 Em1)
      as (r & s' & E2 & HO & HRes).
    exists r, s'. split; [|split; [exact HO | exact HRes]]. rewrite <-E2.
    assert (<[i := fresh_proc np q <| kstack := stack |>]> tab = alter (fun p => fresh_proc np p <| kstack := stack |>) i tab) as ->
      by (symmetry; exact (alter_insert _ i tab q Hq)). reflexivity.
Qed.

(** ** waitpid *)

(** The state in which a zombie child [p] of [me] waits: both have their address spaces,
    and the child its stack. *)
Record wait_ready s (i : nat) (me : proc) (want : Z) (k : nat) (p : proc) (L : list Z) (T : gmap Z Z) (U : VmSpace.frames) (Td : gmap Z Z) (Ud : VmSpace.frames) : Prop := WaitReady {
  wr_cur : cur (kps s) = Some i;
  wr_me : Proc.ptable (kps s) !! i = Some me;
  wr_running : state me = RUNNING;
  wr_lock : ptlocked (kps s) = false;
  wr_first : scan (fun _ p => reapable i want p) (Proc.ptable (kps s)) = Some k;
  wr_child : Proc.ptable (kps s) !! k = Some p;
  wr_spaces : two_spaces kend PHYSTOP (kmm s) L (pgdir me) T U (pgdir p) Td Ud;
  wr_stack : page_ok kend PHYSTOP (kstack p);
  wr_apart : (kstack p ∉ L) /\ ~ owns (pgdir me) T U (kstack p) /\ ~ owns (pgdir p) Td Ud (kstack p)
}.

(** The pages of the child, given back while its parent looks on. *)
Lemma free_child (m : kstate) L pgdir T U d Td Ud stack :
  two_spaces kend PHYSTOP m L pgdir T U d Td Ud -> page_ok kend PHYSTOP stack -> stack ∉ L ->
  ~ owns pgdir T U stack -> ~ owns d Td Ud stack ->
  exists m1 m2 L', kfree kend PHYSTOP stack m = Ok tt m1 /\ freevm kend PHYSTOP d m1 = Ok tt m2
    /\ space m2 L' pgdir T U /\ own_bytes pgdir T U (kmem_mem m) (kmem_mem m2)
    /\ forall x, x ∈ L' <-> x ∈ L \/ x = stack \/ owns d Td Ud x.
Proof.
  intros [HP HC Hap] Hst HstL HstP HstC. destruct (space_free_page m L pgdir T U stack HP Hst HstL HstP) as (m1 & E1 & HP1 & HO1).
  destruct (space_free_page m L d Td Ud stack HC Hst HstL HstC) as (m1' & E1' & HC1 & _). rewrite E1 in E1'. injection E1' as <-.
  destruct (freevm_spec kend PHYSTOP Hk m1 (stack :: L) d Td Ud HC1) as (m2 & F & E2 & HI2 & HF & Hm2).
  destruct (space_other kend PHYSTOP m1 (stack :: L) pgdir T U m2 (F ++ stack :: L) (owns d Td Ud) HP1 HI2) as [HP2 HO2]; [| |exact Hm2|].
  - intros x Hx Ho. apply elem_of_app in Hx as [Hx | Hx]; [apply HF in Hx; exact (Hap x Ho Hx)|].
    exact (proj2 (space_owns_ok _ _ _ _ _ _ _ x HP1 Ho) Hx).
  - intros x Hx. split; [apply (space_owns_ok _ _ _ _ _ _ _ x HC1 Hx) | intros Ho; exact (Hap x Ho Hx)].
  - exists m1, m2, (F ++ stack :: L). split_and!; [exact E1 | exact E2 | exact HP2 | intros x y Hx Hy; rewrite (HO2 x y Hx Hy); exact (HO1 x y Hx Hy)|].
    intros x. rewrite elem_of_app, elem_of_cons, (HF x). tauto.
Qed.

Lemma pass_reaps tab np ip cu dp cl i want k p o :
  scan (fun _ p => reapable i want p) tab = Some k -> tab !! k = Some p ->
  waitpid_pass i want false o (PState tab np ip cu true dp cl)
    = Ok (Reaped (pid p) None)
        (PState (alter (fun c => c <| sigpending := Z.ldiff (sigpending c) (Z.shiftl 1 SIGCHLD) |>) i (alter reaped_proc k tab))
           np ip cu false (dp - 1) ((cl ++ [CKfree (kstack p)]) ++ [CFreevm (pgdir p)])).
Proof.
  intros Hsc Hp. unfold waitpid_pass. erewrite bind_step by reflexivity. psimp. rewrite Hsc.
  erewrite bind_step by (apply pget_Ok; exact Hp). cbv zeta.
  rewrite emit_bind, pmod_bind, emit_bind, !pmod_bind. psimp. rewrite !alter_alter. pstep1. reflexivity.
Qed.

Lemma kwaitpid_run s i me want k p L T U Td Ud o :
  wait_ready s i me want k p L T U Td Ud ->
  exists s' L' q, kwaitpid kend PHYSTOP want 0 o s = Ok (pid p) s' /\ space (kmm s') L' (pgdir me) T U
    /\ own_bytes (pgdir me) T U (kmem_mem (kmm s)) (kmem_mem (kmm s'))
    /\ (forall x, x ∈ L' <-> x ∈ L \/ x = kstack p \/ owns (pgdir p) Td Ud x)
    /\ Proc.ptable (kps s') !! k = Some q /\ state q = UNUSED /\ kstack q = 0 /\ pid q = 0
    /\ (forall j, j <> k -> j <> i -> Proc.ptable (kps s') !! j = Proc.ptable (kps s) !! j)
    /\ ptlocked (kps s') = false /\ kfs s' = kfs s /\ ftable s' = ftable s.
Proof.
  intros [Hcur Hme Hrun Hlk Hsc Hp HTS Hst (HstL & HstP & HstC)].
  destruct (free_child _ _ _ _ _ _ _ _ _ HTS Hst HstL HstP HstC) as (m1 & m2 & L' & E1 & E2 & HS2 & HO & HL').
  destruct s as [fs [tab np ip cu lk dp cl] mm pi ft fl kt]. cbn [kps cur Proc.ptable ptlocked kmm] in Hcur, Hme, Hlk, Hsc, Hp, E1, HO. subst cu lk.
  assert (i <> k) as Hne.
  { intros <-. destruct (scan_Some _ _ _ Hsc) as ((q & Hq & Hr) & _). apply reapable_iff in Hr. destruct Hr as (_ & _ & H3). congruence. }
  unfold kwaitpid. erewrite bind_step by (apply onps_run; reflexivity). erewrite bind_step by (apply onps_run; reflexivity).
  set (s1 := Ksys fs (PState tab np ip (Some i) true (dp + 1) cl) mm pi ft fl kt). change (_ <| kps := _ |>) with s1.
  erewrite bind_step by reflexivity. change (Proc.ptable (kps s1)) with tab. rewrite Hsc.
  erewrite bind_step by (apply onps_run, pget_Ok, Hp). change (s1 <| kps := _ |>) with s1.
  rewrite (bind_step _ _ _ _ _ (curproc_run s1 i me eq_refl Hme)). change (nz 0) with false. cbn [when]. erewrite bind_step by reflexivity.
  erewrite bind_step by (apply onmm_run; exact E1). erewrite bind_step by (apply onmm_run; exact E2).
  change (s1 <| kmm := m1 |> <| kmm := m2 |>) with (Ksys fs (PState tab np ip (Some i) true (dp + 1) cl) m2 pi ft fl kt).
  erewrite bind_step by (apply onps_run, (pass_reaps tab np ip (Some i) (dp + 1) cl i want k p o Hsc Hp)).
  eexists _, L', (reaped_proc p). split; [reflexivity|]. split_and!; try reflexivity; [exact HS2 | exact HO | exact HL' | |].
  - change (alter (fun c => c <| sigpending := Z.ldiff (sigpending c) (Z.shiftl 1 SIGCHLD) |>) i (alter reaped_proc k tab) !! k = Some (reaped_proc p)).
    apply lookup_alter_other, lookup_alter_same; assumption.
  - intros j Hj Hji. change (alter (fun c => c <| sigpending := Z.ldiff (sigpending c) (Z.shiftl 1 SIGCHLD) |>) i (alter reaped_proc k tab) !! j = tab !! j).
    rewrite !list_lookup_alter_ne by congruence. reflexivity.
Qed.

(** fork and waitpid together: when the child of a fork is reaped with its pages as fork
    left them, the free pages are those there were before the fork. *)
Lemma fork_wait_conserves s s' c cp L T U s2 me want o :
  child_made s s' c cp L T U -> kmm s2 = kmm s' -> pgdir me = pgdir cp ->
  (forall i child, scan (fun _ p => is_state UNUSED p) (Proc.ptable (kps s)) = Some i -> Proc.ptable (kps s') !! i = Some child ->
     cur (kps s2) = Some c /\ Proc.ptable (kps s2) !! c = Some me /\ state me = RUNNING /\ ptlocked (kps s2) = false
     /\ scan (fun _ p => reapable c want p) (Proc.ptable (kps s2)) = Some i
     /\ exists z, Proc.ptable (kps s2) !! i = Some z /\ kstack z = kstack child /\ pgdir z = pgdir child) ->
  space (kmm s) L (pgdir cp) T U ->
  exists r s3 L3, kwaitpid kend PHYSTOP want 0 o s2 = Ok r s3 /\ space (kmm s3) L3 (pgdir me) T U /\ forall x, x ∈ L3 <-> x ∈ L.
Proof.
  intros (i & child & L' & Td & Ud & Hsc & Hch & _ & _ & _ & _ & HstL & HstL' & HstC & HTS & _ & _ & Hcons & _) Em Ed Hz HS0.
  destruct (Hz i child Hsc Hch) as (H1 & H2 & H3 & H4 & H5 & z & Hz1 & Hz2 & Hz3). clear Hz.
  pose proof (k_pages _ _ _ _ (sp_kinv _ _ _ _ _ _ _ HS0)) as HPL. rewrite Forall_forall in HPL.
  destruct (kwaitpid_run s2 c me want i z L' T U Td Ud o) as (s3 & L3 & q & E & HS3 & _ & HL3 & _).
  - split; auto; rewrite ?Em, ?Ed, ?Hz2, ?Hz3; [exact HTS | apply HPL, HstL | split_and!; auto].
    intros Ho. exact (proj2 (space_owns_ok _ _ _ _ _ _ _ _ HS0 Ho) HstL).
  - exists (pid z), s3, L3. split_and!; [exact E | exact HS3|]. intros x. specialize (Hcons x). rewrite (HL3 x), Hz2, Hz3. tauto.
Qed.
End fork_thm.

(** C12. fork in the whole kernel.  The running process has an address space whose first
    [sz] bytes are mapped.  Then fork returns.  Either it returns the next pid, and the
    first free slot holds a RUNNABLE child with the parent's registers but eax = 0, its
    files, directory, ids, group and handlers, a kernel stack and an address space made
    of pages that were free, and the bytes of the parent's memory on frames of its own;
    or it returns -ENOMEM, whichever of the slot, the stack, a page table or a frame was
    missing, with every page back on the free list, no slot taken and no file or
    directory counted.  The parent's memory is as it was, and every open file counts the
    descriptors that name it. *)
Theorem kfork_correct {C} `{BufCache C} kend PHYSTOP kdata (s : ksys C) c cp L T U :
  KERNBASE < kend -> kernel_layout PHYSTOP kdata -> fork_ready kend PHYSTOP s c cp L T U ->
  exists r s', kfork kend PHYSTOP kdata s = Ok r s' /\ KernelRefs.kinv s'
    /\ own_bytes (pgdir cp) T U (kmem_mem (kmm s)) (kmem_mem (kmm s'))
    /\ ((r = nextpid (kps s) /\ child_made kend PHYSTOP kdata s s' c cp L T U)
        \/ (r = - ENOMEM /\ fork_undone kend PHYSTOP s s' cp L T U)).
Proof.
  intros Hk HL HR. destruct (kfork_run kend PHYSTOP kdata Hk s c cp L T U HL HR) as (r & s' & E & HX).
  exists r, s'. split; [exact E|]. split; [|exact HX]. apply (kinv_fork kend PHYSTOP kdata c s r s' (fr_refs _ _ _ _ _ _ _ _ HR) (fr_cur _ _ _ _ _ _ _ _ HR)); [|exact E].
  unfold slots. rewrite list_lookup_fmap, (fr_proc _ _ _ _ _ _ _ _ HR). cbn. f_equal. unfold dead, is_state. rewrite (fr_running _ _ _ _ _ _ _ _ HR). reflexivity.
Qed.

(** The process of FdRefs.v with the address space of VmLife.v, where one page is free:
    fork gets a stack but no page directory. *)
Definition fork_proc : proc := fd_proc 0 <| pgdir := lf_dir |>.
Definition fork_sys : ksys bstate :=
  fd_sys <| kps := kps fd_sys <| Proc.ptable := <[0%nat := fork_proc]> (Proc.ptable (kps fd_sys)) |> |> <| kmm := lf_state |>.

Lemma fork_sys_ready : fork_ready lf_end lf_top fork_sys 0 fork_proc [lf_free] lf_T lf_U.
Proof.
  split; try reflexivity.
  - apply (kinv_taken fd_sys fork_sys fd_sys_kinv). vm_compute. split_and!; reflexivity.
  - exact lf_space.
  - unfold KERNBASE. cbn. lia.
  - intros i Hi. change ((sz fork_proc + 4095) / 4096) with 1 in Hi. replace i with 0 by lia. exists (lf_frame, 7). reflexivity.
Qed.

Lemma kfork_correct_witness :
  exists s', kfork lf_end lf_top lf_data fork_sys = Ok (- ENOMEM) s' /\ KernelRefs.kinv s' /\ fork_undone lf_end lf_top fork_sys s' fork_proc [lf_free] lf_T lf_U.
Proof.
  destruct (kfork_correct lf_end lf_top lf_data fork_sys 0 fork_proc [lf_free] lf_T lf_U eq_refl lf_layout fork_sys_ready)
    as (r & s' & E & HI & _ & [[-> _] | [-> HU]]); [|exists s'; auto].
  exfalso. assert (match kfork lf_end lf_top lf_data fork_sys with Ok r _ => r | _ => 0 end = - ENOMEM) as Er by (vm_compute; reflexivity).
  rewrite E in Er. discriminate.
Defined.

(** C24. The other end of fork: waitpid on a zombie child returns its pid, leaves its slot
    free without a stack, and puts exactly the child's stack and the pages of its address
    space on the free list, each once; the parent's memory, and every other process, file
    and inode, is as it was. *)
Theorem kwaitpid_correct {C} `{BufCache C} kend PHYSTOP (s : ksys C) i me want k p L T U Td Ud o :
  KERNBASE < kend -> wait_ready kend PHYSTOP s i me want k p L T U Td Ud ->
  exists s' L' q, kwaitpid kend PHYSTOP want 0 o s = Ok (pid p) s' /\ space kend PHYSTOP (kmm s') L' (pgdir me) T U
    /\ own_bytes (pgdir me) T U (kmem_mem (kmm s)) (kmem_mem (kmm s'))
    /\ (forall x, x ∈ L' <-> x ∈ L \/ x = kstack p \/ owns (pgdir p) Td Ud x)
    /\ Proc.ptable (kps s') !! k = Some q /\ state q = UNUSED /\ kstack q = 0 /\ pid q = 0
    /\ (forall j, j <> k -> j <> i -> Proc.ptable (kps s') !! j = Proc.ptable (kps s) !! j)
    /\ ptlocked (kps s') = false /\ kfs s' = kfs s /\ ftable s' = ftable s.
Proof. intros Hk HW. exact (kwaitpid_run kend PHYSTOP Hk s i me want k p L T U Td Ud o HW). Qed.

(** A zombie child in slot 1, with an empty page directory and a stack. *)
Definition zombie_dir : Z := lf_end + 16384.
Definition zombie_stack : Z := lf_end + 20480.
Definition zombie : proc := fd_proc 1 <| state := ZOMBIE |> <| pid := 7 |> <| parent := Some 0%nat |> <| pgdir := zombie_dir |> <| kstack := zombie_stack |>.
Definition wait_sys : ksys bstate :=
  fork_sys <| kps := kps fork_sys <| Proc.ptable := <[1%nat := zombie]> (Proc.ptable (kps fork_sys)) |> |>.

Lemma zombie_space : space lf_end lf_top lf_state [lf_free] zombie_dir ∅ ∅.
Proof.
  split.
  - exact lf_kinv.
  - split; [vm_compute; split_and?; congruence | intros x q H; rewrite lookup_empty in H; discriminate | | intros x y q H; rewrite lookup_empty in H; discriminate].
    intros x Hx _. cbn [kmem_mem lf_state]. unfold load32, lf_mem. rewrite !store32_ne; [reflexivity | ..]; unfold lf_dir, lf_tab, zombie_dir, lf_end, KERNBASE; lia.
  - split; [rewrite list_elem_of_singleton; discriminate | intros x q H; rewrite lookup_empty in H; discriminate].
  - intros n f k H. rewrite lookup_empty in H. discriminate.
  - intros n f k H. rewrite lookup_empty in H. discriminate.
  - intros n n' f k k' H. rewrite lookup_empty in H. discriminate.
  - intros n Hn. unfold pte. rewrite !lookup_empty. reflexivity.
Qed.

Lemma wait_sys_ready : wait_ready lf_end lf_top wait_sys 0 fork_proc (-1) 1 zombie [lf_free] lf_T lf_U ∅ ∅.
Proof.
  assert (forall x, owns zombie_dir ∅ ∅ x -> x = zombie_dir) as Hz
    by (intros x [-> | [(y & Hy) | (n & k & Hn)]]; [reflexivity | rewrite lookup_empty in Hy; discriminate | rewrite lookup_empty in Hn; discriminate]).
  assert (forall x, owns lf_dir lf_T lf_U x -> x = lf_dir \/ x = lf_tab \/ x = lf_frame) as Hl.
  { intros x [-> | [(y & Hy) | (n & k & Hn)]]; [auto | unfold lf_T in Hy; apply lookup_singleton_Some in Hy as [_ <-]; auto|].
    unfold lf_U in Hn. apply lookup_singleton_Some in Hn as [_ [= <- <-]]. auto. }
  split; try reflexivity.
  - split; [exact lf_space | exact zombie_space|]. intros x Hx ->%Hz. destruct (Hl _ Hx) as [H | [H | H]]; discriminate.
  - vm_compute. split_and?; congruence.
  - split_and!; [rewrite list_elem_of_singleton; discriminate | intros Hx; destruct (Hl _ Hx) as [H | [H | H]]; discriminate | intros Hx%Hz; discriminate].
Qed.

Lemma kwaitpid_correct_witness :
  exists s' (L' : list Z), kwaitpid lf_end lf_top (-1) 0 0 wait_sys = Ok 7 s' /\ zombie_dir ∈ L' /\ zombie_stack ∈ L'.
Proof.
  destruct (kwaitpid_correct lf_end lf_top wait_sys 0 fork_proc (-1) 1 zombie [lf_free] lf_T lf_U ∅ ∅ 0 eq_refl wait_sys_ready)
    as (s' & L' & q & E & _ & _ & HL & _).
  exists s', L'. split; [exact E|]. split; apply HL; right; [right; left; reflexivity | left; reflexivity].
Defined.
